(* ===== verification/_CoqProject ===== *)
-Q . S2P
Prelude.v
GoString.v
GoFloat.v
GoText.v
GoHash.v
GoRegexp.v
Utils.v
Proc.v
Model.v
JsonWire.v
JudgeList.v
JudgeFunc.v
JudgeEvent.v
JudgeStore.v
ThirdParty.v
GraphUtil.v
GraphStore.v
GraphIndex.v
GraphApi.v
GraphQuery.v
GraphRrd.v
GraphMigrate.v
TransferCfg.v
TransferSender.v
TransferTasks.v
TransferTsdb.v
TransferRecv.v
Nodata.v
Pipeline.v
Hbs.v
HbsRules.v
Aggregator.v
Alarm.v
AlarmSend.v
AgentFuncs.v
AgentPlugins.v
Agent.v
ApiUic.v
ApiGraph.v
ApiTable.v
ApiPortal.v
ApiAlarm.v
ApiDashboard.v
ApiSite.v
Falcon2p8s.v
Control.v
