(* ===== verification/Prelude.v ===== *)
(** * A verification development of Falcon+

    Falcon+ is a monitoring system made of services that exchange points over RPC
    and HTTP and keep their state in memory, in redis, in MySQL and in files. An
    agent on every host reports points to a _transfer_, which sends each point to a
    _judge_ (alarm rules), to a _graph_ (storage) and to other sinks. The heartbeat
    server _hbs_ reads hosts, templates and rules from the database and answers
    agents and judges. _nodata_ makes up points for series that went silent and
    _aggregator_ points for clusters of hosts. _alarm_ turns the events of the judges
    into cases and messages. _api_ is the HTTP interface through which users change
    the database and read points; _falcon2p8s_ exports points to Prometheus. The
    command line starts and stops the services.

    ** What is modelled, and where

    - Prelude.v: outcomes of Go code that can panic ([result], [let!]), slices,
      64-bit integers with their wrap-around, loops with an early exit; the hint
      database and tactics of the development.
    - GoString.v, GoText.v, GoFloat.v, GoHash.v, GoRegexp.v: the parts of the Go
      library that the services use: strings, numbers as text, UTF-8, IEEE 754
      doubles (the SpecFloat format of the Standard Library), MD5 and CRC-32,
      regular expressions by derivatives.
    - Utils.v: common/utils (tags, series keys, checksums). A range over a map
      visits its keys in the order of the class [MapRange], any permutation.
    - Proc.v: common/proc, the counters of a service.
    - Model.v: the records of common/model.
    - JsonWire.v: a batch of the JSON-RPC between agents, transfers and relays: a
      value that is not finite loses the whole batch, and text that is not valid
      UTF-8 arrives replaced.
    - ThirdParty.v: the containers of github.com/toolkits as classes with laws
      (bounded list, map, sets, consistent hash ring), each with an instance.
    - JudgeList.v, JudgeFunc.v, JudgeEvent.v, JudgeStore.v: modules/judge. The list
      of recent points of a series (store/linkedlist.go), the alarm functions
      (store/func.go), the rules that apply to a point and the events they send
      (store/judge.go, g/var.go), the 256 shards, the receiver and the cron jobs
      (store/history.go, rpc/receiver.go, cron/).
    - GraphUtil.v, GraphStore.v, GraphIndex.v, GraphApi.v, GraphQuery.v, GraphRrd.v,
      GraphMigrate.v: modules/graph. Configuration and keys (g/), the sharded cache
      of points (store/), history and index (index/), the RPC handlers (api/) with
      the answer of a query in closed form (GraphQuery.v), the files: flushing, I/O workers, migration to other nodes (rrdtool/, cron/), and
      the goroutines that sweep over the shards and carry out migration tasks
      (rrdtool/sync_disk.go, rrdtool/migrate.go).
    - TransferCfg.v, TransferSender.v, TransferTasks.v, TransferTsdb.v,
      TransferRecv.v: modules/transfer. Configuration and connection pools (g/,
      common/backend_pool), the conversions and queues (sender/sender.go), the
      tasks that send batches (sender/send_tasks.go), the text that goes to
      OpenTSDB (common/model/tsdb.go), and the two receivers (receiver/rpc,
      receiver/socket).
    - Nodata.v: modules/nodata.
    - Hbs.v, HbsRules.v: modules/hbs. Queries and caches (db/, cache/), the answers
      to agents (rpc/agent.go), and the strategies of a host with the inheritance
      of templates (rpc/hbs.go).
    - Aggregator.v: modules/aggregator and common/sdk/sender. The expressions of a
      cluster, their values over its hosts, and the workers of the clusters.
    - Alarm.v, AlarmSend.v: modules/alarm. Events, cases, receivers and combined
      messages; the channels of SMS, IM and mail with their worker goroutines.
    - AgentFuncs.v, AgentPlugins.v, Agent.v: modules/agent. The collectors of the
      host, the plugins, and the rounds that collect and send.
    - ApiUic.v, ApiGraph.v, ApiTable.v, ApiPortal.v, ApiAlarm.v, ApiDashboard.v:
      modules/api. Accounts, sessions and teams; points and the series they belong
      to; a generic table of the database; host groups, templates, strategies,
      expressions; cases and notes; dashboards.
    - Falcon2p8s.v: modules/falcon2p8s.
    - Control.v: g and cmd, the command line.
    - Pipeline.v, ApiSite.v: the services together. ApiSite.v evaluates the queries
      of hbs on the tables that the handlers of api write.

    The state of a service is a record whose fields are its global variables; an
    operation takes the state and returns the new one. Clocks, database rows,
    answers of other services and random numbers are arguments. Where the order of
    operations matters the services are step relations ([judge_step] of
    JudgeStore.v, [task_step] of TransferRecv.v, [hbs_step] of Hbs.v, [alarm_step]
    and [send_step] of AlarmSend.v) and the invariants hold in every reachable state,
    whatever the interleaving.

    ** What the theorems show

    - Judge: the events of a rule form an alarm history in every reachable state and
      reach redis in order; the decision to send refines an abstract alarm machine;
      each alarm function computes its condition and never panics; each rule that
      applies to a point judges it once and no other does; the stored lists are the
      newest points of one series, and what is read of a list is what was pushed.
      Without a redis pool (alarms disabled) an event that is due panics, which the
      theorems on batches exclude by their hypothesis on the configuration.
    - Graph: the sharded store refines one map; a query answers, at
      each time of its grid, the cached point or that of the file, by an equation; a
      flush at exit writes every point; a migration loses no point and may deliver
      one again after a call that timed out; the invariant of the caches.
    - Transfer: a batch is routed to the queues its configuration asks for and never
      panics; every point routed to the judge is queued, in flight, sent, failed or
      dropped, and counted; the sinks agree on the series, time and value of a
      point; what one transfer relays in a batch that can be encoded the next accepts
      unchanged; the text written to OpenTSDB is one line per item, in order.
    - Nodata: the verdict on each series; hosts take precedence over groups; sending
      ends exactly when the batch size is positive.
    - Hbs: a host is answered exactly the strategies in force for it; ancestors of a
      template are found on any table, cycles included, by the test of the depth; the exchange of built-in
      metrics by checksum; agents and their rows; expressions as text.
    - Aggregator: a round pushes the quotient over exactly the hosts that have both
      values; the workers follow the table of clusters.
    - Alarm: the cases follow the alarm histories of the judges, their start moved by
      the database on an update; which cases are opened again when an alarm is raised
      again, with notes that arrive between the two statements of an event; an event reaches the users of its teams; every
      message that was written is started in order and posted exactly once, and the
      runs of the senders that do so are bounded.
    - Agent: what is collected is what the transfer receives, batch by batch; the built-in metrics
      the heartbeat server asked for are followed; the first batch can be encoded;
      the running plugins are those configured, for whatever the file system
      answers, a file that vanishes between two calls included.
    - Api: only those allowed change accounts and groups, where the default token of
      the configuration lets its holder act as any named account; the tables stay
      well formed when requests run one at a time; a deletion reaches the node that holds the series; graphs of a
      dashboard round-trip.
    - Falcon2p8s: the exported value of a counter is its first value and its
      increases since it was last removed, when points are handled one at a time; two
      workers on one series can race ([workers_race]).
    - Command line: start works through the modules in order and brings each up, or
      stops at the first that fails, which did not come up.
    - The services together: what the transfer sends the judge and the graph accept,
      a made-up point belongs to the series that went silent, and the strategies
      entered in the portal are those the judges are answered.

    ** Fuel and bounds

    Structural recursion is used wherever the code has a loop over a slice or a
    map. [ParentIds_loop] tells running out of fuel from the code's own test of
    the depth; with any fuel from 10 on it is that test that ends it. The loops of
    Nodata.v and GraphApi.v that the code leaves unbounded take fuel, and their
    theorems show which fuel is enough (the number of points, or of steps between
    two times), so that they give a result and not only a property of one. The fuel
    of [redial] of GraphMigrate.v runs out exactly when no dial succeeds
    ([redial_blocked]); [isStarted] of Control.v polls as often as its timeout
    allows. 64-bit
    wrap-around is written out where the code computes on times, steps and
    counters; lengths of slices are not bounded.

    ** What is not modelled

    Listeners, HTTP pages that print state, configuration decoding, log lines,
    sleeps and semaphores; the registration of routes and commands; the rrdtool
    library, the InfluxDB, OpenTSDB and Prometheus clients, the redis and SQL drivers
    and the operating system, which are arguments that accept or refuse what they
    are given. Of the module gateway the repository has only a README. *)
From stdpp Require Import base list gmap strings numbers.

Declare Scope go_scope.
Delimit Scope go_scope with go.

(** * Outcomes of Go code that can panic *)

(** The run-time panics the modelled code can raise. *)
Inductive panic :=
  | IndexOutOfRange
  | SliceBoundsOutOfRange
  | NilDereference
  | DivideByZero
  | CloseOfClosedChannel
  | NonPositiveTicker
  | SizeOutOfRange.

Inductive result (A : Type) :=
  | Ok (a : A)
  | Panic (p : panic).
Arguments Ok {A} a.
Arguments Panic {A} p.

Definition rbind {A B : Type} (m : result A) (k : A -> result B) : result B :=
  match m with
  | Ok a => k a
  | Panic p => Panic p
  end.

Notation "'let!' x := m 'in' k" := (rbind m (fun x => k))
  (at level 10, x pattern, k at level 200,
   format "'[v' 'let!'  x  :=  m  'in' '/' k ']'") : go_scope.
Open Scope go_scope.

(** [safe m] holds when [m] returns: it did not panic. *)
Definition safe {A : Type} (m : result A) : Prop := exists a, m = Ok a.

Lemma rbind_Ok_inv {A B : Type} (m : result A) (k : A -> result B) (b : B) :
  rbind m k = Ok b <-> exists a, m = Ok a /\ k a = Ok b.
Proof.
  destruct m; simpl; split; intros H; [eauto | by destruct H as (? & [= ->] & ?)
    | discriminate | by destruct H as (? & ? & ?)].
Qed.

#[global] Instance panic_eq_dec : EqDecision panic.
Proof. solve_decision. Defined.

#[global] Instance result_eq_dec {A : Type} `{EqDecision A} : EqDecision (result A).
Proof. solve_decision. Defined.

(** Left-to-right iteration over a slice with early exit on panic. *)
Fixpoint rfold {A S : Type} (f : S -> A -> result S) (s : S) (l : list A) : result S :=
  match l with
  | [] => Ok s
  | a :: l => let! s' := f s a in rfold f s' l
  end.

Lemma rfold_app {A S : Type} (f : S -> A -> result S) s l1 l2 :
  rfold f s (l1 ++ l2) = let! s' := rfold f s l1 in rfold f s' l2.
Proof. revert s; induction l1 as [|a l1 IH]; intros s; simpl; [done|]. destruct (f s a); simpl; auto. Qed.

(** A loop inside a loop is a loop over all the inner elements. *)
Lemma rfold_bind {A B S : Type} (f : S -> B -> result S) (g : A -> list B) s l :
  rfold (fun s a => rfold f s (g a)) s l = rfold f s (l ≫= g).
Proof.
  revert s; induction l as [|a l IH]; intros s; csimpl; [done|]. rewrite rfold_app.
  destruct (rfold f s (g a)); simpl; auto.
Qed.

Lemma rfold_ext {A S : Type} (f g : S -> A -> result S) s l :
  (forall s a, a ∈ l -> f s a = g s a) -> rfold f s l = rfold g s l.
Proof.
  revert s; induction l as [|a l IH]; intros s Hfg; simpl; [done|]. rewrite Hfg by left.
  destruct (g s a); simpl; [|done]. apply IH. intros; apply Hfg. by right.
Qed.

Lemma rfold_map {A B S : Type} (f : S -> B -> result S) (g : A -> B) s l : rfold f s (map g l) = rfold (fun s a => f s (g a)) s l.
Proof. revert s. induction l as [|a l IH]; intros s; simpl; [done|]. destruct (f s (g a)); simpl; auto. Qed.

(** [rfold] preserves an invariant that every iteration preserves. *)
Lemma rfold_invariant {A S : Type} (I : S -> Prop) (f : S -> A -> result S) s l s' :
  (forall s a s', a ∈ l -> I s -> f s a = Ok s' -> I s') ->
  I s -> rfold f s l = Ok s' -> I s'.
Proof.
  revert s; induction l as [|a l IH]; intros s Hstep Hs; simpl; [by intros [= ->]|].
  intros (s1 & Hf & Hl)%rbind_Ok_inv. eapply IH, Hl; [|eapply Hstep; eauto; left].
  intros; eapply Hstep; eauto. by right.
Qed.

(** [rfold] returns when every iteration returns from a state of the invariant. *)
Lemma rfold_safe {A S : Type} (I : S -> Prop) (f : S -> A -> result S) s l :
  (forall s a, a ∈ l -> I s -> exists s', f s a = Ok s' /\ I s') ->
  I s -> exists s', rfold f s l = Ok s' /\ I s'.
Proof.
  revert s; induction l as [|a l IH]; intros s Hstep Hs; simpl; [eauto|].
  destruct (Hstep s a) as (s1 & -> & Hs1); [left | done | ]. simpl.
  apply IH; [|done]. intros; apply Hstep; [by right | done].
Qed.

(** Indexing a Go slice: out of range panics. *)
Definition index {A : Type} (l : list A) (i : Z) : result A :=
  if (i <? 0)%Z then Panic IndexOutOfRange
  else match l !! Z.to_nat i with
       | Some a => Ok a
       | None => Panic IndexOutOfRange
       end.

Lemma index_nat {A : Type} (l : list A) (i : nat) a :
  l !! i = Some a -> index l (Z.of_nat i) = Ok a.
Proof.
  intros H. unfold index. rewrite (proj2 (Z.ltb_ge _ _)) by lia. by rewrite Nat2Z.id, H.
Qed.

Lemma index_last {A : Type} (l : list A) v :
  list.last l = Some v -> index l (Z.of_nat (length l) - 1) = Ok v.
Proof.
  rewrite list.last_lookup. intros Hl. rewrite <- (index_nat _ _ _ Hl). f_equal.
  destruct l; [done|]. simpl. lia.
Qed.

(** * Machine integers *)

(** [int32(z)]. *)
Definition i32 (z : Z) : Z := ((z + 2 ^ 31) mod 2 ^ 32 - 2 ^ 31)%Z.

Definition int64_min : Z := (- 2 ^ 63)%Z.
Definition int64_max : Z := (2 ^ 63 - 1)%Z.
Definition is_int64 (z : Z) : Prop := (int64_min <= z <= int64_max)%Z.

(** Two's complement wrap-around of an int64 (and of [int], 64 bits wide). *)
Definition i64 (z : Z) : Z := ((z + 2 ^ 63) mod 2 ^ 64 - 2 ^ 63)%Z.

Lemma i64_id z : is_int64 z -> i64 z = z.
Proof.
  unfold is_int64, int64_min, int64_max, i64. intros H.
  rewrite Z.mod_small by lia. lia.
Qed.

Lemma i64_range z : is_int64 (i64 z).
Proof.
  unfold is_int64, int64_min, int64_max, i64.
  pose proof (Z.mod_pos_bound (z + 2 ^ 63) (2 ^ 64)). lia.
Qed.

(** Go's [%] truncates towards zero and panics on a zero divisor. *)
Definition go_rem (a b : Z) : result Z :=
  if (b =? 0)%Z then Panic DivideByZero else Ok (Z.rem a b).
Definition go_div (a b : Z) : result Z :=
  if (b =? 0)%Z then Panic DivideByZero else Ok (i64 (Z.quot a b)).

(** Unsigned 32-bit words. *)
Definition u32 (z : Z) : Z := (z mod 2 ^ 32)%Z.
(** Unsigned 64-bit words: [uint64], and [uint] on the 64-bit platforms. *)
Definition u64 (z : Z) : Z := (z mod 2 ^ 64)%Z.
Lemma u64_range z : (0 <= u64 z < 2 ^ 64)%Z.
Proof. apply Z.mod_pos_bound. reflexivity. Qed.
Lemma u64_id z : (0 <= z < 2 ^ 64)%Z -> u64 z = z.
Proof. apply Z.mod_small. Qed.

(** * Tactics and hints *)

Create HintDb falcon.
Create Rewrite HintDb falcon.
#[export] Hint Resolve i64_range : falcon.
#[export] Hint Resolve index_nat : falcon.

(** Case analysis on the boolean tests of the code. *)
Ltac case_bool :=
  match goal with
  | |- context [Z.ltb ?a ?b] => destruct (Z.ltb_spec a b)
  | |- context [Z.leb ?a ?b] => destruct (Z.leb_spec a b)
  | |- context [Z.eqb ?a ?b] => destruct (Z.eqb_spec a b)
  | |- context [if bool_decide ?P then _ else _] => destruct (decide P);
      [rewrite (bool_decide_true P) by done | rewrite (bool_decide_false P) by done]
  | H : context [Z.ltb ?a ?b] |- _ => destruct (Z.ltb_spec a b)
  | H : context [Z.leb ?a ?b] |- _ => destruct (Z.leb_spec a b)
  | H : context [Z.eqb ?a ?b] |- _ => destruct (Z.eqb_spec a b)
  end.

(** Inverts every successful bind in the context. *)
Ltac inv_ok :=
  repeat match goal with
  | H : Ok _ = Ok _ |- _ => injection H as H; subst
  | H : Panic _ = Ok _ |- _ => discriminate H
  | H : Ok _ = Panic _ |- _ => discriminate H
  | H : rbind _ _ = Ok _ |- _ =>
      let a := fresh "a" in let Ha := fresh "Ha" in
      apply rbind_Ok_inv in H as (a & Ha & H)
  end.

(** * Loops with an early exit *)

(** [for _, a := range l { s, again = f(s, a); if !again { break } }]. *)
Fixpoint loop_while {A S : Type} (f : S -> A -> result (S * bool)) (s : S) (l : list A) : result S :=
  match l with
  | [] => Ok s
  | a :: l => let! (s', again) := f s a in
              if again : bool then loop_while f s' l else Ok s'
  end.

(** [for i := lo; i < hi; i++ { ... vs[i] ... }] over the elements of a slice. *)
Definition for_slice {A S : Type} (vs : list A) (lo hi : Z)
    (f : S -> A -> result (S * bool)) (s : S) : result S :=
  loop_while (fun s i => let! v := index vs i in f s v) s (seqZ lo (hi - lo)).

Lemma seqZ_nat (a b : nat) : seqZ (Z.of_nat a) (Z.of_nat b) = map Z.of_nat (seq a b).
Proof.
  revert a. induction b as [|b IH]; intros a; [done|].
  rewrite seqZ_cons by lia. simpl. f_equal.
  rewrite <- IH. f_equal; lia.
Qed.

(** In range, indexing never panics and the loop visits the slice's elements. *)
Lemma for_slice_spec {A S : Type} (vs : list A) (lo hi : nat) (f : S -> A -> result (S * bool)) s :
  (hi <= length vs)%nat ->
  for_slice vs (Z.of_nat lo) (Z.of_nat hi) f s = loop_while f s (take (hi - lo) (drop lo vs)).
Proof.
  intros Hhi. unfold for_slice.
  destruct (decide (hi <= lo)%nat) as [Hle|Hlt].
  { replace (hi - lo)%nat with O by lia. rewrite take_0.
    by rewrite (seqZ_nil _ (Z.of_nat hi - Z.of_nat lo)) by lia. }
  replace (Z.of_nat hi - Z.of_nat lo)%Z with (Z.of_nat (hi - lo)) by lia.
  rewrite seqZ_nat. remember (hi - lo)%nat as n eqn:Hn.
  assert (lo + n <= length vs)%nat as Hlen by lia. clear Hhi Hlt Hn hi.
  revert lo s Hlen. induction n as [|n IH]; intros lo s Hlen; simpl; [done|].
  destruct (lookup_lt_is_Some_2 vs lo) as [v Hv]; [lia|].
  rewrite (index_nat _ _ _ Hv). rewrite (drop_S _ _ _ Hv). simpl.
  destruct (f s v) as [[s' []]|]; simpl; [apply IH; lia | done | done].
Qed.

(** Distinct images tell the elements of a list apart. *)
Lemma NoDup_map_inj {A B : Type} (f : A -> B) (l : list A) x y :
  NoDup (map f l) -> x ∈ l -> y ∈ l -> f x = f y -> x = y.
Proof.
  intros Hnd Hx Hy E. apply list_elem_of_lookup in Hx as [i Hi], Hy as [j Hj].
  assert (i = j) as ->; [|congruence].
  eapply (NoDup_lookup (map f l)); [done | |]; change (map f l) with (f <$> l);
    rewrite list_lookup_fmap, ?Hi, ?Hj; simpl; [done | by rewrite E].
Qed.
