(* ===== verification/GoString.v ===== *)
(** Go strings are byte sequences: the operations of [strings] and [strconv]
    that the sources call, on [string], with the lemmas the components share. *)
From Stdlib Require Import Ascii.
From stdpp Require Import base list strings pretty numbers.
From S2P Require Import Prelude.

Local Open Scope Z_scope.

(** * Bytes of a string *)

Fixpoint str_forall (P : ascii -> bool) (s : string) : bool :=
  match s with
  | EmptyString => true
  | String c s => P c && str_forall P s
  end.

Definition str_free (c : ascii) (s : string) : bool := str_forall (fun d => negb (Ascii.eqb c d)) s.

Lemma str_app_nil_l s : "" +:+ s = s.
Proof. done. Qed.

Lemma str_app_cons c s1 s2 : String c s1 +:+ s2 = String c (s1 +:+ s2).
Proof. done. Qed.

Lemma str_app_assoc s1 s2 s3 : (s1 +:+ s2) +:+ s3 = s1 +:+ (s2 +:+ s3).
Proof. induction s1 as [|c s1 IH]; [done|]. rewrite !str_app_cons. f_equal. apply IH. Qed.

Lemma str_app_nil_r s : s +:+ "" = s.
Proof. induction s as [|c s IH]; [done|]. rewrite !str_app_cons. f_equal. apply IH. Qed.

Lemma str_forall_app P s1 s2 : str_forall P (s1 +:+ s2) = str_forall P s1 && str_forall P s2.
Proof.
  induction s1 as [|c s1 IH]; [done|]. rewrite str_app_cons. simpl.
  by rewrite IH, andb_assoc.
Qed.

Lemma str_forall_mono (P Q : ascii -> bool) s :
  (forall c, P c = true -> Q c = true) -> str_forall P s = true -> str_forall Q s = true.
Proof.
  intros HPQ. induction s as [|c s IH]; simpl; [done|].
  intros [HP Hs]%andb_true_iff. rewrite (HPQ c HP). auto.
Qed.

Lemma str_free_cons c d s : str_free c (String d s) = true -> Ascii.eqb c d = false /\ str_free c s = true.
Proof. unfold str_free. simpl. intros [H1 H2]%andb_true_iff. by destruct (Ascii.eqb c d). Qed.

Lemma str_free_app c s1 s2 : str_free c (s1 +:+ s2) = str_free c s1 && str_free c s2.
Proof. apply str_forall_app. Qed.

(** [len(s)], as a Go int. *)
Definition str_len (s : string) : Z := Z.of_nat (String.length s).

Lemma str_length_app s1 s2 : String.length (s1 +:+ s2) = (String.length s1 + String.length s2)%nat.
Proof. induction s1 as [|c s1 IH]; [done|]. rewrite str_app_cons. simpl. by rewrite IH. Qed.

(** The first [n] bytes, and what follows them. *)
Fixpoint str_take (n : nat) (s : string) : string :=
  match n, s with
  | S n, String c s => String c (str_take n s)
  | _, _ => EmptyString
  end.
Fixpoint str_drop (n : nat) (s : string) : string :=
  match n, s with
  | O, _ => s
  | S n, String _ s => str_drop n s
  | S _, EmptyString => EmptyString
  end.

Lemma str_take_app s1 s2 : str_take (String.length s1) (s1 +:+ s2) = s1.
Proof. induction s1 as [|c s1 IH]; [by destruct s2|]. rewrite str_app_cons. simpl. by f_equal. Qed.

Lemma str_drop_app s1 s2 : str_drop (String.length s1) (s1 +:+ s2) = s2.
Proof. induction s1 as [|c s1 IH]; [done|]. rewrite str_app_cons. simpl. done. Qed.

(** The slice expression [s[lo:hi]]. *)
Definition str_slice (s : string) (lo hi : Z) : result string :=
  if (lo <? 0) || (hi <? lo) || (str_len s <? hi) then Panic SliceBoundsOutOfRange
  else Ok (str_take (Z.to_nat (hi - lo)) (str_drop (Z.to_nat lo) s)).

(** The index expression [s[i]] for a constant [i = 0]. *)
Definition str_head (s : string) : result ascii :=
  match s with
  | EmptyString => Panic IndexOutOfRange
  | String c _ => Ok c
  end.

Lemma str_slice_mid s1 s2 s3 :
  str_slice (s1 +:+ s2 +:+ s3) (str_len s1) (str_len s1 + str_len s2) = Ok s2.
Proof.
  unfold str_slice, str_len. rewrite !str_length_app.
  replace (_ || _ || _) with false by (symmetry; rewrite !orb_false_iff, !Z.ltb_ge; lia).
  f_equal. rewrite Nat2Z.id, str_drop_app.
  replace (Z.to_nat _) with (String.length s2) by lia. apply str_take_app.
Qed.

(** * Package strings, for one-byte separators *)

(** [strings.Index(s, c)] and [strings.IndexRune(s, c)]: -1 when absent. *)
Fixpoint find_byte (c : ascii) (s : string) : option nat :=
  match s with
  | EmptyString => None
  | String d s => if Ascii.eqb c d then Some O else S <$> find_byte c s
  end.
Definition strings_Index (s : string) (c : ascii) : Z :=
  match find_byte c s with Some n => Z.of_nat n | None => -1 end.

Lemma find_byte_app c s1 s2 :
  str_free c s1 = true -> find_byte c (s1 +:+ String c s2) = Some (String.length s1).
Proof.
  induction s1 as [|d s1 IH]; intros Hs.
  - rewrite str_app_nil_l. simpl. by rewrite Ascii.eqb_refl.
  - apply str_free_cons in Hs as [Hd Hs]. rewrite str_app_cons. simpl. by rewrite Hd, IH.
Qed.

Lemma find_byte_None c s : find_byte c s = None <-> str_free c s = true.
Proof.
  unfold str_free. induction s as [|d s IH]; simpl; [done|].
  destruct (Ascii.eqb c d); simpl; [done|]. rewrite <- IH. by destruct (find_byte c s).
Qed.

(** [strings.Split(s, sep)]: one more element than separators. *)
Fixpoint strings_Split (s : string) (sep : ascii) : list string :=
  match s with
  | EmptyString => [EmptyString]
  | String c s' =>
      if Ascii.eqb sep c then EmptyString :: strings_Split s' sep
      else match strings_Split s' sep with
           | [] => [String c EmptyString]
           | h :: t => String c h :: t
           end
  end.

(** [strings.Join(l, sep)]. *)
Fixpoint strings_Join (l : list string) (sep : string) : string :=
  match l with
  | [] => ""
  | [s] => s
  | s :: l => s +:+ sep +:+ strings_Join l sep
  end.

Lemma strings_Split_nonempty s sep : strings_Split s sep <> [].
Proof.
  destruct s as [|c s]; simpl; [done|].
  destruct (Ascii.eqb sep c); [done|]. by destruct (strings_Split s sep).
Qed.

Lemma strings_Split_free s sep : str_free sep s = true -> strings_Split s sep = [s].
Proof.
  induction s as [|c s IH]; simpl; [done|].
  intros [-> Hs]%str_free_cons. by rewrite IH.
Qed.

Lemma strings_Split_app s1 s2 sep :
  str_free sep s1 = true ->
  strings_Split (s1 +:+ String sep s2) sep = s1 :: strings_Split s2 sep.
Proof.
  induction s1 as [|c s1 IH]; intros Hs.
  - rewrite str_app_nil_l. simpl. by rewrite Ascii.eqb_refl.
  - apply str_free_cons in Hs as [Hc Hs]. rewrite str_app_cons. simpl. by rewrite Hc, IH.
Qed.

(** Splitting undoes joining when no element holds the separator. *)
Lemma strings_Split_Join (l : list string) sep :
  l <> [] -> Forall (fun s => str_free sep s = true) l ->
  strings_Split (strings_Join l (String sep EmptyString)) sep = l.
Proof.
  intros Hne Hl. induction Hl as [|s l Hs Hl IH]; [done|].
  destruct l as [|s' l]; [by apply strings_Split_free|].
  change (strings_Split (s +:+ String sep (strings_Join (s' :: l) (String sep ""))) sep
    = s :: s' :: l).
  rewrite strings_Split_app by done. f_equal. by apply IH.
Qed.

(** Every element of a split is free of the separator. *)
Lemma strings_Split_elem_free s sep : Forall (fun t => str_free sep t = true) (strings_Split s sep).
Proof.
  induction s as [|c s IH]; simpl; [by constructor|].
  destruct (Ascii.eqb sep c) eqn:Hc; [by constructor|].
  destruct (strings_Split s sep) as [|h t]; [constructor; [|done]; unfold str_free; simpl; by rewrite Hc|].
  inversion IH; subst. constructor; [|done]. unfold str_free in *. simpl. by rewrite Hc.
Qed.

(** Joining undoes splitting. *)
Lemma strings_Join_Split s sep : strings_Join (strings_Split s sep) (String sep EmptyString) = s.
Proof.
  induction s as [|c s IH]; simpl; [done|].
  destruct (Ascii.eqb_spec sep c) as [->|Hc].
  - destruct (strings_Split s c) as [|h t] eqn:E; [by destruct (strings_Split_nonempty s c)|].
    rewrite <- IH. done.
  - destruct (strings_Split s sep) as [|h t] eqn:E; [by destruct (strings_Split_nonempty s sep)|].
    rewrite <- IH. by destruct t.
Qed.

(** [strings.Replace(s, c, "", -1)] and the byte-for-byte replacement. *)
Fixpoint strings_remove (c : ascii) (s : string) : string :=
  match s with
  | EmptyString => EmptyString
  | String d s => if Ascii.eqb c d then strings_remove c s else String d (strings_remove c s)
  end.
Fixpoint strings_map (f : ascii -> ascii) (s : string) : string :=
  match s with
  | EmptyString => EmptyString
  | String d s => String (f d) (strings_map f s)
  end.
Definition strings_replace (c c' : ascii) : string -> string :=
  strings_map (fun d => if Ascii.eqb c d then c' else d).

Lemma strings_remove_free c s : str_free c s = true -> strings_remove c s = s.
Proof. induction s as [|d s IH]; simpl; [done|]. intros [-> Hs]%str_free_cons. by rewrite IH. Qed.

Lemma strings_remove_is_free c s : str_free c (strings_remove c s) = true.
Proof.
  unfold str_free. induction s as [|d s IH]; simpl; [done|].
  destruct (Ascii.eqb c d) eqn:E; simpl; [done|]. by rewrite E.
Qed.

(** [strings.HasPrefix(s, p)]. *)
Fixpoint strings_HasPrefix (s p : string) {struct p} : bool :=
  match p, s with
  | EmptyString, _ => true
  | String c p, String d s => Ascii.eqb c d && strings_HasPrefix s p
  | String _ _, EmptyString => false
  end.

Lemma strings_HasPrefix_spec s p : strings_HasPrefix s p = true <-> exists t, s = p +:+ t.
Proof.
  revert s; induction p as [|c p IH]; intros s; simpl.
  - split; [intros _; by exists s | done].
  - destruct s as [|d s]; [split; [intros H; discriminate H | intros [t Ht]; by rewrite str_app_cons in Ht]|].
    rewrite andb_true_iff, IH, Ascii.eqb_eq. split.
    + intros [-> [t ->]]. by exists t.
    + intros [t Ht]. rewrite str_app_cons in Ht. injection Ht as -> ->. eauto.
Qed.

(** [strings.Contains(s, t)]. *)
Fixpoint strings_Contains (s t : string) : bool :=
  strings_HasPrefix s t || match s with EmptyString => false | String _ s => strings_Contains s t end.

(** [strings.Replace(s, old, new, -1)] for an [old] that is not empty; [skip] bytes belong
    to a match. *)
Fixpoint replace_from (skip : nat) (old new s : string) : string :=
  match s with
  | EmptyString => EmptyString
  | String c t =>
      match skip with
      | S k => replace_from k old new t
      | O => if strings_HasPrefix s old then new +:+ replace_from (pred (String.length old)) old new t
             else String c (replace_from 0 old new t)
      end
  end.
Definition strings_Replace (old new s : string) : string := replace_from 0 old new s.

(** [strings.Split(s, sep)] for a [sep] that is not empty. *)
Fixpoint split_from (skip : nat) (sep s : string) : list string :=
  match s with
  | EmptyString => [EmptyString]
  | String c t =>
      match skip with
      | S k => split_from k sep t
      | O => if strings_HasPrefix s sep then EmptyString :: split_from (pred (String.length sep)) sep t
             else match split_from 0 sep t with [] => [String c EmptyString] | x :: l => String c x :: l end
      end
  end.
Definition strings_SplitStr (s sep : string) : list string := split_from 0 sep s.
Definition strings_TrimPrefix (s p : string) : string := if strings_HasPrefix s p then str_drop (String.length p) s else s.

(** * Package strconv, integers in base 10 *)

Definition is_digit (c : ascii) : bool :=
  (48 <=? Z.of_N (N_of_ascii c)) && (Z.of_N (N_of_ascii c) <=? 57).
Definition digit_val (c : ascii) : Z := Z.of_N (N_of_ascii c) - 48.

Fixpoint parse_digits (acc : Z) (s : string) : option Z :=
  match s with
  | EmptyString => Some acc
  | String c s => if is_digit c then parse_digits (10 * acc + digit_val c) s else None
  end.

(** [strconv.ParseInt(s, 10, bits)]; [None] is a syntax or a range error. *)
Definition strconv_ParseInt (bits : Z) (s : string) : option Z :=
  let unsigned t := match t with EmptyString => None | _ => parse_digits 0 t end in
  let v := match s with
           | String "-" t => Z.opp <$> unsigned t
           | String "+" t => unsigned t
           | _ => unsigned s
           end in
  match v with
  | Some z => if (- 2 ^ (bits - 1) <=? z) && (z <? 2 ^ (bits - 1)) then Some z else None
  | None => None
  end.

Definition strconv_Atoi : string -> option Z := strconv_ParseInt 64.
Definition strconv_Itoa (z : Z) : string := pretty z.

Lemma pretty_N_char_val (x : N) :
  (x < 10)%N -> is_digit (pretty_N_char x) = true /\ digit_val (pretty_N_char x) = Z.of_N x.
Proof.
  intros H. assert (x = 0 \/ x = 1 \/ x = 2 \/ x = 3 \/ x = 4 \/ x = 5 \/ x = 6 \/ x = 7
    \/ x = 8 \/ x = 9)%N as Hx by lia. by destruct_or! Hx; subst.
Qed.

Lemma parse_digits_pretty_go (x : N) s :
  parse_digits 0 (pretty_N_go x s) = parse_digits (Z.of_N x) s.
Proof.
  revert s. induction (N.lt_wf_0 x) as [x _ IH]; intros s.
  destruct (decide (x = 0)%N) as [->|Hx]; [by rewrite pretty_N_go_0|].
  rewrite pretty_N_go_step, IH by (apply N.div_lt || idtac; lia).
  destruct (pretty_N_char_val (x mod 10)) as [Hd Hv]; [by apply N.mod_lt|].
  simpl. rewrite Hd, Hv. f_equal. pose proof (N.div_mod x 10). lia.
Qed.

Lemma pretty_go_forall (P : ascii -> bool) (x : N) s :
  (forall y, (y < 10)%N -> P (pretty_N_char y) = true) ->
  str_forall P s = true -> str_forall P (pretty_N_go x s) = true.
Proof.
  intros HP. revert s. induction (N.lt_wf_0 x) as [x _ IH]; intros s Hs.
  destruct (decide (x = 0)%N) as [->|Hx]; [by rewrite pretty_N_go_0|].
  rewrite pretty_N_go_step by lia. apply IH; [apply N.div_lt; lia|].
  simpl. by rewrite HP by (by apply N.mod_lt).
Qed.

Lemma pretty_N_forall (P : ascii -> bool) (x : N) :
  (forall y, (y < 10)%N -> P (pretty_N_char y) = true) -> str_forall P (pretty x) = true.
Proof.
  intros HP. unfold pretty, pretty_N. case_decide.
  - simpl. change "0"%char with (pretty_N_char 0). by rewrite HP.
  - by apply pretty_go_forall.
Qed.

Lemma pretty_N_digits (x : N) : str_forall is_digit (pretty x) = true.
Proof. apply pretty_N_forall. intros y Hy. by apply pretty_N_char_val. Qed.

Lemma parse_digits_pretty (x : N) : parse_digits 0 (pretty x) = Some (Z.of_N x).
Proof.
  unfold pretty, pretty_N. case_decide; [by subst|]. apply parse_digits_pretty_go.
Qed.

Lemma pretty_N_nonempty (x : N) : pretty x <> ""%string.
Proof. intros H. pose proof (parse_digits_pretty x) as E. rewrite H in E.
  injection E as E. assert (x = 0)%N as -> by lia. done. Qed.

(** A decimal numeral holds only digits and a leading minus sign. *)
Lemma strconv_Itoa_forall (P : ascii -> bool) z :
  P "-"%char = true -> (forall c, is_digit c = true -> P c = true) ->
  str_forall P (strconv_Itoa z) = true.
Proof.
  intros Hm Hd. unfold strconv_Itoa, pretty, pretty_Z.
  destruct z as [|p|p]; [simpl; by rewrite Hd| |].
  - eapply str_forall_mono; [exact Hd | apply (pretty_N_digits (N.pos p))].
  - cbn [str_forall String.append]. change (str_forall P ("-" +:+ pretty (N.pos p)) = true).
    rewrite str_forall_app. simpl. rewrite Hm. simpl.
    eapply str_forall_mono; [exact Hd | apply (pretty_N_digits (N.pos p))].
Qed.

Lemma strconv_Itoa_free c z :
  is_digit c = false -> c <> "-"%char -> str_free c (strconv_Itoa z) = true.
Proof.
  intros Hc Hm. apply strconv_Itoa_forall; [by destruct (Ascii.eqb_spec c "-")|].
  intros d Hd. destruct (Ascii.eqb_spec c d); [congruence | done].
Qed.

Lemma ParseInt_digits bits s v :
  0 < bits -> s <> ""%string -> str_forall is_digit s = true ->
  parse_digits 0 s = Some v ->
  strconv_ParseInt bits s = if (- 2 ^ (bits - 1) <=? v) && (v <? 2 ^ (bits - 1)) then Some v else None.
Proof.
  intros Hb Hne Hd Hv. unfold strconv_ParseInt.
  destruct s as [|c s]; [done|]. simpl in Hd. apply andb_true_iff in Hd as [Hc _].
  rewrite Hv.
  destruct (Ascii.eqb_spec c "-") as [->|Hm]; [done|].
  destruct (Ascii.eqb_spec c "+") as [->|Hp]; [done|].
  by destruct c as [[] [] [] [] [] [] [] []].
Qed.

(** Parsing undoes printing, within the width. *)
Lemma ParseInt_Itoa bits z :
  0 < bits -> - 2 ^ (bits - 1) <= z < 2 ^ (bits - 1) ->
  strconv_ParseInt bits (strconv_Itoa z) = Some z.
Proof.
  intros Hb Hz. unfold strconv_Itoa, pretty, pretty_Z.
  assert (forall n : N, Z.of_N n = Z.abs z -> strconv_ParseInt bits (pretty n)
    = if (- 2 ^ (bits - 1) <=? Z.abs z) && (Z.abs z <? 2 ^ (bits - 1)) then Some (Z.abs z) else None) as Hpos.
  { intros n Hn. apply ParseInt_digits;
      [done | apply pretty_N_nonempty | apply pretty_N_digits | rewrite parse_digits_pretty; congruence]. }
  destruct z as [|p|p].
  - change (strconv_ParseInt bits (pretty 0%N) = Some 0). rewrite (Hpos 0%N) by done.
    by rewrite (proj2 (Z.leb_le _ _)), (proj2 (Z.ltb_lt _ _)) by lia.
  - change (strconv_ParseInt bits (pretty (N.pos p)) = Some (Z.pos p)).
    rewrite (Hpos (N.pos p)) by done.
    by rewrite (proj2 (Z.leb_le _ _)), (proj2 (Z.ltb_lt _ _)) by lia.
  - clear Hpos. change (strconv_ParseInt bits (String "-" (pretty (N.pos p))) = Some (Z.neg p)).
    unfold strconv_ParseInt.
    pose proof (parse_digits_pretty (N.pos p)) as E.
    destruct (pretty (N.pos p)) eqn:Ep; [by destruct (pretty_N_nonempty (N.pos p))|].
    rewrite E. cbn [fmap option_fmap option_map].
    by rewrite (proj2 (Z.leb_le _ _)), (proj2 (Z.ltb_lt _ _)) by lia.
Qed.

Lemma Atoi_Itoa z : is_int64 z -> strconv_Atoi (strconv_Itoa z) = Some z.
Proof. unfold is_int64, int64_min, int64_max. intros. apply ParseInt_Itoa; lia. Qed.

#[global] Instance strconv_Itoa_inj : Inj (=) (=) strconv_Itoa.
Proof. intros x y. apply (inj pretty). Qed.

#[export] Hint Resolve strconv_Itoa_free strings_Split_nonempty : falcon.
#[export] Hint Rewrite str_app_assoc str_app_nil_r : falcon.
