(* ===== verification/GoFloat.v ===== *)
(** Go's float64: IEEE 754 binary64 with the executable specification of the
    Standard Library ([SpecFloat], one NaN), its comparisons and conversions. *)
From Stdlib Require Import Ascii ZArith.
From Stdlib Require Export SpecFloat.
From stdpp Require Import base list strings pretty numbers.
From S2P Require Import Prelude GoString.

Local Open Scope Z_scope.

Abbreviation f64 := spec_float.

(** * Operations *)

Definition f64_add : f64 -> f64 -> f64 := SFadd 53 1024.
Definition f64_sub : f64 -> f64 -> f64 := SFsub 53 1024.
Definition f64_mul : f64 -> f64 -> f64 := SFmul 53 1024.
Definition f64_div : f64 -> f64 -> f64 := SFdiv 53 1024.
Definition f64_sqrt : f64 -> f64 := SFsqrt 53 1024.
Definition f64_abs : f64 -> f64 := SFabs.

Definition f64_lt : f64 -> f64 -> bool := SFltb.
Definition f64_le : f64 -> f64 -> bool := SFleb.
Definition f64_eq : f64 -> f64 -> bool := SFeqb.
Definition f64_gt (x y : f64) : bool := f64_lt y x.
Definition f64_ge (x y : f64) : bool := f64_le y x.

Definition f64_zero : f64 := S754_zero false.
Definition f64_nan : f64 := S754_nan.
Definition f64_isNaN (x : f64) : bool := match x with S754_nan => true | _ => false end.
Definition f64_isInf (x : f64) : bool := match x with S754_infinity _ => true | _ => false end.
Definition f64_isFinite (x : f64) : bool := negb (f64_isNaN x) && negb (f64_isInf x).

(** The conversion [float64(i)] of an integer: round to nearest even. *)
Definition f64_of_Z (z : Z) : f64 := binary_normalize 53 1024 z 0 false.

(** The literal [m * 10^e], correctly rounded. *)
Definition f64_lit (m e : Z) : f64 :=
  if 0 <=? e then f64_of_Z (m * 10 ^ e)
  else let '(q, e', l) := SFdiv_core_binary 53 1024 (Z.abs m) 0 (10 ^ (- e)) 0 in
       if m =? 0 then f64_zero else binary_round_aux 53 1024 (m <? 0) q e' l.

Example lit_0_0001 : f64_lit 1 (-4) = S754_finite false 7378697629483821 (-66).
Proof. vm_compute. reflexivity. Qed.
Example lit_sum : f64_add (f64_lit 1 (-1)) (f64_lit 2 (-1)) = f64_lit 30000000000000004 (-17).
Proof. vm_compute. reflexivity. Qed.

(** Truncation towards zero of a finite float. *)
Definition f64_trunc (x : f64) : option Z :=
  match x with
  | S754_zero _ => Some 0
  | S754_finite s m e =>
      let a := if 0 <=? e then Z.pos m * 2 ^ e else Z.quot (Z.pos m) (2 ^ (- e)) in
      Some (if s then - a else a)
  | _ => None
  end.

(** [strconv.FormatFloat(x, 'f', prec, 64)]: exact decimal expansion, rounded
    half to even at the last digit. *)
Definition round_half_even (a b : Z) : Z :=
  let q := a / b in
  let r := a mod b in
  match 2 * r ?= b with
  | Lt => q
  | Gt => q + 1
  | Eq => if Z.even q then q else q + 1
  end.

Fixpoint pad_zeros (n : nat) (s : string) : string :=
  match n with
  | O => s
  | S n => if (String.length s <? S n)%nat then String "0" (pad_zeros n s) else s
  end.

Definition f64_format (prec : nat) (x : f64) : string :=
  let show (s : bool) (n : Z) :=
    let ip := strconv_Itoa (n / 10 ^ Z.of_nat prec) in
    let fp := pad_zeros prec (strconv_Itoa (n mod 10 ^ Z.of_nat prec)) in
    (if s then "-" else "") +:+ ip +:+ (if (prec =? 0)%nat then "" else "." +:+ fp) in
  match x with
  | S754_nan => "NaN"
  | S754_infinity false => "+Inf"
  | S754_infinity true => "-Inf"
  | S754_zero s => show s 0
  | S754_finite s m e =>
      let a := Z.pos m * 10 ^ Z.of_nat prec in
      show s (if 0 <=? e then a * 2 ^ e else round_half_even a (2 ^ (- e)))
  end.

Example format_1 : f64_format 5 (f64_lit 12345678 (-6)) = "12.34568".
Proof. vm_compute. reflexivity. Qed.
Example format_2 : f64_format 3 (f64_lit (-5) (-4)) = "-0.001".
Proof. vm_compute. reflexivity. Qed.
Example format_3 : f64_format 3 (f64_lit 25 (-1)) = "2.500".
Proof. vm_compute. reflexivity. Qed.

(** * The order on floats *)

(** Non-NaN floats compare as these triples do, lexicographically. *)
Definition f64_key (x : f64) : Z * Z * Z :=
  match x with
  | S754_infinity true => (-2, 0, 0)
  | S754_finite true m e => (-1, - e, - Z.pos m)
  | S754_zero _ | S754_nan => (0, 0, 0)
  | S754_finite false m e => (1, e, Z.pos m)
  | S754_infinity false => (2, 0, 0)
  end.

Definition key_lt (a b : Z * Z * Z) : Prop :=
  let '(a1, a2, a3) := a in let '(b1, b2, b3) := b in
  a1 < b1 \/ (a1 = b1 /\ (a2 < b2 \/ (a2 = b2 /\ a3 < b3))).

Lemma f64_compare_key x y :
  f64_isNaN x = false -> f64_isNaN y = false ->
  match SFcompare x y with
  | Some Lt => key_lt (f64_key x) (f64_key y)
  | Some Eq => f64_key x = f64_key y
  | Some Gt => key_lt (f64_key y) (f64_key x)
  | None => False
  end.
Proof.
  unfold key_lt.
  destruct x as [[]|[]| |[] m1 e1], y as [[]|[]| |[] m2 e2]; simpl; intros; try done; try lia.
  all: change (Pos.compare_cont Eq m1 m2) with (Pos.compare m1 m2).
  all: destruct (Z.compare_spec e1 e2); subst; try lia.
  all: destruct (Pos.compare_spec m1 m2); subst; simpl; try lia; done.
Qed.

Lemma f64_compare_nan x y : f64_isNaN x || f64_isNaN y = true -> SFcompare x y = None.
Proof. by destruct x as [|[]| |[]], y as [|[]| |[]]. Qed.

Lemma f64_lt_spec x y :
  f64_lt x y = true <-> f64_isNaN x = false /\ f64_isNaN y = false /\ key_lt (f64_key x) (f64_key y).
Proof.
  unfold f64_lt, SFltb.
  destruct (f64_isNaN x) eqn:Hx; [by rewrite f64_compare_nan by (rewrite Hx; done); naive_solver|].
  destruct (f64_isNaN y) eqn:Hy; [by rewrite f64_compare_nan by (rewrite Hx, Hy; done); naive_solver|].
  pose proof (f64_compare_key x y Hx Hy) as H. unfold key_lt in *.
  destruct (f64_key x) as [[a1 a2] a3], (f64_key y) as [[b1 b2] b3].
  destruct (SFcompare x y) as [[]|]; [|naive_solver| |done].
  - split; [done|]. injection H as -> -> ->. lia.
  - split; [done|]. lia.
Qed.

Lemma f64_le_spec x y :
  f64_le x y = true <-> f64_isNaN x = false /\ f64_isNaN y = false /\ ~ key_lt (f64_key y) (f64_key x).
Proof.
  unfold f64_le, SFleb.
  destruct (f64_isNaN x) eqn:Hx; [by rewrite f64_compare_nan by (rewrite Hx; done); naive_solver|].
  destruct (f64_isNaN y) eqn:Hy; [by rewrite f64_compare_nan by (rewrite Hx, Hy; done); naive_solver|].
  pose proof (f64_compare_key x y Hx Hy) as H. unfold key_lt in *.
  destruct (f64_key x) as [[a1 a2] a3], (f64_key y) as [[b1 b2] b3].
  destruct (SFcompare x y) as [[]|]; [| | |done].
  - split; [|done]. injection H as -> -> ->. intros _. split_and!; [done..|lia].
  - split; [|done]. intros _. split_and!; [done..|lia].
  - split; [done|]. intros (_ & _ & []). lia.
Qed.

Lemma f64_le_refl x : f64_isNaN x = false -> f64_le x x = true.
Proof. intros. apply f64_le_spec. split_and!; [done..|]. unfold key_lt. destruct (f64_key x) as [[? ?] ?]. lia. Qed.

Lemma f64_le_trans x y z : f64_le x y = true -> f64_le y z = true -> f64_le x z = true.
Proof.
  rewrite !f64_le_spec. intros (? & ? & ?) (? & ? & ?). split_and!; [done..|].
  unfold key_lt in *. destruct (f64_key x) as [[? ?] ?], (f64_key y) as [[? ?] ?], (f64_key z) as [[? ?] ?]. lia.
Qed.

Lemma f64_lt_le x y : f64_lt x y = true -> f64_le x y = true.
Proof.
  rewrite f64_lt_spec, f64_le_spec. intros (? & ? & ?). split_and!; [done..|].
  unfold key_lt in *. destruct (f64_key x) as [[? ?] ?], (f64_key y) as [[? ?] ?]. lia.
Qed.

Lemma f64_not_lt x y :
  f64_isNaN x = false -> f64_isNaN y = false -> f64_lt x y = false -> f64_le y x = true.
Proof.
  intros Hx Hy H. apply f64_le_spec. split_and!; [done..|]. intros Hk.
  assert (f64_lt x y = true) by (by apply f64_lt_spec). congruence.
Qed.

Lemma f64_lt_nan_l x : f64_lt S754_nan x = false.
Proof. done. Qed.
Lemma f64_lt_nan_r x : f64_lt x S754_nan = false.
Proof. by destruct x as [|[]| |[]]. Qed.
Lemma f64_le_nan_l x : f64_le S754_nan x = false.
Proof. done. Qed.
Lemma f64_le_nan_r x : f64_le x S754_nan = false.
Proof. by destruct x as [|[]| |[]]. Qed.

#[export] Hint Resolve f64_le_refl f64_lt_le : falcon.

(** * Sums *)

(** The accumulation [sum := init; for v in l { sum += v }]. *)
Definition f64_sum_from (init : f64) (l : list f64) : f64 := fold_left f64_add l init.
Definition f64_sum : list f64 -> f64 := f64_sum_from f64_zero.

(** * Rounding *)

Lemma iter_pos_shr p mrs : 0 <= shr_m mrs -> shr_m (SpecFloat.iter_pos shr_1 p mrs) = shr_m mrs / 2 ^ Z.pos p.
Proof.
  assert (forall mrs, 0 <= shr_m mrs -> shr_m (shr_1 mrs) = shr_m mrs / 2) as H1.
  { intros [m r s] Hm. cbn [shr_m] in *. destruct m as [|[q|q|]|q]; cbn [shr_1 shr_m]; try lia; try reflexivity.
    - rewrite (Pos2Z.inj_xI q). apply Z.div_unique with 1; lia.
    - rewrite (Pos2Z.inj_xO q). apply Z.div_unique with 0; lia. }
  assert (forall (q : positive) m, 0 <= m -> 0 <= m / 2 ^ Z.pos q) as Hpos.
  { intros q m Hm. apply Z.div_pos; [done|]. apply Z.pow_pos_nonneg; lia. }
  revert mrs. induction p as [p IH|p IH|]; intros mrs Hm; cbn [SpecFloat.iter_pos].
  - assert (0 <= shr_m (shr_1 mrs)) as Hs by (rewrite H1 by done; apply Z.div_pos; lia).
    rewrite !IH; [|by rewrite ?IH; auto..]. rewrite H1 by done. rewrite !Z.div_div by lia.
    f_equal. rewrite (Pos2Z.inj_xI p). replace (2 * Z.pos p + 1) with (1 + (Z.pos p + Z.pos p)) by lia. rewrite !Z.pow_add_r by lia. lia.
  - rewrite !IH; [|by rewrite ?IH; auto..]. rewrite Z.div_div by lia. f_equal. rewrite (Pos2Z.inj_xO p).
    replace (2 * Z.pos p) with (Z.pos p + Z.pos p) by lia. rewrite Z.pow_add_r by lia. lia.
  - by rewrite H1.
Qed.

Lemma shr_spec mrs e n : 0 <= shr_m mrs ->
  shr_m (fst (shr mrs e n)) = shr_m mrs / 2 ^ Z.max 0 n /\ snd (shr mrs e n) = e + Z.max 0 n.
Proof.
  intros Hm. destruct n as [|p|p]; cbn [shr fst snd]; [| |].
  - rewrite Z.div_1_r. lia.
  - rewrite iter_pos_shr by done. rewrite Z.max_r by lia. lia.
  - rewrite Z.max_l by lia. rewrite Z.div_1_r. lia.
Qed.

Lemma Zdigits2_spec m : 0 < m -> 2 ^ (Zdigits2 m - 1) <= m < 2 ^ Zdigits2 m.
Proof.
  destruct m as [|p|p]; try lia. intros _. cbn [Zdigits2]. change (digits2_pos p) with (Pos.size p).
  pose proof (Pos.size_gt p) as Hgt. pose proof (Pos.size_le p) as Hle.
  assert (Z.pos (2 ^ Pos.size p) = 2 * 2 ^ (Z.pos (Pos.size p) - 1)) as E.
  { rewrite Pos2Z.inj_pow, <- Z.pow_succ_r by lia. f_equal. lia. }
  split; [|rewrite <- Pos2Z.inj_pow; lia]. enough (2 * 2 ^ (Z.pos (Pos.size p) - 1) <= 2 * Z.pos p) by lia. rewrite <- E. lia.
Qed.

Lemma shr_m_of_loc m l : shr_m (shr_record_of_loc m l) = m.
Proof. by destruct l as [|[]]. Qed.

(** One step of rounding keeps a positive mantissa positive and makes it fit. *)
Lemma shr_fexp_pos m e l b : 0 < m < 2 ^ b -> 53 <= b -> -1074 <= e ->
  0 < shr_m (fst (shr_fexp 53 1024 m e l)) < 2 ^ 53 /\ e <= snd (shr_fexp 53 1024 m e l) <= e + (b - 53).
Proof.
  intros Hm Hb He. unfold shr_fexp. destruct (shr_spec (shr_record_of_loc m l) e (fexp 53 1024 (Zdigits2 m + e) - e)) as [-> ->];
    rewrite shr_m_of_loc; [lia|]. pose proof (Zdigits2_spec m ltac:(lia)) as [Hlo Hhi].
  assert (0 < Zdigits2 m) as Hd by (destruct m; done || lia).
  set (d := Zdigits2 m) in *. assert (d <= b) as Hdb.
  { destruct (Z.le_gt_cases d b) as [?|Hgt]; [done|]. assert (2 ^ b <= 2 ^ (d - 1)) by (apply Z.pow_le_mono_r; lia). lia. }
  unfold fexp, emin. set (n := Z.max 0 _).
  assert (n = Z.max 0 (d - 53)) as Hn by lia. clearbody n. subst n.
  split; [split|lia].
  - apply Z.div_str_pos. split; [apply Z.pow_pos_nonneg; lia|]. etransitivity; [|apply Hlo]. apply Z.pow_le_mono_r; lia.
  - apply Z.div_lt_upper_bound; [apply Z.pow_pos_nonneg; lia|]. rewrite <- Z.pow_add_r by lia.
    eapply Z.lt_le_trans; [apply Hhi|]. apply Z.pow_le_mono_r; lia.
Qed.

Lemma round_nearest_even_bounds m l : m <= round_nearest_even m l <= m + 1.
Proof. destruct l as [|[]]; cbn; try destruct (Z.even m); lia. Qed.

(** Rounding a number that is not too large or too small does not overflow, and a
    positive one stays positive. *)
Lemma round_bounded s m e l b : 0 < m < 2 ^ b -> 53 <= b -> -1074 <= e -> e + b <= 1000 ->
  exists m' e', binary_round_aux 53 1024 s m e l = S754_finite s m' e' /\ Z.pos m' < 2 ^ 53 /\ e <= e' <= e + (b - 52).
Proof.
  intros Hm Hb He Hsum. unfold binary_round_aux.
  destruct (shr_fexp_pos m e l b) as [H1 H1e]; [done..|]. destruct (shr_fexp 53 1024 m e l) as [mrs1 e1]. cbn [fst snd] in H1, H1e.
  pose proof (round_nearest_even_bounds (shr_m mrs1) (loc_of_shr_record mrs1)) as Hr. set (m1 := round_nearest_even _ _) in *.
  destruct (shr_fexp_pos m1 e1 loc_Exact 54) as [H2 H2e]; [lia..|].
  destruct (shr_fexp 53 1024 m1 e1 loc_Exact) as [mrs2 e2]. cbn [fst snd] in H2, H2e.
  destruct (shr_m mrs2) as [|p|p] eqn:E2; [lia| |lia]. rewrite (proj2 (Z.leb_le e2 (1024 - 53))) by lia.
  exists p, e2. split; [done|]. split; lia.
Qed.

Lemma pos_iter_xO m d : Z.pos (Pos.iter xO m d) = Z.pos m * 2 ^ Z.pos d.
Proof.
  induction d as [|d IH] using Pos.peano_ind; [cbn; lia|]. rewrite Pos.iter_succ, Pos2Z.inj_succ, Z.pow_succ_r by lia.
  rewrite Pos2Z.inj_xO, IH. lia.
Qed.

(** * Numbers that stay far from overflow *)

(** Zero, or a finite number that is not negative with a small exponent. *)
Inductive tame (lo hi : Z) : f64 -> Prop :=
  | tame_zero : tame lo hi f64_zero
  | tame_finite m e : Z.pos m < 2 ^ 53 -> lo <= e <= hi -> tame lo hi (S754_finite false m e).
Definition positive (x : f64) : Prop := match x with S754_finite false _ _ => True | _ => False end.

Lemma tame_isFinite lo hi x : tame lo hi x -> f64_isFinite x = true.
Proof. by destruct 1. Qed.

Lemma binary_round_bounded s p e b : Z.pos p < 2 ^ b -> 53 <= b -> -1074 <= e -> e + b <= 1000 ->
  exists m' e', binary_round 53 1024 s p e = S754_finite s m' e' /\ Z.pos m' < 2 ^ 53 /\ e - 52 <= e' <= e + (b - 52).
Proof.
  intros Hp Hb He Hsum. unfold binary_round, shl_align. change (Z.pos (digits2_pos p)) with (Zdigits2 (Z.pos p)).
  pose proof (Zdigits2_spec (Z.pos p) ltac:(lia)) as [Hlo Hhi].
  assert (1 <= Zdigits2 (Z.pos p)) as Hd by (cbn [Zdigits2]; lia). set (d := Zdigits2 (Z.pos p)) in *.
  unfold fexp, emin. set (e1 := Z.max _ _). assert (e1 = Z.max (d + e - 53) (-1074)) as He1 by lia. clearbody e1.
  destruct (e1 - e) as [|q|q] eqn:E.
  1, 2: destruct (round_bounded s (Z.pos p) e loc_Exact b) as (m' & e' & -> & ? & ?); [lia..|]; exists m', e'; split_and!; (done || lia).
  assert (Z.pos (Pos.iter xO p q) < 2 ^ 53) as Hs.
  { rewrite pos_iter_xO. apply Z.lt_le_trans with (2 ^ d * 2 ^ Z.pos q); [apply Z.mul_lt_mono_pos_r; [apply Z.pow_pos_nonneg; lia | done]|].
    rewrite <- Z.pow_add_r by lia. apply Z.pow_le_mono_r; lia. }
  destruct (round_bounded s (Z.pos (Pos.iter xO p q)) e1 loc_Exact 53) as (m' & e' & -> & ? & ?); [lia..|].
  exists m', e'. split_and!; (done || lia).
Qed.

Lemma f64_of_Z_tame z : 0 <= z < 2 ^ 64 -> tame (-52) 12 (f64_of_Z z) /\ (0 < z -> positive (f64_of_Z z)).
Proof.
  intros Hz. destruct z as [|p|p]; try lia; [split; [constructor | lia]|]. unfold f64_of_Z, binary_normalize.
  destruct (binary_round_bounded false p 0 64) as (m' & e' & -> & ? & ?); [lia..|]. split; [constructor; lia | done].
Qed.

(** The difference of two such numbers is finite; it may be negative. *)
Lemma f64_sub_tame lo hi x y : tame lo hi x -> tame lo hi y -> -1074 <= lo -> hi <= 800 -> f64_isFinite (f64_sub x y) = true.
Proof.
  intros [|m e Hm He] [|m' e' Hm' He'] Hlo Hhi; try done. unfold f64_sub, SFsub. cbn [cond_Zopp].
  set (ez := Z.min e e').
  assert (forall p e0, Z.pos p < 2 ^ 53 -> ez <= e0 <= hi -> Z.pos (fst (shl_align p e0 ez)) < 2 ^ (53 + hi - ez)) as Hsh.
  { intros p e0 Hp He0. unfold shl_align. assert (2 ^ 53 <= 2 ^ (53 + hi - ez)) by (apply Z.pow_le_mono_r; lia).
    destruct (ez - e0) as [|q|q] eqn:E; cbn [fst]; [lia..|].
    rewrite pos_iter_xO. apply Z.lt_le_trans with (2 ^ 53 * 2 ^ Z.pos q); [apply Z.mul_lt_mono_pos_r; [apply Z.pow_pos_nonneg; lia | done]|].
    rewrite <- Z.pow_add_r by lia. apply Z.pow_le_mono_r; lia. }
  pose proof (Hsh m e Hm ltac:(lia)) as H1. pose proof (Hsh m' e' Hm' ltac:(lia)) as H2.
  set (z := _ - _). assert (Z.abs z < 2 ^ (53 + hi - ez)) as Hz by lia. clearbody z. clear H1 H2 Hsh.
  destruct z as [|p|p]; cbn [binary_normalize]; [done| |].
  - destruct (binary_round_bounded false p ez (53 + hi - ez)) as (? & ? & -> & _); [lia..|done].
  - destruct (binary_round_bounded true p ez (53 + hi - ez)) as (? & ? & -> & _); [lia..|done].
Qed.

Lemma f64_mul_tame lo hi lo' hi' x y : tame lo hi x -> tame lo' hi' y -> -1074 <= lo + lo' -> hi + hi' <= 800 ->
  tame (lo + lo') (hi + hi' + 54) (f64_mul x y) /\ (positive x -> positive y -> positive (f64_mul x y)).
Proof.
  intros [|m e Hm He] [|m' e' Hm' He'] Hlo Hhi; try (split; [constructor | done]).
  unfold f64_mul, SFmul. cbn [xorb].
  destruct (round_bounded false (Z.pos (m * m')) (e + e') loc_Exact 106) as (m2 & e2 & -> & ? & ?); [|lia..|split; [constructor; lia | done]].
  rewrite Pos2Z.inj_mul. change (2 ^ 106) with (2 ^ 53 * 2 ^ 53). nia.
Qed.

Lemma f64_div_tame lo hi lo' hi' x y : tame lo hi x -> tame lo' hi' y -> positive y -> lo - hi' >= -900 -> hi - lo' <= 800 ->
  tame (lo - hi' - 106) (hi - lo' + 107) (f64_div x y).
Proof.
  intros Hx Hy Hp Hlo Hhi. destruct Hy as [|m' e' Hm' He']; [done|]. destruct Hx as [|m e Hm He]; [constructor|].
  unfold f64_div, SFdiv, SFdiv_core_binary. cbn [xorb].
  pose proof (Zdigits2_spec (Z.pos m) ltac:(lia)) as [Hd1 Hd1']. pose proof (Zdigits2_spec (Z.pos m') ltac:(lia)) as [Hd2 Hd2'].
  assert (forall p, 0 < p < 2 ^ 53 -> 1 <= Zdigits2 p <= 53) as Hdig.
  { intros p Hp'. destruct (Zdigits2_spec p) as [H1 H2]; [lia|]. split; [destruct p; cbn; lia|].
    destruct (Z.le_gt_cases (Zdigits2 p) 53) as [?|Hgt]; [done|]. assert (2 ^ 53 <= 2 ^ (Zdigits2 p - 1)) by (apply Z.pow_le_mono_r; lia). lia. }
  pose proof (Hdig (Z.pos m) ltac:(lia)) as Hb1. pose proof (Hdig (Z.pos m') ltac:(lia)) as Hb2. clear Hdig.
  set (d1 := Zdigits2 (Z.pos m)) in *. set (d2 := Zdigits2 (Z.pos m')) in *.
  unfold fexp, emin. set (e2 := Z.min _ _).
  assert (e2 = Z.min (d1 + e - (d2 + e') - 53) (e - e')) as He2 by lia. clearbody e2.
  assert (0 <= e - e' - e2 <= 105) as Hs by lia.
  assert (match e - e' - e2 with Z0 => Z.pos m | Z.pos _ => Z.shiftl (Z.pos m) (e - e' - e2) | Z.neg _ => 0 end = Z.pos m * 2 ^ (e - e' - e2)) as ->.
  { destruct (e - e' - e2) as [|q|q]; [lia | by apply Z.shiftl_mul_pow2; lia | lia]. }
  set (s := e - e' - e2) in *. pose proof (Z.pow_pos_nonneg 2 s ltac:(lia) ltac:(lia)) as Hps.
  pose proof (Z.div_eucl_eq (Z.pos m * 2 ^ s) (Z.pos m') ltac:(lia)) as Hdiv.
  assert (Z.div_eucl (Z.pos m * 2 ^ s) (Z.pos m') = (Z.pos m * 2 ^ s / Z.pos m', Z.pos m * 2 ^ s mod Z.pos m')) as ->.
  { unfold Z.div, Z.modulo. by destruct (Z.div_eucl _ _). }
  clear Hdiv. set (q := Z.pos m * 2 ^ s / Z.pos m').
  assert (0 < q) as Hq.
  { apply Z.div_str_pos. split; [lia|]. transitivity (2 ^ d2); [lia|]. transitivity (2 ^ (d1 - 1 + s)).
    - apply Z.pow_le_mono_r; lia.
    - rewrite Z.pow_add_r by lia. nia. }
  assert (q < 2 ^ 158) as Hq'.
  { apply Z.div_lt_upper_bound; [lia|]. apply Z.lt_le_trans with (2 ^ 53 * 2 ^ s); [nia|].
    transitivity (2 ^ 158); [rewrite <- Z.pow_add_r by lia; apply Z.pow_le_mono_r; lia | nia]. }
  destruct (round_bounded false q e2 (new_location (Z.pos m') (Z.pos m * 2 ^ s mod Z.pos m')) 158) as (m2 & e3 & -> & ? & ?); [lia..|].
  constructor; [done|]. lia.
Qed.
