(* ===== verification/GoText.v ===== *)
(** Text as Go reads it: UTF-8 runes, white space, [strings.Fields], the trimming
    functions, and [strconv.ParseFloat] with its exact rounding. *)
From Stdlib Require Import Ascii ZArith.
From stdpp Require Import base list strings numbers.
From S2P Require Import Prelude GoString GoFloat.

Local Open Scope Z_scope.

(** * Runes *)

(** [[]rune(str)]: the UTF-8 decoding, an invalid byte read as U+FFFD. *)
Definition byte_val (c : ascii) : Z := Z.of_N (N_of_ascii c).
Definition is_cont (lo hi : Z) (c : ascii) : bool := (lo <=? byte_val c) && (byte_val c <=? hi).
Definition cont (c : ascii) : Z := Z.land (byte_val c) 63.

(** The size of the encoding that starts with the bytes of [s], and its rune. *)
Definition decode_rune (s : string) : nat * Z :=
  match s with
  | EmptyString => (O, 65533)
  | String a s =>
      let b0 := byte_val a in
      let bad := (1%nat, 65533) in
      if b0 <? 128 then (1%nat, b0)
      else match s with
      | EmptyString => bad
      | String b s =>
          if (194 <=? b0) && (b0 <=? 223) then
            if is_cont 128 191 b then (2%nat, Z.land b0 31 * 64 + cont b) else bad
          else match s with
          | EmptyString => bad
          | String c s =>
              if (224 <=? b0) && (b0 <=? 239) then
                let lo := if b0 =? 224 then 160 else 128 in
                let hi := if b0 =? 237 then 159 else 191 in
                if is_cont lo hi b && is_cont 128 191 c
                then (3%nat, (Z.land b0 15 * 64 + cont b) * 64 + cont c) else bad
              else match s with
              | EmptyString => bad
              | String d _ =>
                  if (240 <=? b0) && (b0 <=? 244) then
                    let lo := if b0 =? 240 then 144 else 128 in
                    let hi := if b0 =? 244 then 143 else 191 in
                    if is_cont lo hi b && is_cont 128 191 c && is_cont 128 191 d
                    then (4%nat, ((Z.land b0 7 * 64 + cont b) * 64 + cont c) * 64 + cont d) else bad
                  else bad
              end
          end
      end
  end.

(** [skip] bytes of the current encoding are still to be passed over. *)
Fixpoint runes_from (skip : nat) (s : string) : list Z :=
  match s with
  | EmptyString => []
  | String c s' =>
      match skip with
      | S skip => runes_from skip s'
      | O => let '(n, r) := decode_rune s in r :: runes_from (n - 1) s'
      end
  end.
Definition runes (s : string) : list Z := runes_from 0 s.


(** The encodings of [s] one after the other, each with its rune. *)
Fixpoint chunks_from (skip : nat) (s : string) : list (string * Z) :=
  match s with
  | EmptyString => []
  | String c s' =>
      match skip with
      | S skip => chunks_from skip s'
      | O => let '(n, r) := decode_rune s in (str_take n s, r) :: chunks_from (n - 1) s'
      end
  end.
Definition chunks (s : string) : list (string * Z) := chunks_from 0 s.
Definition unchunk (l : list (string * Z)) : string := foldr (fun p t => fst p +:+ t) "" l.

(** The property White_Space of the Unicode standard. *)
Definition unicode_IsSpace (r : Z) : bool :=
  ((9 <=? r) && (r <=? 13)) || (r =? 32) || (r =? 133) || (r =? 160) || (r =? 5760)
  || ((8192 <=? r) && (r <=? 8202)) || (r =? 8232) || (r =? 8233) || (r =? 8239) || (r =? 8287) || (r =? 12288).

(** * Package strings *)

Fixpoint fields_go (cur : string) (l : list (string * Z)) : list string :=
  match l with
  | [] => if bool_decide (cur = "") then [] else [cur]
  | (t, r) :: l =>
      if unicode_IsSpace r then (if bool_decide (cur = "") then [] else [cur]) ++ fields_go "" l
      else fields_go (cur +:+ t) l
  end.
(** [strings.Fields(s)]. *)
Definition strings_Fields (s : string) : list string := fields_go "" (chunks s).

Fixpoint drop_while {A : Type} (f : A -> bool) (l : list A) : list A :=
  match l with
  | [] => []
  | x :: l' => if f x then drop_while f l' else l
  end.
(** [strings.TrimSpace(s)]. *)
Definition strings_TrimSpace (s : string) : string :=
  let space p := unicode_IsSpace (snd p) in
  unchunk (reverse (drop_while space (reverse (drop_while space (chunks s))))).

(** [strings.Trim(s, c)] of one character. *)
Definition strings_Trim (c : ascii) (s : string) : string :=
  let l := String.list_ascii_of_string s in
  String.string_of_list_ascii (reverse (drop_while (Ascii.eqb c) (reverse (drop_while (Ascii.eqb c) l)))).

Example fields_update : strings_Fields (" update  host" +:+ String "009" "cpu" +:+ String "010" "") = ["update"; "host"; "cpu"].
Proof. vm_compute. reflexivity. Qed.
Example fields_wide : strings_Fields ("a" +:+ String "194" (String "160" "b") +:+ String "194" "c") = ["a"; "b" +:+ String "194" "c"].
Proof. vm_compute. reflexivity. Qed.
Example trim_addr : strings_TrimSpace "  10.0.0.1:6070 " = "10.0.0.1:6070".
Proof. vm_compute. reflexivity. Qed.

(** * strconv.ParseFloat *)

Inductive num_error := ErrSyntax | ErrRange.

Definition lower (c : ascii) : ascii :=
  let b := byte_val c in if (65 <=? b) && (b <=? 90) then ascii_of_N (Z.to_N (b + 32)) else c.

Definition hex_val (c : ascii) : option Z :=
  let b := byte_val c in
  if (48 <=? b) && (b <=? 57) then Some (b - 48)
  else if (97 <=? b) && (b <=? 102) then Some (b - 87)
  else if (65 <=? b) && (b <=? 70) then Some (b - 55)
  else None.

(** [underscoreOK]: an underscore stands between two digits, or between the base
    prefix and a digit. [saw] is the class of the previous character. *)
Inductive saw_class := SawStart | SawDigit | SawUnderscore | SawOther.
Fixpoint underscore_ok (hex : bool) (saw : saw_class) (s : string) : bool :=
  match s with
  | EmptyString => match saw with SawUnderscore => false | _ => true end
  | String c s =>
      if is_digit c || (hex && match hex_val c with Some _ => true | None => false end) then underscore_ok hex SawDigit s
      else if Ascii.eqb c "_" then
        match saw with SawDigit => underscore_ok hex SawUnderscore s | _ => false end
      else match saw with SawUnderscore => false | _ => underscore_ok hex SawOther s end
  end.
Definition drop_sign (s : string) : string :=
  match s with String "-" t | String "+" t => t | _ => s end.
Definition underscoreOK (s : string) : bool :=
  match drop_sign s with
  | String "0" (String c t) =>
      let c := lower c in
      if Ascii.eqb c "b" || Ascii.eqb c "o" || Ascii.eqb c "x" then underscore_ok (Ascii.eqb c "x") SawDigit t
      else underscore_ok false SawStart (drop_sign s)
  | t => underscore_ok false SawStart t
  end.

(** The digits with at most one point: their value, how many follow the point,
    whether there was one, and the rest of the text. *)
Fixpoint read_mantissa (hex dot dig : bool) (acc frac : Z) (s : string) : Z * Z * bool * string :=
  match s with
  | EmptyString => (acc, frac, dig, s)
  | String c s' =>
      if Ascii.eqb c "." then
        if dot then (acc, frac, dig, s) else read_mantissa hex true dig acc frac s'
      else
        let frac' := if dot then frac + 1 else frac in
        if is_digit c then read_mantissa hex dot true ((if hex then 16 else 10) * acc + digit_val c) frac' s'
        else match hex_val c with
             | Some d => if hex then read_mantissa hex dot true (16 * acc + d) frac' s' else (acc, frac, dig, s)
             | None => (acc, frac, dig, s)
             end
  end.

(** The digits of the exponent; it stops growing past 10000. *)
Fixpoint read_exponent (e : Z) (s : string) : option Z :=
  match s with
  | EmptyString => Some e
  | String c s => if is_digit c then read_exponent (if e <? 10000 then e * 10 + digit_val c else e) s else None
  end.
Definition exponent (s : string) : option Z :=
  match s with
  | String "-" (String c t) => Z.opp <$> read_exponent 0 (String c t)
  | String "+" (String c t) => read_exponent 0 (String c t)
  | String "-" EmptyString | String "+" EmptyString | EmptyString => None
  | _ => read_exponent 0 s
  end.

(** Sign, mantissa, exponent, and whether the exponent is one of two. *)
Definition readFloat (s : string) : option (bool * Z * Z * bool) :=
  let neg := match s with String "-" _ => true | _ => false end in
  let s := drop_sign s in
  let '(hex, s) := match s with
    | String "0" (String c (String d t)) => if Ascii.eqb (lower c) "x" then (true, String d t) else (false, s)
    | _ => (false, s)
    end in
  let '(m, frac, dig, rest) := read_mantissa hex false false 0 0 s in
  if negb dig then None
  else match rest with
  | EmptyString => if hex then None else Some (neg, m, - frac, false)
  | String c t =>
      if Ascii.eqb (lower c) (if hex then "p" else "e") then
        e ← exponent t; Some (neg, m, (if hex then - 4 * frac else - frac) + e, hex)
      else None
  end.

(** [special]: the names of the infinities and of NaN, in any case. *)
Definition special (s : string) : option f64 :=
  let neg := match s with String "-" _ => true | _ => false end in
  let t := strings_map lower (drop_sign s) in
  if bool_decide (t = "inf") || bool_decide (t = "infinity") then Some (S754_infinity neg)
  else if bool_decide (strings_map lower s = "nan") then Some S754_nan
  else None.

(** The float nearest to [m * 10^e] or [m * 2^e], ties to even. *)
Definition nearest (neg : bool) (m e : Z) (hex : bool) : f64 :=
  if m =? 0 then S754_zero neg
  else if hex then binary_normalize 53 1024 (if neg then - m else m) e neg
  else f64_lit (if neg then - m else m) e.

(** The value and the error; a number too large gives an infinity and [ErrRange]. *)
Definition strconv_ParseFloat (s : string) : f64 * option num_error :=
  match special s with
  | Some v => (v, None)
  | None =>
      if negb (str_free "_" s) && negb (underscoreOK s) then (f64_zero, Some ErrSyntax)
      else match readFloat (strings_remove "_" s) with
      | None => (f64_zero, Some ErrSyntax)
      | Some (neg, m, e, hex) =>
          let v := nearest neg m e hex in
          (v, if f64_isInf v then Some ErrRange else None)
      end
  end.

Example ParseFloat_decimal : strconv_ParseFloat "-12.5e-1" = (f64_lit (-125) (-2), None).
Proof. vm_compute. reflexivity. Qed.
Example ParseFloat_hex : strconv_ParseFloat "0x1.8p1" = (f64_of_Z 3, None).
Proof. vm_compute. reflexivity. Qed.
Example ParseFloat_underscore : strconv_ParseFloat "1_23.50_0_0e+1_2" = (f64_lit 1235 11, None).
Proof. vm_compute. reflexivity. Qed.
Example ParseFloat_range : strconv_ParseFloat "1e400" = (S754_infinity false, Some ErrRange).
Proof. vm_compute. reflexivity. Qed.
Example ParseFloat_syntax : map (fun s => snd (strconv_ParseFloat s)) [""; "."; "1e"; "0x1"; "1.2.3"; "-_1"; "12a"; "-nan"]
  = repeat (Some ErrSyntax) 8.
Proof. vm_compute. reflexivity. Qed.
Example ParseFloat_named : strconv_ParseFloat "-Infinity" = (S754_infinity true, None).
Proof. vm_compute. reflexivity. Qed.

(** * Lines of words *)

(** The visible ASCII characters. *)
Definition is_graph (c : ascii) : bool := (33 <=? byte_val c) && (byte_val c <=? 126).
Definition word (s : string) : Prop := s <> "" /\ str_forall is_graph s = true.

Lemma chunks_ascii s :
  str_forall (fun c => byte_val c <? 128) s = true ->
  chunks s = map (fun c => (String c "", byte_val c)) (String.list_ascii_of_string s).
Proof.
  unfold chunks. induction s as [|c s IH]; [done|]. cbn [str_forall]. intros [Hc Hs]%andb_true_iff.
  cbn [chunks_from decode_rune]. rewrite Hc. cbn [str_take Nat.sub String.list_ascii_of_string map]. by rewrite IH.
Qed.

Lemma list_ascii_app s1 s2 :
  String.list_ascii_of_string (s1 +:+ s2) = String.list_ascii_of_string s1 ++ String.list_ascii_of_string s2.
Proof. induction s1 as [|c s1 IH]; [done|]. rewrite str_app_cons. cbn. by rewrite IH. Qed.

Lemma string_list_ascii s : String.string_of_list_ascii (String.list_ascii_of_string s) = s.
Proof. induction s as [|c s IH]; cbn; [done|]. by rewrite IH. Qed.

Lemma fields_word cur w l :
  str_forall is_graph w = true ->
  fields_go cur (map (fun c => (String c "", byte_val c)) (String.list_ascii_of_string w) ++ l) = fields_go (cur +:+ w) l.
Proof.
  revert cur; induction w as [|c w IH]; intros cur; cbn [str_forall String.list_ascii_of_string map app fields_go].
  { intros _. by rewrite str_app_nil_r. }
  intros [Hc Hw]%andb_true_iff.
  assert (unicode_IsSpace (byte_val c) = false) as ->.
  { unfold is_graph in Hc. unfold unicode_IsSpace. lia. }
  rewrite IH by done. by rewrite str_app_assoc.
Qed.

Lemma str_forall_join P sep l :
  str_forall P sep = true -> Forall (fun s => str_forall P s = true) l -> str_forall P (strings_Join l sep) = true.
Proof.
  intros Hsep Hl. induction Hl as [|s l Hs Hl IH]; [done|]. destruct l as [|s' l]; [done|].
  change (str_forall P (s +:+ sep +:+ strings_Join (s' :: l) sep) = true). by rewrite !str_forall_app, Hs, Hsep, IH.
Qed.

Lemma is_graph_ascii s : str_forall is_graph s = true -> str_forall (fun c => byte_val c <? 128) s = true.
Proof. apply str_forall_mono. intros c. unfold is_graph. lia. Qed.

(** The fields of words separated by spaces are the words. *)
Lemma strings_Fields_Join (l : list string) : Forall word l -> strings_Fields (strings_Join l " ") = l.
Proof.
  intros Hl. unfold strings_Fields. rewrite chunks_ascii.
  2:{ apply str_forall_join; [done|]. eapply list.Forall_impl; [exact Hl|]. intros s [_ Hs]. by apply is_graph_ascii. }
  induction Hl as [|s l [Hne Hs] Hl IH]; [done|]. destruct l as [|s' l].
  - cbn [strings_Join]. rewrite <- (app_nil_r (map _ _)), fields_word by done. cbn [fields_go].
    change ("" +:+ s) with s. by rewrite bool_decide_false.
  - change (strings_Join (s :: s' :: l) " ") with (s +:+ " " +:+ strings_Join (s' :: l) " ").
    rewrite !list_ascii_app, !map_app, fields_word by done. change ("" +:+ s) with s.
    change (map _ (String.list_ascii_of_string " ")) with [(" ", 32)]. cbn [app fields_go]. rewrite bool_decide_false by done.
    by rewrite IH.
Qed.

Lemma drop_while_none {A : Type} (f : A -> bool) (l : list A) : Forall (fun x => f x = false) l -> drop_while f l = l.
Proof. intros []; cbn; [done|]. by rewrite H. Qed.

(** Trimming takes off the end of a line without that character in it. *)
Lemma strings_Trim_end c s : str_free c s = true -> strings_Trim c (s +:+ String c "") = s.
Proof.
  intros Hf. unfold strings_Trim. rewrite list_ascii_app. cbn [String.list_ascii_of_string].
  assert (Forall (fun d => Ascii.eqb c d = false) (String.list_ascii_of_string s)) as Hl.
  { induction s as [|d s IH]; cbn; [constructor|]. apply str_free_cons in Hf as [? ?]. constructor; auto. }
  rewrite <- (string_list_ascii s) at 2. destruct Hl as [|d l Hd Hl].
  - cbn. by rewrite Ascii.eqb_refl.
  - change ((d :: l) ++ [c]) with (d :: (l ++ [c])). cbn [drop_while]. rewrite Hd.
    change (d :: l ++ [c]) with ((d :: l) ++ [c]). rewrite reverse_app.
    change (reverse [c] ++ reverse (d :: l)) with (c :: reverse (d :: l)). cbn [drop_while]. rewrite Ascii.eqb_refl.
    rewrite (drop_while_none _ (reverse (d :: l))), reverse_involutive; [done|]. apply Forall_reverse. by constructor.
Qed.

(** Trimming white space leaves a text that starts and ends with a visible character. *)
Lemma strings_TrimSpace_id s a s' t b :
  str_forall (fun c => byte_val c <? 128) s = true ->
  s = String a s' -> s = t +:+ String b "" -> is_graph a = true -> is_graph b = true -> strings_TrimSpace s = s.
Proof.
  intros Hs Ea Eb Ha Hb. unfold strings_TrimSpace. rewrite chunks_ascii by done.
  assert (forall l, unchunk (map (fun c => (String c "", byte_val c)) l) = String.string_of_list_ascii l) as Hun.
  { induction l as [|c l IH]; cbn; [done|]. unfold unchunk in IH. by rewrite IH. }
  assert (forall c, is_graph c = true -> unicode_IsSpace (byte_val c) = false) as Hg.
  { intros c. unfold is_graph, unicode_IsSpace. lia. }
  set (f c := (String c "", byte_val c)) in *.
  assert (map f (String.list_ascii_of_string s) = f a :: map f (String.list_ascii_of_string s')) as E1 by (by rewrite Ea).
  assert (reverse (map f (String.list_ascii_of_string s)) = f b :: reverse (map f (String.list_ascii_of_string t))) as E2.
  { rewrite Eb, list_ascii_app, map_app. cbn [String.list_ascii_of_string map]. by rewrite reverse_snoc. }
  rewrite E1. cbn [drop_while]. unfold f at 1. cbn [snd]. rewrite Hg by done. rewrite <- E1, E2.
  cbn [drop_while]. unfold f at 1. cbn [snd]. rewrite Hg by done. rewrite <- E2, reverse_involutive, Hun. apply string_list_ascii.
Qed.

Lemma str_snoc s : s <> "" -> exists t b, s = t +:+ String b "".
Proof.
  induction s as [|c s IH]; [done|]. intros _. destruct s as [|d s]; [by exists "", c|].
  destruct IH as (t & b & E); [done|]. exists (String c t), b. by rewrite E.
Qed.

Lemma word_ends s : word s -> exists a s' t b, s = String a s' /\ s = t +:+ String b "" /\ is_graph a = true /\ is_graph b = true.
Proof.
  intros [Hne Hs]. destruct (str_snoc s Hne) as (t & b & E). destruct s as [|a s]; [done|].
  exists a, s, t, b. split; [done|]. split; [done|]. split.
  - cbn [str_forall] in Hs. by apply andb_true_iff in Hs as [? _].
  - rewrite E, str_forall_app in Hs. apply andb_true_iff in Hs as [_ Hb]. cbn [str_forall] in Hb. by apply andb_true_iff in Hb as [? _].
Qed.

Lemma strings_TrimSpace_word s : word s -> strings_TrimSpace s = s.
Proof.
  intros Hw. destruct (word_ends s Hw) as (a & s' & t & b & E1 & E2 & Ha & Hb).
  eapply strings_TrimSpace_id; [apply is_graph_ascii, Hw | done..].
Qed.

Lemma strings_TrimSpace_Join (l : list string) : Forall word l -> strings_TrimSpace (strings_Join l " ") = strings_Join l " ".
Proof.
  intros Hl. destruct (decide (l = [])) as [->|Hne]; [done|].
  assert (exists s' t a b, strings_Join l " " = String a s' /\ strings_Join l " " = t +:+ String b "" /\ is_graph a = true /\ is_graph b = true)
    as (s' & t & a & b & E1 & E2 & Ha & Hb).
  { clear - Hl Hne. induction Hl as [|w l Hw Hl IH]; [done|]. destruct (word_ends w Hw) as (a & s' & t & b & E1 & E2 & Ha & Hb).
    destruct l as [|w' l]; [by exists s', t, a, b|]. destruct IH as (s2 & t2 & a2 & b2 & _ & E4 & _ & Hb2); [done|].
    change (strings_Join (w :: w' :: l) " ") with (w +:+ " " +:+ strings_Join (w' :: l) " ").
    exists (s' +:+ " " +:+ strings_Join (w' :: l) " "), (w +:+ " " +:+ t2), a, b2. split; [by rewrite E1|].
    split; [|done]. rewrite E4. by rewrite !str_app_assoc. }
  eapply strings_TrimSpace_id; [|done..]. apply str_forall_join; [done|]. eapply list.Forall_impl; [exact Hl|].
  intros w [_ Hw]. by apply is_graph_ascii.
Qed.
