(* ===== verification/GoHash.v ===== *)
(** The digests the sources take from the Go standard library, executable:
    MD5 (crypto/md5, used by [utils.Md5]) and CRC-32 (hash/crc32, used by the
    sharding of [store.GraphItemMap]). *)
From Stdlib Require Import Ascii ZArith.
From stdpp Require Import base list strings numbers.
From S2P Require Import Prelude GoString.

Local Open Scope Z_scope.

(** The bytes of a string. *)
Fixpoint bytes_of (s : string) : list Z :=
  match s with
  | EmptyString => []
  | String c s => Z.of_N (N_of_ascii c) :: bytes_of s
  end.

Lemma bytes_of_length s : length (bytes_of s) = String.length s.
Proof. induction s as [|c s IH]; simpl; [done|]. by rewrite IH. Qed.

(** * CRC-32, polynomial IEEE, bit by bit *)

Definition crc32_bit (c : Z) : Z :=
  if Z.odd c then Z.lxor (Z.shiftr c 1) 3988292384 else Z.shiftr c 1.

Definition crc32_byte (c b : Z) : Z :=
  Nat.iter 8 crc32_bit (Z.lxor c b).

(** [crc32.ChecksumIEEE]: a uint32. *)
Definition crc32_ChecksumIEEE (data : list Z) : Z :=
  u32 (Z.lxor (fold_left crc32_byte data 4294967295) 4294967295).

Lemma crc32_range data : 0 <= crc32_ChecksumIEEE data < 2 ^ 32.
Proof. apply Z.mod_pos_bound. lia. Qed.

Example crc32_check : crc32_ChecksumIEEE (bytes_of "123456789") = 3421780262.
Proof. vm_compute. reflexivity. Qed.

(** * MD5 (RFC 1321) *)

Definition md5_K : list Z :=
  [3614090360; 3905402710; 606105819; 3250441966; 4118548399; 1200080426;
   2821735955; 4249261313; 1770035416; 2336552879; 4294925233; 2304563134;
   1804603682; 4254626195; 2792965006; 1236535329; 4129170786; 3225465664;
   643717713; 3921069994; 3593408605; 38016083; 3634488961; 3889429448;
   568446438; 3275163606; 4107603335; 1163531501; 2850285829; 4243563512;
   1735328473; 2368359562; 4294588738; 2272392833; 1839030562; 4259657740;
   2763975236; 1272893353; 4139469664; 3200236656; 681279174; 3936430074;
   3572445317; 76029189; 3654602809; 3873151461; 530742520; 3299628645;
   4096336452; 1126891415; 2878612391; 4237533241; 1700485571; 2399980690;
   4293915773; 2240044497; 1873313359; 4264355552; 2734768916; 1309151649;
   4149444226; 3174756917; 718787259; 3951481745].

Definition md5_S : list Z :=
  [7; 12; 17; 22; 7; 12; 17; 22; 7; 12; 17; 22; 7; 12; 17; 22;
   5; 9; 14; 20; 5; 9; 14; 20; 5; 9; 14; 20; 5; 9; 14; 20;
   4; 11; 16; 23; 4; 11; 16; 23; 4; 11; 16; 23; 4; 11; 16; 23;
   6; 10; 15; 21; 6; 10; 15; 21; 6; 10; 15; 21; 6; 10; 15; 21].

Definition rotl32 (x n : Z) : Z := u32 (Z.lor (Z.shiftl x n) (Z.shiftr x (32 - n))).

Record md5_state := MkMd5 { md5_a : Z; md5_b : Z; md5_c : Z; md5_d : Z }.

Definition md5_round (blk : list Z) (st : md5_state) (i : nat) : md5_state :=
  let '(MkMd5 a b c d) := st in
  let not x := Z.lxor x 4294967295 in
  let '(f, g) :=
    if (i <? 16)%nat then (Z.lor (Z.land b c) (Z.land (not b) d), i)
    else if (i <? 32)%nat then (Z.lor (Z.land d b) (Z.land (not d) c), (5 * i + 1) mod 16)%nat
    else if (i <? 48)%nat then (Z.lxor b (Z.lxor c d), (3 * i + 5) mod 16)%nat
    else (Z.lxor c (Z.lor b (not d)), (7 * i) mod 16)%nat in
  let t := u32 (a + f + nth i md5_K 0 + nth g blk 0) in
  MkMd5 d (u32 (b + rotl32 t (nth i md5_S 0))) b c.

Definition md5_block (st : md5_state) (blk : list Z) : md5_state :=
  let st' := fold_left (md5_round blk) (seq 0 64) st in
  MkMd5 (u32 (md5_a st + md5_a st')) (u32 (md5_b st + md5_b st'))
        (u32 (md5_c st + md5_c st')) (u32 (md5_d st + md5_d st')).

Definition le_word (b : list Z) : Z := foldr (fun x acc => x + 256 * acc) 0 b.
Fixpoint le_bytes (n : nat) (w : Z) : list Z :=
  match n with O => [] | S n => w mod 256 :: le_bytes n (w / 256) end.

(** Cuts a list into [k] pieces of [n] elements. *)
Fixpoint chunks {A : Type} (n k : nat) (l : list A) : list (list A) :=
  match k with O => [] | S k => take n l :: chunks n k (drop n l) end.

Definition md5_pad (m : list Z) : list Z :=
  let n := length m in
  let z := ((119 - n mod 64) mod 64)%nat in
  m ++ 128 :: replicate z 0 ++ le_bytes 8 (8 * Z.of_nat n).

Definition md5_Sum (m : list Z) : list Z :=
  let p := md5_pad m in
  let blocks := map (fun c => map le_word (chunks 4 16 c)) (chunks 64 (length p / 64)%nat p) in
  let st := fold_left md5_block blocks (MkMd5 1732584193 4023233417 2562383102 271733878) in
  le_bytes 4 (md5_a st) ++ le_bytes 4 (md5_b st) ++ le_bytes 4 (md5_c st) ++ le_bytes 4 (md5_d st).

(** * hex.EncodeToString *)

Definition hex_digits : list ascii := String.list_ascii_of_string "0123456789abcdef".
Definition hex_digit (n : Z) : ascii := nth (Z.to_nat (n mod 16)) hex_digits "0"%char.

Fixpoint hex_EncodeToString (l : list Z) : string :=
  match l with
  | [] => EmptyString
  | b :: l => String (hex_digit (b / 16)) (String (hex_digit b) (hex_EncodeToString l))
  end.

Definition is_hex (c : ascii) : bool := existsb (Ascii.eqb c) hex_digits.

Lemma hex_digit_elem n : hex_digit n ∈ hex_digits.
Proof.
  unfold hex_digit. pose proof (Z.mod_pos_bound n 16) as H.
  destruct (nth_in_or_default (Z.to_nat (n mod 16)) hex_digits "0"%char) as [Hin | ->].
  - by apply list_elem_of_In.
  - by apply list_elem_of_here.
Qed.

Lemma hex_digit_is_hex n : is_hex (hex_digit n) = true.
Proof.
  apply existsb_exists. exists (hex_digit n). split; [|apply Ascii.eqb_refl].
  apply list_elem_of_In, hex_digit_elem.
Qed.

Lemma hex_encode_is_hex l : str_forall is_hex (hex_EncodeToString l) = true.
Proof. induction l as [|b l IH]; simpl; [done|]. by rewrite !hex_digit_is_hex. Qed.

Lemma hex_encode_length l : String.length (hex_EncodeToString l) = (2 * length l)%nat.
Proof. induction l as [|b l IH]; simpl; [done|]. rewrite IH. lia. Qed.

Lemma le_bytes_length n w : length (le_bytes n w) = n.
Proof. revert w; induction n as [|n IH]; intros w; simpl; auto. Qed.

Lemma md5_Sum_length m : length (md5_Sum m) = 16%nat.
Proof. unfold md5_Sum. by rewrite !length_app, !le_bytes_length. Qed.
