(* ===== verification/GoRegexp.v ===== *)
(** Package regexp, as far as the services use it: anchored matching of a whole text,
    and splitting at maximal runs of some characters. The expressions used name only
    ASCII characters and complements of them, so that matching bytes and matching
    runes accept the same texts. *)
From Stdlib Require Import Ascii.
From stdpp Require Import base list strings.
From S2P Require Import Prelude GoString.

(** * Regular expressions *)

Inductive regexp :=
  | RNone
  | REps
  | RSet (f : ascii -> bool)
  | RSeq (r1 r2 : regexp)
  | RAlt (r1 r2 : regexp)
  | RStar (r : regexp).

(** Literals, [r+], [r?], and [[c...]]. *)
Fixpoint RStr (s : string) : regexp :=
  match s with EmptyString => REps | String c s => RSeq (RSet (Ascii.eqb c)) (RStr s) end.
Definition RPlus (r : regexp) : regexp := RSeq r (RStar r).
Definition ROpt (r : regexp) : regexp := RAlt REps r.
Fixpoint str_mem (c : ascii) (s : string) : bool :=
  match s with EmptyString => false | String d s => Ascii.eqb c d || str_mem c s end.
Definition ROneOf (s : string) : regexp := RSet (fun c => str_mem c s).
Definition RNotOf (s : string) : regexp := RSet (fun c => negb (str_mem c s)).

(** The texts an expression denotes. *)
Inductive matches : regexp -> string -> Prop :=
  | M_eps : matches REps ""
  | M_set f c : f c = true -> matches (RSet f) (String c "")
  | M_seq r1 r2 s1 s2 : matches r1 s1 -> matches r2 s2 -> matches (RSeq r1 r2) (s1 +:+ s2)
  | M_alt_l r1 r2 s : matches r1 s -> matches (RAlt r1 r2) s
  | M_alt_r r1 r2 s : matches r2 s -> matches (RAlt r1 r2) s
  | M_star_nil r : matches (RStar r) ""
  | M_star_cons r s1 s2 : matches r s1 -> matches (RStar r) s2 -> matches (RStar r) (s1 +:+ s2).

(** [regexp.MatchString("^r$", s)], by derivatives. *)
Fixpoint nullable (r : regexp) : bool :=
  match r with
  | RNone | RSet _ => false
  | REps | RStar _ => true
  | RSeq r1 r2 => nullable r1 && nullable r2
  | RAlt r1 r2 => nullable r1 || nullable r2
  end.
Fixpoint deriv (c : ascii) (r : regexp) : regexp :=
  match r with
  | RNone | REps => RNone
  | RSet f => if f c then REps else RNone
  | RSeq r1 r2 => if nullable r1 then RAlt (RSeq (deriv c r1) r2) (deriv c r2) else RSeq (deriv c r1) r2
  | RAlt r1 r2 => RAlt (deriv c r1) (deriv c r2)
  | RStar r => RSeq (deriv c r) (RStar r)
  end.
Fixpoint regexp_Match (r : regexp) (s : string) : bool :=
  match s with
  | EmptyString => nullable r
  | String c s => regexp_Match (deriv c r) s
  end.

(** [re.Split(s, -1)] for an expression [[...]+]: [f] tells the characters of the set.
    A run at the beginning gives an empty first item, one at the end an empty last. *)
Fixpoint split_runs (f : ascii -> bool) (s : string) : list string :=
  match s with
  | EmptyString => [""]
  | String c s' =>
      match split_runs f s' with
      | item :: items =>
          if f c then
            match s' with
            | String d _ => if f d then item :: items else "" :: item :: items
            | EmptyString => ["" ; ""]
            end
          else String c item :: items
      | [] => []
      end
  end.

(** * Matching is correct *)

Lemma str_app_eq_nil s1 s2 : s1 +:+ s2 = "" -> s1 = "" /\ s2 = "".
Proof. by destruct s1, s2. Qed.

Lemma nullable_spec r : nullable r = true <-> matches r "".
Proof.
  split.
  - induction r; cbn [nullable]; intros Hn; try done.
    + constructor.
    + apply andb_true_iff in Hn as [? ?]. change "" with ("" +:+ ""). constructor; auto.
    + apply orb_true_iff in Hn as [?|?]; [apply M_alt_l | apply M_alt_r]; auto.
    + constructor.
  - remember "" as s eqn:Es. induction 1 as [ | | r1 r2 s1 s2 H1 IH1 H2 IH2 | | | | ]; cbn [nullable]; try done.
    + apply str_app_eq_nil in Es as [-> ->]. by rewrite IH1, IH2.
    + by rewrite IHmatches.
    + by rewrite IHmatches, orb_true_r.
Qed.

Lemma deriv_spec c r s : matches (deriv c r) s <-> matches r (String c s).
Proof.
  split.
  - revert s. induction r as [| | f | r1 IH1 r2 IH2 | r1 IH1 r2 IH2 | r IH]; intros s; cbn [deriv]; intros Hm; try by inversion Hm.
    + destruct (f c) eqn:Hf; inversion Hm; subst. by constructor.
    + assert (forall s, matches (RSeq (deriv c r1) r2) s -> matches (RSeq r1 r2) (String c s)) as Hseq.
      { intros t Ht. inversion Ht; subst. rewrite <- str_app_cons. constructor; auto. }
      destruct (nullable r1) eqn:Hn; [|auto]. inversion Hm; subst; [auto|].
      change (String c s) with ("" +:+ String c s). constructor; [by apply nullable_spec | auto].
    + inversion Hm; subst; [apply M_alt_l | apply M_alt_r]; auto.
    + inversion Hm; subst. rewrite <- str_app_cons. constructor; auto.
  - remember (String c s) as t eqn:Et. intros Hm. revert s Et.
    induction Hm as [ | f d Hd | r1 r2 s1 s2 H1 IH1 H2 IH2 | r1 r2 t H1 IH1 | r1 r2 t H1 IH1 | | r s1 s2 H1 IH1 H2 IH2]; intros s Et; cbn [deriv]; try done.
    + injection Et as -> <-. rewrite Hd. constructor.
    + destruct s1 as [|d s1].
      * assert (nullable r1 = true) as -> by (by apply nullable_spec). apply M_alt_r, IH2. done.
      * rewrite str_app_cons in Et. injection Et as -> <-.
        assert (matches (RSeq (deriv c r1) r2) (s1 +:+ s2)) by (constructor; auto).
        destruct (nullable r1); [by apply M_alt_l | done].
    + apply M_alt_l. auto.
    + apply M_alt_r. auto.
    + destruct s1 as [|d s1]; [by apply IH2|]. rewrite str_app_cons in Et. injection Et as -> <-. constructor; auto.
Qed.

Lemma regexp_Match_spec r s : regexp_Match r s = true <-> matches r s.
Proof.
  revert r. induction s as [|c s IH]; intros r; cbn [regexp_Match]; [apply nullable_spec|]. by rewrite IH, deriv_spec.
Qed.

(** * The languages of the constructions *)

Lemma matches_RSeq r1 r2 s : matches (RSeq r1 r2) s <-> exists s1 s2, s = s1 +:+ s2 /\ matches r1 s1 /\ matches r2 s2.
Proof. split; [inversion 1; subst; eauto | intros (s1 & s2 & -> & ? & ?); by constructor]. Qed.
Lemma matches_RAlt r1 r2 s : matches (RAlt r1 r2) s <-> matches r1 s \/ matches r2 s.
Proof. split; [inversion 1; subst; auto | intros [?|?]; [by apply M_alt_l | by apply M_alt_r]]. Qed.
Lemma matches_REps s : matches REps s <-> s = "".
Proof. split; [by inversion 1 | intros ->; constructor]. Qed.
Lemma matches_RSet f s : matches (RSet f) s <-> exists c, s = String c "" /\ f c = true.
Proof. split; [inversion 1; subst; eauto | intros (c & -> & ?); by constructor]. Qed.
Lemma matches_RStr t s : matches (RStr t) s <-> s = t.
Proof.
  revert s. induction t as [|c t IH]; intros s; cbn [RStr]; [apply matches_REps|].
  rewrite matches_RSeq. setoid_rewrite IH. setoid_rewrite matches_RSet. split.
  - intros (s1 & s2 & -> & (d & -> & Hd) & ->). by apply Ascii.eqb_eq in Hd as ->.
  - intros ->. exists (String c ""), t. split; [done|]. split; [|done]. exists c. by rewrite Ascii.eqb_refl.
Qed.

(** [r*]: any number of texts of [r]. *)
Lemma matches_RStar r s : matches (RStar r) s <-> exists l, s = foldr (fun a b => a +:+ b) "" l /\ Forall (matches r) l.
Proof.
  split.
  - remember (RStar r) as q eqn:Eq. induction 1 as [ | | | | | r' | r' s1 s2 H1 _ H2 IH2]; try done; injection Eq as ->.
    + by exists [].
    + destruct IH2 as (l & -> & Hl); [done|]. exists (s1 :: l). split; [done | by constructor].
  - intros (l & -> & Hl). induction Hl; cbn [foldr]; constructor; auto.
Qed.

(** [[...]*] and [[...]+]. *)
Lemma matches_RStar_set f s : matches (RStar (RSet f)) s <-> str_forall f s = true.
Proof.
  rewrite matches_RStar. split.
  - intros (l & -> & Hl). induction Hl as [|t l Ht Hl IH]; [done|]. cbn [foldr]. rewrite str_forall_app, IH, andb_true_r.
    apply matches_RSet in Ht as (c & -> & Hc). cbn [str_forall]. by rewrite Hc.
  - intros Hs. exists (map (fun c => String c "") (String.list_ascii_of_string s)).
    induction s as [|c s IH]; [done|]. cbn [str_forall] in Hs. apply andb_true_iff in Hs as [Hc Hs]. destruct (IH Hs) as [E Hl].
    cbn [String.list_ascii_of_string map foldr]. rewrite <- E. split; [done|]. constructor; [by constructor | done].
Qed.
Lemma matches_RPlus_set f s : matches (RPlus (RSet f)) s <-> s <> "" /\ str_forall f s = true.
Proof.
  unfold RPlus. rewrite matches_RSeq. setoid_rewrite matches_RStar_set. setoid_rewrite matches_RSet. split.
  - intros (s1 & s2 & -> & (c & -> & Hc) & Hs). split; [done|]. cbn [str_forall String.append]. rewrite str_app_cons, str_app_nil_l.
    cbn [str_forall]. by rewrite Hc.
  - intros [Hne Hs]. destruct s as [|c s]; [done|]. cbn [str_forall] in Hs. apply andb_true_iff in Hs as [Hc Hs].
    exists (String c ""), s. split; [done|]. split; [eauto | done].
Qed.

(** * Splitting *)

Lemma split_runs_nonempty f s : split_runs f s <> [].
Proof. induction s as [|c s IH]; cbn [split_runs]; [done|]. destruct (split_runs f s) as [|i l]; [done|]. by repeat case_match. Qed.

(** A text without the characters is one item. *)
Lemma split_runs_free f s : str_forall (fun c => negb (f c)) s = true -> split_runs f s = [s].
Proof.
  induction s as [|c s IH]; cbn [split_runs str_forall]; [done|]. intros [Hc Hs]%andb_true_iff.
  rewrite IH by done. by destruct (f c).
Qed.

(** An item, a run, and the rest. *)
Lemma split_runs_run f run s :
  run <> "" -> str_forall f run = true -> (forall c t, s = String c t -> f c = false) -> split_runs f (run +:+ s) = "" :: split_runs f s.
Proof.
  intros Hne Hrun Hs. induction run as [|c run IH]; [done|]. rewrite str_app_cons. cbn [str_forall] in Hrun. apply andb_true_iff in Hrun as [Hc Hrun].
  cbn [split_runs]. destruct run as [|d run].
  - rewrite str_app_nil_l, Hc. destruct (split_runs f s) as [|item items] eqn:E; [by apply split_runs_nonempty in E|].
    destruct s as [|d s]; [by injection E as <- <-|]. by rewrite (Hs d s).
  - rewrite IH by done. rewrite Hc, str_app_cons. cbn [str_forall] in Hrun. by apply andb_true_iff in Hrun as [-> _].
Qed.
Lemma split_runs_item f item run s :
  str_forall (fun c => negb (f c)) item = true -> run <> "" -> str_forall f run = true -> (forall c t, s = String c t -> f c = false) ->
  split_runs f (item +:+ run +:+ s) = item :: split_runs f s.
Proof.
  intros Hi Hne Hrun Hs. induction item as [|c item IH].
  { rewrite str_app_nil_l. by apply split_runs_run. }
  cbn [str_forall] in Hi. apply andb_true_iff in Hi as [Hc Hi]. rewrite str_app_cons. cbn [split_runs]. rewrite IH by done.
  by destruct (f c).
Qed.
