(* ===== verification/Utils.v ===== *)
(** Package common/utils: tag strings, series keys, checksums and statistics. *)
From Stdlib Require Import Ascii ZArith.
From stdpp Require Import base list gmap strings sorting numbers.
From S2P Require Import Prelude GoString GoFloat GoHash.

Local Open Scope Z_scope.

(** A Go [map[string]string] of tags. A nil map reads like an empty one. *)
Abbreviation tagmap := (gmap string string).

(** The order in which one [range] over a map visits its keys is any
    permutation of them. *)
Definition range_order {V : Type} (m : gmap string V) (ks : list string) : Prop :=
  ks ≡ₚ (map_to_list m).*1.

(** The order used when the models are evaluated. *)
Definition keys_of {V : Type} (m : gmap string V) : list string := (map_to_list m).*1.

Lemma keys_of_range {V : Type} (m : gmap string V) : range_order m (keys_of m).
Proof. unfold range_order, keys_of. reflexivity. Qed.

Lemma range_order_elem {V : Type} (m : gmap string V) ks k :
  range_order m ks -> k ∈ ks <-> is_Some (m !! k).
Proof.
  intros ->. rewrite list_elem_of_fmap. split.
  - intros ([k' v] & -> & Hv%elem_of_map_to_list). by exists v.
  - intros [v Hv]. exists (k, v). by rewrite elem_of_map_to_list.
Qed.

Lemma range_order_length {V : Type} (m : gmap string V) ks :
  range_order m ks -> length ks = size m.
Proof. intros ->. by rewrite length_fmap, length_map_to_list. Qed.

Lemma range_order_NoDup {V : Type} (m : gmap string V) ks : range_order m ks -> NoDup ks.
Proof. intros ->. apply NoDup_fst_map_to_list. Qed.

Lemma filter_ext_elem {A : Type} (P Q : A -> Prop) `{!forall x, Decision (P x), !forall x, Decision (Q x)} (l : list A) :
  (forall x, x ∈ l -> P x <-> Q x) -> filter P l = filter Q l.
Proof.
  induction l as [|x l IH]; intros HPQ; [done|]. rewrite !filter_cons, IH by (intros; apply HPQ; by right).
  pose proof (HPQ x ltac:(left)). do 2 case_decide; tauto.
Qed.

(** The iteration order a run of the program sees: Go leaves it unspecified, so
    the models take it as an argument. *)
Class MapRange := {
  range_keys {V : Type} (m : gmap string V) : list string;
  range_keys_order {V : Type} (m : gmap string V) : range_order m (range_keys m) }.

Definition map_range_default : MapRange :=
  {| range_keys := @keys_of; range_keys_order := @keys_of_range |}.

(** [for k, v := range m]. *)
Definition range_pairs `{MapRange} {V : Type} (m : gmap string V) : list (string * V) :=
  omap (fun k => pair k <$> m !! k) (range_keys m).

Lemma elem_of_range_pairs `{MapRange} {V : Type} (m : gmap string V) k v :
  (k, v) ∈ range_pairs m <-> m !! k = Some v.
Proof.
  unfold range_pairs. rewrite list_elem_of_omap. split.
  - intros (k' & _ & (v' & Hk & [= <- <-])%fmap_Some_1). done.
  - intros Hk. exists k. split; [|by rewrite Hk].
    rewrite (range_order_elem m) by apply range_keys_order. by exists v.
Qed.

Lemma fold_insert_pairs {A B : Type} (f : A -> B) (l : list (string * A)) (m : gmap string B) k :
  NoDup l.*1 ->
  fold_left (fun (m : gmap string B) '(n, a) => <[n := f a]> m) l m !! k =
    match list_to_map (M := gmap string A) l !! k with Some a => Some (f a) | None => m !! k end.
Proof.
  revert m; induction l as [|[n a] l IH]; intros m; simpl; [done|]. intros [Hn Hl]%list.NoDup_cons.
  rewrite IH by done. destruct (decide (n = k)) as [->|Hk].
  - rewrite lookup_insert_eq, not_elem_of_list_to_map_1 by done. by rewrite lookup_insert_eq.
  - by rewrite !lookup_insert_ne by done.
Qed.

Lemma range_pairs_fst `{MapRange} {V : Type} (m : gmap string V) : (range_pairs m).*1 = range_keys m.
Proof.
  unfold range_pairs. assert (Forall (fun k => is_Some (m !! k)) (range_keys m)) as Hk.
  { apply list.Forall_forall. intros k. apply range_order_elem, range_keys_order. }
  induction Hk as [|k ks [v Hv] Hk IH]; csimpl; [done|]. rewrite Hv. csimpl. by f_equal.
Qed.

Lemma range_pairs_map `{MapRange} {V : Type} (m : gmap string V) k :
  list_to_map (M := gmap string V) (range_pairs m) !! k = m !! k.
Proof.
  assert (NoDup (range_pairs m).*1) as Hd
    by (rewrite range_pairs_fst; eapply range_order_NoDup, range_keys_order).
  destruct (m !! k) as [v|] eqn:E.
  - apply elem_of_list_to_map_1; [done|]. by apply elem_of_range_pairs.
  - apply not_elem_of_list_to_map_1. rewrite range_pairs_fst.
    rewrite (range_order_elem m) by apply range_keys_order. rewrite E. by intros [].
Qed.

Lemma fold_range_lookup `{MapRange} {A B : Type} (f : A -> B) (m : gmap string A) (m' : gmap string B) k :
  fold_left (fun (m : gmap string B) '(n, a) => <[n := f a]> m) (range_pairs m) m' !! k =
    match m !! k with Some a => Some (f a) | None => m' !! k end.
Proof.
  rewrite fold_insert_pairs, range_pairs_map; [done|].
  rewrite range_pairs_fst. eapply range_order_NoDup, range_keys_order.
Qed.

(** [if _, ok := m[k]; ok { m[k] = append(m[k], v) } else { m[k] = [v] }]. *)
Definition str_append {V : Type} (m : gmap string (list V)) (k : string) (v : V) : gmap string (list V) :=
  match m !! k with
  | Some l => <[k := l ++ [v]]> m
  | None => <[k := [v]]> m
  end.
Lemma str_append_lookup {V : Type} (m : gmap string (list V)) k v k' :
  str_append m k v !! k' = if decide (k = k') then Some (default [] (m !! k) ++ [v]) else m !! k'.
Proof.
  unfold str_append. destruct (m !! k) as [l|] eqn:E; case_decide as Hk; subst;
    first [by rewrite lookup_insert_eq | by rewrite lookup_insert_ne].
Qed.

(** The elements of a slice filed under their keys. *)
Definition group_by {V : Type} (key : V -> string) (l : list V) : gmap string (list V) :=
  fold_left (fun m v => str_append m (key v) v) l ∅.

Lemma group_by_lookup {V : Type} (key : V -> string) (l : list V) u :
  group_by key l !! u = match filter (fun v => key v = u) l with [] => None | l => Some l end.
Proof.
  unfold group_by. induction l as [|s l IH] using rev_ind; [done|].
  rewrite fold_left_app. cbn [fold_left]. rewrite str_append_lookup, list.filter_app.
  case_decide as Hu.
  - subst u. rewrite IH, (list.filter_cons_True _ s []), list.filter_nil by done.
    by destruct (filter _ l).
  - rewrite IH, (list.filter_cons_False _ s []), list.filter_nil by done. by rewrite app_nil_r.
Qed.

(** [sort.Strings]: bytewise ascending. *)
Definition sort_Strings : list string -> list string := merge_sort String.le.

Lemma sort_Strings_perm l : sort_Strings l ≡ₚ l.
Proof. apply merge_sort_Permutation. Qed.

Lemma sort_Strings_unique l l' : l ≡ₚ l' -> sort_Strings l = sort_Strings l'.
Proof.
  intros Hp. eapply (Sorted_unique String.le); [apply Sorted_merge_sort, _..|].
  by rewrite !sort_Strings_perm.
Qed.

(** ** tags.go *)

(** One tag as the sources print it. *)
Definition tag_pair (tags : tagmap) (k : string) : string := k +:+ "=" +:+ default "" (tags !! k).

(** The loop of [SortedTags] over the sorted keys. *)
Fixpoint SortedTags_loop (tags : tagmap) (size j : nat) (keys : list string) : string :=
  match keys with
  | [] => ""
  | key :: keys =>
      key +:+ "=" +:+ default "" (tags !! key)
        +:+ (if (j =? size - 1)%nat then "" else ",")
        +:+ SortedTags_loop tags size (S j) keys
  end.

(** [SortedTags], ranging over the map in the order [ks]. *)
Definition SortedTags_range (ks : list string) (tags : tagmap) : string :=
  match size tags with
  | O => ""
  | S O => foldr (fun k acc => tag_pair tags k +:+ acc) "" ks
  | n => SortedTags_loop tags n 0 (sort_Strings ks)
  end.
Definition SortedTags (tags : tagmap) : string := SortedTags_range (keys_of tags) tags.

Definition DictedTagstring (s : string) : tagmap :=
  if bool_decide (s = "") then ∅
  else
    let s := strings_remove " " s in
    fold_left (fun (tag_dict : tagmap) tag =>
      match find_byte "=" tag with
      | Some idx => <[str_take idx tag := str_drop (S idx) tag]> tag_dict
      | None => tag_dict
      end) (strings_Split s ",") ∅.

(** [SplitTagsString] returns the tags read so far with the first bad tag. *)
Fixpoint SplitTagsString_loop (tagSlice : list string) (tags : tagmap) : option string * tagmap :=
  match tagSlice with
  | [] => (None, tags)
  | tag :: tagSlice =>
      match find_byte "=" tag with
      | Some idx => SplitTagsString_loop tagSlice (<[str_take idx tag := str_drop (S idx) tag]> tags)
      | None => (Some ("bad tag " +:+ tag), tags)
      end
  end.
Definition SplitTagsString (s : string) : option string * tagmap :=
  let s := strings_remove " " s in
  if bool_decide (s = "") then (None, ∅)
  else SplitTagsString_loop (strings_Split s ",") ∅.

(** ** map.go *)
Definition KeysOfMap {V : Type} (m : gmap string V) : list string := sort_Strings (keys_of m).

(** ** counter.go, func.go, md5.go *)
Definition Counter (metric : string) (tags : tagmap) : string :=
  if (size tags =? 0)%nat then metric else metric +:+ "/" +:+ SortedTags tags.

Definition PK (endpoint metric : string) (tags : tagmap) : string :=
  if (size tags =? 0)%nat then endpoint +:+ "/" +:+ metric
  else endpoint +:+ "/" +:+ metric +:+ "/" +:+ SortedTags tags.

Definition PK2 (endpoint counter : string) : string := endpoint +:+ "/" +:+ counter.

Definition UUID (endpoint metric : string) (tags : tagmap) (dstype : string) (step : Z) : string :=
  if (size tags =? 0)%nat
  then endpoint +:+ "/" +:+ metric +:+ "/" +:+ dstype +:+ "/" +:+ strconv_Itoa step
  else endpoint +:+ "/" +:+ metric +:+ "/" +:+ SortedTags tags +:+ "/" +:+ dstype +:+ "/" +:+ strconv_Itoa step.

Definition Md5 (raw : string) : string := hex_EncodeToString (md5_Sum (bytes_of raw)).

Definition Checksum (endpoint metric : string) (tags : tagmap) : string := Md5 (PK endpoint metric tags).

Definition ChecksumOfUUID (endpoint metric : string) (tags : tagmap) (dstype : string) (step : Z) : string :=
  Md5 (UUID endpoint metric tags dstype step).

(** ** formatter.go *)
Fixpoint strings_TrimRight (c : ascii) (s : string) : string :=
  match s with
  | EmptyString => EmptyString
  | String d s =>
      match strings_TrimRight c s with
      | EmptyString => if Ascii.eqb c d then EmptyString else String d EmptyString
      | t => String d t
      end
  end.
Definition ReadableFloat (raw : f64) : string :=
  let val := f64_format 5 raw in
  if negb (str_free "." val) then strings_TrimRight "." (strings_TrimRight "0" val) else val.

(** ** statistics.go *)
Definition ComputeMean (values : list f64) : f64 :=
  f64_div (f64_sum values) (f64_of_Z (Z.of_nat (length values))).

Definition ComputeStdDeviation (values : list f64) : f64 :=
  let mean := ComputeMean values in
  let vp := map (fun v => let temp := f64_sub v mean in f64_mul temp temp) values in
  f64_sqrt (ComputeMean vp).

Example sorted_tags_1 : SortedTags {["k2" := "v2"; "k1" := "v1"]} = "k1=v1,k2=v2".
Proof. vm_compute. reflexivity. Qed.
Example md5_test : Md5 "1234567890123" = "ee76971984d25138a199ac90553401dd".
Proof. vm_compute. reflexivity. Qed.
Example readable_1 : ReadableFloat (f64_lit 25 (-1)) = "2.5" /\ ReadableFloat (f64_of_Z 100) = "100".
Proof. vm_compute. split; reflexivity. Qed.
Example stddev_1 : ComputeStdDeviation (map f64_of_Z [2; 4; 4; 4; 5; 5; 7; 9]) = f64_of_Z 2.
Proof. vm_compute. reflexivity. Qed.

(** * Lemmas *)

Lemma SortedTags_loop_join (tags : tagmap) n j keys :
  (j + length keys = n)%nat ->
  SortedTags_loop tags n j keys = strings_Join (map (tag_pair tags) keys) ",".
Proof.
  revert j; induction keys as [|k keys IH]; intros j Hn; [done|].
  simpl in Hn. cbn [SortedTags_loop]. rewrite IH by lia. destruct keys as [|k' keys].
  - simpl. replace (j =? n - 1)%nat with true by (symmetry; apply Nat.eqb_eq; simpl in Hn; lia).
    by autorewrite with falcon.
  - replace (j =? n - 1)%nat with false by (symmetry; apply Nat.eqb_neq; simpl in Hn; lia).
    change (strings_Join (map (tag_pair tags) (k :: k' :: keys)) ",")
      with ((k +:+ "=" +:+ default "" (tags !! k)) +:+ "," +:+ strings_Join (map (tag_pair tags) (k' :: keys)) ",").
    by rewrite !str_app_assoc.
Qed.

(** The tags printed are those of the map, sorted by key, whatever the order
    in which the map is ranged over. *)
Lemma SortedTags_range_join (tags : tagmap) ks :
  range_order tags ks ->
  SortedTags_range ks tags = strings_Join (map (tag_pair tags) (sort_Strings ks)) ",".
Proof.
  intros Hks. unfold SortedTags_range. pose proof (range_order_length _ _ Hks) as Hlen.
  pose proof (Permutation_length (sort_Strings_perm ks)) as Hlen'.
  destruct (size tags) as [|[|n]] eqn:Hn.
  - by destruct (sort_Strings ks); [|simpl in *; lia].
  - destruct ks as [|k [|]]; simpl in Hlen; try lia.
    cbn [foldr]. rewrite str_app_nil_r. reflexivity.
  - apply SortedTags_loop_join. simpl. lia.
Qed.

Lemma SortedTags_join (tags : tagmap) :
  SortedTags tags = strings_Join (map (tag_pair tags) (KeysOfMap tags)) ",".
Proof. apply SortedTags_range_join, keys_of_range. Qed.

Lemma KeysOfMap_elem {V : Type} (m : gmap string V) k : k ∈ KeysOfMap m <-> is_Some (m !! k).
Proof. unfold KeysOfMap. rewrite sort_Strings_perm. apply range_order_elem, keys_of_range. Qed.

Lemma KeysOfMap_NoDup {V : Type} (m : gmap string V) : NoDup (KeysOfMap m).
Proof. unfold KeysOfMap. rewrite sort_Strings_perm. apply (range_order_NoDup m), keys_of_range. Qed.

(** Tags whose text survives printing and reading back. *)
Definition tag_ok (k v : string) : Prop :=
  str_free "," k = true /\ str_free "=" k = true /\ str_free " " k = true /\
  str_free "," v = true /\ str_free " " v = true.
Definition wf_tags (tags : tagmap) : Prop := map_Forall tag_ok tags.

#[global] Instance tag_ok_dec k v : Decision (tag_ok k v).
Proof. unfold tag_ok. apply _. Defined.
#[global] Instance wf_tags_dec tags : Decision (wf_tags tags).
Proof. unfold wf_tags. apply _. Defined.

Lemma find_byte_pair k v :
  str_free "=" k = true ->
  find_byte "=" (k +:+ "=" +:+ v) = Some (String.length k) /\
  str_take (String.length k) (k +:+ "=" +:+ v) = k /\
  str_drop (S (String.length k)) (k +:+ "=" +:+ v) = v.
Proof.
  intros Hk. split_and!; [by apply find_byte_app | by apply str_take_app |].
  induction k as [|c k IH]; [done|]. rewrite str_app_cons. simpl. apply IH.
  by apply str_free_cons in Hk as [_ ?].
Qed.

Lemma str_free_join c sep l :
  str_free c sep = true -> Forall (fun s => str_free c s = true) l -> str_free c (strings_Join l sep) = true.
Proof.
  intros Hsep Hl. induction Hl as [|s l Hs Hl IH]; [done|].
  destruct l as [|s' l]; [done|].
  change (str_free c (s +:+ sep +:+ strings_Join (s' :: l) sep) = true).
  by rewrite !str_free_app, Hs, Hsep, IH.
Qed.

Lemma strings_Join_nonempty (l : list string) sep :
  Forall (fun s => s <> "") l -> l <> [] -> strings_Join l sep <> "".
Proof.
  intros Hl Hne. destruct Hl as [|s l Hs Hl]; [done|].
  destruct l as [|s' l]; [done|]. by destruct s.
Qed.

Section tag_text.
Context (tags : tagmap) (Hwf : wf_tags tags).

Lemma tag_pairs_forall (P : string -> Prop) :
  (forall k v, tags !! k = Some v -> P (k +:+ "=" +:+ v)) ->
  Forall P (map (tag_pair tags) (KeysOfMap tags)).
Proof using Type.
  intros HP. apply list.Forall_forall. intros t (k & -> & Hk)%list_elem_of_fmap.
  apply KeysOfMap_elem in Hk as [v Hv]. unfold tag_pair. rewrite Hv. simpl. auto.
Qed.

Lemma SortedTags_free_space : str_free " " (SortedTags tags) = true.
Proof using Hwf.
  rewrite SortedTags_join. apply str_free_join; [done|].
  apply tag_pairs_forall. intros k v Hv.
  destruct (Hwf k v Hv) as (_ & _ & Hk & _ & Hv'). by rewrite !str_free_app, Hk, Hv'.
Qed.

Lemma SortedTags_split :
  tags <> ∅ -> strings_Split (SortedTags tags) "," = map (tag_pair tags) (KeysOfMap tags).
Proof using Hwf.
  intros Hne. rewrite SortedTags_join. apply strings_Split_Join.
  - intros E%map_eq_nil. destruct (map_choose tags Hne) as (k & v & Hv).
    assert (k ∈ KeysOfMap tags) as Hk by (apply KeysOfMap_elem; eauto).
    rewrite E in Hk. by apply not_elem_of_nil in Hk.
  - apply tag_pairs_forall. intros k v Hv.
    destruct (Hwf k v Hv) as (Hk & _ & _ & Hv' & _). by rewrite !str_free_app, Hk, Hv'.
Qed.

Lemma SortedTags_nonempty : tags <> ∅ -> SortedTags tags <> "".
Proof using Hwf.
  intros Hne E. pose proof (SortedTags_split Hne) as Hs. rewrite E in Hs. simpl in Hs.
  destruct (KeysOfMap tags) as [|k []]; simpl in Hs; try done.
  injection Hs as Hs. unfold tag_pair in Hs. by destruct k.
Qed.

(** Inserting the printed pairs one by one rebuilds the map. *)
Lemma insert_keys_rebuild (ks : list string) :
  (forall k, k ∈ ks <-> is_Some (tags !! k)) ->
  fold_left (fun (m : tagmap) k => <[k := default "" (tags !! k)]> m) ks ∅ = tags.
Proof using Type.
  intros Hks. apply map_eq. intros k.
  assert (forall (m : tagmap), fold_left (fun (m : tagmap) k => <[k := default "" (tags !! k)]> m) ks m !! k
    = if decide (k ∈ ks) then Some (default "" (tags !! k)) else m !! k) as E.
  { clear Hks. induction ks as [|k' ks IH]; intros m; cbn [fold_left].
    - case_decide as H; [by apply not_elem_of_nil in H | done].
    - rewrite IH. destruct (decide (k ∈ ks)) as [H|H].
      + case_decide as H'; [done | by destruct H'; right].
      + destruct (decide (k = k')) as [->|Hne].
        * case_decide as H'; [apply lookup_insert_eq | by destruct H'; left].
        * case_decide as H'; [apply elem_of_cons in H' as [? | ?]; done | by apply lookup_insert_ne]. }
  rewrite E. case_decide as Hk; rewrite Hks in Hk.
  - by destruct Hk as [v ->].
  - rewrite lookup_empty. destruct (tags !! k) eqn:Hv; [|done]. by destruct Hk.
Qed.

Lemma read_pairs_rebuild (ks : list string) (m : tagmap) :
  Forall (fun k => is_Some (tags !! k)) ks ->
  fold_left (fun (tag_dict : tagmap) tag =>
    match find_byte "=" tag with
    | Some idx => <[str_take idx tag := str_drop (S idx) tag]> tag_dict
    | None => tag_dict
    end) (map (tag_pair tags) ks) m
  = fold_left (fun (m : tagmap) k => <[k := default "" (tags !! k)]> m) ks m.
Proof using Hwf.
  intros Hks. revert m. induction Hks as [|k ks [v Hv] Hks IH]; intros m; [done|].
  cbn [map fold_left SplitTagsString_loop].
  destruct (Hwf k v Hv) as (_ & Hk & _).
  destruct (find_byte_pair k (default "" (tags !! k)) Hk) as (E1 & E2 & E3).
  unfold tag_pair. by rewrite E1, E2, E3, IH.
Qed.

Lemma SplitTagsString_loop_ok (ks : list string) (m : tagmap) :
  Forall (fun k => is_Some (tags !! k)) ks ->
  SplitTagsString_loop (map (tag_pair tags) ks) m
  = (None, fold_left (fun (m : tagmap) k => <[k := default "" (tags !! k)]> m) ks m).
Proof using Hwf.
  intros Hks. revert m. induction Hks as [|k ks [v Hv] Hks IH]; intros m; [done|].
  cbn [map fold_left SplitTagsString_loop].
  destruct (Hwf k v Hv) as (_ & Hk & _).
  destruct (find_byte_pair k (default "" (tags !! k)) Hk) as (E1 & E2 & E3).
  unfold tag_pair. by rewrite E1, E2, E3, IH.
Qed.

Lemma KeysOfMap_Forall : Forall (fun k => is_Some (tags !! k)) (KeysOfMap tags).
Proof using Type. apply list.Forall_forall. intros k. apply KeysOfMap_elem. Qed.

Lemma DictedTagstring_SortedTags : DictedTagstring (SortedTags tags) = tags.
Proof using Hwf.
  unfold DictedTagstring. destruct (decide (tags = ∅)) as [E|Hne]; [by rewrite E|].
  rewrite bool_decide_false by (by apply SortedTags_nonempty).
  rewrite strings_remove_free by apply SortedTags_free_space.
  rewrite SortedTags_split by done. rewrite read_pairs_rebuild by apply KeysOfMap_Forall.
  apply insert_keys_rebuild, KeysOfMap_elem.
Qed.

Lemma SplitTagsString_SortedTags : SplitTagsString (SortedTags tags) = (None, tags).
Proof using Hwf.
  unfold SplitTagsString. destruct (decide (tags = ∅)) as [E|Hne]; [by rewrite E|].
  rewrite strings_remove_free by apply SortedTags_free_space.
  rewrite bool_decide_false by (by apply SortedTags_nonempty).
  rewrite SortedTags_split by done. rewrite SplitTagsString_loop_ok by apply KeysOfMap_Forall.
  f_equal. apply insert_keys_rebuild. intros k. apply KeysOfMap_elem.
Qed.
End tag_text.

Lemma find_byte_split c s n :
  find_byte c s = Some n -> s = str_take n s +:+ String c (str_drop (S n) s) /\ str_free c (str_take n s) = true.
Proof.
  revert n; induction s as [|d s IH]; intros n; cbn [find_byte]; [done|].
  destruct (Ascii.eqb_spec c d) as [->|Hc]; [intros [= <-]; done|].
  destruct (find_byte c s) as [m|] eqn:E; [|done]. intros [= <-]. destruct (IH m eq_refl) as [Es Hf].
  split; [cbn [str_take str_drop]; rewrite str_app_cons; by f_equal|].
  unfold str_free in *. cbn [str_take str_forall]. rewrite Hf. by rewrite (proj2 (Ascii.eqb_neq c d)).
Qed.

(** Whatever text is read, the tags it gives have a text that reads back. *)
Lemma DictedTagstring_wf s : wf_tags (DictedTagstring s).
Proof.
  unfold DictedTagstring. case_bool_decide; [apply map_Forall_empty|].
  assert (Forall (fun t => str_free "," t = true /\ str_free " " t = true) (strings_Split (strings_remove " " s) ",")) as Ht.
  { apply list.Forall_forall. intros t Hin. split.
    - pose proof (strings_Split_elem_free (strings_remove " " s) ",") as Hf. rewrite list.Forall_forall in Hf. by apply Hf.
    - pose proof (strings_Join_Split (strings_remove " " s) ",") as Ej. pose proof (strings_remove_is_free " " s) as Hf.
      rewrite <- Ej in Hf. revert Hin Hf. generalize (strings_Split (strings_remove " " s) ",") as l. clear.
      induction l as [|x l IH]; intros Hin Hf; [by apply not_elem_of_nil in Hin|].
      destruct l as [|y l]; [by apply list_elem_of_singleton in Hin as ->|].
      change (str_free " " (x +:+ "," +:+ strings_Join (y :: l) ",") = true) in Hf. rewrite !str_free_app in Hf.
      apply andb_true_iff in Hf as [Hx Hf]. apply andb_true_iff in Hf as [_ Hf].
      apply elem_of_cons in Hin as [->|Hin]; [done | by apply IH]. }
  assert (wf_tags ∅) as Hm by apply map_Forall_empty. revert Hm. generalize (∅ : tagmap) as m.
  induction Ht as [|t l [Hc Hs] Ht IH]; intros m Hm; cbn [fold_left]; [done|]. apply IH.
  destruct (find_byte "=" t) as [n|] eqn:E; [|done]. apply find_byte_split in E as [Et Hk].
  apply map_Forall_insert_2; [|done]. rewrite Et in Hc, Hs. rewrite str_free_app in Hc, Hs.
  apply andb_true_iff in Hc as [Hc1 Hc2]. apply andb_true_iff in Hs as [Hs1 Hs2].
  apply str_free_cons in Hc2 as [_ Hc2]. apply str_free_cons in Hs2 as [_ Hs2]. done.
Qed.

(** ** Keys of series *)

Lemma SortedTags_range_unique (tags : tagmap) ks :
  range_order tags ks -> SortedTags_range ks tags = SortedTags tags.
Proof.
  intros Hks. rewrite SortedTags_join, SortedTags_range_join by done.
  unfold KeysOfMap. by rewrite (sort_Strings_unique ks (keys_of tags)).
Qed.

(** A separator splits a string in one way. *)
Lemma str_sep_inj c s1 s2 t1 t2 :
  str_free c s1 = true -> str_free c s2 = true ->
  s1 +:+ String c t1 = s2 +:+ String c t2 -> s1 = s2 /\ t1 = t2.
Proof.
  intros H1 H2 E.
  pose proof (find_byte_app c s1 t1 H1) as F1. rewrite E, (find_byte_app c s2 t2 H2) in F1.
  injection F1 as F1.
  assert (s1 = s2) as ->.
  { rewrite <- (str_take_app s1 (String c t1)), E, <- F1. apply str_take_app. }
  split; [done|]. apply (inj (String.append s2)) in E. by injection E.
Qed.

Lemma str_sep_absurd c s1 s2 t :
  str_free c s1 = true -> s1 = s2 +:+ String c t -> False.
Proof. intros H ->. rewrite str_free_app in H. unfold str_free in H. simpl in H.
  by rewrite Ascii.eqb_refl, andb_false_r in H. Qed.

Lemma size_zero_empty (tags : tagmap) : (size tags =? 0)%nat = true <-> tags = ∅.
Proof. by rewrite Nat.eqb_eq, map_size_empty_iff. Qed.

Lemma PK_Counter endpoint metric tags :
  PK endpoint metric tags = PK2 endpoint (Counter metric tags).
Proof. unfold PK, PK2, Counter. by destruct (size tags =? 0)%nat. Qed.

Lemma Md5_shape raw :
  String.length (Md5 raw) = 32%nat /\ str_forall is_hex (Md5 raw) = true.
Proof. unfold Md5. rewrite hex_encode_length, md5_Sum_length, hex_encode_is_hex. done. Qed.

Lemma Md5_free c raw : is_hex c = false -> str_free c (Md5 raw) = true.
Proof.
  intros Hc. eapply str_forall_mono; [|apply Md5_shape].
  intros d Hd. simpl. destruct (Ascii.eqb_spec c d); [congruence | done].
Qed.

Lemma SortedTags_inj tags tags' :
  wf_tags tags -> wf_tags tags' -> SortedTags tags = SortedTags tags' -> tags = tags'.
Proof.
  intros H H' E. rewrite <- (DictedTagstring_SortedTags tags H), E.
  by apply DictedTagstring_SortedTags.
Qed.

(** * Properties *)

(** The tag text of a series is its pairs [key=value] in ascending key order
    joined by commas: it depends on the map alone, not on the random order in
    which Go ranges over it. *)
Theorem SortedTags_deterministic (tags : tagmap) (ks : list string) :
  range_order tags ks ->
  SortedTags_range ks tags = strings_Join (map (tag_pair tags) (KeysOfMap tags)) "," /\
  Sorted String.le (KeysOfMap tags) /\
  (forall k, k ∈ KeysOfMap tags <-> is_Some (tags !! k)).
Proof.
  intros Hks. split_and!.
  - by rewrite SortedTags_range_unique, SortedTags_join.
  - apply Sorted_merge_sort, _.
  - apply KeysOfMap_elem.
Qed.

Lemma SortedTags_deterministic_witness :
  SortedTags_range ["b"; "a"] {["a" := "1"; "b" := "2"]} = "a=1,b=2".
Proof.
  destruct (SortedTags_deterministic {["a" := "1"; "b" := "2"]} ["b"; "a"]) as [-> _].
  - unfold range_order. vm_compute. apply Permutation_refl || apply perm_swap.
  - vm_compute. reflexivity.
Defined.

(** Reading back the printed tags gives the tags: both parsers of tag strings
    ([DictedTagstring], which transfer applies to what agents push, and
    [SplitTagsString], which graph applies to deletions) invert [SortedTags] when
    no key holds a comma, an equals sign or a space and no value a comma or a
    space. *)
Theorem tags_roundtrip (tags : tagmap) :
  wf_tags tags ->
  DictedTagstring (SortedTags tags) = tags /\ SplitTagsString (SortedTags tags) = (None, tags).
Proof.
  split; [by apply DictedTagstring_SortedTags | by apply SplitTagsString_SortedTags].
Qed.

Lemma tags_roundtrip_witness :
  DictedTagstring (SortedTags {["iface" := "eth0"; "a" := "x=y"]}) = {["iface" := "eth0"; "a" := "x=y"]}.
Proof.
  apply tags_roundtrip. apply (bool_decide_unpack _). vm_compute. exact I.
Defined.

(** Two series with the same primary key are the same series: [PK] is injective
    on endpoints and metrics without a slash and printable tags. *)
Theorem PK_injective e m tags e' m' tags' :
  str_free "/" e = true -> str_free "/" m = true -> wf_tags tags ->
  str_free "/" e' = true -> str_free "/" m' = true -> wf_tags tags' ->
  PK e m tags = PK e' m' tags' -> e = e' /\ m = m' /\ tags = tags'.
Proof.
  intros He Hm Ht He' Hm' Ht'. rewrite !PK_Counter. unfold PK2.
  intros [-> Hc]%str_sep_inj; [|done..]. split; [done|]. unfold Counter in Hc.
  destruct (size tags =? 0)%nat eqn:E, (size tags' =? 0)%nat eqn:E'.
  - apply size_zero_empty in E as ->, E' as ->. done.
  - by destruct (str_sep_absurd "/" m m' (SortedTags tags')).
  - by destruct (str_sep_absurd "/" m' m (SortedTags tags)).
  - apply str_sep_inj in Hc as [-> Hc]; [|done..]. split; [done|]. by apply SortedTags_inj.
Qed.

Lemma PK_injective_witness :
  PK "host" "cpu.idle" {["k" := "v"; "a" := "b"]} = "host/cpu.idle/a=b,k=v" /\
  ({["k" := "v"; "a" := "b"]} : tagmap) = <["a" := "b"]> {["k" := "v"]}.
Proof.
  split; [vm_compute; reflexivity|].
  destruct (PK_injective "host" "cpu.idle" {["k" := "v"; "a" := "b"]} "host" "cpu.idle" (<["a" := "b"]> {["k" := "v"]}))
    as (_ & _ & E); [reflexivity | reflexivity | | reflexivity | reflexivity | | vm_compute; reflexivity | exact E];
    apply (bool_decide_unpack _); vm_compute; exact I.
Defined.

(** Within one series, [UUID] tells every change of data source type or step
    apart, which is what the index relies on to detect re-declared counters. *)
Theorem UUID_discriminates e m tags d s d' s' :
  str_free "/" d = true -> str_free "/" d' = true ->
  UUID e m tags d s = UUID e m tags d' s' -> d = d' /\ s = s'.
Proof.
  intros Hd Hd' E.
  assert (d +:+ String "/" (strconv_Itoa s) = d' +:+ String "/" (strconv_Itoa s')) as E'.
  { unfold UUID in E. destruct (size tags =? 0)%nat;
      repeat (apply (inj (String.append _)) in E || injection E as E); done. }
  apply str_sep_inj in E' as [-> E']; [|done..]. split; [done|]. by apply (inj strconv_Itoa).
Qed.

Lemma UUID_discriminates_witness :
  UUID "h" "m" ∅ "GAUGE" 60 = "h/m/GAUGE/60" /\ "GAUGE" = "GAUGE" /\ 60 = 60.
Proof.
  split; [vm_compute; reflexivity|].
  apply (UUID_discriminates "h" "m" ∅ "GAUGE" 60 "GAUGE" 60); reflexivity.
Defined.
