(* ===== verification/Proc.v ===== *)
(** common/proc: the counters that a service keeps of what it does. *)
From Stdlib Require Import ZArith.
From stdpp Require Import base list gmap strings numbers.
From S2P Require Import Prelude GoString Utils.

Local Open Scope Z_scope.

Definition DefaultOtherMaxSize : Z := 100.
Definition DefaultSCounterQpsPeriod : Z := 1.

Section Counters.
(** The values of the field [Other], and [formatTs]: the local time as text. *)
Context {V : Type} (formatTs : Z -> string).

Record SCounterBase := mkSCounterBase { Base_Name : string; Base_Cnt : Z; Base_Time : string; Base_ts : Z; Base_Other : gmap string V }.
Definition NewSCounterBase (name : string) (now : Z) : SCounterBase := mkSCounterBase name 0 (formatTs now) now ∅.
Definition SCounterBase_Get (this : SCounterBase) : SCounterBase := this.
Definition SCounterBase_SetCnt (cnt now : Z) (this : SCounterBase) : SCounterBase := mkSCounterBase (Base_Name this) cnt (formatTs now) now (Base_Other this).
Definition SCounterBase_Set : Z -> Z -> SCounterBase -> SCounterBase := SCounterBase_SetCnt.
Definition put_other (key : string) (value : V) (other : gmap string V) : gmap string V * bool :=
  match other !! key with
  | Some _ => (<[key := value]> other, true)
  | None => if Z.of_nat (size other) <? DefaultOtherMaxSize then (<[key := value]> other, true) else (other, false)
  end.
Definition SCounterBase_PutOther (key : string) (value : V) (this : SCounterBase) : SCounterBase * bool :=
  let '(other, ret) := put_other key value (Base_Other this) in
  (mkSCounterBase (Base_Name this) (Base_Cnt this) (Base_Time this) (Base_ts this) other, ret).

Record SCounterQps := mkSCounterQps { Name : string; Cnt : Z; Qps : Z; Time : string; ts : Z; lastTs : Z; lastCnt : Z; Other : gmap string V }.
Definition NewSCounterQps (name : string) (now : Z) : SCounterQps := mkSCounterQps name 0 0 (formatTs now) now now 0 ∅.
Definition incrByDirty (incr now : Z) (this : SCounterQps) : SCounterQps :=
  let cnt := i64 (Cnt this + incr) in
  let passed := i64 (now - lastTs this) in
  if DefaultSCounterQpsPeriod <? passed
  then mkSCounterQps (Name this) cnt (Z.quot (i64 (cnt - lastCnt this)) passed) (formatTs now) now now cnt (Other this)
  else mkSCounterQps (Name this) cnt (Qps this) (formatTs now) now (lastTs this) (lastCnt this) (Other this).
Definition SCounterQps_IncrBy : Z -> Z -> SCounterQps -> SCounterQps := incrByDirty.
Definition SCounterQps_Incr : Z -> SCounterQps -> SCounterQps := SCounterQps_IncrBy 1.
(** Under the lock for reading. *)
Definition SCounterQps_Get (now : Z) (this : SCounterQps) : SCounterQps := incrByDirty 0 now this.
Definition SCounterQps_PutOther (key : string) (value : V) (this : SCounterQps) : SCounterQps * bool :=
  let '(other, ret) := put_other key value (Other this) in
  (mkSCounterQps (Name this) (Cnt this) (Qps this) (Time this) (ts this) (lastTs this) (lastCnt this) other, ret).

(** * What the counters show *)

(** What is done to a counter, and when. *)
Inductive counter_op := Add (now incr : Z) | Put (key : string) (value : V).
Definition counter_step (c : SCounterQps) (op : counter_op) : SCounterQps :=
  match op with Add now incr => SCounterQps_IncrBy incr now c | Put key value => fst (SCounterQps_PutOther key value c) end.
Definition added (op : counter_op) : Z := match op with Add _ incr => incr | Put _ _ => 0 end.
Definition total (ops : list counter_op) : Z := foldr Z.add 0 (map added ops).
(** Times after 1970 that do not go back, increments not below zero, a total that is a count. *)
Fixpoint in_time (t0 : Z) (ops : list counter_op) : Prop :=
  match ops with
  | [] => True
  | Add now incr :: ops => t0 <= now < 2 ^ 62 /\ 0 <= incr /\ in_time now ops
  | Put _ _ :: ops => in_time t0 ops
  end.

Lemma total_app ops ops' : total (ops ++ ops') = total ops + total ops'.
Proof. unfold total. rewrite map_app. induction (map added ops) as [|x l IH]; [done|]. cbn. lia. Qed.
Lemma put_other_size key value other : Z.of_nat (size other) <= DefaultOtherMaxSize -> Z.of_nat (size (fst (put_other key value other))) <= DefaultOtherMaxSize.
Proof.
  intros Hs. unfold put_other. destruct (other !! key) as [v|] eqn:E; [cbn; by rewrite map_size_insert_Some|].
  destruct (Z.ltb_spec (Z.of_nat (size other)) DefaultOtherMaxSize); cbn; [rewrite map_size_insert_None by done; lia|done].
Qed.

(** The state after a run: the count is the total, the rate was computed at most a second
    before the last change and is not above the total, and the other values are bounded. *)
Record counter_ok (ops : list counter_op) (c : SCounterQps) : Prop := {
  co_cnt : Cnt c = total ops;
  co_last : 0 <= lastCnt c <= Cnt c;
  co_times : 0 <= lastTs c <= ts c /\ ts c < 2 ^ 62;
  co_fresh : ts c - lastTs c <= DefaultSCounterQpsPeriod;
  co_qps : 0 <= Qps c <= Cnt c;
  co_other : Z.of_nat (size (Other c)) <= DefaultOtherMaxSize }.

Lemma qps_add_ok ops c now incr : counter_ok ops c -> ts c <= now < 2 ^ 62 -> 0 <= incr -> total ops + incr < 2 ^ 63 ->
  counter_ok (ops ++ [Add now incr]) (incrByDirty incr now c) /\ ts (incrByDirty incr now c) = now.
Proof.
  intros [E1 E2 E3 E4 E5 E6] Ht Hi Hm. unfold incrByDirty. rewrite (i64_id (Cnt c + incr)), (i64_id (now - lastTs c)) by (unfold is_int64, int64_min, int64_max; lia).
  assert (Etot : total (ops ++ [Add now incr]) = total ops + incr) by (rewrite total_app; cbn; lia).
  destruct (Z.ltb_spec DefaultSCounterQpsPeriod (now - lastTs c)) as [Hlt|Hge]; split; try done; split; cbn; rewrite ?Etot; unfold DefaultSCounterQpsPeriod in *; try lia.
  rewrite i64_id by (unfold is_int64, int64_min, int64_max; lia). split; [apply Z.quot_pos; lia|]. rewrite Z.quot_div_nonneg by lia. apply Z.div_le_upper_bound; [lia|]. nia.
Qed.
Lemma qps_put_ok ops c key value : counter_ok ops c -> counter_ok (ops ++ [Put key value]) (fst (SCounterQps_PutOther key value c)).
Proof.
  intros [E1 E2 E3 E4 E5 E6]. unfold SCounterQps_PutOther. pose proof (put_other_size key value (Other c) E6) as Hs. destruct (put_other key value (Other c)) as [other ret].
  split; cbn in *; try done. rewrite total_app. cbn. lia.
Qed.
Lemma qps_run_ok ops : forall done c, counter_ok done c -> in_time (ts c) ops -> total (done ++ ops) < 2 ^ 63 -> counter_ok (done ++ ops) (fold_left counter_step ops c).
Proof.
  induction ops as [|op ops IH]; intros done c Hc Ht Hm; [by rewrite app_nil_r|]. cbn [fold_left]. rewrite (cons_middle op done ops), app_assoc in *.
  assert (Hpos : 0 <= total ops).
  { clear -Ht. destruct op as [now incr|key value]; cbn [in_time] in Ht; [destruct Ht as (_ & _ & Ht)|]; revert Ht; [generalize now|generalize (ts c)]; induction ops as [|[n i|k v] ops IH]; intros t Ht;
      cbn in Ht; try done; unfold total in *; cbn; [destruct Ht as (_ & ? & Ht)| |destruct Ht as (_ & ? & Ht)|]; specialize (IH _ Ht); lia. }
  destruct op as [now incr|key value]; cbn [in_time] in Ht.
  - destruct Ht as (H1 & H2 & H3). rewrite !total_app in Hm. cbn in Hm. destruct (qps_add_ok done c now incr Hc) as [Hok Et]; [lia|done|lia|]. apply IH; [done| |rewrite !total_app; cbn; lia].
    cbn [counter_step]. unfold SCounterQps_IncrBy. by rewrite Et.
  - apply IH; [by apply qps_put_ok| |done]. cbn [counter_step]. unfold SCounterQps_PutOther. by destruct (put_other _ _ _).
Qed.
(** A counter that is only added to shows the total. *)
Theorem counter_total name t0 ops : 0 <= t0 < 2 ^ 62 -> in_time t0 ops -> total ops < 2 ^ 63 ->
  counter_ok ops (fold_left counter_step ops (NewSCounterQps name t0)).
Proof. intros H0 Ht Hm. apply (qps_run_ok ops []); [|done|done]. split; cbn; unfold DefaultSCounterQpsPeriod, DefaultOtherMaxSize; rewrite ?map_size_empty; lia. Qed.
End Counters.

(** 10 requests in the second second and 20 two seconds later: 10 in a second. *)
Example qps_ten : Qps (SCounterQps_IncrBy (V := Z) (fun _ => "") 20 104 (SCounterQps_IncrBy (fun _ => "") 10 102 (NewSCounterQps (fun _ => "") "recv" 100))) = 10.
Proof. by vm_compute. Qed.
