(* ===== verification/Model.v ===== *)
(** Package common/model: the records the services exchange and their methods. *)
From Stdlib Require Import Ascii ZArith.
From stdpp Require Import base list gmap strings numbers.
From S2P Require Import Prelude GoString GoFloat Utils.

Local Open Scope Z_scope.

(** ** template.go, strategy.go, expression.go *)

Record Template := mkTemplate {
  Template_Id : Z;
  Template_Name : string;
  Template_ParentId : Z;
  Template_ActionId : Z;
  Template_Creator : string }.

Record Strategy := mkStrategy {
  Strategy_Id : Z;
  Strategy_Metric : string;
  Strategy_Tags : tagmap;
  Strategy_Func : string;
  Strategy_Operator : string;
  Strategy_RightValue : f64;
  Strategy_MaxStep : Z;
  Strategy_Priority : Z;
  Strategy_Note : string;
  Strategy_Tpl : option Template }.

Record HostStrategy := mkHostStrategy {
  HostStrategy_Hostname : string;
  HostStrategy_Strategies : list Strategy }.

Record Expression := mkExpression {
  Expression_Id : Z;
  Expression_Metric : string;
  Expression_Tags : tagmap;
  Expression_Func : string;
  Expression_Operator : string;
  Expression_RightValue : f64;
  Expression_MaxStep : Z;
  Expression_Priority : Z;
  Expression_Note : string;
  Expression_ActionId : Z }.

(** ** judge.go *)

Record JudgeItem := mkJudgeItem {
  JudgeItem_Endpoint : string;
  JudgeItem_Metric : string;
  JudgeItem_Value : f64;
  JudgeItem_Timestamp : Z;
  JudgeItem_JudgeType : string;
  JudgeItem_Tags : tagmap }.

Definition JudgeItem_PrimaryKey (this : JudgeItem) : string :=
  Md5 (PK (JudgeItem_Endpoint this) (JudgeItem_Metric this) (JudgeItem_Tags this)).

Record HistoryData := mkHistoryData {
  HistoryData_Timestamp : Z;
  HistoryData_Value : f64 }.

(** ** event.go *)

Record Event := mkEvent {
  Event_Id : string;
  Event_Strategy : option Strategy;
  Event_Expression : option Expression;
  Event_Status : string;
  Event_Endpoint : string;
  Event_LeftValue : f64;
  Event_CurrentStep : Z;
  Event_EventTime : Z;
  Event_PushedTags : tagmap }.

(** The assignments [event.Status = s; event.CurrentStep = n]. *)
Definition Event_setStatus (s : string) (e : Event) : Event :=
  mkEvent (Event_Id e) (Event_Strategy e) (Event_Expression e) s (Event_Endpoint e)
    (Event_LeftValue e) (Event_CurrentStep e) (Event_EventTime e) (Event_PushedTags e).
Definition Event_setCurrentStep (n : Z) (e : Event) : Event :=
  mkEvent (Event_Id e) (Event_Strategy e) (Event_Expression e) (Event_Status e) (Event_Endpoint e)
    (Event_LeftValue e) n (Event_EventTime e) (Event_PushedTags e).

Definition Event_ExpressionId (this : Event) : Z :=
  match Event_Expression this with Some x => Expression_Id x | None => 0 end.

Definition Event_StrategyId (this : Event) : Z :=
  match Event_Strategy this with Some s => Strategy_Id s | None => 0 end.

(** [this.Strategy.Tpl.Id] dereferences the template without a nil check. *)
Definition Event_TplId (this : Event) : result Z :=
  match Event_Strategy this with
  | Some s => match Strategy_Tpl s with
              | Some t => Ok (Template_Id t)
              | None => Panic NilDereference
              end
  | None => Ok 0
  end.

Definition Event_Tpl (this : Event) : option Template :=
  match Event_Strategy this with Some s => Strategy_Tpl s | None => None end.

Definition Event_ActionId (this : Event) : result Z :=
  match Event_Expression this with
  | Some x => Ok (Expression_ActionId x)
  | None => match Event_Strategy this with
            | Some s => match Strategy_Tpl s with
                        | Some t => Ok (Template_ActionId t)
                        | None => Panic NilDereference
                        end
            | None => Panic NilDereference
            end
  end.

(** The accessors that read the strategy, else the expression. *)
Definition Event_either {A : Type} (fs : Strategy -> A) (fx : Expression -> A) (this : Event) : result A :=
  match Event_Strategy this with
  | Some s => Ok (fs s)
  | None => match Event_Expression this with
            | Some x => Ok (fx x)
            | None => Panic NilDereference
            end
  end.

Definition Event_Priority : Event -> result Z := Event_either Strategy_Priority Expression_Priority.
Definition Event_Note : Event -> result string := Event_either Strategy_Note Expression_Note.
Definition Event_Metric : Event -> result string := Event_either Strategy_Metric Expression_Metric.
Definition Event_RightValue : Event -> result f64 := Event_either Strategy_RightValue Expression_RightValue.
Definition Event_Operator : Event -> result string := Event_either Strategy_Operator Expression_Operator.
Definition Event_Func : Event -> result string := Event_either Strategy_Func Expression_Func.
Definition Event_MaxStep : Event -> result Z := Event_either Strategy_MaxStep Expression_MaxStep.

Definition Event_Counter (this : Event) : result string :=
  let! metric := Event_Metric this in
  Ok (Event_Endpoint this +:+ "/" +:+ metric +:+ " " +:+ SortedTags (Event_PushedTags this)).

(** ** graph.go *)

Record GraphItem := mkGraphItem {
  GraphItem_Endpoint : string;
  GraphItem_Metric : string;
  GraphItem_Tags : tagmap;
  GraphItem_Value : f64;
  GraphItem_Timestamp : Z;
  GraphItem_DsType : string;
  GraphItem_Step : Z;
  GraphItem_Heartbeat : Z;
  GraphItem_Min : string;
  GraphItem_Max : string }.

Definition GraphItem_PrimaryKey (this : GraphItem) : string :=
  PK (GraphItem_Endpoint this) (GraphItem_Metric this) (GraphItem_Tags this).
Definition GraphItem_Checksum (t : GraphItem) : string :=
  Checksum (GraphItem_Endpoint t) (GraphItem_Metric t) (GraphItem_Tags t).
Definition GraphItem_UUID (this : GraphItem) : string :=
  UUID (GraphItem_Endpoint this) (GraphItem_Metric this) (GraphItem_Tags this)
    (GraphItem_DsType this) (GraphItem_Step this).

Record GraphDeleteParam := mkGraphDeleteParam {
  GraphDeleteParam_Endpoint : string;
  GraphDeleteParam_Metric : string;
  GraphDeleteParam_Step : Z;
  GraphDeleteParam_DsType : string;
  GraphDeleteParam_Tags : string }.

Record GraphQueryParam := mkGraphQueryParam {
  GraphQueryParam_Start : Z;
  GraphQueryParam_End : Z;
  GraphQueryParam_ConsolFun : string;
  GraphQueryParam_Endpoint : string;
  GraphQueryParam_Counter : string;
  GraphQueryParam_Step : Z }.

Record RRDData := mkRRDData {
  RRDData_Timestamp : Z;
  RRDData_Value : f64 }.

Definition NewRRDData (ts : Z) (val : f64) : RRDData := mkRRDData ts val.

(** [JsonFloat.MarshalJSON]: [null] for NaN and the infinities, else [%f]. *)
Definition JsonFloat_MarshalJSON (v : f64) : string :=
  if f64_isNaN v || f64_isInf v then "null" else f64_format 6 v.

Record GraphQueryResponse := mkGraphQueryResponse {
  GraphQueryResponse_Endpoint : string;
  GraphQueryResponse_Counter : string;
  GraphQueryResponse_DsType : string;
  GraphQueryResponse_Step : Z;
  GraphQueryResponse_Values : list RRDData }.

Record GraphInfoResp := mkGraphInfoResp {
  GraphInfoResp_ConsolFun : string;
  GraphInfoResp_Step : Z;
  GraphInfoResp_Filename : string }.

Record GraphLastResp := mkGraphLastResp {
  GraphLastResp_Endpoint : string;
  GraphLastResp_Counter : string;
  GraphLastResp_Value : RRDData }.

(** ** metric.go *)

(** The dynamic types a pushed value can have ([interface{}]). *)
Inductive GoValue :=
  | VString (s : string)
  | VFloat64 (f : f64)
  | VInt64 (i : Z)
  | VInt (i : Z)
  | VUint64 (n : Z)
  | VUint (n : Z)
  | VOther.

Record MetricValue := mkMetricValue {
  MetricValue_Endpoint : string;
  MetricValue_Metric : string;
  MetricValue_Value : GoValue;
  MetricValue_Step : Z;
  MetricValue_Type : string;
  MetricValue_Tags : string;
  MetricValue_Timestamp : Z }.

Record MetaData := mkMetaData {
  MetaData_Metric : string;
  MetaData_Endpoint : string;
  MetaData_Timestamp : Z;
  MetaData_Step : Z;
  MetaData_Value : f64;
  MetaData_CounterType : string;
  MetaData_Tags : tagmap }.

Definition MetaData_PK (t : MetaData) : string :=
  PK (MetaData_Endpoint t) (MetaData_Metric t) (MetaData_Tags t).

Record JsonMetaData := mkJsonMetaData {
  JsonMetaData_Metric : string;
  JsonMetaData_Endpoint : string;
  JsonMetaData_Timestamp : Z;
  JsonMetaData_Step : Z;
  JsonMetaData_Value : GoValue;
  JsonMetaData_CounterType : string;
  JsonMetaData_Tags : string }.

(** ** transfer.go, tsdb.go, influxdb.go, prometheus.go *)

Record TransferResponse := mkTransferResponse {
  TransferResponse_Message : string;
  TransferResponse_Total : Z;
  TransferResponse_Invalid : Z;
  TransferResponse_Latency : Z }.

Record TsdbItem := mkTsdbItem {
  TsdbItem_Metric : string;
  TsdbItem_Tags : tagmap;
  TsdbItem_Value : f64;
  TsdbItem_Timestamp : Z }.

Record InfluxdbItem := mkInfluxdbItem {
  InfluxdbItem_Measurement : string;
  InfluxdbItem_Tags : tagmap;
  InfluxdbItem_Fileds : gmap string f64;
  InfluxdbItem_Timestamp : Z }.

Record P8sItem := mkP8sItem {
  P8sItem_Endpoint : string;
  P8sItem_Metric : string;
  P8sItem_Tags : tagmap;
  P8sItem_Value : f64;
  P8sItem_Timestamp : Z;
  P8sItem_MetricType : string;
  P8sItem_Step : Z }.

(** ** nodata.go *)

Record NodataConfig := mkNodataConfig {
  NodataConfig_Id : Z;
  NodataConfig_Name : string;
  NodataConfig_ObjType : string;
  NodataConfig_Endpoint : string;
  NodataConfig_Metric : string;
  NodataConfig_Tags : tagmap;
  NodataConfig_Type : string;
  NodataConfig_Step : Z;
  NodataConfig_Mock : f64 }.

Definition NewNodataConfig (id : Z) (name objType endpoint metric : string) (tags : tagmap)
    (dstype : string) (step : Z) (mock : f64) : NodataConfig :=
  mkNodataConfig id name objType endpoint metric tags dstype step mock.

#[global] Instance spec_float_eq_dec : EqDecision f64.
Proof. solve_decision. Defined.
#[global] Instance RRDData_eq_dec : EqDecision RRDData.
Proof. solve_decision. Defined.
#[global] Instance Template_eq_dec : EqDecision Template.
Proof. solve_decision. Defined.
#[global] Instance Strategy_eq_dec : EqDecision Strategy.
Proof. solve_decision. Defined.
#[global] Instance Expression_eq_dec : EqDecision Expression.
Proof. solve_decision. Defined.
#[global] Instance JudgeItem_eq_dec : EqDecision JudgeItem.
Proof. solve_decision. Defined.
#[global] Instance HistoryData_eq_dec : EqDecision HistoryData.
Proof. solve_decision. Defined.
#[global] Instance Event_eq_dec : EqDecision Event.
Proof. solve_decision. Defined.
#[global] Instance GraphItem_eq_dec : EqDecision GraphItem.
Proof. solve_decision. Defined.
#[global] Instance MetaData_eq_dec : EqDecision MetaData.
Proof. solve_decision. Defined.
