(* ===== verification/JsonWire.v ===== *)
(** Points on their way over JSON-RPC (net/rpc/jsonrpc with encoding/json), from
    an agent or a transfer to a transfer: what the other side decodes. The request
    is encoded as a whole, so one value without a JSON text fails the whole call. *)
From Stdlib Require Import Ascii ZArith.
From stdpp Require Import base list strings numbers.
From S2P Require Import Prelude GoString GoFloat GoText Model.

Local Open Scope Z_scope.

(** * Text *)

(** An encoding that is no UTF-8: one byte that is read as U+FFFD. *)
Definition bad_chunk (p : string * Z) : bool := (snd p =? 65533) && (String.length (fst p) =? 1)%nat.
Definition utf8_valid (s : string) : bool := forallb (fun p => negb (bad_chunk p)) (chunks s).

(** The bytes of U+FFFD. *)
Definition replacement : string := String "239" (String "191" (String "189" "")).

(** A string after it was encoded and decoded: each invalid byte has become
    U+FFFD. *)
Definition json_text (s : string) : string :=
  unchunk (map (fun p => if bad_chunk p then (replacement, snd p) else p) (chunks s)).

Lemma decode_rune_pos c s : (1 <= fst (decode_rune (String c s)))%nat.
Proof. cbn [decode_rune]. repeat case_match; cbn; lia. Qed.

Lemma str_take_drop n s : str_take n s +:+ str_drop n s = s.
Proof.
  revert s; induction n as [|n IH]; intros s; [done|]. destruct s as [|c s]; [done|].
  cbn [str_take str_drop]. by rewrite str_app_cons, IH.
Qed.

Lemma unchunk_chunks s : unchunk (chunks s) = s.
Proof.
  unfold chunks. enough (forall k, unchunk (chunks_from k s) = str_drop k s) as H by apply (H O).
  induction s as [|c s IH]; intros k; [by destruct k|]. destruct k as [|k]; [|apply IH].
  cbn [chunks_from]. pose proof (decode_rune_pos c s) as Hp. destruct (decode_rune (String c s)) as [n r].
  cbn [fst] in Hp. destruct n as [|n]; [lia|]. unfold unchunk. cbn [foldr fst]. fold (unchunk (chunks_from (S n - 1) s)).
  rewrite IH. cbn [str_take]. rewrite str_app_cons. replace (S n - 1)%nat with n by lia. by rewrite str_take_drop.
Qed.

(** Valid text arrives as it is. *)
Lemma json_text_valid s : utf8_valid s = true -> json_text s = s.
Proof.
  unfold utf8_valid, json_text. rewrite forallb_forall. intros Hv. rewrite <- (unchunk_chunks s) at 2. f_equal.
  rewrite <- (map_id (chunks s)) at 2. apply map_ext_in. intros p Hp. specialize (Hv p Hp).
  by destruct (bad_chunk p).
Qed.

(** * Values and metrics *)

(** Whether a value has a JSON text: a float must be a number. *)
Definition encodable (v : GoValue) : bool :=
  match v with VFloat64 f => f64_isFinite f | _ => true end.

(** A value as it is decoded into an [interface{}]: every number is a float64. *)
Definition wire_value (v : GoValue) : GoValue :=
  match v with
  | VFloat64 f => VFloat64 f
  | VInt64 n | VInt n | VUint64 n | VUint n => VFloat64 (f64_of_Z n)
  | VString s => VString (json_text s)
  | VOther => VOther
  end.
Definition wire_metric (mv : MetricValue) : MetricValue :=
  mkMetricValue (json_text (MetricValue_Endpoint mv)) (json_text (MetricValue_Metric mv)) (wire_value (MetricValue_Value mv))
    (MetricValue_Step mv) (json_text (MetricValue_Type mv)) (json_text (MetricValue_Tags mv)) (MetricValue_Timestamp mv).

(** A batch as it is decoded, or [None] when the request cannot be encoded and
    the call fails. *)
Definition wire_batch (batch : list (option MetricValue)) : option (list (option MetricValue)) :=
  if forallb (fun m => match m with Some mv => encodable (MetricValue_Value mv) | None => true end) batch
  then Some (map (fmap wire_metric) batch) else None.

(** All the text of a metric is UTF-8. *)
Definition text_valid (mv : MetricValue) : bool :=
  utf8_valid (MetricValue_Endpoint mv) && utf8_valid (MetricValue_Metric mv) && utf8_valid (MetricValue_Type mv)
  && utf8_valid (MetricValue_Tags mv).

Lemma wire_metric_valid mv :
  text_valid mv = true ->
  wire_metric mv = mkMetricValue (MetricValue_Endpoint mv) (MetricValue_Metric mv) (wire_value (MetricValue_Value mv))
    (MetricValue_Step mv) (MetricValue_Type mv) (MetricValue_Tags mv) (MetricValue_Timestamp mv).
Proof.
  unfold text_valid, wire_metric. intros [[[He Hm]%andb_true_iff Ht]%andb_true_iff Hg]%andb_true_iff.
  by rewrite !json_text_valid.
Qed.

(** One value that cannot be encoded loses the batch, and nothing else does. *)
Lemma wire_batch_spec (mvs : list MetricValue) :
  wire_batch (map Some mvs) =
    if forallb (fun mv => encodable (MetricValue_Value mv)) mvs then Some (map (fun mv => Some (wire_metric mv)) mvs) else None.
Proof.
  unfold wire_batch. rewrite map_map.
  assert (forallb (fun m => match m with Some mv => encodable (MetricValue_Value mv) | None => true end) (map Some mvs)
    = forallb (fun mv => encodable (MetricValue_Value mv)) mvs) as -> by (induction mvs as [|mv mvs IH]; [done|]; cbn; by rewrite IH).
  done.
Qed.

Example latin1_replaced : json_text ("caf" +:+ String "233" "") = "caf" +:+ replacement.
Proof. vm_compute. reflexivity. Qed.
