(* ===== verification/JudgeList.v ===== *)
(** modules/judge/store/linkedlist.go: the recent points of one series, newest
    at the front. A [container/list.List] is a list of the values it holds,
    front first; the methods run under the list's lock. *)
From Stdlib Require Import Ascii ZArith.
From stdpp Require Import base list gmap strings numbers sorting.
From S2P Require Import Prelude GoString GoFloat Utils Model.

Local Open Scope Z_scope.

Abbreviation SafeLinkedList := (list JudgeItem).

Definition SafeLinkedList_Len (this : SafeLinkedList) : Z := Z.of_nat (length this).
Definition SafeLinkedList_Front (this : SafeLinkedList) : option JudgeItem := head this.
Definition SafeLinkedList_PushFront (this : SafeLinkedList) (v : JudgeItem) : SafeLinkedList := v :: this.
Definition SafeLinkedList_ToSlice (this : SafeLinkedList) : list JudgeItem := this.

(** The raw point of an item, and the rate between two neighbours. *)
Definition gauge_point (it : JudgeItem) : HistoryData :=
  mkHistoryData (JudgeItem_Timestamp it) (JudgeItem_Value it).
Definition rate_point (cur next : JudgeItem) : HistoryData :=
  let diffVal := f64_sub (JudgeItem_Value cur) (JudgeItem_Value next) in
  let diffTs := i64 (JudgeItem_Timestamp cur - JudgeItem_Timestamp next) in
  mkHistoryData (JudgeItem_Timestamp cur) (f64_div diffVal (f64_of_Z diffTs)).

(** The two loops of [HistoryData], [n] iterations from the elements after the
    current one; running off the list dereferences a nil element. *)
Fixpoint gauge_loop (n : nat) (rest : SafeLinkedList) : result (list HistoryData) :=
  match n with
  | O => Ok []
  | S n => match rest with
           | [] => Panic NilDereference
           | next :: rest => let! vs := gauge_loop n rest in Ok (gauge_point next :: vs)
           end
  end.
Fixpoint rate_loop (n : nat) (cur : JudgeItem) (rest : SafeLinkedList) : result (list HistoryData) :=
  match n with
  | O => Ok []
  | S n => match rest with
           | [] => Panic NilDereference
           | next :: rest => let! vs := rate_loop n next rest in Ok (rate_point cur next :: vs)
           end
  end.

Definition SafeLinkedList_HistoryData (this : SafeLinkedList) (limit : Z) : result (list HistoryData * bool) :=
  if limit <? 1 then Ok ([], false)
  else match this with
  | [] => Ok ([], false)
  | firstItem :: rest =>
      let size := SafeLinkedList_Len this in
      let! judgeType := str_head (JudgeItem_JudgeType firstItem) in
      if Ascii.eqb judgeType "G" || Ascii.eqb judgeType "g" then
        let '(limit, isEnough) := if size <? limit then (size, false) else (limit, true) in
        let! vs := gauge_loop (Z.to_nat (limit - 1)) rest in
        Ok (gauge_point firstItem :: vs, isEnough)
      else
        let '(limit, isEnough) := if size <? i64 (limit + 1) then (size - 1, false) else (limit, true) in
        let! vs := rate_loop (Z.to_nat limit) firstItem rest in
        Ok (vs, isEnough)
  end.

(** [this.L.Remove(this.L.Back())], [del] times. *)
Fixpoint remove_backs (del : nat) (l : SafeLinkedList) : result SafeLinkedList :=
  match del with
  | O => Ok l
  | S del => match l with
             | [] => Panic NilDereference
             | _ => remove_backs del (removelast l)
             end
  end.

Definition SafeLinkedList_PushFrontAndMaintain (this : SafeLinkedList) (v : JudgeItem) (maxCount : Z)
    : result (SafeLinkedList * bool) :=
  let sz := SafeLinkedList_Len this in
  let stale := match this with
               | [] => false
               | front :: _ => (JudgeItem_Timestamp v <=? JudgeItem_Timestamp front)
                               || (JudgeItem_Timestamp v <=? 0)
               end in
  if stale then Ok (this, false)
  else
    let L := v :: this in
    let sz := sz + 1 in
    if sz <=? maxCount then Ok (L, true)
    else let! L := remove_backs (Z.to_nat (sz - maxCount)) L in Ok (L, true).

(** * Specification *)

(** The points a judgement over [limit] values reads: the values themselves for
    a gauge, the rates between neighbours for any other type. *)
Definition is_gauge (L : SafeLinkedList) : bool :=
  match L with
  | it :: _ => match JudgeItem_JudgeType it with
               | String c _ => Ascii.eqb c "G" || Ascii.eqb c "g"
               | EmptyString => false
               end
  | [] => false
  end.
Definition points (L : SafeLinkedList) : list HistoryData :=
  if is_gauge L then map gauge_point L else zip_with rate_point L (tail L).

(** Points newest first, strictly decreasing times. *)
Definition descending (L : SafeLinkedList) : Prop :=
  StronglySorted (fun a b => JudgeItem_Timestamp b < JudgeItem_Timestamp a) L.

Definition typed (L : SafeLinkedList) : Prop :=
  Forall (fun it => JudgeItem_JudgeType it <> "") L.

Lemma gauge_loop_take n rest :
  (n <= length rest)%nat -> gauge_loop n rest = Ok (take n (map gauge_point rest)).
Proof.
  revert rest; induction n as [|n IH]; intros [|x rest] H; simpl in *; try done; [lia|].
  rewrite IH by lia. done.
Qed.

Lemma rate_loop_take n cur rest :
  (n <= length rest)%nat -> rate_loop n cur rest = Ok (take n (zip_with rate_point (cur :: rest) rest)).
Proof.
  revert cur rest; induction n as [|n IH]; intros cur [|x rest] H; simpl in *; try done; [lia|].
  rewrite IH by lia. done.
Qed.

Lemma points_length it rest :
  length (points (it :: rest)) = (if is_gauge (it :: rest) then S (length rest) else length rest).
Proof.
  unfold points. destruct (is_gauge _); [by rewrite length_map|].
  cbn [tail]. rewrite length_zip_with. cbn [length]. lia.
Qed.

Lemma str_head_type it rest :
  JudgeItem_JudgeType it <> "" ->
  exists c, str_head (JudgeItem_JudgeType it) = Ok c /\
    is_gauge (it :: rest) = Ascii.eqb c "G" || Ascii.eqb c "g".
Proof. simpl. destruct (JudgeItem_JudgeType it) as [|c s]; [done|]. intros _. by exists c. Qed.

(** [HistoryData] returns the first [limit] points, all of them when there are
    fewer, and reports whether there were enough. *)
Lemma HistoryData_spec L limit :
  typed L -> 1 <= limit < int64_max ->
  SafeLinkedList_HistoryData L limit
  = Ok (take (Z.to_nat limit) (points L), bool_decide (limit <= Z.of_nat (length (points L)))).
Proof.
  intros Ht Hlim. unfold SafeLinkedList_HistoryData.
  rewrite (proj2 (Z.ltb_ge _ _)) by lia.
  destruct L as [|it rest].
  { unfold points. simpl. rewrite take_nil. rewrite bool_decide_false by lia. done. }
  inversion Ht as [|? ? Hit Hrest]; subst.
  destruct (str_head_type it rest Hit) as (c & -> & Hg). cbn [rbind]. rewrite <- Hg.
  pose proof (points_length it rest) as Hlen. unfold points in *. unfold SafeLinkedList_Len.
  destruct (is_gauge (it :: rest)) eqn:E.
  - rewrite Hlen. destruct (Z.ltb_spec (Z.of_nat (length (it :: rest))) limit) as [H|H]; simpl in H.
    + rewrite gauge_loop_take by (simpl; lia). cbn [rbind].
      rewrite bool_decide_false by lia. do 2 f_equal. simpl map.
      rewrite (take_ge (_ :: _)) by (simpl; rewrite length_map; lia).
      f_equal. rewrite take_ge; [done|]. rewrite length_map. simpl. lia.
    + rewrite gauge_loop_take by lia. cbn [rbind]. rewrite bool_decide_true by lia.
      replace (Z.to_nat limit) with (S (Z.to_nat (limit - 1))) by lia. done.
  - rewrite Hlen. rewrite i64_id by (unfold is_int64, int64_min in *; lia).
    destruct (Z.ltb_spec (Z.of_nat (length (it :: rest))) (limit + 1)) as [H|H]; simpl in H.
    + rewrite rate_loop_take by (simpl; lia). cbn [rbind tail].
      rewrite bool_decide_false by lia. do 2 f_equal.
      rewrite !take_ge; [done | ..]; simpl tail in Hlen; rewrite Hlen; simpl; lia.
    + rewrite rate_loop_take by lia. cbn [rbind tail]. by rewrite bool_decide_true by lia.
Qed.

Lemma HistoryData_small L limit : limit < 1 -> SafeLinkedList_HistoryData L limit = Ok ([], false).
Proof. intros H. unfold SafeLinkedList_HistoryData. by rewrite (proj2 (Z.ltb_lt _ _)). Qed.

Lemma removelast_take (L : SafeLinkedList) : removelast L = take (length L - 1) L.
Proof. rewrite removelast_firstn_len. f_equal. lia. Qed.

Lemma remove_backs_take del L :
  (del <= length L)%nat -> remove_backs del L = Ok (take (length L - del) L).
Proof.
  revert L; induction del as [|del IH]; intros L H; simpl.
  - by rewrite Nat.sub_0_r, firstn_all.
  - destruct L as [|x L]; [simpl in H; lia|].
    rewrite removelast_take, IH by (rewrite length_take; simpl in *; lia).
    f_equal. rewrite length_take, take_take. f_equal. simpl. lia.
Qed.

(** The new point is dropped when it is not later than the front, and otherwise
    becomes the front of a list cut to its [maxCount] newest points. *)
Definition accepts (L : SafeLinkedList) (v : JudgeItem) : bool :=
  match L with
  | [] => true
  | front :: _ => (JudgeItem_Timestamp front <? JudgeItem_Timestamp v) && (0 <? JudgeItem_Timestamp v)
  end.

Lemma PushFrontAndMaintain_spec L v maxCount :
  0 <= maxCount ->
  SafeLinkedList_PushFrontAndMaintain L v maxCount
  = Ok (if accepts L v then (take (Z.to_nat maxCount) (v :: L), true) else (L, false)).
Proof.
  intros Hmax. unfold SafeLinkedList_PushFrontAndMaintain, SafeLinkedList_Len.
  replace (match L with [] => false | front :: _ =>
      (JudgeItem_Timestamp v <=? JudgeItem_Timestamp front) || (JudgeItem_Timestamp v <=? 0) end)
    with (negb (accepts L v)).
  2:{ destruct L as [|f L]; simpl; [done|]. rewrite negb_andb. by rewrite !Z.leb_antisym. }
  destruct (accepts L v); [|done]. cbn [negb].
  destruct (Z.leb_spec (Z.of_nat (length L) + 1) maxCount).
  - rewrite take_ge by (simpl; lia). done.
  - rewrite remove_backs_take by (simpl; lia). cbn [rbind]. do 3 f_equal. simpl. lia.
Qed.

Lemma StronglySorted_take {A : Type} (R : relation A) n (l : list A) :
  StronglySorted R l -> StronglySorted R (take n l).
Proof.
  intros H. revert n; induction H as [|x l Hl IH Hx]; intros [|n]; simpl; try constructor.
  - apply IH.
  - by apply Forall_take.
Qed.

Lemma descending_cons L v : descending L -> accepts L v = true -> descending (v :: L).
Proof.
  unfold descending. intros HL Ha. constructor; [done|].
  destruct HL as [|f L HL Hf]; [done|]. simpl in Ha.
  apply andb_true_iff in Ha as [Ha _]. apply Z.ltb_lt in Ha.
  constructor; [done|]. eapply Forall_impl; [exact Hf|]. simpl. lia.
Qed.

Lemma PushFrontAndMaintain_inv L v maxCount L' b :
  0 <= maxCount -> descending L -> typed L -> JudgeItem_JudgeType v <> "" ->
  Z.of_nat (length L) <= maxCount ->
  SafeLinkedList_PushFrontAndMaintain L v maxCount = Ok (L', b) ->
  descending L' /\ typed L' /\ Z.of_nat (length L') <= maxCount.
Proof.
  intros Hmax HL Ht Hv Hlen. rewrite PushFrontAndMaintain_spec by done. intros [= E].
  destruct (accepts L v) eqn:Ha; injection E as <- <-; [|done]. split_and!.
  - by apply StronglySorted_take, descending_cons.
  - apply Forall_take. by constructor.
  - rewrite length_take. lia.
Qed.

(** A judged list has its new item in front, unless the capacity is 0. *)
Lemma PushFrontAndMaintain_front L v maxCount L' :
  1 <= maxCount -> SafeLinkedList_PushFrontAndMaintain L v maxCount = Ok (L', true) -> head L' = Some v.
Proof.
  intros Hmax. rewrite PushFrontAndMaintain_spec by lia.
  destruct (accepts L v); [|done]. intros [= <-].
  by destruct (Z.to_nat maxCount) eqn:E; [lia|].
Qed.

(** Whatever its limit, the points [HistoryData] returns are no newer than the front. *)
Lemma gauge_loop_bound n t rest vs :
  Forall (fun x => JudgeItem_Timestamp x <= t) rest -> gauge_loop n rest = Ok vs ->
  Forall (fun v => HistoryData_Timestamp v <= t) vs.
Proof.
  revert rest vs; induction n as [|n IH]; intros [|x rest] vs Hr; simpl; intros E; inv_ok; try done.
  apply list.Forall_cons in Hr as [Hx Hr]. constructor; [done|]. by eapply IH.
Qed.

Lemma rate_loop_bound n t cur rest vs :
  Forall (fun x => JudgeItem_Timestamp x <= t) (cur :: rest) -> rate_loop n cur rest = Ok vs ->
  Forall (fun v => HistoryData_Timestamp v <= t) vs /\ length vs = n.
Proof.
  revert cur rest vs; induction n as [|n IH]; intros cur [|x rest] vs Hr; simpl; intros E; inv_ok; try done.
  apply list.Forall_cons in Hr as [Hx Hr].
  destruct (IH x rest a) as [? <-]; [done..|]. split; [by constructor | done].
Qed.

Lemma HistoryData_bound it rest limit vs :
  descending (it :: rest) -> SafeLinkedList_HistoryData (it :: rest) limit = Ok (vs, true) ->
  vs <> [] /\ Forall (fun v => HistoryData_Timestamp v <= JudgeItem_Timestamp it) vs.
Proof.
  intros Hd. unfold SafeLinkedList_HistoryData. destruct (Z.ltb_spec limit 1) as [|Hl]; [done|].
  assert (Forall (fun x => JudgeItem_Timestamp x <= JudgeItem_Timestamp it) rest) as Hr.
  { inversion Hd; subst. eapply Forall_impl; [done|]. simpl. lia. }
  intros E. inv_ok. destruct (_ || _).
  - destruct (_ <? _); inv_ok; [done|]. split; [done|]. constructor; [done|]. by eapply gauge_loop_bound.
  - destruct (_ <? _); inv_ok; [done|]. destruct (rate_loop_bound (Z.to_nat limit) (JudgeItem_Timestamp it) it rest vs) as [? Hlen];
      [by constructor | done |]. split; [|done]. intros ->. simpl in Hlen. lia.
Qed.

(** ** The unbounded log a list is a window on *)

(** A series that keeps every accepted point. *)
Definition log_push (log : list JudgeItem) (v : JudgeItem) : list JudgeItem :=
  if accepts log v then v :: log else log.

(** One push, the verdict dropped. *)
Definition push (maxCount : Z) (L : SafeLinkedList) (v : JudgeItem) : result SafeLinkedList :=
  let! (L', _) := SafeLinkedList_PushFrontAndMaintain L v maxCount in Ok L'.

Lemma accepts_take n log v : (1 <= n)%nat -> accepts (take n log) v = accepts log v.
Proof. by destruct n, log; simpl; [lia..| |]. Qed.

Lemma push_window maxCount log v :
  1 <= maxCount ->
  push maxCount (take (Z.to_nat maxCount) log) v = Ok (take (Z.to_nat maxCount) (log_push log v)).
Proof.
  intros Hmax. unfold push, log_push. rewrite PushFrontAndMaintain_spec, accepts_take by lia.
  destruct (accepts log v); [|done]. cbn [rbind].
  destruct (Z.to_nat maxCount) as [|n] eqn:E; [lia|]. simpl. rewrite take_take. do 3 f_equal. lia.
Qed.

Lemma log_push_descending log v : descending log -> descending (log_push log v).
Proof. unfold log_push. destruct (accepts log v) eqn:E; [|done]. intros. by apply descending_cons. Qed.

(** C32. [SafeLinkedList.HistoryData] on every branch, for items that have a type
    and a limit below the largest int64: without a positive limit it returns nothing and reports too few points; otherwise it returns, without
    a nil dereference or an index panic, the newest [limit] points of the series
    (the values themselves for a gauge, the rates between neighbours for any
    other type), or all of them when there are fewer, and [isEnough] says
    whether there were [limit] of them. *)
Theorem HistoryData_correct L limit :
  typed L -> limit < int64_max ->
  SafeLinkedList_HistoryData L limit
  = Ok (take (Z.to_nat limit) (points L), bool_decide (1 <= limit <= Z.of_nat (length (points L)))).
Proof.
  intros HL Hlim. destruct (decide (limit < 1)) as [Hs|Hs].
  - rewrite HistoryData_small by done. rewrite bool_decide_false by lia.
    by replace (Z.to_nat limit) with O by lia.
  - rewrite HistoryData_spec by (done || lia). do 2 f_equal. apply bool_decide_ext. lia.
Qed.

Definition sample_item (ts : Z) (v : Z) (ty : string) : JudgeItem :=
  mkJudgeItem "host" "net.in" (f64_of_Z v) ts ty ∅.

Lemma HistoryData_correct_witness :
  SafeLinkedList_HistoryData
    [sample_item 180 90 "COUNTER"; sample_item 120 60 "COUNTER"; sample_item 60 30 "COUNTER"] 2
  = Ok ([mkHistoryData 180 (f64_lit 5 (-1)); mkHistoryData 120 (f64_lit 5 (-1))], true).
Proof.
  rewrite HistoryData_correct; [vm_compute; reflexivity | by repeat constructor | done].
Defined.

(** Pushing any sequence of items, duplicates and late arrivals included,
    on a list that starts with one item keeps exactly the [maxCount] newest
    points of the log of accepted items; that log is strictly decreasing in
    time, so a point is never stored twice. *)
Theorem pushes_window maxCount v0 vs :
  1 <= maxCount ->
  rfold (push maxCount) [v0] vs = Ok (take (Z.to_nat maxCount) (fold_left log_push vs [v0])) /\
  descending (fold_left log_push vs [v0]).
Proof.
  intros Hmax. assert (descending [v0]) as Hd by repeat constructor.
  assert (take (Z.to_nat maxCount) [v0] = [v0]) as E by (apply take_ge; simpl; lia).
  rewrite <- E at 1. clear E. revert Hd. generalize [v0] as log. induction vs as [|v vs IH]; intros log Hd; [done|].
  cbn [rfold fold_left]. rewrite push_window by done. cbn [rbind].
  by apply IH, log_push_descending.
Qed.

Lemma pushes_window_witness :
  rfold (push 2) [sample_item 60 1 "GAUGE"]
    [sample_item 120 2 "GAUGE"; sample_item 90 7 "GAUGE"; sample_item 180 3 "GAUGE"]
  = Ok [sample_item 180 3 "GAUGE"; sample_item 120 2 "GAUGE"].
Proof. rewrite (proj1 (pushes_window 2 _ _ ltac:(lia))). vm_compute. reflexivity. Defined.
