(* ===== verification/JudgeFunc.v ===== *)
(** modules/judge/store/func.go: the alarm functions max, min, all, lookup, sum,
    avg, diff, stddev, pdiff, kpdiff and kdiff, their text and their evaluation
    on the recent points of a series. *)
From Stdlib Require Import Ascii ZArith.
From stdpp Require Import base list gmap strings numbers sorting.
From S2P Require Import Prelude GoString GoFloat Utils Model JudgeList.

Local Open Scope Z_scope.

(** The implementations of the interface [Function]. *)
Inductive Function :=
  | MaxFunction (Limit : Z) (Operator : string) (RightValue : f64)
  | MinFunction (Limit : Z) (Operator : string) (RightValue : f64)
  | AllFunction (Limit : Z) (Operator : string) (RightValue : f64)
  | LookupFunction (Num Limit : Z) (Operator : string) (RightValue : f64)
  | SumFunction (Limit : Z) (Operator : string) (RightValue : f64)
  | AvgFunction (Limit : Z) (Operator : string) (RightValue : f64)
  | DiffFunction (Limit : Z) (Operator : string) (RightValue : f64)
  | StdDeviationFunction (Limit : Z) (Operator : string) (RightValue : f64)
  | PDiffFunction (Limit : Z) (Operator : string) (RightValue : f64)
  | KPDiffFunction (Num Limit : Z) (Operator : string) (RightValue : f64)
  | KDiffFunction (Num Limit : Z) (Operator : string) (RightValue : f64).

Definition checkIsTriggered (leftValue : f64) (operator : string) (rightValue : f64) : bool :=
  if bool_decide (operator = "=" \/ operator = "==") then
    f64_lt (f64_abs (f64_sub leftValue rightValue)) (f64_lit 1 (-4))
  else if bool_decide (operator = "!=") then
    f64_gt (f64_abs (f64_sub leftValue rightValue)) (f64_lit 1 (-4))
  else if bool_decide (operator = "<") then f64_lt leftValue rightValue
  else if bool_decide (operator = "<=") then f64_le leftValue rightValue
  else if bool_decide (operator = ">") then f64_gt leftValue rightValue
  else if bool_decide (operator = ">=") then f64_ge leftValue rightValue
  else false.

(** What [Compute] returns: vs, leftValue, isTriggered, isEnough. *)
Definition computed : Type := list HistoryData * f64 * bool * bool.

(** [vs, isEnough = L.HistoryData(n); if !isEnough { return }]. *)
Definition with_history (L : SafeLinkedList) (n : Z)
    (k : list HistoryData -> result computed) : result computed :=
  let! (vs, isEnough) := SafeLinkedList_HistoryData L n in
  if isEnough : bool then k vs else Ok (vs, f64_zero, false, false).

Definition MaxFunction_Compute (Limit : Z) (Operator : string) (RightValue : f64) (L : SafeLinkedList) : result computed :=
  with_history L Limit (fun vs =>
    let! v0 := index vs 0 in
    let! max := for_slice vs 1 Limit (fun max v =>
      Ok (if f64_lt max (HistoryData_Value v) then HistoryData_Value v else max, true)) (HistoryData_Value v0) in
    Ok (vs, max, checkIsTriggered max Operator RightValue, true)).

Definition MinFunction_Compute (Limit : Z) (Operator : string) (RightValue : f64) (L : SafeLinkedList) : result computed :=
  with_history L Limit (fun vs =>
    let! v0 := index vs 0 in
    let! min := for_slice vs 1 Limit (fun min v =>
      Ok (if f64_gt min (HistoryData_Value v) then HistoryData_Value v else min, true)) (HistoryData_Value v0) in
    Ok (vs, min, checkIsTriggered min Operator RightValue, true)).

(** The bodies of the loops: the state to carry on with, and whether to. *)
Definition all_step (o : string) (r : f64) (_ : bool) (v : HistoryData) : result (bool * bool) :=
  let isTriggered := checkIsTriggered (HistoryData_Value v) o r in
  Ok (isTriggered, isTriggered).
Definition lookup_step (Num : Z) (o : string) (r : f64) (st : Z * bool) (v : HistoryData) : result (Z * bool * bool) :=
  if checkIsTriggered (HistoryData_Value v) o r then
    if fst st + 1 =? Num then Ok ((fst st + 1, true), false) else Ok ((fst st + 1, false), true)
  else Ok (st, true).
Definition diff_step (f : f64 -> f64) (o : string) (r : f64) (_ : f64 * bool) (v : HistoryData) : result (f64 * bool * bool) :=
  let leftValue := f (HistoryData_Value v) in
  let isTriggered := checkIsTriggered leftValue o r in
  Ok ((leftValue, isTriggered), negb isTriggered).
Definition pdiff_step (f : f64 -> f64) (o : string) (r : f64) (st : f64 * bool) (v : HistoryData) : result (f64 * bool * bool) :=
  if f64_eq (HistoryData_Value v) f64_zero then Ok (st, true) else diff_step f o r st v.

Definition AllFunction_Compute (Limit : Z) (Operator : string) (RightValue : f64) (L : SafeLinkedList) : result computed :=
  with_history L Limit (fun vs =>
    let! isTriggered := for_slice vs 0 Limit (all_step Operator RightValue) true in
    let! v0 := index vs 0 in
    Ok (vs, HistoryData_Value v0, isTriggered, true)).

Definition LookupFunction_Compute (Num Limit : Z) (Operator : string) (RightValue : f64) (L : SafeLinkedList) : result computed :=
  with_history L Limit (fun vs =>
    let! v0 := index vs 0 in
    let! (n, isTriggered) := for_slice vs 0 Limit (lookup_step Num Operator RightValue) (0, false) in
    Ok (vs, HistoryData_Value v0, isTriggered, true)).

Definition sum_loop (vs : list HistoryData) (Limit : Z) : result f64 :=
  for_slice vs 0 Limit (fun sum v => Ok (f64_add sum (HistoryData_Value v), true)) f64_zero.

Definition SumFunction_Compute (Limit : Z) (Operator : string) (RightValue : f64) (L : SafeLinkedList) : result computed :=
  with_history L Limit (fun vs =>
    let! sum := sum_loop vs Limit in
    Ok (vs, sum, checkIsTriggered sum Operator RightValue, true)).

Definition AvgFunction_Compute (Limit : Z) (Operator : string) (RightValue : f64) (L : SafeLinkedList) : result computed :=
  with_history L Limit (fun vs =>
    let! sum := sum_loop vs Limit in
    let leftValue := f64_div sum (f64_of_Z Limit) in
    Ok (vs, leftValue, checkIsTriggered leftValue Operator RightValue, true)).

(** [if len(vs) == 0 { isEnough = false; return }]. *)
Definition if_some_points (vs : list HistoryData) (k : result computed) : result computed :=
  if bool_decide (vs = []) then Ok (vs, f64_zero, false, false) else k.

Definition DiffFunction_Compute (Limit : Z) (Operator : string) (RightValue : f64) (L : SafeLinkedList) : result computed :=
  with_history L (i64 (Limit + 1)) (fun vs => if_some_points vs (
    let! v0 := index vs 0 in
    let first := HistoryData_Value v0 in
    let! (leftValue, isTriggered) := for_slice vs 1 (i64 (Limit + 1))
      (diff_step (f64_sub first) Operator RightValue) (f64_zero, false) in
    Ok (vs, leftValue, isTriggered, true))).

Definition StdDeviationFunction_Compute (Limit : Z) (Operator : string) (RightValue : f64) (L : SafeLinkedList) : result computed :=
  with_history L Limit (fun vs => if_some_points vs (
    let! v0 := index vs 0 in
    let leftValue := HistoryData_Value v0 in
    let datas := map HistoryData_Value vs in
    let std := ComputeStdDeviation datas in
    let mean := ComputeMean datas in
    let upperBound := f64_add mean (f64_mul RightValue std) in
    let lowerBound := f64_sub mean (f64_mul RightValue std) in
    Ok (vs, leftValue, f64_lt leftValue lowerBound || f64_gt leftValue upperBound, true))).

Definition pdiff_value (first v : f64) : f64 := f64_mul (f64_div (f64_sub first v) v) (f64_of_Z 100).

Definition PDiffFunction_Compute (Limit : Z) (Operator : string) (RightValue : f64) (L : SafeLinkedList) : result computed :=
  with_history L (i64 (Limit + 1)) (fun vs => if_some_points vs (
    let! v0 := index vs 0 in
    let first := HistoryData_Value v0 in
    let! (leftValue, isTriggered) := for_slice vs 1 (i64 (Limit + 1))
      (pdiff_step (pdiff_value first) Operator RightValue) (f64_zero, false) in
    Ok (vs, leftValue, isTriggered, true))).

(** The body of the inner loop of kdiff and kpdiff, on [vs[j]] and [vs[k]]. *)
Definition k_step (diff : f64 -> f64 -> f64) (o : string) (r : f64) (vs : list HistoryData) (k : Z)
    (_ : f64 * bool) (j : Z) : result (f64 * bool * bool) :=
  let! vj := index vs j in
  let! old := index vs k in
  let leftValue := diff (HistoryData_Value vj) (HistoryData_Value old) in
  let isTriggered := checkIsTriggered leftValue o r in
  Ok ((leftValue, isTriggered), isTriggered).

(** The nested loops shared by kdiff and kpdiff: [diff vs[j] vs[Limit+Num-1-i]]
    is the value tested, for every i below Num and j below Limit. Both the break
    and the return leave the outer loop with the values of that moment. *)
Definition k_loops (diff : f64 -> f64 -> f64) (Num Limit : Z) (Operator : string) (RightValue : f64)
    (vs : list HistoryData) : result (f64 * bool) :=
  loop_while (fun (st : f64 * bool) i =>
    let! vi := index vs i in
    if f64_eq (HistoryData_Value vi) f64_zero then Ok ((fst st, false), false)
    else
      let! st' := loop_while (k_step diff Operator RightValue vs (i64 (Limit + Num - 1 - i))) (fst st, false) (seqZ 0 Limit) in
      Ok (st', snd st')) (f64_zero, false) (seqZ 0 Num).

(** The comment in the loop says that each difference is divided by the left
    point, which is the older one; the code divides by [vs[j]], the newer one. *)
Definition kpdiff_value (vj old : f64) : f64 := f64_mul (f64_div (f64_sub vj old) vj) (f64_of_Z 100).

Definition KPDiffFunction_Compute (Num Limit : Z) (Operator : string) (RightValue : f64) (L : SafeLinkedList) : result computed :=
  with_history L (i64 (Limit + Num)) (fun vs => if_some_points vs (
    let! (leftValue, isTriggered) := k_loops kpdiff_value Num Limit Operator RightValue vs in
    Ok (vs, leftValue, isTriggered, true))).

Definition KDiffFunction_Compute (Num Limit : Z) (Operator : string) (RightValue : f64) (L : SafeLinkedList) : result computed :=
  with_history L (i64 (Limit + Num)) (fun vs => if_some_points vs (
    let! (leftValue, isTriggered) := k_loops f64_sub Num Limit Operator RightValue vs in
    Ok (vs, leftValue, isTriggered, true))).

(** Dispatch through the interface. *)
Definition Compute (fn : Function) (L : SafeLinkedList) : result computed :=
  match fn with
  | MaxFunction l o r => MaxFunction_Compute l o r L
  | MinFunction l o r => MinFunction_Compute l o r L
  | AllFunction l o r => AllFunction_Compute l o r L
  | LookupFunction n l o r => LookupFunction_Compute n l o r L
  | SumFunction l o r => SumFunction_Compute l o r L
  | AvgFunction l o r => AvgFunction_Compute l o r L
  | DiffFunction l o r => DiffFunction_Compute l o r L
  | StdDeviationFunction l o r => StdDeviationFunction_Compute l o r L
  | PDiffFunction l o r => PDiffFunction_Compute l o r L
  | KPDiffFunction n l o r => KPDiffFunction_Compute n l o r L
  | KDiffFunction n l o r => KDiffFunction_Compute n l o r L
  end.

(** ** Reading a function *)

Fixpoint atois_loop (a : list string) : option (list Z) :=
  match a with
  | [] => Some []
  | v :: a => match strconv_Atoi v with
              | Some n => match atois_loop a with Some ret => Some (n :: ret) | None => None end
              | None => None
              end
  end.
Definition atois (s : string) : option (list Z) := atois_loop (strings_Split s ",").

(** Its errors: "func can not be null!", the error of [strconv.Atoi] on an
    argument, and "not_supported_method". *)
Inductive ParseError := ErrNullFunc | ErrBadNumber | ErrNotSupportedMethod.

Definition ParseFuncFromString (str operator : string) (rightValue : f64) : result (ParseError + Function) :=
  if bool_decide (str = "") then Ok (inl ErrNullFunc)
  else
    let idx := strings_Index str "#" in
    let! inner := str_slice str (idx + 1) (str_len str - 1) in
    match atois inner with
    | None => Ok (inl ErrBadNumber)
    | Some args =>
        let! name := str_slice str 0 (idx - 1) in
        let one (k : Z -> Function) := let! a0 := index args 0 in Ok (inr (k a0)) in
        let two (k : Z -> Z -> Function) :=
          let! a0 := index args 0 in let! a1 := index args 1 in Ok (inr (k a0 a1)) in
        if bool_decide (name = "max") then one (fun l => MaxFunction l operator rightValue)
        else if bool_decide (name = "min") then one (fun l => MinFunction l operator rightValue)
        else if bool_decide (name = "all") then one (fun l => AllFunction l operator rightValue)
        else if bool_decide (name = "sum") then one (fun l => SumFunction l operator rightValue)
        else if bool_decide (name = "avg") then one (fun l => AvgFunction l operator rightValue)
        else if bool_decide (name = "diff") then one (fun l => DiffFunction l operator rightValue)
        else if bool_decide (name = "pdiff") then one (fun l => PDiffFunction l operator rightValue)
        else if bool_decide (name = "lookup") then two (fun n l => LookupFunction n l operator rightValue)
        else if bool_decide (name = "stddev") then one (fun l => StdDeviationFunction l operator rightValue)
        else if bool_decide (name = "kdiff") then two (fun n l => KDiffFunction n l operator rightValue)
        else if bool_decide (name = "kpdiff") then two (fun n l => KPDiffFunction n l operator rightValue)
        else Ok (inl ErrNotSupportedMethod)
    end.

Example parse_1 : ParseFuncFromString "lookup(#2,3)" ">" f64_zero = Ok (inr (LookupFunction 2 3 ">" f64_zero)).
Proof. vm_compute. reflexivity. Qed.
Example parse_2 : ParseFuncFromString "lookup(#2)" ">" f64_zero = Panic IndexOutOfRange.
Proof. vm_compute. reflexivity. Qed.
Example parse_3 : ParseFuncFromString "#3)" ">" f64_zero = Panic SliceBoundsOutOfRange.
Proof. vm_compute. reflexivity. Qed.

(** * Specification *)

(** The points a function reads. *)
Definition need (fn : Function) : Z :=
  match fn with
  | MaxFunction l _ _ | MinFunction l _ _ | AllFunction l _ _ | LookupFunction _ l _ _
  | SumFunction l _ _ | AvgFunction l _ _ | StdDeviationFunction l _ _ => l
  | DiffFunction l _ _ | PDiffFunction l _ _ => i64 (l + 1)
  | KPDiffFunction n l _ _ | KDiffFunction n l _ _ => i64 (l + n)
  end.

(** When a function holds of the values read, newest first. *)
Definition running_max (v0 : f64) (vals : list f64) : f64 :=
  fold_left (fun max v => if f64_lt max v then v else max) vals v0.
Definition running_min (v0 : f64) (vals : list f64) : f64 :=
  fold_left (fun min v => if f64_gt min v then v else min) vals v0.

Definition k_triggered (diff : f64 -> f64 -> f64) (n l : Z) (o : string) (r : f64) (vals : list f64) : Prop :=
  1 <= n /\ 1 <= l /\
  forall i, (i < Z.to_nat n)%nat ->
    (forall v, vals !! i = Some v -> f64_eq v f64_zero = false) /\
    forall j vj old, (j < Z.to_nat l)%nat -> vals !! j = Some vj ->
      vals !! (Z.to_nat (l + n) - 1 - i)%nat = Some old -> checkIsTriggered (diff vj old) o r = true.

Definition Triggered (fn : Function) (vals : list f64) : Prop :=
  match fn, vals with
  | _, [] => False
  | MaxFunction _ o r, v0 :: rest => checkIsTriggered (running_max v0 rest) o r = true
  | MinFunction _ o r, v0 :: rest => checkIsTriggered (running_min v0 rest) o r = true
  | AllFunction _ o r, _ => Forall (fun v => checkIsTriggered v o r = true) vals
  | LookupFunction n _ o r, _ =>
      1 <= n <= Z.of_nat (length (filter (fun v => checkIsTriggered v o r = true) vals))
  | SumFunction _ o r, _ => checkIsTriggered (f64_sum vals) o r = true
  | AvgFunction l o r, _ => checkIsTriggered (f64_div (f64_sum vals) (f64_of_Z l)) o r = true
  | DiffFunction _ o r, v0 :: rest => Exists (fun v => checkIsTriggered (f64_sub v0 v) o r = true) rest
  | StdDeviationFunction _ _ r, v0 :: _ =>
      let spread := f64_mul r (ComputeStdDeviation vals) in
      f64_lt v0 (f64_sub (ComputeMean vals) spread) = true \/
      f64_lt (f64_add (ComputeMean vals) spread) v0 = true
  | PDiffFunction _ o r, v0 :: rest =>
      Exists (fun v => f64_eq v f64_zero = false /\ checkIsTriggered (pdiff_value v0 v) o r = true) rest
  | KPDiffFunction n l o r, _ => k_triggered kpdiff_value n l o r vals
  | KDiffFunction n l o r, _ => k_triggered f64_sub n l o r vals
  end.

(** * Lemmas on the loops *)

Lemma max_loop_spec vs m :
  loop_while (fun max v => Ok (if f64_lt max (HistoryData_Value v) then HistoryData_Value v else max, true)) m vs
  = Ok (running_max m (map HistoryData_Value vs)).
Proof. revert m; induction vs as [|v vs IH]; intros m; simpl; [done|]. by rewrite IH. Qed.

Lemma min_loop_spec vs m :
  loop_while (fun min v => Ok (if f64_gt min (HistoryData_Value v) then HistoryData_Value v else min, true)) m vs
  = Ok (running_min m (map HistoryData_Value vs)).
Proof. revert m; induction vs as [|v vs IH]; intros m; simpl; [done|]. by rewrite IH. Qed.

Lemma sum_loop_spec vs a :
  loop_while (fun sum v => Ok (f64_add sum (HistoryData_Value v), true)) a vs
  = Ok (f64_sum_from a (map HistoryData_Value vs)).
Proof. revert a; induction vs as [|v vs IH]; intros a; simpl; [done|]. by rewrite IH. Qed.

Lemma all_loop_spec o r vs :
  exists b, loop_while (all_step o r) true vs = Ok b /\
    (b = true <-> Forall (fun v => checkIsTriggered v o r = true) (map HistoryData_Value vs)).
Proof.
  induction vs as [|v vs IH]; [by exists true|].
  cbn [loop_while map]. unfold all_step at 1. setoid_rewrite list.Forall_cons.
  destruct (checkIsTriggered (HistoryData_Value v) o r) eqn:E; cbn [rbind].
  - destruct IH as (b & -> & Hb). exists b. split; [done|]. tauto.
  - exists false. split; [done|]. naive_solver congruence.
Qed.

Lemma lookup_loop_spec num o r vs n :
  0 <= n -> n < num \/ num <= 0 ->
  exists n' b, loop_while (lookup_step num o r) (n, false) vs = Ok (n', b) /\
    (b = true <-> 1 <= num <= n + Z.of_nat (length (filter (fun v => checkIsTriggered v o r = true) (map HistoryData_Value vs)))).
Proof.
  revert n; induction vs as [|v vs IH]; intros n Hn Hnum.
  - exists n, false. split; [done|]. split; [done|]. simpl. lia.
  - cbn [loop_while map]. unfold lookup_step at 1. rewrite filter_cons. cbn [fst].
    destruct (checkIsTriggered (HistoryData_Value v) o r) eqn:E; cbn [rbind].
    + rewrite decide_True by done. cbn [length].
      destruct (Z.eqb_spec (n + 1) num) as [He|Hne]; cbn [rbind].
      * exists (n + 1), true. split; [done|]. split; [lia | done].
      * destruct (IH (n + 1)) as (n' & b & -> & Hb); [lia | lia |].
        exists n', b. split; [done|]. rewrite Hb. lia.
    + rewrite decide_False by congruence. apply IH; [done | done].
Qed.

Lemma diff_loop_spec (f : f64 -> f64) o r vs st :
  snd st = false ->
  exists lv b, loop_while (diff_step f o r) st vs = Ok (lv, b) /\
    (b = true <-> Exists (fun v => checkIsTriggered (f v) o r = true) (map HistoryData_Value vs)).
Proof.
  revert st; induction vs as [|v vs IH]; intros [lv b] Hst.
  - exists lv, b. split; [done|]. simpl in Hst. subst. by rewrite Exists_nil.
  - cbn [loop_while map]. unfold diff_step at 1. setoid_rewrite Exists_cons.
    destruct (checkIsTriggered (f (HistoryData_Value v)) o r) eqn:E; cbn [rbind negb].
    + exists (f (HistoryData_Value v)), true. naive_solver.
    + destruct (IH (f (HistoryData_Value v), false) eq_refl) as (lv' & b' & -> & Hb).
      exists lv', b'. naive_solver congruence.
Qed.

Lemma pdiff_loop_spec (f : f64 -> f64) o r vs st :
  snd st = false ->
  exists lv b, loop_while (pdiff_step f o r) st vs = Ok (lv, b) /\
    (b = true <-> Exists (fun v => f64_eq v f64_zero = false /\ checkIsTriggered (f v) o r = true)
                    (map HistoryData_Value vs)).
Proof.
  revert st; induction vs as [|v vs IH]; intros [lv b] Hst.
  - exists lv, b. split; [done|]. simpl in Hst. subst. by rewrite Exists_nil.
  - cbn [loop_while map]. unfold pdiff_step at 1. setoid_rewrite Exists_cons.
    destruct (f64_eq (HistoryData_Value v) f64_zero) eqn:Ez; cbn [rbind].
    { destruct (IH (lv, b) Hst) as (lv' & b' & -> & Hb). exists lv', b'. naive_solver congruence. }
    unfold diff_step at 1.
    destruct (checkIsTriggered (f (HistoryData_Value v)) o r) eqn:E; cbn [rbind negb].
    + eexists _, true. naive_solver.
    + destruct (IH (f (HistoryData_Value v), false) eq_refl) as (lv' & b' & -> & Hb).
      exists lv', b'. naive_solver congruence.
Qed.

(** A loop that carries on exactly while its last test held. *)
Lemma loop_while_all {A S : Type} (P : A -> Prop) (f : S * bool -> A -> result (S * bool * bool)) l st :
  (forall st a, a ∈ l -> exists s b, f st a = Ok ((s, b), b) /\ (b = true <-> P a)) ->
  l <> [] ->
  exists s b, loop_while f st l = Ok (s, b) /\ (b = true <-> Forall P l).
Proof.
  intros Hf Hne. induction l as [|a l IH] in st, Hf, Hne |- *; [done|]. cbn [loop_while].
  destruct (Hf st a) as (s & b & -> & Hb); [left|]. cbn [rbind].
  setoid_rewrite list.Forall_cons.
  destruct b; [|exists s, false; naive_solver].
  destruct (decide (l = [])) as [->|Hl].
  { exists s, true. split; [done|]. naive_solver. }
  destruct (IH (s, true)) as (s' & b' & -> & Hb'); [intros; apply Hf; by right | done |].
  exists s', b'. split; [done|]. tauto.
Qed.

Section k_loops.
Context (diff : f64 -> f64 -> f64) (o : string) (r : f64) (vs : list HistoryData).

Lemma k_inner_spec (l : Z) (k : nat) old st :
  1 <= l <= Z.of_nat (length vs) -> vs !! k = Some old ->
  exists lv b, loop_while (k_step diff o r vs (Z.of_nat k)) st (seqZ 0 l) = Ok (lv, b) /\
    (b = true <-> Forall (fun j => forall vj, vs !! Z.to_nat j = Some vj ->
      checkIsTriggered (diff (HistoryData_Value vj) (HistoryData_Value old)) o r = true) (seqZ 0 l)).
Proof using Type.
  intros Hl Hk. apply loop_while_all; [|intros E%(f_equal length); rewrite length_seqZ in E; simpl in E; lia].
  intros st' j Hj. apply elem_of_seqZ in Hj.
  destruct (lookup_lt_is_Some_2 vs (Z.to_nat j)) as [vj Hvj]; [lia|].
  replace j with (Z.of_nat (Z.to_nat j)) by lia. unfold k_step.
  rewrite (index_nat _ _ _ Hvj), (index_nat _ _ _ Hk). cbn [rbind]. eexists _, _. split; [done|].
  rewrite Nat2Z.id, Hvj. naive_solver.
Qed.

(** What one iteration of the outer loop establishes. *)
Definition k_row (n l i : Z) : Prop :=
  forall vi, vs !! Z.to_nat i = Some vi ->
    f64_eq (HistoryData_Value vi) f64_zero = false /\
    forall old, vs !! (Z.to_nat (l + n) - 1 - Z.to_nat i)%nat = Some old ->
    Forall (fun j => forall vj, vs !! Z.to_nat j = Some vj ->
      checkIsTriggered (diff (HistoryData_Value vj) (HistoryData_Value old)) o r = true) (seqZ 0 l).

Lemma k_rows_triggered (n l : Z) :
  1 <= n -> 1 <= l -> length vs = Z.to_nat (l + n) ->
  Forall (k_row n l) (seqZ 0 n) <-> k_triggered diff n l o r (map HistoryData_Value vs).
Proof using Type.
  intros Hn Hl Hlen. unfold k_triggered, k_row. rewrite list.Forall_forall. split.
  - intros H. split; [done|]. split; [done|]. intros i Hi.
    assert (Z.of_nat i ∈ seqZ 0 n) as Hin by (apply elem_of_seqZ; lia).
    specialize (H _ Hin). rewrite Nat2Z.id in H. split.
    + intros v. rewrite list_lookup_fmap.
      destruct (vs !! i) as [vi|] eqn:Hvi; simpl; [|done]. intros [= <-]. by destruct (H vi eq_refl).
    + intros j vj old Hj. rewrite !list_lookup_fmap.
      destruct (vs !! j) as [hj|] eqn:Hvj; simpl; [|done]. intros [= <-].
      destruct (vs !! (Z.to_nat (l + n) - 1 - i)%nat) as [ho|] eqn:Hold; simpl; [|done]. intros [= <-].
      destruct (lookup_lt_is_Some_2 vs i) as [vi Hvi]; [lia|].
      destruct (H vi Hvi) as [_ H']. specialize (H' ho eq_refl). rewrite list.Forall_forall in H'.
      apply (H' (Z.of_nat j)); [apply elem_of_seqZ; lia | by rewrite Nat2Z.id].
  - intros (_ & _ & H) i Hi vi Hvi. apply elem_of_seqZ in Hi.
    destruct (H (Z.to_nat i)) as [Hz Hall]; [lia|]. split.
    + apply Hz. by rewrite list_lookup_fmap, Hvi.
    + intros old Hold. apply list.Forall_forall. intros j Hj vj Hvj. apply elem_of_seqZ in Hj.
      apply (Hall (Z.to_nat j)); [lia | by rewrite list_lookup_fmap, Hvj | by rewrite list_lookup_fmap, Hold].
Qed.

Lemma k_loops_rows (n l : Z) :
  1 <= n -> 1 <= l -> is_int64 (l + n) -> length vs = Z.to_nat (l + n) ->
  exists lv b, k_loops diff n l o r vs = Ok (lv, b) /\ (b = true <-> Forall (k_row n l) (seqZ 0 n)).
Proof using Type.
  intros Hn Hl Hln Hlen. unfold k_loops.
  apply loop_while_all; [|intros E%(f_equal length); rewrite length_seqZ in E; simpl in E; lia].
  intros st i Hi. apply elem_of_seqZ in Hi. unfold k_row.
  destruct (lookup_lt_is_Some_2 vs (Z.to_nat i)) as [vi Hvi]; [lia|].
  destruct (lookup_lt_is_Some_2 vs (Z.to_nat (l + n) - 1 - Z.to_nat i)) as [old Hold]; [lia|].
  pose proof (index_nat _ _ _ Hvi) as Ei. rewrite Z2Nat.id in Ei by lia. rewrite Ei. cbn [rbind].
  destruct (f64_eq (HistoryData_Value vi) f64_zero) eqn:Ez.
  { eexists _, false. split; [done|]. split; [done|]. intros H. destruct (H vi Hvi). congruence. }
  rewrite i64_id by (unfold is_int64, int64_min, int64_max in *; lia).
  replace (l + n - 1 - i) with (Z.of_nat (Z.to_nat (l + n) - 1 - Z.to_nat i)) by lia.
  destruct (k_inner_spec l (Z.to_nat (l + n) - 1 - Z.to_nat i) old (fst st, false)) as (lv & b & -> & Hb); [lia | exact Hold |].
  cbn [rbind snd]. exists lv, b. split; [done|]. rewrite Hb. split.
  - intros H vi' E'. rewrite Hvi in E'. injection E' as <-. split; [done|].
    intros old' E'. rewrite Hold in E'. by injection E' as <-.
  - intros H. destruct (H vi Hvi) as [_ H']. by apply H'.
Qed.

Lemma i64_add_pos (n l : Z) :
  is_int64 n -> is_int64 l -> 1 <= n -> 1 <= l -> 1 <= i64 (l + n) -> i64 (l + n) = l + n.
Proof using Type.
  unfold is_int64, int64_min, int64_max, i64. intros Hn Hl Hn1 Hl1 Hs.
  destruct (decide (l + n < 2 ^ 63)); [rewrite Z.mod_small by lia; lia|].
  exfalso. rewrite <- (Z.mod_unique_pos (l + n + 2 ^ 63) (2 ^ 64) 1 (l + n - 2 ^ 63)) in Hs by lia. lia.
Qed.

Lemma k_loops_spec (n l : Z) :
  is_int64 n -> is_int64 l -> 1 <= i64 (l + n) -> length vs = Z.to_nat (i64 (l + n)) ->
  exists lv b, k_loops diff n l o r vs = Ok (lv, b) /\
    (b = true <-> k_triggered diff n l o r (map HistoryData_Value vs)).
Proof using Type.
  intros Hn Hl Hs Hlen.
  destruct (decide (1 <= n)) as [Hn1|Hn1].
  2:{ unfold k_loops, k_triggered. rewrite (seqZ_nil 0 n) by lia.
      exists f64_zero, false. split; [done|]. naive_solver lia. }
  destruct (decide (1 <= l)) as [Hl1|Hl1].
  - pose proof (i64_range (l + n)) as Hr. rewrite i64_add_pos in Hlen, Hr by done.
    destruct (k_loops_rows n l) as (lv & b & E & Hb); [done..|].
    exists lv, b. split; [done|]. by rewrite Hb, k_rows_triggered.
  - unfold k_loops, k_triggered. rewrite (seqZ_cons 0 n) by lia. cbn [loop_while].
    destruct vs as [|v0 vs']; [simpl in Hlen; lia|]. change (index (v0 :: vs') 0) with (Ok v0). cbn [rbind].
    destruct (f64_eq (HistoryData_Value v0) f64_zero); cbn [rbind];
      [eexists _, false; split; [done | naive_solver lia]|].
    rewrite (seqZ_nil 0 l) by lia. cbn [loop_while rbind snd].
    eexists _, false. split; [done|]. naive_solver lia.
Qed.
End k_loops.

Lemma f64_lt_bool_or a b : (a || b = true) <-> a = true \/ b = true.
Proof. by destruct a, b; naive_solver. Qed.

(** The arguments of a function are Go ints. *)
Definition int_args (fn : Function) : Prop :=
  match fn with
  | MaxFunction l _ _ | MinFunction l _ _ | AllFunction l _ _
  | SumFunction l _ _ | AvgFunction l _ _ | StdDeviationFunction l _ _
  | DiffFunction l _ _ | PDiffFunction l _ _ => is_int64 l
  | LookupFunction n l _ _ | KPDiffFunction n l _ _ | KDiffFunction n l _ _ => is_int64 n /\ is_int64 l
  end.

Section compute.
Context (L : SafeLinkedList) (HL : typed L).

Lemma with_history_enough n k :
  1 <= n < int64_max -> n <= Z.of_nat (length (points L)) ->
  exists v0 rest, take (Z.to_nat n) (points L) = v0 :: rest /\ S (length rest) = Z.to_nat n /\
    with_history L n k = k (v0 :: rest).
Proof using HL.
  intros Hn Hlen. unfold with_history. rewrite HistoryData_spec by done.
  cbn [rbind]. rewrite bool_decide_true by done.
  assert (length (take (Z.to_nat n) (points L)) = Z.to_nat n) as E by (rewrite length_take; lia).
  destruct (take (Z.to_nat n) (points L)) as [|v0 rest]; [simpl in E; lia|].
  exists v0, rest. done.
Qed.

Lemma with_history_short n k :
  n < int64_max -> Z.of_nat (length (points L)) < n \/ n < 1 ->
  exists vs, with_history L n k = Ok (vs, f64_zero, false, false).
Proof using HL.
  intros Hn Hlen. unfold with_history. destruct (decide (n < 1)).
  { rewrite HistoryData_small by done. by exists []. }
  rewrite HistoryData_spec by (done || lia). cbn [rbind].
  rewrite bool_decide_false by lia. by eexists.
Qed.

Lemma for_slice_tail {S : Type} v0 rest (n : Z) (f : S -> HistoryData -> result (S * bool)) s :
  Datatypes.S (length rest) = Z.to_nat n -> for_slice (v0 :: rest) 1 n f s = loop_while f s rest.
Proof using Type.
  intros E. replace n with (Z.of_nat (Datatypes.S (length rest))) by lia.
  change 1 with (Z.of_nat 1). rewrite for_slice_spec by (simpl; lia).
  cbn [drop]. rewrite drop_0, take_ge by lia. done.
Qed.

Lemma for_slice_all {S : Type} v0 rest (n : Z) (f : S -> HistoryData -> result (S * bool)) s :
  Datatypes.S (length rest) = Z.to_nat n -> for_slice (v0 :: rest) 0 n f s = loop_while f s (v0 :: rest).
Proof using Type.
  intros E. replace n with (Z.of_nat (Datatypes.S (length rest))) by lia.
  change 0 with (Z.of_nat 0). rewrite for_slice_spec by (simpl; lia).
  by rewrite drop_0, take_ge by (simpl; lia).
Qed.

Lemma Compute_spec fn :
  int_args fn -> 1 <= need fn < int64_max -> need fn <= Z.of_nat (length (points L)) ->
  exists lv b, Compute fn L = Ok (take (Z.to_nat (need fn)) (points L), lv, b, true) /\
    (b = true <-> Triggered fn (map HistoryData_Value (take (Z.to_nat (need fn)) (points L)))).
Proof using HL.
  intros Hi Hn Hlen.
  destruct fn as [l o r|l o r|l o r|n l o r|l o r|l o r|l o r|l o r|l o r|n l o r|n l o r];
    cbn [need int_args Compute] in *.
  all: unfold MaxFunction_Compute, MinFunction_Compute, AllFunction_Compute, LookupFunction_Compute,
    SumFunction_Compute, AvgFunction_Compute, DiffFunction_Compute, StdDeviationFunction_Compute,
    PDiffFunction_Compute, KPDiffFunction_Compute, KDiffFunction_Compute, sum_loop, if_some_points.
  all: match goal with |- context [with_history _ ?n ?k] =>
    destruct (with_history_enough n k Hn Hlen) as (v0 & rest & -> & El & ->) end.
  all: rewrite ?bool_decide_false by done; change (index (v0 :: rest) 0) with (Ok v0); cbn [rbind].
  all: rewrite ?for_slice_tail, ?for_slice_all by done.
  - rewrite max_loop_spec. cbn [rbind]. eexists _, _. split; [done|]. done.
  - rewrite min_loop_spec. cbn [rbind]. eexists _, _. split; [done|]. done.
  - destruct (all_loop_spec o r (v0 :: rest)) as (b & -> & Hb). eexists _, b. done.
  - destruct (lookup_loop_spec n o r (v0 :: rest) 0) as (n' & b & -> & Hb); [lia..|]. eexists _, b. done.
  - rewrite sum_loop_spec. eexists _, _. done.
  - rewrite sum_loop_spec. eexists _, _. done.
  - destruct (diff_loop_spec (f64_sub (HistoryData_Value v0)) o r rest (f64_zero, false) eq_refl)
      as (lv & b & -> & Hb). by exists lv, b.
  - eexists _, _. split; [done|]. simpl Triggered. by rewrite f64_lt_bool_or.
  - destruct (pdiff_loop_spec (pdiff_value (HistoryData_Value v0)) o r rest (f64_zero, false) eq_refl)
      as (lv & b & -> & Hb). by exists lv, b.
  - destruct (k_loops_spec kpdiff_value o r (v0 :: rest) n l) as (lv & b & -> & Hb); [tauto.. | lia | done |].
    by exists lv, b.
  - destruct (k_loops_spec f64_sub o r (v0 :: rest) n l) as (lv & b & -> & Hb); [tauto.. | lia | done |].
    by exists lv, b.
Qed.

Lemma Compute_short fn :
  need fn < int64_max -> Z.of_nat (length (points L)) < need fn \/ need fn < 1 ->
  exists vs, Compute fn L = Ok (vs, f64_zero, false, false).
Proof using HL. intros Hn Hlen. destruct fn; by apply with_history_short. Qed.
End compute.

(** The points every function returns are those of [HistoryData]. *)
Lemma with_history_inv L n k vs lv b :
  (forall vs vs' lv b, k vs = Ok (vs', lv, b, true) -> vs' = vs) ->
  with_history L n k = Ok (vs, lv, b, true) ->
  SafeLinkedList_HistoryData L n = Ok (vs, true).
Proof.
  intros Hk. unfold with_history. destruct (SafeLinkedList_HistoryData L n) as [[vs' []]|]; simpl; try done.
  intros E. by rewrite (Hk _ _ _ _ E).
Qed.

Lemma Compute_history fn L vs lv b :
  Compute fn L = Ok (vs, lv, b, true) -> SafeLinkedList_HistoryData L (need fn) = Ok (vs, true).
Proof.
  destruct fn; cbn [Compute need]; apply with_history_inv; clear; intros vs vs' lv b;
    unfold if_some_points; try case_match; intros E; inv_ok;
    repeat match goal with p : (_ * _)%type |- _ => destruct p end; congruence || (inv_ok; done).
Qed.

(** * The comparison and the extrema *)

Lemma running_max_spec v0 vals :
  Forall (fun v => f64_isNaN v = false) (v0 :: vals) ->
  running_max v0 vals ∈ v0 :: vals /\ Forall (fun v => f64_le v (running_max v0 vals) = true) (v0 :: vals).
Proof.
  revert v0; induction vals as [|v vals IH]; intros v0 Hn; simpl.
  - split; [left|]. constructor; [|done]. apply list.Forall_cons in Hn as [? _]. by apply f64_le_refl.
  - apply list.Forall_cons in Hn as [H0 [Hv Hn]%list.Forall_cons].
    change (running_max v0 (v :: vals)) with (running_max (if f64_lt v0 v then v else v0) vals).
    destruct (f64_lt v0 v) eqn:E.
    + destruct (IH v) as [Hin Hle]; [by constructor|]. split; [by right|]. constructor; [|done].
      eapply f64_le_trans; [by apply f64_lt_le|]. by apply list.Forall_cons in Hle as [? _].
    + destruct (IH v0) as [Hin Hle]; [by constructor|].
      apply list.Forall_cons in Hle as [Hle0 Hle]. split.
      * apply elem_of_cons in Hin as [->|Hin]; [by left | by right; right].
      * constructor; [done|]. constructor; [|done]. apply (f64_le_trans _ v0); [by apply f64_not_lt | done].
Qed.

Lemma running_min_spec v0 vals :
  Forall (fun v => f64_isNaN v = false) (v0 :: vals) ->
  running_min v0 vals ∈ v0 :: vals /\ Forall (fun v => f64_le (running_min v0 vals) v = true) (v0 :: vals).
Proof.
  revert v0; induction vals as [|v vals IH]; intros v0 Hn; simpl.
  - split; [left|]. constructor; [|done]. apply list.Forall_cons in Hn as [? _]. by apply f64_le_refl.
  - apply list.Forall_cons in Hn as [H0 [Hv Hn]%list.Forall_cons].
    change (running_min v0 (v :: vals)) with (running_min (if f64_gt v0 v then v else v0) vals).
    destruct (f64_gt v0 v) eqn:E.
    + destruct (IH v) as [Hin Hle]; [by constructor|]. split; [by right|]. constructor; [|done].
      eapply f64_le_trans; [|by apply f64_lt_le]. by apply list.Forall_cons in Hle as [? _].
    + destruct (IH v0) as [Hin Hle]; [by constructor|].
      apply list.Forall_cons in Hle as [Hle0 Hle]. split.
      * apply elem_of_cons in Hin as [->|Hin]; [by left | by right; right].
      * constructor; [done|]. constructor; [|done]. apply (f64_le_trans _ v0); [done | by apply f64_not_lt].
Qed.

Lemma f64_sub_nan_l x : f64_sub S754_nan x = S754_nan.
Proof. by destruct x as [|[]| |[]]. Qed.

Lemma checkIsTriggered_nan o r : checkIsTriggered S754_nan o r = false.
Proof.
  unfold checkIsTriggered. rewrite f64_sub_nan_l.
  unfold f64_gt, f64_ge. change (f64_abs S754_nan) with (S754_nan : f64).
  rewrite ?f64_lt_nan_l, ?f64_lt_nan_r, ?f64_le_nan_l, ?f64_le_nan_r.
  by repeat case_match.
Qed.

(** * The text of a function *)

Definition print_args (l : list Z) : string := "(#" +:+ strings_Join (map strconv_Itoa l) "," +:+ ")".

Definition print_Function (fn : Function) : string :=
  match fn with
  | MaxFunction l _ _ => "max" +:+ print_args [l]
  | MinFunction l _ _ => "min" +:+ print_args [l]
  | AllFunction l _ _ => "all" +:+ print_args [l]
  | LookupFunction n l _ _ => "lookup" +:+ print_args [n; l]
  | SumFunction l _ _ => "sum" +:+ print_args [l]
  | AvgFunction l _ _ => "avg" +:+ print_args [l]
  | DiffFunction l _ _ => "diff" +:+ print_args [l]
  | StdDeviationFunction l _ _ => "stddev" +:+ print_args [l]
  | PDiffFunction l _ _ => "pdiff" +:+ print_args [l]
  | KPDiffFunction n l _ _ => "kpdiff" +:+ print_args [n; l]
  | KDiffFunction n l _ _ => "kdiff" +:+ print_args [n; l]
  end.

Definition operator_of (fn : Function) : string :=
  match fn with
  | MaxFunction _ o _ | MinFunction _ o _ | AllFunction _ o _ | SumFunction _ o _ | AvgFunction _ o _
  | DiffFunction _ o _ | StdDeviationFunction _ o _ | PDiffFunction _ o _
  | LookupFunction _ _ o _ | KPDiffFunction _ _ o _ | KDiffFunction _ _ o _ => o
  end.
Definition rightValue_of (fn : Function) : f64 :=
  match fn with
  | MaxFunction _ _ r | MinFunction _ _ r | AllFunction _ _ r | SumFunction _ _ r | AvgFunction _ _ r
  | DiffFunction _ _ r | StdDeviationFunction _ _ r | PDiffFunction _ _ r
  | LookupFunction _ _ _ r | KPDiffFunction _ _ _ r | KDiffFunction _ _ _ r => r
  end.

Lemma atois_print (l : list Z) :
  l <> [] -> Forall is_int64 l -> atois (strings_Join (map strconv_Itoa l) ",") = Some l.
Proof.
  intros Hne Hl. unfold atois. rewrite strings_Split_Join.
  - clear Hne. induction Hl as [|z l Hz Hl IH]; [done|]. cbn [map atois_loop].
    by rewrite Atoi_Itoa, IH by done.
  - by destruct l.
  - apply Forall_map, Forall_forall. intros z _. by apply strconv_Itoa_free.
Qed.

(** Where the reader cuts the text of a function. *)
Lemma parse_cuts name (l : list Z) :
  str_free "#" name = true -> l <> [] -> Forall is_int64 l ->
  let str := name +:+ print_args l in
  let idx := strings_Index str "#" in
  exists inner, str_slice str (idx + 1) (str_len str - 1) = Ok inner /\ atois inner = Some l /\
    str_slice str 0 (idx - 1) = Ok name.
Proof.
  intros Hname Hne Hl str idx. exists (strings_Join (map strconv_Itoa l) ",").
  set (body := strings_Join (map strconv_Itoa l) ",") in *.
  assert (str = (name +:+ "(") +:+ String "#" (body +:+ ")")) as E.
  { unfold str, print_args. fold body. rewrite str_app_assoc. done. }
  assert (idx = str_len name + 1) as Eidx.
  { unfold idx, strings_Index. rewrite E, find_byte_app.
    - unfold str_len. rewrite str_length_app. simpl. lia.
    - rewrite str_free_app, Hname. done. }
  split_and!; [|by apply atois_print|].
  - replace str with ((name +:+ "(#") +:+ body +:+ ")") by (unfold str, print_args; fold body; by rewrite str_app_assoc).
    rewrite <- (str_slice_mid (name +:+ "(#") body ")"). rewrite Eidx. f_equal; unfold str_len;
      rewrite !str_length_app; simpl; lia.
  - rewrite Eidx, Z.add_simpl_r.
    pose proof (str_slice_mid "" name (print_args l)) as H. by rewrite str_app_nil_l in H.
Qed.

(** * Properties *)

(** C3. Every alarm function, on every history: [Compute] never panics; it
    reports enough points exactly when the series has the number of points the
    function reads; and then it triggers exactly when the function's condition
    holds of those points (a threshold on the maximum, minimum, sum or mean, on
    all of them, on at least [Num] of them, on a difference from the newest,
    outside [RightValue] standard deviations of the mean, or on every pair of
    recent and older points). The number read is below the largest int and every
    point has a counter type. For kpdiff the condition is the one the code
    computes, which is not the one its comment describes: the difference of a
    recent point and an older one is divided by the recent point, where the comment
    (store/func.go, line 332) says by the left, older one ([kpdiff_divisor]), and
    nothing triggers when one of the [Num] newest points is zero. *)
Theorem Compute_correct (L : SafeLinkedList) (fn : Function) :
  typed L -> int_args fn -> need fn < int64_max ->
  exists vs lv isTriggered isEnough,
    Compute fn L = Ok (vs, lv, isTriggered, isEnough) /\
    (isEnough = true <-> 1 <= need fn <= Z.of_nat (length (points L))) /\
    (isEnough = true -> vs = take (Z.to_nat (need fn)) (points L)) /\
    (isTriggered = true <-> isEnough = true /\
       Triggered fn (map HistoryData_Value (take (Z.to_nat (need fn)) (points L)))).
Proof.
  intros HL Hi Hn. destruct (decide (1 <= need fn <= Z.of_nat (length (points L)))) as [He|He].
  - destruct (Compute_spec L HL fn) as (lv & b & E & Hb); [done | lia | lia |].
    eexists _, lv, b, true. split_and!; [done.. |]. rewrite Hb. naive_solver.
  - destruct (Compute_short L HL fn) as [vs E]; [done | lia |].
    eexists vs, _, false, false. split_and!; [done | naive_solver..].
Qed.

Definition sample_series : SafeLinkedList :=
  [sample_item 180 9 "GAUGE"; sample_item 120 7 "GAUGE"; sample_item 60 8 "GAUGE"].

Lemma Compute_correct_witness :
  exists vs lv b e, Compute (LookupFunction 2 3 ">" (f64_of_Z 7)) sample_series = Ok (vs, lv, b, e) /\
    (e = true <-> 1 <= 3 <= 3) /\ (e = true -> vs = points sample_series) /\
    (b = true <-> e = true /\ 1 <= 2 <= 2).
Proof.
  apply (Compute_correct sample_series (LookupFunction 2 3 ">" (f64_of_Z 7)));
    [by repeat constructor | split; done | done].
Defined.

(** From 10 to 20 is 100 percent of the older point and 50 percent of the newer
    one: kpdiff(#1,1) computes 50. *)
Example kpdiff_divisor :
  Compute (KPDiffFunction 1 1 ">" (f64_of_Z 75)) [sample_item 120 20 "GAUGE"; sample_item 60 10 "GAUGE"]
  = Ok ([mkHistoryData 120 (f64_of_Z 20); mkHistoryData 60 (f64_of_Z 10)], f64_of_Z 50, false, true).
Proof. vm_compute. reflexivity. Qed.

Lemma extremum_values (L : SafeLinkedList) (l : Z) (o : string) (r : f64) :
  typed L -> 1 <= l < int64_max -> l <= Z.of_nat (length (points L)) ->
  exists v0 rest, map HistoryData_Value (take (Z.to_nat l) (points L)) = v0 :: rest /\
    let vs := take (Z.to_nat l) (points L) in
    Compute (MinFunction l o r) L = Ok (vs, running_min v0 rest, checkIsTriggered (running_min v0 rest) o r, true) /\
    Compute (MaxFunction l o r) L = Ok (vs, running_max v0 rest, checkIsTriggered (running_max v0 rest) o r, true).
Proof.
  intros HL Hl Hlen. cbn [Compute]. unfold MinFunction_Compute, MaxFunction_Compute.
  match goal with |- context [with_history _ _ ?k = Ok (_, running_min _ _, _, _)] => set (kmin := k) end.
  match goal with |- context [with_history _ _ ?k = Ok (_, running_max _ _, _, _)] => set (kmax := k) end.
  destruct (with_history_enough L HL l kmin Hl Hlen) as (v0 & rest & E & El & ->).
  destruct (with_history_enough L HL l kmax Hl Hlen) as (v0' & rest' & E' & _ & ->).
  rewrite E in E' |- *. injection E' as <- <-.
  exists (HistoryData_Value v0), (map HistoryData_Value rest). split; [done|]. unfold kmin, kmax.
  change (index (v0 :: rest) 0) with (Ok v0). cbn [rbind].
  rewrite !for_slice_tail, min_loop_spec, max_loop_spec by done. done.
Qed.

(** The value [max] (or [min]) compares with the threshold is one of the
    points read and bounds them all, when none of them is NaN. *)
Theorem Compute_extremum (L : SafeLinkedList) (l : Z) (o : string) (r : f64) :
  typed L -> 1 <= l < int64_max -> l <= Z.of_nat (length (points L)) ->
  let vs := take (Z.to_nat l) (points L) in
  let vals := map HistoryData_Value vs in
  Forall (fun v => f64_isNaN v = false) vals ->
  exists lo hi, Compute (MinFunction l o r) L = Ok (vs, lo, checkIsTriggered lo o r, true) /\
    Compute (MaxFunction l o r) L = Ok (vs, hi, checkIsTriggered hi o r, true) /\
    lo ∈ vals /\ hi ∈ vals /\ Forall (fun v => f64_le lo v = true) vals /\ Forall (fun v => f64_le v hi = true) vals.
Proof.
  intros HL Hl Hlen vs vals Hn.
  destruct (extremum_values L l o r HL Hl Hlen) as (v0 & rest & E & Emin & Emax).
  subst vs vals. rewrite E in *. eexists _, _. split; [exact Emin|]. split; [exact Emax|].
  destruct (running_min_spec v0 rest Hn), (running_max_spec v0 rest Hn). done.
Qed.

Lemma Compute_extremum_witness :
  exists lo hi, Compute (MinFunction 3 ">" (f64_of_Z 7)) sample_series
      = Ok (points sample_series, lo, checkIsTriggered lo ">" (f64_of_Z 7), true) /\
    Compute (MaxFunction 3 ">" (f64_of_Z 7)) sample_series
      = Ok (points sample_series, hi, checkIsTriggered hi ">" (f64_of_Z 7), true).
Proof.
  destruct (Compute_extremum sample_series 3 ">" (f64_of_Z 7)) as (lo & hi & Hlo & Hhi & _);
    [by repeat constructor | done | done | by repeat constructor | by exists lo, hi].
Defined.

(** Reading back the text of an alarm function gives that function, for
    each of the eleven functions and all arguments of type int. *)
Theorem ParseFunc_roundtrip (fn : Function) :
  int_args fn ->
  ParseFuncFromString (print_Function fn) (operator_of fn) (rightValue_of fn) = Ok (inr fn).
Proof.
  intros Hi. unfold ParseFuncFromString.
  rewrite bool_decide_false by (by destruct fn).
  destruct fn; cbn [print_Function int_args operator_of rightValue_of] in *;
    match goal with |- context [?name +:+ print_args ?l] =>
      destruct (parse_cuts name l) as (inner & -> & Ha & ->);
        [done | done | by repeat constructor; try apply Hi | cbn [rbind]; rewrite Ha; reflexivity]
    end.
Qed.

Lemma ParseFunc_roundtrip_witness :
  ParseFuncFromString "kpdiff(#3,12)" "!=" f64_zero = Ok (inr (KPDiffFunction 3 12 "!=" f64_zero)).
Proof. apply (ParseFunc_roundtrip (KPDiffFunction 3 12 "!=" f64_zero)). done. Defined.

(** * What the reader accepts *)

Lemma Atoi_int64 s z : strconv_Atoi s = Some z -> is_int64 z.
Proof.
  unfold strconv_Atoi, strconv_ParseInt, is_int64, int64_min, int64_max. cbv zeta.
  match goal with |- match ?v with _ => _ end = _ -> _ => destruct v as [v'|] end; [|done].
  destruct (_ && _) eqn:E; [|done]. intros [= ->]. apply andb_true_iff in E as [? ?].
  rewrite Z.leb_le in *. rewrite Z.ltb_lt in *. change (64 - 1) with 63 in *. lia.
Qed.

Lemma atois_int64 s args : atois s = Some args -> Forall is_int64 args.
Proof.
  unfold atois. generalize (strings_Split s ","). intros l. revert args.
  induction l as [|v l IH]; intros args; simpl; [by intros [= <-]|].
  destruct (strconv_Atoi v) as [n|] eqn:En; [|done]. destruct (atois_loop l) as [ret|]; [|done].
  intros [= <-]. constructor; [by eapply Atoi_int64 | by apply IH].
Qed.

Lemma index_Forall {A : Type} (P : A -> Prop) l i a : Forall P l -> index l i = Ok a -> P a.
Proof.
  intros Hl. unfold index. case_match; [done|]. destruct (l !! Z.to_nat i) eqn:E; [|done].
  intros [= ->]. by eapply Forall_lookup_1.
Qed.

Lemma ParseFunc_int_args str o r fn : ParseFuncFromString str o r = Ok (inr fn) -> int_args fn.
Proof.
  unfold ParseFuncFromString. case_match; [done|]. cbv zeta. intros E. inv_ok.
  destruct (atois a) as [args|] eqn:Ea; [|done]. apply atois_int64 in Ea. inv_ok.
  pose proof (fun i z => index_Forall is_int64 args i z Ea) as Hargs.
  repeat (case_match; [inv_ok; simplify_eq; simpl; by eauto|]). by simplify_eq.
Qed.
