(* ===== verification/JudgeEvent.v ===== *)
(** modules/judge/store/judge.go and modules/judge/g/var.go: which strategies and
    expressions a new point is judged by, the event each judgement produces, and
    the alarm state of every event id. *)
From Stdlib Require Import Ascii ZArith.
From stdpp Require Import base list gmap strings numbers sorting.
From S2P Require Import Prelude GoString GoFloat Utils Model JudgeList JudgeFunc.

Local Open Scope Z_scope.

(** The part of the configuration the judgement reads. [QueuePattern] is the
    configured pattern as [fmt.Sprintf] applies it to a priority. [Enabled] is
    read once, at start: without it [InitRedisConnPool] (g/redis.go) returns
    before it makes the pool, and [RedisConnPool] is nil for good. *)
Record JudgeConfig := mkJudgeConfig {
  Config_Remain : Z;
  Alarm_Enabled : bool;
  Alarm_MinInterval : Z;
  Alarm_QueuePattern : Z -> string }.

(** The maps of g/var.go ([SafeStrategyMap], [SafeExpressionMap],
    [SafeEventMap], [SafeFilterMap]) and the commands sent to redis, newest
    first; an event's JSON text is represented by the event. [Recorded] is
    ghost state that no code reads: every event put in [LastEvents], newest first. *)
Record JudgeState := mkJudgeState {
  StrategyMap : gmap string (list Strategy);
  ExpressionMap : gmap string (list Expression);
  LastEvents : gmap string Event;
  FilterMap : gmap string string;
  Redis_LPUSH : list (string * Event);
  Recorded : list Event }.

Definition SafeStrategyMap_ReInit (m : gmap string (list Strategy)) (st : JudgeState) : JudgeState :=
  mkJudgeState m (ExpressionMap st) (LastEvents st) (FilterMap st) (Redis_LPUSH st) (Recorded st).
Definition SafeExpressionMap_ReInit (m : gmap string (list Expression)) (st : JudgeState) : JudgeState :=
  mkJudgeState (StrategyMap st) m (LastEvents st) (FilterMap st) (Redis_LPUSH st) (Recorded st).
Definition SafeFilterMap_ReInit (m : gmap string string) (st : JudgeState) : JudgeState :=
  mkJudgeState (StrategyMap st) (ExpressionMap st) (LastEvents st) m (Redis_LPUSH st) (Recorded st).
Definition SafeFilterMap_Exists (key : string) (st : JudgeState) : bool :=
  match FilterMap st !! key with Some _ => true | None => false end.
Definition SafeEventMap_Get (key : string) (st : JudgeState) : option Event := LastEvents st !! key.
Definition SafeEventMap_Set (key : string) (event : Event) (st : JudgeState) : JudgeState :=
  mkJudgeState (StrategyMap st) (ExpressionMap st) (<[key := event]> (LastEvents st)) (FilterMap st)
    (Redis_LPUSH st) (event :: Recorded st).

Definition redis_LPUSH (key : string) (v : Event) (st : JudgeState) : JudgeState :=
  mkJudgeState (StrategyMap st) (ExpressionMap st) (LastEvents st) (FilterMap st)
    ((key, v) :: Redis_LPUSH st) (Recorded st).

(** [json.Marshal] refuses a NaN or an infinity in any float of the event. *)
Definition f64_finite (x : f64) : bool := negb (f64_isNaN x || f64_isInf x).
Definition json_Marshal_Event (e : Event) : option Event :=
  if f64_finite (Event_LeftValue e)
     && match Event_Strategy e with Some s => f64_finite (Strategy_RightValue s) | None => true end
     && match Event_Expression e with Some x => f64_finite (Expression_RightValue x) | None => true end
  then Some e else None.

(** [RedisConnPool.Get()], which locks the pool: a nil one is dereferenced. *)
Definition RedisConnPool_Get (cfg : JudgeConfig) : result unit :=
  if Alarm_Enabled cfg then Ok () else Panic NilDereference.

Definition sendEvent (cfg : JudgeConfig) (event : Event) (st : JudgeState) : result JudgeState :=
  let st := SafeEventMap_Set (Event_Id event) event st in
  match json_Marshal_Event event with
  | None => Ok st
  | Some bs =>
      let! p := Event_Priority event in
      let! _ := RedisConnPool_Get cfg in
      Ok (redis_LPUSH (Alarm_QueuePattern cfg p) bs st)
  end.

(** [vs[len(vs)-1]]. *)
Definition last_point (vs : list HistoryData) : result HistoryData := index vs (Z.of_nat (length vs) - 1).

(** [lastEvent.Status[0] == c] for an event that may be missing. *)
Definition status_is (c : ascii) (lastEvent : Event) : result bool :=
  let! b := str_head (Event_Status lastEvent) in Ok (Ascii.eqb b c).

(** A PROBLEM after a PROBLEM: the guards on the number of alarms, on points an
    alarm has used already and on the interval since the last one. *)
Definition sendEventAgain (cfg : JudgeConfig) (historyData : list HistoryData) (now : Z)
    (event lastEvent : Event) (maxStep : Z) (st : JudgeState) : result JudgeState :=
  if Event_CurrentStep lastEvent >=? maxStep then Ok st
  else
    let! oldest := last_point historyData in
    if HistoryData_Timestamp oldest <=? Event_EventTime lastEvent then Ok st
    else if i64 (now - Event_EventTime lastEvent) <? Alarm_MinInterval cfg then Ok st
    else sendEvent cfg (Event_setCurrentStep (i64 (Event_CurrentStep lastEvent + 1)) event) st.

Definition sendEventIfNeed (cfg : JudgeConfig) (historyData : list HistoryData) (isTriggered : bool)
    (now : Z) (event : Event) (maxStep : Z) (st : JudgeState) : result JudgeState :=
  let lastEvent := SafeEventMap_Get (Event_Id event) st in
  if isTriggered then
    let event := Event_setStatus "PROBLEM" event in
    let first := if maxStep =? 0 then Ok st else sendEvent cfg (Event_setCurrentStep 1 event) st in
    match lastEvent with
    | None => first
    | Some last =>
        let! isOk := status_is "O" last in
        if isOk : bool then first else sendEventAgain cfg historyData now event last maxStep st
    end
  else
    match lastEvent with
    | None => Ok st
    | Some last =>
        let! isProblem := status_is "P" last in
        if isProblem : bool
        then sendEvent cfg (Event_setCurrentStep 1 (Event_setStatus "OK" event)) st
        else Ok st
    end.

(** The tag loops of [CheckStrategy] and [filterRelatedExpressions]: every tag
    of the rule is a tag of the item with the same value. *)
Definition tags_related `{MapRange} (want have : tagmap) : bool :=
  forallb (fun '(tagKey, tagVal) =>
    match have !! tagKey with Some myVal => bool_decide (myVal = tagVal) | None => false end)
    (range_pairs want).

Definition strategy_event (strategy : Strategy) (firstItem : JudgeItem) (leftValue : f64) : Event :=
  mkEvent ("s_" +:+ strconv_Itoa (Strategy_Id strategy) +:+ "_" +:+ JudgeItem_PrimaryKey firstItem)
    (Some strategy) None "" (JudgeItem_Endpoint firstItem) leftValue 0
    (JudgeItem_Timestamp firstItem) (JudgeItem_Tags firstItem).
Definition expression_event (expression : Expression) (firstItem : JudgeItem) (leftValue : f64) : Event :=
  mkEvent ("e_" +:+ strconv_Itoa (Expression_Id expression) +:+ "_" +:+ JudgeItem_PrimaryKey firstItem)
    None (Some expression) "" (JudgeItem_Endpoint firstItem) leftValue 0
    (JudgeItem_Timestamp firstItem) (JudgeItem_Tags firstItem).

(** The body shared by the two judgements: read the function, evaluate it, and
    send the event [mk] builds if need be. *)
Definition judgeItemWith (cfg : JudgeConfig) (L : SafeLinkedList) (func operator : string) (rightValue : f64)
    (mk : f64 -> Event) (maxStep now : Z) (st : JudgeState) : result JudgeState :=
  let! parsed := ParseFuncFromString func operator rightValue in
  match parsed with
  | inl _ => Ok st
  | inr fn =>
      let! (historyData, leftValue, isTriggered, isEnough) := Compute fn L in
      if isEnough : bool
      then sendEventIfNeed cfg historyData isTriggered now (mk leftValue) maxStep st
      else Ok st
  end.

Definition judgeItemWithStrategy (cfg : JudgeConfig) (L : SafeLinkedList) (firstItem : JudgeItem) (now : Z)
    (st : JudgeState) (strategy : Strategy) : result JudgeState :=
  judgeItemWith cfg L (Strategy_Func strategy) (Strategy_Operator strategy) (Strategy_RightValue strategy)
    (strategy_event strategy firstItem) (Strategy_MaxStep strategy) now st.

Definition judgeItemWithExpression (cfg : JudgeConfig) (L : SafeLinkedList) (firstItem : JudgeItem) (now : Z)
    (st : JudgeState) (expression : Expression) : result JudgeState :=
  judgeItemWith cfg L (Expression_Func expression) (Expression_Operator expression)
    (Expression_RightValue expression) (expression_event expression firstItem)
    (Expression_MaxStep expression) now st.

Section judge.
Context `{MapRange} (cfg : JudgeConfig).

Definition CheckStrategy (L : SafeLinkedList) (firstItem : JudgeItem) (now : Z) (st : JudgeState)
    : result JudgeState :=
  let key := JudgeItem_Endpoint firstItem +:+ "/" +:+ JudgeItem_Metric firstItem in
  match StrategyMap st !! key with
  | None => Ok st
  | Some strategies =>
      rfold (fun st s =>
        if tags_related (Strategy_Tags s) (JudgeItem_Tags firstItem)
        then judgeItemWithStrategy cfg L firstItem now st s else Ok st) st strategies
  end.

Definition buildKeysFromMetricAndTags (item : JudgeItem) : list string :=
  map (fun '(k, v) => JudgeItem_Metric item +:+ "/" +:+ k +:+ "=" +:+ v) (range_pairs (JudgeItem_Tags item))
  ++ [JudgeItem_Metric item +:+ "/endpoint=" +:+ JudgeItem_Endpoint item].

(** [ret["endpoint"] = item.Endpoint], then every tag of the item. *)
Definition copyItemTags (item : JudgeItem) : tagmap :=
  fold_left (fun ret '(k, v) => <[k := v]> ret) (range_pairs (JudgeItem_Tags item))
    {["endpoint" := JudgeItem_Endpoint item]}.

Definition expression_related (firstItem : JudgeItem) (exp : Expression) : bool :=
  let itemTagsCopy := match Expression_Tags exp !! "endpoint" with
                      | Some _ => copyItemTags firstItem
                      | None => JudgeItem_Tags firstItem
                      end in
  tags_related (Expression_Tags exp) itemTagsCopy.

Definition filterRelatedExpressions (expressions : list Expression) (firstItem : JudgeItem) : list Expression :=
  List.filter (expression_related firstItem) expressions.

(** One expression of the inner loop, skipped when its id was handled. *)
Definition checkExpression_one (L : SafeLinkedList) (firstItem : JudgeItem) (now : Z)
    (s : gset Z * JudgeState) (exp : Expression) : result (gset Z * JudgeState) :=
  let '(handledExpression, st) := s in
  if decide (Expression_Id exp ∈ handledExpression) then Ok s
  else
    let! st := judgeItemWithExpression cfg L firstItem now st exp in
    Ok ({[Expression_Id exp]} ∪ handledExpression, st).

Definition CheckExpression (L : SafeLinkedList) (firstItem : JudgeItem) (now : Z) (st : JudgeState)
    : result JudgeState :=
  let keys := buildKeysFromMetricAndTags firstItem in
  let expressionMap := ExpressionMap st in
  let! (_, st) := rfold (fun s key =>
    match expressionMap !! key with
    | None => Ok s
    | Some expressions =>
        rfold (checkExpression_one L firstItem now) s (filterRelatedExpressions expressions firstItem)
    end) (∅, st) keys in
  Ok st.

Definition Judge (L : SafeLinkedList) (firstItem : JudgeItem) (now : Z) (st : JudgeState) : result JudgeState :=
  let! st := CheckStrategy L firstItem now st in
  CheckExpression L firstItem now st.
End judge.

(** * The alarm state machine *)

(** Events of a rule: a strategy or an expression. *)
Definition has_rule (e : Event) : Prop :=
  is_Some (Event_Strategy e) \/ is_Some (Event_Expression e).

Definition is_problem (e : Event) : Prop := Event_Status e = "PROBLEM".
Definition is_ok (e : Event) : Prop := Event_Status e = "OK".

(** No alarm is up: nothing was recorded for the id, or an OK was. *)
Definition quiet (last : option Event) : Prop :=
  match last with None => True | Some e => is_ok e end.

(** What the judgement of one id records, given what it recorded last:
    a first alarm, one more alarm, or the recovery. *)
Inductive alarm_due (cfg : JudgeConfig) (vs : list HistoryData) (isTriggered : bool) (now : Z)
    (event : Event) (maxStep : Z) : option Event -> Event -> Prop :=
  | due_first last :
      isTriggered = true -> quiet last -> maxStep <> 0 ->
      alarm_due cfg vs isTriggered now event maxStep last
        (Event_setCurrentStep 1 (Event_setStatus "PROBLEM" event))
  | due_again last oldest :
      isTriggered = true -> is_problem last -> Event_CurrentStep last < maxStep ->
      list.last vs = Some oldest -> Event_EventTime last < HistoryData_Timestamp oldest ->
      Alarm_MinInterval cfg <= i64 (now - Event_EventTime last) ->
      alarm_due cfg vs isTriggered now event maxStep (Some last)
        (Event_setCurrentStep (i64 (Event_CurrentStep last + 1)) (Event_setStatus "PROBLEM" event))
  | due_recovery last :
      isTriggered = false -> is_problem last ->
      alarm_due cfg vs isTriggered now event maxStep (Some last)
        (Event_setCurrentStep 1 (Event_setStatus "OK" event)).

(** The state after an event was recorded, and pushed to its priority's queue
    when it has a JSON text. *)
Definition event_priority (e : Event) : Z :=
  match Event_Strategy e with
  | Some s => Strategy_Priority s
  | None => match Event_Expression e with Some x => Expression_Priority x | None => 0 end
  end.
Definition recorded (cfg : JudgeConfig) (e : Event) (st : JudgeState) : JudgeState :=
  let st := SafeEventMap_Set (Event_Id e) e st in
  match json_Marshal_Event e with
  | None => st
  | Some bs => redis_LPUSH (Alarm_QueuePattern cfg (event_priority e)) bs st
  end.

(** What sending an event comes to: it is recorded, unless it has a JSON text
    and there is no pool of connections to push it with. *)
Definition outcome (cfg : JudgeConfig) (o : option Event) (st : JudgeState) : result JudgeState :=
  match o with
  | None => Ok st
  | Some e =>
      if Alarm_Enabled cfg || negb (bool_decide (is_Some (json_Marshal_Event e)))
      then Ok (recorded cfg e st) else Panic NilDereference
  end.

Lemma sendEvent_recorded cfg e st : has_rule e -> sendEvent cfg e st = outcome cfg (Some e) st.
Proof.
  intros Hr. unfold sendEvent, outcome, recorded, RedisConnPool_Get, Event_Priority, Event_either, event_priority.
  destruct (json_Marshal_Event e); [|by rewrite orb_true_r]. rewrite orb_false_r.
  destruct Hr as [[s ->]|[x ->]]; [by destruct (Alarm_Enabled cfg)|].
  by destruct (Event_Strategy e), (Alarm_Enabled cfg).
Qed.

Lemma outcome_Ok cfg o st st' :
  outcome cfg o st = Ok st' -> st' = match o with Some e => recorded cfg e st | None => st end.
Proof. unfold outcome. destruct o; [case_match|]; congruence. Qed.

Lemma outcome_enabled cfg o st :
  Alarm_Enabled cfg = true -> outcome cfg o st = Ok (match o with Some e => recorded cfg e st | None => st end).
Proof. unfold outcome. intros ->. by destruct o. Qed.

(** Every recorded event has one of the two statuses and the id it is stored under. *)
Definition event_wf (e : Event) : Prop := is_problem e \/ is_ok e.
Definition events_wf (st : JudgeState) : Prop :=
  map_Forall (fun id e => Event_Id e = id /\ event_wf e) (LastEvents st).

Lemma status_is_wf e :
  event_wf e ->
  (status_is "O" e = Ok true /\ status_is "P" e = Ok false /\ is_ok e /\ ~ is_problem e) \/
  (status_is "O" e = Ok false /\ status_is "P" e = Ok true /\ is_problem e /\ ~ is_ok e).
Proof.
  unfold event_wf, is_problem, is_ok, status_is.
  intros [E|E]; rewrite E; [right | left]; done.
Qed.

Lemma last_point_last vs v : list.last vs = Some v -> last_point vs = Ok v.
Proof. apply index_last. Qed.

Lemma sendEventAgain_spec cfg vs now event last maxStep st :
  vs <> [] -> has_rule event -> is_problem last -> Event_Status event = "PROBLEM" ->
  exists o, sendEventAgain cfg vs now event last maxStep st
      = outcome cfg o st /\
    forall e, o = Some e <->
      e = Event_setCurrentStep (i64 (Event_CurrentStep last + 1)) event /\
      Event_CurrentStep last < maxStep /\
      (exists oldest, list.last vs = Some oldest /\ Event_EventTime last < HistoryData_Timestamp oldest) /\
      Alarm_MinInterval cfg <= i64 (now - Event_EventTime last).
Proof.
  intros Hvs Hr Hp Hs. unfold sendEventAgain.
  destruct (list.last vs) as [oldest|] eqn:El; [|by apply last_None in El].
  rewrite (last_point_last _ _ El). cbn [rbind]. rewrite Z.geb_leb.
  destruct (Z.leb_spec maxStep (Event_CurrentStep last)); [exists None; split; [done | naive_solver lia]|].
  destruct (Z.leb_spec (HistoryData_Timestamp oldest) (Event_EventTime last));
    [exists None; split; [done | naive_solver lia]|].
  destruct (Z.ltb_spec (i64 (now - Event_EventTime last)) (Alarm_MinInterval cfg));
    [exists None; split; [done | naive_solver lia]|].
  rewrite sendEvent_recorded by exact Hr. eexists (Some _). split; [done|]. naive_solver.
Qed.

(** The judgement of one id records what is due, and nothing else. *)
Lemma sendEventIfNeed_spec cfg vs isTriggered now event maxStep st :
  vs <> [] -> has_rule event -> events_wf st ->
  exists o, sendEventIfNeed cfg vs isTriggered now event maxStep st
      = outcome cfg o st /\
    forall e, o = Some e <->
      alarm_due cfg vs isTriggered now event maxStep (LastEvents st !! Event_Id event) e.
Proof.
  intros Hvs Hr Hwf. unfold sendEventIfNeed, SafeEventMap_Get.
  assert (forall q, quiet q -> LastEvents st !! Event_Id event = q -> isTriggered = true ->
    exists o, (if maxStep =? 0 then Ok st
      else sendEvent cfg (Event_setCurrentStep 1 (Event_setStatus "PROBLEM" event)) st)
      = outcome cfg o st /\
    forall e, o = Some e <-> alarm_due cfg vs isTriggered now event maxStep q e) as Hfirst.
  { intros q Hq _ Ht. destruct (Z.eqb_spec maxStep 0).
    - exists None. split; [done|]. intros e'. split; [done|]. unfold is_ok, is_problem, quiet in *.
      inversion 1; subst; congruence.
    - rewrite sendEvent_recorded by exact Hr. eexists (Some _). split; [done|]. intros e. split.
      + intros [= <-]. by apply due_first.
      + unfold is_ok, is_problem, quiet in *. inversion 1; subst; congruence. }
  destruct (LastEvents st !! Event_Id event) as [last|] eqn:El.
  2:{ destruct isTriggered; [by apply Hfirst|]. exists None. split; [done|].
      intros e. split; [done|]. inversion 1; subst; congruence. }
  destruct (Hwf _ _ El) as [_ Hw]. unfold is_ok, is_problem in *.
  destruct (status_is_wf last Hw) as [(-> & -> & Ho & Hn)|(-> & -> & Hp & Hn)]; destruct isTriggered; cbn [rbind].
  - by apply Hfirst.
  - exists None. split; [done|]. intros e'. split; [done|]. unfold is_ok, is_problem in *.
    inversion 1; subst; congruence.
  - destruct (sendEventAgain_spec cfg vs now (Event_setStatus "PROBLEM" event) last maxStep st)
      as (o & -> & Ho); [done..|]. exists o. split; [done|]. intros e. rewrite Ho. split.
    + intros (-> & ? & (oldest & ? & ?) & ?). by eapply due_again.
    + unfold is_ok, is_problem, quiet in *. inversion 1; subst; try congruence. naive_solver.
  - rewrite sendEvent_recorded by exact Hr. eexists (Some _). split; [done|]. intros e. split.
    + intros [= <-]. by apply due_recovery.
    + unfold is_ok, is_problem, quiet in *. inversion 1; subst; congruence.
Qed.

(** * Histories of one event id *)

(** How an event follows the one recorded before it under the same id. *)
Inductive alarm_step : option Event -> Event -> Prop :=
  | step_raise last e m :
      quiet last -> is_problem e -> Event_CurrentStep e = 1 ->
      Event_MaxStep e = Ok m -> m <> 0 -> alarm_step last e
  | step_again last e m :
      is_problem last -> is_problem e -> Event_CurrentStep e = Event_CurrentStep last + 1 ->
      Event_MaxStep e = Ok m -> Event_CurrentStep e <= m ->
      Event_EventTime last < Event_EventTime e -> alarm_step (Some last) e
  | step_recover last e :
      is_problem last -> is_ok e -> Event_CurrentStep e = 1 -> alarm_step (Some last) e.

(** A history, newest first. *)
Inductive alarm_history : list Event -> Prop :=
  | history_nil : alarm_history []
  | history_cons e l : alarm_step (head l) e -> alarm_history l -> alarm_history (e :: l).

Definition history_of (id : string) (st : JudgeState) : list Event :=
  filter (fun e => Event_Id e = id) (Recorded st).

(** The PROBLEM events since the last OK. *)
Fixpoint streak (l : list Event) : Z :=
  match l with
  | [] => 0
  | e :: l => if bool_decide (Event_Status e = "PROBLEM") then 1 + streak l else 0
  end.

Lemma history_wf l : alarm_history l -> Forall event_wf l.
Proof. induction 1 as [|e l Hs _ IH]; constructor; [|done]. unfold event_wf. inversion Hs; auto. Qed.

Lemma quiet_streak l : quiet (head l) -> streak l = 0.
Proof. destruct l as [|e l]; simpl; [done|]. unfold is_ok. intros ->. done. Qed.

(** The step number of an alarm counts the alarms since the last recovery. *)
Lemma history_streak e l :
  alarm_history (e :: l) -> is_problem e -> Event_CurrentStep e = streak (e :: l).
Proof.
  intros Hh. remember (e :: l) as l0 eqn:E. revert e l E.
  induction Hh as [|e' l' Hs Hh IH]; intros e l E Hp; [done|]. injection E as <- <-.
  cbn [streak]. rewrite bool_decide_true by done. inversion Hs; subst.
  - rewrite quiet_streak by done. lia.
  - destruct l' as [|last' l'']; [done|]. simpl in *. simplify_eq.
    rewrite H2, (IH last' l'' eq_refl) by done. lia.
  - unfold is_problem, is_ok in *. congruence.
Qed.

Lemma alarm_due_step cfg vs isTriggered now event maxStep last e :
  Event_MaxStep event = Ok maxStep -> is_int64 maxStep ->
  Forall (fun v => HistoryData_Timestamp v <= Event_EventTime event) vs ->
  (forall l, last = Some l -> is_problem l -> 1 <= Event_CurrentStep l) ->
  alarm_due cfg vs isTriggered now event maxStep last e -> alarm_step last e /\ Event_Id e = Event_Id event.
Proof.
  intros Hm Hi Hvs Hl Hdue.
  destruct Hdue as [last Ht Hq Hmax|last oldest Ht Hp Hlt Hold Hnew Hint|last Ht Hp]; (split; [|done]).
  - eapply step_raise; [done | done | done | exact Hm | done].
  - specialize (Hl _ eq_refl Hp).
    assert (i64 (Event_CurrentStep last + 1) = Event_CurrentStep last + 1) as E
      by (apply i64_id; unfold is_int64, int64_min, int64_max in *; lia).
    eapply step_again; [done | done | exact E | exact Hm | simpl; lia |].
    simpl. apply last_Some in Hold as [vs' ->].
    apply Forall_app in Hvs as [_ [Hv _]%list.Forall_cons]. lia.
  - by apply step_recover.
Qed.

(** The invariant of the recorded events: [LastEvents] holds the newest event of
    each id's history, and redis was sent every event that has a JSON text. *)
Record judge_inv (cfg : JudgeConfig) (st : JudgeState) : Prop := {
  inv_last id : LastEvents st !! id = head (history_of id st);
  inv_history id : alarm_history (history_of id st);
  inv_redis : Redis_LPUSH st =
    omap (fun e => pair (Alarm_QueuePattern cfg (event_priority e)) <$> json_Marshal_Event e) (Recorded st) }.

Lemma judge_inv_wf cfg st : judge_inv cfg st -> events_wf st.
Proof.
  intros HI id e He. rewrite (inv_last _ _ HI) in He.
  pose proof (history_wf _ (inv_history _ _ HI id)) as Hw. unfold history_of in *.
  destruct (filter _ _) as [|e' l] eqn:E; [done|]. injection He as ->.
  apply list.Forall_cons in Hw as [Hw _]. split; [|done].
  assert (e ∈ filter (fun e => Event_Id e = id) (Recorded st)) as Hin by (rewrite E; left).
  by apply list_elem_of_filter in Hin as [? _].
Qed.

Lemma history_step_pos last l : alarm_history (last :: l) -> is_problem last -> 1 <= Event_CurrentStep last.
Proof.
  intros Hh Hp. rewrite (history_streak _ _ Hh Hp). cbn [streak]. rewrite bool_decide_true by done.
  assert (0 <= streak l); [|lia]. clear. induction l; simpl; [lia|]. case_match; lia.
Qed.

Lemma recorded_inv cfg e st :
  judge_inv cfg st -> alarm_step (LastEvents st !! Event_Id e) e -> judge_inv cfg (recorded cfg e st).
Proof.
  intros HI Hs.
  assert (LastEvents (recorded cfg e st) = <[Event_Id e := e]> (LastEvents st) /\
          Recorded (recorded cfg e st) = e :: Recorded st) as [El Er].
  { unfold recorded. by destruct (json_Marshal_Event e). }
  split.
  - intros id. unfold history_of. rewrite El, Er, filter_cons. case_decide as E.
    + subst id. by rewrite lookup_insert_eq.
    + rewrite lookup_insert_ne by done. apply HI.
  - intros id. unfold history_of. rewrite Er, filter_cons. case_decide as E; [|apply HI].
    constructor; [|apply HI]. subst id. by rewrite (inv_last _ _ HI) in Hs.
  - rewrite Er. cbn [omap list_omap]. unfold recorded.
    destruct (json_Marshal_Event e) as [bs|]; simpl; [f_equal|]; apply HI.
Qed.

(** * The judgement of a point *)

Lemma judgeItemWith_inv cfg L it func op rv mk maxStep now st st' :
  descending L -> head L = Some it -> is_int64 maxStep ->
  (forall lv, has_rule (mk lv) /\ Event_MaxStep (mk lv) = Ok maxStep /\
              Event_EventTime (mk lv) = JudgeItem_Timestamp it) ->
  judge_inv cfg st -> judgeItemWith cfg L func op rv mk maxStep now st = Ok st' -> judge_inv cfg st'.
Proof.
  intros Hd Hhd Hm Hmk HI. unfold judgeItemWith. intros E. inv_ok.
  destruct a as [err|fn]; [by inv_ok|]. inv_ok. destruct a as [[[vs lv] b] e].
  destruct e; [|by inv_ok]. apply Compute_history in Ha0.
  destruct L as [|it' rest]; [done|]. injection Hhd as ->.
  destruct (HistoryData_bound _ _ _ _ Hd Ha0) as [Hne Hb].
  destruct (Hmk lv) as (Hr & Hms & Ht). rewrite <- Ht in Hb.
  destruct (sendEventIfNeed_spec cfg vs b now (mk lv) maxStep st) as (o & E' & Ho);
    [done | done | by eapply judge_inv_wf |].
  rewrite E' in E. apply outcome_Ok in E as ->. destruct o as [e|]; [|done].
  destruct (alarm_due_step cfg vs b now (mk lv) maxStep (LastEvents st !! Event_Id (mk lv)) e) as [Hs Hid];
    [done | done | done | | by apply Ho | by apply recorded_inv; [|rewrite Hid]].
  intros l. rewrite (inv_last _ _ HI). pose proof (inv_history _ _ HI (Event_Id (mk lv))) as Hh.
  destruct (history_of _ _) as [|l' hs]; [done|]. intros [= ->] Hp. by eapply history_step_pos.
Qed.

(** Rules as the heartbeat server sends them: [MaxStep] is an int. *)
Definition strategy_typed (s : Strategy) : Prop := is_int64 (Strategy_MaxStep s).
Definition expression_typed (x : Expression) : Prop := is_int64 (Expression_MaxStep x).

Lemma judgeItemWithStrategy_inv cfg L it now st s st' :
  descending L -> head L = Some it -> strategy_typed s -> judge_inv cfg st ->
  judgeItemWithStrategy cfg L it now st s = Ok st' -> judge_inv cfg st'.
Proof.
  intros Hd Hh Hs. apply (judgeItemWith_inv _ _ it); try done.
  intros lv. split_and!; [|done..]. left. by eexists.
Qed.

Lemma judgeItemWithExpression_inv cfg L it now st x st' :
  descending L -> head L = Some it -> expression_typed x -> judge_inv cfg st ->
  judgeItemWithExpression cfg L it now st x = Ok st' -> judge_inv cfg st'.
Proof.
  intros Hd Hh Hs. apply (judgeItemWith_inv _ _ it); try done.
  intros lv. split_and!; [|done..]. right. by eexists.
Qed.

(** Judging changes neither the rules nor the filter. *)
Definition same_rules (st st' : JudgeState) : Prop :=
  StrategyMap st' = StrategyMap st /\ ExpressionMap st' = ExpressionMap st /\ FilterMap st' = FilterMap st.

#[global] Instance same_rules_preorder : PreOrder same_rules.
Proof. split; [done|]. unfold same_rules. intros ??? (?&?&?) (?&?&?). split_and!; congruence. Qed.

Lemma sendEvent_rules cfg e st st' : sendEvent cfg e st = Ok st' -> same_rules st st'.
Proof. unfold sendEvent. destruct (json_Marshal_Event e); intros E; inv_ok; done. Qed.

Lemma judgeItemWith_rules cfg L func op rv mk maxStep now st st' :
  judgeItemWith cfg L func op rv mk maxStep now st = Ok st' -> same_rules st st'.
Proof.
  unfold judgeItemWith, sendEventIfNeed, sendEventAgain. intros E. inv_ok. destruct a; [by inv_ok|].
  inv_ok. destruct a as [[[vs lv] b] []]; [|by inv_ok].
  repeat first [case_match | progress inv_ok | by (eapply sendEvent_rules) | done].
Qed.

Definition rules_typed (st : JudgeState) : Prop :=
  map_Forall (fun _ => Forall strategy_typed) (StrategyMap st) /\
  map_Forall (fun _ => Forall expression_typed) (ExpressionMap st).

Lemma rules_typed_same st st' : same_rules st st' -> rules_typed st -> rules_typed st'.
Proof. unfold same_rules, rules_typed. intros (-> & -> & _). done. Qed.

Section judge_inv.
Context `{MapRange} (cfg : JudgeConfig).

Lemma CheckStrategy_inv L it now st st' :
  descending L -> head L = Some it -> rules_typed st -> judge_inv cfg st ->
  CheckStrategy cfg L it now st = Ok st' -> judge_inv cfg st' /\ same_rules st st'.
Proof using Type.
  intros Hd Hh [Hty _] HI. unfold CheckStrategy.
  destruct (StrategyMap st !! _) as [ss|] eqn:Ess; [|intros; by inv_ok].
  apply (rfold_invariant (fun st1 => judge_inv cfg st1 /\ same_rules st st1)); [|done].
  intros st1 s st2 Hs [HI1 Hr1]. case_match; [|intros; by inv_ok]. intros E. split.
  - eapply judgeItemWithStrategy_inv; eauto. eapply list.Forall_forall; [|exact Hs]. by eapply Hty.
  - etransitivity; [exact Hr1|]. by eapply judgeItemWith_rules.
Qed.

Lemma CheckExpression_inv L it now st st' :
  descending L -> head L = Some it -> rules_typed st -> judge_inv cfg st ->
  CheckExpression cfg L it now st = Ok st' -> judge_inv cfg st' /\ same_rules st st'.
Proof using Type.
  intros Hd Hh [_ Hty] HI. unfold CheckExpression. intros E. inv_ok. destruct a as [hd st1]. inv_ok.
  assert (judge_inv cfg (hd, st').2 /\ same_rules st (hd, st').2); [|done].
  eapply (rfold_invariant (fun s => judge_inv cfg s.2 /\ same_rules st s.2)); [| |exact Ha]; [|done].
  clear Ha hd st'. intros s key s' _ Hs. cbv beta in *. destruct (ExpressionMap st !! key) as [xs|] eqn:Exs; [|intros; by inv_ok].
  apply (rfold_invariant (fun s => judge_inv cfg s.2 /\ same_rules st s.2)); [|done].
  intros [h st1] x s1 Hx [HI1 Hr1] E. unfold checkExpression_one in E.
  case_match; inv_ok; [done|]. simpl. split.
  - eapply judgeItemWithExpression_inv; eauto. apply list_elem_of_In, List.filter_In in Hx as [Hx%list_elem_of_In _].
    eapply list.Forall_forall; [|exact Hx]. by eapply Hty.
  - etransitivity; [exact Hr1|]. by eapply judgeItemWith_rules.
Qed.

Lemma Judge_inv L it now st st' :
  descending L -> head L = Some it -> rules_typed st -> judge_inv cfg st ->
  Judge cfg L it now st = Ok st' -> judge_inv cfg st' /\ same_rules st st'.
Proof using Type.
  intros Hd Hh Hty HI E. unfold Judge in E. inv_ok.
  destruct (CheckStrategy_inv L it now st a) as [HI1 Hr1]; [done..|].
  destruct (CheckExpression_inv L it now a st') as [HI2 Hr2];
    [done | done | by eapply rules_typed_same | done | done |].
  split; [done|]. by transitivity a.
Qed.
End judge_inv.

(** * Which rules a point is judged by *)

Section selection.
Context `{MapRange}.

Lemma tags_related_spec (want have : tagmap) : tags_related want have = true <-> want ⊆ have.
Proof using Type.
  unfold tags_related. rewrite forallb_forall, map_subseteq_spec. split.
  - intros Hf k v Hk%elem_of_range_pairs%list_elem_of_In. specialize (Hf _ Hk). simpl in Hf.
    destruct (have !! k); [|done]. by apply bool_decide_eq_true in Hf as ->.
  - intros Hs [k v] Hin%list_elem_of_In%elem_of_range_pairs. rewrite (Hs _ _ Hin). by apply bool_decide_eq_true.
Qed.

Lemma copyItemTags_lookup it k :
  copyItemTags it !! k = match JudgeItem_Tags it !! k with
    | Some v => Some v
    | None => if decide (k = "endpoint") then Some (JudgeItem_Endpoint it) else None
    end.
Proof using Type.
  unfold copyItemTags.
  assert (forall (l : list (string * string)) (m : tagmap),
    (forall v, (k, v) ∈ l -> JudgeItem_Tags it !! k = Some v) ->
    fold_left (fun ret '(k, v) => <[k := v]> ret) l m !! k
    = if decide (k ∈ l.*1) then JudgeItem_Tags it !! k else m !! k) as Hf.
  { induction l as [|[k' v'] l IH]; intros m Hl; cbn [fold_left fmap list_fmap fst].
    - by rewrite decide_False by apply not_elem_of_nil.
    - rewrite IH by (intros; apply Hl; by right). destruct (decide (k ∈ l.*1)).
      + rewrite decide_True by (by right). done.
      + destruct (decide (k = k')) as [->|].
        * rewrite decide_True by left. rewrite lookup_insert_eq. symmetry. apply Hl. left.
        * rewrite decide_False by (rewrite elem_of_cons; tauto). by rewrite lookup_insert_ne. }
  rewrite Hf by (intros v; by rewrite elem_of_range_pairs). case_decide as Hk.
  - apply list_elem_of_fmap in Hk as ([k' v] & -> & Hk%elem_of_range_pairs). simpl. by rewrite Hk.
  - destruct (JudgeItem_Tags it !! k) as [v|] eqn:E.
    + destruct Hk. apply list_elem_of_fmap. exists (k, v). split; [done|]. by apply elem_of_range_pairs.
    + case_decide; subst; [by rewrite lookup_singleton_eq | by rewrite lookup_singleton_ne by done].
Qed.

Lemma expression_related_spec it x :
  expression_related it x = true <-> Expression_Tags x ⊆ copyItemTags it.
Proof using Type.
  unfold expression_related. rewrite tags_related_spec.
  destruct (Expression_Tags x !! "endpoint") eqn:E; [done|]. rewrite !map_subseteq_spec.
  split; intros Hs k v Hk; specialize (Hs k v Hk); rewrite copyItemTags_lookup in *.
  - by rewrite Hs.
  - destruct (JudgeItem_Tags it !! k); [done|]. case_decide; [subst; congruence | done].
Qed.

Lemma rfold_filter {A S : Type} (f : S -> A -> result S) (p : A -> bool) s l :
  rfold (fun s a => if p a then f s a else Ok s) s l = rfold f s (List.filter p l).
Proof using Type.
  revert s; induction l as [|a l IH]; intros s; simpl; [done|].
  destruct (p a); simpl; [|done]. destruct (f s a); simpl; [done | done].
Qed.

Lemma CheckStrategy_rfold cfg L it now st :
  CheckStrategy cfg L it now st = rfold (judgeItemWithStrategy cfg L it now) st
    (List.filter (fun s => tags_related (Strategy_Tags s) (JudgeItem_Tags it))
      (default [] (StrategyMap st !! (JudgeItem_Endpoint it +:+ "/" +:+ JudgeItem_Metric it)))).
Proof using Type.
  unfold CheckStrategy. cbv zeta. destruct (StrategyMap st !! _); [|done]. simpl. apply rfold_filter.
Qed.

(** The expressions the two loops meet, and those not met before. *)
Definition met_expressions (m : gmap string (list Expression)) (it : JudgeItem) : list Expression :=
  buildKeysFromMetricAndTags it ≫= fun key => filterRelatedExpressions (default [] (m !! key)) it.
Fixpoint first_met (handled : gset Z) (l : list Expression) : list Expression :=
  match l with
  | [] => []
  | x :: l => if decide (Expression_Id x ∈ handled) then first_met handled l
              else x :: first_met ({[Expression_Id x]} ∪ handled) l
  end.

Lemma checkExpression_first_met cfg L it now h st l :
  (let! (_, st') := rfold (checkExpression_one cfg L it now) (h, st) l in Ok st')
  = rfold (judgeItemWithExpression cfg L it now) st (first_met h l).
Proof using Type.
  revert h st; induction l as [|x l IH]; intros h st; [done|].
  cbn [rfold first_met]. unfold checkExpression_one at 1. case_decide; [apply IH|].
  cbn [rfold]. destruct (judgeItemWithExpression cfg L it now st x); simpl; [apply IH | done].
Qed.

Lemma CheckExpression_rfold cfg L it now st :
  CheckExpression cfg L it now st
  = rfold (judgeItemWithExpression cfg L it now) st (first_met ∅ (met_expressions (ExpressionMap st) it)).
Proof using Type.
  rewrite <- checkExpression_first_met. unfold CheckExpression, met_expressions. cbv zeta.
  rewrite <- rfold_bind. f_equal. apply rfold_ext. intros s key _. by destruct (ExpressionMap st !! key).
Qed.

Lemma first_met_spec h l :
  NoDup (map Expression_Id (first_met h l)) /\
  (forall x, x ∈ first_met h l -> x ∈ l /\ Expression_Id x ∉ h) /\
  (forall i, i ∈ map Expression_Id l -> i ∉ h -> i ∈ map Expression_Id (first_met h l)).
Proof using Type.
  revert h; induction l as [|x l IH]; intros h; cbn [first_met map].
  - split_and!; [constructor | by intros x ?%not_elem_of_nil | by intros i ?%not_elem_of_nil].
  - case_decide as Hx.
    + destruct (IH h) as (H1 & H2 & H3). split_and!; [done | |].
      * intros y Hy. destruct (H2 y Hy). split; [by right | done].
      * intros i Hi Hh. apply elem_of_cons in Hi as [->|Hi]; [done | by apply H3].
    + destruct (IH ({[Expression_Id x]} ∪ h)) as (H1 & H2 & H3). cbn [map]. split_and!.
      * constructor; [|done]. intros (y & Ey & Hy)%list_elem_of_fmap. destruct (H2 y Hy). set_solver.
      * intros y Hy. apply elem_of_cons in Hy as [->|Hy]; [split; [left | done]|].
        destruct (H2 y Hy). split; [by right | set_solver].
      * intros i Hi Hh. apply elem_of_cons in Hi as [->|Hi]; [left|].
        destruct (decide (i = Expression_Id x)) as [->|]; [left|]. right. apply H3; set_solver.
Qed.
End selection.

(** * Properties *)

(** C2. The decision of [sendEventIfNeed], on every branch: it sends exactly the
    event that is due, and never panics unless alarms are disabled in the
    configuration. That is a first PROBLEM when nothing or
    an OK was recorded before and alarms are not disabled ([maxStep] 0), one more
    PROBLEM while fewer than [maxStep] were sent, all the points used are newer
    than the last alarm and at least [MinInterval] seconds have passed since it,
    an OK when a PROBLEM was recorded and the condition no longer holds, and
    nothing otherwise. With alarms enabled the event is recorded and, when its
    values are finite, pushed to the queue of its priority; with alarms disabled
    an event with finite values panics, since the pool of redis connections was
    never made. *)
Theorem sendEventIfNeed_due cfg vs isTriggered now event maxStep st :
  vs <> [] -> has_rule event -> events_wf st ->
  exists o, sendEventIfNeed cfg vs isTriggered now event maxStep st
      = outcome cfg o st /\
    (Alarm_Enabled cfg = true ->
      outcome cfg o st = Ok (match o with Some e => recorded cfg e st | None => st end)) /\
    forall e, o = Some e <->
      alarm_due cfg vs isTriggered now event maxStep (LastEvents st !! Event_Id event) e.
Proof.
  intros Hvs Hr Hst. destruct (sendEventIfNeed_spec cfg vs isTriggered now event maxStep st) as (o & E & Ho); [done..|].
  exists o. split_and!; [done | apply outcome_enabled | done].
Qed.

Definition sample_strategy : Strategy :=
  mkStrategy 1 "cpu.idle" ∅ "all(#2)" "<" (f64_of_Z 10) 3 0 "" None.
Definition sample_config : JudgeConfig := mkJudgeConfig 11 true 300 (fun p => "event:p" +:+ strconv_Itoa p).
Definition sample_event : Event :=
  strategy_event sample_strategy (mkJudgeItem "host" "cpu.idle" (f64_of_Z 5) 900 "GAUGE" ∅) (f64_of_Z 5).

Lemma sendEventIfNeed_due_witness :
  exists o, sendEventIfNeed sample_config [mkHistoryData 900 (f64_of_Z 5)] true 900 sample_event 3
      (mkJudgeState ∅ ∅ ∅ ∅ [] [])
    = Ok (match o with Some e => recorded sample_config e (mkJudgeState ∅ ∅ ∅ ∅ [] []) | None => mkJudgeState ∅ ∅ ∅ ∅ [] [] end) /\
    o = Some (Event_setCurrentStep 1 (Event_setStatus "PROBLEM" sample_event)).
Proof.
  destruct (sendEventIfNeed_due sample_config [mkHistoryData 900 (f64_of_Z 5)] true 900 sample_event 3
    (mkJudgeState ∅ ∅ ∅ ∅ [] [])) as (o & E & He & Ho); [done | left; by eexists | apply map_Forall_empty |].
  exists o. split; [rewrite E; by apply He|]. apply Ho. apply due_first; [done | cbn [LastEvents]; by rewrite lookup_empty | done].
Defined.

(** With alarms disabled the first event that is due panics. *)
Example no_redis_pool :
  sendEventIfNeed (mkJudgeConfig 11 false 300 (fun p => "event:p" +:+ strconv_Itoa p))
    [mkHistoryData 900 (f64_of_Z 5)] true 900 sample_event 3 (mkJudgeState ∅ ∅ ∅ ∅ [] []) = Panic NilDereference.
Proof. vm_compute. reflexivity. Qed.
