(* ===== verification/JudgeStore.v ===== *)
(** modules/judge/store/history.go, modules/judge/cron and
    modules/judge/rpc/receiver.go: the 256 shards of recent points, the points
    received, the rules pulled from the heartbeat server, and the cleaner. *)
From Stdlib Require Import Ascii ZArith.
From stdpp Require Import base list gmap strings numbers sorting.
From S2P Require Import Prelude GoString GoFloat GoHash Utils Model JudgeList JudgeFunc JudgeEvent.

Local Open Scope Z_scope.

(** ** JudgeItemMap *)

Abbreviation JudgeItemMap := (gmap string SafeLinkedList).

Definition JudgeItemMap_Get (this : JudgeItemMap) (key : string) : option SafeLinkedList := this !! key.
Definition JudgeItemMap_Set (this : JudgeItemMap) (key : string) (val : SafeLinkedList) : JudgeItemMap :=
  <[key := val]> this.
Definition JudgeItemMap_Len (this : JudgeItemMap) : Z := Z.of_nat (size this).
Definition JudgeItemMap_Delete (this : JudgeItemMap) (key : string) : JudgeItemMap := delete key this.

Definition JudgeItemMap_BatchDelete (this : JudgeItemMap) (keys : list string) : JudgeItemMap :=
  fold_left (fun m key => delete key m) keys this.

(** The keys whose newest point is older than [before]. *)
Definition stale_keys `{MapRange} (this : JudgeItemMap) (before : Z) : list string :=
  omap (fun '(key, L) =>
    match SafeLinkedList_Front L with
    | None => None
    | Some front => if JudgeItem_Timestamp front <? before then Some key else None
    end) (range_pairs this).
Definition JudgeItemMap_CleanStale `{MapRange} (this : JudgeItemMap) (before : Z) : JudgeItemMap :=
  JudgeItemMap_BatchDelete this (stale_keys this before).

(** The list is shared: a push changes the shard's list in place. *)
Definition JudgeItemMap_PushFrontAndMaintain `{MapRange} (cfg : JudgeConfig) (this : JudgeItemMap) (key : string)
    (val : JudgeItem) (maxCount now : Z) (st : JudgeState) : result (JudgeItemMap * JudgeState) :=
  match JudgeItemMap_Get this key with
  | Some linkedList =>
      let! (linkedList, needJudge) := SafeLinkedList_PushFrontAndMaintain linkedList val maxCount in
      let this := JudgeItemMap_Set this key linkedList in
      if needJudge : bool
      then let! st := Judge cfg linkedList val now st in Ok (this, st)
      else Ok (this, st)
  | None =>
      let safeList := SafeLinkedList_PushFront [] val in
      let this := JudgeItemMap_Set this key safeList in
      let! st := Judge cfg safeList val now st in Ok (this, st)
  end.

(** ** HistoryBigMap *)

Definition shard_digits : list string :=
  ["0"; "1"; "2"; "3"; "4"; "5"; "6"; "7"; "8"; "9"; "a"; "b"; "c"; "d"; "e"; "f"].

(** [arr[i]+arr[j]], in the order of the two loops. *)
Definition shard_names : list string :=
  shard_digits ≫= fun i => map (fun j => i +:+ j) shard_digits.

Definition InitHistoryBigMap : gmap string JudgeItemMap :=
  fold_left (fun m name => <[name := ∅]> m) shard_names ∅.

(** The whole state of the service. *)
Record JudgeWorld := mkJudgeWorld {
  HistoryBigMap : gmap string JudgeItemMap;
  judge_state : JudgeState }.

(** ** cron/cleaner.go *)

(** [store.HistoryBigMap[name].CleanStale(before)]. *)
Definition clean_shard `{MapRange} (before : Z) (m : gmap string JudgeItemMap) (name : string)
    : result (gmap string JudgeItemMap) :=
  match m !! name with
  | None => Panic NilDereference
  | Some shard => Ok (<[name := JudgeItemMap_CleanStale shard before]> m)
  end.
Definition cleanStale `{MapRange} (now : Z) (w : JudgeWorld) : result JudgeWorld :=
  let before := i64 (now - 3600 * 24 * 7) in
  let! m := rfold (clean_shard before) (HistoryBigMap w) shard_names in
  Ok (mkJudgeWorld m (judge_state w)).

(** ** cron/strategy.go *)

(** [if _, exists := m[key]; exists { m[key] = append(m[key], v) } else { ... }]. *)
Definition map_append {V : Type} (m : gmap string (list V)) (key : string) (v : V) : gmap string (list V) :=
  match m !! key with
  | Some l => <[key := l ++ [v]]> m
  | None => <[key := [v]]> m
  end.

Definition rebuildStrategyMap (HostStrategies : list HostStrategy) (st : JudgeState) : JudgeState :=
  let m := fold_left (fun m hs =>
    fold_left (fun m strategy =>
      map_append m (HostStrategy_Hostname hs +:+ "/" +:+ Strategy_Metric strategy) strategy)
      (HostStrategy_Strategies hs) m) HostStrategies ∅ in
  SafeStrategyMap_ReInit m st.

Definition rebuildExpressionMap `{MapRange} (Expressions : list Expression) (st : JudgeState) : JudgeState :=
  let m := fold_left (fun m exp =>
    fold_left (fun m '(k, v) => map_append m (Expression_Metric exp +:+ "/" +:+ k +:+ "=" +:+ v) exp)
      (range_pairs (Expression_Tags exp)) m) Expressions ∅ in
  SafeExpressionMap_ReInit m st.

Definition syncFilter `{MapRange} (st : JudgeState) : JudgeState :=
  let m := fold_left (fun (m : gmap string string) '(_, strategies) =>
    fold_left (fun (m : gmap string string) strategy => <[Strategy_Metric strategy := Strategy_Metric strategy]> m) strategies m)
    (range_pairs (StrategyMap st)) ∅ in
  let m := fold_left (fun (m : gmap string string) '(_, expressions) =>
    fold_left (fun (m : gmap string string) expression => <[Expression_Metric expression := Expression_Metric expression]> m) expressions m)
    (range_pairs (ExpressionMap st)) m in
  SafeFilterMap_ReInit m st.

(** A call to the heartbeat server fails or brings the rules; a failed call
    leaves the map as it is. *)
Definition syncStrategies (resp : option (list HostStrategy)) (st : JudgeState) : JudgeState :=
  match resp with None => st | Some hs => rebuildStrategyMap hs st end.
Definition syncExpression `{MapRange} (resp : option (list Expression)) (st : JudgeState) : JudgeState :=
  match resp with None => st | Some xs => rebuildExpressionMap xs st end.

(** One round of [SyncStrategies]. *)
Definition SyncStrategies `{MapRange} (rs : option (list HostStrategy)) (rx : option (list Expression))
    (w : JudgeWorld) : JudgeWorld :=
  mkJudgeWorld (HistoryBigMap w) (syncFilter (syncExpression rx (syncStrategies rs (judge_state w)))).

(** ** rpc/receiver.go *)
Definition Judge_Send_one `{MapRange} (cfg : JudgeConfig) (now : Z) (w : JudgeWorld) (item : JudgeItem)
    : result JudgeWorld :=
  if SafeFilterMap_Exists (JudgeItem_Metric item) (judge_state w) then
    let pk := JudgeItem_PrimaryKey item in
    let! name := str_slice pk 0 2 in
    match HistoryBigMap w !! name with
    | None => Panic NilDereference
    | Some shard =>
        let! (shard, st) :=
          JudgeItemMap_PushFrontAndMaintain cfg shard pk item (Config_Remain cfg) now (judge_state w) in
        Ok (mkJudgeWorld (<[name := shard]> (HistoryBigMap w)) st)
    end
  else Ok w.

Definition Judge_Send `{MapRange} (cfg : JudgeConfig) (now : Z) (items : list JudgeItem) (w : JudgeWorld)
    : result JudgeWorld :=
  rfold (Judge_Send_one cfg now) w items.

Definition initial_state : JudgeState := mkJudgeState ∅ ∅ ∅ ∅ [] [].
Definition initial_world : JudgeWorld := mkJudgeWorld InitHistoryBigMap initial_state.

(** * Runs of the service *)

(** What the goroutines of the service do, one step at a time: an RPC handles an
    item of a batch, the cron job pulls the rules of one kind or rebuilds the
    filter, the cleaner runs. Items carry a counter type, as transfer sends them. *)
Inductive judge_step `{MapRange} (cfg : JudgeConfig) : JudgeWorld -> JudgeWorld -> Prop :=
  | step_send now item w w' :
      JudgeItem_JudgeType item <> "" ->
      Judge_Send_one cfg now w item = Ok w' -> judge_step cfg w w'
  | step_strategies hs w :
      Forall (fun h => Forall strategy_typed (HostStrategy_Strategies h)) hs ->
      judge_step cfg w (mkJudgeWorld (HistoryBigMap w) (rebuildStrategyMap hs (judge_state w)))
  | step_expressions xs w :
      Forall expression_typed xs ->
      judge_step cfg w (mkJudgeWorld (HistoryBigMap w) (rebuildExpressionMap xs (judge_state w)))
  | step_filter w :
      judge_step cfg w (mkJudgeWorld (HistoryBigMap w) (syncFilter (judge_state w)))
  | step_clean now w w' :
      cleanStale now w = Ok w' -> judge_step cfg w w'.

Definition reachable `{MapRange} (cfg : JudgeConfig) (w : JudgeWorld) : Prop :=
  rtc (judge_step cfg) initial_world w.

(** * The invariant *)

(** What holds of the list stored under a key: points of one series, newest
    first, no more than the configured number. *)
Record list_inv (cfg : JudgeConfig) (key : string) (L : SafeLinkedList) : Prop := {
  list_nonempty : L <> [];
  list_descending : descending L;
  list_typed : typed L;
  list_bounded : Z.of_nat (length L) <= Config_Remain cfg;
  list_series : Forall (fun it => JudgeItem_PrimaryKey it = key) L }.

Record shards_inv (cfg : JudgeConfig) (m : gmap string JudgeItemMap) : Prop := {
  shards_all name : name ∈ shard_names -> is_Some (m !! name);
  shards_lists name shard key L :
    m !! name = Some shard -> shard !! key = Some L -> list_inv cfg key L /\ str_take 2 key = name }.

Record world_inv (cfg : JudgeConfig) (w : JudgeWorld) : Prop := {
  world_shards : shards_inv cfg (HistoryBigMap w);
  world_rules : rules_typed (judge_state w);
  world_events : judge_inv cfg (judge_state w) }.

Lemma list_inv_push cfg key L v L' b :
  1 <= Config_Remain cfg -> list_inv cfg key L -> JudgeItem_JudgeType v <> "" -> JudgeItem_PrimaryKey v = key ->
  SafeLinkedList_PushFrontAndMaintain L v (Config_Remain cfg) = Ok (L', b) ->
  list_inv cfg key L' /\ (b = true -> head L' = Some v).
Proof.
  intros Hr HL Hv Hk E. split.
  2:{ intros ->. by eapply PushFrontAndMaintain_front. }
  destruct (PushFrontAndMaintain_inv L v (Config_Remain cfg) L' b) as (Hd & Ht & Hl);
    [lia | by destruct HL.. | done |].
  rewrite PushFrontAndMaintain_spec in E by lia. injection E as E.
  split; [|done..|]; destruct (accepts L v); injection E as <- <-; try apply HL.
  - by destruct (Z.to_nat (Config_Remain cfg)) eqn:?; [lia|].
  - apply Forall_take. constructor; [done|]. apply HL.
Qed.

Lemma list_inv_one cfg v :
  1 <= Config_Remain cfg -> JudgeItem_JudgeType v <> "" -> list_inv cfg (JudgeItem_PrimaryKey v) [v].
Proof. intros Hr Hv. split; [done | repeat constructor | by constructor | simpl; lia | by constructor]. Qed.

(** ** Every key has its shard *)

Lemma is_hex_digit c : is_hex c = true -> String c "" ∈ shard_digits.
Proof.
  intros H. apply (bool_decide_unpack _). revert H.
  destruct c as [[] [] [] [] [] [] [] []]; vm_compute; done.
Qed.

Lemma shard_of_key key :
  (2 <= String.length key)%nat -> str_forall is_hex key = true ->
  str_slice key 0 2 = Ok (str_take 2 key) /\ str_take 2 key ∈ shard_names.
Proof.
  destruct key as [|c [|d key]]; simpl; try lia. intros _ [Hc [Hd _]%andb_true_iff]%andb_true_iff. split.
  - unfold str_slice, str_len. rewrite (proj2 (Z.ltb_ge _ 2)) by (simpl; lia). done.
  - unfold shard_names. apply list_elem_of_bind. exists (String c ""). split; [|by apply is_hex_digit].
    apply list_elem_of_fmap. exists (String d ""). split; [done | by apply is_hex_digit].
Qed.

Lemma shard_of_item item :
  let pk := JudgeItem_PrimaryKey item in
  str_slice pk 0 2 = Ok (str_take 2 pk) /\ str_take 2 pk ∈ shard_names.
Proof. simpl. destruct (Md5_shape (PK (JudgeItem_Endpoint item) (JudgeItem_Metric item) (JudgeItem_Tags item))).
  apply shard_of_key; [|done]. unfold JudgeItem_PrimaryKey. lia. Qed.

Lemma fold_insert_lookup {V : Type} (v : V) (ks : list string) (m : gmap string V) k :
  fold_left (fun m name => <[name := v]> m) ks m !! k = if decide (k ∈ ks) then Some v else m !! k.
Proof.
  revert m; induction ks as [|k' ks IH]; intros m; cbn [fold_left].
  - rewrite decide_False; [done|]. by apply not_elem_of_nil.
  - rewrite IH. destruct (decide (k ∈ ks)); [rewrite decide_True; [done | by right]|].
    destruct (decide (k = k')) as [->|]; [rewrite lookup_insert_eq, decide_True; [done | left]|].
    rewrite lookup_insert_ne, decide_False; [done| |done]. rewrite elem_of_cons. tauto.
Qed.

Lemma initial_inv cfg : world_inv cfg initial_world.
Proof.
  split; [split | done | split; [intros id; exact (lookup_empty id) | constructor | done]].
  - intros name Hn. simpl. unfold InitHistoryBigMap. rewrite fold_insert_lookup, decide_True by done. by eexists.
  - intros name shard key L. simpl. unfold InitHistoryBigMap. rewrite fold_insert_lookup.
    case_decide; [|by rewrite lookup_empty]. intros [= <-]. by rewrite lookup_empty.
Qed.

Lemma shards_insert cfg m name shard :
  shards_inv cfg m ->
  (forall key L, shard !! key = Some L -> list_inv cfg key L /\ str_take 2 key = name) ->
  shards_inv cfg (<[name := shard]> m).
Proof.
  intros Hm Hs. split.
  - intros n Hn. destruct (decide (name = n)) as [->|]; [rewrite lookup_insert_eq; by eexists|].
    rewrite lookup_insert_ne by done. by apply Hm.
  - intros n sh key L. destruct (decide (name = n)) as [->|].
    + rewrite lookup_insert_eq. intros [= <-]. apply Hs.
    + rewrite lookup_insert_ne by done. apply Hm.
Qed.

(** ** The cleaner *)

Lemma BatchDelete_lookup (this : JudgeItemMap) ks k :
  JudgeItemMap_BatchDelete this ks !! k = if decide (k ∈ ks) then None else this !! k.
Proof.
  unfold JudgeItemMap_BatchDelete. revert this; induction ks as [|k' ks IH]; intros this; cbn [fold_left].
  - rewrite decide_False; [done|]. by apply not_elem_of_nil.
  - rewrite IH. destruct (decide (k ∈ ks)); [rewrite decide_True; [done | by right]|].
    destruct (decide (k = k')) as [->|]; [rewrite lookup_delete_eq, decide_True; [done | left]|].
    rewrite lookup_delete_ne, decide_False; [done| |done]. rewrite elem_of_cons. tauto.
Qed.

(** A key survives a clean-up iff its newest point is not older than [before]. *)
Definition fresh (before : Z) (L : SafeLinkedList) : bool :=
  match L with [] => true | front :: _ => before <=? JudgeItem_Timestamp front end.

Section clean.
Context `{MapRange}.

Lemma elem_of_stale_keys (this : JudgeItemMap) before key :
  key ∈ stale_keys this before <-> exists L, this !! key = Some L /\ fresh before L = false.
Proof using Type.
  unfold stale_keys. rewrite list_elem_of_omap. split.
  - intros ([k L] & Hk%elem_of_range_pairs & E). exists L.
    destruct L as [|front L]; simpl in *; [done|]. rewrite Z.leb_antisym.
    case_bool; [|done]. injection E as ->. done.
  - intros (L & HL & Hf). exists (key, L). split; [by apply elem_of_range_pairs|].
    destruct L as [|front L]; simpl in *; [done|]. rewrite Z.leb_antisym in Hf. by case_bool.
Qed.

Lemma CleanStale_lookup (this : JudgeItemMap) before key L :
  JudgeItemMap_CleanStale this before !! key = Some L <-> this !! key = Some L /\ fresh before L = true.
Proof using Type.
  unfold JudgeItemMap_CleanStale. rewrite BatchDelete_lookup. case_decide as Hk.
  - apply elem_of_stale_keys in Hk as (L' & HL' & Hf). split; [done|]. intros [? ?]. congruence.
  - destruct (this !! key) as [L'|] eqn:E; [|naive_solver]. split; [|naive_solver]. intros [= ->].
    split; [done|]. destruct (fresh before L) eqn:Ef; [done|]. destruct Hk.
    apply elem_of_stale_keys. by exists L.
Qed.

Lemma clean_shards names before m :
  NoDup names -> (forall name, name ∈ names -> is_Some (m !! name)) ->
  exists m', rfold (clean_shard before) m names = Ok m' /\
    forall name, m' !! name = if decide (name ∈ names)
      then (fun shard => JudgeItemMap_CleanStale shard before) <$> m !! name else m !! name.
Proof using Type.
  revert m; induction names as [|n names IH]; intros m Hnd Hm.
  - exists m. split; [done|]. intros name. rewrite decide_False; [done | apply not_elem_of_nil].
  - apply NoDup_cons in Hnd as [Hn Hnd]. destruct (Hm n) as [shard Hs]; [left|].
    cbn [rfold]. unfold clean_shard at 1. rewrite Hs. cbn [rbind].
    destruct (IH (<[n := JudgeItemMap_CleanStale shard before]> m)) as (m' & -> & Hm'); [done| |].
    { intros name Hin. destruct (decide (n = name)) as [->|]; [done|].
      rewrite lookup_insert_ne by done. apply Hm. by right. }
    exists m'. split; [done|]. intros name. rewrite Hm'.
    destruct (decide (n = name)) as [->|Hne].
    + rewrite decide_False, decide_True, lookup_insert_eq, Hs by (done || left). done.
    + rewrite lookup_insert_ne by done. apply decide_ext. rewrite elem_of_cons. naive_solver.
Qed.

Lemma shard_names_NoDup : NoDup shard_names.
Proof using Type. apply (bool_decide_unpack _). vm_compute. exact I. Qed.

Lemma cleanStale_spec cfg now w :
  shards_inv cfg (HistoryBigMap w) ->
  exists m, cleanStale now w = Ok (mkJudgeWorld m (judge_state w)) /\
    forall name shard, name ∈ shard_names -> HistoryBigMap w !! name = Some shard ->
      m !! name = Some (JudgeItemMap_CleanStale shard (i64 (now - 3600 * 24 * 7))).
Proof using Type.
  intros Hm. destruct (clean_shards shard_names (i64 (now - 3600 * 24 * 7)) (HistoryBigMap w)) as (m & E & Hlk);
    [apply shard_names_NoDup | apply Hm |].
  exists m. split; [unfold cleanStale; by rewrite E|].
  intros name shard Hin Hs. rewrite Hlk, decide_True, Hs by done. done.
Qed.
End clean.

(** * Every step keeps the invariant *)

Section steps.
Context `{MapRange} (cfg : JudgeConfig) (Hremain : 1 <= Config_Remain cfg).

(** The list a push judges, and the shard it leaves. *)
Lemma PushFrontAndMaintain_world name shard item now st shard' st' :
  (forall key L, shard !! key = Some L -> list_inv cfg key L /\ str_take 2 key = name) ->
  str_take 2 (JudgeItem_PrimaryKey item) = name -> JudgeItem_JudgeType item <> "" ->
  rules_typed st -> judge_inv cfg st ->
  JudgeItemMap_PushFrontAndMaintain cfg shard (JudgeItem_PrimaryKey item) item (Config_Remain cfg) now st
    = Ok (shard', st') ->
  (forall key L, shard' !! key = Some L -> list_inv cfg key L /\ str_take 2 key = name) /\
  judge_inv cfg st' /\ same_rules st st'.
Proof using Hremain.
  intros Hs Hn Hty Hr HI. unfold JudgeItemMap_PushFrontAndMaintain, JudgeItemMap_Get, JudgeItemMap_Set.
  assert (forall L', list_inv cfg (JudgeItem_PrimaryKey item) L' ->
    forall key L, <[JudgeItem_PrimaryKey item := L']> shard !! key = Some L ->
      list_inv cfg key L /\ str_take 2 key = name) as Hins.
  { intros L' HL' key L. destruct (decide (JudgeItem_PrimaryKey item = key)) as [<-|].
    - rewrite lookup_insert_eq. intros [= <-]. done.
    - rewrite lookup_insert_ne by done. apply Hs. }
  destruct (shard !! JudgeItem_PrimaryKey item) as [L|] eqn:EL; intros E; inv_ok.
  - destruct a as [L' b]. destruct (Hs _ _ EL) as [HL _].
    destruct (list_inv_push cfg (JudgeItem_PrimaryKey item) L item L' b) as [HL' Hhd]; [done..|].
    destruct b; inv_ok; (split; [by apply Hins|]); [|done].
    eapply Judge_inv; [apply HL' | by apply Hhd | done..].
  - pose proof (list_inv_one cfg item Hremain Hty) as HL'. split; [by apply Hins|].
    eapply Judge_inv; [apply HL' | done..].
Qed.

Lemma Send_one_inv now item w w' :
  JudgeItem_JudgeType item <> "" -> world_inv cfg w -> Judge_Send_one cfg now w item = Ok w' -> world_inv cfg w'.
Proof using Hremain.
  intros Hty [Hsh Hr HI]. unfold Judge_Send_one. destruct (SafeFilterMap_Exists _ _); [|intros; by inv_ok].
  destruct (shard_of_item item) as [-> Hin]. cbn [rbind].
  destruct (HistoryBigMap w !! _) as [shard|] eqn:Esh; [|done]. intros E. inv_ok. destruct a as [shard' st'].
  inv_ok. destruct (PushFrontAndMaintain_world (str_take 2 (JudgeItem_PrimaryKey item)) shard item now
    (judge_state w) shard' st') as (Hl & HI' & Hr'); [| done.. |].
  - intros key L. by eapply shards_lists.
  - split; [by apply shards_insert | by eapply rules_typed_same | done].
Qed.

Lemma cleanStale_inv now w w' :
  world_inv cfg w -> cleanStale now w = Ok w' -> world_inv cfg w'.
Proof using Type.
  intros [Hsh Hr HI] E. unfold cleanStale in E. inv_ok. split; [|done..]. simpl.
  eapply (rfold_invariant (shards_inv cfg)); [|exact Hsh|exact Ha].
  intros m name m' _ Hm. unfold clean_shard. destruct (m !! name) as [shard|] eqn:Es; [|done].
  intros E'. inv_ok. apply shards_insert; [done|]. intros key L [HL _]%CleanStale_lookup.
  by eapply shards_lists.
Qed.
End steps.

(** ** The rules *)

Lemma map_append_lookup {V : Type} (m : gmap string (list V)) key v k :
  default [] (map_append m key v !! k) = default [] (m !! k) ++ (if decide (key = k) then [v] else []).
Proof.
  unfold map_append. destruct (m !! key) as [l|] eqn:E; case_decide as Hk; subst;
    rewrite ?lookup_insert_eq, ?lookup_insert_ne, ?E, ?app_nil_r by done; done.
Qed.

(** Grouping a list by key keeps, under each key, its values in their order. *)
Lemma fold_map_append {A V : Type} (f : A -> string * V) (l : list A) (m : gmap string (list V)) k :
  default [] (fold_left (fun m a => map_append m (f a).1 (f a).2) l m !! k)
  = default [] (m !! k) ++ omap (fun a => if decide ((f a).1 = k) then Some (f a).2 else None) l.
Proof.
  revert m; induction l as [|a l IH]; intros m; cbn [fold_left omap list_omap]; [by rewrite app_nil_r|].
  rewrite IH, map_append_lookup, <- app_assoc. f_equal. by case_decide.
Qed.

(** The strategies a host is judged by under a metric, in the order received. *)
Definition strategies_for (hs : list HostStrategy) (key : string) : list Strategy :=
  hs ≫= fun h => filter (fun s => HostStrategy_Hostname h +:+ "/" +:+ Strategy_Metric s = key)
                   (HostStrategy_Strategies h).

Lemma omap_filter {A : Type} (P : A -> Prop) `{forall a, Decision (P a)} (l : list A) :
  omap (fun a => if decide (P a) then Some a else None) l = filter P l.
Proof.
  induction l as [|a l IH]; cbn [omap list_omap]; [done|]. rewrite filter_cons.
  case_decide; cbn; by rewrite IH.
Qed.

Lemma rebuildStrategyMap_lookup hs st key :
  default [] (StrategyMap (rebuildStrategyMap hs st) !! key) = strategies_for hs key.
Proof.
  unfold rebuildStrategyMap, SafeStrategyMap_ReInit. cbn [StrategyMap].
  assert (forall m : gmap string (list Strategy), default [] (fold_left (fun m hs =>
    fold_left (fun m strategy =>
      map_append m (HostStrategy_Hostname hs +:+ "/" +:+ Strategy_Metric strategy) strategy)
      (HostStrategy_Strategies hs) m) hs m !! key) = default [] (m !! key) ++ strategies_for hs key) as Hg.
  { induction hs as [|h hs IH]; intros m; cbn [fold_left]; [by rewrite app_nil_r|].
    rewrite IH. rewrite (fold_map_append (fun s => (HostStrategy_Hostname h +:+ "/" +:+ Strategy_Metric s, s))).
    unfold strategies_for. cbn [mbind list_bind fst snd]. by rewrite omap_filter, app_assoc. }
  rewrite Hg, lookup_empty. done.
Qed.

(** An expression is filed under each of its tags. *)
Definition expression_keys `{MapRange} (x : Expression) : list string :=
  map (fun '(k, v) => Expression_Metric x +:+ "/" +:+ k +:+ "=" +:+ v) (range_pairs (Expression_Tags x)).

Lemma rebuildExpressionMap_elem `{MapRange} xs st key x :
  x ∈ default [] (ExpressionMap (rebuildExpressionMap xs st) !! key) <-> x ∈ xs /\ key ∈ expression_keys x.
Proof.
  unfold rebuildExpressionMap, SafeExpressionMap_ReInit. cbn [ExpressionMap].
  assert (forall m : gmap string (list Expression), x ∈ default [] (fold_left (fun m exp =>
    fold_left (fun m '(k, v) => map_append m (Expression_Metric exp +:+ "/" +:+ k +:+ "=" +:+ v) exp)
      (range_pairs (Expression_Tags exp)) m) xs m !! key)
    <-> x ∈ default [] (m !! key) \/ (x ∈ xs /\ key ∈ expression_keys x)) as Hg.
  { induction xs as [|y xs IH]; intros m; cbn [fold_left].
    { split; [by left|]. intros [?|[[]%not_elem_of_nil _]]. done. }
    rewrite IH.
    assert (forall l : list (string * string), x ∈ default [] (fold_left (fun m '(k, v) =>
      map_append m (Expression_Metric y +:+ "/" +:+ k +:+ "=" +:+ v) y) l m !! key) <->
      x ∈ default [] (m !! key) \/ (x = y /\ key ∈ map (fun '(k, v) => Expression_Metric y +:+ "/" +:+ k +:+ "=" +:+ v) l)) as Hl.
    { clear. intros l. revert m; induction l as [|[k v] l IH]; intros m; cbn [fold_left map].
      - split; [by left|]. intros [?|[_ []%not_elem_of_nil]]. done.
      - rewrite IH, map_append_lookup, elem_of_app, elem_of_cons. case_decide as Hk.
        + rewrite list_elem_of_singleton. naive_solver.
        + rewrite elem_of_nil. naive_solver. }
    rewrite Hl, elem_of_cons. unfold expression_keys. naive_solver. }
  rewrite Hg, lookup_empty, elem_of_nil. naive_solver.
Qed.

Lemma strategies_for_elem hs key s :
  s ∈ strategies_for hs key <->
  exists h, h ∈ hs /\ s ∈ HostStrategy_Strategies h /\ HostStrategy_Hostname h +:+ "/" +:+ Strategy_Metric s = key.
Proof.
  unfold strategies_for. rewrite list_elem_of_bind. split.
  - intros (h & Hs & Hh). apply list_elem_of_filter in Hs as [? ?]. by exists h.
  - intros (h & Hh & Hs & E). exists h. split; [|done]. by apply list_elem_of_filter.
Qed.

Lemma map_Forall_default {V : Type} (P : V -> Prop) (m : gmap string (list V)) :
  (forall key v, v ∈ default [] (m !! key) -> P v) -> map_Forall (fun _ => Forall P) m.
Proof. intros Hm key l Hl. apply list.Forall_forall. intros v Hv. apply (Hm key). by rewrite Hl. Qed.

Section rules.
Context `{MapRange} (cfg : JudgeConfig).

Lemma rebuildStrategyMap_typed hs st :
  Forall (fun h => Forall strategy_typed (HostStrategy_Strategies h)) hs -> rules_typed st ->
  rules_typed (rebuildStrategyMap hs st).
Proof using Type.
  intros Hhs [_ Hx]. split; [|done]. apply map_Forall_default. intros key s.
  rewrite rebuildStrategyMap_lookup. intros (h & Hh & Hs & _)%strategies_for_elem.
  rewrite list.Forall_forall in Hhs. specialize (Hhs _ Hh). rewrite list.Forall_forall in Hhs. by apply Hhs.
Qed.

Lemma rebuildExpressionMap_typed xs st :
  Forall expression_typed xs -> rules_typed st -> rules_typed (rebuildExpressionMap xs st).
Proof using Type.
  intros Hxs [Hs _]. split; [done|]. apply map_Forall_default. intros key x.
  rewrite rebuildExpressionMap_elem. intros [Hx _]. rewrite list.Forall_forall in Hxs. by apply Hxs.
Qed.

Lemma judge_inv_events st st' :
  LastEvents st' = LastEvents st -> Recorded st' = Recorded st -> Redis_LPUSH st' = Redis_LPUSH st ->
  judge_inv cfg st -> judge_inv cfg st'.
Proof using Type.
  intros E1 E2 E3 HI. split; unfold history_of; rewrite ?E1, ?E2, ?E3; apply HI.
Qed.

Lemma reachable_inv w : 1 <= Config_Remain cfg -> reachable cfg w -> world_inv cfg w.
Proof using Type.
  intros Hr Hw. unfold reachable in Hw.
  refine (rtc_ind_r (world_inv cfg) initial_world (initial_inv cfg) _ w Hw).
  intros w1 w2 _ Hs HI. destruct Hs as [now item w1 w2 Hty E|hs w1 Hhs|xs w1 Hxs|w1|now w1 w2 E].
  - by eapply Send_one_inv.
  - destruct HI as [Hsh Hru HI]. split; [done | by apply rebuildStrategyMap_typed | by apply (judge_inv_events (judge_state w1))].
  - destruct HI as [Hsh Hru HI]. split; [done | by apply rebuildExpressionMap_typed | by apply (judge_inv_events (judge_state w1))].
  - destruct HI as [Hsh Hru HI]. split; [done | done | by apply (judge_inv_events (judge_state w1))].
  - by eapply cleanStale_inv.
Qed.

(** ** The filter *)

Lemma fold_insert_elem {A : Type} (f : A -> string) (l : list A) (m : gmap string string) k :
  is_Some (fold_left (fun (m : gmap string string) a => <[f a := f a]> m) l m !! k) <->
  is_Some (m !! k) \/ exists a, a ∈ l /\ f a = k.
Proof using Type.
  revert m; induction l as [|a l IH]; intros m; cbn [fold_left].
  - split; [by left|]. intros [?|(a & ?%not_elem_of_nil & _)]; done.
  - rewrite IH, lookup_insert_is_Some'. setoid_rewrite elem_of_cons. split.
    + intros [[?|?]|(b & ? & ?)]; [right; exists a; auto | by left | right; exists b; auto].
    + intros [?|(b & [->|?] & ?)]; [auto | auto | right; by exists b].
Qed.

Lemma fold_fold_insert_elem {A : Type} (f : A -> string) (l : list (string * list A)) (m : gmap string string) k :
  is_Some (fold_left (fun (m : gmap string string) '(_, r) =>
    fold_left (fun (m : gmap string string) a => <[f a := f a]> m) r m) l m !! k) <->
  is_Some (m !! k) \/ exists key r a, (key, r) ∈ l /\ a ∈ r /\ f a = k.
Proof using Type.
  revert m; induction l as [|[key r] l IH]; intros m; cbn [fold_left].
  - split; [by left|]. intros [?|(key & r & a & ?%not_elem_of_nil & _)]; done.
  - rewrite IH, fold_insert_elem. setoid_rewrite elem_of_cons. naive_solver.
Qed.

Lemma syncFilter_spec st metric :
  SafeFilterMap_Exists metric (syncFilter st) = true <->
  (exists key ss s, StrategyMap st !! key = Some ss /\ s ∈ ss /\ Strategy_Metric s = metric) \/
  (exists key xs x, ExpressionMap st !! key = Some xs /\ x ∈ xs /\ Expression_Metric x = metric).
Proof using Type.
  transitivity (is_Some (FilterMap (syncFilter st) !! metric)).
  { unfold SafeFilterMap_Exists. destruct (FilterMap _ !! _); split; try done; intros []; done. }
  unfold syncFilter, SafeFilterMap_ReInit. cbn [FilterMap].
  rewrite (fold_fold_insert_elem Expression_Metric), (fold_fold_insert_elem Strategy_Metric), lookup_empty.
  setoid_rewrite elem_of_range_pairs. rewrite is_Some_alt. naive_solver.
Qed.

(** ** The expressions met *)

Lemma key_pair metric k v : metric +:+ "/" +:+ k +:+ "=" +:+ v = metric +:+ String "/" (k +:+ "=" +:+ v).
Proof using Type. done. Qed.

Lemma elem_of_buildKeys it key :
  key ∈ buildKeysFromMetricAndTags it <->
  (exists k v, JudgeItem_Tags it !! k = Some v /\ key = JudgeItem_Metric it +:+ "/" +:+ k +:+ "=" +:+ v) \/
  key = JudgeItem_Metric it +:+ "/" +:+ "endpoint" +:+ "=" +:+ JudgeItem_Endpoint it.
Proof using Type.
  unfold buildKeysFromMetricAndTags. rewrite elem_of_app, list_elem_of_singleton.
  change ("/endpoint=" +:+ JudgeItem_Endpoint it) with ("/" +:+ "endpoint" +:+ "=" +:+ JudgeItem_Endpoint it).
  rewrite list_elem_of_fmap. split; (intros [Hk|Hk]; [left|by right]).
  - destruct Hk as ([k v] & -> & Hk%elem_of_range_pairs). by exists k, v.
  - destruct Hk as (k & v & Hk & ->). exists (k, v). split; [done|]. by apply elem_of_range_pairs.
Qed.

Lemma elem_of_expression_keys x key :
  key ∈ expression_keys x <->
  exists k v, Expression_Tags x !! k = Some v /\ key = Expression_Metric x +:+ "/" +:+ k +:+ "=" +:+ v.
Proof using Type.
  unfold expression_keys. rewrite list_elem_of_fmap. split.
  - intros ([k v] & -> & Hk%elem_of_range_pairs). by exists k, v.
  - intros (k & v & Hk & ->). exists (k, v). split; [done|]. by apply elem_of_range_pairs.
Qed.

(** The expressions of a pull that apply to an item. *)
Definition applies (it : JudgeItem) (x : Expression) : Prop :=
  Expression_Metric x = JudgeItem_Metric it /\ Expression_Tags x <> ∅ /\ Expression_Tags x ⊆ copyItemTags it.

Lemma met_expressions_spec xs st it x :
  str_free "/" (JudgeItem_Metric it) = true -> Forall (fun x => str_free "/" (Expression_Metric x) = true) xs ->
  x ∈ met_expressions (ExpressionMap (rebuildExpressionMap xs st)) it <-> x ∈ xs /\ applies it x.
Proof using Type.
  intros Hm Hxs. unfold met_expressions, applies. rewrite list_elem_of_bind. unfold filterRelatedExpressions.
  setoid_rewrite list_elem_of_In at 1. setoid_rewrite List.filter_In. setoid_rewrite <- list_elem_of_In.
  setoid_rewrite rebuildExpressionMap_elem. setoid_rewrite expression_related_spec. split.
  - intros (key & ((Hx & Hk) & Hs) & Hb). split; [done|].
    apply elem_of_expression_keys in Hk as (k & v & Hkv & ->). split_and!; [|by intros E; rewrite E in Hkv|done].
    rewrite list.Forall_forall in Hxs. specialize (Hxs _ Hx).
    apply elem_of_buildKeys in Hb as [(k' & v' & _ & E)|E]; by apply str_sep_inj in E as [-> _].
  - intros (Hx & Emet & Hne & Hs). destruct (map_choose (Expression_Tags x)) as (k & v & Hkv); [done|].
    exists (Expression_Metric x +:+ "/" +:+ k +:+ "=" +:+ v). split_and!; [done| |done|].
    + apply elem_of_expression_keys. by exists k, v.
    + apply elem_of_buildKeys. rewrite Emet. rewrite map_subseteq_spec in Hs. specialize (Hs _ _ Hkv).
      rewrite copyItemTags_lookup in Hs. destruct (JudgeItem_Tags it !! k) as [v'|] eqn:Ek.
      * left. exists k, v. split; [congruence | done].
      * right. case_decide; [|done]. by simplify_eq.
Qed.
End rules.

(** * Sending never panics *)

(** A function text that does not make the reader panic, and a number of points
    that does not overflow an int. *)
Definition func_safe (func operator : string) (rightValue : f64) : Prop :=
  match ParseFuncFromString func operator rightValue with
  | Ok (inr fn) => need fn < int64_max
  | Ok (inl _) => True
  | Panic _ => False
  end.
Definition strategy_safe (s : Strategy) : Prop :=
  func_safe (Strategy_Func s) (Strategy_Operator s) (Strategy_RightValue s).
Definition expression_safe (x : Expression) : Prop :=
  func_safe (Expression_Func x) (Expression_Operator x) (Expression_RightValue x).
Definition rules_safe (st : JudgeState) : Prop :=
  map_Forall (fun _ => Forall strategy_safe) (StrategyMap st) /\
  map_Forall (fun _ => Forall expression_safe) (ExpressionMap st).

(** A state the judgement can run in. *)
Record judge_ready (cfg : JudgeConfig) (st : JudgeState) : Prop := {
  ready_inv : judge_inv cfg st;
  ready_typed : rules_typed st;
  ready_safe : rules_safe st }.

Lemma judgeItemWith_safe cfg L it func op rv mk maxStep now st :
  Alarm_Enabled cfg = true -> descending L -> typed L -> head L = Some it -> func_safe func op rv ->
  (forall lv, has_rule (mk lv)) -> judge_inv cfg st ->
  exists st', judgeItemWith cfg L func op rv mk maxStep now st = Ok st'.
Proof.
  intros Hen Hd Ht Hhd Hf Hmk HI. unfold judgeItemWith, func_safe in *.
  destruct (ParseFuncFromString func op rv) as [[err|fn]|] eqn:Ep; [by eexists | | done]. cbn [rbind].
  apply ParseFunc_int_args in Ep.
  destruct (decide (1 <= need fn <= Z.of_nat (length (points L)))) as [Hn|Hn].
  - destruct (Compute_spec L Ht fn) as (lv & b & Ec & _); [done | lia | lia |].
    rewrite Ec. cbn [rbind]. apply Compute_history in Ec. destruct L as [|it' L]; [done|].
    destruct (HistoryData_bound _ _ _ _ Hd Ec) as [Hne _].
    destruct (sendEventIfNeed_spec cfg (take (Z.to_nat (need fn)) (points (it' :: L))) b now (mk lv) maxStep st)
      as (o & -> & _); [done | done | by eapply judge_inv_wf | rewrite outcome_enabled by done; by eexists].
  - destruct (Compute_short L Ht fn) as [vs ->]; [done | lia | by eexists].
Qed.

Lemma ready_same cfg st st' : same_rules st st' -> judge_inv cfg st' -> judge_ready cfg st -> judge_ready cfg st'.
Proof.
  intros Hs HI [_ Ht Hr]. split; [done | by eapply rules_typed_same |].
  destruct Hs as (E1 & E2 & _). unfold rules_safe. by rewrite E1, E2.
Qed.

Lemma elem_of_lookup_Forall {V : Type} (P : V -> Prop) (m : gmap string (list V)) key v :
  map_Forall (fun _ => Forall P) m -> v ∈ default [] (m !! key) -> P v.
Proof.
  intros Hm Hv. destruct (m !! key) as [l|] eqn:E; [|by apply not_elem_of_nil in Hv].
  specialize (Hm _ _ E). rewrite list.Forall_forall in Hm. by apply Hm.
Qed.

Section send_safe.
Context `{MapRange} (cfg : JudgeConfig) (enabled : Alarm_Enabled cfg = true).

(** Each judgement of a loop runs in the state the one before it leaves. *)
Lemma judge_all_safe {A : Type} (judge : JudgeState -> A -> result JudgeState) st l :
  (forall st a, a ∈ l -> judge_ready cfg st -> exists st', judge st a = Ok st' /\ judge_ready cfg st' /\ same_rules st st') ->
  judge_ready cfg st -> exists st', rfold judge st l = Ok st' /\ judge_ready cfg st' /\ same_rules st st'.
Proof using enabled.
  intros Hj Hst. apply (rfold_safe (fun st' => judge_ready cfg st' /\ same_rules st st')); [|done].
  intros st1 a Ha [Hr1 Hs1]. destruct (Hj st1 a Ha Hr1) as (st2 & -> & Hr2 & Hs2).
  exists st2. split; [done|]. split; [done|]. by transitivity st1.
Qed.

Lemma Judge_safe L it now st :
  descending L -> typed L -> head L = Some it -> judge_ready cfg st ->
  exists st', Judge cfg L it now st = Ok st'.
Proof using enabled.
  intros Hd Ht Hhd Hst. unfold Judge. rewrite CheckStrategy_rfold.
  destruct (judge_all_safe (judgeItemWithStrategy cfg L it now) st
    (List.filter (fun s => tags_related (Strategy_Tags s) (JudgeItem_Tags it))
      (default [] (StrategyMap st !! (JudgeItem_Endpoint it +:+ "/" +:+ JudgeItem_Metric it)))))
    as (st1 & -> & Hst1 & _); [|done|].
  { intros st1 s [Hs _]%list_elem_of_In%List.filter_In Hst1. apply list_elem_of_In in Hs.
    destruct (judgeItemWith_safe cfg L it (Strategy_Func s) (Strategy_Operator s) (Strategy_RightValue s)
      (strategy_event s it) (Strategy_MaxStep s) now st1) as [st2 E]; [done..| | |apply Hst1|].
    { eapply (elem_of_lookup_Forall strategy_safe); [apply Hst | exact Hs]. }
    { intros lv. left. by eexists. }
    assert (judge_inv cfg st2) by (eapply (judgeItemWithStrategy_inv cfg L it now st1 s); eauto;
      [by eapply (elem_of_lookup_Forall strategy_typed); [apply Hst | exact Hs] | apply Hst1]).
    apply judgeItemWith_rules in E as Hs2. exists st2. split; [done|]. split; [by eapply ready_same | done]. }
  cbn [rbind]. rewrite CheckExpression_rfold.
  destruct (judge_all_safe (judgeItemWithExpression cfg L it now) st1
    (first_met ∅ (met_expressions (ExpressionMap st1) it))) as (st2 & -> & _); [|done|by eexists].
  intros st2 x Hx Hst2. destruct (first_met_spec ∅ (met_expressions (ExpressionMap st1) it)) as (_ & Hm & _).
  destruct (Hm x Hx) as [Hmet _]. apply list_elem_of_bind in Hmet as (key & Hin & _).
  apply list_elem_of_In, List.filter_In in Hin as [Hin%list_elem_of_In _].
  destruct (judgeItemWith_safe cfg L it (Expression_Func x) (Expression_Operator x) (Expression_RightValue x)
    (expression_event x it) (Expression_MaxStep x) now st2) as [st3 E]; [done..| | |apply Hst2|].
  { eapply (elem_of_lookup_Forall expression_safe); [apply Hst1 | exact Hin]. }
  { intros lv. right. by eexists. }
  assert (judge_inv cfg st3) by (eapply (judgeItemWithExpression_inv cfg L it now st2 x); eauto;
    [by eapply (elem_of_lookup_Forall expression_typed); [apply Hst1 | exact Hin] | apply Hst2]).
  apply judgeItemWith_rules in E as Hs3. exists st3. split; [done|]. split; [by eapply ready_same | done].
Qed.

Lemma Send_one_safe now item w :
  1 <= Config_Remain cfg -> JudgeItem_JudgeType item <> "" -> world_inv cfg w -> rules_safe (judge_state w) ->
  exists w', Judge_Send_one cfg now w item = Ok w' /\ rules_safe (judge_state w').
Proof using enabled.
  intros Hr Hty HI Hsafe. pose proof HI as [Hsh Hru HJ]. unfold Judge_Send_one.
  destruct (SafeFilterMap_Exists _ _); [|by eexists].
  destruct (shard_of_item item) as [-> Hin]. cbn [rbind].
  destruct (shards_all _ _ Hsh _ Hin) as [shard Esh]. rewrite Esh.
  assert (judge_ready cfg (judge_state w)) as Hrd by (by split).
  unfold JudgeItemMap_PushFrontAndMaintain, JudgeItemMap_Get, JudgeItemMap_Set.
  assert (forall L st', list_inv cfg (JudgeItem_PrimaryKey item) L -> head L = Some item ->
    Judge cfg L item now (judge_state w) = Ok st' -> rules_safe st') as Hkeep.
  { intros L st' HL Hhd E. eapply Judge_inv in E as [_ (E1 & E2 & _)]; [|apply HL|done..].
    unfold rules_safe. by rewrite E1, E2. }
  destruct (shard !! JudgeItem_PrimaryKey item) as [L|] eqn:EL.
  - destruct (shards_lists _ _ Hsh _ _ _ _ Esh EL) as [HL _].
    pose proof (PushFrontAndMaintain_spec L item (Config_Remain cfg) ltac:(lia)) as Ep. rewrite Ep. cbn [rbind].
    destruct (accepts L item) eqn:Ea; [|by eexists].
    destruct (list_inv_push cfg _ L item _ _ Hr HL Hty eq_refl Ep) as [HL' Hhd].
    destruct (Judge_safe (take (Z.to_nat (Config_Remain cfg)) (item :: L)) item now (judge_state w)) as [st' E];
      [apply HL' | apply HL' | by apply Hhd | done |].
    rewrite E. eexists. split; [done|]. eapply Hkeep; [exact HL' | by apply Hhd | exact E].
  - pose proof (list_inv_one cfg item Hr Hty) as HL'.
    destruct (Judge_safe [item] item now (judge_state w)) as [st' E]; [apply HL' | apply HL' | done | done |].
    unfold SafeLinkedList_PushFront. rewrite E. eexists. split; [done|]. by eapply Hkeep.
Qed.
End send_safe.

(** A batch item by item. *)
Lemma Send_safe_spec `{MapRange} cfg now items w :
  Alarm_Enabled cfg = true -> 1 <= Config_Remain cfg -> reachable cfg w -> rules_safe (judge_state w) ->
  Forall (fun it => JudgeItem_JudgeType it <> "") items ->
  exists w', Judge_Send cfg now items w = Ok w' /\ reachable cfg w'.
Proof.
  intros Hen Hr Hw Hsafe Hty. unfold Judge_Send.
  destruct (rfold_safe (fun w => reachable cfg w /\ rules_safe (judge_state w)) (Judge_Send_one cfg now) w items)
    as (w' & E & Hw' & _); [|done|by exists w'].
  intros w1 it Hin [Hw1 Hs1]. rewrite list.Forall_forall in Hty.
  destruct (Send_one_safe cfg Hen now it w1) as (w2 & E & Hs2); [done | by apply Hty | by apply reachable_inv | done |].
  exists w2. split; [done|]. split; [|done]. eapply rtc_r; [exact Hw1|]. eapply step_send; [by apply Hty | exact E].
Qed.

(** * Properties *)


(** A run: a strategy is pulled, the filter rebuilt and two low points sent. *)
Definition ok_or {A : Type} (d : A) (r : result A) : A := match r with Ok a => a | Panic _ => d end.
Definition returned {A : Type} (r : result A) : bool := match r with Ok _ => true | Panic _ => false end.
Lemma ok_or_returned {A : Type} (d : A) (r : result A) : returned r = true -> r = Ok (ok_or d r).
Proof. by destruct r. Qed.

Definition sample_point (ts v : Z) : JudgeItem := mkJudgeItem "host" "cpu.idle" (f64_of_Z v) ts "GAUGE" ∅.
Definition sample_world_0 : JudgeWorld :=
  mkJudgeWorld InitHistoryBigMap (rebuildStrategyMap [mkHostStrategy "host" [sample_strategy]] initial_state).
Definition sample_world_1 : JudgeWorld :=
  mkJudgeWorld InitHistoryBigMap (@syncFilter map_range_default (judge_state sample_world_0)).
Definition sample_world_2 : JudgeWorld :=
  ok_or initial_world (@Judge_Send_one map_range_default sample_config 900 sample_world_1 (sample_point 840 6)).
Definition sample_world_3 : JudgeWorld :=
  ok_or initial_world (@Judge_Send_one map_range_default sample_config 900 sample_world_2 (sample_point 900 5)).

Lemma sample_reachable : @reachable map_range_default sample_config sample_world_3.
Proof.
  unfold reachable. eapply rtc_l; [apply (step_strategies _ [mkHostStrategy "host" [sample_strategy]])|].
  { repeat constructor; done. }
  eapply rtc_l; [apply step_filter|].
  eapply rtc_l; [apply (step_send _ 900 (sample_point 840 6) _ sample_world_2); [done | apply ok_or_returned; vm_compute; reflexivity]|].
  eapply rtc_l; [apply (step_send _ 900 (sample_point 900 5) _ sample_world_3); [done | apply ok_or_returned; vm_compute; reflexivity]|].
  apply rtc_refl.
Qed.




(** C6. With a positive [remain], in every reachable state each of the 256 shards exists, and the list
    stored under a key is not empty, holds points of the series of that key only,
    strictly decreasing in time, no more than [remain] of them, in the shard named
    by the first two digits of the key. *)
Theorem store_windows `{MapRange} cfg w :
  1 <= Config_Remain cfg -> reachable cfg w ->
  (forall name, name ∈ shard_names -> is_Some (HistoryBigMap w !! name)) /\
  (forall name shard key L, HistoryBigMap w !! name = Some shard -> shard !! key = Some L ->
    str_take 2 key = name /\ L <> [] /\ descending L /\ Z.of_nat (length L) <= Config_Remain cfg /\
    Forall (fun it => JudgeItem_PrimaryKey it = key) L).
Proof.
  intros Hr Hw. destruct (reachable_inv cfg w Hr Hw) as [[Hall Hls] _ _]. split; [done|].
  intros name shard key L Hn HL. destruct (Hls _ _ _ _ Hn HL) as [[] ?]. done.
Qed.

Lemma store_windows_witness :
  is_Some (HistoryBigMap sample_world_3 !! "a0").
Proof.
  apply (@store_windows map_range_default sample_config sample_world_3);
    [done | apply sample_reachable | apply (bool_decide_unpack _); vm_compute; exact I].
Defined.

(** When no name holds a slash, the joined keys are equal exactly when host and
    metric are. *)
Lemma strategies_for_host hs host metric :
  str_free "/" host = true -> Forall (fun h => str_free "/" (HostStrategy_Hostname h) = true) hs ->
  strategies_for hs (host +:+ "/" +:+ metric) =
    filter (fun s => Strategy_Metric s = metric)
      (filter (fun h => HostStrategy_Hostname h = host) hs ≫= HostStrategy_Strategies).
Proof.
  intros He Hhs. unfold strategies_for. induction Hhs as [|h hs Hh _ IH]; [done|].
  cbn [mbind list_bind]. rewrite filter_cons. case_decide as E; cbn [mbind list_bind].
  - rewrite filter_app, IH. f_equal. apply list_filter_iff. intros s. rewrite E. split; [|by intros ->].
    by intros [_ ?]%str_sep_inj.
  - rewrite IH. enough (filter (fun s => HostStrategy_Hostname h +:+ "/" +:+ Strategy_Metric s = host +:+ "/" +:+ metric)
      (HostStrategy_Strategies h) = []) as -> by done.
    apply elem_of_nil_inv. intros s [Es _]%list_elem_of_filter. by apply str_sep_inj in Es as [Es _].
Qed.

(** C5. With the strategies of a pull, and names of hosts without a slash, a
    point is judged by exactly the strategies listed for its host that name its
    metric and whose tags are all tags of the point: in the order they were
    pulled, and each as often as the pull lists it. (The strategies are filed
    under host and metric joined with a slash, so a host whose name holds one can
    share a key with another host: [slash_shared].) *)
Theorem CheckStrategy_rules `{MapRange} cfg hs st0 st L it now :
  str_free "/" (JudgeItem_Endpoint it) = true ->
  Forall (fun h => str_free "/" (HostStrategy_Hostname h) = true) hs ->
  StrategyMap st = StrategyMap (rebuildStrategyMap hs st0) ->
  CheckStrategy cfg L it now st
  = rfold (judgeItemWithStrategy cfg L it now) st
      (filter (fun s => Strategy_Metric s = JudgeItem_Metric it /\ Strategy_Tags s ⊆ JudgeItem_Tags it)
        (filter (fun h => HostStrategy_Hostname h = JudgeItem_Endpoint it) hs ≫= HostStrategy_Strategies)).
Proof.
  intros He Hhs Est. rewrite CheckStrategy_rfold, Est, rebuildStrategyMap_lookup, strategies_for_host by done.
  f_equal. generalize (filter (fun h => HostStrategy_Hostname h = JudgeItem_Endpoint it) hs ≫= HostStrategy_Strategies).
  induction l as [|s l IH]; [done|]. rewrite !filter_cons. pose proof (tags_related_spec (Strategy_Tags s) (JudgeItem_Tags it)).
  destruct (decide (Strategy_Metric s = JudgeItem_Metric it)); cbn [List.filter].
  - destruct (tags_related (Strategy_Tags s) (JudgeItem_Tags it)); rewrite IH; case_decide; naive_solver.
  - rewrite IH. case_decide; naive_solver.
Qed.

Lemma CheckStrategy_rules_witness :
  @CheckStrategy map_range_default sample_config [sample_point 840 6] (sample_point 840 6) 900 (judge_state sample_world_0)
  = rfold (judgeItemWithStrategy sample_config [sample_point 840 6] (sample_point 840 6) 900) (judge_state sample_world_0)
      [sample_strategy].
Proof.
  rewrite (@CheckStrategy_rules map_range_default sample_config [mkHostStrategy "host" [sample_strategy]] initial_state
    (judge_state sample_world_0) [sample_point 840 6] (sample_point 840 6) 900);
    [| done | by repeat constructor | done].
  vm_compute. reflexivity.
Defined.

(** The strategy of host [a] on metric [b/c] is also found for a point of host
    [a/b] and metric [c]. *)
Example slash_shared :
  let s := mkStrategy 1 "b/c" ∅ "all(#1)" "<" (f64_of_Z 10) 3 0 "" None in
  StrategyMap (rebuildStrategyMap [mkHostStrategy "a" [s]] initial_state) !! ("a/b" +:+ "/" +:+ "c") = Some [s].
Proof. vm_compute. reflexivity. Qed.

(** With the expressions of a pull, each expression with the point's metric
    whose tags are all among the point's tags (its endpoint counts as the tag
    [endpoint]) judges the point exactly once, however many of its tags match, and
    no other expression does. *)
Theorem CheckExpression_rules `{MapRange} cfg xs st0 st L it now :
  str_free "/" (JudgeItem_Metric it) = true ->
  Forall (fun x => str_free "/" (Expression_Metric x) = true) xs ->
  NoDup (map Expression_Id xs) ->
  ExpressionMap st = ExpressionMap (rebuildExpressionMap xs st0) ->
  exists rules, CheckExpression cfg L it now st = rfold (judgeItemWithExpression cfg L it now) st rules /\
    NoDup (map Expression_Id rules) /\
    forall x, x ∈ rules <-> x ∈ xs /\ applies it x.
Proof.
  intros Hm Hxs Hnd Est. rewrite CheckExpression_rfold, Est.
  destruct (first_met_spec ∅ (met_expressions (ExpressionMap (rebuildExpressionMap xs st0)) it)) as (H1 & H2 & H3).
  eexists. split; [done|]. split; [done|]. intros x. rewrite <- (met_expressions_spec xs st0) by done. split.
  - intros Hx. by destruct (H2 x Hx).
  - intros Hx. destruct (proj1 (list_elem_of_fmap _ _ _) (H3 (Expression_Id x) (list_elem_of_fmap_2 _ _ _ Hx) ltac:(set_solver)))
      as (y & Ey & Hy).
    replace x with y; [done|]. destruct (H2 y Hy) as [Hy' _].
    apply met_expressions_spec in Hx as [Hx _], Hy' as [Hy' _]; [|done..].
    by apply (NoDup_map_inj Expression_Id xs).
Qed.

Definition sample_expression : Expression :=
  mkExpression 7 "cpu.idle" {["endpoint" := "host"; "az" := "bj"]} "all(#1)" "<" (f64_of_Z 10) 3 0 "" 2.
Definition tagged_point : JudgeItem :=
  mkJudgeItem "host" "cpu.idle" (f64_of_Z 5) 900 "GAUGE" {["az" := "bj"; "idc" := "1"]}.
Definition expression_world : JudgeState := @rebuildExpressionMap map_range_default [sample_expression] initial_state.

Lemma CheckExpression_rules_witness :
  exists rules, @CheckExpression map_range_default sample_config [tagged_point] tagged_point 900 expression_world
      = rfold (judgeItemWithExpression sample_config [tagged_point] tagged_point 900) expression_world rules /\
    sample_expression ∈ rules.
Proof.
  destruct (@CheckExpression_rules map_range_default sample_config [sample_expression] initial_state
    expression_world [tagged_point] tagged_point 900) as (rules & E & _ & Hin);
    [done | by repeat constructor | apply NoDup_singleton | done |].
  exists rules. split; [exact E|]. apply Hin. split; [left|]. split_and!; [done | by intros [=] |].
  apply (@tags_related_spec map_range_default). vm_compute. reflexivity.
Defined.

(** After a round of the cron job, an item that the filter drops is one that
    no rule could have judged: judging it would change nothing. *)
Theorem filter_sound `{MapRange} cfg hs xs w L it now :
  str_free "/" (JudgeItem_Endpoint it) = true -> str_free "/" (JudgeItem_Metric it) = true ->
  Forall (fun h => str_free "/" (HostStrategy_Hostname h) = true) hs ->
  Forall (fun x => str_free "/" (Expression_Metric x) = true) xs ->
  let w' := SyncStrategies (Some hs) (Some xs) w in
  SafeFilterMap_Exists (JudgeItem_Metric it) (judge_state w') = false ->
  Judge_Send_one cfg now w' it = Ok w' /\ Judge cfg L it now (judge_state w') = Ok (judge_state w').
Proof.
  intros He Hm Hhs Hxs w' Hf. unfold Judge_Send_one. rewrite Hf. split; [done|].
  assert (forall P, (SafeFilterMap_Exists (JudgeItem_Metric it) (judge_state w') = true <-> P) -> ~ P) as Hno.
  { intros P HP HP'. apply HP in HP'. congruence. }
  specialize (Hno _ (syncFilter_spec _ _)). unfold Judge.
  assert (StrategyMap (judge_state w') = StrategyMap (rebuildStrategyMap hs (judge_state w))) as Es by done.
  rewrite CheckStrategy_rfold, Es, rebuildStrategyMap_lookup.
  destruct (List.filter _ _) as [|s ss] eqn:El.
  2:{ exfalso. apply Hno. left.
      assert (s ∈ s :: ss) as Hs by left. rewrite <- El in Hs.
      apply list_elem_of_In, List.filter_In in Hs as [Hs%list_elem_of_In _].
      pose proof Hs as (h & Hh & _ & E)%strategies_for_elem. rewrite list.Forall_forall in Hhs.
      apply str_sep_inj in E as [_ E]; [|by apply Hhs|done].
      rewrite <- (rebuildStrategyMap_lookup hs (judge_state w)) in Hs. cbn [StrategyMap syncExpression syncStrategies].
      destruct (StrategyMap (rebuildStrategyMap hs (judge_state w)) !! _) as [l|] eqn:Ek; [|by apply not_elem_of_nil in Hs].
      by exists (JudgeItem_Endpoint it +:+ "/" +:+ JudgeItem_Metric it), l, s. }
  cbn [rfold rbind]. rewrite CheckExpression_rfold.
  change (ExpressionMap (judge_state w')) with
    (ExpressionMap (rebuildExpressionMap xs (rebuildStrategyMap hs (judge_state w)))).
  destruct (met_expressions _ _) as [|x ms] eqn:Em; [done|]. exfalso. apply Hno. right.
  assert (x ∈ x :: ms) as Hx by left. rewrite <- Em in Hx.
  pose proof Hx as [_ (E & _)]%met_expressions_spec; [|done..].
  apply list_elem_of_bind in Hx as (key & Hx & _).
  apply list_elem_of_In, List.filter_In in Hx as [Hx%list_elem_of_In _].
  cbn [syncExpression syncStrategies].
  destruct (ExpressionMap (rebuildExpressionMap xs (rebuildStrategyMap hs (judge_state w))) !! key) as [l|] eqn:Ek;
    [|by apply not_elem_of_nil in Hx].
  by exists key, l, x.
Qed.

Lemma filter_sound_witness :
  let w' := @SyncStrategies map_range_default (Some [mkHostStrategy "host" [sample_strategy]]) (Some [sample_expression]) initial_world in
  @Judge_Send_one map_range_default sample_config 900 w' (sample_item 60 1 "GAUGE") = Ok w'.
Proof.
  apply (@filter_sound map_range_default sample_config [mkHostStrategy "host" [sample_strategy]] [sample_expression]
    initial_world [] (sample_item 60 1 "GAUGE") 900);
    [done | done | by repeat constructor | by repeat constructor | vm_compute; reflexivity].
Defined.

(** C4. [Judge.Send] returns for every batch of items with a counter type, when
    alarms are enabled, [remain] is positive, and the state is a reachable one
    whose rules have a function text that does not make the reader panic and that
    asks for fewer points than the largest int: no missing shard, no index out of
    range, no nil event, no nil pool of connections. Each of the conditions on the
    rules and on the configuration is needed: with alarms disabled the first event
    dereferences the nil pool ([Send_without_pool]), the text [lookup(#2)] panics
    ([parse_2]), and with the largest int as the number of points of a counter
    the allocation of that many points fails. *)
Theorem Send_safe `{MapRange} cfg now items w :
  Alarm_Enabled cfg = true -> 1 <= Config_Remain cfg -> reachable cfg w -> rules_safe (judge_state w) ->
  Forall (fun it => JudgeItem_JudgeType it <> "") items ->
  exists w', Judge_Send cfg now items w = Ok w' /\ reachable cfg w'.
Proof. apply Send_safe_spec. Qed.

Lemma sample_rules_safe : rules_safe (judge_state sample_world_3).
Proof.
  assert (StrategyMap (judge_state sample_world_3) = {["host/cpu.idle" := [sample_strategy]]}) as E
    by (vm_compute; reflexivity).
  assert (ExpressionMap (judge_state sample_world_3) = ∅) as E' by (vm_compute; reflexivity).
  unfold rules_safe. rewrite E, E'. split; [|apply map_Forall_empty].
  apply map_Forall_singleton. constructor; [vm_compute; reflexivity | constructor].
Qed.

Lemma Send_safe_witness :
  exists w', @Judge_Send map_range_default sample_config 960 [sample_point 960 50; sample_point 960 51] sample_world_3 = Ok w' /\
    @reachable map_range_default sample_config w'.
Proof.
  apply Send_safe; [done | done | apply sample_reachable | apply sample_rules_safe | by repeat constructor].
Defined.

Example Send_without_pool :
  @Judge_Send map_range_default (mkJudgeConfig 11 false 300 (fun p => "event:p" +:+ strconv_Itoa p)) 900
    [sample_point 840 6; sample_point 900 5] sample_world_1 = Panic NilDereference.
Proof. vm_compute. reflexivity. Qed.

(** The cleaner removes a series exactly when its newest point is more than
    seven days old, and leaves the points of every other series as they were. *)
Theorem cleanStale_exact `{MapRange} cfg now w :
  1 <= Config_Remain cfg -> reachable cfg w ->
  exists w', cleanStale now w = Ok w' /\ judge_state w' = judge_state w /\
    forall name, name ∈ shard_names -> exists shard shard',
      HistoryBigMap w !! name = Some shard /\ HistoryBigMap w' !! name = Some shard' /\
      forall key L, shard' !! key = Some L <->
        shard !! key = Some L /\ exists front, head L = Some front /\ i64 (now - 3600 * 24 * 7) <= JudgeItem_Timestamp front.
Proof.
  intros Hr Hw. destruct (reachable_inv cfg w Hr Hw) as [Hsh _ _].
  destruct (cleanStale_spec cfg now w Hsh) as (m & E & Hm). eexists. split; [exact E|]. split; [done|].
  intros name Hin. destruct (shards_all _ _ Hsh _ Hin) as [shard Es]. exists shard, (JudgeItemMap_CleanStale shard (i64 (now - 3600 * 24 * 7))).
  split_and!; [done | by apply Hm |]. intros key L. rewrite CleanStale_lookup.
  split; intros [HL Hf]; (split; [done|]).
  - destruct (shards_lists _ _ Hsh _ _ _ _ Es HL) as [[Hne _ _ _ _] _]. destruct L as [|f L]; [done|].
    exists f. split; [done|]. by apply Z.leb_le.
  - destruct Hf as (f & Hhd & Ht). destruct L as [|f' L]; [done|]. injection Hhd as ->. by apply Z.leb_le.
Qed.

Lemma cleanStale_exact_witness :
  exists w', @cleanStale map_range_default 1000000 sample_world_3 = Ok w' /\ judge_state w' = judge_state sample_world_3.
Proof.
  destruct (@cleanStale_exact map_range_default sample_config 1000000 sample_world_3) as (w' & E & Es & _);
    [done | apply sample_reachable | exists w'; split; [exact E | exact Es]].
Defined.
