(* ===== verification/ThirdParty.v ===== *)
(** The containers of github.com/toolkits the services use, as interfaces: what
    their documentation promises, and for each an implementation that shows the
    promises can be kept. *)
From Stdlib Require Import ZArith.
From stdpp Require Import base list gmap strings numbers.
From S2P Require Import Prelude Utils.

Local Open Scope Z_scope.

(** * container/list.SafeListLimited: a queue with a maximal length *)

Class LimitedList := {
  SafeListLimited : Type -> Type;
  NewSafeListLimited {V : Type} : Z -> SafeListLimited V;
  SL_FrontAll {V : Type} : SafeListLimited V -> list V;
  SL_maxSize {V : Type} : SafeListLimited V -> Z;
  SL_Front {V : Type} : SafeListLimited V -> option V;
  SL_Len {V : Type} : SafeListLimited V -> Z;
  SL_PushFront {V : Type} : V -> SafeListLimited V -> SafeListLimited V * bool;
  SL_PushFrontViolently {V : Type} : V -> SafeListLimited V -> SafeListLimited V;
  SL_PopBackBy {V : Type} : Z -> SafeListLimited V -> SafeListLimited V * list V;

  SL_new_all {V : Type} n : SL_FrontAll (NewSafeListLimited (V := V) n) = [];
  SL_new_max {V : Type} n : SL_maxSize (NewSafeListLimited (V := V) n) = n;
  SL_Front_head {V : Type} (l : SafeListLimited V) : SL_Front l = head (SL_FrontAll l);
  SL_Len_length {V : Type} (l : SafeListLimited V) : SL_Len l = Z.of_nat (length (SL_FrontAll l));
  (** a full list refuses a push *)
  SL_PushFront_spec {V : Type} (v : V) l :
    let '(l', ok) := SL_PushFront v l in
    SL_maxSize l' = SL_maxSize l /\
    if Z.of_nat (length (SL_FrontAll l)) <? SL_maxSize l
    then ok = true /\ SL_FrontAll l' = v :: SL_FrontAll l
    else ok = false /\ SL_FrontAll l' = SL_FrontAll l;
  (** the oldest makes place for the newest *)
  SL_PushFrontViolently_spec {V : Type} (v : V) l :
    Z.of_nat (length (SL_FrontAll l)) <= SL_maxSize l ->
    SL_maxSize (SL_PushFrontViolently v l) = SL_maxSize l /\
    SL_FrontAll (SL_PushFrontViolently v l) = take (Z.to_nat (SL_maxSize l)) (v :: SL_FrontAll l);
  (** at most [max] elements, the oldest first *)
  SL_PopBackBy_spec {V : Type} max (l : SafeListLimited V) :
    0 <= max ->
    let '(l', items) := SL_PopBackBy max l in
    SL_maxSize l' = SL_maxSize l /\
    SL_FrontAll l = SL_FrontAll l' ++ reverse items /\
    Z.of_nat (length items) = Z.min max (Z.of_nat (length (SL_FrontAll l))) }.

(** * container/nmap.SafeMap: a map from strings *)

Class NMap := {
  SafeMap : Type -> Type;
  NewSafeMap {V : Type} : SafeMap V;
  NM_Get {V : Type} : SafeMap V -> string -> option V;
  NM_Put {V : Type} : SafeMap V -> string -> V -> SafeMap V;
  NM_Remove {V : Type} : SafeMap V -> string -> SafeMap V;
  NM_Keys {V : Type} : SafeMap V -> list string;

  NM_Get_new {V : Type} k : NM_Get (NewSafeMap (V := V)) k = None;
  NM_Get_Put {V : Type} (m : SafeMap V) k v k' :
    NM_Get (NM_Put m k v) k' = if decide (k = k') then Some v else NM_Get m k';
  NM_Get_Remove {V : Type} (m : SafeMap V) k k' :
    NM_Get (NM_Remove m k) k' = if decide (k = k') then None else NM_Get m k';
  NM_Keys_elem {V : Type} (m : SafeMap V) k : k ∈ NM_Keys m <-> is_Some (NM_Get m k);
  NM_Keys_NoDup {V : Type} (m : SafeMap V) : NoDup (NM_Keys m);

  NM_Slice {V : Type} : SafeMap V -> list V;
  NM_Clear {V : Type} : SafeMap V -> SafeMap V;
  NM_Size {V : Type} : SafeMap V -> Z;
  NM_Slice_values {V : Type} (m : SafeMap V) : NM_Slice m ≡ₚ omap (NM_Get m) (NM_Keys m);
  NM_Get_Clear {V : Type} (m : SafeMap V) k : NM_Get (NM_Clear m) k = None;
  NM_Size_keys {V : Type} (m : SafeMap V) : NM_Size m = Z.of_nat (length (NM_Keys m)) }.

(** * consistent/rings.ConsistentHashNodeRing: which node holds a key *)

Class NodeRing := {
  ConsistentHashNodeRing : Type;
  NewConsistentHashNodesRing : Z -> list string -> ConsistentHashNodeRing;
  (** [None] is the error of a ring without nodes *)
  GetNode : ConsistentHashNodeRing -> string -> option string;

  GetNode_elem replicas nodes pk node :
    GetNode (NewConsistentHashNodesRing replicas nodes) pk = Some node -> node ∈ nodes;
  GetNode_some replicas nodes pk :
    0 < replicas -> nodes <> [] -> is_Some (GetNode (NewConsistentHashNodesRing replicas nodes) pk) }.

(** * container/set: the elements added to a set, in any order *)

Class NSet := {
  set_ToSlice : list string -> list string;
  set_ToSlice_elem added x : x ∈ set_ToSlice added <-> x ∈ added }.

Class NIntSet := {
  iset_ToSlice : list Z -> list Z;
  iset_ToSlice_elem added x : x ∈ iset_ToSlice added <-> x ∈ added;
  iset_ToSlice_NoDup added : NoDup (iset_ToSlice added) }.

(** * Implementations *)

Record limited (V : Type) := mkLimited { lim_max : Z; lim_items : list V }.
Arguments mkLimited {V}.
Arguments lim_max {V}.
Arguments lim_items {V}.

Definition limited_push {V : Type} (v : V) (l : limited V) : limited V * bool :=
  if Z.of_nat (length (lim_items l)) <? lim_max l then (mkLimited (lim_max l) (v :: lim_items l), true)
  else (l, false).
Definition limited_push_violently {V : Type} (v : V) (l : limited V) : limited V :=
  mkLimited (lim_max l) (take (Z.to_nat (lim_max l)) (v :: lim_items l)).
Definition limited_pop {V : Type} (max : Z) (l : limited V) : limited V * list V :=
  let n := (length (lim_items l) - Z.to_nat max)%nat in
  (mkLimited (lim_max l) (take n (lim_items l)), reverse (drop n (lim_items l))).

Definition limited_list : LimitedList.
Proof.
  refine {| SafeListLimited := limited;
    NewSafeListLimited := fun V n => mkLimited n [];
    SL_FrontAll := @lim_items; SL_maxSize := @lim_max;
    SL_Front := fun V l => head (lim_items l);
    SL_Len := fun V l => Z.of_nat (length (lim_items l));
    SL_PushFront := @limited_push;
    SL_PushFrontViolently := @limited_push_violently;
    SL_PopBackBy := @limited_pop |}; try done.
  - intros V v l. unfold limited_push. by destruct (_ <? _).
  - intros V max l Hm. unfold limited_pop. cbn [lim_max lim_items]. split; [done|].
    rewrite reverse_involutive, take_drop, length_reverse, length_drop. split; [done|]. lia.
Defined.

Definition nmap_gmap : NMap.
Proof.
  refine {| SafeMap := gmap string; NewSafeMap := fun V => ∅;
    NM_Get := fun V m k => m !! k; NM_Put := fun V m k v => <[k := v]> m;
    NM_Remove := fun V m k => delete k m; NM_Keys := @keys_of;
    NM_Slice := fun V m => omap (fun k => m !! k) (keys_of m); NM_Clear := fun V m => ∅;
    NM_Size := fun V m => Z.of_nat (length (keys_of m)) |}; try done.
  - intros V m k v k'. case_decide; subst; [by rewrite lookup_insert_eq | by rewrite lookup_insert_ne].
  - intros V m k k'. case_decide; subst; [by rewrite lookup_delete_eq | by rewrite lookup_delete_ne].
  - intros V m k. apply range_order_elem, keys_of_range.
  - intros V m. eapply range_order_NoDup, keys_of_range.
Defined.

Definition ring_mod : NodeRing.
Proof.
  refine {| ConsistentHashNodeRing := list string; NewConsistentHashNodesRing := fun r nodes => nodes;
    GetNode := fun nodes pk => nodes !! (String.length pk mod length nodes)%nat |}.
  - intros _ nodes pk node. apply list_elem_of_lookup_2.
  - intros _ nodes pk _ Hn. apply lookup_lt_is_Some, Nat.mod_upper_bound. by destruct nodes.
Defined.

Definition set_list : NSet.
Proof. by refine {| set_ToSlice := fun added => added |}. Defined.

Definition iset_dedup : NIntSet.
Proof.
  refine {| iset_ToSlice := remove_dups |}.
  - intros added x. apply elem_of_remove_dups.
  - intros added. apply NoDup_remove_dups.
Defined.
