(* ===== verification/GraphUtil.v ===== *)
(** modules/graph/g: constants, the names of RRD files and cache keys, the check
    of received strings, and the choice of an I/O worker (rrdtool/utils.go). *)
From Stdlib Require Import Ascii ZArith.
From stdpp Require Import base list gmap strings numbers.
From S2P Require Import Prelude GoString GoFloat GoText GoHash Utils Model.

Local Open Scope Z_scope.

(** ** g.go *)
Definition GAUGE : string := "GAUGE".
Definition DERIVE : string := "DERIVE".
Definition COUNTER : string := "COUNTER".
Definition CACHE_TIME : Z := 1800000.
Definition FLUSH_DISK_STEP : Z := 1000.
Definition FLUSH_MIN_COUNT : Z := 6.
Definition FLUSH_MAX_WAIT : Z := 86400.

Definition GRAPH_F_MISS : Z := 1.
Definition GRAPH_F_ERR : Z := 2.
Definition GRAPH_F_SENDING : Z := 4.
Definition GRAPH_F_FETCHING : Z := 8.

(** ** cfg.go *)

(** The configuration the service reads after start-up. *)
Record GraphConfig := mkGraphConfig {
  RRD_Storage : string;
  IOWorkerNum : Z;
  FirstBytesSize : Z;
  Migrate_Enabled : bool;
  Migrate_Concurrency : Z;
  Migrate_Replicas : Z;
  Migrate_Cluster : gmap string string }.

(** [strconv.FormatInt(n, 16)], the digits of [n] from 1 on, least significant first. *)
Fixpoint hex_length (fuel : nat) (n : Z) : Z :=
  match fuel with
  | O => 0
  | S fuel => if n <? 16 then 1 else 1 + hex_length fuel (n / 16)
  end.
Definition FormatInt16_length (n : Z) : Z :=
  if n <? 0 then 1 + hex_length 64 (- n) else hex_length 64 n.

(** The checks of [ParseConfig] on what it read; [None] is a fatal error. *)
Definition ParseConfig (c : GraphConfig) : option GraphConfig :=
  let enabled := Migrate_Enabled c && negb (size (Migrate_Cluster c) =? 0)%nat in
  if (IOWorkerNum c =? 0) || negb (Z.land (IOWorkerNum c) (IOWorkerNum c - 1) =? 0) then None
  else Some (mkGraphConfig (RRD_Storage c) (IOWorkerNum c) (FormatInt16_length (IOWorkerNum c)) enabled
    (Migrate_Concurrency c) (Migrate_Replicas c) (Migrate_Cluster c)).

(** ** utils.go *)

Definition RrdFileName (baseDir md5 dsType : string) (step : Z) : result string :=
  let! prefix := str_slice md5 0 2 in
  Ok (baseDir +:+ "/" +:+ prefix +:+ "/" +:+ md5 +:+ "_" +:+ dsType +:+ "_" +:+ strconv_Itoa step +:+ ".rrd").

Definition FormRrdCacheKey (md5 dsType : string) (step : Z) : string :=
  md5 +:+ "_" +:+ dsType +:+ "_" +:+ strconv_Itoa step.

(** md5, dsType, step and whether there is no error; the named results keep the
    values assigned before an error. *)
Definition SplitRrdCacheKey (ckey : string) : string * string * Z * bool :=
  match strings_Split ckey "_" with
  | [md5; dsType; s] =>
      match strconv_ParseInt 32 s with
      | Some step => (md5, dsType, step, true)
      | None => (md5, dsType, 0, false)
      end
  | _ => ("", "", 0, false)
  end.

(** The printable runes of the Unicode tables: the table is an argument, of
    which the ASCII part is stated. *)
Class Unicode := {
  unicode_IsPrint : Z -> bool;
  unicode_IsPrint_ascii r : 0 <= r < 128 -> unicode_IsPrint r = (32 <=? r) && (r <=? 126) }.

(** [switch t]: CR, LF, the two quotes, '>' and '\032' (26) are refused. *)
Definition IsValidString `{Unicode} (str : string) : bool :=
  forallb (fun t =>
    if (t =? 13) || (t =? 10) || (t =? 39) || (t =? 34) || (t =? 62) || (t =? 26) then false
    else unicode_IsPrint t) (runes str).

(** ** rrdtool/utils.go *)

Fixpoint parse_hex (acc : Z) (s : string) : option Z :=
  match s with
  | EmptyString => Some acc
  | String c s => match hex_val c with Some d => parse_hex (16 * acc + d) s | None => None end
  end.
(** [strconv.ParseInt(s, 16, 64)]. *)
Definition strconv_ParseInt16 (s : string) : option Z :=
  let unsigned t := match t with EmptyString => None | _ => parse_hex 0 t end in
  let v := match s with
           | String "-" t => Z.opp <$> unsigned t
           | String "+" t => unsigned t
           | _ => unsigned s
           end in
  match v with
  | Some z => if (int64_min <=? z) && (z <=? int64_max) then Some z else None
  | None => None
  end.

Definition getIndex (cfg : GraphConfig) (md5 : string) : result Z :=
  let batchNum := IOWorkerNum cfg in
  let firstBytesSize := FirstBytesSize cfg in
  if (batchNum <=? 1) || (str_len md5 <? firstBytesSize) || (firstBytesSize =? 0) then Ok 0
  else
    let! prefix := str_slice md5 0 firstBytesSize in
    match strconv_ParseInt16 prefix with
    | None => Ok 0
    | Some m => go_rem m batchNum
    end.

(** * Lemmas *)

Lemma parse_hex_nonneg acc s z : 0 <= acc -> parse_hex acc s = Some z -> 0 <= z.
Proof.
  revert acc; induction s as [|c s IH]; intros acc Ha; simpl; [by intros [= <-]|].
  destruct (hex_val c) as [d|] eqn:E; [|done]. apply IH.
  assert (0 <= d); [|lia]. unfold hex_val in E.
  repeat (case_match; [simplify_eq; rewrite andb_true_iff, !Z.leb_le in *; lia|]). done.
Qed.

Lemma ParseInt16_hex s z : str_forall is_hex s = true -> strconv_ParseInt16 s = Some z -> 0 <= z.
Proof.
  unfold strconv_ParseInt16. intros Hs.
  assert ((match s with
     | String "-" t => Z.opp <$> (match t with EmptyString => None | _ => parse_hex 0 t end)
     | String "+" t => match t with EmptyString => None | _ => parse_hex 0 t end
     | _ => match s with EmptyString => None | _ => parse_hex 0 s end
     end) = match s with EmptyString => None | _ => parse_hex 0 s end) as ->.
  { destruct s as [|c s]; [done|]. simpl in Hs. apply andb_true_iff in Hs as [Hc _].
    by destruct c as [[] [] [] [] [] [] [] []]. }
  destruct s as [|c s]; [done|].
  destruct (parse_hex 0 (String c s)) as [v|] eqn:E; [|done]. apply parse_hex_nonneg in E; [|lia].
  case_match; [|done]. by intros [= <-].
Qed.

Lemma str_forall_take P n s : str_forall P s = true -> str_forall P (str_take n s) = true.
Proof.
  revert s; induction n as [|n IH]; intros [|c s]; simpl; try done.
  intros [-> Hs]%andb_true_iff. simpl. by apply IH.
Qed.

Lemma SplitRrdCacheKey_Form md5 dsType step :
  str_free "_" md5 = true -> str_free "_" dsType = true -> - 2 ^ 31 <= step < 2 ^ 31 ->
  SplitRrdCacheKey (FormRrdCacheKey md5 dsType step) = (md5, dsType, step, true).
Proof.
  intros H1 H2 Hs. unfold SplitRrdCacheKey, FormRrdCacheKey.
  change (md5 +:+ "_" +:+ dsType +:+ "_" +:+ strconv_Itoa step)
    with (md5 +:+ String "_" (dsType +:+ String "_" (strconv_Itoa step))).
  rewrite strings_Split_app, strings_Split_app by done.
  rewrite strings_Split_free by (by apply strconv_Itoa_free).
  by rewrite ParseInt_Itoa by (simpl; lia).
Qed.

Lemma RrdFileName_Md5 baseDir raw dsType step :
  RrdFileName baseDir (Md5 raw) dsType step
  = Ok (baseDir +:+ "/" +:+ str_take 2 (Md5 raw) +:+ "/" +:+ FormRrdCacheKey (Md5 raw) dsType step +:+ ".rrd").
Proof.
  unfold RrdFileName, FormRrdCacheKey, str_slice, str_len.
  destruct (Md5_shape raw) as [-> _]. cbn [rbind].
  rewrite !str_app_assoc. reflexivity.
Qed.

Lemma getIndex_spec (c cfg : GraphConfig) (raw : string) :
  0 < IOWorkerNum c -> ParseConfig c = Some cfg ->
  exists i, getIndex cfg (Md5 raw) = Ok i /\ 0 <= i < IOWorkerNum cfg.
Proof.
  intros Hn. unfold ParseConfig. cbv zeta. destruct (_ || _) eqn:Eb; [done|]. intros [= <-].
  unfold getIndex. cbn [IOWorkerNum FirstBytesSize]. destruct (Md5_shape raw) as [Hl Hh].
  destruct ((IOWorkerNum c <=? 1) || _ || _) eqn:E; [exists 0; split; [done | lia]|].
  apply orb_false_iff in E as [[_ E2]%orb_false_iff E3]. rewrite Z.ltb_ge in E2. apply Z.eqb_neq in E3.
  assert (0 <= FormatInt16_length (IOWorkerNum c)) as H0.
  { unfold FormatInt16_length. rewrite (proj2 (Z.ltb_ge _ _)) by lia. clear.
    generalize 64%nat as f. intros f. generalize (IOWorkerNum c). induction f as [|f IH]; intros z; simpl; [lia|].
    destruct (z <? 16); [lia|]. specialize (IH (z / 16)). lia. }
  unfold str_slice. change (0 <? 0) with false. cbn [orb].
  rewrite (proj2 (Z.ltb_ge (FormatInt16_length (IOWorkerNum c)) 0)) by lia. cbn [orb].
  rewrite (proj2 (Z.ltb_ge (str_len (Md5 raw)) (FormatInt16_length (IOWorkerNum c)))) by lia. cbn [rbind].
  destruct (strconv_ParseInt16 _) as [z|] eqn:Ep; [|exists 0; split; [done | lia]].
  apply ParseInt16_hex in Ep; [|by apply str_forall_take].
  unfold go_rem. rewrite (proj2 (Z.eqb_neq _ _)) by lia. eexists. split; [done|]. apply Z.rem_bound_pos; lia.
Qed.

(** * Properties *)

(** The key of a series in the cache reads back as its checksum, type and
    step, for every 32-bit step and every type without an underscore. *)
Theorem cache_key_roundtrip (raw dsType : string) (step : Z) :
  str_free "_" dsType = true -> - 2 ^ 31 <= step < 2 ^ 31 ->
  SplitRrdCacheKey (FormRrdCacheKey (Md5 raw) dsType step) = (Md5 raw, dsType, step, true).
Proof. intros. apply SplitRrdCacheKey_Form; [by apply Md5_free | done | done]. Qed.

Lemma cache_key_roundtrip_witness :
  SplitRrdCacheKey (FormRrdCacheKey (Md5 "host/cpu.idle") "GAUGE" 60) = (Md5 "host/cpu.idle", "GAUGE", 60, true).
Proof. apply cache_key_roundtrip; [reflexivity | lia]. Defined.

(** For every accepted configuration, the I/O worker of a checksum is one of
    the [IOWorkerNum] channels: sending it a task never indexes out of range. *)
Theorem getIndex_range (c cfg : GraphConfig) (raw : string) :
  0 < IOWorkerNum c -> ParseConfig c = Some cfg ->
  exists i, getIndex cfg (Md5 raw) = Ok i /\ 0 <= i < IOWorkerNum cfg.
Proof. apply getIndex_spec. Qed.

Definition sample_graph_config : GraphConfig := mkGraphConfig "./data/6070" 64 2 false 2 500 ∅.

Lemma getIndex_range_witness :
  exists i, getIndex sample_graph_config (Md5 "host/cpu.idle") = Ok i /\ 0 <= i < 64.
Proof.
  apply (getIndex_range (mkGraphConfig "./data/6070" 64 0 false 2 500 ∅) sample_graph_config); [done | vm_compute; reflexivity].
Defined.
