(* ===== verification/GraphStore.v ===== *)
(** modules/graph/store/linkedlist.go and store.go: the points of each series
    waiting to be written to disk, in a map sharded by the checksum of the key. *)
From Stdlib Require Import Ascii ZArith.
From stdpp Require Import base list gmap strings numbers.
From S2P Require Import Prelude GoString GoFloat GoHash Utils Model GraphUtil.

Local Open Scope Z_scope.

(** ** linkedlist.go *)

(** A flag word and the points, newest at the front. *)
Record SafeLinkedList := mkSafeLinkedList {
  Flag : Z;
  L : list GraphItem }.

Definition NewSafeLinkedList : SafeLinkedList := mkSafeLinkedList 0 [].
Definition SafeLinkedList_PushFront (this : SafeLinkedList) (v : GraphItem) : SafeLinkedList :=
  mkSafeLinkedList (Flag this) (v :: L this).
Definition SafeLinkedList_Front (this : SafeLinkedList) : option GraphItem := head (L this).
Definition SafeLinkedList_Back (this : SafeLinkedList) : option GraphItem := list.last (L this).
Definition SafeLinkedList_PopBack (this : SafeLinkedList) : SafeLinkedList * option GraphItem :=
  match list.last (L this) with
  | None => (this, None)
  | Some back => (mkSafeLinkedList (Flag this) (removelast (L this)), Some back)
  end.
Definition SafeLinkedList_Len (this : SafeLinkedList) : Z := Z.of_nat (length (L this)).

(** [size] times: take the back, append it to the result, remove it. *)
Fixpoint PopAll_loop (size : nat) (l ret : list GraphItem) : result (list GraphItem * list GraphItem) :=
  match size with
  | O => Ok (l, ret)
  | S size => match list.last l with
              | None => Panic NilDereference
              | Some item => PopAll_loop size (removelast l) (ret ++ [item])
              end
  end.
Definition SafeLinkedList_PopAll (this : SafeLinkedList) : result (SafeLinkedList * list GraphItem) :=
  let! (l, ret) := PopAll_loop (length (L this)) (L this) [] in
  Ok (mkSafeLinkedList (Flag this) l, ret).

(** [for i := size - 1; i >= 0; i-- { this.L.PushBack(items[i]) }]. *)
Definition SafeLinkedList_PushAll (this : SafeLinkedList) (items : list GraphItem) : SafeLinkedList :=
  mkSafeLinkedList (Flag this) (fold_left (fun l item => l ++ [item]) (reverse items) (L this)).

(** From the back to the front. *)
Definition SafeLinkedList_FetchAll (this : SafeLinkedList) : list GraphItem * Z := (reverse (L this), Flag this).

(** ** store.go *)

Record GraphItemMap := mkGraphItemMap {
  A : list (gmap string SafeLinkedList);
  Size : Z }.

(** A short key is copied to a buffer on the stack before it is hashed. *)
Definition copy_to (scratch key : list Z) : list Z := take (length scratch) key ++ drop (length key) scratch.
Definition hashKey (key : string) : Z :=
  if str_len key <? 64 then
    let scratch := copy_to (replicate 64 0) (bytes_of key) in
    crc32_ChecksumIEEE (take (String.length key) scratch)
  else crc32_ChecksumIEEE (bytes_of key).

Definition getWts (key : string) (now : Z) : Z :=
  i64 (now + CACHE_TIME - Z.rem (hashKey key) CACHE_TIME).

(** [idx := hashKey(key) % uint32(this.Size)], and the map [this.A[idx]]. *)
Definition bucket (this : GraphItemMap) (key : string) : result (Z * gmap string SafeLinkedList) :=
  let! idx := go_rem (hashKey key) (u32 (Size this)) in
  let! m := index (A this) idx in
  Ok (idx, m).

(** Writing the map at [idx], or the list under [key] in it. *)
Definition put_bucket (this : GraphItemMap) (idx : Z) (m : gmap string SafeLinkedList) : GraphItemMap :=
  mkGraphItemMap (<[Z.to_nat idx := m]> (A this)) (Size this).

Definition GraphItemMap_Get (this : GraphItemMap) (key : string) : result (option SafeLinkedList) :=
  let! (_, m) := bucket this key in Ok (m !! key).

Definition GraphItemMap_Remove (this : GraphItemMap) (key : string) : result (GraphItemMap * bool) :=
  let! (idx, m) := bucket this key in
  match m !! key with
  | None => Ok (this, false)
  | Some _ => Ok (put_bucket this idx (delete key m), true)
  end.

Definition GraphItemMap_Getitems (this : GraphItemMap) (idx : Z) : result (GraphItemMap * gmap string SafeLinkedList) :=
  let! items := index (A this) idx in
  Ok (put_bucket this idx ∅, items).

Definition GraphItemMap_Set (this : GraphItemMap) (key : string) (val : SafeLinkedList) : result GraphItemMap :=
  let! (idx, m) := bucket this key in
  Ok (put_bucket this idx (<[key := val]> m)).

Definition GraphItemMap_Len (this : GraphItemMap) : result Z :=
  for_slice (A this) 0 (Size this) (fun l m => Ok (l + Z.of_nat (size m), true)) 0.

Definition GraphItemMap_First (this : GraphItemMap) (key : string) : result (option GraphItem) :=
  let! (_, m) := bucket this key in
  match m !! key with
  | None => Ok None
  | Some sl => Ok (SafeLinkedList_Front sl)
  end.

(** The error "not exist" is [None]. *)
Definition GraphItemMap_PushAll (this : GraphItemMap) (key : string) (items : list GraphItem)
    : result (option GraphItemMap) :=
  let! (idx, m) := bucket this key in
  match m !! key with
  | None => Ok None
  | Some sl => Ok (Some (put_bucket this idx (<[key := SafeLinkedList_PushAll sl items]> m)))
  end.

Definition GraphItemMap_GetFlag (this : GraphItemMap) (key : string) : result (option Z) :=
  let! (_, m) := bucket this key in Ok (Flag <$> m !! key).

Definition GraphItemMap_SetFlag (this : GraphItemMap) (key : string) (flag : Z) : result (option GraphItemMap) :=
  let! (idx, m) := bucket this key in
  match m !! key with
  | None => Ok None
  | Some sl => Ok (Some (put_bucket this idx (<[key := mkSafeLinkedList flag (L sl)]> m)))
  end.

Definition GraphItemMap_PopAll (this : GraphItemMap) (key : string) : result (GraphItemMap * list GraphItem) :=
  let! (idx, m) := bucket this key in
  match m !! key with
  | None => Ok (this, [])
  | Some sl =>
      let! (sl, ret) := SafeLinkedList_PopAll sl in
      Ok (put_bucket this idx (<[key := sl]> m), ret)
  end.

Definition GraphItemMap_FetchAll (this : GraphItemMap) (key : string) : result (list GraphItem * Z) :=
  let! (_, m) := bucket this key in
  match m !! key with
  | None => Ok ([], 0)
  | Some sl => Ok (SafeLinkedList_FetchAll sl)
  end.

(** [exists_file] is what the disk holds; the list [Get] returns is the one in
    the map, which [PushFront] changes in place. *)
Definition GraphItemMap_PushFront (exists_file : string -> bool) (cfg : GraphConfig) (this : GraphItemMap)
    (key : string) (item : GraphItem) (md5 : string) : result GraphItemMap :=
  let! (idx, m) := bucket this key in
  match m !! key with
  | Some linkedList => Ok (put_bucket this idx (<[key := SafeLinkedList_PushFront linkedList item]> m))
  | None =>
      let safeList := SafeLinkedList_PushFront NewSafeLinkedList item in
      if Migrate_Enabled cfg then
        let! filename := RrdFileName (RRD_Storage cfg) md5 (GraphItem_DsType item) (GraphItem_Step item) in
        let safeList := if exists_file filename then safeList else mkSafeLinkedList GRAPH_F_MISS (L safeList) in
        GraphItemMap_Set this key safeList
      else GraphItemMap_Set this key safeList
  end.

Definition GraphItemMap_KeysByIndex `{MapRange} (this : GraphItemMap) (idx : Z) : result (list string) :=
  let! m := index (A this) idx in Ok (range_keys m).

Definition GraphItemMap_Back (this : GraphItemMap) (key : string) : result (option GraphItem) :=
  let! (_, m) := bucket this key in
  match m !! key with
  | None => Ok None
  | Some sl => Ok (SafeLinkedList_Back sl)
  end.

Definition GraphItemMap_ItemCnt (this : GraphItemMap) (key : string) : result Z :=
  let! (_, m) := bucket this key in
  match m !! key with
  | None => Ok 0
  | Some sl => Ok (SafeLinkedList_Len sl)
  end.

(** [init]: CACHE_TIME / FLUSH_DISK_STEP empty maps. *)
Definition GraphItems_init : GraphItemMap :=
  let size := Z.quot CACHE_TIME FLUSH_DISK_STEP in
  mkGraphItemMap (replicate (Z.to_nat size) ∅) size.

(** * The map behind the shards *)

(** The union of the shards. *)
Definition flat (this : GraphItemMap) : gmap string SafeLinkedList := foldr (∪) ∅ (A this).

(** Every key is in the shard of its hash. *)
Record store_wf (this : GraphItemMap) : Prop := {
  wf_size : 0 < Size this < 2 ^ 32;
  wf_length : length (A this) = Z.to_nat (Size this);
  wf_shard i m key : A this !! i = Some m -> is_Some (m !! key) -> Z.of_nat i = hashKey key mod Size this }.

Lemma copy_take (key : list Z) (n : nat) :
  (length key <= n)%nat -> take (length key) (copy_to (replicate n 0) key) = key.
Proof.
  intros Hn. unfold copy_to. rewrite length_replicate, (take_ge key n) by done. by rewrite take_app_length.
Qed.

(** The copy does not change the hash. *)
Lemma hashKey_crc32 key : hashKey key = crc32_ChecksumIEEE (bytes_of key).
Proof.
  unfold hashKey, str_len. case_bool; [|done]. cbv zeta. rewrite <- bytes_of_length, copy_take; [done|].
  rewrite bytes_of_length. lia.
Qed.

Lemma hashKey_range key : 0 <= hashKey key < 2 ^ 32.
Proof. rewrite hashKey_crc32. apply crc32_range. Qed.

Lemma bucket_wf this key :
  store_wf this ->
  exists m, bucket this key = Ok (hashKey key mod Size this, m) /\
    A this !! Z.to_nat (hashKey key mod Size this) = Some m.
Proof.
  intros Hwf. pose proof (wf_size _ Hwf) as Hs. pose proof (wf_length _ Hwf) as Hl.
  pose proof (hashKey_range key) as Hk. pose proof (Z.mod_pos_bound (hashKey key) (Size this) ltac:(lia)) as Hi.
  destruct (lookup_lt_is_Some_2 (A this) (Z.to_nat (hashKey key mod Size this))) as [m Hm]; [lia|].
  exists m. split; [|done]. unfold bucket, go_rem, u32. rewrite (Z.mod_small (Size this)) by lia.
  rewrite (proj2 (Z.eqb_neq _ _)) by lia. rewrite Z.rem_mod_nonneg by lia. cbn [rbind].
  pose proof (index_nat _ _ _ Hm) as Ei. rewrite Z2Nat.id in Ei by lia. by rewrite Ei.
Qed.

(** A key in no other shard is looked up in its own. *)
Lemma foldr_union_lookup (l : list (gmap string SafeLinkedList)) i m key :
  l !! i = Some m -> (forall j m', l !! j = Some m' -> j <> i -> m' !! key = None) ->
  foldr (∪) ∅ l !! key = m !! key.
Proof.
  revert i; induction l as [|m0 l IH]; intros i Hi Hoth; [done|]. cbn [foldr]. rewrite lookup_union.
  destruct i as [|i].
  - injection Hi as ->. assert (foldr (∪) ∅ l !! key = None) as ->; [|by destruct (m !! key)].
    assert (forall j m', l !! j = Some m' -> m' !! key = None) as Hn
      by (intros j m' Hj; exact (Hoth (S j) m' Hj ltac:(lia))).
    clear -Hn. induction l as [|m1 l IH]; [apply lookup_empty|]. cbn [foldr].
    rewrite lookup_union, (Hn O m1 eq_refl), IH; [done|]. intros j m' Hj. exact (Hn (S j) m' Hj).
  - rewrite (Hoth O m0 eq_refl) by lia. rewrite (IH i) by (done || (intros j m' Hj Hne; apply (Hoth (S j) m' Hj); lia)).
    by destruct (m !! key).
Qed.

Lemma flat_lookup this key m :
  store_wf this -> A this !! Z.to_nat (hashKey key mod Size this) = Some m -> flat this !! key = m !! key.
Proof.
  intros Hwf Hm. unfold flat. eapply foldr_union_lookup; [exact Hm|]. intros j m' Hj Hne.
  destruct (m' !! key) eqn:E; [|done]. destruct Hne.
  rewrite <- (wf_shard _ Hwf j m' key Hj) by (by rewrite E). by rewrite Nat2Z.id.
Qed.

(** Writing under a key changes the map at that key only. *)
Lemma put_bucket_spec this key m o :
  store_wf this -> A this !! Z.to_nat (hashKey key mod Size this) = Some m ->
  let this' := put_bucket this (hashKey key mod Size this) (partial_alter (fun _ => o) key m) in
  store_wf this' /\ flat this' = partial_alter (fun _ => o) key (flat this).
Proof.
  intros Hwf Hm this'. pose proof (wf_size _ Hwf) as Hs.
  assert (forall j m', A this' !! j = Some m' -> exists m0, A this !! j = Some m0 /\
    forall k, k <> key -> m' !! k = m0 !! k) as Hold.
  { intros j m' Hj. simpl in Hj. apply list_lookup_insert_Some in Hj as [(<- & <- & _)|[_ Hj]]; [|by exists m'].
    exists m. split; [done|]. intros k Hk. by rewrite lookup_partial_alter_ne. }
  assert (store_wf this') as Hwf'.
  { split; [done | simpl; rewrite length_insert; apply Hwf |].
    intros i m' k Hi Hk. destruct (decide (k = key)) as [->|Hne].
    - simpl in Hi. apply list_lookup_insert_Some in Hi as [(<- & <- & _)|[Hj Hi]].
      + pose proof (Z.mod_pos_bound (hashKey key) (Size this)). simpl. lia.
      + by apply (wf_shard _ Hwf i m' key).
    - destruct (Hold _ _ Hi) as (m0 & Hm0 & E). apply (wf_shard _ Hwf i m0); [done|]. by rewrite <- E. }
  split; [done|]. apply map_eq. intros k.
  destruct (bucket_wf this k Hwf) as (mk & _ & Hmk).
  rewrite lookup_partial_alter. destruct (decide (k = key)) as [->|Hne].
  - rewrite decide_True by done. rewrite (flat_lookup this' key (partial_alter (fun _ => o) key m)).
    + by rewrite lookup_partial_alter_eq.
    + done.
    + simpl. apply list_lookup_insert_eq. by eapply lookup_lt_Some.
  - rewrite decide_False by done. destruct (bucket_wf this' k Hwf') as (m' & _ & Hm').
    rewrite (flat_lookup this' k m') by done. destruct (Hold _ _ Hm') as (m0 & Hm0 & E).
    rewrite E by done. symmetry. by apply flat_lookup.
Qed.

(** * Operations *)

Lemma PopAll_loop_spec l ret : PopAll_loop (length l) l ret = Ok ([], ret ++ reverse l).
Proof.
  revert ret; induction l as [|x l IH] using rev_ind; intros ret; [by rewrite app_nil_r|].
  rewrite length_app, Nat.add_comm. cbn [length Nat.add PopAll_loop].
  rewrite list.last_snoc, removelast_last, IH, reverse_app, <- app_assoc. done.
Qed.

Lemma PopAll_spec this :
  SafeLinkedList_PopAll this = Ok (mkSafeLinkedList (Flag this) [], reverse (L this)).
Proof. unfold SafeLinkedList_PopAll. by rewrite PopAll_loop_spec. Qed.

Lemma PushAll_spec this items :
  SafeLinkedList_PushAll this items = mkSafeLinkedList (Flag this) (L this ++ reverse items).
Proof.
  unfold SafeLinkedList_PushAll. f_equal. generalize (L this) (reverse items). clear.
  intros l items. revert l; induction items as [|x items IH]; intros l; simpl; [by rewrite app_nil_r|].
  by rewrite IH, <- app_assoc.
Qed.

(** The operations on one key, and what they answer. *)
Inductive store_op :=
  | OpGet (key : string)
  | OpRemove (key : string)
  | OpSet (key : string) (val : SafeLinkedList)
  | OpFirst (key : string)
  | OpPushAll (key : string) (items : list GraphItem)
  | OpGetFlag (key : string)
  | OpSetFlag (key : string) (flag : Z)
  | OpPopAll (key : string)
  | OpFetchAll (key : string)
  | OpPushFront (key : string) (item : GraphItem) (raw : string)
  | OpBack (key : string)
  | OpItemCnt (key : string).

Inductive store_reply :=
  | ReplyDone
  | ReplyList (l : option SafeLinkedList)
  | ReplyBool (b : bool)
  | ReplyItem (i : option GraphItem)
  | ReplyItems (items : list GraphItem)
  | ReplyFetch (items : list GraphItem) (flag : Z)
  | ReplyFlag (f : option Z)
  | ReplyCount (n : Z).

(** The result [None] of an operation is its error "not exist". *)
Definition reply_exists (this : GraphItemMap) (o : option GraphItemMap) : GraphItemMap * store_reply :=
  match o with
  | Some this' => (this', ReplyBool true)
  | None => (this, ReplyBool false)
  end.

Section ops.
Context (exists_file : string -> bool) (cfg : GraphConfig).

Definition run_op (this : GraphItemMap) (op : store_op) : result (GraphItemMap * store_reply) :=
  match op with
  | OpGet key => let! r := GraphItemMap_Get this key in Ok (this, ReplyList r)
  | OpRemove key => let! (this', r) := GraphItemMap_Remove this key in Ok (this', ReplyBool r)
  | OpSet key val => let! this' := GraphItemMap_Set this key val in Ok (this', ReplyDone)
  | OpFirst key => let! r := GraphItemMap_First this key in Ok (this, ReplyItem r)
  | OpPushAll key items => let! r := GraphItemMap_PushAll this key items in Ok (reply_exists this r)
  | OpGetFlag key => let! r := GraphItemMap_GetFlag this key in Ok (this, ReplyFlag r)
  | OpSetFlag key flag => let! r := GraphItemMap_SetFlag this key flag in Ok (reply_exists this r)
  | OpPopAll key => let! (this', r) := GraphItemMap_PopAll this key in Ok (this', ReplyItems r)
  | OpFetchAll key => let! (r, f) := GraphItemMap_FetchAll this key in Ok (this, ReplyFetch r f)
  | OpPushFront key item raw =>
      let! this' := GraphItemMap_PushFront exists_file cfg this key item (Md5 raw) in Ok (this', ReplyDone)
  | OpBack key => let! r := GraphItemMap_Back this key in Ok (this, ReplyItem r)
  | OpItemCnt key => let! r := GraphItemMap_ItemCnt this key in Ok (this, ReplyCount r)
  end.

(** The flag of a new list. *)
Definition new_flag (item : GraphItem) (raw : string) : Z :=
  if Migrate_Enabled cfg &&
     negb (exists_file (RRD_Storage cfg +:+ "/" +:+ str_take 2 (Md5 raw) +:+ "/"
       +:+ FormRrdCacheKey (Md5 raw) (GraphItem_DsType item) (GraphItem_Step item) +:+ ".rrd"))
  then GRAPH_F_MISS else 0.

(** What the operations mean on one map from keys to lists. *)
Definition spec_op (f : gmap string SafeLinkedList) (op : store_op) : gmap string SafeLinkedList * store_reply :=
  match op with
  | OpGet key => (f, ReplyList (f !! key))
  | OpRemove key => (delete key f, ReplyBool (bool_decide (is_Some (f !! key))))
  | OpSet key val => (<[key := val]> f, ReplyDone)
  | OpFirst key => (f, ReplyItem (f !! key ≫= fun sl => head (L sl)))
  | OpPushAll key items =>
      (alter (fun sl => mkSafeLinkedList (Flag sl) (L sl ++ reverse items)) key f,
       ReplyBool (bool_decide (is_Some (f !! key))))
  | OpGetFlag key => (f, ReplyFlag (Flag <$> f !! key))
  | OpSetFlag key flag =>
      (alter (fun sl => mkSafeLinkedList flag (L sl)) key f, ReplyBool (bool_decide (is_Some (f !! key))))
  | OpPopAll key =>
      (alter (fun sl => mkSafeLinkedList (Flag sl) []) key f,
       ReplyItems (reverse (default [] (L <$> f !! key))))
  | OpFetchAll key =>
      (f, ReplyFetch (reverse (default [] (L <$> f !! key))) (default 0 (Flag <$> f !! key)))
  | OpPushFront key item raw =>
      (<[key := match f !! key with
                | Some sl => mkSafeLinkedList (Flag sl) (item :: L sl)
                | None => mkSafeLinkedList (new_flag item raw) [item]
                end]> f, ReplyDone)
  | OpBack key => (f, ReplyItem (f !! key ≫= fun sl => list.last (L sl)))
  | OpItemCnt key => (f, ReplyCount (Z.of_nat (length (default [] (L <$> f !! key)))))
  end.

(** One operation on the shards is the operation on the map behind them. *)
Lemma run_op_refines this op :
  store_wf this ->
  exists this', run_op this op = Ok (this', snd (spec_op (flat this) op)) /\
    store_wf this' /\ flat this' = fst (spec_op (flat this) op).
Proof using Type.
  intros Hwf.
  assert (forall key m o, A this !! Z.to_nat (hashKey key mod Size this) = Some m ->
    store_wf (put_bucket this (hashKey key mod Size this) (partial_alter (fun _ => o) key m)) /\
    flat (put_bucket this (hashKey key mod Size this) (partial_alter (fun _ => o) key m))
      = partial_alter (fun _ => o) key (flat this)) as Hput by (intros; by apply put_bucket_spec).
  assert (forall (f : gmap string SafeLinkedList) key sl (g : SafeLinkedList -> SafeLinkedList),
    f !! key = Some sl -> <[key := g sl]> f = alter g key f) as Halter.
  { intros f key sl g E. apply map_eq. intros k. destruct (decide (key = k)) as [->|];
      [by rewrite lookup_insert_eq, lookup_alter_eq, E | by rewrite lookup_insert_ne, lookup_alter_ne]. }
  destruct op as [key|key|key val|key|key items|key|key flag|key|key|key item raw|key|key]; cbn [run_op spec_op fst snd].
  all: unfold GraphItemMap_Get, GraphItemMap_Remove, GraphItemMap_Set, GraphItemMap_First, GraphItemMap_PushAll,
    GraphItemMap_GetFlag, GraphItemMap_SetFlag, GraphItemMap_PopAll, GraphItemMap_FetchAll, GraphItemMap_PushFront,
    GraphItemMap_Back, GraphItemMap_ItemCnt.
  all: destruct (bucket_wf this key Hwf) as (m & Eb & Hm); rewrite ?Eb; cbn [rbind].
  all: pose proof (flat_lookup this key m Hwf Hm) as Ek; rewrite ?Ek.
  - by exists this.
  - destruct (m !! key) as [sl|] eqn:E; cbn [rbind].
    + eexists. split; [done|]. apply (Hput key m None Hm).
    + exists this. split; [done|]. split; [done|]. by rewrite delete_id.
  - eexists. split; [done|]. apply (Hput key m (Some val) Hm).
  - exists this. split; [|done]. by destruct (m !! key).
  - destruct (m !! key) as [sl|] eqn:E; cbn [rbind reply_exists].
    + eexists. split; [done|]. rewrite PushAll_spec, <- (Halter _ _ sl) by done. apply (Hput key m (Some _) Hm).
    + exists this. split; [done|]. split; [done|]. by rewrite alter_id by (rewrite Ek; naive_solver).
  - by exists this.
  - destruct (m !! key) as [sl|] eqn:E; cbn [rbind reply_exists].
    + eexists. split; [done|]. rewrite <- (Halter _ _ sl (fun sl => mkSafeLinkedList flag (L sl))) by done.
      apply (Hput key m (Some _) Hm).
    + exists this. split; [done|]. split; [done|]. by rewrite alter_id by (rewrite Ek; naive_solver).
  - destruct (m !! key) as [sl|] eqn:E; cbn [rbind].
    + rewrite PopAll_spec. cbn [rbind]. eexists. split; [done|].
      rewrite <- (Halter _ _ sl (fun sl => mkSafeLinkedList (Flag sl) [])) by done. apply (Hput key m (Some _) Hm).
    + exists this. split; [done|]. split; [done|]. by rewrite alter_id by (rewrite Ek; naive_solver).
  - exists this. split; [|done]. by destruct (m !! key).
  - destruct (m !! key) as [sl|] eqn:E; cbn [rbind].
    + eexists. split; [done|]. apply (Hput key m (Some _) Hm).
    + unfold new_flag. destruct (Migrate_Enabled cfg); cbn [andb].
      * rewrite RrdFileName_Md5. cbn [rbind]. unfold GraphItemMap_Set. rewrite Eb. cbn [rbind]. eexists. split; [done|].
        destruct (exists_file _); apply (Hput key m (Some _) Hm).
      * unfold GraphItemMap_Set. rewrite Eb. cbn [rbind]. eexists. split; [done|]. apply (Hput key m (Some _) Hm).
  - exists this. split; [|done]. by destruct (m !! key).
  - exists this. split; [|done]. by destruct (m !! key).
Qed.
End ops.

Lemma store_wf_init : store_wf GraphItems_init.
Proof.
  unfold GraphItems_init. split; cbn [A Size]; [done | by rewrite length_replicate |].
  intros i m key [-> _]%lookup_replicate [? []%lookup_empty_Some].
Qed.

Lemma flat_init : flat GraphItems_init = ∅.
Proof. unfold flat, GraphItems_init. cbn [A]. generalize (Z.to_nat (Z.quot CACHE_TIME FLUSH_DISK_STEP)).
  intros n. induction n as [|n IH]; [done|]. cbn [replicate foldr]. rewrite IH. by rewrite (left_id_L ∅ (∪)). Qed.

(** Runs of operations, with their answers in order. *)
Definition run_ops exists_file cfg (s : GraphItemMap * list store_reply) (op : store_op)
    : result (GraphItemMap * list store_reply) :=
  let! (this, r) := run_op exists_file cfg (fst s) op in Ok (this, snd s ++ [r]).
Definition spec_ops exists_file cfg (s : gmap string SafeLinkedList * list store_reply) (op : store_op) :=
  let '(f, r) := spec_op exists_file cfg (fst s) op in (f, snd s ++ [r]).

Lemma run_ops_refine exists_file cfg ops this rs :
  store_wf this ->
  exists this', rfold (run_ops exists_file cfg) (this, rs) ops
      = Ok (this', snd (fold_left (spec_ops exists_file cfg) ops (flat this, rs))) /\
    store_wf this' /\ flat this' = fst (fold_left (spec_ops exists_file cfg) ops (flat this, rs)).
Proof.
  revert this rs; induction ops as [|op ops IH]; intros this rs Hwf; [by exists this|].
  cbn [rfold fold_left]. unfold run_ops at 1, spec_ops at 2 4. cbn [fst snd].
  destruct (run_op_refines exists_file cfg this op Hwf) as (this1 & -> & Hwf1 & E1). cbn [rbind].
  destruct (IH this1 (rs ++ [(spec_op exists_file cfg (flat this) op).2]) Hwf1) as (this2 & -> & Hwf2 & E2).
  rewrite E1 in *. destruct (spec_op exists_file cfg (flat this) op) as [f r]. by exists this2.
Qed.

(** ** One operation at a time *)

Section one_op.
Context (this : GraphItemMap) (Hwf : store_wf this).

(** The points under a key. *)
Definition points_of (m : GraphItemMap) (key : string) : list GraphItem := default [] (L <$> flat m !! key).

Definition no_cfg : GraphConfig := mkGraphConfig "" 1 1 false 0 0 ∅.

Lemma PopAll_op key :
  exists m, GraphItemMap_PopAll this key = Ok (m, reverse (points_of this key)) /\ store_wf m /\ Size m = Size this /\
    flat m = alter (fun sl => mkSafeLinkedList (Flag sl) []) key (flat this).
Proof using Hwf.
  destruct (run_op_refines (fun _ => true) no_cfg this (OpPopAll key) Hwf) as (m & E & Hm & Ef).
  cbn [run_op spec_op fst snd] in *. apply rbind_Ok_inv in E as ([m' r] & E1 & E). injection E as -> ->.
  exists m. split_and!; [done | done | | done].
  unfold GraphItemMap_PopAll in E1. apply rbind_Ok_inv in E1 as ([i b] & _ & E1).
  destruct (b !! key); [|by injection E1 as <- _]. rewrite PopAll_spec in E1. by injection E1 as <- _.
Qed.

Lemma PushAll_op key items :
  is_Some (flat this !! key) ->
  exists m, GraphItemMap_PushAll this key items = Ok (Some m) /\ store_wf m /\ Size m = Size this /\
    flat m = alter (fun sl => mkSafeLinkedList (Flag sl) (L sl ++ reverse items)) key (flat this).
Proof using Hwf.
  intros Hk. destruct (run_op_refines (fun _ => true) no_cfg this (OpPushAll key items) Hwf) as (m & E & Hm & Ef).
  cbn [run_op spec_op fst snd] in *. rewrite bool_decide_true in E by done.
  apply rbind_Ok_inv in E as ([m'|] & E1 & E); [|done]. injection E as ->.
  exists m. split_and!; [done | done | | done].
  unfold GraphItemMap_PushAll in E1. apply rbind_Ok_inv in E1 as ([i b] & _ & E1).
  destruct (b !! key); by simplify_eq.
Qed.

Lemma SetFlag_op key flag :
  is_Some (flat this !! key) ->
  exists m, GraphItemMap_SetFlag this key flag = Ok (Some m) /\ store_wf m /\ Size m = Size this /\
    flat m = alter (fun sl => mkSafeLinkedList flag (L sl)) key (flat this).
Proof using Hwf.
  intros Hk. destruct (run_op_refines (fun _ => true) no_cfg this (OpSetFlag key flag) Hwf) as (m & E & Hm & Ef).
  cbn [run_op spec_op fst snd] in *. rewrite bool_decide_true in E by done.
  apply rbind_Ok_inv in E as ([m'|] & E1 & E); [|done]. injection E as ->.
  exists m. split_and!; [done | done | | done].
  unfold GraphItemMap_SetFlag in E1. apply rbind_Ok_inv in E1 as ([i b] & _ & E1).
  destruct (b !! key); by simplify_eq.
Qed.

Lemma GetFlag_op key : GraphItemMap_GetFlag this key = Ok (Flag <$> flat this !! key).
Proof using Hwf.
  destruct (run_op_refines (fun _ => true) no_cfg this (OpGetFlag key) Hwf) as (m & E & _).
  cbn [run_op spec_op fst snd] in *. apply rbind_Ok_inv in E as (r & -> & E). by injection E as _ ->.
Qed.

Lemma First_op key : GraphItemMap_First this key = Ok (head (points_of this key)).
Proof using Hwf.
  destruct (run_op_refines (fun _ => true) no_cfg this (OpFirst key) Hwf) as (m & E & _).
  cbn [run_op spec_op fst snd] in *. apply rbind_Ok_inv in E as (r & -> & E). injection E as _ ->.
  unfold points_of. by destruct (flat this !! key).
Qed.

Lemma Back_op key : GraphItemMap_Back this key = Ok (list.last (points_of this key)).
Proof using Hwf.
  destruct (run_op_refines (fun _ => true) no_cfg this (OpBack key) Hwf) as (m & E & _).
  cbn [run_op spec_op fst snd] in *. apply rbind_Ok_inv in E as (r & -> & E). injection E as _ ->.
  unfold points_of. by destruct (flat this !! key).
Qed.

Lemma ItemCnt_op key : GraphItemMap_ItemCnt this key = Ok (Z.of_nat (length (points_of this key))).
Proof using Hwf.
  destruct (run_op_refines (fun _ => true) no_cfg this (OpItemCnt key) Hwf) as (m & E & _).
  cbn [run_op spec_op fst snd] in *. apply rbind_Ok_inv in E as (r & -> & E). by injection E as _ ->.
Qed.
End one_op.

(** ** Counting and listing *)

Section keys.
Context `{MapRange}.

Lemma KeysByIndex_spec this idx :
  store_wf this -> 0 <= idx < Size this ->
  exists keys, GraphItemMap_KeysByIndex this idx = Ok keys /\
    forall key, key ∈ keys <-> is_Some (flat this !! key) /\ hashKey key mod Size this = idx.
Proof using Type.
  intros Hwf Hi. pose proof (wf_length _ Hwf) as Hl.
  destruct (lookup_lt_is_Some_2 (A this) (Z.to_nat idx)) as [m Hm]; [lia|].
  pose proof (index_nat _ _ _ Hm) as Ei. rewrite Z2Nat.id in Ei by lia.
  exists (range_keys m). unfold GraphItemMap_KeysByIndex. rewrite Ei. split; [done|].
  intros key. rewrite (range_order_elem m) by apply range_keys_order. split.
  - intros Hk. pose proof (wf_shard _ Hwf _ _ _ Hm Hk) as E. rewrite Z2Nat.id in E by lia.
    split; [|done]. rewrite (flat_lookup this key m); [done | done | by rewrite <- E].
  - intros [Hk E]. by rewrite (flat_lookup this key m) in Hk by (done || by rewrite E).
Qed.

Lemma Len_spec this : store_wf this -> GraphItemMap_Len this = Ok (Z.of_nat (size (flat this))).
Proof using Type.
  intros Hwf. unfold GraphItemMap_Len. pose proof (wf_size _ Hwf) as Hs. pose proof (wf_length _ Hwf) as Hl.
  replace (Size this) with (Z.of_nat (length (A this))) by lia. change 0 with (Z.of_nat 0) at 1.
  rewrite for_slice_spec, drop_0, Nat.sub_0_r, firstn_all by done. unfold flat.
  assert (forall i j m m' key, A this !! i = Some m -> A this !! j = Some m' ->
    is_Some (m !! key) -> is_Some (m' !! key) -> i = j) as Hd.
  { intros i j m m' key Hi Hj H1 H2. pose proof (wf_shard _ Hwf _ _ _ Hi H1). pose proof (wf_shard _ Hwf _ _ _ Hj H2). lia. }
  clear Hwf Hs Hl.
  assert (forall z, loop_while (fun l m => Ok (l + Z.of_nat (size m), true)) z (A this)
    = Ok (z + Z.of_nat (size (foldr (∪) ∅ (A this) : gmap string SafeLinkedList)))) as Hf; [|by rewrite Hf].
  induction (A this) as [|m l IH]; intros z; cbn [loop_while foldr rbind]; [by rewrite map_size_empty, Z.add_0_r|].
  rewrite IH by (intros i j m1 m2 key Hi Hj H1 H2; pose proof (Hd (S i) (S j) m1 m2 key Hi Hj H1 H2); lia).
  rewrite map_size_disj_union; [f_equal; lia|].
  apply map_disjoint_spec. intros key x y Hx Hy.
  assert (exists j m', l !! j = Some m' /\ m' !! key = Some y) as (j & m' & Hj & Hm').
  { clear -Hy. induction l as [|m1 l IH]; cbn [foldr] in Hy; [by rewrite lookup_empty in Hy|].
    apply lookup_union_Some_raw in Hy as [Hy|[_ Hy]]; [by exists O, m1|].
    destruct (IH Hy) as (j & m' & ? & ?). by exists (S j), m'. }
  pose proof (Hd O (S j) m m' key eq_refl Hj (mk_is_Some _ _ Hx) (mk_is_Some _ _ Hm')). lia.
Qed.
End keys.

(** * Properties *)

(** C11. The sharded map implements one map from keys to lists: any sequence of
    operations on it, from the empty map the service starts with, answers as the
    same operations do on one finite map, and never panics; the shards hold
    exactly that map's entries. Popped items come oldest first, and pushing them
    back restores the list, below the points pushed meanwhile. *)
Theorem store_refines_map (exists_file : string -> bool) (cfg : GraphConfig) (ops : list store_op) :
  exists this, rfold (run_ops exists_file cfg) (GraphItems_init, []) ops
      = Ok (this, snd (fold_left (spec_ops exists_file cfg) ops (∅, []))) /\
    store_wf this /\ flat this = fst (fold_left (spec_ops exists_file cfg) ops (∅, [])).
Proof.
  destruct (run_ops_refine exists_file cfg ops GraphItems_init []) as (this & E & Hwf & Ef); [apply store_wf_init|].
  rewrite flat_init in *. by exists this.
Qed.

(** The number of lists and the keys of each shard are those of the map:
    [Len] counts its entries and the keys of the shards are its keys, each in the
    shard of its hash only. *)
Theorem store_counts_and_lists `{MapRange} (this : GraphItemMap) :
  store_wf this ->
  GraphItemMap_Len this = Ok (Z.of_nat (size (flat this))) /\
  forall idx, 0 <= idx < Size this -> exists keys, GraphItemMap_KeysByIndex this idx = Ok keys /\
    forall key, key ∈ keys <-> is_Some (flat this !! key) /\ hashKey key mod Size this = idx.
Proof. intros Hwf. split; [by apply Len_spec | intros; by apply KeysByIndex_spec]. Qed.

Lemma store_counts_and_lists_witness :
  GraphItemMap_Len GraphItems_init = Ok 0 /\ exists keys, @GraphItemMap_KeysByIndex map_range_default GraphItems_init 7 = Ok keys.
Proof.
  destruct (@store_counts_and_lists map_range_default GraphItems_init store_wf_init) as [E Hk]. split.
  - rewrite flat_init in E. exact E.
  - destruct (Hk 7) as (keys & E' & _); [change (Size GraphItems_init) with 1800; lia | exists keys; exact E'].
Defined.
