(* ===== verification/GraphIndex.v ===== *)
(** modules/graph/index and store/history.go: the index of the series graph
    knows (which of them MySQL has), the type and step of a series, and the last
    points of each. *)
From Stdlib Require Import Ascii ZArith.
From stdpp Require Import base list gmap strings numbers sorting.
From S2P Require Import Prelude GoString GoFloat GoHash Utils Model ThirdParty GraphUtil GraphStore.

Local Open Scope Z_scope.

(** ** The index cache *)

Record IndexCacheItem := mkIndexCacheItem {
  IndexCacheItem_UUID : string;
  IndexCacheItem_Item : GraphItem }.
Definition NewIndexCacheItem (uuid : string) (item : GraphItem) : IndexCacheItem := mkIndexCacheItem uuid item.

Abbreviation IndexCacheBase := (gmap string IndexCacheItem).
Definition IndexCacheBase_Put (this : IndexCacheBase) (key : string) (item : IndexCacheItem) : IndexCacheBase :=
  <[key := item]> this.
Definition IndexCacheBase_Remove (this : IndexCacheBase) (key : string) : IndexCacheBase := delete key this.
Definition IndexCacheBase_Get (this : IndexCacheBase) (key : string) : option IndexCacheItem := this !! key.
Definition IndexCacheBase_ContainsKey (this : IndexCacheBase) (key : string) : bool :=
  match this !! key with Some _ => true | None => false end.
Definition IndexCacheBase_Size (this : IndexCacheBase) : Z := Z.of_nat (size this).
Definition IndexCacheBase_Keys `{MapRange} (this : IndexCacheBase) : list string := range_keys this.

(** ** The disk and the database *)

(** The disk as far as it decides what the service does: which files exist, and
    the file operations of toolkits/file. *)
Class Disk (D : Type) := {
  file_IsExist : D -> string -> bool;
  file_Remove : D -> string -> D;
  file_Remove_spec d f f' : file_IsExist (file_Remove d f) f' = file_IsExist d f' && negb (bool_decide (f = f')) }.

(** A query gives a row, no row, or an error. *)
Inductive sql (V : Type) := SqlRow (v : V) | SqlNoRows | SqlErr.
Arguments SqlRow {V}.
Arguments SqlNoRows {V}.
Arguments SqlErr {V}.

(** The insert-or-update statements of the index tables. *)
Inductive index_stmt :=
  | InsertEndpoint (endpoint : string) (ts : Z)
  | InsertTagEndpoint (tag : string) (endpoint_id ts : Z)
  | InsertEndpointCounter (endpoint_id : Z) (counter : string) (step : Z) (dsType : string) (ts : Z).

(** A database: what its statements and queries do is an argument of the model;
    a failed statement gives [None]. *)
Class IndexDb (DB : Type) := {
  db_exec : index_stmt -> DB -> option DB;
  db_endpoint_id : DB -> string -> sql Z;
  db_type_step : DB -> Z -> string -> sql (string * Z) }.

(** ** store/history.go *)

Section history.
Context `{LimitedList, NMap}.

Definition defaultHistorySize : Z := 3.
Definition HistoryCacheT : Type := SafeMap (SafeListLimited GraphItem).

Definition empty_item : GraphItem := mkGraphItem "" "" ∅ f64_zero 0 "" 0 0 "" "".

Definition GetLastItem (hc : HistoryCacheT) (key : string) : GraphItem :=
  match NM_Get hc key with
  | None => empty_item
  | Some itemlist => match SL_Front itemlist with
                     | None => empty_item
                     | Some first => first
                     end
  end.

Definition GetAllItems (hc : HistoryCacheT) (key : string) : list GraphItem :=
  match NM_Get hc key with
  | None => []
  | Some itemlist => SL_FrontAll itemlist
  end.

(** The list is shared with the cache: a push changes the cached list. *)
Definition AddItem (hc : HistoryCacheT) (key : string) (val : GraphItem) : HistoryCacheT :=
  let slist := match NM_Get hc key with
               | None => NewSafeListLimited defaultHistorySize
               | Some itemlist => itemlist
               end in
  let slist := match SL_Front slist with
               | None => SL_PushFrontViolently val slist
               | Some first => if GraphItem_Timestamp first <? GraphItem_Timestamp val
                               then SL_PushFrontViolently val slist else slist
               end in
  NM_Put hc key slist.

(** ** The state of the service *)

Record GraphState (D DB : Type) := mkGraphState {
  GraphItems : GraphItemMap;
  HistoryCache : HistoryCacheT;
  IndexedItemCache : IndexCacheBase;
  unIndexedItemCache : IndexCacheBase;
  dbEndpointCache : gmap string Z;
  dbEndpointCounterCache : gmap string string;
  disk : D;
  db : DB }.
End history.
Arguments mkGraphState {_ _ _ _}.
Arguments GraphItems {_ _ _ _}.
Arguments HistoryCache {_ _ _ _}.
Arguments IndexedItemCache {_ _ _ _}.
Arguments unIndexedItemCache {_ _ _ _}.
Arguments dbEndpointCache {_ _ _ _}.
Arguments dbEndpointCounterCache {_ _ _ _}.
Arguments disk {_ _ _ _}.
Arguments db {_ _ _ _}.

Section state.
Context `{LimitedList, NMap} {D DB : Type} `{!Disk D, !IndexDb DB}.
Implicit Types st : GraphState D DB.

Definition set_GraphItems (m : GraphItemMap) st : GraphState D DB :=
  mkGraphState m (HistoryCache st) (IndexedItemCache st) (unIndexedItemCache st)
    (dbEndpointCache st) (dbEndpointCounterCache st) (disk st) (db st).
Definition set_HistoryCache hc st : GraphState D DB :=
  mkGraphState (GraphItems st) hc (IndexedItemCache st) (unIndexedItemCache st)
    (dbEndpointCache st) (dbEndpointCounterCache st) (disk st) (db st).
Definition set_index (ix un : IndexCacheBase) st : GraphState D DB :=
  mkGraphState (GraphItems st) (HistoryCache st) ix un
    (dbEndpointCache st) (dbEndpointCounterCache st) (disk st) (db st).
Definition set_dbcaches ec cc st : GraphState D DB :=
  mkGraphState (GraphItems st) (HistoryCache st) (IndexedItemCache st) (unIndexedItemCache st)
    ec cc (disk st) (db st).
Definition set_disk d st : GraphState D DB :=
  mkGraphState (GraphItems st) (HistoryCache st) (IndexedItemCache st) (unIndexedItemCache st)
    (dbEndpointCache st) (dbEndpointCounterCache st) d (db st).
Definition set_db b st : GraphState D DB :=
  mkGraphState (GraphItems st) (HistoryCache st) (IndexedItemCache st) (unIndexedItemCache st)
    (dbEndpointCache st) (dbEndpointCounterCache st) (disk st) b.

(** ** index.go *)

Definition ReceiveItem (cfg : GraphConfig) (item : GraphItem) (md5 : string) st : result (GraphState D DB) :=
  let uuid := GraphItem_UUID item in
  match IndexCacheBase_Get (IndexedItemCache st) md5 with
  | Some old =>
      if bool_decide (uuid = IndexCacheItem_UUID old)
      then Ok (set_index (IndexCacheBase_Put (IndexedItemCache st) md5 (NewIndexCacheItem uuid item)) (unIndexedItemCache st) st)
      else Ok (set_index (IndexedItemCache st) (IndexCacheBase_Put (unIndexedItemCache st) md5 (NewIndexCacheItem uuid item)) st)
  | None =>
      let! rrdFileName := RrdFileName (RRD_Storage cfg) md5 (GraphItem_DsType item) (GraphItem_Step item) in
      if file_IsExist (disk st) rrdFileName
      then Ok (set_index (IndexCacheBase_Put (IndexedItemCache st) md5 (NewIndexCacheItem uuid item)) (unIndexedItemCache st) st)
      else Ok (set_index (IndexedItemCache st) (IndexCacheBase_Put (unIndexedItemCache st) md5 (NewIndexCacheItem uuid item)) st)
  end.

Definition RemoveItem (cfg : GraphConfig) (item : GraphItem) st : result (GraphState D DB) :=
  let md5 := GraphItem_Checksum item in
  let st := set_index (IndexCacheBase_Remove (IndexedItemCache st) md5)
              (IndexCacheBase_Remove (unIndexedItemCache st) md5) st in
  let key := FormRrdCacheKey md5 (GraphItem_DsType item) (GraphItem_Step item) in
  let! (items, _) := GraphItemMap_PopAll (GraphItems st) key in
  let! rrdFileName := RrdFileName (RRD_Storage cfg) md5 (GraphItem_DsType item) (GraphItem_Step item) in
  Ok (set_disk (file_Remove (disk st) rrdFileName) (set_GraphItems items st)).

(** ** cache.go *)

Definition GetEndpointFromCache (endpoint : string) st : option Z * GraphState D DB :=
  match dbEndpointCache st !! endpoint with
  | Some endpointId => (Some endpointId, st)
  | None =>
      match db_endpoint_id (db st) endpoint with
      | SqlErr | SqlNoRows => (None, st)
      | SqlRow id => if id <? 0 then (None, st)
                     else (Some id, set_dbcaches (<[endpoint := id]> (dbEndpointCache st)) (dbEndpointCounterCache st) st)
      end
  end.

Definition GetCounterFromCache (endpointId : Z) (counter : string) st : result (option (string * Z) * GraphState D DB) :=
  let key := strconv_Itoa endpointId +:+ "-" +:+ counter in
  match dbEndpointCounterCache st !! key with
  | Some dsTypeStep =>
      let arr := strings_Split dsTypeStep "_" in
      let! s := index arr 1 in
      match strconv_Atoi s with
      | None => Ok (None, st)
      | Some step => let! dsType := index arr 0 in Ok (Some (dsType, step), st)
      end
  | None =>
      match db_type_step (db st) endpointId counter with
      | SqlErr | SqlNoRows => Ok (None, st)
      | SqlRow (dsType, step) =>
          Ok (Some (dsType, step),
              set_dbcaches (dbEndpointCache st)
                (<[key := dsType +:+ "_" +:+ strconv_Itoa step]> (dbEndpointCounterCache st)) st)
      end
  end.

Definition GetTypeAndStep (endpoint counter : string) st : result (option (string * Z) * GraphState D DB) :=
  let pk := Md5 (endpoint +:+ "/" +:+ counter) in
  match IndexCacheBase_Get (IndexedItemCache st) pk with
  | Some icitem =>
      let item := IndexCacheItem_Item icitem in
      Ok (Some (GraphItem_DsType item, GraphItem_Step item), st)
  | None =>
      let '(endpointId, st) := GetEndpointFromCache endpoint st in
      match endpointId with
      | None => Ok (None, st)
      | Some endpointId => GetCounterFromCache endpointId counter st
      end
  end.

(** ** index_update_all_task.go, index_update_incr_task.go *)

(** The statements after the id is known, up to the first that fails. *)
Fixpoint exec_all (stmts : list index_stmt) (b : DB) : DB * bool :=
  match stmts with
  | [] => (b, true)
  | s :: stmts => match db_exec s b with
                  | None => (b, false)
                  | Some b => exec_all stmts b
                  end
  end.

Definition updateIndexFromOneItem `{MapRange} (item : GraphItem) (b : DB) : DB * bool :=
  let ts := GraphItem_Timestamp item in
  match db_exec (InsertEndpoint (GraphItem_Endpoint item) ts) b with
  | None => (b, false)
  | Some b =>
      match db_endpoint_id b (GraphItem_Endpoint item) with
      | SqlErr | SqlNoRows => (b, false)
      | SqlRow endpointId =>
          if endpointId <=? 0 then (b, false)
          else exec_all
            (map (fun '(tagKey, tagVal) => InsertTagEndpoint (tagKey +:+ "=" +:+ tagVal) endpointId ts)
               (range_pairs (GraphItem_Tags item))
             ++ [InsertEndpointCounter endpointId (Counter (GraphItem_Metric item) (GraphItem_Tags item))
                   (GraphItem_Step item) (GraphItem_DsType item) ts]) b
      end
  end.

(** One key of the incremental update; [conn] says whether [GetDbConn] succeeds. *)
Definition updateIndexIncr_one `{MapRange} (s : GraphState D DB * Z) (key : string) : GraphState D DB * Z :=
  let '(st, ret) := s in
  match IndexCacheBase_Get (unIndexedItemCache st) key with
  | None => (set_index (IndexedItemCache st) (IndexCacheBase_Remove (unIndexedItemCache st) key) st, ret)
  | Some icitem =>
      let st := set_index (IndexedItemCache st) (IndexCacheBase_Remove (unIndexedItemCache st) key) st in
      let '(b, ok) := updateIndexFromOneItem (IndexCacheItem_Item icitem) (db st) in
      let st := set_db b st in
      (if ok : bool then set_index (IndexCacheBase_Put (IndexedItemCache st) key icitem) (unIndexedItemCache st) st else st,
       ret + 1)
  end.
Definition updateIndexIncr `{MapRange} (conn : bool) st : GraphState D DB * Z :=
  if IndexCacheBase_Size (unIndexedItemCache st) <=? 0 then (st, 0)
  else if conn then fold_left updateIndexIncr_one (IndexCacheBase_Keys (unIndexedItemCache st)) (st, 0)
  else (st, 0).

Definition updateIndexAll_one `{MapRange} (lastTs : Z) (s : GraphState D DB * Z) (key : string) : GraphState D DB * Z :=
  let '(st, ret) := s in
  match IndexCacheBase_Get (IndexedItemCache st) key with
  | None => (st, ret)
  | Some icitem =>
      let gitem := IndexCacheItem_Item icitem in
      if GraphItem_Timestamp gitem <? lastTs
      then (set_index (IndexCacheBase_Remove (IndexedItemCache st) key) (unIndexedItemCache st) st, ret)
      else (set_db (fst (updateIndexFromOneItem gitem (db st))) st, ret + 1)
  end.
Definition updateIndexAll `{MapRange} (conn : bool) (now updateStepInSec : Z) st : GraphState D DB * Z :=
  if IndexCacheBase_Size (IndexedItemCache st) <=? 0 then (st, 0)
  else if conn then
    let lastTs := i64 (now - updateStepInSec) in
    fold_left (updateIndexAll_one lastTs) (IndexCacheBase_Keys (IndexedItemCache st)) (st, 0)
  else (st, 0).

(** [UpdateIndexOne]; the errors "not found", "bad type or step", and the database's. *)
Inductive UpdateIndexError := ErrNotFound | ErrBadTypeOrStep | ErrDb.
Definition UpdateIndexOne `{MapRange} (conn : bool) (endpoint metric : string) (tags : tagmap) (dstype : string)
    (step : Z) st : option UpdateIndexError * GraphState D DB :=
  let md5 := Checksum endpoint metric tags in
  let uuid := UUID endpoint metric tags dstype step in
  match IndexCacheBase_Get (IndexedItemCache st) md5 with
  | None => (Some ErrNotFound, st)
  | Some icitem =>
      if bool_decide (IndexCacheItem_UUID icitem <> uuid) then (Some ErrBadTypeOrStep, st)
      else if conn then
        let '(b, ok) := updateIndexFromOneItem (IndexCacheItem_Item icitem) (db st) in
        (if ok : bool then None else Some ErrDb, set_db b st)
      else (Some ErrDb, st)
  end.
End state.

(** * Invariants *)

(** Newest first, strictly decreasing times. *)
Definition newest_first (l : list GraphItem) : Prop :=
  StronglySorted (fun a b => GraphItem_Timestamp b < GraphItem_Timestamp a) l.

(** A new point is accepted when it is later than the newest. *)
Definition newer_than (first : option GraphItem) (val : GraphItem) : bool :=
  match first with
  | None => true
  | Some f => GraphItem_Timestamp f <? GraphItem_Timestamp val
  end.

Lemma newest_first_cons l v : newest_first l -> newer_than (head l) v = true -> newest_first (v :: l).
Proof.
  unfold newest_first. intros Hl Hn. constructor; [done|].
  destruct Hl as [|f l Hl Hf]; [constructor|]. simpl in Hn. apply Z.ltb_lt in Hn.
  constructor; [done|]. eapply Forall_impl; [exact Hf|]. simpl. lia.
Qed.

Lemma newest_first_take n l : newest_first l -> newest_first (take n l).
Proof.
  unfold newest_first. intros H. revert n; induction H as [|x l Hl IH Hx]; intros [|n]; simpl; try constructor.
  - apply IH.
  - by apply Forall_take.
Qed.

Section history_inv.
Context `{LimitedList, NMap}.

(** Every list of the cache holds at most three points, newest first. *)
Definition history_inv (hc : HistoryCacheT) : Prop :=
  forall key l, NM_Get hc key = Some l ->
    SL_maxSize l = defaultHistorySize /\ Z.of_nat (length (SL_FrontAll l)) <= defaultHistorySize /\
    newest_first (SL_FrontAll l).

Lemma history_inv_new : history_inv NewSafeMap.
Proof using Type. intros key l. by rewrite NM_Get_new. Qed.

(** A point later than the last one becomes the first of at most three. *)
Lemma AddItem_spec hc key val :
  history_inv hc ->
  history_inv (AddItem hc key val) /\
  forall key', GetAllItems (AddItem hc key val) key' =
    if decide (key = key') then
      if newer_than (head (GetAllItems hc key)) val
      then take 3 (val :: GetAllItems hc key) else GetAllItems hc key
    else GetAllItems hc key'.
Proof using Type.
  intros Hinv. unfold AddItem. set (slist := match NM_Get hc key with None => _ | Some l => l end).
  assert (SL_maxSize slist = defaultHistorySize /\ Z.of_nat (length (SL_FrontAll slist)) <= defaultHistorySize /\
    newest_first (SL_FrontAll slist) /\ GetAllItems hc key = SL_FrontAll slist) as (Hmax & Hlen & Hs & Eg).
  { unfold slist, GetAllItems. destruct (NM_Get hc key) as [l|] eqn:E.
    - by destruct (Hinv key l E) as (? & ? & ?).
    - rewrite SL_new_max, SL_new_all. split_and!; [done | simpl; unfold defaultHistorySize; lia | constructor | done]. }
  set (slist' := match SL_Front slist with None => _ | Some first => _ end).
  assert (slist' = if newer_than (head (SL_FrontAll slist)) val then SL_PushFrontViolently val slist else slist) as Es.
  { unfold slist'. rewrite SL_Front_head. by destruct (head (SL_FrontAll slist)). }
  destruct (SL_PushFrontViolently_spec val slist) as [Hm' Ha']; [lia|].
  assert (SL_maxSize slist' = defaultHistorySize /\ Z.of_nat (length (SL_FrontAll slist')) <= defaultHistorySize /\
    newest_first (SL_FrontAll slist') /\
    SL_FrontAll slist' = if newer_than (head (SL_FrontAll slist)) val
      then take 3 (val :: SL_FrontAll slist) else SL_FrontAll slist) as (Hmax' & Hlen' & Hs' & Ea).
  { rewrite Es. destruct (newer_than (head (SL_FrontAll slist)) val) eqn:En; [|done].
    rewrite Hm', Ha', Hmax. split_and!; [done | rewrite length_take; unfold defaultHistorySize; lia | | done].
    apply newest_first_take. by apply newest_first_cons. }
  split.
  - intros k l. rewrite NM_Get_Put. case_decide; [intros [= <-]; done | apply Hinv].
  - intros k. unfold GetAllItems at 1. rewrite NM_Get_Put. case_decide; subst; [|done].
    by rewrite Ea, Eg.
Qed.
End history_inv.

(** The entries of the index are filed under the checksum of their item, with its UUID. *)
Definition index_wf (c : IndexCacheBase) : Prop :=
  map_Forall (fun key ic => key = GraphItem_Checksum (IndexCacheItem_Item ic) /\
                            IndexCacheItem_UUID ic = GraphItem_UUID (IndexCacheItem_Item ic)) c.

Section index_inv.
Context `{LimitedList, NMap, MapRange} {D DB : Type} `{!Disk D, !IndexDb DB} (cfg : GraphConfig).
Implicit Types st : GraphState D DB.

Definition index_inv st : Prop := index_wf (IndexedItemCache st) /\ index_wf (unIndexedItemCache st).

Lemma index_wf_put c item :
  index_wf c -> index_wf (IndexCacheBase_Put c (GraphItem_Checksum item) (NewIndexCacheItem (GraphItem_UUID item) item)).
Proof using Type. intros Hc. by apply map_Forall_insert_2. Qed.

Lemma ReceiveItem_spec item st :
  index_inv st ->
  exists st', ReceiveItem cfg item (GraphItem_Checksum item) st = Ok st' /\ index_inv st' /\
    GraphItems st' = GraphItems st /\ HistoryCache st' = HistoryCache st /\ disk st' = disk st /\ db st' = db st.
Proof using Type.
  intros [Hi Hu]. unfold ReceiveItem.
  destruct (IndexCacheBase_Get _ _) as [old|].
  - case_bool_decide; eexists; (split; [done|]); (split; [|done]); split; try done; by apply index_wf_put.
  - unfold GraphItem_Checksum, Checksum. rewrite RrdFileName_Md5. cbn [rbind]. fold (Checksum (GraphItem_Endpoint item) (GraphItem_Metric item) (GraphItem_Tags item)).
    destruct (file_IsExist _ _); eexists; (split; [done|]); (split; [|done]); split; try done; by apply index_wf_put.
Qed.

Lemma index_wf_delete c key : index_wf c -> index_wf (delete key c).
Proof using Type. intros Hc. by apply map_Forall_delete. Qed.

Lemma RemoveItem_spec item st :
  index_inv st -> store_wf (GraphItems st) ->
  exists st', RemoveItem cfg item st = Ok st' /\ index_inv st' /\ store_wf (GraphItems st') /\
    IndexedItemCache st' !! GraphItem_Checksum item = None /\ unIndexedItemCache st' !! GraphItem_Checksum item = None /\
    flat (GraphItems st') = alter (fun sl => mkSafeLinkedList (Flag sl) [])
      (FormRrdCacheKey (GraphItem_Checksum item) (GraphItem_DsType item) (GraphItem_Step item)) (flat (GraphItems st)) /\
    (forall f, RrdFileName (RRD_Storage cfg) (GraphItem_Checksum item) (GraphItem_DsType item) (GraphItem_Step item) = Ok f ->
       file_IsExist (disk st') f = false).
Proof using Type.
  intros [Hi Hu] Hwf. unfold RemoveItem. set (key := FormRrdCacheKey _ _ _). cbn [GraphItems set_index].
  destruct (run_op_refines (fun _ => true) cfg (GraphItems st) (OpPopAll key) Hwf) as (m' & E & Hwf' & Ef).
  cbn [run_op spec_op fst snd] in *. apply rbind_Ok_inv in E as ([m1 r] & -> & E). injection E as -> _. cbn [rbind].
  destruct (RrdFileName _ _ _ _) as [f|p] eqn:Er.
  2:{ exfalso. unfold GraphItem_Checksum, Checksum in Er. by rewrite RrdFileName_Md5 in Er. }
  cbn [rbind]. eexists. split; [done|]. cbn [set_disk set_GraphItems set_index GraphItems IndexedItemCache unIndexedItemCache disk].
  unfold IndexCacheBase_Remove. split_and!.
  - split; by apply index_wf_delete.
  - done.
  - by rewrite lookup_delete_eq.
  - by rewrite lookup_delete_eq.
  - done.
  - intros f' [= <-]. rewrite file_Remove_spec. rewrite bool_decide_true by done. by rewrite andb_false_r.
Qed.

(** ** The incremental update *)

Definition indexed_or_not (un ix ix' : IndexCacheBase) : Prop :=
  forall k, ix' !! k = ix !! k \/ (is_Some (un !! k) /\ ix' !! k = un !! k).

Lemma updateIndexIncr_loop keys st n :
  NoDup keys -> (forall k, k ∈ keys -> is_Some (unIndexedItemCache st !! k)) ->
  let '(st', n') := fold_left updateIndexIncr_one keys (st, n) in
  n' = n + Z.of_nat (length keys) /\
  (forall k, unIndexedItemCache st' !! k = if decide (k ∈ keys) then None else unIndexedItemCache st !! k) /\
  indexed_or_not (unIndexedItemCache st) (IndexedItemCache st) (IndexedItemCache st') /\
  ((forall item b, snd (updateIndexFromOneItem item b) = true) ->
    forall k, IndexedItemCache st' !! k = if decide (k ∈ keys) then unIndexedItemCache st !! k else IndexedItemCache st !! k).
Proof using Type.
  revert st n; induction keys as [|key keys IH]; intros st n Hnd Hk; cbn [fold_left].
  { split_and!; [simpl; lia | | by left |]; intros; by rewrite decide_False by apply not_elem_of_nil. }
  apply NoDup_cons in Hnd as [Hnin Hnd]. destruct (Hk key) as [ic Eic]; [left|].
  unfold updateIndexIncr_one at 2. unfold IndexCacheBase_Get. rewrite Eic. cbn [set_index db].
  destruct (updateIndexFromOneItem (IndexCacheItem_Item ic) (db st)) as [b ok] eqn:Eu.
  match goal with |- let '(_, _) := fold_left _ _ (?s, _) in _ => set (st1 := s) end.
  assert (unIndexedItemCache st1 = delete key (unIndexedItemCache st)) as E1 by (unfold st1; by destruct ok).
  assert (IndexedItemCache st1 = if ok then <[key := ic]> (IndexedItemCache st) else IndexedItemCache st) as E2
    by (unfold st1; by destruct ok).
  specialize (IH st1 (n + 1) Hnd). destruct (fold_left updateIndexIncr_one keys (st1, n + 1)) as [st' n'].
  destruct IH as (Hn & Hu & Ho & Hall).
  { intros k Hin. rewrite E1, lookup_delete_ne by (intros ->; done). apply Hk. by right. }
  split_and!.
  - cbn [length]. lia.
  - intros k. rewrite Hu, E1. destruct (decide (k ∈ keys)) as [Hin|Hin]; [by rewrite decide_True by (by right)|].
    destruct (decide (k = key)) as [->|Hne]; [rewrite decide_True by left; by rewrite lookup_delete_eq|].
    rewrite decide_False by (rewrite elem_of_cons; naive_solver). by rewrite lookup_delete_ne.
  - intros k. destruct (Ho k) as [Hk1|[Hs1 Hk1]]; rewrite Hk1.
    + rewrite E2. destruct ok; [|by left]. destruct (decide (key = k)) as [<-|];
        [right; rewrite lookup_insert_eq, Eic; naive_solver | left; by rewrite lookup_insert_ne].
    + right. rewrite E1 in Hs1, Hk1 |- *. apply lookup_delete_is_Some in Hs1 as [Hne Hs1].
      split; [done|]. by rewrite lookup_delete_ne.
  - intros Hok k. rewrite (Hall Hok), E1, E2. pose proof (Hok (IndexCacheItem_Item ic) (db st)) as Hb.
    rewrite Eu in Hb. simpl in Hb. subst ok. destruct (decide (k = key)) as [->|Hne].
    + rewrite decide_False by done. rewrite decide_True by left. by rewrite lookup_insert_eq.
    + rewrite lookup_insert_ne, lookup_delete_ne by done. apply decide_ext. rewrite elem_of_cons. naive_solver.
Qed.

Lemma updateIndexIncr_un st k :
  unIndexedItemCache (fst (updateIndexIncr true st)) !! k = None /\
  indexed_or_not (unIndexedItemCache st) (IndexedItemCache st) (IndexedItemCache (fst (updateIndexIncr true st))).
Proof using Type.
  unfold updateIndexIncr, IndexCacheBase_Size. destruct (Z.leb_spec (Z.of_nat (size (unIndexedItemCache st))) 0) as [Hz|Hz].
  { split; [|by left]. cbn [fst]. rewrite (map_size_empty_inv (unIndexedItemCache st)) by lia. apply lookup_empty. }
  pose proof (updateIndexIncr_loop (IndexCacheBase_Keys (unIndexedItemCache st)) st 0) as Hl.
  destruct (fold_left _ _ _) as [st' n']. unfold IndexCacheBase_Keys in *.
  pose proof (range_keys_order (unIndexedItemCache st)) as Hr.
  destruct Hl as (_ & Hu & Ho & _); [by eapply range_order_NoDup | intros k'; by apply range_order_elem |].
  split; [|done]. cbn [fst]. rewrite Hu. case_decide as Hk; [done|].
  rewrite range_order_elem in Hk by done. by apply eq_None_not_Some.
Qed.
End index_inv.

(** * A disk and a database to run the models on *)

Definition disk_set : Disk (gset string).
Proof.
  refine {| file_IsExist := fun d f => bool_decide (f ∈ d); file_Remove := fun d f => d ∖ {[f]} |}.
  intros d f f'. repeat case_bool_decide; set_solver.
Defined.

(** The statements run so far, newest first; every endpoint has the id 1. *)
Fixpoint find_counter (b : list index_stmt) (id : Z) (counter : string) : sql (string * Z) :=
  match b with
  | [] => SqlNoRows
  | InsertEndpointCounter id' counter' step dsType _ :: b =>
      if bool_decide (id' = id /\ counter' = counter) then SqlRow (dsType, step) else find_counter b id counter
  | _ :: b => find_counter b id counter
  end.
Definition db_log : IndexDb (list index_stmt) := {|
  db_exec := fun s b => Some (s :: b);
  db_endpoint_id := fun _ _ => SqlRow 1;
  db_type_step := find_counter |}.

Definition sample_graph_item (ts v : Z) : GraphItem :=
  mkGraphItem "host" "net.in" {["iface" := "eth0"]} (f64_of_Z v) ts "COUNTER" 60 120 "U" "U".

(** * Properties *)

(** The history of a series keeps its last three points, strictly decreasing
    in time: a point later than the last one becomes the first and pushes the
    oldest out, any other leaves the history of every series as it was. *)
Theorem AddItem_last_three `{LimitedList, NMap} (hc : HistoryCacheT) (key : string) (val : GraphItem) :
  history_inv hc ->
  history_inv (AddItem hc key val) /\
  forall key', GetAllItems (AddItem hc key val) key' =
    if decide (key = key') then
      if newer_than (head (GetAllItems hc key)) val
      then take 3 (val :: GetAllItems hc key) else GetAllItems hc key
    else GetAllItems hc key'.
Proof. apply AddItem_spec. Qed.

Lemma AddItem_last_three_witness :
  @GetAllItems limited_list nmap_gmap (@AddItem limited_list nmap_gmap (@NewSafeMap nmap_gmap _) "k" (sample_graph_item 60 1)) "k"
  = [sample_graph_item 60 1].
Proof.
  rewrite (proj2 (@AddItem_last_three limited_list nmap_gmap (@NewSafeMap nmap_gmap _) "k" (sample_graph_item 60 1)
    (@history_inv_new limited_list nmap_gmap))). reflexivity.
Defined.

(** A pass of the incremental index update empties the queue of series to be
    indexed and counts them; afterwards a series is indexed with the queued item
    or as before, and with every queued item when the database accepts them all. *)
Theorem updateIndexIncr_drains `{LimitedList, NMap, MapRange} {D DB : Type} `{!Disk D, !IndexDb DB} (st : GraphState D DB) :
  let '(st', n) := updateIndexIncr true st in
  unIndexedItemCache st' = ∅ /\ n = Z.of_nat (size (unIndexedItemCache st)) /\
  (forall k, IndexedItemCache st' !! k = IndexedItemCache st !! k \/
             is_Some (unIndexedItemCache st !! k) /\ IndexedItemCache st' !! k = unIndexedItemCache st !! k) /\
  ((forall (item : GraphItem) (b : DB), snd (updateIndexFromOneItem item b) = true) ->
    IndexedItemCache st' = unIndexedItemCache st ∪ IndexedItemCache st).
Proof.
  pose proof (updateIndexIncr_un st) as Hun. destruct (updateIndexIncr true st) as [st' n] eqn:E. simpl in Hun.
  split; [apply map_eq; intros k; rewrite lookup_empty; apply Hun|]. revert E.
  unfold updateIndexIncr, IndexCacheBase_Size. destruct (Z.leb_spec (Z.of_nat (size (unIndexedItemCache st))) 0) as [Hz|Hz].
  { intros [= <- <-]. split; [lia|]. split; [by left|]. intros _.
    rewrite (map_size_empty_inv (unIndexedItemCache st)) by lia. by rewrite (left_id_L ∅ (∪)). }
  pose proof (updateIndexIncr_loop (IndexCacheBase_Keys (unIndexedItemCache st)) st 0) as Hl.
  intros E. rewrite E in Hl. unfold IndexCacheBase_Keys in *.
  pose proof (range_keys_order (unIndexedItemCache st)) as Hr.
  destruct Hl as (-> & _ & Ho & Hall); [by eapply range_order_NoDup | intros k'; by apply range_order_elem |].
  rewrite (range_order_length _ _ Hr). split; [lia|]. split; [done|]. intros Hok. apply map_eq. intros k.
  rewrite Hall, lookup_union by done. case_decide as Hk; rewrite range_order_elem in Hk by done.
  - destruct Hk as [ic ->]. by destruct (IndexedItemCache st !! k).
  - apply eq_None_not_Some in Hk as ->. by destruct (IndexedItemCache st !! k).
Qed.

(** A type and step read from the database are cached as text that reads
    back: asking again gives the same answer and changes nothing. *)
Theorem GetTypeAndStep_cached `{LimitedList, NMap} {D DB : Type} `{!IndexDb DB}
    (endpoint counter dsType : string) (step : Z) (st st' : GraphState D DB) :
  str_free "_" dsType = true -> is_int64 step ->
  GetTypeAndStep endpoint counter st = Ok (Some (dsType, step), st') ->
  GetTypeAndStep endpoint counter st' = Ok (Some (dsType, step), st').
Proof.
  intros Hd Hs. unfold GetTypeAndStep. cbv zeta.
  destruct (IndexCacheBase_Get (IndexedItemCache st) _) as [ic|] eqn:Ei.
  { intros [= <- <- <-]. by rewrite Ei. }
  destruct (GetEndpointFromCache endpoint st) as [[id|] st1] eqn:Ee; [|done].
  assert (GetEndpointFromCache endpoint st1 = (Some id, st1) /\ IndexedItemCache st1 = IndexedItemCache st /\
    dbEndpointCache st1 !! endpoint = Some id) as (Ee1 & Ex & Ec).
  { unfold GetEndpointFromCache in *. destruct (dbEndpointCache st !! endpoint) as [id'|] eqn:Ec.
    - injection Ee as <- <-. by rewrite Ec.
    - destruct (db_endpoint_id _ _) as [id'| |]; [|done..]. destruct (id' <? 0); [done|]. injection Ee as <- <-.
      cbn [set_dbcaches dbEndpointCache IndexedItemCache]. by rewrite lookup_insert_eq. }
  intros E. unfold GetCounterFromCache in E. cbv zeta in E.
  destruct (dbEndpointCounterCache st1 !! _) as [text|] eqn:Et.
  - assert (st' = st1) as -> by (inv_ok; case_match; inv_ok; congruence).
    rewrite Ex, Ei, Ee1. unfold GetCounterFromCache. cbv zeta. rewrite Et. exact E.
  - destruct (db_type_step _ _ _) as [[dsType' step']| |]; [|done..]. injection E as -> -> <-.
    cbn [set_dbcaches IndexedItemCache]. rewrite Ex, Ei. unfold GetEndpointFromCache.
    cbn [set_dbcaches dbEndpointCache]. rewrite Ec. unfold GetCounterFromCache. cbv zeta.
    cbn [set_dbcaches dbEndpointCounterCache]. rewrite lookup_insert_eq.
    change (dsType +:+ "_" +:+ strconv_Itoa step) with (dsType +:+ String "_" (strconv_Itoa step)).
    rewrite strings_Split_app, strings_Split_free by (done || by apply strconv_Itoa_free).
    change (index [dsType; strconv_Itoa step] 1) with (Ok (strconv_Itoa step)).
    change (index [dsType; strconv_Itoa step] 0) with (Ok dsType). cbn [rbind]. by rewrite Atoi_Itoa.
Qed.

Definition sample_graph_state : @GraphState limited_list nmap_gmap (gset string) (list index_stmt) :=
  @mkGraphState limited_list nmap_gmap _ _ GraphItems_init (@NewSafeMap nmap_gmap _) ∅ ∅ ∅ ∅ ∅
    [InsertEndpointCounter 1 "net.in/iface=eth0" 60 "COUNTER" 60].

Lemma GetTypeAndStep_cached_witness :
  exists st', @GetTypeAndStep limited_list nmap_gmap (gset string) (list index_stmt) db_log "host" "net.in/iface=eth0" st'
    = Ok (Some ("COUNTER", 60), st').
Proof.
  eexists. refine (@GetTypeAndStep_cached limited_list nmap_gmap _ _ db_log "host" "net.in/iface=eth0" "COUNTER" 60
    sample_graph_state _ _ _ _); [reflexivity | split; discriminate | reflexivity].
Defined.
