(* ===== verification/GraphApi.v ===== *)
(** modules/graph/api/graph.go and cron/clean.go: receiving points, the last
    points, the query that merges points on disk with points in memory, and the
    clean-up of the caches. *)
From Stdlib Require Import Ascii ZArith.
From stdpp Require Import base list gmap strings numbers sorting.
From S2P Require Import Prelude GoString GoFloat GoHash Utils Model ThirdParty GraphUtil GraphStore GraphIndex.

Local Open Scope Z_scope.

Section api.
Context `{LimitedList, NMap, MapRange, Unicode} {D DB : Type} `{!Disk D, !IndexDb DB} (cfg : GraphConfig).
Implicit Types st : GraphState D DB.

(** ** Receiving *)

(** One iteration of the loop; a nil item is [None]. *)
Definition handleItem st (it : option GraphItem) : result (GraphState D DB) :=
  match it with
  | None => Ok st
  | Some item =>
      if negb (IsValidString (GraphItem_Endpoint item)) then Ok st
      else if negb (IsValidString (Counter (GraphItem_Metric item) (GraphItem_Tags item))) then Ok st
      else
        let checksum := GraphItem_Checksum item in
        let key := FormRrdCacheKey checksum (GraphItem_DsType item) (GraphItem_Step item) in
        let! first := GraphItemMap_First (GraphItems st) key in
        let stale := match first with
                     | Some f => GraphItem_Timestamp item <=? GraphItem_Timestamp f
                     | None => false
                     end in
        if stale then Ok st
        else
          let! m := GraphItemMap_PushFront (file_IsExist (disk st)) cfg (GraphItems st) key item checksum in
          let! st := ReceiveItem cfg item checksum (set_GraphItems m st) in
          Ok (set_HistoryCache (AddItem (HistoryCache st) checksum item) st)
  end.

Definition handleItems (items : list (option GraphItem)) st : result (GraphState D DB) := rfold handleItem st items.

(** ** The last points *)

Definition GetLastRaw (endpoint counter : string) st : RRDData :=
  let md5 := Md5 (endpoint +:+ "/" +:+ counter) in
  let item := GetLastItem (HistoryCache st) md5 in
  NewRRDData (GraphItem_Timestamp item) (GraphItem_Value item).

Definition GetLast (endpoint counter : string) st : result (RRDData * GraphState D DB) :=
  let! (found, st) := GetTypeAndStep endpoint counter st in
  match found with
  | None => Ok (NewRRDData 0 f64_zero, st)
  | Some (dsType, step) =>
      if bool_decide (dsType = GAUGE) then Ok (GetLastRaw endpoint counter st, st)
      else if bool_decide (dsType = COUNTER \/ dsType = DERIVE) then
        let md5 := Md5 (endpoint +:+ "/" +:+ counter) in
        match GetAllItems (HistoryCache st) md5 with
        | f0 :: f1 :: _ =>
            let delta_ts := i64 (GraphItem_Timestamp f0 - GraphItem_Timestamp f1) in
            let delta_v := f64_sub (GraphItem_Value f0) (GraphItem_Value f1) in
            if negb (delta_ts =? step) || (delta_ts <=? 0) then Ok (NewRRDData 0 f64_zero, st)
            else
              let delta_v := if f64_lt delta_v f64_zero then f64_zero else delta_v in
              Ok (NewRRDData (GraphItem_Timestamp f0) (f64_div delta_v (f64_of_Z delta_ts)), st)
        | _ => Ok (NewRRDData 0 f64_zero, st)
        end
      else Ok (NewRRDData 0 f64_zero, st)
  end.

Definition Graph_Last (endpoint counter : string) st : result (GraphLastResp * GraphState D DB) :=
  let! (v, st) := GetLast endpoint counter st in
  Ok (mkGraphLastResp endpoint counter v, st).
Definition Graph_LastRaw (endpoint counter : string) st : GraphLastResp :=
  mkGraphLastResp endpoint counter (GetLastRaw endpoint counter st).

(** The empty response when the series is not known. *)
Definition Graph_Info (endpoint counter : string) st : result (GraphInfoResp * GraphState D DB) :=
  let! (found, st) := GetTypeAndStep endpoint counter st in
  match found with
  | None => Ok (mkGraphInfoResp "" 0 "", st)
  | Some (dsType, step) =>
      let md5 := Md5 (endpoint +:+ "/" +:+ counter) in
      let! prefix := str_slice md5 0 2 in
      Ok (mkGraphInfoResp dsType step
            (RRD_Storage cfg +:+ "/" +:+ prefix +:+ "/" +:+ md5 +:+ "_" +:+ dsType +:+ "_" +:+ strconv_Itoa step +:+ ".rrd"), st)
  end.

(** A parameter whose tags do not parse is skipped. *)
Definition Graph_Delete_one st (param : GraphDeleteParam) : result (GraphState D DB) :=
  let '(err, tags) := SplitTagsString (GraphDeleteParam_Tags param) in
  match err with
  | Some _ => Ok st
  | None =>
      RemoveItem cfg (mkGraphItem (GraphDeleteParam_Endpoint param) (GraphDeleteParam_Metric param) tags f64_zero 0
        (GraphDeleteParam_DsType param) (GraphDeleteParam_Step param) 0 "" "") st
  end.
Definition Graph_Delete (params : list GraphDeleteParam) st : result (GraphState D DB) :=
  rfold Graph_Delete_one st params.

(** ** Cleaning the caches *)

Definition DeleteInvalidItems_key (ix : IndexCacheBase) (s : GraphItemMap * Z) (key : string) : result (GraphItemMap * Z) :=
  let '(m, deleteCnt) := s in
  match strings_Split key "_" with
  | [md5; _; _] =>
      if negb (IndexCacheBase_ContainsKey ix md5)
      then let! (m, _) := GraphItemMap_Remove m key in Ok (m, deleteCnt + 1)
      else Ok s
  | _ => Ok s
  end.
Definition DeleteInvalidItems st : result (GraphState D DB * Z) :=
  let! (m, deleteCnt) := rfold (fun (s : GraphItemMap * Z) idx =>
    let! keys := GraphItemMap_KeysByIndex (fst s) idx in
    rfold (DeleteInvalidItems_key (IndexedItemCache st)) s keys)
    (GraphItems st, 0) (seqZ 0 (Size (GraphItems st))) in
  Ok (set_GraphItems m st, deleteCnt).

Definition DeleteInvalidHistory st : GraphState D DB * Z :=
  let '(hc, deleteCnt) := fold_left (fun (s : HistoryCacheT * Z) key =>
    if negb (IndexCacheBase_ContainsKey (IndexedItemCache st) key)
    then (NM_Remove (fst s) key, snd s + 1) else s) (NM_Keys (HistoryCache st)) (HistoryCache st, 0) in
  (set_HistoryCache hc st, deleteCnt).
End api.

(** ** The query *)

Definition RRA1PointCnt : Z := 720.
Definition f64_nan : f64 := SpecFloat.S754_nan.

(** [if ts >= start_ts && ts <= end_ts { cache = append(cache, ...) }]. *)
Definition in_window (start_ts end_ts ts : Z) (v : f64) : list RRDData :=
  if (start_ts <=? ts) && (ts <=? end_ts) then [mkRRDData ts v] else [].

(** The loops that lay the cached points out on the grid of the step, for a
    counter (rates between neighbours) and for a gauge. They may need any number
    of iterations: [None] is a loop that has not ended when the fuel has. *)
Fixpoint derive_cache (fuel : nat) (items : list GraphItem) (step start_ts end_ts itemEndTs ts itemIdx : Z)
    : result (option (list RRDData)) :=
  match fuel with
  | O => Ok None
  | S fuel =>
      if ts <? itemEndTs then
        let! (val, itemIdx') :=
          (if itemIdx <? Z.of_nat (length items) - 1 then
             let! it := index items itemIdx in
             if ts =? GraphItem_Timestamp it then
               let! next := index items (itemIdx + 1) in
               if (ts =? i64 (GraphItem_Timestamp next - step)) && f64_ge (GraphItem_Value next) (GraphItem_Value it)
               then Ok (f64_div (f64_sub (GraphItem_Value next) (GraphItem_Value it)) (f64_of_Z step), itemIdx + 1)
               else Ok (f64_nan, itemIdx + 1)
             else Ok (f64_nan, itemIdx)
           else Ok (f64_nan, itemIdx)) in
        let! rest := derive_cache fuel items step start_ts end_ts itemEndTs (i64 (ts + step)) itemIdx' in
        Ok (app (in_window start_ts end_ts ts val) <$> rest)
      else Ok (Some [])
  end.

Fixpoint gauge_cache (fuel : nat) (items : list GraphItem) (step start_ts end_ts itemEndTs ts itemIdx : Z)
    : result (option (list RRDData)) :=
  match fuel with
  | O => Ok None
  | S fuel =>
      if ts <=? itemEndTs then
        let! (val, itemIdx') :=
          (if itemIdx <? Z.of_nat (length items) then
             let! it := index items itemIdx in
             if ts =? GraphItem_Timestamp it then Ok (GraphItem_Value it, itemIdx + 1) else Ok (f64_nan, itemIdx)
           else Ok (f64_nan, itemIdx)) in
        let! rest := gauge_cache fuel items step start_ts end_ts itemEndTs (i64 (ts + step)) itemIdx' in
        Ok (app (in_window start_ts end_ts ts val) <$> rest)
      else Ok (Some [])
  end.

(** [for rrdDataIdx = rrdDataSize - 1; rrdDataIdx >= 0; rrdDataIdx-- { ... break }]
    from the last of [merged] downwards: the index where it stops and [lastTs]. *)
Fixpoint find_junction (n : nat) (merged : list RRDData) (first_ts : Z) : Z * Z :=
  match n with
  | O => (-1, first_ts)
  | S n' => match merged !! n' with
            | Some d => if RRDData_Timestamp d <? first_ts then (Z.of_nat n', RRDData_Timestamp d)
                        else find_junction n' merged first_ts
            | None => (-1, first_ts)
            end
  end.

(** [for ts := lastTs + step; ts < cache[0].Timestamp; ts += step]. *)
Fixpoint fill_missing (fuel : nat) (step until ts : Z) : option (list RRDData) :=
  match fuel with
  | O => None
  | S fuel => if ts <? until then cons (mkRRDData ts f64_nan) <$> fill_missing fuel step until (i64 (ts + step))
              else Some []
  end.

(** Cached points overwrite those on disk unless they are missing, and go on
    after them. *)
Fixpoint merge_cache (rrdDataSize rrdDataIdx : Z) (cache merged : list RRDData) : list RRDData :=
  match cache with
  | [] => merged
  | c :: cache =>
      let merged :=
        if rrdDataIdx <? rrdDataSize then
          if negb (f64_isNaN (RRDData_Value c)) then <[Z.to_nat rrdDataIdx := c]> merged else merged
        else merged ++ [c] in
      merge_cache rrdDataSize (rrdDataIdx + 1) cache merged
  end.

(** [ret_size] points on the grid, those of [merged] where the times agree. *)
Fixpoint fmt_result (ret_size : nat) (step ts : Z) (merged : list RRDData) : list RRDData :=
  match ret_size with
  | O => []
  | S n =>
      let '(d, merged') := match merged with
                           | d :: rest => if ts =? RRDData_Timestamp d then (d, rest) else (mkRRDData ts f64_nan, merged)
                           | [] => (mkRRDData ts f64_nan, merged)
                           end in
      d :: fmt_result n step (i64 (ts + step)) merged'
  end.

(** The merge of the points on disk with those in memory, from "fmt cached
    items" to "fmt result". *)
Definition query_merge (dsType : string) (step start_ts end_ts : Z) (items : list GraphItem) (datas : list RRDData)
    : result (option (list RRDData)) :=
  let! first := index items 0 in
  let! final := index items (Z.of_nat (length items) - 1) in
  let ts := GraphItem_Timestamp first in
  let itemEndTs := GraphItem_Timestamp final in
  let fuel := S (Z.to_nat (itemEndTs - ts + 1)) in
  let! cache :=
    (if bool_decide (dsType = DERIVE \/ dsType = COUNTER)
     then derive_cache fuel items step start_ts end_ts itemEndTs ts 0
     else if bool_decide (dsType = GAUGE) then gauge_cache fuel items step start_ts end_ts itemEndTs ts 0
     else Ok (Some [])) in
  match cache with
  | None => Ok None
  | Some cache =>
      let merged := List.filter (fun v => (start_ts <=? RRDData_Timestamp v) && (RRDData_Timestamp v <=? end_ts)) datas in
      let filled :=
        match cache with
        | [] => Some merged
        | c0 :: _ =>
            let rrdDataSize := Z.of_nat (length merged) in
            let '(rrdDataIdx, lastTs) := find_junction (length merged) merged (RRDData_Timestamp c0) in
            match fill_missing (Z.to_nat (RRDData_Timestamp c0 - lastTs + 2)) step (RRDData_Timestamp c0) (i64 (lastTs + step)) with
            | None => None
            | Some missing => Some (merge_cache rrdDataSize (rrdDataIdx + 1) cache (merged ++ missing))
            end
        end in
      match filled with
      | None => Ok None
      | Some merged =>
          let! n := go_div (i64 (end_ts - start_ts)) step in
          let ret_size := if bool_decide (dsType = GAUGE) then n + 1 else n in
          if ret_size <? 0 then Panic SliceBoundsOutOfRange
          else Ok (Some (fmt_result (Z.to_nat ret_size) step start_ts merged))
      end
  end.

Section query.
Context `{LimitedList, NMap} {D DB : Type} `{!IndexDb DB} (cfg : GraphConfig)
  (** [rrdtool.Fetch] (its error is dropped) and the query sent to a migrating
      node, with the values they bring *)
  (fetch : string -> string -> string -> Z -> Z -> Z -> list RRDData)
  (remote : GraphQueryParam -> list RRDData).
Implicit Types st : GraphState D DB.

Definition Graph_Query (param : GraphQueryParam) (nowTs : Z) st : result (option GraphQueryResponse * GraphState D DB) :=
  let endpoint := GraphQueryParam_Endpoint param in
  let counter := GraphQueryParam_Counter param in
  let resp dsType step values := Some (mkGraphQueryResponse endpoint counter dsType step values) in
  let! (found, st) := GetTypeAndStep endpoint counter st in
  match found with
  | None => Ok (resp "" 0 [], st)
  | Some (dsType, step) =>
      let! r0 := go_rem (GraphQueryParam_Start param) step in
      let! r1 := go_rem (GraphQueryParam_End param) step in
      let start_ts := i64 (GraphQueryParam_Start param - r0) in
      let end_ts := i64 (GraphQueryParam_End param - r1 + step) in
      if i64 (end_ts - start_ts - step) <? 1 then Ok (resp dsType step [], st)
      else
        let md5 := Md5 (endpoint +:+ "/" +:+ counter) in
        let key := FormRrdCacheKey md5 dsType step in
        let! filename := RrdFileName (RRD_Storage cfg) md5 dsType step in
        let! (items, flag) := GraphItemMap_FetchAll (GraphItems st) key in
        let datas :=
          if Migrate_Enabled cfg && negb (Z.land flag GRAPH_F_MISS =? 0) then remote param
          else fetch filename md5 (GraphQueryParam_ConsolFun param) (i64 (start_ts - step)) end_ts step in
        let! rn := go_rem nowTs step in
        let lastUpTs := i64 (nowTs - rn) in
        let rra1StartTs := i64 (lastUpTs - i64 (RRA1PointCnt * step)) in
        if start_ts <? rra1StartTs then Ok (resp dsType step datas, st)
        else match items with
        | [] => Ok (resp dsType step datas, st)
        | _ =>
            let! values := query_merge dsType step start_ts end_ts items datas in
            match values with
            | None => Ok (None, st)
            | Some values => Ok (resp dsType step values, st)
            end
        end
  end.
End query.

(** * Receiving keeps the caches in order *)

Section receive.
Context `{LimitedList, NMap, MapRange, Unicode} {D DB : Type} `{!Disk D, !IndexDb DB} (cfg : GraphConfig).
Implicit Types st : GraphState D DB.

(** The key an item is cached under. *)
Definition item_key (item : GraphItem) : string :=
  FormRrdCacheKey (GraphItem_Checksum item) (GraphItem_DsType item) (GraphItem_Step item).

Record graph_inv st : Prop := {
  graph_store : store_wf (GraphItems st);
  graph_lists key sl : flat (GraphItems st) !! key = Some sl ->
    newest_first (L sl) /\ Forall (fun it => item_key it = key) (L sl);
  graph_history : history_inv (HistoryCache st);
  graph_index : index_inv st }.

Definition valid_item (item : GraphItem) : bool :=
  IsValidString (GraphItem_Endpoint item) && IsValidString (Counter (GraphItem_Metric item) (GraphItem_Tags item)).

(** The points cached under a key. *)
Definition cached st (key : string) : list GraphItem := default [] (L <$> flat (GraphItems st) !! key).

Lemma head_cached st key : head (cached st key) = flat (GraphItems st) !! key ≫= fun sl => head (L sl).
Proof using Type. unfold cached. by destruct (flat (GraphItems st) !! key). Qed.

(** A valid item later than the newest cached one is pushed on the list of its
    key and goes to the history of its series; any other changes nothing. *)
Lemma handleItem_spec st item :
  graph_inv st ->
  exists st', handleItem cfg st (Some item) = Ok st' /\ graph_inv st' /\
    if valid_item item && newer_than (head (cached st (item_key item))) item then
      (forall key, cached st' key = if decide (item_key item = key) then item :: cached st key else cached st key) /\
      HistoryCache st' = AddItem (HistoryCache st) (GraphItem_Checksum item) item
    else st' = st.
Proof using Type.
  intros [Hwf Hls Hhi Hix]. unfold handleItem, valid_item.
  destruct (IsValidString (GraphItem_Endpoint item)); cbn [negb andb]; [|by exists st].
  destruct (IsValidString (Counter _ _)); cbn [negb andb]; [|by exists st].
  fold (item_key item).
  destruct (run_op_refines (fun _ => true) cfg (GraphItems st) (OpFirst (item_key item)) Hwf) as (m0 & E0 & _).
  cbn [run_op spec_op fst snd] in E0. apply rbind_Ok_inv in E0 as (first & -> & E0). injection E0 as _ ->.
  cbn [rbind]. rewrite <- head_cached.
  assert ((match head (cached st (item_key item)) with
    | Some f => GraphItem_Timestamp item <=? GraphItem_Timestamp f | None => false end)
    = negb (newer_than (head (cached st (item_key item))) item)) as ->.
  { destruct (head _); simpl; [by rewrite Z.leb_antisym | done]. }
  destruct (newer_than _ _) eqn:En; cbn [negb]; [|by exists st].
  set (raw := PK (GraphItem_Endpoint item) (GraphItem_Metric item) (GraphItem_Tags item)).
  destruct (run_op_refines (file_IsExist (disk st)) cfg (GraphItems st) (OpPushFront (item_key item) item raw) Hwf)
    as (m & E1 & Hwf' & Ef).
  cbn [run_op spec_op fst snd] in E1, Ef. apply rbind_Ok_inv in E1 as (m' & Em & E1). injection E1 as ->.
  change (Md5 raw) with (GraphItem_Checksum item) in Em. rewrite Em. cbn [rbind].
  destruct (ReceiveItem_spec cfg item (set_GraphItems m st)) as (st1 & -> & Hix1 & Eg & Eh & _); [done|].
  cbn [rbind]. destruct (AddItem_spec (HistoryCache st1) (GraphItem_Checksum item) item) as [Hh' _].
  { rewrite Eh. done. }
  assert (forall key sl, flat m !! key = Some sl -> exists f,
    L sl = (if decide (item_key item = key) then item :: cached st key else cached st key) /\
    (key <> item_key item -> flat (GraphItems st) !! key = Some f)) as Hfl.
  { intros key sl. rewrite Ef. destruct (decide (item_key item = key)) as [<-|Hne].
    - rewrite lookup_insert_eq. intros [= <-]. exists NewSafeLinkedList. split; [|done].
      unfold cached. by destruct (flat (GraphItems st) !! item_key item).
    - rewrite lookup_insert_ne by done. intros E. exists sl. split; [|done]. unfold cached. by rewrite E. }
  eexists. split; [done|]. split; [split|split].
  - cbn. by rewrite Eg.
  - cbn [set_HistoryCache GraphItems]. rewrite Eg. cbn [set_GraphItems GraphItems]. intros key sl E.
    destruct (Hfl key sl E) as (f & -> & Hf). unfold cached in *. case_decide as Hk.
    + subst key. destruct (flat (GraphItems st) !! item_key item) as [sl0|] eqn:E0; simpl in *.
      * destruct (Hls _ _ E0). split; [by apply newest_first_cons | by constructor].
      * split; repeat constructor.
    + rewrite Hf by done. simpl. apply Hls, Hf. done.
  - exact Hh'.
  - exact Hix1.
  - intros key. unfold cached at 1. cbn [set_HistoryCache GraphItems]. rewrite Eg. cbn [set_GraphItems GraphItems]. rewrite Ef.
    case_decide as Hk; [subst key; rewrite lookup_insert_eq | by rewrite lookup_insert_ne].
    unfold cached. by destruct (flat (GraphItems st) !! item_key item).
  - cbn. by rewrite Eh.
Qed.

Lemma handleItems_spec items st :
  graph_inv st -> exists st', handleItems cfg items st = Ok st' /\ graph_inv st'.
Proof using Type.
  intros Hst. apply (rfold_safe graph_inv); [|done]. intros st1 [item|] _ Hst1; [|by exists st1].
  destruct (handleItem_spec st1 item Hst1) as (st2 & E & Hst2 & _). by exists st2.
Qed.
End receive.

(** * The clean-up *)

Section clean.
Context `{LimitedList, NMap, MapRange} {D DB : Type} `{!Disk D, !IndexDb DB}.
Implicit Types st : GraphState D DB.

(** A cache key of three parts whose checksum is not indexed. *)
Definition orphan (ix : IndexCacheBase) (key : string) : bool :=
  match strings_Split key "_" with
  | [md5; _; _] => negb (IndexCacheBase_ContainsKey ix md5)
  | _ => false
  end.

Lemma Remove_spec m key :
  store_wf m -> exists m' b, GraphItemMap_Remove m key = Ok (m', b) /\ store_wf m' /\ Size m' = Size m /\ flat m' = delete key (flat m).
Proof using Type.
  intros Hwf. destruct (run_op_refines (fun _ => true) (mkGraphConfig "" 1 1 false 0 0 ∅) m (OpRemove key) Hwf)
    as (m' & E & Hwf' & Ef).
  cbn [run_op spec_op fst snd] in *. apply rbind_Ok_inv in E as ([m1 b] & E1 & E). injection E as -> _.
  exists m', b. split_and!; [done | done | | done].
  unfold GraphItemMap_Remove in E1. apply rbind_Ok_inv in E1 as ([idx mm] & _ & E1).
  destruct (mm !! key); by injection E1 as <- <-.
Qed.

Lemma DeleteInvalidItems_keys ix keys m n :
  store_wf m ->
  exists m' n', rfold (DeleteInvalidItems_key ix) (m, n) keys = Ok (m', n') /\ store_wf m' /\ Size m' = Size m /\
    forall k, flat m' !! k = if decide (k ∈ keys) then (if orphan ix k then None else flat m !! k) else flat m !! k.
Proof using Type.
  revert m n; induction keys as [|key keys IH]; intros m n Hwf; cbn [rfold].
  { exists m, n. split_and!; [done..|]. intros k. by rewrite decide_False by apply not_elem_of_nil. }
  assert (exists m1 n1, DeleteInvalidItems_key ix (m, n) key = Ok (m1, n1) /\ store_wf m1 /\ Size m1 = Size m /\
    forall k, flat m1 !! k = if decide (k = key) then (if orphan ix k then None else flat m !! k) else flat m !! k)
    as (m1 & n1 & -> & Hwf1 & Es1 & Hf1).
  { unfold DeleteInvalidItems_key. destruct (orphan ix key) eqn:Eo; pose proof Eo as Eo'; unfold orphan in Eo.
    - destruct (strings_Split key "_") as [|a [|b [|c []]]]; try done. rewrite Eo.
      destruct (Remove_spec m key Hwf) as (m1 & b1 & -> & Hwf1 & Es & Ef). exists m1, (n + 1). split_and!; [done..|].
      intros k. rewrite Ef. case_decide as Hk; subst; [rewrite lookup_delete_eq | by rewrite lookup_delete_ne].
      by rewrite Eo'.
    - exists m, n. split_and!; [|done..|].
      + destruct (strings_Split key "_") as [|a [|b [|c []]]]; try done. by rewrite Eo.
      + intros k. case_decide; subst; [|done]. by rewrite Eo'. }
  cbn [rbind]. destruct (IH m1 n1 Hwf1) as (m' & n' & -> & Hwf' & Es' & Hf').
  exists m', n'. split_and!; [done | done | congruence |]. intros k. rewrite Hf', Hf1.
  destruct (decide (k ∈ keys)) as [Hk|Hk]; [rewrite (decide_True (P := k ∈ key :: keys)) by (by right); repeat case_match; done|].
  destruct (decide (k = key)) as [->|Hne]; [by rewrite decide_True by left|].
  by rewrite decide_False by (rewrite elem_of_cons; naive_solver).
Qed.

Lemma DeleteInvalidItems_idxs ix idxs m n :
  store_wf m -> Forall (fun i => 0 <= i < Size m) idxs ->
  exists m' n', rfold (fun (s : GraphItemMap * Z) idx =>
      let! keys := GraphItemMap_KeysByIndex (fst s) idx in rfold (DeleteInvalidItems_key ix) s keys) (m, n) idxs
      = Ok (m', n') /\ store_wf m' /\
    forall k, flat m' !! k = if decide (hashKey k mod Size m ∈ idxs) then (if orphan ix k then None else flat m !! k)
                             else flat m !! k.
Proof using Type.
  revert m n; induction idxs as [|i idxs IH]; intros m n Hwf Hi; cbn [rfold].
  { exists m, n. split_and!; [done..|]. intros k. by rewrite decide_False by apply not_elem_of_nil. }
  apply list.Forall_cons in Hi as [Hi His]. cbn [fst].
  destruct (KeysByIndex_spec m i Hwf Hi) as (keys & -> & Hkeys). cbn [rbind].
  destruct (DeleteInvalidItems_keys ix keys m n Hwf) as (m1 & n1 & -> & Hwf1 & Es1 & Hf1). cbn [rbind].
  destruct (IH m1 n1 Hwf1) as (m' & n' & -> & Hwf' & Hf'); [by rewrite Es1|].
  exists m', n'. split_and!; [done..|]. intros k. rewrite Hf', Es1, Hf1.
  destruct (orphan ix k) eqn:Eo; [|repeat case_decide; done].
  destruct (decide (hashKey k mod Size m ∈ idxs)) as [Hk|Hk]; [rewrite decide_True by (by right); done|].
  destruct (decide (hashKey k mod Size m = i)) as [Hk'|Hk'].
  - rewrite (decide_True (P := hashKey k mod Size m ∈ i :: idxs)) by (rewrite Hk'; left).
    case_decide as Hin; [done|]. destruct (flat m !! k) eqn:Ek; [|done].
    destruct Hin. apply Hkeys. split; [by eexists | done].
  - rewrite (decide_False (P := hashKey k mod Size m ∈ i :: idxs)) by (rewrite elem_of_cons; naive_solver).
    case_decide as Hin; [|done]. apply Hkeys in Hin as [_ ?]. done.
Qed.
End clean.

(** * Properties *)

(** C10. Receiving a batch never panics and keeps the invariant of the caches:
    the sharded store well formed, every list strictly decreasing in time and of
    one series, type and step only, the history of each series its last points,
    the index filed by checksum. A point not later than the newest cached one
    under its key, or with an invalid string, changes nothing at all. *)
Theorem handleItems_inv `{LimitedList, NMap, MapRange, Unicode} {D DB : Type} `{!Disk D, !IndexDb DB}
    (cfg : GraphConfig) (items : list (option GraphItem)) (st : GraphState D DB) :
  graph_inv st ->
  (exists st', handleItems cfg items st = Ok st' /\ graph_inv st') /\
  (forall item, valid_item item && newer_than (head (cached st (item_key item))) item = false ->
    handleItem cfg st (Some item) = Ok st).
Proof.
  intros Hst. split; [by apply handleItems_spec|]. intros item Hn.
  destruct (handleItem_spec cfg st item Hst) as (st' & E & _ & Hc). rewrite Hn in Hc. by subst.
Qed.

(** The Unicode table of a run that sees ASCII only. *)
Definition unicode_ascii : Unicode.
Proof. refine {| unicode_IsPrint := fun r => (32 <=? r) && (r <=? 126) |}. done. Defined.

Lemma empty_graph_inv :
  @graph_inv limited_list nmap_gmap (gset string) (list index_stmt) sample_graph_state.
Proof.
  split; [apply store_wf_init | | apply history_inv_new | split; apply map_Forall_empty].
  intros key sl. cbn [GraphItems sample_graph_state]. by rewrite flat_init, lookup_empty.
Qed.

Lemma handleItems_inv_witness :
  exists st', @handleItems limited_list nmap_gmap unicode_ascii _ _ disk_set
    sample_graph_config [Some (sample_graph_item 60 1); None] sample_graph_state = Ok st' /\ graph_inv st'.
Proof.
  apply (@handleItems_inv limited_list nmap_gmap map_range_default unicode_ascii _ _ disk_set db_log). apply empty_graph_inv.
Defined.

(** An accepted point becomes the newest of the list of its key and of no
    other, and enters the history of its series. *)
Theorem handleItem_accepts `{LimitedList, NMap, MapRange, Unicode} {D DB : Type} `{!Disk D, !IndexDb DB}
    (cfg : GraphConfig) (item : GraphItem) (st : GraphState D DB) :
  graph_inv st -> valid_item item = true -> newer_than (head (cached st (item_key item))) item = true ->
  exists st', handleItem cfg st (Some item) = Ok st' /\
    (forall key, cached st' key = if decide (item_key item = key) then item :: cached st key else cached st key) /\
    (forall key, GetAllItems (HistoryCache st') key =
      if decide (GraphItem_Checksum item = key) then
        if newer_than (head (GetAllItems (HistoryCache st) key)) item
        then take 3 (item :: GetAllItems (HistoryCache st) key) else GetAllItems (HistoryCache st) key
      else GetAllItems (HistoryCache st) key).
Proof.
  intros Hst Hv Hn. destruct (handleItem_spec cfg st item Hst) as (st' & E & _ & Hc).
  rewrite Hv, Hn in Hc. destruct Hc as [Hc Eh]. exists st'. split; [done|]. split; [done|]. intros key.
  rewrite Eh, (proj2 (AddItem_spec _ _ _ (graph_history _ Hst))). by case_decide; subst.
Qed.

Lemma handleItem_accepts_witness :
  exists st', @handleItem limited_list nmap_gmap unicode_ascii _ _ disk_set
    sample_graph_config sample_graph_state (Some (sample_graph_item 60 1)) = Ok st' /\
    cached st' (item_key (sample_graph_item 60 1)) = [sample_graph_item 60 1].
Proof.
  destruct (@handleItem_accepts limited_list nmap_gmap map_range_default unicode_ascii _ _ disk_set db_log
    sample_graph_config (sample_graph_item 60 1) sample_graph_state) as (st' & E & Hc & _);
    [apply empty_graph_inv | vm_compute; reflexivity | vm_compute; reflexivity |].
  exists st'. split; [exact E|]. rewrite Hc, decide_True by reflexivity.
  unfold cached. cbn [GraphItems sample_graph_state]. by rewrite flat_init, lookup_empty.
Defined.

(** The last value of a counter is a rate over exactly one step between its
    two newest points, zero when the counter went down, or the invalid point. *)
Theorem GetLast_counter `{LimitedList, NMap} {D DB : Type} `{!IndexDb DB}
    (endpoint counter dsType : string) (step : Z) (st st1 : GraphState D DB) :
  GetTypeAndStep endpoint counter st = Ok (Some (dsType, step), st1) ->
  dsType = COUNTER \/ dsType = DERIVE ->
  exists r, GetLast endpoint counter st = Ok (r, st1) /\
    (r = mkRRDData 0 f64_zero \/
     exists f0 f1 older, GetAllItems (HistoryCache st1) (Md5 (endpoint +:+ "/" +:+ counter)) = f0 :: f1 :: older /\
       i64 (GraphItem_Timestamp f0 - GraphItem_Timestamp f1) = step /\ 0 < step /\
       let delta := f64_sub (GraphItem_Value f0) (GraphItem_Value f1) in
       r = mkRRDData (GraphItem_Timestamp f0)
             (f64_div (if f64_lt delta f64_zero then f64_zero else delta) (f64_of_Z step))).
Proof.
  intros E Hty. unfold GetLast. rewrite E. cbn [rbind].
  rewrite bool_decide_false by (by destruct Hty as [->| ->]). rewrite bool_decide_true by done.
  destruct (GetAllItems _ _) as [|f0 [|f1 older]]; [eexists; split; [done | by left]..|].
  destruct (negb _ || _) eqn:Eb; [eexists; split; [done | by left]|].
  apply orb_false_iff in Eb as [Hd%negb_false_iff%Z.eqb_eq Hp%Z.leb_gt].
  eexists. split; [done|]. right. exists f0, f1, older. rewrite Hd in *. done.
Qed.

Definition sample_history_state : @GraphState limited_list nmap_gmap (gset string) (list index_stmt) :=
  @set_HistoryCache limited_list nmap_gmap _ _
    (@AddItem limited_list nmap_gmap (@AddItem limited_list nmap_gmap (@NewSafeMap nmap_gmap _)
      (GraphItem_Checksum (sample_graph_item 60 1)) (sample_graph_item 60 1))
      (GraphItem_Checksum (sample_graph_item 60 1)) (sample_graph_item 120 7)) sample_graph_state.

Lemma GetLast_counter_witness :
  exists r st', @GetLast limited_list nmap_gmap _ _ db_log "host" "net.in/iface=eth0" sample_history_state = Ok (r, st') /\
    r = mkRRDData 120 (f64_lit 1 (-1)).
Proof.
  destruct (@GetLast_counter limited_list nmap_gmap _ _ db_log "host" "net.in/iface=eth0" "COUNTER" 60 sample_history_state _
    eq_refl (or_introl eq_refl)) as (r & E & _).
  exists r. eexists. split; [exact E|].
  assert ((match @GetLast limited_list nmap_gmap _ _ db_log "host" "net.in/iface=eth0" sample_history_state with
    | Ok (r, _) => Some r | Panic _ => None end) = Some (mkRRDData 120 (f64_lit 1 (-1)))) as Ev by (vm_compute; reflexivity).
  rewrite E in Ev. injection Ev as ->. reflexivity.
Defined.

(** Cleaning the store removes exactly the lists whose key has three parts
    and a checksum that is not indexed. *)
Theorem DeleteInvalidItems_exact `{LimitedList, NMap, MapRange} {D DB : Type} (st : GraphState D DB) :
  store_wf (GraphItems st) ->
  exists st' n, DeleteInvalidItems st = Ok (st', n) /\ store_wf (GraphItems st') /\
    forall key, flat (GraphItems st') !! key =
      if orphan (IndexedItemCache st) key then None else flat (GraphItems st) !! key.
Proof.
  intros Hwf. unfold DeleteInvalidItems. pose proof (wf_size _ Hwf) as Hs.
  destruct (DeleteInvalidItems_idxs (IndexedItemCache st) (seqZ 0 (Size (GraphItems st))) (GraphItems st) 0)
    as (m & n & -> & Hwf' & Hf); [done | |].
  { apply list.Forall_forall. intros i Hi%elem_of_seqZ. lia. }
  eexists _, n. split; [done|]. split; [done|]. intros key. cbn [set_GraphItems GraphItems].
  rewrite Hf, decide_True; [done|]. apply elem_of_seqZ. pose proof (Z.mod_pos_bound (hashKey key) (Size (GraphItems st))). lia.
Qed.

Lemma DeleteInvalidItems_exact_witness :
  exists st' n, @DeleteInvalidItems limited_list nmap_gmap map_range_default _ _ sample_graph_state = Ok (st', n) /\
    flat (GraphItems st') !! "a_GAUGE_60" = None.
Proof.
  destruct (@DeleteInvalidItems_exact limited_list nmap_gmap map_range_default _ _ sample_graph_state store_wf_init)
    as (st' & n & E & _ & Hf).
  exists st', n. split; [exact E|]. rewrite Hf. vm_compute. reflexivity.
Defined.
