(* ===== verification/GraphQuery.v ===== *)
(** The answer of [Graph.Query] (modules/graph/api/graph.go) as a function of
    time: what the points in memory and those of the file say of each step, and
    that the merge of [query_merge] computes it. *)
From Stdlib Require Import Ascii ZArith.
From stdpp Require Import base list gmap strings numbers sorting.
From S2P Require Import Prelude GoString GoFloat GoHash Utils Model ThirdParty GraphUtil GraphStore GraphIndex GraphApi.

Local Open Scope Z_scope.

(** * The query *)

(** Times far from the limits of int64, and steps that fit in 31 bits. *)
Definition time_ok (t : Z) : Prop := 0 <= t < 2 ^ 62.
Definition step_ok (s : Z) : Prop := 1 <= s < 2 ^ 31.

Lemma i64_time t s : time_ok t -> step_ok s -> i64 (t + s) = t + s.
Proof. unfold time_ok, step_ok. intros. apply i64_id. unfold is_int64, int64_min, int64_max. lia. Qed.

(** The loops over the cached points end and stay in the slice. *)
Lemma derive_cache_some items step s e endTs fuel ts idx :
  time_ok endTs -> step_ok step -> 0 <= ts -> 0 <= idx -> (Z.to_nat (endTs - ts) < fuel)%nat ->
  exists c, derive_cache fuel items step s e endTs ts idx = Ok (Some c).
Proof.
  intros He Hs. revert ts idx; induction fuel as [|fuel IH]; intros ts idx Ht Hi Hf; [lia|].
  cbn [derive_cache]. case_bool; [|by eexists].
  assert (i64 (ts + step) = ts + step) as Et by (apply i64_time; unfold time_ok in *; lia || done).
  assert (exists val idx', (if idx <? Z.of_nat (length items) - 1 then
             let! it := index items idx in
             if ts =? GraphItem_Timestamp it then
               let! next := index items (idx + 1) in
               if (ts =? i64 (GraphItem_Timestamp next - step)) && f64_ge (GraphItem_Value next) (GraphItem_Value it)
               then Ok (f64_div (f64_sub (GraphItem_Value next) (GraphItem_Value it)) (f64_of_Z step), idx + 1)
               else Ok (f64_nan, idx + 1)
             else Ok (f64_nan, idx)
           else Ok (f64_nan, idx)) = Ok (val, idx') /\ 0 <= idx') as (val & idx' & -> & Hi').
  { destruct (Z.ltb_spec idx (Z.of_nat (length items) - 1)); [|by eexists _, _].
    destruct (lookup_lt_is_Some_2 items (Z.to_nat idx)) as [it Hit]; [lia|].
    destruct (lookup_lt_is_Some_2 items (Z.to_nat (idx + 1))) as [next Hnext]; [lia|].
    apply index_nat in Hit, Hnext. rewrite Z2Nat.id in Hit, Hnext by lia. rewrite Hit, Hnext. cbn [rbind].
    destruct (ts =? GraphItem_Timestamp it); [|by eexists _, _]. destruct (_ && _); eexists _, _; (split; [done | lia]). }
  cbn [rbind]. destruct (IH (i64 (ts + step)) idx') as [c ->]; [unfold step_ok in *; lia | done | unfold step_ok in *; lia |].
  by eexists.
Qed.

Lemma gauge_cache_some items step s e endTs fuel ts idx :
  time_ok endTs -> step_ok step -> 0 <= ts -> 0 <= idx -> (Z.to_nat (endTs - ts + 1) < fuel)%nat ->
  exists c, gauge_cache fuel items step s e endTs ts idx = Ok (Some c).
Proof.
  intros He Hs. revert ts idx; induction fuel as [|fuel IH]; intros ts idx Ht Hi Hf; [lia|].
  cbn [gauge_cache]. destruct (Z.leb_spec ts endTs); [|by eexists].
  assert (i64 (ts + step) = ts + step) as Et by (apply i64_time; unfold time_ok in *; lia || done).
  assert (exists val idx', (if idx <? Z.of_nat (length items) then
             let! it := index items idx in
             if ts =? GraphItem_Timestamp it then Ok (GraphItem_Value it, idx + 1) else Ok (f64_nan, idx)
           else Ok (f64_nan, idx)) = Ok (val, idx') /\ 0 <= idx') as (val & idx' & -> & Hi').
  { destruct (Z.ltb_spec idx (Z.of_nat (length items))); [|by eexists _, _].
    destruct (lookup_lt_is_Some_2 items (Z.to_nat idx)) as [it Hit]; [lia|].
    apply index_nat in Hit. rewrite Z2Nat.id in Hit by lia. rewrite Hit. cbn [rbind].
    destruct (ts =? GraphItem_Timestamp it); eexists _, _; (split; [done | lia]). }
  cbn [rbind]. destruct (IH (i64 (ts + step)) idx') as [c ->]; [unfold step_ok in *; lia | done | unfold step_ok in *; lia |].
  by eexists.
Qed.

Lemma fill_missing_some fuel step until ts :
  time_ok until -> step_ok step -> 0 <= ts -> (Z.to_nat (until - ts) < fuel)%nat ->
  exists l, fill_missing fuel step until ts = Some l /\ Forall (fun d => RRDData_Value d = f64_nan) l.
Proof.
  intros Hu Hs. revert ts; induction fuel as [|fuel IH]; intros ts Ht Hf; [lia|]. cbn [fill_missing].
  case_bool; [|by exists []].
  assert (i64 (ts + step) = ts + step) as Et by (apply i64_time; unfold time_ok in *; lia || done).
  destruct (IH (i64 (ts + step))) as (l & -> & Hl); [unfold step_ok in *; lia.. |].
  eexists. split; [done|]. by constructor.
Qed.

(** ** What the points of the answer are *)

(** A point of the answer that comes from the points in memory: a value of a
    gauge, or the rate between two neighbours one step apart. *)
Definition from_memory (dsType : string) (step : Z) (items : list GraphItem) (d : RRDData) : Prop :=
  (dsType = GAUGE /\ exists it, it ∈ items /\ d = mkRRDData (GraphItem_Timestamp it) (GraphItem_Value it)) \/
  ((dsType = DERIVE \/ dsType = COUNTER) /\ exists i a b, items !! i = Some a /\ items !! S i = Some b /\
     GraphItem_Timestamp a = i64 (GraphItem_Timestamp b - step) /\ f64_ge (GraphItem_Value b) (GraphItem_Value a) = true /\
     d = mkRRDData (GraphItem_Timestamp a) (f64_div (f64_sub (GraphItem_Value b) (GraphItem_Value a)) (f64_of_Z step))).

Definition missing (d : RRDData) : Prop := RRDData_Value d = f64_nan.

Lemma index_Ok_lookup {V : Type} (l : list V) i v : index l i = Ok v -> 0 <= i /\ l !! Z.to_nat i = Some v.
Proof.
  unfold index. case_bool; [done|]. destruct (l !! Z.to_nat i) eqn:E; [|done]. intros [= ->]. done.
Qed.

Lemma in_window_Forall (P : RRDData -> Prop) s e ts v :
  P (mkRRDData ts v) -> Forall (fun d => s <= RRDData_Timestamp d <= e /\ P d) (in_window s e ts v).
Proof.
  intros HP. unfold in_window. destruct (_ && _) eqn:E; [|constructor].
  apply andb_true_iff in E as [?%Z.leb_le ?%Z.leb_le]. by repeat constructor.
Qed.

Lemma derive_cache_points dsType items step s e endTs fuel ts idx c :
  dsType = DERIVE \/ dsType = COUNTER ->
  derive_cache fuel items step s e endTs ts idx = Ok (Some c) ->
  Forall (fun d => s <= RRDData_Timestamp d <= e /\ (missing d \/ from_memory dsType step items d)) c.
Proof.
  intros Hty. revert ts idx c; induction fuel as [|fuel IH]; intros ts idx c; cbn [derive_cache]; [done|].
  destruct (ts <? endTs); [|intros [= <-]; constructor]. intros E. apply rbind_Ok_inv in E as ([val idx'] & Ev & E).
  apply rbind_Ok_inv in E as ([rest|] & Er & E); [|done]. injection E as <-.
  apply Forall_app. split; [|by eapply IH]. apply in_window_Forall.
  destruct (idx <? Z.of_nat (length items) - 1); [|injection Ev as <- <-; by left].
  apply rbind_Ok_inv in Ev as (it & Hit & Ev). destruct (Z.eqb_spec ts (GraphItem_Timestamp it)) as [->|];
    [|injection Ev as <- <-; by left].
  apply rbind_Ok_inv in Ev as (next & Hnext & Ev). destruct (_ && _) eqn:Eb; injection Ev as <- <-; [|by left].
  apply andb_true_iff in Eb as [Hts%Z.eqb_eq Hge]. right. right. split; [done|].
  apply index_Ok_lookup in Hit as [Hi Hit], Hnext as [_ Hnext].
  exists (Z.to_nat idx), it, next. replace (Z.to_nat (idx + 1)) with (S (Z.to_nat idx)) in Hnext by lia. done.
Qed.

Lemma gauge_cache_points items step s e endTs fuel ts idx c :
  gauge_cache fuel items step s e endTs ts idx = Ok (Some c) ->
  Forall (fun d => s <= RRDData_Timestamp d <= e /\ (missing d \/ from_memory GAUGE step items d)) c.
Proof.
  revert ts idx c; induction fuel as [|fuel IH]; intros ts idx c; cbn [gauge_cache]; [done|].
  destruct (ts <=? endTs); [|intros [= <-]; constructor]. intros E. apply rbind_Ok_inv in E as ([val idx'] & Ev & E).
  apply rbind_Ok_inv in E as ([rest|] & Er & E); [|done]. injection E as <-.
  apply Forall_app. split; [|by eapply IH]. apply in_window_Forall.
  destruct (idx <? Z.of_nat (length items)); [|injection Ev as <- <-; by left].
  apply rbind_Ok_inv in Ev as (it & Hit & Ev). destruct (Z.eqb_spec ts (GraphItem_Timestamp it)) as [->|];
    injection Ev as <- <-; [|by left].
  right. left. split; [done|]. exists it. apply index_Ok_lookup in Hit as [_ Hit].
  split; [by eapply list_elem_of_lookup_2 | done].
Qed.

Lemma find_junction_spec n merged f j lastTs :
  find_junction n merged f = (j, lastTs) ->
  -1 <= j < Z.of_nat n /\ lastTs <= f /\ (lastTs = f \/ exists d, d ∈ merged /\ RRDData_Timestamp d = lastTs).
Proof.
  induction n as [|n IH]; cbn [find_junction]; [intros [= <- <-]; split; [lia|]; split; [lia | by left]|].
  destruct (merged !! n) as [d|] eqn:E; [|intros [= <- <-]; split; [lia|]; split; [lia | by left]].
  case_bool; [|intros Hj; destruct (IH Hj) as (? & ? & ?); split; [lia | done]].
  intros [= <- <-]. split; [lia|]. split; [lia|]. right. exists d. split; [by eapply list_elem_of_lookup_2 | done].
Qed.

Lemma merge_cache_Forall (P : RRDData -> Prop) size idx cache merged :
  Forall P cache -> Forall P merged -> Forall P (merge_cache size idx cache merged).
Proof.
  intros Hc. revert idx merged; induction Hc as [|c cache Hc Hcs IH]; intros idx merged Hm; [done|].
  cbn [merge_cache]. apply IH. destruct (idx <? size); [destruct (negb _); [by apply Forall_insert | done]|].
  apply Forall_app. split; [done | by constructor].
Qed.

Lemma fmt_result_Forall (P : RRDData -> Prop) n step ts merged :
  (forall t, P (mkRRDData t f64_nan)) -> Forall P merged -> Forall P (fmt_result n step ts merged).
Proof.
  intros Hnan. revert ts merged; induction n as [|n IH]; intros ts merged Hm; [constructor|]. cbn [fmt_result].
  destruct Hm as [|d rest Hd Hr]; [constructor; [done | by apply IH]|].
  destruct (ts =? _); (constructor; [done|]); apply IH; [done | by constructor].
Qed.

(** The answer is on the grid of the step. *)
Lemma fmt_result_grid n step ts merged :
  step_ok step -> 0 <= ts -> ts + Z.of_nat n * step <= 2 ^ 62 + step ->
  map RRDData_Timestamp (fmt_result n step ts merged) = map (fun i => ts + i * step) (seqZ 0 (Z.of_nat n)).
Proof.
  intros Hs. revert ts merged; induction n as [|n IH]; intros ts merged Ht Hb; [done|].
  rewrite seqZ_cons by lia. cbn [fmt_result map]. rewrite Z.add_0_r.
  set (p := match merged with [] => _ | d :: rest => _ end).
  assert (RRDData_Timestamp (fst p) = ts) as E0.
  { unfold p. destruct merged as [|d rest]; [done|]. destruct (Z.eqb_spec ts (RRDData_Timestamp d)); [done | done]. }
  destruct p as [d merged']. cbn [map]. simpl in E0. rewrite E0. f_equal.
  destruct n as [|n]; [done|].
  assert (i64 (ts + step) = ts + step) as ->.
  { apply i64_id. unfold is_int64, int64_min, int64_max, step_ok in *. lia. }
  rewrite IH by (unfold step_ok in *; lia).
  replace (Z.succ 0) with (1 + 0) by lia. replace (Z.pred (Z.of_nat (S (S n)))) with (Z.of_nat (S n)) by lia.
  rewrite <- (fmap_add_seqZ 1 0 (Z.of_nat (S n))). change (map ?f (Z.add 1 <$> ?l)) with (f <$> (Z.add 1 <$> l)).
  rewrite <- list_fmap_compose. apply list_fmap_ext. intros i x _. simpl. lia.
Qed.

(** The points of the file and of the memory are joined within the fuel, and
    the joining invents only missing points. *)
Lemma merge_points_some (Q : RRDData -> Prop) step s e cache (datas merged : list RRDData) :
  time_ok s -> time_ok e -> step_ok step ->
  Forall (fun d => s <= RRDData_Timestamp d <= e /\ (missing d \/ Q d)) cache ->
  Forall (fun d => s <= RRDData_Timestamp d /\ d ∈ datas) merged ->
  exists m', Forall (fun d => missing d \/ d ∈ datas \/ Q d) m' /\
    (match cache with
     | [] => Some merged
     | c0 :: _ =>
         let '(j, lastTs) := find_junction (length merged) merged (RRDData_Timestamp c0) in
         match fill_missing (Z.to_nat (RRDData_Timestamp c0 - lastTs + 2)) step (RRDData_Timestamp c0) (i64 (lastTs + step)) with
         | None => None
         | Some miss => Some (merge_cache (Z.of_nat (length merged)) (j + 1) cache (merged ++ miss))
         end
     end) = Some m'.
Proof.
  intros Hs He Hst Hcache Hm. destruct cache as [|c0 cache].
  { exists merged. split; [|done]. eapply Forall_impl; [exact Hm|]. naive_solver. }
  destruct (find_junction (length merged) merged (RRDData_Timestamp c0)) as [j lastTs] eqn:Ej.
  apply find_junction_spec in Ej as (Hj & Hle & Hlast).
  assert (s <= RRDData_Timestamp c0 <= e) as Hc0 by (by apply list.Forall_cons in Hcache as [[? _] _]).
  assert (0 <= lastTs).
  { unfold time_ok in *. destruct Hlast as [->|(d & Hd & <-)]; [lia|]. rewrite list.Forall_forall in Hm.
    destruct (Hm d Hd). lia. }
  assert (i64 (lastTs + step) = lastTs + step) as -> by (apply i64_time; [unfold time_ok in *; lia | done]).
  destruct (fill_missing_some (Z.to_nat (RRDData_Timestamp c0 - lastTs + 2)) step (RRDData_Timestamp c0) (lastTs + step))
    as (miss & -> & Hmiss); [unfold time_ok in *; lia | done | unfold step_ok in *; lia | unfold step_ok in *; lia |].
  eexists. split; [|done]. apply merge_cache_Forall.
  - eapply Forall_impl; [exact Hcache|]. naive_solver.
  - apply Forall_app. split; eapply Forall_impl; [exact Hm | naive_solver | exact Hmiss | by left].
Qed.

(** The number of steps of a range is computed without overflow. *)
Lemma steps_of_range step s e :
  time_ok s -> time_ok e -> s <= e -> step_ok step ->
  i64 (Z.quot (i64 (e - s)) step) = (e - s) / step /\ 0 <= (e - s) / step.
Proof.
  intros Hs He Hse Hst.
  assert (i64 (e - s) = e - s) as -> by (apply i64_id; unfold is_int64, int64_min, int64_max, time_ok in *; lia).
  pose proof (Z.div_pos (e - s) step ltac:(lia) ltac:(unfold step_ok in *; lia)) as Hpos.
  pose proof (Z.div_le_upper_bound (e - s) step (e - s) ltac:(unfold step_ok in *; lia) ltac:(unfold step_ok in *; nia)) as Hub.
  split; [|done]. rewrite Z.quot_div_nonneg by (unfold step_ok in *; lia). apply i64_id.
  unfold is_int64, int64_min, int64_max, time_ok in *. lia.
Qed.

(** The points merged before the answer is formatted. *)
Lemma query_merge_points dsType step s e items datas :
  items <> [] -> Forall (fun it => time_ok (GraphItem_Timestamp it)) items ->
  time_ok s -> time_ok e -> s <= e -> step_ok step ->
  exists merged, Forall (fun d => missing d \/ d ∈ datas \/ from_memory dsType step items d) merged /\
    query_merge dsType step s e items datas
    = Ok (Some (fmt_result (Z.to_nat (if bool_decide (dsType = GAUGE) then (e - s) / step + 1 else (e - s) / step)) step s merged)).
Proof.
  intros Hne Hts Hs He Hse Hst. unfold query_merge.
  destruct items as [|first rest]; [done|]. change (index (first :: rest) 0) with (Ok first). cbn [rbind].
  destruct (lookup_lt_is_Some_2 (first :: rest) (length (first :: rest) - 1)) as [final Hfin]; [simpl; lia|].
  replace (Z.of_nat (length (first :: rest)) - 1) with (Z.of_nat (length (first :: rest) - 1)) by (simpl; lia).
  rewrite (index_nat _ _ _ Hfin). cbn [rbind].
  pose proof Hts as Hts'. rewrite list.Forall_forall in Hts'.
  assert (time_ok (GraphItem_Timestamp first)) as Hf by (apply Hts'; left).
  assert (time_ok (GraphItem_Timestamp final)) as Hl by (apply Hts'; by eapply list_elem_of_lookup_2).
  set (fuel := S (Z.to_nat (GraphItem_Timestamp final - GraphItem_Timestamp first + 1))).
  match goal with |- context [rbind (if bool_decide (dsType = DERIVE \/ dsType = COUNTER) then ?a else ?b) _] =>
    set (m := if bool_decide (dsType = DERIVE \/ dsType = COUNTER) then a else b) end.
  assert (exists cache, m = Ok (Some cache) /\ Forall (fun d => s <= RRDData_Timestamp d <= e /\
    (missing d \/ from_memory dsType step (first :: rest) d)) cache) as (cache & -> & Hcache).
  { unfold m. case_bool_decide as Hd; [|case_bool_decide as Hg; [|by exists []]].
    - destruct (derive_cache_some (first :: rest) step s e (GraphItem_Timestamp final) fuel (GraphItem_Timestamp first) 0)
        as [c Ec]; [done | done | apply Hf | done | unfold fuel, time_ok in *; lia |].
      exists c. split; [done|]. by eapply derive_cache_points.
    - destruct (gauge_cache_some (first :: rest) step s e (GraphItem_Timestamp final) fuel (GraphItem_Timestamp first) 0)
        as [c Ec]; [done | done | apply Hf | done | unfold fuel, time_ok in *; lia |].
      exists c. split; [done|]. rewrite Hg. by eapply gauge_cache_points. }
  cbn [rbind]. set (merged := List.filter _ datas).
  assert (Forall (fun d => s <= RRDData_Timestamp d /\ d ∈ datas) merged) as Hm.
  { apply list.Forall_forall. intros d [Hd Hw]%list_elem_of_In%List.filter_In.
    apply andb_true_iff in Hw as [Hw%Z.leb_le _]. by apply list_elem_of_In in Hd. }
  destruct (merge_points_some _ step s e cache datas merged Hs He Hst Hcache Hm) as (m' & Hm' & Em').
  rewrite Em'. exists m'. split; [exact Hm'|].
  unfold go_div. rewrite (proj2 (Z.eqb_neq step 0)) by (unfold step_ok in *; lia). cbn [rbind].
  destruct (steps_of_range step s e) as [-> Hpos]; [done..|].
  case_bool_decide; rewrite (proj2 (Z.ltb_ge _ 0)) by lia; done.
Qed.

(** ** The answer as a function of time *)

(** What the points in memory say of a time: the value of a gauge, or the rate
    from the point of that time to the next one, when that comes one step later
    and the counter did not go down. *)
Fixpoint gauge_at (items : list GraphItem) (t : Z) : option f64 :=
  match items with
  | [] => None
  | a :: items => if GraphItem_Timestamp a =? t then Some (GraphItem_Value a) else gauge_at items t
  end.
Fixpoint rate_at (step : Z) (items : list GraphItem) (t : Z) : option f64 :=
  match items with
  | a :: ((b :: _) as rest) =>
      if GraphItem_Timestamp a =? t then
        if (GraphItem_Timestamp b =? t + step) && f64_ge (GraphItem_Value b) (GraphItem_Value a)
        then Some (f64_div (f64_sub (GraphItem_Value b) (GraphItem_Value a)) (f64_of_Z step)) else None
      else rate_at step rest t
  | _ => None
  end.
Definition memory_at (dsType : string) (step : Z) (items : list GraphItem) (t : Z) : option f64 :=
  if bool_decide (dsType = DERIVE \/ dsType = COUNTER) then rate_at step items t
  else if bool_decide (dsType = GAUGE) then gauge_at items t else None.

(** What a list of points says of a time. *)
Fixpoint value_at (datas : list RRDData) (t : Z) : option f64 :=
  match datas with
  | [] => None
  | d :: datas => if RRDData_Timestamp d =? t then Some (RRDData_Value d) else value_at datas t
  end.

(** The value a query answers for a time: that of the memory, else that of the
    disk, else none. *)
Definition answer_at (memory disk : option f64) : f64 :=
  match memory with
  | Some v => if f64_isNaN v then default f64_nan disk else v
  | None => default f64_nan disk
  end.

(** Points one step apart, the first at [a], as [fetch] lays out those of a
    file. *)
Fixpoint grid_from (step a : Z) (datas : list RRDData) : Prop :=
  match datas with
  | [] => True
  | d :: datas => RRDData_Timestamp d = a /\ grid_from step (a + step) datas
  end.

(** Cached points, oldest first, at different times of the grid of the query. *)
Definition aligned (step start_ts : Z) (items : list GraphItem) : Prop :=
  StronglySorted (fun a b => GraphItem_Timestamp a < GraphItem_Timestamp b) items /\
  Forall (fun it => (step | GraphItem_Timestamp it - start_ts)) items.

Lemma isNaN_nan v : f64_isNaN v = true -> v = f64_nan.
Proof. by destruct v. Qed.

Section grid.
Context (step : Z) (Hstep : step_ok step).

Lemma next_multiple a b : (step | b - a) -> a < b -> a + step <= b.
Proof using Hstep. intros [q Hq] Hlt. assert (0 < q * step) by lia. unfold step_ok in Hstep. assert (1 <= q) by nia. nia. Qed.

Lemma value_at_before a t datas : grid_from step a datas -> t < a -> value_at datas t = None.
Proof using Hstep.
  revert a; induction datas as [|d datas IH]; intros a; [done|]. intros [Hd Hg] Ht. cbn [value_at].
  rewrite (proj2 (Z.eqb_neq _ t)) by lia. apply (IH (a + step)); [done|]. unfold step_ok in Hstep. lia.
Qed.

Lemma value_at_filter s e datas t :
  value_at (List.filter (fun v => (s <=? RRDData_Timestamp v) && (RRDData_Timestamp v <=? e)) datas) t =
  if (s <=? t) && (t <=? e) then value_at datas t else None.
Proof using Type.
  induction datas as [|d datas IH]; cbn [List.filter value_at]; [by destruct (_ && _)|].
  destruct (Z.eqb_spec (RRDData_Timestamp d) t) as [<-|Hne].
  - destruct ((s <=? RRDData_Timestamp d) && (RRDData_Timestamp d <=? e)) eqn:E; [|by rewrite IH]. cbn [value_at]. by rewrite Z.eqb_refl.
  - destruct ((s <=? RRDData_Timestamp d) && _); [|done]. cbn [value_at]. by rewrite (proj2 (Z.eqb_neq _ t)).
Qed.

Lemma filter_after s e a datas :
  grid_from step a datas -> e < a ->
  List.filter (fun v => (s <=? RRDData_Timestamp v) && (RRDData_Timestamp v <=? e)) datas = [].
Proof using Hstep.
  revert a; induction datas as [|d datas IH]; intros a; [done|]. intros [Hd Hg] Ht. cbn [List.filter].
  rewrite (proj2 (Z.leb_gt (RRDData_Timestamp d) e)), andb_false_r by lia. apply (IH (a + step)); [done|].
  unfold step_ok in Hstep. lia.
Qed.

(** The part of a grid within a window is a grid. *)
Lemma filter_grid s e a datas :
  grid_from step a datas -> (step | s - a) ->
  grid_from step (Z.max a s) (List.filter (fun v => (s <=? RRDData_Timestamp v) && (RRDData_Timestamp v <=? e)) datas).
Proof using Hstep.
  intros Hg. revert a Hg; induction datas as [|d datas IH]; intros a; [done|]. intros [Hd Hg] Hdiv. cbn [List.filter].
  assert ((step | s - (a + step))) as Hdiv'.
  { replace (s - (a + step)) with (s - a - step) by lia. apply Z.divide_sub_r; [done | apply Z.divide_refl]. }
  specialize (IH _ Hg Hdiv'). destruct (Z.leb_spec s (RRDData_Timestamp d)); cbn [andb].
  - destruct (Z.leb_spec (RRDData_Timestamp d) e).
    + split; [lia|]. by replace (Z.max a s + step) with (Z.max (a + step) s) by (unfold step_ok in Hstep; lia).
    + rewrite (filter_after s e (a + step)); [done | done | unfold step_ok in Hstep; lia].
  - pose proof (next_multiple a s Hdiv ltac:(lia)). by replace (Z.max a s) with (Z.max (a + step) s) by lia.
Qed.

(** The answer reads the merged points off the grid. *)
Lemma fmt_result_values n ts b merged :
  grid_from step b merged -> (step | b - ts) -> ts <= b ->
  0 <= ts -> ts + Z.of_nat n * step <= 2 ^ 62 + step ->
  fmt_result n step ts merged =
    map (fun i => mkRRDData (ts + i * step) (default f64_nan (value_at merged (ts + i * step)))) (seqZ 0 (Z.of_nat n)).
Proof using Hstep.
  revert ts b merged; induction n as [|n IH]; intros ts b merged Hg Hdiv Hle Ht Hb; [done|].
  assert (n <> 0%nat -> i64 (ts + step) = ts + step) as Ei.
  { intros. apply i64_id. unfold is_int64, int64_min, int64_max, step_ok in *. lia. }
  assert (forall m f, (forall t, ts < t -> value_at m t = value_at merged t) -> f = default f64_nan (value_at merged ts) ->
    (exists b', grid_from step b' m /\ (step | b' - (ts + step)) /\ ts + step <= b') ->
    mkRRDData ts f :: fmt_result n step (i64 (ts + step)) m = map (fun i => mkRRDData (ts + i * step)
      (default f64_nan (value_at merged (ts + i * step)))) (seqZ 0 (Z.of_nat (S n)))) as Hcons.
  { intros m f Hm -> (b' & Hg' & Hdiv' & Hle'). rewrite seqZ_cons by lia. cbn [map]. rewrite Z.add_0_r. f_equal.
    destruct n as [|n]; [done|]. rewrite Ei by done. rewrite (IH (ts + step) b') by (done || unfold step_ok in *; lia).
    replace (Z.succ 0) with (1 + 0) by lia. replace (Z.pred (Z.of_nat (S (S n)))) with (Z.of_nat (S n)) by lia.
    rewrite <- (fmap_add_seqZ 1 0 (Z.of_nat (S n))). change (map ?f (Z.add 1 <$> ?l)) with (f <$> (Z.add 1 <$> l)).
    rewrite <- list_fmap_compose. apply list_fmap_ext. intros i x Hx%lookup_seqZ. simpl.
    replace (ts + (1 + x) * step) with (ts + step + x * step) by lia. rewrite Hm; [done|]. unfold step_ok in *. nia. }
  cbn [fmt_result]. destruct merged as [|d rest].
  - apply Hcons; [done | done |]. exists (ts + step). split_and!; [done | | lia].
    rewrite Z.sub_diag. apply Z.divide_0_r.
  - destruct Hg as [Hd Hg]. destruct (Z.eqb_spec ts (RRDData_Timestamp d)) as [E|E].
    + replace d with (mkRRDData ts (RRDData_Value d)) at 1 by (destruct d; simpl in *; congruence).
      apply Hcons; cbn [value_at].
      * intros t Hlt. by rewrite (proj2 (Z.eqb_neq _ t)) by lia.
      * by rewrite <- E, Z.eqb_refl.
      * exists (b + step). split_and!; [done | | lia]. by replace (b + step - (ts + step)) with (b - ts) by lia.
    + apply Hcons; [done | |].
      * rewrite (value_at_before b); [done | split; [exact Hd | exact Hg] | lia].
      * exists b. split; [split; [exact Hd | exact Hg]|]. split; [|apply next_multiple; [done | lia]].
        replace (b - (ts + step)) with (b - ts - step) by lia. apply Z.divide_sub_r; [done | apply Z.divide_refl].
Qed.
End grid.

(** Cached points laid over older ones, from the same time on. *)
Fixpoint overlay (old cache : list RRDData) : list RRDData :=
  match old, cache with
  | [], _ => cache
  | _, [] => old
  | o :: old, c :: cache => (if f64_isNaN (RRDData_Value c) then o else c) :: overlay old cache
  end.

Lemma merge_cache_append size idx cache merged : size <= idx -> merge_cache size idx cache merged = merged ++ cache.
Proof.
  revert idx merged; induction cache as [|c cache IH]; intros idx merged Hle; cbn [merge_cache]; [by rewrite app_nil_r|].
  rewrite (proj2 (Z.ltb_ge idx size)) by done. rewrite IH by lia. by rewrite <- app_assoc.
Qed.

Lemma merge_cache_overlay pre old cache :
  merge_cache (Z.of_nat (length (pre ++ old))) (Z.of_nat (length pre)) cache (pre ++ old) = pre ++ overlay old cache.
Proof.
  revert pre cache; induction old as [|o old IH]; intros pre cache.
  { rewrite merge_cache_append by (rewrite length_app; simpl; lia). by rewrite app_nil_r. }
  destruct cache as [|c cache]; [done|]. cbn [merge_cache overlay].
  rewrite (proj2 (Z.ltb_lt _ _)) by (rewrite length_app; simpl; lia).
  assert (forall x, merge_cache (Z.of_nat (length (pre ++ o :: old))) (Z.of_nat (length pre) + 1) cache (pre ++ x :: old)
    = pre ++ x :: overlay old cache) as Hx.
  { intros x. specialize (IH (pre ++ [x]) cache). rewrite <- !app_assoc in IH. cbn [app] in IH. rewrite <- IH.
    f_equal; rewrite !length_app; simpl; lia. }
  destruct (f64_isNaN (RRDData_Value c)); cbn [negb]; [apply Hx|].
  rewrite Nat2Z.id, insert_app_r_alt, Nat.sub_diag by lia. apply Hx.
Qed.

Lemma value_at_app l1 l2 t :
  value_at (l1 ++ l2) t = match value_at l1 t with Some v => Some v | None => value_at l2 t end.
Proof. induction l1 as [|d l1 IH]; [done|]. cbn [app value_at]. by destruct (_ =? t). Qed.

Lemma answer_at_default m m' d : default f64_nan m = default f64_nan m' -> answer_at m d = answer_at m' d.
Proof.
  assert (forall m, answer_at m d = if f64_isNaN (default f64_nan m) then default f64_nan d else default f64_nan m) as Ha
    by (by intros []).
  intros E. by rewrite !Ha, E.
Qed.

Lemma answer_at_None v : default f64_nan v = answer_at v None.
Proof. destruct v as [v|]; [|done]. cbn. destruct (f64_isNaN v) eqn:E; [by apply isNaN_nan | done]. Qed.

Section merge.
Context (step : Z) (Hstep : step_ok step).

Lemma grid_app a l1 l2 :
  grid_from step a (l1 ++ l2) <-> grid_from step a l1 /\ grid_from step (a + Z.of_nat (length l1) * step) l2.
Proof using Type.
  revert a; induction l1 as [|d l1 IH]; intros a; cbn [app grid_from length].
  { rewrite Z.mul_0_l, Z.add_0_r. naive_solver. }
  rewrite IH. replace (a + step + Z.of_nat (length l1) * step) with (a + Z.of_nat (S (length l1)) * step) by lia. tauto.
Qed.

Lemma grid_lookup a l i d : grid_from step a l -> l !! i = Some d -> RRDData_Timestamp d = a + Z.of_nat i * step.
Proof using Type.
  intros Hg Hi. rewrite <- (take_drop_middle l i d Hi) in Hg. apply grid_app in Hg as [_ [Hd _]].
  apply lookup_lt_Some in Hi. by rewrite length_take, Nat.min_l in Hd by lia.
Qed.

Lemma value_at_range a l t v :
  grid_from step a l -> value_at l t = Some v -> a <= t /\ t <= a + (Z.of_nat (length l) - 1) * step.
Proof using Hstep.
  revert a; induction l as [|d l IH]; intros a; [done|]. intros [Hd Hg]. cbn [value_at length]. unfold step_ok in Hstep.
  destruct (Z.eqb_spec (RRDData_Timestamp d) t); [intros _; split; nia|].
  intros E. destruct (IH _ Hg E). split; nia.
Qed.

Lemma overlay_grid b old cache :
  grid_from step b old -> grid_from step b cache -> grid_from step b (overlay old cache).
Proof using Type.
  revert b cache; induction old as [|o old IH]; intros b cache Ho Hc; [done|]. destruct cache as [|c cache]; [done|].
  destruct Ho as [Ho Hos], Hc as [Hc Hcs]. cbn [overlay grid_from]. split; [by case_match | by apply IH].
Qed.

Lemma overlay_values b old cache t :
  grid_from step b old -> grid_from step b cache ->
  default f64_nan (value_at (overlay old cache) t) = answer_at (value_at cache t) (value_at old t).
Proof using Type.
  revert b cache; induction old as [|o old IH]; intros b cache Ho Hc; [apply answer_at_None|].
  destruct cache as [|c cache]; [done|]. destruct Ho as [Ho Hos], Hc as [Hc Hcs]. cbn [overlay value_at].
  rewrite Ho, Hc. replace (RRDData_Timestamp (if f64_isNaN (RRDData_Value c) then o else c)) with b by (by case_match).
  destruct (b =? t); [|by apply (IH (b + step))]. cbn. by destruct (f64_isNaN (RRDData_Value c)).
Qed.

Lemma find_junction_grid s merged k n :
  grid_from step s merged -> (n <= length merged)%nat ->
  find_junction n merged (s + Z.of_nat k * step) =
    if decide (Nat.min n k = 0%nat) then (-1, s + Z.of_nat k * step)
    else (Z.of_nat (Nat.min n k) - 1, s + (Z.of_nat (Nat.min n k) - 1) * step).
Proof using Hstep.
  intros Hg. unfold step_ok in Hstep. induction n as [|n IH]; intros Hn; [done|]. cbn [find_junction].
  destruct (lookup_lt_is_Some_2 merged n) as [d Hd]; [lia|]. rewrite Hd, (grid_lookup s merged n d Hg Hd).
  destruct (Z.ltb_spec (s + Z.of_nat n * step) (s + Z.of_nat k * step)) as [Hlt|Hge].
  - assert (n < k)%nat by nia. rewrite Nat.min_l by lia. rewrite decide_False by lia. f_equal; nia.
  - assert (k <= n)%nat by nia. rewrite IH by lia. by rewrite !Nat.min_r by lia.
Qed.

Lemma fill_missing_grid fuel r ts :
  0 <= ts -> ts + Z.of_nat r * step <= 2 ^ 62 -> (r < fuel)%nat ->
  exists l, fill_missing fuel step (ts + Z.of_nat r * step) ts = Some l /\ length l = r /\
    grid_from step ts l /\ Forall missing l.
Proof using Hstep.
  unfold step_ok in Hstep. revert r ts; induction fuel as [|fuel IH]; intros r ts Ht Hb Hf; [lia|]. cbn [fill_missing].
  destruct r as [|r].
  { rewrite (proj2 (Z.ltb_ge _ _)) by lia. by exists []. }
  rewrite (proj2 (Z.ltb_lt _ _)) by nia.
  assert (i64 (ts + step) = ts + step) as -> by (apply i64_id; unfold is_int64, int64_min, int64_max; nia).
  replace (ts + Z.of_nat (S r) * step) with (ts + step + Z.of_nat r * step) by lia.
  destruct (IH r (ts + step)) as (l & -> & Hl & Hg & Hm); [lia | lia | lia |].
  eexists. split; [done|]. cbn. split_and!; [congruence | done | done | by constructor].
Qed.

Lemma value_at_missing l t : Forall missing l -> default f64_nan (value_at l t) = f64_nan.
Proof using Type. induction 1 as [|d l Hd _ IH]; [done|]. cbn [value_at]. by destruct (_ =? t). Qed.

(** Points of the memory that start within those of the file, or right after. *)
Lemma overlay_join s merged cache k :
  (k <= length merged)%nat -> grid_from step s merged -> grid_from step (s + Z.of_nat k * step) cache ->
  exists b, s <= b /\ (step | b - s) /\
    grid_from step b (merge_cache (Z.of_nat (length merged)) (Z.of_nat k) cache merged) /\
    forall t, default f64_nan (value_at (merge_cache (Z.of_nat (length merged)) (Z.of_nat k) cache merged) t)
      = answer_at (value_at cache t) (value_at merged t).
Proof using Hstep.
  intros Hk Hm Hc. pose proof Hstep as Hst. unfold step_ok in Hst.
  pose proof (length_take_le merged k Hk) as Hlk. pose proof Hm as Hm'. rewrite <- (take_drop k merged) in Hm'.
  apply grid_app in Hm' as [Hpre Hdrop]. rewrite Hlk in Hdrop.
  pose proof (merge_cache_overlay (take k merged) (drop k merged) cache) as E.
  rewrite take_drop, Hlk in E. rewrite E. exists s. split_and!; [lia | rewrite Z.sub_diag; apply Z.divide_0_r | |].
  - apply grid_app. rewrite Hlk. split; [done | by apply overlay_grid].
  - intros t. replace (value_at merged t) with (value_at (take k merged ++ drop k merged) t) by (by rewrite take_drop).
    rewrite !value_at_app.
    destruct (value_at (take k merged) t) as [v|] eqn:Ev; [|by apply (overlay_values (s + Z.of_nat k * step))].
    apply (value_at_range s) in Ev as [_ Ev]; [|done]. rewrite Hlk in Ev.
    by rewrite (value_at_before step Hstep (s + Z.of_nat k * step)) by (done || nia).
Qed.

(** Points of the file from the start of the window on and points of the memory
    from [k] steps later on are joined in time. *)
Lemma join_values s merged cache k :
  0 <= s -> s + Z.of_nat k * step <= 2 ^ 62 -> grid_from step s merged -> grid_from step (s + Z.of_nat k * step) cache ->
  let c0 := s + Z.of_nat k * step in
  let '(j, lastTs) := find_junction (length merged) merged c0 in
  exists miss, fill_missing (Z.to_nat (c0 - lastTs + 2)) step c0 (i64 (lastTs + step)) = Some miss /\
    exists b, s <= b /\ (step | b - s) /\
      grid_from step b (merge_cache (Z.of_nat (length merged)) (j + 1) cache (merged ++ miss)) /\
      forall t, default f64_nan (value_at (merge_cache (Z.of_nat (length merged)) (j + 1) cache (merged ++ miss)) t)
        = answer_at (value_at cache t) (value_at merged t).
Proof using Hstep.
  intros Hs Hb Hm Hc c0. pose proof Hstep as Hst. unfold step_ok in Hst.
  assert (forall x, 0 <= x <= 2 ^ 62 -> i64 (x + step) = x + step) as Ei.
  { intros x Hx. apply i64_id. unfold is_int64, int64_min, int64_max. lia. }
  unfold c0 at 1. rewrite find_junction_grid by done. fold c0. destruct (decide (k <= length merged)%nat) as [Hk|Hk].
  - rewrite Nat.min_r by lia.
    assert (forall lastTs, lastTs = c0 \/ lastTs = c0 - step -> 0 <= lastTs -> 
      fill_missing (Z.to_nat (c0 - lastTs + 2)) step c0 (i64 (lastTs + step)) = Some []) as Hfill.
    { intros lt Hlt Hp. rewrite Ei by (unfold c0 in *; lia). destruct (Z.to_nat (c0 - lt + 2)) as [|f] eqn:E; [lia|].
      cbn [fill_missing]. by rewrite (proj2 (Z.ltb_ge _ _)) by lia. }
    pose proof (overlay_join s merged cache k Hk Hm Hc) as Hmain.
    case_decide as Hk0.
    + exists []. split; [apply Hfill; [by left | unfold c0; lia]|]. rewrite app_nil_r. by rewrite Hk0 in Hmain.
    + exists []. split; [apply Hfill; [right; unfold c0; lia | nia]|]. rewrite app_nil_r.
      by replace (Z.of_nat k - 1 + 1) with (Z.of_nat k) by lia.
  - rewrite Nat.min_l by lia. case_decide as Hm0.
    + destruct merged; [|done]. rewrite Ei by (unfold c0 in *; lia). exists [].
      replace (c0 - c0 + 2) with 2 by lia. cbn [fill_missing Z.to_nat Pos.to_nat].
      split; [change (Z.to_nat 2) with 2%nat; cbn [fill_missing]; by rewrite (proj2 (Z.ltb_ge _ _)) by lia|].
      rewrite merge_cache_append by (simpl; lia). exists c0. split_and!; [unfold c0; lia | | done | intros t; apply answer_at_None].
      exists (Z.of_nat k). unfold c0. lia.
    + set (m := length merged) in *. rewrite Ei by nia.
      replace (s + (Z.of_nat m - 1) * step + step) with (s + Z.of_nat m * step) by lia.
      destruct (fill_missing_grid (Z.to_nat (c0 - (s + (Z.of_nat m - 1) * step) + 2)) (k - m) (s + Z.of_nat m * step))
        as (miss & E & Hl & Hg & Hmiss); [nia | nia | unfold c0; nia |].
      replace (s + Z.of_nat m * step + Z.of_nat (k - m) * step) with c0 in E by (unfold c0; nia).
      exists miss. split; [done|]. rewrite merge_cache_append by lia. exists s.
      split_and!; [lia | rewrite Z.sub_diag; apply Z.divide_0_r | |].
      * rewrite <- app_assoc. apply grid_app. split; [done|]. apply grid_app. split; [done|].
        rewrite Hl. by replace (s + Z.of_nat (length merged) * step + Z.of_nat (k - m) * step) with c0 by (unfold c0, m in *; nia).
      * intros t. rewrite <- app_assoc, !value_at_app. destruct (value_at merged t) as [v|] eqn:Ev.
        { apply (value_at_range s) in Ev as [_ Ev]; [|done]. fold m in Ev.
          by rewrite (value_at_before step Hstep c0) by (done || unfold c0; nia). }
        pose proof (value_at_missing miss t Hmiss) as Hn. destruct (value_at miss t) as [v|] eqn:Em; [|apply answer_at_None].
        apply (value_at_range (s + Z.of_nat m * step)) in Em as [_ Em]; [|done]. rewrite Hl in Em.
        by rewrite (value_at_before step Hstep c0) by (done || unfold c0; nia).
Qed.
End merge.

(** ** The points of the memory on the grid *)

Lemma gauge_at_before items t :
  Forall (fun it => t < GraphItem_Timestamp it) items -> gauge_at items t = None.
Proof. induction 1 as [|it items Hi _ IH]; [done|]. cbn [gauge_at]. by rewrite (proj2 (Z.eqb_neq _ t)) by lia. Qed.

Lemma rate_at_before step items t :
  Forall (fun it => t < GraphItem_Timestamp it) items -> rate_at step items t = None.
Proof.
  induction 1 as [|it items Hi Hrest IH]; [done|]. cbn [rate_at]. destruct items; [done|].
  by rewrite (proj2 (Z.eqb_neq _ t)) by lia.
Qed.

Lemma gauge_at_after items t :
  Forall (fun it => GraphItem_Timestamp it < t) items -> gauge_at items t = None.
Proof. induction 1 as [|it items Hi _ IH]; [done|]. cbn [gauge_at]. by rewrite (proj2 (Z.eqb_neq _ t)) by lia. Qed.

(** No rate starts at or after the last point. *)
Lemma rate_at_after step items t :
  StronglySorted (fun a b => GraphItem_Timestamp a < GraphItem_Timestamp b) items ->
  Forall (fun it => GraphItem_Timestamp it <= t) items -> rate_at step items t = None.
Proof.
  induction 1 as [|a items Hs IH Ha]; intros Hle; [done|]. cbn [rate_at]. destruct items as [|b items]; [done|].
  apply list.Forall_cons in Hle as [Hle Hle'], Ha as [Ha _]. pose proof Hle' as [Hb _]%list.Forall_cons.
  rewrite (proj2 (Z.eqb_neq _ t)) by lia. by apply IH.
Qed.

Section cache.
Context (step : Z) (Hstep : step_ok step) (items : list GraphItem)
  (Hsorted : StronglySorted (fun a b => GraphItem_Timestamp a < GraphItem_Timestamp b) items)
  (s e endTs : Z) (Hend : time_ok endTs) (Hlast : Forall (fun it => GraphItem_Timestamp it <= endTs) items).

(** The points not yet laid out are at [ts] or later times of its grid. *)
Definition remaining (ts idx : Z) : Prop :=
  0 <= idx /\ 0 <= ts /\
  Forall (fun it => ts <= GraphItem_Timestamp it /\ (step | GraphItem_Timestamp it - ts)) (drop (Z.to_nat idx) items).

(** The layout from [ts] on, within the window. *)
Definition laid_out (at_ : list GraphItem -> Z -> option f64) (ts idx : Z) (c : list RRDData) : Prop :=
  exists w, c = List.filter (fun v => (s <=? RRDData_Timestamp v) && (RRDData_Timestamp v <=? e)) w /\
    grid_from step ts w /\
    forall t, ts <= t -> (step | t - ts) ->
      default f64_nan (value_at w t) = default f64_nan (at_ (drop (Z.to_nat idx) items) t).

Lemma drop_sorted n : StronglySorted (fun a b => GraphItem_Timestamp a < GraphItem_Timestamp b) (drop n items).
Proof using Hsorted. apply (StronglySorted_app_1_r _ (take n items)). by rewrite take_drop. Qed.

Lemma remaining_skip ts idx :
  remaining ts idx -> (forall it, items !! Z.to_nat idx = Some it -> ts <> GraphItem_Timestamp it) ->
  ts <= endTs -> remaining (ts + step) idx.
Proof using Hstep Hsorted.
  intros (Hi & Ht & Hr) Hne Hle. split_and!; [done | unfold step_ok in Hstep; lia |].
  pose proof (drop_sorted (Z.to_nat idx)) as Hs. rewrite <- (Nat.add_0_r (Z.to_nat idx)), <- lookup_drop in Hne.
  destruct (drop (Z.to_nat idx) items) as [|it rest]; [constructor|]. specialize (Hne it eq_refl).
  apply StronglySorted_inv in Hs as [_ Hs].
  apply list.Forall_forall. intros x Hx. rewrite list.Forall_forall in Hr.
  assert (ts < GraphItem_Timestamp x) as Hlt.
  { apply elem_of_cons in Hx as [->|Hx]; [destruct (Hr it ltac:(left)); lia|]. rewrite list.Forall_forall in Hs.
    specialize (Hs _ Hx). destruct (Hr it ltac:(left)). lia. }
  destruct (Hr x Hx) as [_ Hd]. split; [by apply next_multiple|].
  replace (GraphItem_Timestamp x - (ts + step)) with (GraphItem_Timestamp x - ts - step) by lia.
  apply Z.divide_sub_r; [done | apply Z.divide_refl].
Qed.

Lemma remaining_take ts idx it :
  remaining ts idx -> items !! Z.to_nat idx = Some it -> ts = GraphItem_Timestamp it ->
  remaining (ts + step) (idx + 1).
Proof using Hstep Hsorted.
  intros (Hi & Ht & Hr) Hit E. split_and!; [lia | unfold step_ok in Hstep; lia |].
  replace (Z.to_nat (idx + 1)) with (S (Z.to_nat idx)) by lia.
  pose proof (drop_sorted (Z.to_nat idx)) as Hs. rewrite (drop_S _ _ _ Hit) in Hr, Hs.
  apply StronglySorted_inv in Hs as [_ Hs]. apply list.Forall_cons in Hr as [_ Hr].
  apply list.Forall_forall. intros x Hx. rewrite list.Forall_forall in Hr, Hs. specialize (Hs _ Hx). destruct (Hr _ Hx) as [_ Hd].
  split; [apply next_multiple; [done | done | lia]|].
  replace (GraphItem_Timestamp x - (ts + step)) with (GraphItem_Timestamp x - ts - step) by lia.
  apply Z.divide_sub_r; [done | apply Z.divide_refl].
Qed.

(** One more point at the front of the layout. *)
Lemma laid_out_cons at_ ts idx idx' val c :
  laid_out at_ (ts + step) idx' c ->
  default f64_nan (Some val) = default f64_nan (at_ (drop (Z.to_nat idx) items) ts) ->
  (forall t, ts < t -> at_ (drop (Z.to_nat idx') items) t = at_ (drop (Z.to_nat idx) items) t) ->
  laid_out at_ ts idx (in_window s e ts val ++ c).
Proof using Hstep.
  intros (w & -> & Hg & Hv) Hval Hat. exists (mkRRDData ts val :: w). split_and!.
  - unfold in_window. cbn [List.filter RRDData_Timestamp]. by destruct (_ && _).
  - done.
  - intros t Ht Hd. cbn [value_at RRDData_Timestamp RRDData_Value]. destruct (Z.eqb_spec ts t) as [->|Hne]; [done|].
    rewrite <- Hat by lia. apply Hv; [apply next_multiple; [done | done | lia]|].
    replace (t - (ts + step)) with (t - ts - step) by lia. apply Z.divide_sub_r; [done | apply Z.divide_refl].
Qed.

Lemma gauge_at_tail it rest t : GraphItem_Timestamp it < t -> gauge_at rest t = gauge_at (it :: rest) t.
Proof using Type. intros Ht. cbn [gauge_at]. by rewrite (proj2 (Z.eqb_neq _ t)) by lia. Qed.

Lemma rate_at_tail it rest t : GraphItem_Timestamp it < t -> rate_at step rest t = rate_at step (it :: rest) t.
Proof using Type. intros Ht. destruct rest; [done|]. cbn [rate_at]. by rewrite (proj2 (Z.eqb_neq (GraphItem_Timestamp it) t)) by lia. Qed.

Lemma remaining_later ts idx :
  remaining ts idx -> (forall it, items !! Z.to_nat idx = Some it -> ts <> GraphItem_Timestamp it) ->
  Forall (fun it => ts < GraphItem_Timestamp it) (drop (Z.to_nat idx) items).
Proof using Hstep Hsorted.
  intros Hr Hne. pose proof Hr as (_ & _ & Hf).
  pose proof (drop_sorted (Z.to_nat idx)) as Hs. rewrite <- (Nat.add_0_r (Z.to_nat idx)), <- lookup_drop in Hne.
  destruct (drop (Z.to_nat idx) items) as [|it rest]; [constructor|]. specialize (Hne it eq_refl).
  apply list.Forall_cons in Hf as [[Hit _] _]. apply StronglySorted_inv in Hs as [_ Hs].
  constructor; [lia|]. eapply Forall_impl; [exact Hs|]. cbn. lia.
Qed.

Lemma gauge_cache_laid fuel ts idx c :
  remaining ts idx -> gauge_cache fuel items step s e endTs ts idx = Ok (Some c) -> laid_out gauge_at ts idx c.
Proof using Hstep Hsorted Hend Hlast.
  revert ts idx c; induction fuel as [|fuel IH]; intros ts idx c Hr; cbn [gauge_cache]; [done|].
  destruct (Z.leb_spec ts endTs) as [Hle|Hgt].
  2:{ intros [= <-]. exists []. split_and!; [done..|]. intros t Ht _. rewrite gauge_at_after; [done|].
      apply Forall_drop. eapply Forall_impl; [exact Hlast|]. cbn. lia. }
  intros E. apply rbind_Ok_inv in E as ([val idx'] & Ev & E). apply rbind_Ok_inv in E as ([rest|] & Er & E); [|done].
  injection E as <-. pose proof Hr as (Hi & Ht & _).
  rewrite i64_time in Er by (done || unfold time_ok in *; lia).
  assert (forall it, items !! Z.to_nat idx = Some it -> index items idx = Ok it) as Hidx.
  { intros it Hit. apply index_nat in Hit. by rewrite Z2Nat.id in Hit. }
  destruct (items !! Z.to_nat idx) as [it|] eqn:Eit.
  - rewrite (Hidx it eq_refl) in Ev. apply lookup_lt_Some in Eit as Hlt. rewrite (proj2 (Z.ltb_lt _ _)) in Ev by lia.
    cbn [rbind] in Ev. destruct (Z.eqb_spec ts (GraphItem_Timestamp it)) as [Ets|Hne]; injection Ev as <- <-.
    + eapply laid_out_cons; [by eapply IH, Er; eapply remaining_take| |].
      * rewrite (drop_S _ _ _ Eit). cbn [gauge_at]. by rewrite Ets, Z.eqb_refl.
      * intros t Hlt'. rewrite (drop_S _ _ _ Eit). replace (Z.to_nat (idx + 1)) with (S (Z.to_nat idx)) by lia.
        apply gauge_at_tail. lia.
    + eapply laid_out_cons; [eapply IH, Er; apply remaining_skip; [done | rewrite Eit; by intros ? [= <-] | done]| |done].
      rewrite gauge_at_before; [done|]. apply remaining_later; [done|]. rewrite Eit. by intros ? [= <-].
  - apply lookup_ge_None in Eit as Hge. rewrite (proj2 (Z.ltb_ge _ _)) in Ev by lia. injection Ev as <- <-.
    eapply laid_out_cons; [eapply IH, Er; apply remaining_skip; [done | by rewrite Eit | done]| |done].
    by rewrite drop_ge by lia.
Qed.

Lemma derive_cache_laid fuel ts idx c :
  Forall (fun it => time_ok (GraphItem_Timestamp it)) items ->
  (forall it, list.last items = Some it -> GraphItem_Timestamp it = endTs) ->
  remaining ts idx -> derive_cache fuel items step s e endTs ts idx = Ok (Some c) -> laid_out (rate_at step) ts idx c.
Proof using Hstep Hsorted Hend Hlast.
  intros Htok Hfinal. revert ts idx c; induction fuel as [|fuel IH]; intros ts idx c Hr; cbn [derive_cache]; [done|].
  destruct (Z.ltb_spec ts endTs) as [Hle|Hgt].
  2:{ intros [= <-]. exists []. split_and!; [done..|]. intros t Ht _. rewrite rate_at_after; [done | apply drop_sorted |].
      apply Forall_drop. eapply Forall_impl; [exact Hlast|]. cbn. lia. }
  intros E. apply rbind_Ok_inv in E as ([val idx'] & Ev & E). apply rbind_Ok_inv in E as ([rest|] & Er & E); [|done].
  injection E as <-. pose proof Hr as (Hi & Ht & _).
  rewrite i64_time in Er by (done || unfold time_ok in *; lia).
  assert (forall n it, items !! n = Some it -> index items (Z.of_nat n) = Ok it) as Hidx by (intros; by apply index_nat).
  destruct (Z.ltb_spec idx (Z.of_nat (length items) - 1)) as [Hlt|Hge].
  - destruct (lookup_lt_is_Some_2 items (Z.to_nat idx)) as [it Hit]; [lia|].
    destruct (lookup_lt_is_Some_2 items (S (Z.to_nat idx))) as [next Hnext]; [lia|].
    pose proof (Hidx _ _ Hit) as Ei. pose proof (Hidx _ _ Hnext) as En.
    rewrite Z2Nat.id in Ei by done. replace (Z.of_nat (S (Z.to_nat idx))) with (idx + 1) in En by lia.
    rewrite Ei, En in Ev. cbn [rbind] in Ev.
    assert (i64 (GraphItem_Timestamp next - step) = GraphItem_Timestamp next - step) as Esub.
    { rewrite list.Forall_forall in Htok. pose proof (Htok next ltac:(by eapply list_elem_of_lookup_2)).
      apply i64_id. unfold is_int64, int64_min, int64_max, time_ok, step_ok in *. lia. }
    rewrite Esub in Ev. destruct (Z.eqb_spec ts (GraphItem_Timestamp it)) as [Ets|Hne].
    + assert (idx' = idx + 1 /\ default f64_nan (Some val) = default f64_nan (rate_at step (drop (Z.to_nat idx) items) ts))
        as [-> Hval].
      { rewrite (drop_S _ _ _ Hit), (drop_S _ _ _ Hnext). cbn [rate_at]. rewrite Ets in Ev |- *. rewrite Z.eqb_refl.
        replace (GraphItem_Timestamp it =? GraphItem_Timestamp next - step) with
          (GraphItem_Timestamp next =? GraphItem_Timestamp it + step) in Ev.
        2:{ destruct (Z.eqb_spec (GraphItem_Timestamp next) (GraphItem_Timestamp it + step)),
              (Z.eqb_spec (GraphItem_Timestamp it) (GraphItem_Timestamp next - step)); lia || done. }
        destruct (_ && _); by injection Ev as <- <-. }
      eapply laid_out_cons; [by eapply IH, Er; eapply remaining_take | exact Hval |].
      intros t Hlt'. rewrite (drop_S _ _ _ Hit). replace (Z.to_nat (idx + 1)) with (S (Z.to_nat idx)) by lia.
      apply rate_at_tail. lia.
    + injection Ev as <- <-.
      eapply laid_out_cons; [eapply IH, Er; apply remaining_skip; [done | rewrite Hit; by intros ? [= <-] | lia]| |done].
      rewrite rate_at_before; [done|]. apply remaining_later; [done|]. rewrite Hit. by intros ? [= <-].
  - injection Ev as <- <-.
    assert (forall it, items !! Z.to_nat idx = Some it -> ts <> GraphItem_Timestamp it) as Hne.
    { intros it Hit. apply lookup_lt_Some in Hit as Hlt. rewrite (Hfinal it); [lia|].
      rewrite list.last_lookup, <- Hit. f_equal. lia. }
    eapply laid_out_cons; [eapply IH, Er; apply remaining_skip; [done | done | lia]| |done].
    rewrite rate_at_before; [done|]. by apply remaining_later.
Qed.
End cache.

Lemma divide_sub_sym a b n : (n | a - b) -> (n | b - a).
Proof. intros Hd. replace (b - a) with (- (a - b)) by lia. by apply Z.divide_opp_r. Qed.

(** The part of a layout within the window agrees with the memory there. *)
Lemma laid_out_window step items s e at_ first c :
  step_ok step -> (step | s - first) -> laid_out step items s e at_ first 0 c ->
  (forall t, t < first -> at_ items t = None) ->
  grid_from step (Z.max first s) c /\
  forall t, s <= t <= e -> (step | t - s) -> default f64_nan (value_at c t) = default f64_nan (at_ items t).
Proof.
  intros Hst Hd (w & -> & Hg & Hv) Hb. split; [by apply filter_grid|].
  intros t Ht Hdt. rewrite value_at_filter, !(proj2 (Z.leb_le _ _)) by lia. cbn [andb].
  destruct (Z.lt_ge_cases t first) as [Hlt|Hge].
  - by rewrite (value_at_before step Hst first), Hb by done.
  - rewrite Hv; [done | done |]. replace (t - first) with (t - s + (s - first)) by lia. by apply Z.divide_add_r.
Qed.

Lemma sorted_last items final :
  StronglySorted (fun a b => GraphItem_Timestamp a < GraphItem_Timestamp b) items -> list.last items = Some final ->
  Forall (fun it => GraphItem_Timestamp it <= GraphItem_Timestamp final) items.
Proof.
  intros Hs [l ->]%last_Some. apply Forall_app. split; [|by repeat constructor].
  apply list.Forall_forall. intros x Hx.
  pose proof (StronglySorted_app_1_elem_of _ _ _ x final Hs Hx ltac:(left)). cbn in *. lia.
Qed.

(** What the loops over the cached points lay out. *)
Lemma cache_values dsType step s e items first final fuel :
  step_ok step -> aligned step s items -> Forall (fun it => time_ok (GraphItem_Timestamp it)) items ->
  head items = Some first -> list.last items = Some final ->
  (Z.to_nat (GraphItem_Timestamp final - GraphItem_Timestamp first + 1) < fuel)%nat ->
  exists cache,
    (if bool_decide (dsType = DERIVE \/ dsType = COUNTER)
     then derive_cache fuel items step s e (GraphItem_Timestamp final) (GraphItem_Timestamp first) 0
     else if bool_decide (dsType = GAUGE) then gauge_cache fuel items step s e (GraphItem_Timestamp final) (GraphItem_Timestamp first) 0
     else Ok (Some [])) = Ok (Some cache) /\
    grid_from step (Z.max (GraphItem_Timestamp first) s) cache /\
    forall t, s <= t <= e -> (step | t - s) ->
      default f64_nan (value_at cache t) = default f64_nan (memory_at dsType step items t).
Proof.
  intros Hst [Hs Hal] Htok Hf Hl Hfuel. pose proof (sorted_last items final Hs Hl) as Hle.
  destruct items as [|it rest]; [done|]. injection Hf as ->. set (items := first :: rest) in *.
  assert (time_ok (GraphItem_Timestamp first)) as Hft by (by apply list.Forall_cons in Htok as [? _]).
  assert (time_ok (GraphItem_Timestamp final)) as Hlt.
  { rewrite list.Forall_forall in Htok. apply Htok. apply last_Some in Hl as [l ->]. apply elem_of_app. right. left. }
  assert ((step | s - GraphItem_Timestamp first)) as Hd by (apply divide_sub_sym; by apply list.Forall_cons in Hal as [? _]).
  pose proof Hs as [_ Hlater]%StronglySorted_inv.
  assert (forall t, t < GraphItem_Timestamp first -> Forall (fun it => t < GraphItem_Timestamp it) items) as Hb.
  { intros t Ht. constructor; [done|]. eapply Forall_impl; [exact Hlater|]. cbn. lia. }
  assert (remaining step items (GraphItem_Timestamp first) 0) as Hr.
  { split_and!; [done | apply Hft|]. rewrite drop_0. unfold items at 1. rewrite list.Forall_forall in Hal, Hlater.
    apply list.Forall_forall. intros x Hx. split.
    - apply elem_of_cons in Hx as [->|Hx]; [done|]. specialize (Hlater _ Hx). lia.
    - replace (GraphItem_Timestamp x - GraphItem_Timestamp first) with
        (GraphItem_Timestamp x - s + (s - GraphItem_Timestamp first)) by lia. by apply Z.divide_add_r; [apply Hal|]. }
  unfold memory_at. case_bool_decide as Hty; [|case_bool_decide; [|by exists []]].
  - destruct (derive_cache_some items step s e (GraphItem_Timestamp final) fuel (GraphItem_Timestamp first) 0) as [c Ec];
      [done | done | apply Hft | done | unfold time_ok in *; lia |].
    exists c. split; [done|]. apply laid_out_window; [done | done | | intros; by apply rate_at_before, Hb].
    eapply derive_cache_laid; [done | done | exact Hlt | exact Hle | done | by rewrite Hl; intros ? [= <-] | done | exact Ec].
  - destruct (gauge_cache_some items step s e (GraphItem_Timestamp final) fuel (GraphItem_Timestamp first) 0) as [c Ec];
      [done | done | apply Hft | done | lia |].
    exists c. split; [done|]. apply laid_out_window; [done | done | | intros; by apply gauge_at_before, Hb].
    eapply gauge_cache_laid; [done | done | exact Hlt | exact Hle | done | exact Ec].
Qed.

(** Joining what is on disk with what is in memory. *)
Lemma merged_values (memory : Z -> option f64) step s e cache merged c :
  step_ok step -> time_ok s -> time_ok c -> s <= c -> (step | c - s) ->
  grid_from step s merged -> grid_from step c cache ->
  (forall t, s <= t <= e -> (step | t - s) -> default f64_nan (value_at cache t) = default f64_nan (memory t)) ->
  exists m', match cache with
     | [] => Some merged
     | c0 :: _ =>
         let '(j, lastTs) := find_junction (length merged) merged (RRDData_Timestamp c0) in
         match fill_missing (Z.to_nat (RRDData_Timestamp c0 - lastTs + 2)) step (RRDData_Timestamp c0) (i64 (lastTs + step)) with
         | None => None
         | Some miss => Some (merge_cache (Z.of_nat (length merged)) (j + 1) cache (merged ++ miss))
         end
     end = Some m' /\
    exists b, s <= b /\ (step | b - s) /\ grid_from step b m' /\
      forall t, s <= t <= e -> (step | t - s) -> default f64_nan (value_at m' t) = answer_at (memory t) (value_at merged t).
Proof.
  intros Hst Hs Hc Hle Hd Hm Hg Hv. destruct cache as [|c0 cache].
  { exists merged. split; [done|]. exists s. split_and!; [done | rewrite Z.sub_diag; apply Z.divide_0_r | done |].
    intros t Ht Hdt. change (default f64_nan (value_at merged t)) with (answer_at None (value_at merged t)).
    apply answer_at_default. by rewrite <- Hv. }
  pose proof Hd as [q Hq]. assert (0 <= q) by (apply (Z.mul_le_mono_pos_r _ _ step); unfold step_ok in Hst; lia).
  pose proof (join_values step Hst s merged (c0 :: cache) (Z.to_nat q)) as Hj. cbv zeta in Hj.
  replace (s + Z.of_nat (Z.to_nat q) * step) with c in Hj by (rewrite Z2Nat.id by done; lia).
  destruct Hg as [E Hg']. rewrite E. destruct (find_junction (length merged) merged c) as [j lastTs].
  destruct Hj as (miss & -> & b & Hsb & Hdb & Hgb & Hvb); [apply Hs | unfold time_ok in *; lia | done | done |].
  eexists. split; [done|]. exists b. split_and!; [done..|]. intros t Ht Hdt. rewrite Hvb. by apply answer_at_default, Hv.
Qed.

(** * Properties *)

(** Whatever the cached points and those of the file, the merge ends without a
    panic and answers on the grid of the step from [start_ts]; each point is
    missing (NaN), a point read from disk, or computed from the points in memory (a
    gauge's value, a counter's rate over one step, never of a counter that went
    down). *)
Theorem query_merge_total (dsType : string) (step start_ts end_ts : Z) (items : list GraphItem) (datas : list RRDData) :
  items <> [] -> Forall (fun it => time_ok (GraphItem_Timestamp it)) items ->
  time_ok start_ts -> time_ok end_ts -> start_ts <= end_ts -> step_ok step ->
  exists values, query_merge dsType step start_ts end_ts items datas = Ok (Some values) /\
    map RRDData_Timestamp values = map (fun i => start_ts + i * step)
      (seqZ 0 (if bool_decide (dsType = GAUGE) then (end_ts - start_ts) / step + 1 else (end_ts - start_ts) / step)) /\
    Forall (fun d => missing d \/ d ∈ datas \/ from_memory dsType step items d) values.
Proof.
  intros Hne Hts Hs He Hse Hst.
  destruct (query_merge_points dsType step start_ts end_ts items datas) as (merged & Hm & ->); [done..|].
  pose proof (Z.div_pos (end_ts - start_ts) step ltac:(lia) ltac:(unfold step_ok in *; lia)) as Hpos.
  pose proof (Z.mul_div_le (end_ts - start_ts) step ltac:(unfold step_ok in *; lia)) as Hle.
  eexists. split; [done|]. split.
  - revert Hpos Hle. generalize ((end_ts - start_ts) / step) as q. intros q Hpos Hle.
    rewrite fmt_result_grid; [| done | apply Hs | unfold time_ok, step_ok in *; case_bool_decide; rewrite Z2Nat.id by lia; nia].
    f_equal. f_equal. case_bool_decide; lia.
  - apply fmt_result_Forall; [by left | done].
Qed.

(** C8. What a query answers. Take cached points at different times, oldest
    first, on the grid of the query, and points of the file one step apart from
    its start or earlier on (as [fetch] lays them out; there may be none). Then
    the merge ends without a panic and answers one point per step from [start_ts]
    on ([(end_ts - start_ts) / step] of them, one more for a gauge), and its value
    at a time is that of the memory: the cached value of a gauge, or the rate of a
    counter from the cached point of that time to the next, if that comes one step
    later and is not smaller; where the memory has none, it is that of the file;
    where the file has none either, it is missing (NaN). *)
Theorem query_merge_correct (dsType : string) (step start_ts end_ts a : Z) (items : list GraphItem) (datas : list RRDData) :
  items <> [] -> aligned step start_ts items -> Forall (fun it => time_ok (GraphItem_Timestamp it)) items ->
  grid_from step a datas -> a <= start_ts -> (step | start_ts - a) ->
  time_ok start_ts -> time_ok end_ts -> start_ts <= end_ts -> step_ok step ->
  query_merge dsType step start_ts end_ts items datas
  = Ok (Some (map (fun i => let t := start_ts + i * step in
        mkRRDData t (answer_at (memory_at dsType step items t) (value_at datas t)))
      (seqZ 0 (if bool_decide (dsType = GAUGE) then (end_ts - start_ts) / step + 1 else (end_ts - start_ts) / step)))).
Proof.
  intros Hne Hal Htok Hg Ha Hda Hs He Hse Hst. unfold query_merge.
  destruct (last_is_Some items) as [_ [final Hl]]; [done|]. destruct items as [|first rest] eqn:Eit; [done|].
  rewrite <- Eit in *. replace (index items 0) with (Ok first) by (by subst). cbn [rbind].
  rewrite (index_last items final Hl). cbn [rbind].
  destruct (cache_values dsType step start_ts end_ts items first final
    (S (Z.to_nat (GraphItem_Timestamp final - GraphItem_Timestamp first + 1)))) as (cache & -> & Hgc & Hvc);
    [done | done | done | by subst | done | lia |]. cbn [rbind].
  assert (time_ok (GraphItem_Timestamp first) /\ (step | GraphItem_Timestamp first - start_ts)) as [Hft Hfd].
  { subst items. destruct Hal as [_ Hal]. apply list.Forall_cons in Htok as [? _], Hal as [? _]. done. }
  pose proof (filter_grid step Hst start_ts end_ts a datas Hg Hda) as Hgm. rewrite Z.max_r in Hgm by done.
  destruct (merged_values (memory_at dsType step items) step start_ts end_ts cache
    (List.filter (fun v => (start_ts <=? RRDData_Timestamp v) && (RRDData_Timestamp v <=? end_ts)) datas)
    (Z.max (GraphItem_Timestamp first) start_ts) Hst Hs) as (m' & -> & b & Hb & Hdb & Hgb & Hvb); [unfold time_ok in *; lia | lia | | exact Hgm | done | done |].
  { destruct (Z.max_spec (GraphItem_Timestamp first) start_ts) as [[_ ->]|[_ ->]]; [|done]. rewrite Z.sub_diag. apply Z.divide_0_r. }
  unfold go_div. rewrite (proj2 (Z.eqb_neq step 0)) by (unfold step_ok in *; lia). cbn [rbind].
  destruct (steps_of_range step start_ts end_ts) as [-> Hpos]; [done..|].
  pose proof (Z.mul_div_le (end_ts - start_ts) step ltac:(unfold step_ok in *; lia)) as Hmul.
  set (q := (end_ts - start_ts) / step) in *. set (n := if bool_decide (dsType = GAUGE) then q + 1 else q).
  assert (0 <= n <= q + 1) as Hn by (unfold n; case_bool_decide; lia). rewrite (proj2 (Z.ltb_ge n 0)) by lia.
  rewrite (fmt_result_values step Hst (Z.to_nat n) start_ts b m');
    [| done | done | done | apply Hs | unfold time_ok, step_ok in *; nia].
  rewrite Z2Nat.id by lia. do 2 f_equal. apply list_fmap_ext. intros i x Hx%lookup_seqZ. simpl.
  rewrite Hvb; [|unfold step_ok in *; nia | exists x; lia].
  rewrite value_at_filter, !(proj2 (Z.leb_le _ _)) by (unfold step_ok in *; nia). done.
Qed.

Lemma query_merge_correct_witness :
  query_merge "COUNTER" 60 0 180 [sample_graph_item 60 1; sample_graph_item 120 7]
    [mkRRDData 0 (f64_of_Z 5); mkRRDData 60 (f64_of_Z 6)]
  = Ok (Some [mkRRDData 0 (f64_of_Z 5); mkRRDData 60 (f64_lit 1 (-1)); mkRRDData 120 f64_nan]).
Proof.
  rewrite (query_merge_correct "COUNTER" 60 0 180 0).
  - vm_compute. reflexivity.
  - done.
  - split; repeat constructor; cbn; [by exists 1 | by exists 2].
  - by repeat constructor.
  - by repeat constructor.
  - done.
  - by exists 0.
  - done.
  - done.
  - done.
  - done.
Defined.
