(* ===== verification/GraphRrd.v ===== *)
(** modules/graph/rrdtool: writing the cached points to RRD files, reading them
    back, and moving series between nodes while a cluster is extended. *)
From Stdlib Require Import Ascii ZArith.
From stdpp Require Import base list gmap strings numbers sorting.
From S2P Require Import Prelude GoString GoFloat GoHash Utils Model ThirdParty GraphUtil GraphStore GraphIndex GraphApi.

Local Open Scope Z_scope.

(** ** The RRD library *)

(** A value handed to the updater: an integer for a counter, else the float. *)
Inductive rrd_value := RrdInt (z : Z) | RrdFloat (f : f64).

(** An archive of a new file: consolidation function, steps per row, rows. *)
Record rrd_archive := mkArchive { rra_cf : string; rra_steps : Z; rra_rows : Z }.
Record rrd_create := mkCreate {
  create_start : Z; create_step : Z; create_dsType : string; create_heartbeat : Z;
  create_min : string; create_max : string; create_rras : list rrd_archive }.

(** What github.com/open-falcon/rrdlite and the file system do to the disk; a
    failure is [None] and leaves the disk to the failed call's argument. *)
Class RrdLib (D : Type) := {
  file_InsureDir : string -> D -> option D;
  rrd_Create : string -> rrd_create -> D -> option D;
  rrd_Update : string -> list (Z * rrd_value) -> D -> option D;
  rrd_Fetch : D -> string -> string -> Z -> Z -> Z -> option (Z * Z * list f64);
  io_ReadFile : D -> string -> option (list Z);
  io_WriteFile : string -> list Z -> D -> option D }.

Definition RRA5PointCnt : Z := 576.
Definition RRA20PointCnt : Z := 504.
Definition RRA180PointCnt : Z := 766.
Definition RRA720PointCnt : Z := 730.

(** The archives of [create]: one-step averages, then average, maximum and
    minimum over 5, 20, 180 and 720 steps. *)
Definition cf3 (steps rows : Z) : list rrd_archive :=
  [mkArchive "AVERAGE" steps rows; mkArchive "MAX" steps rows; mkArchive "MIN" steps rows].
Definition create_archives : list rrd_archive :=
  mkArchive "AVERAGE" 1 RRA1PointCnt :: cf3 5 RRA5PointCnt ++ cf3 20 RRA20PointCnt
    ++ cf3 180 RRA180PointCnt ++ cf3 720 RRA720PointCnt.

(** [int(v)], the truncation; outside of int64 the result is left open by the
    language, and modelled as the smallest integer. *)
Definition int_of_float (v : f64) : Z :=
  match f64_trunc v with
  | Some z => if (int64_min <=? z) && (z <=? int64_max) then z else int64_min
  | None => int64_min
  end.

(** The points [update] caches: huge and tiny values are skipped. *)
Definition update_point (item : GraphItem) : option (Z * rrd_value) :=
  let v := f64_abs (GraphItem_Value item) in
  if f64_gt v (f64_lit 1 300) || (f64_lt v (f64_lit 1 (-300)) && f64_gt v f64_zero) then None
  else if bool_decide (GraphItem_DsType item = "DERIVE" \/ GraphItem_DsType item = "COUNTER")
  then Some (GraphItem_Timestamp item, RrdInt (int_of_float (GraphItem_Value item)))
  else Some (GraphItem_Timestamp item, RrdFloat (GraphItem_Value item)).

(** [file.Dir]: the part before the last slash. *)
Fixpoint dir_of (s : string) : option string :=
  match s with
  | EmptyString => None
  | String c s => match dir_of s with
                  | Some d => Some (String c d)
                  | None => if Ascii.eqb c "/" then Some "" else None
                  end
  end.

Section files.
Context {D : Type} `{!Disk D, !RrdLib D}.

(** [now.Add(-24h)] is the start of a new file. *)
Definition create (now : Z) (filename : string) (item : GraphItem) (d : D) : option D :=
  rrd_Create filename (mkCreate (now - 24 * 3600) (GraphItem_Step item) (GraphItem_DsType item)
    (GraphItem_Heartbeat item) (GraphItem_Min item) (GraphItem_Max item) create_archives) d.

Definition update (filename : string) (items : list GraphItem) (d : D) : option D :=
  rrd_Update filename (omap update_point items) d.

(** The disk after, and whether there was no error. *)
Definition flushrrd (now : Z) (filename : string) (items : list GraphItem) (d : D) : D * bool :=
  match items with
  | [] => (d, false)
  | item0 :: _ =>
      let created :=
        if file_IsExist d filename then inr d
        else match file_InsureDir (default filename (dir_of filename)) d with
             | None => inl d
             | Some d1 => match create now filename item0 d1 with
                          | None => inl d1
                          | Some d2 => inr d2
                          end
             end in
      match created with
      | inl d => (d, false)
      | inr d => match update filename items d with
                 | None => (d, false)
                 | Some d' => (d', true)
                 end
      end
  end.

(** The values of the library, from one step after its start. *)
Definition fetch (d : D) (filename cf : string) (start end_ step : Z) : list RRDData * bool :=
  match rrd_Fetch d filename cf start end_ step with
  | None => ([], false)
  | Some (start_ts, step_s, values) =>
      (imap (fun i val => mkRRDData (i64 (start_ts + i64 (Z.of_nat (i + 1) * step_s))) val) values, true)
  end.

(** The task that writes a file: when its directory cannot be made the error is
    reported, and the file is written all the same. *)
Definition write_task (filename : string) (data : list Z) (d : D) : D * bool :=
  match file_InsureDir (default filename (dir_of filename)) d with
  | None => (default d (io_WriteFile filename data d), false)
  | Some d => match io_WriteFile filename data d with
              | None => (d, false)
              | Some d' => (d', true)
              end
  end.
End files.

(** [io_task_chans[getIndex(md5)] <- task]: the channel of the worker must exist. *)
Definition io_channel (cfg : GraphConfig) (md5 : string) : result Z :=
  let! i := getIndex cfg md5 in
  index (seqZ 0 (IOWorkerNum cfg)) i.

Section rrdtool.
Context `{LimitedList, NMap, MapRange} {D DB : Type} `{!Disk D, !RrdLib D} (cfg : GraphConfig).
Implicit Types st : GraphState D DB.

Definition FlushFile (now : Z) (filename md5 : string) (items : list GraphItem) st : result (GraphState D DB * bool) :=
  let! _ := io_channel cfg md5 in
  let '(d, ok) := flushrrd now filename items (disk st) in
  Ok (set_disk d st, ok).

Definition ReadFile (filename md5 : string) st : result (option (list Z)) :=
  let! _ := io_channel cfg md5 in
  Ok (io_ReadFile (disk st) filename).

Definition Fetch (filename md5 cf : string) (start end_ step : Z) st : result (list RRDData * bool) :=
  let! _ := io_channel cfg md5 in
  Ok (fetch (disk st) filename cf start end_ step).

(** The error of [FlushFile] is dropped. *)
Definition CommitByKey (now : Z) (key : string) st : result (GraphState D DB) :=
  let '(md5, dsType, step, ok) := SplitRrdCacheKey key in
  if negb ok then Ok st
  else
    let! filename := RrdFileName (RRD_Storage cfg) md5 dsType step in
    let! (m, items) := GraphItemMap_PopAll (GraphItems st) key in
    let st := set_GraphItems m st in
    match items with
    | [] => Ok st
    | _ => let! (st, _) := FlushFile now filename md5 items st in Ok st
    end.

Definition shouldFlush (now : Z) (key : string) st : result bool :=
  let! n := GraphItemMap_ItemCnt (GraphItems st) key in
  if n >=? FLUSH_MIN_COUNT then Ok true
  else
    let deadline := i64 (now - FLUSH_MAX_WAIT) in
    let! back := GraphItemMap_Back (GraphItems st) key in
    match back with
    | Some b => Ok (GraphItem_Timestamp b <=? deadline)
    | None => Ok false
    end.

(** The tasks sent to the workers of other nodes: the node and the key to pull. *)
Definition PullByKey (ring : string -> option string) (key : string) (s : GraphState D DB * list (string * string))
    : result (GraphState D DB * list (string * string)) :=
  let '(st, tasks) := s in
  let! item := GraphItemMap_First (GraphItems st) key in
  match item with
  | None => Ok s
  | Some item =>
      match ring (GraphItem_PrimaryKey item) with
      | None => Ok s
      | Some node => Ok (st, tasks ++ [(node, key)])
      end
  end.

Definition FlushRRD_key (ring : string -> option string) (now : Z) (force : bool)
    (s : GraphState D DB * list (string * string)) (key : string) : result (GraphState D DB * list (string * string)) :=
  let '(st, tasks) := s in
  let! flag := GraphItemMap_GetFlag (GraphItems st) key in
  if negb force && Migrate_Enabled cfg && negb (Z.land (default 0 flag) GRAPH_F_MISS =? 0)
  then PullByKey ring key s
  else
    let! flush := (if force then Ok true else shouldFlush now key st) in
    if flush : bool then let! st := CommitByKey now key st in Ok (st, tasks) else Ok s.

Definition FlushRRD (ring : string -> option string) (now : Z) (idx : Z) (force : bool)
    (s : GraphState D DB * list (string * string)) : result (GraphState D DB * list (string * string)) :=
  let! keys := GraphItemMap_KeysByIndex (GraphItems (fst s)) idx in
  rfold (FlushRRD_key ring now force) s keys.

(** Every tenth of the shards a line is logged; with fewer than ten shards the
    remainder is by zero. *)
Definition FlushAll (ring : string -> option string) (now : Z) (force : bool)
    (s : GraphState D DB * list (string * string)) : result (GraphState D DB * list (string * string)) :=
  let size := Size (GraphItems (fst s)) in
  let n := Z.quot size 10 in
  rfold (fun s i =>
    let! s := FlushRRD ring now i force s in
    let! _ := go_rem i n in Ok s) s (seqZ 0 size).

(** [Graph.GetRrd]: the points in memory are written before the file is read. *)
Definition Graph_GetRrd (now : Z) (key : string) st : result (GraphState D DB * option (string * list Z)) :=
  let '(md5, dsType, step, ok) := SplitRrdCacheKey key in
  if negb ok then Ok (st, None)
  else
    let! filename := RrdFileName (RRD_Storage cfg) md5 dsType step in
    let! (m, items) := GraphItemMap_PopAll (GraphItems st) key in
    let st := set_GraphItems m st in
    let! st := (match items with
                | [] => Ok st
                | _ => let! (st, _) := FlushFile now filename md5 items st in Ok st
                end) in
    let! body := ReadFile filename md5 st in
    Ok (st, pair filename <$> body).
End rrdtool.

(** ** migrate.go *)

(** The outcome of one call to another node. A call that failed (a timeout, a
    broken connection) may have been carried out there all the same: [carried]. *)
Inductive rpc_result (V : Type) := RpcOk (v : V) | RpcErr (carried : bool) | RpcShutdown (carried : bool).
Arguments RpcOk {V}.
Arguments RpcErr {V}.
Arguments RpcShutdown {V}.

(** Three attempts, until one succeeds: [rpc i] is the outcome of the [i]-th.
    After a shutdown the connection is dialled again before the next. *)
Fixpoint rpc_attempts {V : Type} (n : nat) (rpc : nat -> rpc_result V) (i : nat) : option V :=
  match n with
  | O => None
  | S n => match rpc i with
           | RpcOk v => Some v
           | RpcErr _ | RpcShutdown _ => rpc_attempts n rpc (S i)
           end
  end.

(** How many of these attempts the other node carried out. *)
Fixpoint carried_out {V : Type} (n : nat) (rpc : nat -> rpc_result V) (i : nat) : nat :=
  match n with
  | O => 0
  | S n => match rpc i with
           | RpcOk _ => 1
           | RpcErr carried | RpcShutdown carried => (if carried then 1 else 0) + carried_out n rpc (S i)
           end
  end.

(** Clearing bits of a flag word. *)
Definition clear_flag (flag bit : Z) : Z := Z.ldiff flag bit.

Section migrate.
Context `{LimitedList, NMap, MapRange} {D DB : Type} `{!Disk D, !RrdLib D} (cfg : GraphConfig).
Implicit Types st : GraphState D DB.

(** The errors of [SetFlag] and [PushAll] are dropped. *)
Definition SetFlag_ (key : string) (flag : Z) st : result (GraphState D DB) :=
  let! m := GraphItemMap_SetFlag (GraphItems st) key flag in
  Ok (match m with Some m => set_GraphItems m st | None => st end).
Definition PushAll_ (key : string) (items : list GraphItem) st : result (GraphState D DB) :=
  let! m := GraphItemMap_PushAll (GraphItems st) key items in
  Ok (match m with Some m => set_GraphItems m st | None => st end).

(** [send_data] up to its calls: the flag is raised and the points are popped,
    oldest first. [None]: the series has no flag, and the function returns. *)
Definition send_pop (key : string) st : result (option (GraphState D DB * Z * list GraphItem)) :=
  let! flag := GraphItemMap_GetFlag (GraphItems st) key in
  match flag with
  | None => Ok None
  | Some flag =>
      let! st := SetFlag_ key (Z.lor flag GRAPH_F_SENDING) st in
      let! (m, items) := GraphItemMap_PopAll (GraphItems st) key in
      Ok (Some (set_GraphItems m st, flag, items))
  end.

(** The calls and what follows them, in the state the other goroutines have left
    by then: the state, the batches the other node carried out, and whether there
    was no error. *)
Definition send_calls (rpc : nat -> rpc_result unit) (key : string) (flag : Z) (items : list GraphItem) st
    : result (GraphState D DB * list (list GraphItem) * bool) :=
  let! (st, received, ok) :=
    (match items with
     | [] => Ok (st, [], true)
     | _ =>
         let received := replicate (carried_out 3 rpc 0) items in
         match rpc_attempts 3 rpc 0 with
         | Some _ => Ok (st, received, true)
         | None => let! st := PushAll_ key items st in Ok (st, received, false)
         end
     end) in
  let! st := SetFlag_ key (clear_flag flag GRAPH_F_SENDING) st in
  Ok (st, received, ok).

(** [send_data] while no other goroutine runs. *)
Definition send_data (rpc : nat -> rpc_result unit) (key : string) st
    : result (GraphState D DB * list (list GraphItem) * bool) :=
  let! popped := send_pop key st in
  match popped with
  | None => Ok (st, [], false)
  | Some (st, flag, items) => send_calls rpc key flag items st
  end.

(** The error of the parse is dropped; a fetched file is written by an I/O worker. *)
Definition fetch_rrd (rpc : nat -> rpc_result (list Z)) (key : string) st : result (GraphState D DB * bool) :=
  let! flag := GraphItemMap_GetFlag (GraphItems st) key in
  match flag with
  | None => Ok (st, false)
  | Some flag =>
      let! st := SetFlag_ key (Z.lor flag GRAPH_F_FETCHING) st in
      let '(md5, dsType, step, _) := SplitRrdCacheKey key in
      let! filename := RrdFileName (RRD_Storage cfg) md5 dsType step in
      let! (st, flag, ok) :=
        (match rpc_attempts 3 rpc 0 with
         | None => Ok (st, flag, false)
         | Some body =>
             let! _ := io_channel cfg md5 in
             let '(d, ok) := write_task filename body (disk st) in
             Ok (set_disk d st, if ok : bool then clear_flag flag GRAPH_F_MISS else flag, ok)
         end) in
      let! st := SetFlag_ key (clear_flag flag GRAPH_F_FETCHING) st in
      Ok (st, ok)
  end.

(** [query_data]: the values of the first answer. *)
Definition query_data (rpc : nat -> rpc_result (list RRDData)) : option (list RRDData) := rpc_attempts 3 rpc 0.

(** One task of [net_task_worker]; [busy] is the flag a slow flush raises. The
    error of a call is the text the other node sent, which [os.IsNotExist] never
    takes for a missing file; [notexist] says whether it takes the error of the
    local write for one. *)
Inductive net_task := TaskSend (key : string) | TaskPull (key : string).
Definition net_task_worker (rpc_send : nat -> rpc_result unit) (rpc_rrd : nat -> rpc_result (list Z))
    (busy notexist : bool) (now : Z) (task : net_task) st : result (GraphState D DB * bool) :=
  match task with
  | TaskSend key => let! (st, _, ok) := send_data rpc_send key st in Ok (st, ok)
  | TaskPull key =>
      if busy then let! (st, _, ok) := send_data rpc_send key st in Ok (st, ok)
      else
        let! (st, ok) := fetch_rrd rpc_rrd key st in
        if ok : bool then Ok (st, true)
        else
          let written := match rpc_attempts 3 rpc_rrd 0 with Some _ => true | None => false end in
          if written && notexist then
            let! st := SetFlag_ key 0 st in
            let! st := CommitByKey cfg now key st in
            Ok (st, false)
          else Ok (st, false)
  end.
End migrate.

(** * Flushing *)

(** The keys [handleItems] forms, and a configuration the service accepted. *)
Definition key_ok (key : string) : Prop :=
  exists raw dsType step, key = FormRrdCacheKey (Md5 raw) dsType step /\
    str_free "_" dsType = true /\ - 2 ^ 31 <= step < 2 ^ 31.
Definition cfg_ok (cfg : GraphConfig) : Prop := exists c, 0 < IOWorkerNum c /\ ParseConfig c = Some cfg.

(** The file of a key. *)
Definition file_of (cfg : GraphConfig) (key : string) : string :=
  RRD_Storage cfg +:+ "/" +:+ str_take 2 key +:+ "/" +:+ key +:+ ".rrd".

Lemma io_channel_ok cfg raw : cfg_ok cfg -> exists i, io_channel cfg (Md5 raw) = Ok i.
Proof.
  intros (c & Hn & Hc). destruct (getIndex_spec c cfg raw Hn Hc) as (i & Ei & Hi).
  exists i. unfold io_channel. rewrite Ei. cbn [rbind].
  rewrite <- (Z2Nat.id i) at 1 by lia. rewrite (index_nat _ _ i); [done|].
  apply lookup_seqZ. lia.
Qed.

Lemma str_take_2_app s1 s2 : (2 <= String.length s1)%nat -> str_take 2 (s1 +:+ s2) = str_take 2 s1.
Proof. destruct s1 as [|a [|b s1]]; simpl; [lia..|]. intros _. done. Qed.

Section flush.
Context `{LimitedList, NMap, MapRange} {D DB : Type} `{!Disk D, !RrdLib D} (cfg : GraphConfig) (Hcfg : cfg_ok cfg).
Implicit Types st : GraphState D DB.

(** Everything but the store and the disk. *)
Definition same_caches st st' : Prop :=
  HistoryCache st' = HistoryCache st /\ IndexedItemCache st' = IndexedItemCache st /\
  unIndexedItemCache st' = unIndexedItemCache st /\ db st' = db st.

Definition flush_key (now : Z) (m : GraphItemMap) (d : D) (key : string) : D :=
  match points_of m key with
  | [] => d
  | items => fst (flushrrd now (file_of cfg key) (reverse items) d)
  end.

Definition emptied (sl : SafeLinkedList) : SafeLinkedList := mkSafeLinkedList (Flag sl) [].

Lemma CommitByKey_spec now key st :
  key_ok key -> store_wf (GraphItems st) ->
  exists st', CommitByKey cfg now key st = Ok st' /\ store_wf (GraphItems st') /\
    Size (GraphItems st') = Size (GraphItems st) /\
    flat (GraphItems st') = alter emptied key (flat (GraphItems st)) /\
    disk st' = flush_key now (GraphItems st) (disk st) key /\ same_caches st st'.
Proof using Hcfg.
  intros (raw & dsType & step & -> & Hd & Hs) Hwf. unfold CommitByKey, flush_key.
  rewrite SplitRrdCacheKey_Form; [|by apply Md5_free|done..]. cbn [negb].
  rewrite RrdFileName_Md5. cbn [rbind]. set (key := FormRrdCacheKey (Md5 raw) dsType step).
  destruct (PopAll_op (GraphItems st) Hwf key) as (m & -> & Hm & Es & Ef). cbn [rbind].
  destruct (points_of (GraphItems st) key) as [|x l] eqn:Ep; [by eexists|].
  assert (reverse (x :: l) <> []) as Hne by (rewrite reverse_cons; by destruct (reverse l)).
  destruct (reverse (x :: l)) as [|y r] eqn:Er; [done|].
  unfold FlushFile. destruct (io_channel_ok cfg raw Hcfg) as [i ->]. cbn [rbind].
  assert (file_of cfg key = RRD_Storage cfg +:+ "/" +:+ str_take 2 (Md5 raw) +:+ "/" +:+ key +:+ ".rrd") as ->.
  { unfold file_of, key, FormRrdCacheKey. rewrite str_take_2_app; [done|]. destruct (Md5_shape raw). lia. }
  cbn [set_GraphItems disk]. destruct (flushrrd _ _ _ _) as [d ok]. cbn [rbind]. eexists. by split_and!.
Qed.

Lemma points_of_alter m m' key k :
  flat m' = alter emptied key (flat m) -> points_of m' k = if decide (k = key) then [] else points_of m k.
Proof using Type.
  intros E. unfold points_of. rewrite E. case_decide as Hk; subst.
  - rewrite lookup_alter_eq. by destruct (flat m !! key).
  - by rewrite lookup_alter_ne by done.
Qed.

Lemma flush_key_ext now m m' d key : points_of m' key = points_of m key -> flush_key now m' d key = flush_key now m d key.
Proof using Type. unfold flush_key. by intros ->. Qed.

(** A forced flush of distinct keys writes the points of each once, in their
    order, and leaves their lists empty. *)
Lemma FlushRRD_keys ring now keys st tasks :
  NoDup keys -> Forall key_ok keys -> store_wf (GraphItems st) ->
  exists st', rfold (FlushRRD_key cfg ring now true) (st, tasks) keys = Ok (st', tasks) /\ store_wf (GraphItems st') /\
    Size (GraphItems st') = Size (GraphItems st) /\
    (forall k, flat (GraphItems st') !! k = if decide (k ∈ keys) then emptied <$> flat (GraphItems st) !! k else flat (GraphItems st) !! k) /\
    disk st' = fold_left (flush_key now (GraphItems st)) keys (disk st) /\ same_caches st st'.
Proof using Hcfg.
  revert st; induction keys as [|key keys IH]; intros st Hnd Hok Hwf; cbn [rfold fold_left].
  { exists st. split_and!; [done | done | done | | done | done]. intros k. by rewrite decide_False by apply not_elem_of_nil. }
  apply NoDup_cons in Hnd as [Hnin Hnd]. apply list.Forall_cons in Hok as [Hk Hok].
  unfold FlushRRD_key at 1. rewrite GetFlag_op by done. cbn [rbind negb andb].
  destruct (CommitByKey_spec now key st Hk Hwf) as (st1 & -> & Hwf1 & Es1 & Ef1 & Ed1 & Ec1). cbn [rbind].
  destruct (IH st1 Hnd Hok Hwf1) as (st' & -> & Hwf' & Es' & Ef' & Ed' & Ec').
  exists st'. split_and!; [done | done | congruence | | |].
  - intros k. rewrite Ef', Ef1. destruct (decide (k = key)) as [->|Hne].
    + rewrite decide_False by done. rewrite decide_True by left. by rewrite lookup_alter_eq.
    + rewrite lookup_alter_ne by done. apply decide_ext. rewrite elem_of_cons. naive_solver.
  - rewrite Ed', Ed1. clear -Hnin Ef1. generalize (flush_key now (GraphItems st) (disk st) key) as d.
    induction keys as [|k keys IH]; intros d; [done|]. cbn [fold_left]. rewrite not_elem_of_cons in Hnin.
    rewrite IH by tauto. f_equal. apply flush_key_ext. rewrite (points_of_alter (GraphItems st) _ key) by done.
    by rewrite decide_False by naive_solver.
  - unfold same_caches in *. destruct Ec1 as (?&?&?&?), Ec' as (?&?&?&?). split_and!; congruence.
Qed.

Definition store_keys_ok (m : GraphItemMap) : Prop := forall key, is_Some (flat m !! key) -> key_ok key.

Lemma FlushAll_idxs ring now idxs n st tasks :
  n <> 0 -> NoDup idxs -> Forall (fun i => 0 <= i < Size (GraphItems st)) idxs -> store_wf (GraphItems st) ->
  store_keys_ok (GraphItems st) ->
  exists st' keys, rfold (fun s i => let! s := FlushRRD cfg ring now i true s in let! _ := go_rem i n in Ok s) (st, tasks) idxs
      = Ok (st', tasks) /\ store_wf (GraphItems st') /\
    NoDup keys /\ (forall k, k ∈ keys <-> is_Some (flat (GraphItems st) !! k) /\ hashKey k mod Size (GraphItems st) ∈ idxs) /\
    (forall k, flat (GraphItems st') !! k = if decide (k ∈ keys) then emptied <$> flat (GraphItems st) !! k else flat (GraphItems st) !! k) /\
    disk st' = fold_left (flush_key now (GraphItems st)) keys (disk st) /\ same_caches st st'.
Proof using Hcfg.
  intros Hn. revert st; induction idxs as [|i idxs IH]; intros st Hnd Hi Hwf Hok; cbn [rfold].
  { exists st, []. split_and!; [done | done | constructor | | | done | done].
    - intros k. split; [by intros ?%not_elem_of_nil | by intros [_ ?%not_elem_of_nil]].
    - intros k. by rewrite decide_False by apply not_elem_of_nil. }
  apply NoDup_cons in Hnd as [Hnin Hnd]. apply list.Forall_cons in Hi as [Hi His].
  unfold FlushRRD at 1. cbn [fst]. destruct (KeysByIndex_spec (GraphItems st) i Hwf Hi) as (keys & Ek & Hkeys).
  rewrite Ek. cbn [rbind].
  assert (NoDup keys) as Hkn.
  { unfold GraphItemMap_KeysByIndex in Ek. apply rbind_Ok_inv in Ek as (m & _ & Ek). injection Ek as <-.
    eapply range_order_NoDup, range_keys_order. }
  destruct (FlushRRD_keys ring now keys st tasks Hkn) as (st1 & -> & Hwf1 & Es1 & Ef1 & Ed1 & Ec1); [|done|].
  { apply list.Forall_forall. intros k Hk. apply Hok. by apply Hkeys in Hk as [? _]. }
  cbn [rbind]. unfold go_rem at 1. rewrite (proj2 (Z.eqb_neq n 0)) by done. cbn [rbind].
  assert (forall k, k ∉ keys -> flat (GraphItems st1) !! k = flat (GraphItems st) !! k) as Hsame
    by (intros k Hk; by rewrite Ef1, decide_False).
  assert (forall k, is_Some (flat (GraphItems st1) !! k) <-> is_Some (flat (GraphItems st) !! k)) as Hdom.
  { intros k. rewrite Ef1. case_decide; [|done]. by rewrite fmap_is_Some. }
  destruct (IH st1) as (st' & keys' & -> & Hwf' & Hnd' & Hk' & Ef' & Ed' & Ec'); [done | by rewrite Es1 | done | |].
  { intros k Hk. apply Hok. by apply Hdom. }
  assert (forall k, k ∈ keys -> k ∉ keys') as Hdisj.
  { intros k Hk Hk2. apply Hkeys in Hk as [_ Hk]. apply Hk' in Hk2 as [_ Hk2]. rewrite Es1, Hk in Hk2. done. }
  exists st', (keys ++ keys'). split_and!; [done | done | | | | |].
  - apply NoDup_app. by split_and!.
  - intros k. rewrite elem_of_app, Hkeys, Hk', Hdom, Es1, elem_of_cons. naive_solver.
  - intros k. rewrite Ef'. destruct (decide (k ∈ keys')) as [Hin|Hin].
    + rewrite decide_True by (apply elem_of_app; by right). rewrite Hsame; [done|]. intros ?. by eapply Hdisj.
    + rewrite Ef1. apply decide_ext. rewrite elem_of_app. naive_solver.
  - rewrite Ed', Ed1, fold_left_app. generalize (fold_left (flush_key now (GraphItems st)) keys (disk st)) as d.
    clear -Hsame Hdisj. induction keys' as [|k keys' IH]; intros d; [done|]. cbn [fold_left].
    rewrite IH by (intros k' Hk'1 Hk'2; apply (Hdisj k' Hk'1); by right). f_equal. apply flush_key_ext.
    unfold points_of. rewrite Hsame; [done|]. intros Hk. apply (Hdisj k Hk). left.
  - unfold same_caches in *. destruct Ec1 as (?&?&?&?), Ec' as (?&?&?&?). split_and!; congruence.
Qed.
End flush.

(** * Moving data to another node *)

Section migrate_spec.
Context `{LimitedList, NMap, MapRange} {D DB : Type} `{!Disk D, !RrdLib D} (cfg : GraphConfig).
Implicit Types st : GraphState D DB.

Lemma SetFlag_spec key flag st sl :
  store_wf (GraphItems st) -> flat (GraphItems st) !! key = Some sl ->
  exists st', SetFlag_ key flag st = Ok st' /\ store_wf (GraphItems st') /\ disk st' = disk st /\
    flat (GraphItems st') = <[key := mkSafeLinkedList flag (L sl)]> (flat (GraphItems st)).
Proof using Type.
  intros Hwf Hk. unfold SetFlag_. destruct (SetFlag_op (GraphItems st) Hwf key flag) as (m & -> & Hm & _ & Ef); [by eexists|].
  cbn [rbind]. eexists. split_and!; [done | done | done |]. cbn [set_GraphItems GraphItems]. rewrite Ef.
  apply map_eq. intros k. destruct (decide (key = k)) as [<-|];
    [by rewrite lookup_alter_eq, lookup_insert_eq, Hk | by rewrite lookup_alter_ne, lookup_insert_ne].
Qed.

Lemma alter_insert_some (f : SafeLinkedList -> SafeLinkedList) key sl (m : gmap string SafeLinkedList) :
  m !! key = Some sl -> alter f key m = <[key := f sl]> m.
Proof using Type.
  intros E. apply map_eq. intros k. destruct (decide (key = k)) as [<-|];
    [by rewrite lookup_alter_eq, lookup_insert_eq, E | by rewrite lookup_alter_ne, lookup_insert_ne].
Qed.

Lemma send_pop_spec key st sl :
  store_wf (GraphItems st) -> flat (GraphItems st) !! key = Some sl ->
  exists st1, send_pop key st = Ok (Some (st1, Flag sl, reverse (L sl))) /\ store_wf (GraphItems st1) /\ disk st1 = disk st /\
    flat (GraphItems st1) = <[key := mkSafeLinkedList (Z.lor (Flag sl) GRAPH_F_SENDING) []]> (flat (GraphItems st)).
Proof using Type.
  intros Hwf Hk. unfold send_pop. rewrite GetFlag_op, Hk by done. cbn [rbind fmap option_fmap option_map].
  destruct (SetFlag_spec key (Z.lor (Flag sl) GRAPH_F_SENDING) st sl Hwf Hk) as (st1 & -> & Hwf1 & Ed1 & Ef1). cbn [rbind].
  destruct (PopAll_op (GraphItems st1) Hwf1 key) as (m & -> & Hm & _ & Efm). cbn [rbind].
  assert (flat (GraphItems st1) !! key = Some (mkSafeLinkedList (Z.lor (Flag sl) GRAPH_F_SENDING) (L sl))) as Hk1
    by (rewrite Ef1; apply lookup_insert_eq).
  assert (points_of (GraphItems st1) key = L sl) as -> by (unfold points_of; by rewrite Hk1).
  rewrite (alter_insert_some _ _ _ _ Hk1), Ef1, insert_insert_eq in Efm. cbn [Flag] in Efm.
  eexists. split_and!; [done | done | done | done].
Qed.

Lemma send_calls_spec rpc key flag items st sl :
  store_wf (GraphItems st) -> flat (GraphItems st) !! key = Some sl ->
  exists st' received ok, send_calls rpc key flag items st = Ok (st', received, ok) /\ store_wf (GraphItems st') /\
    flat (GraphItems st') = <[key := mkSafeLinkedList (clear_flag flag GRAPH_F_SENDING)
      (if ok then L sl else L sl ++ reverse items)]> (flat (GraphItems st)) /\
    disk st' = disk st /\
    (ok = true <-> items = [] \/ is_Some (rpc_attempts 3 rpc 0)) /\
    received = (if bool_decide (items = []) then [] else replicate (carried_out 3 rpc 0) items).
Proof using Type.
  intros Hwf Hk. unfold send_calls.
  assert (forall st2 (kept : list GraphItem) (fl : Z) received ok, store_wf (GraphItems st2) -> disk st2 = disk st ->
    flat (GraphItems st2) = <[key := mkSafeLinkedList fl kept]> (flat (GraphItems st)) ->
    exists st3, (let! st := SetFlag_ key (clear_flag flag GRAPH_F_SENDING) st2 in Ok (st, received : list (list GraphItem), ok : bool))
        = Ok (st3, received, ok) /\ store_wf (GraphItems st3) /\
      flat (GraphItems st3) = <[key := mkSafeLinkedList (clear_flag flag GRAPH_F_SENDING) kept]> (flat (GraphItems st)) /\
      disk st3 = disk st) as Hlast.
  { intros st2 kept fl received ok Hwf2 Ed2 Ef2.
    destruct (SetFlag_spec key (clear_flag flag GRAPH_F_SENDING) st2 (mkSafeLinkedList fl kept))
      as (st3 & -> & Hwf3 & Ed3 & Ef3); [done | by rewrite Ef2, lookup_insert_eq |].
    exists st3. split_and!; [done | done | by rewrite Ef3, Ef2, insert_insert_eq | congruence]. }
  assert (flat (GraphItems st) = <[key := mkSafeLinkedList (Flag sl) (L sl)]> (flat (GraphItems st))) as Esame
    by (symmetry; apply insert_id; rewrite Hk; by destruct sl).
  destruct items as [|x r].
  { cbn [rbind]. destruct (Hlast st (L sl) (Flag sl) [] true) as (st3 & -> & Hwf3 & Ef3 & Ed3); [done..|].
    exists st3, [], true. split_and!; [done | done | done | done | naive_solver | done]. }
  destruct (rpc_attempts 3 rpc 0) as [[]|] eqn:Erpc; cbn [rbind].
  - destruct (Hlast st (L sl) (Flag sl) (replicate (carried_out 3 rpc 0) (x :: r)) true) as (st3 & -> & Hwf3 & Ef3 & Ed3); [done..|].
    eexists st3, _, true. split_and!; [done | done | done | done | naive_solver | done].
  - unfold PushAll_. destruct (PushAll_op (GraphItems st) Hwf key (x :: r)) as (m2 & E2 & Hm2 & _ & Ef2); [by eexists|].
    rewrite E2. cbn [rbind]. rewrite (alter_insert_some _ _ _ _ Hk) in Ef2.
    destruct (Hlast (set_GraphItems m2 st) (L sl ++ reverse (x :: r)) (Flag sl) (replicate (carried_out 3 rpc 0) (x :: r)) false)
      as (st3 & -> & Hwf3 & Ef3 & Ed3); [done | done | done |].
    eexists st3, _, false. split_and!; [done | done | done | done | | done].
    split; [done|]. by intros [?|[? ?]].
Qed.

(** A call that succeeded was carried out; without another one that was, once. *)
Lemma carried_out_bounds {V : Type} n (rpc : nat -> rpc_result V) i :
  (carried_out n rpc i <= n)%nat /\ (is_Some (rpc_attempts n rpc i) -> (1 <= carried_out n rpc i)%nat) /\
  ((forall j, rpc j <> RpcErr true /\ rpc j <> RpcShutdown true) ->
    carried_out n rpc i = match rpc_attempts n rpc i with Some _ => 1%nat | None => 0%nat end).
Proof using Type.
  revert i; induction n as [|n IH]; intros i; cbn [carried_out rpc_attempts].
  { split_and!; [lia | by intros [? ?] | done]. }
  destruct (IH (S i)) as (Hle & Hpos & Honce). destruct (rpc i) as [v|[]|[]] eqn:E; split_and!; try (lia || done).
  - intros Hc. by destruct (Hc i) as [[] _].
  - intros Hc. by destruct (Hc i) as [_ []].
Qed.

Lemma fetch_rrd_spec rpc key st sl :
  cfg_ok cfg -> key_ok key -> store_wf (GraphItems st) -> flat (GraphItems st) !! key = Some sl ->
  exists st' ok, fetch_rrd cfg rpc key st = Ok (st', ok) /\ store_wf (GraphItems st') /\
    (ok = true <-> exists body, rpc_attempts 3 rpc 0 = Some body /\ snd (write_task (file_of cfg key) body (disk st)) = true) /\
    flat (GraphItems st') = <[key := mkSafeLinkedList
      (clear_flag (if ok then clear_flag (Flag sl) GRAPH_F_MISS else Flag sl) GRAPH_F_FETCHING) (L sl)]> (flat (GraphItems st)).
Proof using Type.
  intros Hcfg (raw & dsType & step & -> & Hd & Hs) Hwf Hk. unfold fetch_rrd. rewrite GetFlag_op, Hk by done.
  cbn [rbind fmap option_fmap option_map].
  destruct (SetFlag_spec (FormRrdCacheKey (Md5 raw) dsType step) (Z.lor (Flag sl) GRAPH_F_FETCHING) st sl Hwf Hk)
    as (st1 & -> & Hwf1 & Ed1 & Ef1). cbn [rbind].
  rewrite SplitRrdCacheKey_Form; [|by apply Md5_free|done..]. rewrite RrdFileName_Md5. cbn [rbind].
  set (key := FormRrdCacheKey (Md5 raw) dsType step) in *.
  assert (file_of cfg key = RRD_Storage cfg +:+ "/" +:+ str_take 2 (Md5 raw) +:+ "/" +:+ key +:+ ".rrd") as Efile.
  { unfold file_of, key, FormRrdCacheKey. rewrite str_take_2_app; [done|]. destruct (Md5_shape raw). lia. }
  rewrite <- Efile. clear Efile.
  assert (forall st2 fl flag', store_wf (GraphItems st2) ->
    flat (GraphItems st2) = <[key := mkSafeLinkedList fl (L sl)]> (flat (GraphItems st)) ->
    exists st3, SetFlag_ key flag' st2 = Ok st3 /\ store_wf (GraphItems st3) /\
      flat (GraphItems st3) = <[key := mkSafeLinkedList flag' (L sl)]> (flat (GraphItems st))) as Hlast.
  { intros st2 fl flag' Hwf2 Ef2. destruct (SetFlag_spec key flag' st2 (mkSafeLinkedList fl (L sl)))
      as (st3 & -> & Hwf3 & _ & Ef3); [done | by rewrite Ef2, lookup_insert_eq |].
    exists st3. split_and!; [done | done | by rewrite Ef3, Ef2, insert_insert_eq]. }
  destruct (rpc_attempts 3 rpc 0) as [body|] eqn:Erpc; cbn [rbind].
  - destruct (io_channel_ok cfg raw Hcfg) as [i ->]. cbn [rbind]. rewrite Ed1.
    destruct (write_task (file_of cfg key) body (disk st)) as [d ok] eqn:Ew. cbn [rbind].
    destruct (Hlast (set_disk d st1) (Z.lor (Flag sl) GRAPH_F_FETCHING)
      (clear_flag (if ok then clear_flag (Flag sl) GRAPH_F_MISS else Flag sl) GRAPH_F_FETCHING)) as (st3 & E3 & Hwf3 & Ef3); [done..|].
    rewrite E3. cbn [rbind]. exists st3, ok. split_and!; [done | done | | done]. split.
    + intros ->. exists body. by rewrite Ew.
    + intros (body' & [= <-] & Eok). by rewrite Ew in Eok.
  - destruct (Hlast st1 (Z.lor (Flag sl) GRAPH_F_FETCHING) (clear_flag (Flag sl) GRAPH_F_FETCHING)) as (st3 & E3 & Hwf3 & Ef3); [done..|].
    rewrite E3. cbn [rbind]. exists st3, false. split_and!; [done | done | | done]. split; [done|]. by intros (? & ? & _).
Qed.
End migrate_spec.

(** A library to run the models on: a file exists once it was created or written. *)
Definition rrd_set : RrdLib (gset string) := {|
  file_InsureDir := fun _ d => Some d;
  rrd_Create := fun f _ d => Some ({[f]} ∪ d);
  rrd_Update := fun _ _ d => Some d;
  rrd_Fetch := fun _ _ _ _ _ _ => None;
  io_ReadFile := fun d f => if decide (f ∈ d) then Some [] else None;
  io_WriteFile := fun f _ d => if decide (f ∈ d) then None else Some ({[f]} ∪ d) |}.

(** * Properties *)

(** C9. The flush at exit, with a configuration the service accepts, at least ten
    shards and keys that [handleItems] forms of items whose type has no underscore
    and whose step fits 32 bits: it returns and leaves no point in memory. Every
    list is emptied, keeping its flag, and the disk is the result of handing the
    points of each series to its file, once, oldest first, in some order of the
    series. (What the file library refuses is lost: [CommitByKey] drops the
    error.) *)
Theorem FlushAll_writes_everything `{LimitedList, NMap, MapRange} {D DB : Type} `{!Disk D, !RrdLib D}
    (cfg : GraphConfig) (ring : string -> option string) (now : Z) (st : GraphState D DB) (tasks : list (string * string)) :
  cfg_ok cfg -> store_wf (GraphItems st) -> 10 <= Size (GraphItems st) -> store_keys_ok (GraphItems st) ->
  exists st' keys, FlushAll cfg ring now true (st, tasks) = Ok (st', tasks) /\
    flat (GraphItems st') = emptied <$> flat (GraphItems st) /\
    NoDup keys /\ (forall k, k ∈ keys <-> is_Some (flat (GraphItems st) !! k)) /\
    disk st' = fold_left (flush_key cfg now (GraphItems st)) keys (disk st).
Proof.
  intros Hcfg Hwf Hsz Hok. unfold FlushAll. cbn [fst].
  destruct (FlushAll_idxs cfg Hcfg ring now (seqZ 0 (Size (GraphItems st))) (Z.quot (Size (GraphItems st)) 10) st tasks)
    as (st' & keys & E & _ & Hnd & Hk & Hf & Hd & _); [| apply NoDup_seqZ | | done | done |].
  { pose proof (Z.quot_le_mono 10 (Size (GraphItems st)) 10 ltac:(lia) Hsz). change (10 ÷ 10) with 1 in *. lia. }
  { apply list.Forall_forall. intros i Hi%elem_of_seqZ. lia. }
  assert (forall k, k ∈ keys <-> is_Some (flat (GraphItems st) !! k)) as Hk'.
  { intros k. rewrite Hk. split; [by intros [? _]|]. intros Hs. split; [done|]. apply elem_of_seqZ.
    pose proof (Z.mod_pos_bound (hashKey k) (Size (GraphItems st))). lia. }
  exists st', keys. split_and!; [exact E | | done | done | done]. apply map_eq. intros k. rewrite Hf, lookup_fmap.
  case_decide as Hin; [done|]. rewrite Hk' in Hin. apply eq_None_not_Some in Hin as ->. done.
Qed.

Lemma sample_cfg_ok : cfg_ok sample_graph_config.
Proof. exists (mkGraphConfig "./data/6070" 64 0 false 2 500 ∅). split; [done | vm_compute; reflexivity]. Qed.

(** Two points of one series in a store of ten shards, and a library that keeps
    the points of each file. *)
Definition sample_list : SafeLinkedList := mkSafeLinkedList 1 [sample_graph_item 120 7; sample_graph_item 60 1].
Definition pull_key : string := FormRrdCacheKey (Md5 "host/net.in/iface=eth0") "COUNTER" 60.
Definition points_disk : Disk (gmap string (list (Z * rrd_value))).
Proof.
  refine {| file_IsExist := fun d f => bool_decide (is_Some (d !! f)); file_Remove := fun d f => delete f d |}.
  intros d f f'. destruct (decide (f = f')) as [->|Hne].
  - rewrite lookup_delete_eq, (bool_decide_true (f' = f')), andb_false_r by done. by apply bool_decide_false; intros [? ?].
  - rewrite lookup_delete_ne, (bool_decide_false (f = f')), andb_true_r by done. done.
Defined.
Definition points_rrd : RrdLib (gmap string (list (Z * rrd_value))) := {|
  file_InsureDir := fun _ d => Some d;
  rrd_Create := fun f _ d => Some (<[f := []]> d);
  rrd_Update := fun f l d => match d !! f with Some old => Some (<[f := old ++ l]> d) | None => None end;
  rrd_Fetch := fun _ _ _ _ _ _ => None;
  io_ReadFile := fun d f => None;
  io_WriteFile := fun f _ d => None |}.
Definition ten_shards : GraphItemMap :=
  mkGraphItemMap (<[Z.to_nat (hashKey pull_key mod 10) := {[pull_key := sample_list]}]> (replicate 10 ∅)) 10.
Definition ten_state : @GraphState limited_list nmap_gmap (gmap string (list (Z * rrd_value))) (list index_stmt) :=
  @mkGraphState limited_list nmap_gmap _ _ ten_shards (@NewSafeMap nmap_gmap _) ∅ ∅ ∅ ∅ ∅ [].

Lemma ten_shards_wf : store_wf ten_shards.
Proof.
  pose proof (Z.mod_pos_bound (hashKey pull_key) 10 ltac:(lia)) as Hb.
  split; [done | vm_compute; reflexivity |]. intros i m key. cbn [A ten_shards Size].
  rewrite list_lookup_insert_Some. intros [(<- & <- & _)|(_ & Hi)] Hk.
  - destruct (decide (key = pull_key)) as [->|Hne]; [lia|]. rewrite lookup_singleton_ne in Hk by done. by destruct Hk.
  - apply lookup_replicate_1 in Hi as [-> _]. rewrite lookup_empty in Hk. by destruct Hk.
Qed.

Lemma ten_shards_flat : flat ten_shards = {[pull_key := sample_list]}.
Proof. vm_compute. reflexivity. Qed.

Lemma FlushAll_writes_everything_witness :
  exists st', @FlushAll limited_list nmap_gmap map_range_default _ _ points_disk points_rrd sample_graph_config (fun _ => None) 60 true
    (ten_state, []) = Ok (st', []) /\ flat (GraphItems st') = {[pull_key := mkSafeLinkedList 1 []]} /\
    disk st' = {[file_of sample_graph_config pull_key := [(60, RrdInt 1); (120, RrdInt 7)]]}.
Proof.
  destruct (@FlushAll_writes_everything limited_list nmap_gmap map_range_default _ _ points_disk points_rrd
    sample_graph_config (fun _ => None) 60 ten_state [] sample_cfg_ok ten_shards_wf) as (st' & keys & E & Ef & Hn & Hk & Hd).
  - cbn. lia.
  - intros key. cbn [GraphItems ten_state]. rewrite ten_shards_flat. intros [? [<- _]%lookup_singleton_Some].
    exists "host/net.in/iface=eth0", "COUNTER", 60. split; [reflexivity | split; [reflexivity | lia]].
  - exists st'. split; [exact E|]. cbn [GraphItems ten_state] in Ef, Hk, Hd. rewrite ten_shards_flat in Ef, Hk.
    split; [by rewrite Ef, map_fmap_singleton|].
    assert (keys = [pull_key]) as ->.
    { apply Permutation_singleton_r, NoDup_Permutation; [done | apply NoDup_singleton |].
      intros k. rewrite Hk, list_elem_of_singleton. split.
      - by intros [? [? _]%lookup_singleton_Some].
      - intros ->. rewrite lookup_singleton_eq. by eexists. }
    rewrite Hd. vm_compute. reflexivity.
Defined.

(** C12. Sending the points of a series to another node loses none. [send_data]
    pops the points, calls up to three times, and ends in whatever state the other
    goroutines have left meanwhile, in which the list of the series may hold newer
    points: after three failed calls the popped points are back below those,
    otherwise a call succeeded, and the other node carried out at least one batch.
    Every batch it carried out holds all the popped points, oldest first; there are
    at most three, since a call that failed may have been carried out all the same,
    and without such a call exactly one when a call succeeded and none otherwise.
    The SENDING bit is clear at the end and no other series is touched. *)
Theorem send_data_conserves `{LimitedList, NMap} {D DB : Type}
    (rpc : nat -> rpc_result unit) (key : string) (st : GraphState D DB) (sl : SafeLinkedList) :
  store_wf (GraphItems st) -> flat (GraphItems st) !! key = Some sl ->
  exists st1, send_pop key st = Ok (Some (st1, Flag sl, reverse (L sl))) /\
    flat (GraphItems st1) = <[key := mkSafeLinkedList (Z.lor (Flag sl) GRAPH_F_SENDING) []]> (flat (GraphItems st)) /\
    forall (st2 : GraphState D DB) newer, store_wf (GraphItems st2) -> flat (GraphItems st2) !! key = Some newer ->
    exists st3 n ok, send_calls rpc key (Flag sl) (reverse (L sl)) st2 = Ok (st3, replicate n (reverse (L sl)), ok) /\
      flat (GraphItems st3) = <[key := mkSafeLinkedList (clear_flag (Flag sl) GRAPH_F_SENDING)
        (if ok then L newer else L newer ++ L sl)]> (flat (GraphItems st2)) /\
      disk st3 = disk st2 /\ (n <= 3)%nat /\
      (ok = true -> L sl = [] \/ (1 <= n)%nat) /\ (ok = false -> rpc_attempts 3 rpc 0 = None) /\
      (L sl <> [] -> (forall j, rpc j <> RpcErr true /\ rpc j <> RpcShutdown true) -> n = if ok then 1%nat else 0%nat).
Proof.
  intros Hwf Hk. destruct (send_pop_spec key st sl Hwf Hk) as (st1 & E1 & Hwf1 & _ & Ef1).
  exists st1. split_and!; [done..|]. intros st2 newer Hwf2 Hk2.
  destruct (send_calls_spec rpc key (Flag sl) (reverse (L sl)) st2 newer Hwf2 Hk2) as (st3 & rec & ok & E3 & _ & Ef3 & Ed3 & Hok & Hrec).
  destruct (carried_out_bounds 3 rpc 0) as (Hle & Hpos & Honce). rewrite reverse_involutive in Ef3.
  assert (reverse (L sl) = [] <-> L sl = []) as Hnil.
  { split; [|by intros ->]. intros E. apply (f_equal reverse) in E. by rewrite reverse_involutive in E. }
  case_bool_decide as He.
  - exists st3, 0%nat, ok. rewrite Hrec in E3. split_and!; [exact E3 | done | done | lia | intros; left; by apply Hnil | | naive_solver].
    intros ->. discriminate (proj2 Hok (or_introl He)).
  - exists st3, (carried_out 3 rpc 0), ok. rewrite Hrec in E3. split_and!; [done | done | done | done | | |].
    + intros [?|?]%Hok; [done|]. right. by apply Hpos.
    + intros ->. apply eq_None_not_Some. intros Hs. discriminate (proj2 Hok (or_intror Hs)).
    + intros _ Hc. rewrite Honce by done. destruct (rpc_attempts 3 rpc 0) as [v|], ok; try done.
      * discriminate (proj2 Hok (or_intror (ex_intro _ v eq_refl))).
      * destruct (proj1 Hok eq_refl) as [?|[? ?]]; done.
Qed.

Definition small_store : GraphItemMap := mkGraphItemMap [{["k" := sample_list]}] 1.
Lemma small_store_wf : store_wf small_store.
Proof.
  split; [done | done |]. intros i m key. destruct i as [|i]; [|done]. intros [= <-] _. simpl. by rewrite Z.mod_1_r.
Qed.
Definition small_state : @GraphState limited_list nmap_gmap (gset string) (list index_stmt) :=
  @set_GraphItems limited_list nmap_gmap _ _ small_store sample_graph_state.

Lemma send_data_conserves_witness :
  exists st1 st3, @send_pop limited_list nmap_gmap _ _ "k" small_state = Ok (Some (st1, 1, reverse (L sample_list))) /\
    @send_calls limited_list nmap_gmap _ _ (fun i => if decide (i = 0%nat) then RpcErr true else RpcOk ()) "k" 1
      (reverse (L sample_list)) small_state = Ok (st3, replicate 2 (reverse (L sample_list)), true) /\
    flat (GraphItems st3) !! "k" = Some (mkSafeLinkedList (clear_flag 1 GRAPH_F_SENDING) (L sample_list)).
Proof.
  destruct (@send_data_conserves limited_list nmap_gmap _ _ (fun i => if decide (i = 0%nat) then RpcErr true else RpcOk ()) "k"
    small_state sample_list small_store_wf) as (st1 & E1 & _ & Hlater); [vm_compute; reflexivity|].
  destruct (Hlater small_state sample_list small_store_wf) as (st3 & n & ok & E3 & Ef & _); [vm_compute; reflexivity|].
  change (Flag sample_list) with 1 in E1, E3, Ef. exists st1, st3. split; [exact E1|].
  assert ((match @send_calls limited_list nmap_gmap (gset string) (list index_stmt)
      (fun i => if decide (i = 0%nat) then RpcErr true else RpcOk ()) "k" 1
      (reverse (L sample_list)) small_state with Ok (_, r, ok) => Some (length r, ok) | Panic _ => None end) = Some (2%nat, true)) as Ev
    by (vm_compute; reflexivity).
  rewrite E3, length_replicate in Ev. injection Ev as -> ->. split; [exact E3|]. rewrite Ef. apply lookup_insert_eq.
Defined.

(** Pulling the file of a series clears its MISS bit exactly when the file
    was fetched and written, always clears the FETCHING bit, and leaves the points
    in memory for the next flush. *)
Theorem fetch_rrd_flags `{LimitedList, NMap} {D DB : Type} `{!RrdLib D}
    (cfg : GraphConfig) (rpc : nat -> rpc_result (list Z)) (key : string) (st : GraphState D DB) (sl : SafeLinkedList) :
  cfg_ok cfg -> key_ok key -> store_wf (GraphItems st) -> flat (GraphItems st) !! key = Some sl ->
  exists st' ok, fetch_rrd cfg rpc key st = Ok (st', ok) /\ store_wf (GraphItems st') /\
    (ok = true <-> exists body, rpc_attempts 3 rpc 0 = Some body /\ snd (write_task (file_of cfg key) body (disk st)) = true) /\
    flat (GraphItems st') = <[key := mkSafeLinkedList
      (clear_flag (if ok then clear_flag (Flag sl) GRAPH_F_MISS else Flag sl) GRAPH_F_FETCHING) (L sl)]> (flat (GraphItems st)).
Proof. apply fetch_rrd_spec. Qed.

Definition pull_state : @GraphState limited_list nmap_gmap (gset string) (list index_stmt) :=
  @set_GraphItems limited_list nmap_gmap _ _ (mkGraphItemMap [{[pull_key := sample_list]}] 1) sample_graph_state.

Lemma fetch_rrd_flags_witness :
  exists st' ok, @fetch_rrd limited_list nmap_gmap _ _ rrd_set sample_graph_config (fun _ => RpcOk [82; 82; 68]) pull_key pull_state
    = Ok (st', ok) /\ ok = true.
Proof.
  destruct (@fetch_rrd_flags limited_list nmap_gmap _ _ rrd_set sample_graph_config (fun _ => RpcOk [82; 82; 68])
    pull_key pull_state sample_list sample_cfg_ok) as (st' & ok & E & _ & Hok & _).
  - exists "host/net.in/iface=eth0", "COUNTER", 60. split; [reflexivity | split; [reflexivity | lia]].
  - split; [done | done |]. intros i m key. destruct i as [|i]; [|done]. intros [= <-] _. simpl. by rewrite Z.mod_1_r.
  - vm_compute. reflexivity.
  - exists st', ok. split; [exact E|]. apply Hok. exists [82; 82; 68]. split; [reflexivity | vm_compute; reflexivity].
Defined.
