(* ===== verification/GraphMigrate.v ===== *)
(** modules/graph/rrdtool: the goroutines around the files. The one that sweeps over the shards
    of the cache, and those that carry out migration tasks, with their connections and their
    statistics. *)
From Stdlib Require Import Ascii ZArith.
From stdpp Require Import base list gmap strings numbers.
From S2P Require Import Prelude GoString GoFloat GoHash Utils Model ThirdParty GraphUtil GraphStore GraphIndex GraphApi GraphRrd.

Local Open Scope Z_scope.

(** * migrate.go: statistics *)

Record MigrateCounter := mkMigrateCounter {
  FetchSuccess : Z; FetchErr : Z; FetchNotExist : Z; SendSuccess : Z; SendErr : Z; QuerySuccess : Z; QueryErr : Z; ConnErr : Z; ConnDial : Z }.
Inductive stat := FETCH_S_SUCCESS | FETCH_S_ERR | FETCH_S_ISNOTEXIST | SEND_S_SUCCESS | SEND_S_ERR | QUERY_S_SUCCESS | QUERY_S_ERR | CONN_S_ERR | CONN_S_DIAL.
Definition no_stats : MigrateCounter := mkMigrateCounter 0 0 0 0 0 0 0 0 0.
Definition stat_cnt (c : MigrateCounter) (s : stat) : Z :=
  match s with
  | FETCH_S_SUCCESS => FetchSuccess c | FETCH_S_ERR => FetchErr c | FETCH_S_ISNOTEXIST => FetchNotExist c | SEND_S_SUCCESS => SendSuccess c
  | SEND_S_ERR => SendErr c | QUERY_S_SUCCESS => QuerySuccess c | QUERY_S_ERR => QueryErr c | CONN_S_ERR => ConnErr c | CONN_S_DIAL => ConnDial c
  end.
Definition GetCounterV2 (cnt : stat -> Z) : MigrateCounter :=
  mkMigrateCounter (cnt FETCH_S_SUCCESS) (cnt FETCH_S_ERR) (cnt FETCH_S_ISNOTEXIST) (cnt SEND_S_SUCCESS) (cnt SEND_S_ERR)
    (cnt QUERY_S_SUCCESS) (cnt QUERY_S_ERR) (cnt CONN_S_ERR) (cnt CONN_S_DIAL).
#[global] Instance stat_eq_dec : EqDecision stat.
Proof. solve_decision. Defined.
(** [atomic.AddUint64(&stat_cnt[s], 1)]. *)
Definition add_stat (s : stat) (c : MigrateCounter) : MigrateCounter :=
  GetCounterV2 (fun s' => if decide (s' = s) then u64 (stat_cnt c s' + 1) else stat_cnt c s').
Definition GetCounter (c : MigrateCounter) : string :=
  "FETCH_S_SUCCESS[" +:+ strconv_Itoa (FetchSuccess c) +:+ "] FETCH_S_ERR[" +:+ strconv_Itoa (FetchErr c) +:+ "] FETCH_S_ISNOTEXIST["
  +:+ strconv_Itoa (FetchNotExist c) +:+ "] SEND_S_SUCCESS[" +:+ strconv_Itoa (SendSuccess c) +:+ "] SEND_S_ERR[" +:+ strconv_Itoa (SendErr c)
  +:+ "] QUERY_S_SUCCESS[" +:+ strconv_Itoa (QuerySuccess c) +:+ "] QUERY_S_ERR[" +:+ strconv_Itoa (QueryErr c) +:+ "] CONN_S_ERR["
  +:+ strconv_Itoa (ConnErr c) +:+ "] CONN_S_DIAL[" +:+ strconv_Itoa (ConnDial c) +:+ "]".

(** * migrate.go: connections *)

(** What comes first: the timeout, or the end of the call with its error. The
    other node may carry the call out all the same ([carried]), also after the
    timeout. *)
Inductive call_end (V : Type) := CallTimeout (carried : bool) | CallDone (v : V) | CallError (carried : bool) | CallShutdown (carried : bool).
Arguments CallTimeout {V}.
Arguments CallDone {V}.
Arguments CallError {V}.
Arguments CallShutdown {V}.
Definition rpc_call {V : Type} (e : call_end V) : rpc_result V :=
  match e with CallDone v => RpcOk v | CallShutdown c => RpcShutdown c | CallTimeout c | CallError c => RpcErr c end.

(** Dial until it succeeds: [dial i] tells whether the [i]th time does. [None]: not within
    [fuel] times, the goroutine is still at it. *)
Fixpoint redial (fuel : nat) (dial : nat -> bool) (i : nat) (c : MigrateCounter) : option MigrateCounter :=
  match fuel with
  | O => None
  | S fuel => let c := add_stat CONN_S_DIAL c in if dial i then Some c else redial fuel dial (S i) c
  end.
Lemma redial_blocked fuel dial i c : redial fuel dial i c = None <-> forall j, (j < fuel)%nat -> dial (i + j)%nat = false.
Proof.
  revert i c. induction fuel as [|fuel IH]; intros i c; cbn [redial]; [split; [intros _ j ?; lia|done]|]. destruct (dial i) eqn:E.
  - split; [done|]. intros Hd. specialize (Hd O ltac:(lia)). rewrite Nat.add_0_r in Hd. congruence.
  - rewrite IH. split; intros Hd j Hj.
    + destruct j as [|j]; [by rewrite Nat.add_0_r|]. rewrite Nat.add_succ_r. apply Hd. lia.
    + specialize (Hd (S j) ltac:(lia)). by rewrite Nat.add_succ_r in Hd.
Qed.
Definition reconnection (fuel : nat) (dial : nat -> bool) (c : MigrateCounter) : option MigrateCounter := redial fuel dial 0 (add_stat CONN_S_ERR c).
(** The loop of three calls with their reconnections; [dials i] answers after the [i]th. *)
Fixpoint call_stats {V : Type} (n fuel : nat) (rpc : nat -> rpc_result V) (dials : nat -> nat -> bool) (i : nat) (c : MigrateCounter) : option MigrateCounter :=
  match n with
  | O => Some c
  | S n => match rpc i with
           | RpcOk _ => Some c
           | RpcErr _ => call_stats n fuel rpc dials (S i) c
           | RpcShutdown _ => c' ← reconnection fuel (dials i) c; call_stats n fuel rpc dials (S i) c'
           end
  end.

(** [migrate_start]: the channel of each node, and whether its connections could be made;
    [None]: one could not, and the process ends. *)
Record migrate_state := mkMigrateState { ring_nodes : list string; Net_task_ch : gmap string Z; clients : gmap string (list string) }.
Definition start_node (cfg : GraphConfig) (dial : string -> nat -> bool) (s : migrate_state) (node : string) : option migrate_state :=
  let addr := default "" (Migrate_Cluster cfg !! node) in
  let n := Z.to_nat (Migrate_Concurrency cfg) in
  if forallb (dial addr) (seq 0 n)
  then Some (mkMigrateState (ring_nodes s ++ [node]) (<[node := 16]> (Net_task_ch s)) (<[node := replicate n addr]> (clients s)))
  else None.
(** A negative number of connections panics. *)
Definition migrate_start (cfg : GraphConfig) (dial : string -> nat -> bool) : result (option migrate_state) :=
  let s := mkMigrateState [] ∅ ∅ in
  if negb (Migrate_Enabled cfg) then Ok (Some s)
  else if (Migrate_Concurrency cfg <? 0) && negb (bool_decide (KeysOfMap (Migrate_Cluster cfg) = [])) then Panic SizeOutOfRange
  else Ok (fold_left (fun o node => s ← o; start_node cfg dial s node) (KeysOfMap (Migrate_Cluster cfg)) (Some s)).

Lemma start_nodes cfg dial nodes s s' : fold_left (fun o node => s ← o; start_node cfg dial s node) nodes (Some s) = Some s' ->
  ring_nodes s' = ring_nodes s ++ nodes /\
  (forall n, n ∈ nodes -> Net_task_ch s' !! n = Some 16 /\ clients s' !! n = Some (replicate (Z.to_nat (Migrate_Concurrency cfg)) (default "" (Migrate_Cluster cfg !! n)))) /\
  (forall n, n ∉ nodes -> Net_task_ch s' !! n = Net_task_ch s !! n /\ clients s' !! n = clients s !! n).
Proof.
  revert s. induction nodes as [|a nodes IH]; intros s; cbn [fold_left].
  { intros [= ->]. rewrite app_nil_r. split_and!; [done| |done]. by intros n ?%not_elem_of_nil. }
  cbn [mbind option_bind]. unfold start_node at 2. destruct (forallb _ _).
  2: { intros E. exfalso. clear -E. induction nodes as [|b nodes IH]; [done|]. by apply IH. }
  intros (E1 & E2 & E3)%IH. cbn in E1, E3. split_and!.
  - by rewrite E1, <-app_assoc.
  - intros n Hn. destruct (decide (n ∈ nodes)) as [Hin|Hin]; [by apply E2|]. apply elem_of_cons in Hn as [->|?]; [|done].
    destruct (E3 a Hin) as [-> ->]. by rewrite !lookup_insert_eq.
  - intros n Hn. rewrite not_elem_of_cons in Hn. destruct Hn as [Hne Hn]. destruct (E3 n Hn) as [-> ->]. by rewrite !lookup_insert_ne.
Qed.
(** Once migration has started every node that the ring can name has its channel, and for it
    as many connections as are configured, to the address of the node. *)
Theorem migrate_started cfg dial s : migrate_start cfg dial = Ok (Some s) ->
  if Migrate_Enabled cfg
  then ring_nodes s = KeysOfMap (Migrate_Cluster cfg) /\
    (forall n, n ∈ ring_nodes s -> exists addr, Migrate_Cluster cfg !! n = Some addr /\ Net_task_ch s !! n = Some 16 /\
       clients s !! n = Some (replicate (Z.to_nat (Migrate_Concurrency cfg)) addr)) /\
    (forall n, n ∉ ring_nodes s -> Net_task_ch s !! n = None)
  else ring_nodes s = [].
Proof.
  unfold migrate_start. destruct (Migrate_Enabled cfg); cbn [negb]; [|by intros [= <-]]. destruct (_ && _); [done|].
  intros [= E]. destruct (start_nodes _ _ _ _ _ E) as (-> & E2 & E3). cbn [ring_nodes app]. split_and!; [done| |].
  - intros n Hn. destruct (E2 n Hn) as [H1 H2]. apply KeysOfMap_elem in Hn as [addr Ha]. exists addr. rewrite Ha in H2. done.
  - intros n Hn. by apply E3.
Qed.

(** * migrate.go: the workers *)

Section Workers.
Context `{LimitedList, NMap, MapRange} {D DB : Type} `{!Disk D, !RrdLib D} (cfg : GraphConfig).
Implicit Types (st : GraphState D DB) (c : MigrateCounter).

(** [Net_task_t] with one of the three methods, or with another. *)
Inductive migrate_task := Net (t : net_task) | NetQuery | NetOther.
(** The answers while one task is carried out. *)
Record task_env := mkTaskEnv {
  te_send : nat -> rpc_result unit; te_rrd : nat -> rpc_result (list Z); te_query : nat -> rpc_result (list RRDData);
  te_dials : nat -> nat -> bool; te_fuel : nat; te_busy : bool; te_notexist : bool; te_now : Z }.

Definition has_flag (key : string) st : result bool :=
  let! flag := GraphItemMap_GetFlag (GraphItems st) key in Ok (bool_decide (is_Some flag)).
(** [send_data] calls only when there are points. *)
Definition send_called (key : string) st : result bool :=
  let! flag := has_flag key st in
  if flag : bool then let! (_, items) := GraphItemMap_PopAll (GraphItems st) key in Ok (negb (bool_decide (items = []))) else Ok false.
Definition after_calls {V : Type} (env : task_env) (made : bool) (rpc : nat -> rpc_result V) c : option MigrateCounter :=
  if made then call_stats 3 (te_fuel env) rpc (te_dials env) 0 c else Some c.
(** One task of [net_task_worker] with its statistics; [None]: the worker waits for a
    connection. The last component tells whether there was no error. *)
Definition send_counted (env : task_env) (key : string) st c : result (option (GraphState D DB * MigrateCounter * bool)) :=
  let! made := send_called key st in
  let! (st, _, ok) := send_data (te_send env) key st in
  Ok (c ← after_calls env made (te_send env) c; Some (st, add_stat (if ok : bool then SEND_S_SUCCESS else SEND_S_ERR) c, ok)).
Definition handle_task (env : task_env) (task : migrate_task) st c : result (option (GraphState D DB * MigrateCounter * bool)) :=
  match task with
  | Net (TaskSend key) => send_counted env key st c
  | Net (TaskPull key) =>
      if te_busy env then send_counted env key st c
      else
        let! made := has_flag key st in
        let! (st', ok) := fetch_rrd cfg (te_rrd env) key st in
        let written := match rpc_attempts 3 (te_rrd env) 0 with Some _ => made | None => false end in
        let! (st', s) :=
          (if ok : bool then Ok (st', FETCH_S_SUCCESS)
           else if written && te_notexist env then
             let! st' := SetFlag_ key 0 st' in let! st' := CommitByKey cfg (te_now env) key st' in Ok (st', FETCH_S_ISNOTEXIST)
           else Ok (st', FETCH_S_ERR)) in
        Ok (c ← after_calls env made (te_rrd env) c; Some (st', add_stat s c, ok))
  | NetQuery =>
      let ok := match query_data (te_query env) with Some _ => true | None => false end in
      Ok (c ← after_calls env true (te_query env) c; Some (st, add_stat (if ok then QUERY_S_SUCCESS else QUERY_S_ERR) c, ok))
  | NetOther => Ok (Some (st, c, false))
  end.
Fixpoint handle_tasks (tasks : list (task_env * migrate_task)) st c : result (option (GraphState D DB * MigrateCounter)) :=
  match tasks with
  | [] => Ok (Some (st, c))
  | (env, t) :: tasks =>
      let! r := handle_task env t st c in
      match r with Some (st, c, _) => handle_tasks tasks st c | None => Ok None end
  end.

Definition outcomes c : Z := FetchSuccess c + FetchErr c + FetchNotExist c + SendSuccess c + SendErr c + QuerySuccess c + QueryErr c.
Definition counters_nonneg c : Prop := forall s, 0 <= stat_cnt c s.
Definition is_outcome (s : stat) : bool := match s with CONN_S_ERR | CONN_S_DIAL => false | _ => true end.
Lemma add_stat_cnt s c s' : stat_cnt (add_stat s c) s' = if decide (s' = s) then u64 (stat_cnt c s' + 1) else stat_cnt c s'.
Proof using Type. by destruct s'. Qed.
Lemma u64_nonneg z : 0 <= u64 z.
Proof using Type. unfold u64. apply Z.mod_pos_bound. lia. Qed.
Lemma add_stat_nonneg s c : counters_nonneg c -> counters_nonneg (add_stat s c).
Proof using Type. intros Hc s'. rewrite add_stat_cnt. destruct (decide _); [apply u64_nonneg|apply Hc]. Qed.
Lemma add_stat_outcomes s c : counters_nonneg c -> outcomes c + 1 < 2 ^ 64 -> outcomes (add_stat s c) = outcomes c + if is_outcome s then 1 else 0.
Proof using Type.
  intros Hc Hlt.
  assert (Hu : forall z, 0 <= z < 2 ^ 64 -> u64 z = z) by (intros z Hz; unfold u64; by apply Z.mod_small).
  pose proof (Hc FETCH_S_SUCCESS); pose proof (Hc FETCH_S_ERR); pose proof (Hc FETCH_S_ISNOTEXIST); pose proof (Hc SEND_S_SUCCESS);
    pose proof (Hc SEND_S_ERR); pose proof (Hc QUERY_S_SUCCESS); pose proof (Hc QUERY_S_ERR).
  unfold outcomes in *. cbn [stat_cnt] in *. destruct s; cbn [add_stat GetCounterV2 stat_cnt FetchSuccess FetchErr FetchNotExist SendSuccess SendErr QuerySuccess QueryErr is_outcome];
    repeat first [rewrite decide_True by done | rewrite decide_False by done]; rewrite ?Hu by lia; lia.
Qed.
Definition only_conn c c' : Prop := counters_nonneg c -> counters_nonneg c' /\ outcomes c' = outcomes c.
Lemma conn_stat s c : is_outcome s = false -> only_conn c (add_stat s c).
Proof using Type. intros Hs Hc. split; [by apply add_stat_nonneg|]. by destruct s. Qed.
Lemma redial_conn fuel dial i c c' : redial fuel dial i c = Some c' -> only_conn c c'.
Proof using Type.
  revert i c. induction fuel as [|fuel IH]; intros i c; [done|]. cbn [redial]. pose proof (conn_stat CONN_S_DIAL c eq_refl) as Hd.
  destruct (dial i); [by intros [= <-]|]. intros Hr%IH Hc. destruct (Hd Hc) as [Hn E]. destruct (Hr Hn) as [? ?]. split; [done|lia].
Qed.
Lemma call_stats_conn {V : Type} n fuel (rpc : nat -> rpc_result V) dials i c c' : call_stats n fuel rpc dials i c = Some c' -> only_conn c c'.
Proof using Type.
  revert i c. induction n as [|n IH]; intros i c; cbn [call_stats]; [by intros [= ->]|]. destruct (rpc i); [by intros [= ->]|apply IH|].
  unfold reconnection. destruct (redial _ _ _ _) as [c1|] eqn:E; cbn; [|done]. intros Hr%IH Hc. destruct (conn_stat CONN_S_ERR c eq_refl Hc) as [Hn1 E1].
  destruct (redial_conn _ _ _ _ _ E Hn1) as [Hn2 E2]. destruct (Hr Hn2) as [? ?]. split; [done|lia].
Qed.
Lemma after_calls_conn {V : Type} env made (rpc : nat -> rpc_result V) c c' : after_calls env made rpc c = Some c' -> only_conn c c'.
Proof using Type. unfold after_calls. destruct made; [apply call_stats_conn|by intros [= ->]]. Qed.

Definition counted (t : migrate_task) : Z := match t with NetOther => 0 | _ => 1 end.
Lemma counted_after c c1 s : only_conn c c1 -> is_outcome s = true -> counters_nonneg c -> outcomes c + 1 < 2 ^ 64 ->
  counters_nonneg (add_stat s c1) /\ outcomes (add_stat s c1) = outcomes c + 1.
Proof using Type. intros Ho Hs Hc Hlt. destruct (Ho Hc) as [Hn E]. split; [by apply add_stat_nonneg|]. rewrite add_stat_outcomes, Hs by (done || lia). lia. Qed.
Lemma handle_counted env t st c st' c' ok : handle_task env t st c = Ok (Some (st', c', ok)) -> counters_nonneg c -> outcomes c + 1 < 2 ^ 64 ->
  counters_nonneg c' /\ outcomes c' = outcomes c + counted t.
Proof using Type.
  intros E Hc Hlt.
  assert (Hsend : forall key, send_counted env key st c = Ok (Some (st', c', ok)) -> counters_nonneg c' /\ outcomes c' = outcomes c + 1).
  { intros key E1. unfold send_counted in E1. destruct (send_called key st) as [made|]; [|done]. cbn [rbind] in E1.
    destruct (send_data _ key st) as [[[st1 sent] ok1]|]; [|done]. cbn [rbind] in E1. destruct (after_calls _ _ _ _) as [c1|] eqn:Ea; cbn in E1; [|done].
    injection E1 as <- <- <-. eapply counted_after; [by eapply after_calls_conn|by destruct ok1|done|done]. }
  destruct t as [[key|key]| |]; cbn [handle_task] in E.
  - by apply (Hsend key).
  - destruct (te_busy env); [by apply (Hsend key)|]. destruct (has_flag key st) as [made|]; [|done]. cbn [rbind] in E.
    destruct (fetch_rrd _ _ key st) as [[st1 ok1]|]; [|done]. cbn [rbind] in E.
    destruct (if ok1 then _ else _) as [[st2 s]|] eqn:Es; [|done]. cbn [rbind] in E. destruct (after_calls _ _ _ _) as [c1|] eqn:Ea; cbn in E; [|done].
    injection E as <- <- <-. eapply counted_after; [by eapply after_calls_conn| |done|done].
    destruct ok1; [by injection Es as <- <-|]. destruct (_ && _); [|by injection Es as <- <-]. by inv_ok.
  - destruct (after_calls _ _ _ _) as [c1|] eqn:Ea; cbn in E; [|done]. injection E as <- <- <-. eapply counted_after; [by eapply after_calls_conn|repeat case_match; done|done|done].
  - simplify_eq. cbn. split; [done|lia].
Qed.
(** The statistics count every task that was carried out exactly once. *)
Theorem tasks_counted tasks st c st' c' : handle_tasks tasks st c = Ok (Some (st', c')) -> counters_nonneg c -> outcomes c + Z.of_nat (length tasks) < 2 ^ 64 ->
  counters_nonneg c' /\ outcomes c' = outcomes c + foldr Z.add 0 (map (fun t => counted (snd t)) tasks).
Proof using Type.
  revert st c. induction tasks as [|[env t] tasks IH]; intros st c; cbn [handle_tasks].
  { intros [= <- <-] Hc _. cbn. split; [done|lia]. }
  intros E Hc Hlt. destruct (handle_task env t st c) as [[[[st1 c1] ok]|]|] eqn:E1; cbn [rbind] in E; [|done|done].
  destruct (handle_counted env t st c st1 c1 ok E1 Hc) as [Hn Eo]; [cbn [length] in Hlt; lia|].
  destruct (IH st1 c1 E Hn) as [Hn' Eo']; [cbn [length] in Hlt; destruct t as [?| |]; cbn in Eo; lia|]. split; [done|]. cbn. rewrite Eo', Eo. lia.
Qed.

(** * sync_disk.go *)

(** One tick of [syncDisk]: the next shard, after the last one the first again. *)
Definition syncDisk_tick (ring : string -> option string) (s : Z * (GraphState D DB * list (string * string))) (now : Z)
    : result (Z * (GraphState D DB * list (string * string))) :=
  let '(idx, s) := s in
  let! idx := go_rem idx (Size (GraphItems (fst s))) in
  let! s := FlushRRD cfg ring now idx false s in
  Ok (idx + 1, s).
Definition syncDisk (ring : string -> option string) (ticks : list Z) (s : Z * (GraphState D DB * list (string * string))) :=
  rfold (syncDisk_tick ring) s ticks.

Lemma PopAll_Size m key m' items : GraphItemMap_PopAll m key = Ok (m', items) -> Size m' = Size m.
Proof using Type.
  unfold GraphItemMap_PopAll. destruct (bucket m key) as [[idx b]|]; [|done]. cbn [rbind]. destruct (b !! key) as [sl|]; [|by intros [= <- _]].
  destruct (SafeLinkedList_PopAll sl) as [[sl' ret]|]; [|done]. cbn [rbind]. by intros [= <- _].
Qed.
Lemma CommitByKey_Size now key st st' : CommitByKey cfg now key st = Ok st' -> Size (GraphItems st') = Size (GraphItems st).
Proof using Type.
  unfold CommitByKey. destruct (SplitRrdCacheKey key) as [[[md5 dsType] step] ok]. destruct ok; cbn [negb]; [|by intros [= <-]].
  destruct (RrdFileName _ _ _ _) as [f|]; [|done]. cbn [rbind]. destruct (GraphItemMap_PopAll _ key) as [[m items]|] eqn:E; [|done]. cbn [rbind].
  apply PopAll_Size in E. destruct items; [by intros [= <-]|]. unfold FlushFile. destruct (io_channel cfg md5); [|done]. cbn [rbind].
  destruct (flushrrd _ _ _ _) as [d ok]. cbn [rbind]. by intros [= <-].
Qed.
Lemma FlushRRD_Size ring now idx force (s s' : GraphState D DB * list (string * string)) : FlushRRD cfg ring now idx force s = Ok s' -> Size (GraphItems (fst s')) = Size (GraphItems (fst s)).
Proof using Type.
  unfold FlushRRD. destruct (GraphItemMap_KeysByIndex _ idx) as [keys|]; [|done]. cbn [rbind]. intros E.
  eapply (rfold_invariant (fun s' => Size (GraphItems (fst s')) = Size (GraphItems (fst s)))); [|done|exact E].
  intros [st tasks] key s1 _ Hs E1. rewrite <-Hs. cbn [fst]. unfold FlushRRD_key in E1. destruct (GraphItemMap_GetFlag _ key) as [flag|]; [|done]. cbn [rbind] in E1.
  destruct (_ && _).
  - unfold PullByKey in E1. destruct (GraphItemMap_First _ key) as [[item|]|]; [|by injection E1 as <-|done]. cbn [rbind] in E1. destruct (ring _); by injection E1 as <-.
  - destruct (if force then _ else _) as [fl|]; [|done]. cbn [rbind] in E1. destruct fl; [|by injection E1 as <-].
    destruct (CommitByKey cfg now key st) as [st1|] eqn:Ec; [|done]. cbn [rbind] in E1. injection E1 as <-. by eapply CommitByKey_Size.
Qed.
Lemma sync_from ring n i ticks (s : GraphState D DB * list (string * string)) : Size (GraphItems (fst s)) = n -> 0 < n -> 0 <= i -> i + Z.of_nat (length ticks) <= n ->
  syncDisk ring ticks (i, s) = let! s' := rfold (fun s '(j, now) => FlushRRD cfg ring now j false s) s (zip (seqZ i (Z.of_nat (length ticks))) ticks) in
    Ok (i + Z.of_nat (length ticks), s').
Proof using Type.
  intros Hn Hpos. unfold syncDisk. revert i s Hn. induction ticks as [|now ticks IH]; intros i s Hn Hi Hle; [cbn; by rewrite Z.add_0_r|].
  cbn [length] in *. rewrite seqZ_cons by lia. cbn [rfold zip]. unfold syncDisk_tick at 1, go_rem. rewrite Hn. destruct (Z.eqb_spec n 0); [lia|]. cbn [rbind].
  rewrite Z.rem_small by lia. destruct (FlushRRD cfg ring now i false s) as [s1|] eqn:E; [|done]. cbn [rbind].
  rewrite IH by (lia || (apply FlushRRD_Size in E; congruence)). replace (Z.pred (Z.of_nat (S (length ticks)))) with (Z.of_nat (length ticks)) by lia.
  replace (Z.succ i) with (i + 1) by lia. by replace (i + Z.of_nat (S (length ticks))) with (i + 1 + Z.of_nat (length ticks)) by lia.
Qed.
(** As many ticks as there are shards flush each shard once, from the first to the last,
    whether the sweep is the first or follows another. *)
Theorem syncDisk_sweep ring ticks (s : GraphState D DB * list (string * string)) i : let n := Size (GraphItems (fst s)) in
  0 < n -> Z.of_nat (length ticks) = n -> i = 0 \/ i = n ->
  syncDisk ring ticks (i, s) = let! s' := rfold (fun s '(j, now) => FlushRRD cfg ring now j false s) s (zip (seqZ 0 n) ticks) in Ok (n, s').
Proof using Type.
  intros n Hpos Hl Hi. assert (syncDisk ring ticks (i, s) = syncDisk ring ticks (0, s)) as ->.
  { destruct ticks as [|now ticks]; [cbn in Hl; lia|]. unfold syncDisk. cbn [rfold]. unfold syncDisk_tick at 1 3, go_rem. fold n. destruct (Z.eqb_spec n 0); [lia|]. cbn [rbind].
    destruct Hi as [->| ->]; [done|]. rewrite Z.rem_same by lia. by rewrite Z.rem_0_l by lia. }
  rewrite (sync_from ring n) by (done || lia). by rewrite Hl.
Qed.
End Workers.

(** A node that is told to migrate with no connection takes no task from its channel: a query
    for a series that has not moved yet waits for ever. *)
Definition migrate_cfg (conns : Z) : GraphConfig := mkGraphConfig "./data/6070" 64 0 true conns 500 {["graph-00" := "10.0.0.1:6070"; "graph-01" := "10.0.0.2:6070"]}.
Example no_connections : match migrate_start (migrate_cfg 0) (fun _ _ => true) with
  | Ok (Some s) => Net_task_ch s !! "graph-00" = Some 16 /\ clients s !! "graph-00" = Some []
  | _ => False end.
Proof. by vm_compute. Qed.
Example stats_text : GetCounter (add_stat SEND_S_ERR (add_stat FETCH_S_SUCCESS no_stats)) =
  "FETCH_S_SUCCESS[1] FETCH_S_ERR[0] FETCH_S_ISNOTEXIST[0] SEND_S_SUCCESS[0] SEND_S_ERR[1] QUERY_S_SUCCESS[0] QUERY_S_ERR[0] CONN_S_ERR[0] CONN_S_DIAL[0]".
Proof. by vm_compute. Qed.
