(* ===== verification/TransferCfg.v ===== *)
(** modules/transfer/g: the constants and the configuration of the transfer
    service, and common/backend_pool: the pools of RPC connections it calls
    through. *)
From Stdlib Require Import Ascii ZArith.
From stdpp Require Import base list gmap strings numbers.
From S2P Require Import Prelude GoString GoFloat GoText GoHash Utils Model ThirdParty.

Local Open Scope Z_scope.

(** * g.go *)

Definition GAUGE : string := "GAUGE".
Definition COUNTER : string := "COUNTER".
Definition DERIVE : string := "DERIVE".
Definition DEFAULT_STEP : Z := 60.

(** * cfg.go *)

Record ClusterNode := mkClusterNode { Addrs : list string }.
Definition NewClusterNode (addrs : list string) : ClusterNode := mkClusterNode addrs.

Record JudgeConfig := mkJudgeConfig {
  Judge_Enabled : bool;
  Judge_Batch : Z;
  Judge_ConnTimeout : Z;
  Judge_CallTimeout : Z;
  Judge_MaxConns : Z;
  Judge_MaxIdle : Z;
  Judge_Replicas : Z;
  Judge_Cluster : gmap string string;
  Judge_ClusterList : gmap string ClusterNode }.

Record GraphConfig := mkGraphConfig {
  Graph_Enabled : bool;
  Graph_Batch : Z;
  Graph_ConnTimeout : Z;
  Graph_CallTimeout : Z;
  Graph_MaxConns : Z;
  Graph_MaxIdle : Z;
  Graph_Replicas : Z;
  Graph_Cluster : gmap string string;
  Graph_ClusterList : gmap string ClusterNode }.

Record TsdbConfig := mkTsdbConfig {
  Tsdb_Enabled : bool;
  Tsdb_Batch : Z;
  Tsdb_ConnTimeout : Z;
  Tsdb_CallTimeout : Z;
  Tsdb_MaxConns : Z;
  Tsdb_MaxIdle : Z;
  Tsdb_MaxRetry : Z;
  Tsdb_Address : string }.

Record TransferConfig := mkTransferConfig {
  Transfer_Enabled : bool;
  Transfer_Batch : Z;
  Transfer_ConnTimeout : Z;
  Transfer_CallTimeout : Z;
  Transfer_MaxConns : Z;
  Transfer_MaxIdle : Z;
  Transfer_MaxRetry : Z;
  Transfer_Cluster : gmap string string }.

Record InfluxdbConfig := mkInfluxdbConfig {
  Influxdb_Enabled : bool;
  Influxdb_Batch : Z;
  Influxdb_MaxRetry : Z;
  Influxdb_MaxConns : Z;
  Influxdb_Timeout : Z;
  Influxdb_Address : string;
  Influxdb_Database : string;
  Influxdb_Username : string;
  Influxdb_Password : string;
  Influxdb_Precision : string }.

Record P8sRelayConfig := mkP8sRelayConfig {
  P8sRelay_Enabled : bool;
  P8sRelay_Batch : Z;
  P8sRelay_ConnTimeout : Z;
  P8sRelay_CallTimeout : Z;
  P8sRelay_MaxConns : Z;
  P8sRelay_MaxIdle : Z;
  P8sRelay_Replicas : Z;
  P8sRelay_NotSyncMetrics : list string;
  P8sRelay_Cluster : gmap string string;
  P8sRelay_ClusterList : gmap string ClusterNode }.

(** The sections the modelled code reads; the listening addresses are left out. *)
Record GlobalConfig := mkGlobalConfig {
  MinStep_ : Z;
  Judge : JudgeConfig;
  Graph : GraphConfig;
  Tsdb : TsdbConfig;
  Transfer : TransferConfig;
  Influxdb : InfluxdbConfig;
  P8sRelay : P8sRelayConfig }.

(** map["node"]="host1,host2" --> map["node"]=["host1", "host2"] *)
Definition formatClusterItems `{MapRange} (cluster : gmap string string) : gmap string ClusterNode :=
  fold_left (fun (ret : gmap string ClusterNode) '(node, clusterStr) =>
    let items := strings_Split clusterStr "," in
    let nitems := fold_left (fun nitems item => nitems ++ [strings_TrimSpace item]) items [] in
    <[node := NewClusterNode nitems]> ret) (range_pairs cluster) ∅.

(** What [ParseConfig] does with the configuration it decoded. *)
Definition ParseConfig `{MapRange} (c : GlobalConfig) : GlobalConfig :=
  let j := Judge c in let g := Graph c in let p := P8sRelay c in
  mkGlobalConfig (MinStep_ c)
    (mkJudgeConfig (Judge_Enabled j) (Judge_Batch j) (Judge_ConnTimeout j) (Judge_CallTimeout j)
      (Judge_MaxConns j) (Judge_MaxIdle j) (Judge_Replicas j) (Judge_Cluster j)
      (formatClusterItems (Judge_Cluster j)))
    (mkGraphConfig (Graph_Enabled g) (Graph_Batch g) (Graph_ConnTimeout g) (Graph_CallTimeout g)
      (Graph_MaxConns g) (Graph_MaxIdle g) (Graph_Replicas g) (Graph_Cluster g)
      (formatClusterItems (Graph_Cluster g)))
    (Tsdb c) (Transfer c) (Influxdb c)
    (mkP8sRelayConfig (P8sRelay_Enabled p) (P8sRelay_Batch p) (P8sRelay_ConnTimeout p) (P8sRelay_CallTimeout p)
      (P8sRelay_MaxConns p) (P8sRelay_MaxIdle p) (P8sRelay_Replicas p) (P8sRelay_NotSyncMetrics p)
      (P8sRelay_Cluster p) (formatClusterItems (P8sRelay_Cluster p))).

(** * common/backend_pool/rpc_backends.go *)

(** The pools by address. A pool itself (toolkits/conn_pool) is seen only
    through what [Call] does with it. *)
Record SafeRpcConnPools := mkSafeRpcConnPools {
  M : gset string;
  MaxConns : Z;
  MaxIdle : Z;
  ConnTimeout : Z;
  CallTimeout : Z }.

Definition CreateSafeRpcConnPools (maxConns maxIdle connTimeout callTimeout : Z) (cluster : list string)
    : SafeRpcConnPools :=
  mkSafeRpcConnPools
    (fold_left (fun (m : gset string) address => if decide (address ∈ m) then m else {[address]} ∪ m) cluster ∅)
    maxConns maxIdle connTimeout callTimeout.

Definition SafeRpcConnPools_Get (this : SafeRpcConnPools) (address : string) : bool :=
  bool_decide (address ∈ M this).

Definition SafeRpcConnPools_Destroy (this : SafeRpcConnPools) : SafeRpcConnPools :=
  mkSafeRpcConnPools
    (fold_left (fun (m : gset string) address => m ∖ {[address]}) (elements (M this)) (M this))
    (MaxConns this) (MaxIdle this) (ConnTimeout this) (CallTimeout this).

(** What the network does with one call: no connection to be had, no answer in
    time, an error, or a reply. *)
Inductive call_outcome := NoConn | TimedOut | CallFailed | Replied.

(** What [Call] does with the pool of an address. *)
Inductive pool_event := Fetch (addr : string) | ForceClose (addr : string) | Release (addr : string).

(** The uses of the pool and whether the call succeeded. *)
Definition SafeRpcConnPools_Call (this : SafeRpcConnPools) (addr : string) (o : call_outcome)
    : list pool_event * bool :=
  if negb (SafeRpcConnPools_Get this addr) then ([], false)
  else match o with
  | NoConn => ([], false)
  | TimedOut => ([Fetch addr; ForceClose addr], false)
  | CallFailed => ([Fetch addr; ForceClose addr], false)
  | Replied => ([Fetch addr; Release addr], true)
  end.

(** * Lemmas *)

Lemma fold_append_map {A B : Type} (f : A -> B) (l : list A) acc :
  fold_left (fun acc x => acc ++ [f x]) l acc = acc ++ map f l.
Proof. revert acc; induction l as [|x l IH]; intros acc; simpl; [by rewrite app_nil_r|]. rewrite IH, <- app_assoc. done. Qed.

(** The addresses of a node: the trimmed parts of its text. *)
Definition node_addrs (clusterStr : string) : list string := map strings_TrimSpace (strings_Split clusterStr ",").

Lemma formatClusterItems_lookup `{MapRange} (cluster : gmap string string) node :
  formatClusterItems cluster !! node = (fun s => mkClusterNode (node_addrs s)) <$> cluster !! node.
Proof.
  unfold formatClusterItems.
  rewrite (fold_range_lookup (fun s => NewClusterNode (fold_left (fun nitems item => nitems ++ [strings_TrimSpace item])
    (strings_Split s ",") []))).
  destruct (cluster !! node); [|done]. simpl. unfold NewClusterNode. by rewrite fold_append_map.
Qed.

Lemma CreateSafeRpcConnPools_M maxConns maxIdle ct ca cluster addr :
  addr ∈ M (CreateSafeRpcConnPools maxConns maxIdle ct ca cluster) <-> addr ∈ cluster.
Proof.
  simpl. transitivity (addr ∈ cluster \/ addr ∈ (∅ : gset string)); [|set_solver].
  generalize (∅ : gset string) as m. induction cluster as [|a l IH]; intros m; simpl; [set_solver|].
  rewrite IH. case_decide; set_solver.
Qed.
