(* ===== verification/TransferSender.v ===== *)
(** modules/transfer/sender: conversion of received points for each sink, the
    bounded send queues, and the tasks that send batches from them. *)
From Stdlib Require Import Ascii ZArith.
From stdpp Require Import base list gmap strings numbers.
From S2P Require Import Prelude GoString GoFloat GoText GoHash Utils Model ThirdParty TransferCfg.

Local Open Scope Z_scope.

Definition DefaultSendQueueMaxSize : Z := 102400.

(** * The state of the package *)

Section State.
Context `{LimitedList, NodeRing}.

(** The variables of sender.go and the counters of proc.go, by name. A queue
    that was not created is nil. *)
Record TransferState := mkTransferState {
  MinStep : Z;
  JudgeNodeRing : ConsistentHashNodeRing;
  GraphNodeRing : ConsistentHashNodeRing;
  P8sRelayNodeRing : ConsistentHashNodeRing;
  JudgeQueues : gmap string (SafeListLimited JudgeItem);
  GraphQueues : gmap string (SafeListLimited GraphItem);
  P8sRelayQueues : gmap string (SafeListLimited P8sItem);
  TsdbQueue : option (SafeListLimited TsdbItem);
  TransferQueue : option (SafeListLimited MetaData);
  InfluxdbQueue : option (SafeListLimited InfluxdbItem);
  proc : gmap string Z }.

Implicit Types st : TransferState.

Definition set_JudgeQueues q st : TransferState :=
  mkTransferState (MinStep st) (JudgeNodeRing st) (GraphNodeRing st) (P8sRelayNodeRing st) q (GraphQueues st)
    (P8sRelayQueues st) (TsdbQueue st) (TransferQueue st) (InfluxdbQueue st) (proc st).
Definition set_GraphQueues q st : TransferState :=
  mkTransferState (MinStep st) (JudgeNodeRing st) (GraphNodeRing st) (P8sRelayNodeRing st) (JudgeQueues st) q
    (P8sRelayQueues st) (TsdbQueue st) (TransferQueue st) (InfluxdbQueue st) (proc st).
Definition set_P8sRelayQueues q st : TransferState :=
  mkTransferState (MinStep st) (JudgeNodeRing st) (GraphNodeRing st) (P8sRelayNodeRing st) (JudgeQueues st)
    (GraphQueues st) q (TsdbQueue st) (TransferQueue st) (InfluxdbQueue st) (proc st).
Definition set_TsdbQueue q st : TransferState :=
  mkTransferState (MinStep st) (JudgeNodeRing st) (GraphNodeRing st) (P8sRelayNodeRing st) (JudgeQueues st)
    (GraphQueues st) (P8sRelayQueues st) q (TransferQueue st) (InfluxdbQueue st) (proc st).
Definition set_TransferQueue q st : TransferState :=
  mkTransferState (MinStep st) (JudgeNodeRing st) (GraphNodeRing st) (P8sRelayNodeRing st) (JudgeQueues st)
    (GraphQueues st) (P8sRelayQueues st) (TsdbQueue st) q (InfluxdbQueue st) (proc st).
Definition set_InfluxdbQueue q st : TransferState :=
  mkTransferState (MinStep st) (JudgeNodeRing st) (GraphNodeRing st) (P8sRelayNodeRing st) (JudgeQueues st)
    (GraphQueues st) (P8sRelayQueues st) (TsdbQueue st) (TransferQueue st) q (proc st).
Definition set_proc p st : TransferState :=
  mkTransferState (MinStep st) (JudgeNodeRing st) (GraphNodeRing st) (P8sRelayNodeRing st) (JudgeQueues st)
    (GraphQueues st) (P8sRelayQueues st) (TsdbQueue st) (TransferQueue st) (InfluxdbQueue st) p.

Definition cnt st (name : string) : Z := default 0 (proc st !! name).
(** [proc.<name>.IncrBy(n)]. *)
Definition IncrBy (name : string) (n : Z) st : TransferState :=
  set_proc (<[name := cnt st name + n]> (proc st)) st.

(** [Q := m[key]; Q.PushFront(v)]. *)
Definition map_push {V : Type} (m : gmap string (SafeListLimited V)) (key : string) (v : V)
    : result (gmap string (SafeListLimited V) * bool) :=
  match m !! key with
  | None => Panic NilDereference
  | Some Q => let '(Q, ok) := SL_PushFront v Q in Ok (<[key := Q]> m, ok)
  end.
Definition ptr_push {V : Type} (q : option (SafeListLimited V)) (v : V)
    : result (option (SafeListLimited V) * bool) :=
  match q with
  | None => Panic NilDereference
  | Some Q => let '(Q, ok) := SL_PushFront v Q in Ok (Some Q, ok)
  end.

(** * sender.go: conversions *)

Definition alignTs (ts period : Z) : result Z :=
  let! r := go_rem ts period in Ok (i64 (ts - r)).

(** [step := int(d.Step); if step < MinStep { step = MinStep }]. *)
Definition at_least (MinStep step : Z) : Z := if step <? MinStep then MinStep else step.

(** [None] is the error of an unsupported type. *)
Definition convert2P8sRelayItem (MinStep : Z) (d : MetaData) : result (option P8sItem) :=
  let step := at_least MinStep (MetaData_Step d) in
  let value := fst (strconv_ParseFloat (f64_format 3 (MetaData_Value d))) in
  let fill ty :=
    let! ts := alignTs (MetaData_Timestamp d) step in
    Ok (Some (mkP8sItem (MetaData_Endpoint d) (MetaData_Metric d) (MetaData_Tags d) value ts ty step)) in
  if bool_decide (MetaData_CounterType d = GAUGE) then fill GAUGE
  else if bool_decide (MetaData_CounterType d = COUNTER) then fill COUNTER
  else Ok None.

Definition convert2GraphItem (MinStep : Z) (d : MetaData) : result (option GraphItem) :=
  let step := at_least MinStep (MetaData_Step d) in
  let heartbeat := i64 (step * 2) in
  let fill dsType min max :=
    let! ts := alignTs (MetaData_Timestamp d) step in
    Ok (Some (mkGraphItem (MetaData_Endpoint d) (MetaData_Metric d) (MetaData_Tags d) (MetaData_Value d) ts
      dsType step heartbeat min max)) in
  if bool_decide (MetaData_CounterType d = GAUGE) then fill (MetaData_CounterType d) "U" "U"
  else if bool_decide (MetaData_CounterType d = COUNTER) then fill DERIVE "0" "U"
  else if bool_decide (MetaData_CounterType d = DERIVE) then fill DERIVE "0" "U"
  else Ok None.

Definition convert2TsdbItem (d : MetaData) : TsdbItem :=
  mkTsdbItem (MetaData_Metric d) (<["endpoint" := MetaData_Endpoint d]> (MetaData_Tags d))
    (MetaData_Value d) (MetaData_Timestamp d).

Definition convert2InfluxdbItem (d : MetaData) : InfluxdbItem :=
  mkInfluxdbItem (MetaData_Metric d) (<["endpoint" := MetaData_Endpoint d]> (MetaData_Tags d))
    {["value" := MetaData_Value d]} (MetaData_Timestamp d).

(** send_tasks.go *)
Definition convert (v : MetaData) : MetricValue :=
  mkMetricValue (MetaData_Endpoint v) (MetaData_Metric v) (VFloat64 (MetaData_Value v)) (MetaData_Step v)
    (MetaData_CounterType v) (SortedTags (MetaData_Tags v)) (MetaData_Timestamp v).

(** * sender.go: queueing *)

Definition judge_item (MinStep : Z) (item : MetaData) : result JudgeItem :=
  let! ts := alignTs (MetaData_Timestamp item) (at_least MinStep (MetaData_Step item)) in
  Ok (mkJudgeItem (MetaData_Endpoint item) (MetaData_Metric item) (MetaData_Value item) ts
    (MetaData_CounterType item) (MetaData_Tags item)).

Definition Push2JudgeSendQueue_one st (item : MetaData) : result TransferState :=
  let pk := MetaData_PK item in
  match GetNode (JudgeNodeRing st) pk with
  | None => Ok st
  | Some node =>
      let! judgeItem := judge_item (MinStep st) item in
      let! (qs, isSuccess) := map_push (JudgeQueues st) node judgeItem in
      let st := set_JudgeQueues qs st in
      Ok (if isSuccess then st else IncrBy "SendToJudgeDropCnt" 1 st)
  end.
Definition Push2JudgeSendQueue (items : list MetaData) st : result TransferState :=
  rfold Push2JudgeSendQueue_one st items.

(** [for _, addr := range cnode.Addrs]: the queues and the number of refusals. *)
Definition push_addrs {V : Type} (node : string) (v : V) (addrs : list string) (qs : gmap string (SafeListLimited V))
    : result (gmap string (SafeListLimited V) * Z) :=
  rfold (fun '(qs, errCnt) addr =>
    let! (qs, ok) := map_push qs (node +:+ addr) v in
    Ok (qs, if ok then errCnt else errCnt + 1)) (qs, 0) addrs.

Definition Push2P8sRelaySendQueue_one (cfg : GlobalConfig) st (item : MetaData) : result TransferState :=
  if existsb (strings_HasPrefix (MetaData_Metric item)) (P8sRelay_NotSyncMetrics (P8sRelay cfg)) then Ok st
  else
    let! p8sItem := convert2P8sRelayItem (MinStep st) item in
    match p8sItem with
    | None => Ok st
    | Some p8sItem =>
        let pk := MetaData_PK item in
        match GetNode (P8sRelayNodeRing st) pk with
        | None => Ok st
        | Some node =>
            match P8sRelay_ClusterList (P8sRelay cfg) !! node with
            | None => Panic NilDereference
            | Some cnode =>
                let! (qs, errCnt) := push_addrs node p8sItem (Addrs cnode) (P8sRelayQueues st) in
                let st := set_P8sRelayQueues qs st in
                Ok (if 0 <? errCnt then IncrBy "SendToP8sRelayDropCnt" 1 st else st)
            end
        end
    end.
Definition Push2P8sRelaySendQueue (cfg : GlobalConfig) (items : list MetaData) st : result TransferState :=
  rfold (Push2P8sRelaySendQueue_one cfg) st items.

Definition Push2GraphSendQueue_one (cfg : GlobalConfig) st (item : MetaData) : result TransferState :=
  let! graphItem := convert2GraphItem (MinStep st) item in
  match graphItem with
  | None => Ok st
  | Some graphItem =>
      let pk := MetaData_PK item in
      match GetNode (GraphNodeRing st) pk with
      | None => Ok st
      | Some node =>
          match Graph_ClusterList (Graph cfg) !! node with
          | None => Panic NilDereference
          | Some cnode =>
              let! (qs, errCnt) := push_addrs node graphItem (Addrs cnode) (GraphQueues st) in
              let st := set_GraphQueues qs st in
              Ok (if 0 <? errCnt then IncrBy "SendToGraphDropCnt" 1 st else st)
          end
      end
  end.
Definition Push2GraphSendQueue (cfg : GlobalConfig) (items : list MetaData) st : result TransferState :=
  rfold (Push2GraphSendQueue_one cfg) st items.

Definition Push2TsdbSendQueue (items : list MetaData) st : result TransferState :=
  rfold (fun st item =>
    let! (q, isSuccess) := ptr_push (TsdbQueue st) (convert2TsdbItem item) in
    let st := set_TsdbQueue q st in
    Ok (if isSuccess then st else IncrBy "SendToTsdbDropCnt" 1 st)) st items.

Definition Push2TransferSendQueue (items : list MetaData) st : result TransferState :=
  rfold (fun st item =>
    let! (q, isSuccess) := ptr_push (TransferQueue st) item in
    let st := set_TransferQueue q st in
    Ok (if isSuccess then st else IncrBy "SendToTransferDropCnt" 1 st)) st items.

Definition Push2InfluxdbSendQueue (items : list MetaData) st : result TransferState :=
  rfold (fun st item =>
    let! (q, isSuccess) := ptr_push (InfluxdbQueue st) (convert2InfluxdbItem item) in
    let st := set_InfluxdbQueue q st in
    Ok (if isSuccess then st else IncrBy "SendToInfluxdbDropCnt" 1 st)) st items.

(** * Start-up: node_rings.go, send_queues.go, conn_pools.go *)

Definition new_queue {V : Type} : SafeListLimited V := NewSafeListLimited DefaultSendQueueMaxSize.

(** [for node, nitem := range clusterList { for _, addr := range nitem.Addrs { m[node+addr] = Q } }]. *)
Definition node_queues `{MapRange} {V : Type} (clusterList : gmap string ClusterNode) : gmap string (SafeListLimited V) :=
  fold_left (fun qs '(node, nitem) =>
    fold_left (fun (qs : gmap string (SafeListLimited V)) addr => <[node +:+ addr := new_queue]> qs) (Addrs nitem) qs)
    (range_pairs clusterList) ∅.

(** The state after [Start]: [MinStep], [initSendQueues] and [initNodeRings]. *)
Definition Start `{MapRange} (cfg : GlobalConfig) : TransferState :=
  let when {V : Type} (enabled : bool) : option (SafeListLimited V) := if enabled then Some new_queue else None in
  mkTransferState
    (if MinStep_ cfg <? 1 then 30 else MinStep_ cfg)
    (NewConsistentHashNodesRing (i32 (Judge_Replicas (Judge cfg))) (KeysOfMap (Judge_Cluster (Judge cfg))))
    (NewConsistentHashNodesRing (i32 (Graph_Replicas (Graph cfg))) (KeysOfMap (Graph_Cluster (Graph cfg))))
    (NewConsistentHashNodesRing (i32 (P8sRelay_Replicas (P8sRelay cfg))) (KeysOfMap (P8sRelay_Cluster (P8sRelay cfg))))
    (fold_left (fun (qs : gmap string (SafeListLimited JudgeItem)) node => <[node := new_queue]> qs)
      (range_keys (Judge_Cluster (Judge cfg))) ∅)
    (node_queues (Graph_ClusterList (Graph cfg)))
    (if P8sRelay_Enabled (P8sRelay cfg) then node_queues (P8sRelay_ClusterList (P8sRelay cfg)) else ∅)
    (when (Tsdb_Enabled (Tsdb cfg)))
    (when (Transfer_Enabled (Transfer cfg)))
    (when (Influxdb_Enabled (Influxdb cfg)))
    ∅.

End State.

Arguments TransferState {_ _}.

(** The addresses [initConnPools] creates pools for. *)
Section Pools.
Context `{MapRange, NSet}.

Definition JudgeConnPools (cfg : GlobalConfig) : SafeRpcConnPools :=
  let c := Judge cfg in
  let judgeInstances := (range_pairs (Judge_Cluster c)).*2 in
  CreateSafeRpcConnPools (Judge_MaxConns c) (Judge_MaxIdle c) (Judge_ConnTimeout c) (Judge_CallTimeout c)
    (set_ToSlice judgeInstances).

Definition GraphConnPools (cfg : GlobalConfig) : SafeRpcConnPools :=
  let c := Graph cfg in
  let graphInstances := (range_pairs (Graph_ClusterList c)).*2 ≫= Addrs in
  CreateSafeRpcConnPools (Graph_MaxConns c) (Graph_MaxIdle c) (Graph_ConnTimeout c) (Graph_CallTimeout c)
    (set_ToSlice graphInstances).

Definition P8sRelayConnPools (cfg : GlobalConfig) : SafeRpcConnPools :=
  let c := P8sRelay cfg in
  let p8sRelayInstances := (range_pairs (P8sRelay_Cluster c)).*2 in
  CreateSafeRpcConnPools (P8sRelay_MaxConns c) (P8sRelay_MaxIdle c) (P8sRelay_ConnTimeout c) (P8sRelay_CallTimeout c)
    (set_ToSlice p8sRelayInstances).

(** The host names in the order [range] visits them, with the map and the pools. *)
Definition TransferHostnames (cfg : GlobalConfig) : list string := range_keys (Transfer_Cluster (Transfer cfg)).
Definition TransferMap (cfg : GlobalConfig) : gmap string string := Transfer_Cluster (Transfer cfg).
Definition TransferConnPools (cfg : GlobalConfig) : SafeRpcConnPools :=
  let c := Transfer cfg in
  CreateSafeRpcConnPools (Transfer_MaxConns c) (Transfer_MaxIdle c) (Transfer_ConnTimeout c) (Transfer_CallTimeout c)
    (set_ToSlice (range_pairs (Transfer_Cluster c)).*2).

End Pools.

(** * What queueing does to the queues *)

Section Queues.
Context `{LimitedList}.

(** The content of a queue of size [max], newest first, after [vs] were offered to
    it in order: those that come after it is full are refused. *)
Definition accepted {V : Type} (max : Z) (q vs : list V) : list V :=
  reverse (take (Z.to_nat max - length q)%nat vs) ++ q.

Lemma accepted_nil {V : Type} max (q : list V) : accepted max q [] = q.
Proof. unfold accepted. by rewrite take_nil. Qed.

Lemma accepted_app {V : Type} max (q a b : list V) : accepted max (accepted max q a) b = accepted max q (a ++ b).
Proof.
  unfold accepted. rewrite length_app, length_reverse, length_take, take_app, reverse_app, <- app_assoc.
  do 3 f_equal. lia.
Qed.

(** One queue went to another by the offer of [vs]. *)
Definition queue_extends {V : Type} (Q Q' : SafeListLimited V) (vs : list V) : Prop :=
  SL_maxSize Q' = SL_maxSize Q /\ SL_FrontAll Q' = accepted (SL_maxSize Q) (SL_FrontAll Q) vs.

Lemma queue_extends_trans {V : Type} (Q1 Q2 Q3 : SafeListLimited V) a b :
  queue_extends Q1 Q2 a -> queue_extends Q2 Q3 b -> queue_extends Q1 Q3 (a ++ b).
Proof. intros [E1 H1] [E2 H2]. split; [congruence|]. by rewrite H2, E1, H1, accepted_app. Qed.

Lemma queue_extends_nil {V : Type} (Q : SafeListLimited V) : queue_extends Q Q [].
Proof. split; [done|]. by rewrite accepted_nil. Qed.

Lemma SL_PushFront_extends {V : Type} (v : V) Q : queue_extends Q (fst (SL_PushFront v Q)) [v].
Proof.
  pose proof (SL_PushFront_spec v Q) as Hs. destruct (SL_PushFront v Q) as [Q' ok]. destruct Hs as [Hm Hq].
  split; [done|]. simpl. unfold accepted. destruct (Z.ltb_spec (Z.of_nat (length (SL_FrontAll Q))) (SL_maxSize Q)) as [Hl|Hl].
  - destruct Hq as [_ ->]. destruct (Z.to_nat _ - _)%nat eqn:E; [lia|]. simpl. by rewrite take_nil.
  - destruct Hq as [_ ->]. replace (Z.to_nat _ - _)%nat with 0%nat by lia. done.
Qed.

(** The values pushed under one key. *)
Definition routed {V : Type} (key : string) (pushes : list (string * V)) : list V :=
  omap (fun '(k, v) => if decide (k = key) then Some v else None) pushes.

Lemma routed_app {V : Type} key (a b : list (string * V)) : routed key (a ++ b) = routed key a ++ routed key b.
Proof. apply omap_app. Qed.

(** The queues of a map, each extended by the values pushed under its key. *)
Definition queues_extend {V : Type} (m m' : gmap string (SafeListLimited V)) (pushes : list (string * V)) : Prop :=
  forall key, match m !! key, m' !! key with
    | Some Q, Some Q' => queue_extends Q Q' (routed key pushes)
    | None, None => True
    | _, _ => False
    end.

Lemma queues_extend_nil {V : Type} (m : gmap string (SafeListLimited V)) : queues_extend m m [].
Proof. intros key. destruct (m !! key); [apply queue_extends_nil | done]. Qed.

Lemma queues_extend_trans {V : Type} (m1 m2 m3 : gmap string (SafeListLimited V)) a b :
  queues_extend m1 m2 a -> queues_extend m2 m3 b -> queues_extend m1 m3 (a ++ b).
Proof.
  intros H1 H2 key. specialize (H1 key). specialize (H2 key). rewrite routed_app.
  destruct (m1 !! key), (m2 !! key), (m3 !! key); try done. eauto using queue_extends_trans.
Qed.

Lemma queues_extend_some {V : Type} (m m' : gmap string (SafeListLimited V)) pushes key :
  queues_extend m m' pushes -> is_Some (m !! key) -> is_Some (m' !! key).
Proof. intros He [Q E]. specialize (He key). rewrite E in He. destruct (m' !! key); [eauto | done]. Qed.

Lemma map_push_spec {V : Type} (m : gmap string (SafeListLimited V)) key v :
  is_Some (m !! key) -> exists m' ok, map_push m key v = Ok (m', ok) /\ queues_extend m m' [(key, v)].
Proof.
  intros [Q E]. unfold map_push. rewrite E. pose proof (SL_PushFront_extends v Q) as Hp.
  destruct (SL_PushFront v Q) as [Q' ok]. eexists _, _. split; [done|]. intros k. unfold routed. csimpl.
  destruct (decide (key = k)) as [->|Hk].
  - by rewrite E, lookup_insert_eq.
  - rewrite lookup_insert_ne by done. destruct (m !! k); [apply queue_extends_nil | done].
Qed.

Lemma push_addrs_spec {V : Type} node (v : V) addrs (qs : gmap string (SafeListLimited V)) :
  (forall addr, addr ∈ addrs -> is_Some (qs !! (node +:+ addr))) ->
  exists qs' errCnt, push_addrs node v addrs qs = Ok (qs', errCnt) /\
    queues_extend qs qs' (map (fun addr => (node +:+ addr, v)) addrs).
Proof.
  unfold push_addrs. generalize 0. revert qs. induction addrs as [|addr addrs IH]; intros qs n Ha; simpl.
  - eexists _, _. split; [done | apply queues_extend_nil].
  - destruct (map_push_spec qs (node +:+ addr) v) as (q1 & ok & -> & H1); [apply Ha; left|]. simpl.
    destruct (IH q1 (if ok then n else n + 1)) as (q2 & e & -> & H2).
    { intros a Hin. eapply queues_extend_some; [done|]. apply Ha. by right. }
    exists q2, e. split; [done|]. exact (queues_extend_trans _ _ _ [_] _ H1 H2).
Qed.

(** The same for a queue behind a pointer. *)
Definition ptr_extends {V : Type} (q q' : option (SafeListLimited V)) (vs : list V) : Prop :=
  match q, q' with
  | Some Q, Some Q' => queue_extends Q Q' vs
  | None, None => vs = []
  | _, _ => False
  end.

Lemma ptr_push_spec {V : Type} (q : option (SafeListLimited V)) v :
  is_Some q -> exists q' ok, ptr_push q v = Ok (q', ok) /\ ptr_extends q q' [v] /\ is_Some q'.
Proof.
  intros [Q ->]. simpl. pose proof (SL_PushFront_extends v Q). destruct (SL_PushFront v Q) as [Q' ok].
  eexists _, _. eauto.
Qed.

Lemma ptr_extends_nil {V : Type} (q : option (SafeListLimited V)) : ptr_extends q q [].
Proof. destruct q; [apply queue_extends_nil | done]. Qed.

Lemma ptr_extends_trans {V : Type} (q1 q2 q3 : option (SafeListLimited V)) a b :
  ptr_extends q1 q2 a -> ptr_extends q2 q3 b -> ptr_extends q1 q3 (a ++ b).
Proof. destruct q1, q2, q3; try done; simpl; [eauto using queue_extends_trans | by intros -> ->]. Qed.

End Queues.

(** * Where a point goes *)

Section Routes.
Context `{LimitedList, NodeRing}.
Implicit Types st : TransferState.

Definition judge_route st (item : MetaData) : list (string * JudgeItem) :=
  match GetNode (JudgeNodeRing st) (MetaData_PK item), judge_item (MinStep st) item with
  | Some node, Ok judgeItem => [(node, judgeItem)]
  | _, _ => []
  end.

Definition addr_route {V : Type} (ring : ConsistentHashNodeRing) (clusterList : gmap string ClusterNode)
    (item : MetaData) (v : result (option V)) : list (string * V) :=
  match v, GetNode ring (MetaData_PK item) with
  | Ok (Some v), Some node =>
      match clusterList !! node with
      | Some cnode => map (fun addr => (node +:+ addr, v)) (Addrs cnode)
      | None => []
      end
  | _, _ => []
  end.
Definition graph_route (cfg : GlobalConfig) st (item : MetaData) : list (string * GraphItem) :=
  addr_route (GraphNodeRing st) (Graph_ClusterList (Graph cfg)) item (convert2GraphItem (MinStep st) item).
Definition p8s_route (cfg : GlobalConfig) st (item : MetaData) : list (string * P8sItem) :=
  if existsb (strings_HasPrefix (MetaData_Metric item)) (P8sRelay_NotSyncMetrics (P8sRelay cfg)) then []
  else addr_route (P8sRelayNodeRing st) (P8sRelay_ClusterList (P8sRelay cfg)) item (convert2P8sRelayItem (MinStep st) item).

(** Every node a ring names has its queues. *)
Definition ring_queues {V : Type} (ring : ConsistentHashNodeRing) (clusterList : gmap string ClusterNode)
    (qs : gmap string (SafeListLimited V)) : Prop :=
  forall pk node, GetNode ring pk = Some node -> exists cnode, clusterList !! node = Some cnode /\
    forall addr, addr ∈ Addrs cnode -> is_Some (qs !! (node +:+ addr)).

Record started (cfg : GlobalConfig) st : Prop := {
  started_MinStep : 1 <= MinStep st;
  started_judge pk node : GetNode (JudgeNodeRing st) pk = Some node -> is_Some (JudgeQueues st !! node);
  started_graph : ring_queues (GraphNodeRing st) (Graph_ClusterList (Graph cfg)) (GraphQueues st);
  started_p8s : P8sRelay_Enabled (P8sRelay cfg) = true ->
    ring_queues (P8sRelayNodeRing st) (P8sRelay_ClusterList (P8sRelay cfg)) (P8sRelayQueues st);
  started_tsdb : Tsdb_Enabled (Tsdb cfg) = true -> is_Some (TsdbQueue st);
  started_transfer : Transfer_Enabled (Transfer cfg) = true -> is_Some (TransferQueue st);
  started_influxdb : Influxdb_Enabled (Influxdb cfg) = true -> is_Some (InfluxdbQueue st) }.

Lemma alignTs_ok ts period : 1 <= period -> exists t, alignTs ts period = Ok t.
Proof. intros. unfold alignTs, go_rem. destruct (Z.eqb_spec period 0); [lia|]. simpl. eauto. Qed.

Lemma at_least_ge m s : m <= at_least m s.
Proof. unfold at_least. destruct (Z.ltb_spec s m); lia. Qed.

Lemma align_at_least m ts s : 1 <= m -> exists t, alignTs ts (at_least m s) = Ok t.
Proof. intros. apply alignTs_ok. pose proof (at_least_ge m s). lia. Qed.

Lemma judge_item_ok m item : 1 <= m -> exists j, judge_item m item = Ok j.
Proof. intros Hm. unfold judge_item. destruct (align_at_least m (MetaData_Timestamp item) (MetaData_Step item) Hm) as [t ->]. simpl. eauto. Qed.

Lemma convert2GraphItem_ok m item : 1 <= m -> exists o, convert2GraphItem m item = Ok o.
Proof.
  intros Hm. unfold convert2GraphItem.
  destruct (align_at_least m (MetaData_Timestamp item) (MetaData_Step item) Hm) as [t ->]. simpl.
  repeat case_bool_decide; eauto.
Qed.

Lemma convert2P8sRelayItem_ok m item : 1 <= m -> exists o, convert2P8sRelayItem m item = Ok o.
Proof.
  intros Hm. unfold convert2P8sRelayItem.
  destruct (align_at_least m (MetaData_Timestamp item) (MetaData_Step item) Hm) as [t ->]. simpl.
  repeat case_bool_decide; eauto.
Qed.

(** The counters other than [name] are as they were. *)
Definition same_cnt (name : string) (p p' : gmap string Z) : Prop := forall n, n <> name -> p' !! n = p !! n.

Lemma same_cnt_refl name p : same_cnt name p p.
Proof. done. Qed.
Lemma same_cnt_trans name p1 p2 p3 : same_cnt name p1 p2 -> same_cnt name p2 p3 -> same_cnt name p1 p3.
Proof. intros H1 H2 n Hn. by rewrite H2, H1. Qed.
Lemma same_cnt_incr name p n : same_cnt name p (<[name := n]> p).
Proof. intros m Hm. by rewrite lookup_insert_ne. Qed.

#[local] Hint Resolve same_cnt_refl same_cnt_incr queues_extend_nil : core.

Lemma Push2JudgeSendQueue_one_spec cfg st item :
  started cfg st ->
  exists qs p, Push2JudgeSendQueue_one st item = Ok (set_proc p (set_JudgeQueues qs st)) /\
    queues_extend (JudgeQueues st) qs (judge_route st item) /\ same_cnt "SendToJudgeDropCnt" (proc st) p.
Proof.
  intros Hst. unfold Push2JudgeSendQueue_one, judge_route. destruct (GetNode _ _) as [node|] eqn:En.
  2:{ exists (JudgeQueues st), (proc st). destruct st. split; [done|]. eauto. }
  destruct (judge_item_ok (MinStep st) item) as [j Ej]; [by eapply started_MinStep|]. rewrite Ej. simpl.
  destruct (map_push_spec (JudgeQueues st) node j) as (qs & ok & -> & Hq); [by eapply started_judge|]. simpl.
  destruct ok; [exists qs, (proc st) | eexists qs, _]; (split; [by destruct st|]); eauto.
Qed.

(** The common shape of the pushes to the graph and to the relay. *)
Lemma addr_route_spec {V : Type} ring clusterList (qs : gmap string (SafeListLimited V)) item (v : V) :
  ring_queues ring clusterList qs ->
  match GetNode ring (MetaData_PK item) with
  | None => addr_route ring clusterList item (Ok (Some v)) = []
  | Some node =>
      exists cnode qs' errCnt, clusterList !! node = Some cnode /\ push_addrs node v (Addrs cnode) qs = Ok (qs', errCnt) /\
        queues_extend qs qs' (addr_route ring clusterList item (Ok (Some v)))
  end.
Proof.
  intros Hr. unfold addr_route. destruct (GetNode _ _) as [node|] eqn:En; [|done].
  destruct (Hr _ _ En) as (cnode & Ec & Ha). destruct (push_addrs_spec node v (Addrs cnode) qs Ha) as (qs' & e & Ep & He).
  exists cnode, qs', e. by rewrite Ec.
Qed.

Lemma Push2GraphSendQueue_one_spec cfg st item :
  started cfg st ->
  exists qs p, Push2GraphSendQueue_one cfg st item = Ok (set_proc p (set_GraphQueues qs st)) /\
    queues_extend (GraphQueues st) qs (graph_route cfg st item) /\ same_cnt "SendToGraphDropCnt" (proc st) p.
Proof.
  intros Hst. unfold Push2GraphSendQueue_one, graph_route.
  destruct (convert2GraphItem_ok (MinStep st) item) as [[v|] Ev]; [by eapply started_MinStep|..]; rewrite Ev; cbn [rbind].
  2:{ exists (GraphQueues st), (proc st). destruct st. eauto. }
  pose proof (addr_route_spec _ _ (GraphQueues st) item v (started_graph _ _ Hst)) as Hr.
  destruct (GetNode _ _) as [node|] eqn:En.
  - destruct Hr as (cnode & qs & e & -> & -> & Hq). cbn [rbind].
    destruct (0 <? e); [eexists qs, _ | exists qs, (proc st)]; (split; [by destruct st|]); eauto.
  - rewrite Hr. exists (GraphQueues st), (proc st). destruct st. eauto.
Qed.

Lemma Push2P8sRelaySendQueue_one_spec cfg st item :
  P8sRelay_Enabled (P8sRelay cfg) = true -> started cfg st ->
  exists qs p, Push2P8sRelaySendQueue_one cfg st item = Ok (set_proc p (set_P8sRelayQueues qs st)) /\
    queues_extend (P8sRelayQueues st) qs (p8s_route cfg st item) /\ same_cnt "SendToP8sRelayDropCnt" (proc st) p.
Proof.
  intros Hen Hst. unfold Push2P8sRelaySendQueue_one, p8s_route. destruct (existsb _ _).
  { exists (P8sRelayQueues st), (proc st). destruct st. eauto. }
  destruct (convert2P8sRelayItem_ok (MinStep st) item) as [[v|] Ev]; [by eapply started_MinStep|..]; rewrite Ev; cbn [rbind].
  2:{ exists (P8sRelayQueues st), (proc st). destruct st. eauto. }
  pose proof (addr_route_spec _ _ (P8sRelayQueues st) item v (started_p8s _ _ Hst Hen)) as Hr.
  destruct (GetNode _ _) as [node|] eqn:En.
  - destruct Hr as (cnode & qs & e & -> & -> & Hq). cbn [rbind].
    destruct (0 <? e); [eexists qs, _ | exists qs, (proc st)]; (split; [by destruct st|]); eauto.
  - rewrite Hr. exists (P8sRelayQueues st), (proc st). destruct st. eauto.
Qed.

End Routes.

(** * The loops over the received points *)

Section Loops.
Context `{LimitedList, NodeRing}.
Implicit Types st : TransferState.

(** A loop that offers each point to the queues [proj st] of one sink and counts
    refusals under [name]. *)
Lemma push_loop {Q B : Type} (cfg : GlobalConfig) (name : string) (proj : TransferState -> Q)
    (upd : Q -> TransferState -> TransferState) (ext : Q -> Q -> list B -> Prop) (route : TransferState -> MetaData -> list B)
    (f : TransferState -> MetaData -> result TransferState) (items : list MetaData) st :
  (forall st x, started cfg st -> exists q p, f st x = Ok (set_proc p (upd q st)) /\
    ext (proj st) q (route st x) /\ same_cnt name (proc st) p) ->
  (forall st q p, set_proc p (upd q st) = upd q (set_proc p st) /\ proj (upd q st) = q /\ proc (upd q st) = proc st /\
    proj (set_proc p st) = proj st /\ route (set_proc p (upd q st)) = route st) ->
  (forall st q q', upd q' (upd q st) = upd q' st /\ upd (proj st) st = st) ->
  (forall st q p vs, started cfg st -> ext (proj st) q vs -> started cfg (set_proc p (upd q st))) ->
  (forall q, ext q q []) -> (forall q1 q2 q3 a b, ext q1 q2 a -> ext q2 q3 b -> ext q1 q3 (a ++ b)) ->
  started cfg st ->
  exists q p, rfold f st items = Ok (set_proc p (upd q st)) /\ ext (proj st) q (items ≫= route st) /\
    same_cnt name (proc st) p /\ started cfg (set_proc p (upd q st)).
Proof.
  intros Hone Hupd Hupd2 Hst Hnil Htrans. revert st. induction items as [|x items IH]; intros st Hs; simpl.
  - exists (proj st), (proc st). rewrite (proj2 (Hupd2 st (proj st) (proj st))).
    assert (set_proc (proc st) st = st) as -> by (by destruct st).
    split; [done|]. split; [apply Hnil|]. split; [apply same_cnt_refl | done].
  - destruct (Hone st x Hs) as (q & p & -> & He & Hp). simpl.
    destruct (IH (set_proc p (upd q st))) as (q2 & p2 & E2 & He2 & Hp2 & Hs2); [eauto|].
    destruct (Hupd st q p) as (Ec & Eq & _ & _ & Er).
    assert (proj (set_proc p (upd q st)) = q) as Ep.
    { rewrite Ec. destruct (Hupd (set_proc p st) q p) as (_ & -> & _). done. }
    assert (forall p3, set_proc p3 (upd q2 (set_proc p (upd q st))) = set_proc p3 (upd q2 st)) as Eu.
    { intros p3. rewrite Ec, (proj1 (Hupd2 _ q q2)). destruct (Hupd st q2 p) as (<- & _). by destruct (upd q2 st). }
    rewrite Ep, Er in He2. rewrite Eu in E2, Hs2. exists q2, p2. split; [exact E2|].
    split; [exact (Htrans _ _ _ _ _ He He2)|]. split; [|exact Hs2].
    eapply same_cnt_trans; [exact Hp|]. by destruct (upd q st).
Qed.

Lemma ring_queues_extend {V : Type} ring clusterList (qs qs' : gmap string (SafeListLimited V)) pushes :
  queues_extend qs qs' pushes -> ring_queues ring clusterList qs -> ring_queues ring clusterList qs'.
Proof.
  intros He Hr pk node En. destruct (Hr pk node En) as (c & Ec & Ha). exists c. split; [done|].
  intros addr Hin. eapply queues_extend_some; eauto.
Qed.

Lemma ptr_extends_some {V : Type} (q q' : option (SafeListLimited V)) vs : ptr_extends q q' vs -> is_Some q -> is_Some q'.
Proof. intros He [Q ->]. destruct q'; [eauto | done]. Qed.

#[local] Hint Resolve queues_extend_nil ptr_extends_nil queues_extend_trans ptr_extends_trans
  ring_queues_extend queues_extend_some ptr_extends_some same_cnt_refl same_cnt_incr : core.

Ltac keep_started Hs := destruct Hs; constructor; simpl; eauto.

Lemma Push2JudgeSendQueue_spec cfg items st :
  started cfg st ->
  exists qs p, Push2JudgeSendQueue items st = Ok (set_proc p (set_JudgeQueues qs st)) /\
    queues_extend (JudgeQueues st) qs (items ≫= judge_route st) /\ same_cnt "SendToJudgeDropCnt" (proc st) p /\
    started cfg (set_proc p (set_JudgeQueues qs st)).
Proof.
  apply (push_loop cfg _ JudgeQueues set_JudgeQueues); eauto using Push2JudgeSendQueue_one_spec; try by intros [].
  intros s q p vs Hs He. keep_started Hs.
Qed.

Lemma Push2GraphSendQueue_spec cfg items st :
  started cfg st ->
  exists qs p, Push2GraphSendQueue cfg items st = Ok (set_proc p (set_GraphQueues qs st)) /\
    queues_extend (GraphQueues st) qs (items ≫= graph_route cfg st) /\ same_cnt "SendToGraphDropCnt" (proc st) p /\
    started cfg (set_proc p (set_GraphQueues qs st)).
Proof.
  apply (push_loop cfg _ GraphQueues set_GraphQueues); eauto using Push2GraphSendQueue_one_spec; try by intros [].
  intros s q p vs Hs He. keep_started Hs.
Qed.

Lemma Push2P8sRelaySendQueue_spec cfg items st :
  P8sRelay_Enabled (P8sRelay cfg) = true -> started cfg st ->
  exists qs p, Push2P8sRelaySendQueue cfg items st = Ok (set_proc p (set_P8sRelayQueues qs st)) /\
    queues_extend (P8sRelayQueues st) qs (items ≫= p8s_route cfg st) /\ same_cnt "SendToP8sRelayDropCnt" (proc st) p /\
    started cfg (set_proc p (set_P8sRelayQueues qs st)).
Proof.
  intros Hen. apply (push_loop cfg _ P8sRelayQueues set_P8sRelayQueues); eauto using Push2P8sRelaySendQueue_one_spec; try by intros [].
  intros s q p vs Hs He. keep_started Hs.
Qed.

Lemma bind_singleton {A B : Type} (f : A -> B) (l : list A) : l ≫= (fun x => [f x]) = map f l.
Proof. induction l as [|x l IH]; csimpl; [done|]. by rewrite IH. Qed.

Lemma Push2TsdbSendQueue_spec cfg items st :
  Tsdb_Enabled (Tsdb cfg) = true -> started cfg st ->
  exists q p, Push2TsdbSendQueue items st = Ok (set_proc p (set_TsdbQueue q st)) /\
    ptr_extends (TsdbQueue st) q (map convert2TsdbItem items) /\ same_cnt "SendToTsdbDropCnt" (proc st) p /\
    started cfg (set_proc p (set_TsdbQueue q st)).
Proof.
  intros Hen. rewrite <- bind_singleton.
  apply (push_loop cfg _ TsdbQueue set_TsdbQueue _ (fun _ d => [convert2TsdbItem d])); eauto; try by intros [].
  - intros s x Hs. destruct (ptr_push_spec (TsdbQueue s) (convert2TsdbItem x)) as (q & ok & -> & He & _); [by eapply started_tsdb|].
    simpl. destruct ok; [exists q, (proc s) | eexists q, _]; (split; [by destruct s|]); eauto.
  - intros s q p vs Hs He. keep_started Hs.
Qed.

Lemma Push2TransferSendQueue_spec cfg items st :
  Transfer_Enabled (Transfer cfg) = true -> started cfg st ->
  exists q p, Push2TransferSendQueue items st = Ok (set_proc p (set_TransferQueue q st)) /\
    ptr_extends (TransferQueue st) q items /\ same_cnt "SendToTransferDropCnt" (proc st) p /\
    started cfg (set_proc p (set_TransferQueue q st)).
Proof.
  intros Hen Hst. cut (exists q p, Push2TransferSendQueue items st = Ok (set_proc p (set_TransferQueue q st)) /\
    ptr_extends (TransferQueue st) q (items ≫= (fun d => [d])) /\ same_cnt "SendToTransferDropCnt" (proc st) p /\
    started cfg (set_proc p (set_TransferQueue q st))).
  { by rewrite (bind_singleton (fun d => d)), map_id. }
  revert Hst. apply (push_loop cfg _ TransferQueue set_TransferQueue _ (fun _ d => [d])); eauto; try by intros [].
  - intros s x Hs. destruct (ptr_push_spec (TransferQueue s) x) as (q & ok & -> & He & _); [by eapply started_transfer|].
    simpl. destruct ok; [exists q, (proc s) | eexists q, _]; (split; [by destruct s|]); eauto.
  - intros s q p vs Hs He. keep_started Hs.
Qed.

Lemma Push2InfluxdbSendQueue_spec cfg items st :
  Influxdb_Enabled (Influxdb cfg) = true -> started cfg st ->
  exists q p, Push2InfluxdbSendQueue items st = Ok (set_proc p (set_InfluxdbQueue q st)) /\
    ptr_extends (InfluxdbQueue st) q (map convert2InfluxdbItem items) /\ same_cnt "SendToInfluxdbDropCnt" (proc st) p /\
    started cfg (set_proc p (set_InfluxdbQueue q st)).
Proof.
  intros Hen. rewrite <- bind_singleton.
  apply (push_loop cfg _ InfluxdbQueue set_InfluxdbQueue _ (fun _ d => [convert2InfluxdbItem d])); eauto; try by intros [].
  - intros s x Hs. destruct (ptr_push_spec (InfluxdbQueue s) (convert2InfluxdbItem x)) as (q & ok & -> & He & _); [by eapply started_influxdb|].
    simpl. destruct ok; [exists q, (proc s) | eexists q, _]; (split; [by destruct s|]); eauto.
  - intros s q p vs Hs He. keep_started Hs.
Qed.

(** ** Start-up *)

Lemma fold_new_queues {V : Type} (keys : list string) (qs : gmap string (SafeListLimited V)) k :
  is_Some (fold_left (fun (qs : gmap string (SafeListLimited V)) key => <[key := new_queue]> qs) keys qs !! k)
  <-> k ∈ keys \/ is_Some (qs !! k).
Proof.
  revert qs; induction keys as [|key keys IH]; intros qs; simpl; [set_solver|].
  rewrite IH, elem_of_cons, lookup_insert_is_Some. destruct (decide (key = k)) as [->|]; naive_solver.
Qed.

Lemma node_queues_some `{MapRange} {V : Type} (cl : gmap string ClusterNode) k :
  is_Some (node_queues (V := V) cl !! k)
  <-> exists node c addr, cl !! node = Some c /\ addr ∈ Addrs c /\ k = node +:+ addr.
Proof.
  unfold node_queues.
  transitivity (is_Some ((∅ : gmap string (SafeListLimited V)) !! k) \/
    exists node c addr, (node, c) ∈ range_pairs cl /\ addr ∈ Addrs c /\ k = node +:+ addr).
  2:{ setoid_rewrite elem_of_range_pairs. rewrite lookup_empty. split; [intros [[? ?]|?]; done | by right]. }
  generalize (range_pairs cl) as l. generalize (∅ : gmap string (SafeListLimited V)) as qs.
  intros qs l. revert qs. induction l as [|[node c] l IH]; intros qs; simpl; [set_solver|].
  rewrite IH.
  assert (forall addrs (q : gmap string (SafeListLimited V)),
    fold_left (fun (qs : gmap string (SafeListLimited V)) addr => <[node +:+ addr := new_queue]> qs) addrs q
    = fold_left (fun (qs : gmap string (SafeListLimited V)) key => <[key := new_queue]> qs) (map (fun a => node +:+ a) addrs) q) as E.
  { induction addrs as [|a addrs IHa]; intros q; simpl; [done | apply IHa]. }
  rewrite E, fold_new_queues, list_elem_of_fmap. clear.
  split.
  - intros [[(a & -> & Ha)|Hq]|(n & c' & a & Hin & Ha & ->)].
    + right. exists node, c, a. split; [left|]. done.
    + by left.
    + right. exists n, c', a. split; [by right|]. done.
  - intros [Hq|(n & c' & a & Hin & Ha & ->)]; [by left; right|].
    apply elem_of_cons in Hin as [[= -> ->]|Hin]; [left; left; eauto|]. right. eauto 10.
Qed.

(** The sections of the configuration are as [ParseConfig] leaves them. *)
Definition cfg_formatted (cfg : GlobalConfig) : Prop :=
  forall node, Graph_ClusterList (Graph cfg) !! node
      = (fun s => mkClusterNode (node_addrs s)) <$> Graph_Cluster (Graph cfg) !! node /\
    P8sRelay_ClusterList (P8sRelay cfg) !! node
      = (fun s => mkClusterNode (node_addrs s)) <$> P8sRelay_Cluster (P8sRelay cfg) !! node.

Lemma ParseConfig_formatted `{MapRange} c : cfg_formatted (ParseConfig c).
Proof. intros node. split; apply formatClusterItems_lookup. Qed.

Lemma Start_ring_queues `{MapRange} {V : Type} replicas (cluster : gmap string string) (cl : gmap string ClusterNode) :
  (forall node, cl !! node = (fun s => mkClusterNode (node_addrs s)) <$> cluster !! node) ->
  ring_queues (V := V) (NewConsistentHashNodesRing replicas (KeysOfMap cluster)) cl (node_queues cl).
Proof.
  intros Hf pk node En%GetNode_elem. apply KeysOfMap_elem in En as [s Es].
  specialize (Hf node). rewrite Es in Hf. simpl in Hf. eexists. split; [done|]. simpl. intros addr Ha.
  apply node_queues_some. eauto 10.
Qed.

Lemma Start_started `{MapRange} cfg : cfg_formatted cfg -> started cfg (Start cfg).
Proof.
  intros Hf. constructor; simpl.
  - destruct (Z.ltb_spec (MinStep_ cfg) 1); lia.
  - intros pk node En%GetNode_elem. apply fold_new_queues. left.
    apply KeysOfMap_elem in En. rewrite (range_order_elem (Judge_Cluster (Judge cfg))); [done | apply range_keys_order].
  - apply Start_ring_queues. intros node. apply Hf.
  - intros ->. apply Start_ring_queues. intros node. apply Hf.
  - by intros ->.
  - by intros ->.
  - by intros ->.
Qed.

Lemma cnt_IncrBy (st : TransferState) name n name' :
  cnt (IncrBy name n st) name' = if decide (name = name') then cnt st name + n else cnt st name'.
Proof.
  unfold cnt, IncrBy, set_proc. simpl. case_decide; subst; [by rewrite lookup_insert_eq | by rewrite lookup_insert_ne].
Qed.

Lemma started_proc cfg p st : started cfg st -> started cfg (set_proc p st).
Proof. intros []. by constructor. Qed.

End Loops.

(** ** Aligned times *)

Lemma alignTs_spec ts period :
  0 <= ts <= int64_max -> 1 <= period ->
  exists t, alignTs ts period = Ok t /\ (period | t) /\ t <= ts < t + period.
Proof.
  intros Ht Hp. unfold alignTs, go_rem. destruct (Z.eqb_spec period 0); [lia|]. cbn [rbind].
  rewrite Z.rem_mod_nonneg by lia. pose proof (Z.mod_pos_bound ts period). pose proof (Z.div_mod ts period).
  pose proof (Z.mod_le ts period). rewrite i64_id by (unfold is_int64, int64_min, int64_max in *; lia).
  eexists. split; [done|]. split; [|lia]. exists (ts / period). lia.
Qed.

Lemma at_least_max m s : at_least m s = Z.max m s.
Proof. unfold at_least. destruct (Z.ltb_spec s m); lia. Qed.

Definition sample_meta : MetaData := mkMetaData "cpu.idle" "host" 125 60 (f64_of_Z 7) "GAUGE" ∅.

(** * Properties *)

(** C15. The sinks agree on a point whose time is not negative: the judge, the
    graph and the relay get it for the endpoint, metric and tags it was received
    with (so under one key), at the same time, the start of its interval, and the
    graph and the relay with the same step, at least the configured minimum. The
    judge gets its type and, as the graph does, its value; the relay gets the value
    its text with three decimals reads as. The graph stores every accepted type,
    counters as rates, and the relay refuses derived ones. *)
Theorem sinks_agree (m : Z) (d : MetaData) :
  1 <= m -> 0 <= MetaData_Timestamp d <= int64_max ->
  exists ts, (Z.max m (MetaData_Step d) | ts) /\ ts <= MetaData_Timestamp d < ts + Z.max m (MetaData_Step d) /\
    (exists j, judge_item m d = Ok j /\ JudgeItem_Timestamp j = ts /\ JudgeItem_PrimaryKey j = Md5 (MetaData_PK d) /\
      JudgeItem_Endpoint j = MetaData_Endpoint d /\ JudgeItem_Metric j = MetaData_Metric d /\ JudgeItem_Tags j = MetaData_Tags d /\
      JudgeItem_Value j = MetaData_Value d /\ JudgeItem_JudgeType j = MetaData_CounterType d) /\
    (exists g, convert2GraphItem m d = Ok g /\ (g = None <-> MetaData_CounterType d ∉ [GAUGE; COUNTER; DERIVE]) /\
      forall gi, g = Some gi -> GraphItem_Timestamp gi = ts /\ GraphItem_Step gi = Z.max m (MetaData_Step d) /\
        GraphItem_PrimaryKey gi = MetaData_PK d /\ GraphItem_Endpoint gi = MetaData_Endpoint d /\
        GraphItem_Metric gi = MetaData_Metric d /\ GraphItem_Tags gi = MetaData_Tags d /\ GraphItem_Value gi = MetaData_Value d /\
        GraphItem_DsType gi = (if decide (MetaData_CounterType d = GAUGE) then GAUGE else DERIVE)) /\
    (exists p, convert2P8sRelayItem m d = Ok p /\ (p = None <-> MetaData_CounterType d ∉ [GAUGE; COUNTER]) /\
      forall pi, p = Some pi -> P8sItem_Timestamp pi = ts /\ P8sItem_Step pi = Z.max m (MetaData_Step d) /\
        PK (P8sItem_Endpoint pi) (P8sItem_Metric pi) (P8sItem_Tags pi) = MetaData_PK d /\
        P8sItem_Endpoint pi = MetaData_Endpoint d /\ P8sItem_Metric pi = MetaData_Metric d /\ P8sItem_Tags pi = MetaData_Tags d /\
        P8sItem_Value pi = fst (strconv_ParseFloat (f64_format 3 (MetaData_Value d))) /\
        P8sItem_MetricType pi = MetaData_CounterType d).
Proof.
  intros Hm Ht. destruct (alignTs_spec (MetaData_Timestamp d) (Z.max m (MetaData_Step d)) Ht) as (ts & Ea & Hd & Hb); [lia|].
  exists ts. split; [done|]. split; [done|]. unfold judge_item, convert2GraphItem, convert2P8sRelayItem.
  rewrite at_least_max, Ea. cbn [rbind]. split; [by eexists|].
  assert (forall l, MetaData_CounterType d ∉ MetaData_CounterType d :: l <-> False) as Hin by (intros l; set_solver).
  split.
  - repeat case_bool_decide; (eexists; split; [reflexivity|]).
    4:{ split; [|done]. split; [|done]. set_solver. }
    all: (split; [split; [done | intros Hn; exfalso; apply Hn; set_solver]|]).
    all: intros gi [= <-]; cbn; repeat split; try congruence; case_decide; congruence.
  - repeat case_bool_decide; (eexists; split; [reflexivity|]).
    3:{ split; [|done]. split; [|done]. set_solver. }
    all: (split; [split; [done | intros Hn; exfalso; apply Hn; set_solver]|]).
    all: intros gi [= <-]; cbn; repeat split; congruence.
Qed.

Lemma sinks_agree_witness :
  exists j p, judge_item 30 sample_meta = Ok j /\ convert2P8sRelayItem 30 sample_meta = Ok (Some p) /\
    JudgeItem_Timestamp j = P8sItem_Timestamp p /\ P8sItem_Endpoint p = "host" /\ P8sItem_Step p = 60.
Proof.
  destruct (sinks_agree 30 sample_meta) as (ts & _ & _ & (j & Ej & Et & _) & _ & (p & Ep & Hnone & Hsome)).
  - lia.
  - vm_compute. split; discriminate.
  - destruct p as [p|]; [|exfalso; apply Hnone; [reflexivity | left]].
    destruct (Hsome p eq_refl) as (Hts & Hst & _ & He & _). exists j, p. split; [exact Ej|]. split; [exact Ep|].
    split; [by rewrite Et, Hts|]. split; [exact He | exact Hst].
Defined.
