(* ===== verification/TransferTasks.v ===== *)
(** modules/transfer/sender/send_tasks.go and sender_cron.go: the tasks that take
    batches from the send queues and send them, with their retries and counters.
    An iteration of a task is split where the code forks: taking a batch, and the
    goroutine that sends it while the task goes on. *)
From Stdlib Require Import Ascii ZArith.
From stdpp Require Import base list gmap strings numbers.
From S2P Require Import Prelude GoString GoFloat GoText GoHash Utils Model ThirdParty TransferCfg TransferSender.

Local Open Scope Z_scope.

Section Tasks.
Context `{LimitedList, NodeRing, MapRange, NSet}.
Implicit Types st : TransferState.

(** ** Taking a batch *)

Definition map_pop {V : Type} (m : gmap string (SafeListLimited V)) (key : string) (batch : Z)
    : result (gmap string (SafeListLimited V) * list V) :=
  match m !! key with
  | None => Panic NilDereference
  | Some Q => let '(Q, items) := SL_PopBackBy batch Q in Ok (<[key := Q]> m, items)
  end.
Definition ptr_pop {V : Type} (q : option (SafeListLimited V)) (batch : Z) : result (option (SafeListLimited V) * list V) :=
  match q with
  | None => Panic NilDereference
  | Some Q => let '(Q, items) := SL_PopBackBy batch Q in Ok (Some Q, items)
  end.

Definition forward2JudgeTask_pop (cfg : GlobalConfig) (node : string) st : result (TransferState * list JudgeItem) :=
  let! (qs, items) := map_pop (JudgeQueues st) node (Judge_Batch (Judge cfg)) in
  Ok (set_JudgeQueues qs st, items).
Definition forward2GraphTask_pop (cfg : GlobalConfig) (node addr : string) st : result (TransferState * list GraphItem) :=
  let! (qs, items) := map_pop (GraphQueues st) (node +:+ addr) (Graph_Batch (Graph cfg)) in
  Ok (set_GraphQueues qs st, items).
Definition forward2P8sRelayTask_pop (cfg : GlobalConfig) (node addr : string) st : result (TransferState * list P8sItem) :=
  let! (qs, items) := map_pop (P8sRelayQueues st) (node +:+ addr) (P8sRelay_Batch (P8sRelay cfg)) in
  Ok (set_P8sRelayQueues qs st, items).
Definition forward2TsdbTask_pop (cfg : GlobalConfig) st : result (TransferState * list TsdbItem) :=
  let! (q, items) := ptr_pop (TsdbQueue st) (Tsdb_Batch (Tsdb cfg)) in Ok (set_TsdbQueue q st, items).
Definition forward2InfluxdbTask_pop (cfg : GlobalConfig) st : result (TransferState * list InfluxdbItem) :=
  let! (q, items) := ptr_pop (InfluxdbQueue st) (Influxdb_Batch (Influxdb cfg)) in Ok (set_InfluxdbQueue q st, items).
Definition forward2TransferTask_pop (cfg : GlobalConfig) st : result (TransferState * list MetricValue) :=
  let! (q, items) := ptr_pop (TransferQueue st) (Transfer_Batch (Transfer cfg)) in
  Ok (set_TransferQueue q st, map convert items).

(** ** Sending a batch *)

(** [for i := 0; i < n; i++ { err = Call(...); if err == nil { sendOk = true; break } }];
    [net i] is what the network does with the [i]-th call. *)
Fixpoint call_retry (n : nat) (pools : SafeRpcConnPools) (addr : string) (net : nat -> call_outcome) (i : nat)
    : list pool_event * bool :=
  match n with
  | O => ([], false)
  | S n =>
      let '(ev, ok) := SafeRpcConnPools_Call pools addr (net i) in
      if ok then (ev, true)
      else let '(evs, sendOk) := call_retry n pools addr net (S i) in (ev ++ evs, sendOk)
  end.

(** The goroutine of the judge, graph and relay tasks: three attempts, then one
    counter or the other. *)
Definition send_batch (pools : SafeRpcConnPools) (addr sentCnt failCnt : string) (net : nat -> call_outcome)
    (count : Z) st : TransferState * list pool_event :=
  let '(ev, sendOk) := call_retry 3 pools addr net 0 in
  (if sendOk then IncrBy sentCnt count st else IncrBy failCnt count st, ev).

Definition forward2JudgeTask_send (cfg : GlobalConfig) (node : string) (net : nat -> call_outcome)
    (judgeItems : list JudgeItem) st : TransferState * list pool_event :=
  let addr := default "" (Judge_Cluster (Judge cfg) !! node) in
  send_batch (JudgeConnPools cfg) addr "SendToJudgeCnt" "SendToJudgeFailCnt" net (Z.of_nat (length judgeItems)) st.
Definition forward2GraphTask_send (cfg : GlobalConfig) (addr : string) (net : nat -> call_outcome)
    (graphItems : list GraphItem) st : TransferState * list pool_event :=
  send_batch (GraphConnPools cfg) addr "SendToGraphCnt" "SendToGraphFailCnt" net (Z.of_nat (length graphItems)) st.
Definition forward2P8sRelayTask_send (cfg : GlobalConfig) (addr : string) (net : nat -> call_outcome)
    (p8sItems : list P8sItem) st : TransferState * list pool_event :=
  send_batch (P8sRelayConnPools cfg) addr "SendToP8sRelayCnt" "SendToP8sRelayFailCnt" net (Z.of_nat (length p8sItems)) st.

(** [for i := 0; i < retry; i++ { err = Send(...); if err == nil { ...; break } }]:
    the number of calls and the final [err]; without a call [err] stays nil. *)
Fixpoint plain_retry (n : nat) (send : nat -> bool) (i : nat) : Z * bool :=
  match n with
  | O => (0, false)
  | S n => if send i then (1, true) else let '(calls, ok) := plain_retry n send (S i) in (calls + 1, ok)
  end.
Definition retry_counters (retry : Z) (send : nat -> bool) (sentCnt failCnt : string) (count : Z) st : TransferState :=
  let '(calls, ok) := plain_retry (Z.to_nat retry) send 0 in
  if ok then IncrBy sentCnt count st else if 0 <? calls then IncrBy failCnt count st else st.

Definition forward2TsdbTask_send (cfg : GlobalConfig) (send : nat -> bool) (itemList : list TsdbItem) st : TransferState :=
  retry_counters (Tsdb_MaxRetry (Tsdb cfg)) send "SendToTsdbCnt" "SendToTsdbFailCnt" (Z.of_nat (length itemList)) st.

(** Without a client [c] is nil, and [defer c.Client.Close()] comes before the
    test of the error. *)
Definition forward2InfluxdbTask_send (cfg : GlobalConfig) (client : bool) (send : nat -> bool)
    (itemList : list InfluxdbItem) st : result TransferState :=
  if negb client then Panic NilDereference
  else Ok (retry_counters (Influxdb_MaxRetry (Influxdb cfg)) send "SendToInfluxdbCnt" "SendToInfluxdbFailCnt"
    (Z.of_nat (length itemList)) st).

(** ** Sending to another transfer *)

(** What the goroutine sees of its surroundings: the random start of each round,
    the calls in progress to a host and the outcome of a call, at [(j, i)]. *)
Record transfer_env := mkTransferEnv {
  rint : nat -> Z;
  GetCounterCount : nat -> Z -> string -> Z;
  transfer_net : nat -> Z -> call_outcome }.

(** The inner loop: [k] hosts to go from [i]; the hosts called and [sendOk]. *)
Fixpoint transfer_round (cfg : GlobalConfig) (env : transfer_env) (j : nat) (k : nat) (i : Z) : result (list string * bool) :=
  match k with
  | O => Ok ([], false)
  | S k =>
      let hosts := TransferHostnames cfg in
      let! idx := go_rem (i64 (i + rint env j)) (Z.of_nat (length hosts)) in
      let! host := index hosts idx in
      let addr := default "" (TransferMap cfg !! host) in
      if Transfer_MaxConns (Transfer cfg) <=? GetCounterCount env j i host then transfer_round cfg env j k (i + 1)
      else
        let '(_, ok) := SafeRpcConnPools_Call (TransferConnPools cfg) addr (transfer_net env j i) in
        if ok then Ok ([host], true)
        else let! (called, sendOk) := transfer_round cfg env j k (i + 1) in Ok (host :: called, sendOk)
  end.

Fixpoint transfer_rounds (cfg : GlobalConfig) (env : transfer_env) (n j : nat) : result (list string * bool) :=
  match n with
  | O => Ok ([], false)
  | S n =>
      let! (called, sendOk) := transfer_round cfg env j (length (TransferHostnames cfg)) 0 in
      if sendOk then Ok (called, true)
      else let! (more, sendOk) := transfer_rounds cfg env n (S j) in Ok (called ++ more, sendOk)
  end.

(** Each call that fails counts the batch as failed, the one that succeeds as sent. *)
Definition forward2TransferTask_send (cfg : GlobalConfig) (env : transfer_env) (transferItems : list MetricValue) st
    : result (TransferState * list string * bool) :=
  let retry := if Transfer_MaxRetry (Transfer cfg) <? 1 then 1 else Transfer_MaxRetry (Transfer cfg) in
  let count := Z.of_nat (length transferItems) in
  let! (called, sendOk) := transfer_rounds cfg env (Z.to_nat retry) 0 in
  let calls := Z.of_nat (length called) in
  let failed := if sendOk then calls - 1 else calls in
  let st := if 0 <? failed then IncrBy "SendToTransferFailCnt" (failed * count) st else st in
  let st := if sendOk then IncrBy "SendToTransferCnt" count st else st in
  Ok (st, called, sendOk).

(** ** Which tasks are started *)

Inductive send_task :=
  | JudgeTask (node : string) (concurrent : Z)
  | GraphTask (node addr : string) (concurrent : Z)
  | TsdbTask (concurrent : Z)
  | TransferTask (concurrent : Z)
  | InfluxdbTask (concurrent : Z)
  | P8sRelayTask (node addr : string) (concurrent : Z).

Definition at_least_one (n : Z) : Z := if n <? 1 then 1 else n.

Definition node_tasks (task : string -> string -> send_task) (clusterList : gmap string ClusterNode) : list send_task :=
  range_pairs clusterList ≫= (fun '(node, nitem) => map (task node) (Addrs nitem)).

Definition startSendTasks (cfg : GlobalConfig) : list send_task :=
  let judgeConcurrent := at_least_one (Judge_MaxConns (Judge cfg)) in
  let graphConcurrent := at_least_one (Graph_MaxConns (Graph cfg)) in
  let tsdbConcurrent := at_least_one (Tsdb_MaxConns (Tsdb cfg)) in
  let transferConcurrent := at_least_one (Transfer_MaxConns (Transfer cfg)) in
  let influxdbConcurrent := at_least_one (Influxdb_MaxConns (Influxdb cfg)) in
  let p8sRelayConcurrent := at_least_one (P8sRelay_MaxConns (P8sRelay cfg)) in
  map (fun node => JudgeTask node judgeConcurrent) (range_keys (Judge_Cluster (Judge cfg)))
  ++ node_tasks (fun node addr => GraphTask node addr graphConcurrent) (Graph_ClusterList (Graph cfg))
  ++ (if Tsdb_Enabled (Tsdb cfg) then [TsdbTask tsdbConcurrent] else [])
  ++ (if Transfer_Enabled (Transfer cfg)
      then [TransferTask (transferConcurrent * Z.of_nat (size (Transfer_Cluster (Transfer cfg))))] else [])
  ++ (if Influxdb_Enabled (Influxdb cfg) then [InfluxdbTask influxdbConcurrent] else [])
  ++ (if P8sRelay_Enabled (P8sRelay cfg)
      then node_tasks (fun node addr => P8sRelayTask node addr p8sRelayConcurrent) (P8sRelay_ClusterList (P8sRelay cfg)) else []).

(** * sender_cron.go *)

Definition calcSendCacheSize {V : Type} (mapList : gmap string (SafeListLimited V)) : Z :=
  fold_left (fun cnt '(_, list) => cnt + SL_Len list) (range_pairs mapList) 0.

Definition SetCnt (name : string) (n : Z) st : TransferState := set_proc (<[name := n]> (proc st)) st.
Definition refreshSendingCacheSize (cfg : GlobalConfig) st : result TransferState :=
  let st := SetCnt "JudgeQueuesCnt" (calcSendCacheSize (JudgeQueues st)) st in
  let st := SetCnt "GraphQueuesCnt" (calcSendCacheSize (GraphQueues st)) st in
  let ptr_len {V : Type} (q : option (SafeListLimited V)) : result Z :=
    match q with Some Q => Ok (SL_Len Q) | None => Panic NilDereference end in
  let! st := if Tsdb_Enabled (Tsdb cfg)
    then let! n := ptr_len (TsdbQueue st) in Ok (SetCnt "TsdbQueuesCnt" n st) else Ok st in
  let! st := if Transfer_Enabled (Transfer cfg)
    then let! n := ptr_len (TransferQueue st) in Ok (SetCnt "TransferQueuesCnt" n st) else Ok st in
  Ok (if P8sRelay_Enabled (P8sRelay cfg)
    then SetCnt "P8sRelayQueuesCnt" (calcSendCacheSize (P8sRelayQueues st)) st else st).

End Tasks.

(** * The sizes of the queues *)

Section Sizes.
Context `{LimitedList}.

Definition total {V : Type} (m : gmap string (SafeListLimited V)) : Z := map_fold (fun _ Q n => SL_Len Q + n) 0 m.

Lemma total_delete {V : Type} (m : gmap string (SafeListLimited V)) k Q :
  m !! k = Some Q -> total m = SL_Len Q + total (delete k m).
Proof. intros E. unfold total. rewrite (map_fold_delete_L _ _ k Q m); [done | intros; lia | done]. Qed.

Lemma total_insert {V : Type} (m : gmap string (SafeListLimited V)) k Q Q' :
  m !! k = Some Q -> total (<[k := Q']> m) = total m - SL_Len Q + SL_Len Q'.
Proof.
  intros E. rewrite (total_delete (<[k := Q']> m) k Q') by apply lookup_insert_eq.
  rewrite (total_delete m k Q E), delete_insert_eq. lia.
Qed.

Lemma range_pairs_perm `{MapRange} {V : Type} (m : gmap string V) : range_pairs m ≡ₚ map_to_list m.
Proof.
  apply NoDup_Permutation.
  - apply (NoDup_fmap_1 fst). rewrite range_pairs_fst. eapply range_order_NoDup, range_keys_order.
  - apply NoDup_map_to_list.
  - intros [k v]. by rewrite elem_of_range_pairs, elem_of_map_to_list.
Qed.

Lemma calcSendCacheSize_total `{MapRange} {V : Type} (m : gmap string (SafeListLimited V)) : calcSendCacheSize m = total m.
Proof.
  unfold calcSendCacheSize, total. rewrite map_fold_foldr.
  assert (forall l n, fold_left (fun cnt '(_, list) => cnt + SL_Len list) l n
    = foldr (fun (p : string * SafeListLimited V) s => SL_Len (snd p) + s) n l) as E.
  { induction l as [|[k Q] l IH]; intros n; simpl; [done|]. rewrite IH. clear. revert n. induction l as [|p l IH]; intros n; simpl; [lia|].
    rewrite IH. lia. }
  rewrite E. transitivity (foldr (fun (p : string * SafeListLimited V) s => SL_Len (snd p) + s) 0 (map_to_list m)).
  - pose proof (range_pairs_perm m) as Hp. clear E. revert Hp. generalize (range_pairs m) (map_to_list m).
    induction 1; simpl; lia.
  - clear. induction (map_to_list m) as [|[k Q] l IH]; simpl; [done|]. by rewrite IH.
Qed.

(** A push adds one to the size or is refused. *)
Lemma map_push_total {V : Type} (m m' : gmap string (SafeListLimited V)) key v ok :
  map_push m key v = Ok (m', ok) -> total m' = total m + (if ok then 1 else 0).
Proof.
  unfold map_push. destruct (m !! key) as [Q|] eqn:E; [|done].
  pose proof (SL_PushFront_spec v Q) as Hs. destruct (SL_PushFront v Q) as [Q' ok']. intros [= <- <-].
  rewrite (total_insert m key Q Q' E), !SL_Len_length. destruct Hs as [_ Hs].
  destruct (Z.of_nat (length (SL_FrontAll Q)) <? SL_maxSize Q); destruct Hs as [-> ->]; simpl length; lia.
Qed.

(** A pop takes the oldest elements out of one queue, in order. *)
Lemma map_pop_spec {V : Type} (m m' : gmap string (SafeListLimited V)) key batch items :
  0 <= batch -> map_pop m key batch = Ok (m', items) ->
  exists Q Q', m !! key = Some Q /\ m' = <[key := Q']> m /\ SL_maxSize Q' = SL_maxSize Q /\
    reverse (SL_FrontAll Q) = items ++ reverse (SL_FrontAll Q') /\ total m' = total m - Z.of_nat (length items).
Proof.
  intros Hb. unfold map_pop. destruct (m !! key) as [Q|] eqn:E; [|done].
  pose proof (SL_PopBackBy_spec batch Q Hb) as Hs. destruct (SL_PopBackBy batch Q) as [Q' its].
  intros [= <- <-]. destruct Hs as (Hm & Hq & _). exists Q, Q'. split_and!; [done..| |].
  - by rewrite Hq, reverse_app, reverse_involutive.
  - rewrite (total_insert m key Q Q' E), !SL_Len_length, Hq, length_app, length_reverse. lia.
Qed.

Lemma new_queues_total {V : Type} (keys : list string) (m : gmap string (SafeListLimited V)) :
  (forall k Q, m !! k = Some Q -> SL_FrontAll Q = []) ->
  forall k Q, fold_left (fun (qs : gmap string (SafeListLimited V)) key => <[key := new_queue]> qs) keys m !! k = Some Q ->
    SL_FrontAll Q = [].
Proof.
  revert m; induction keys as [|key keys IH]; intros m Hm; simpl; [done|]. apply IH.
  intros k Q. destruct (decide (key = k)) as [->|].
  - rewrite lookup_insert_eq. intros [= <-]. apply SL_new_all.
  - rewrite lookup_insert_ne by done. apply Hm.
Qed.

Lemma total_empty {V : Type} (m : gmap string (SafeListLimited V)) :
  (forall k Q, m !! k = Some Q -> SL_FrontAll Q = []) -> total m = 0.
Proof.
  induction m as [|k Q m Hk Hf IH] using map_first_key_ind; intros Hm; [done|].
  rewrite (total_delete _ k Q) by apply lookup_insert_eq. rewrite delete_insert_id by done.
  rewrite SL_Len_length, (Hm k Q) by apply lookup_insert_eq. rewrite IH; [done|].
  intros k' Q' E. apply (Hm k'). rewrite lookup_insert_ne; [done|]. congruence.
Qed.

End Sizes.

(** * The way of a point to the judge *)

(** A run of the receivers and of the judge tasks together: the state, the
    batches taken and not yet answered for, and two records of the past, the
    points routed to a node and those taken from its queue. *)
Section JudgeRuns.
Context `{LimitedList, NodeRing, MapRange, NSet}.
Variable cfg : GlobalConfig.

Record judge_run := mkJudgeRun {
  run_state : TransferState;
  run_flying : list (string * list JudgeItem);
  run_routed : list (string * JudgeItem);
  run_popped : list (string * JudgeItem) }.

Inductive judge_step : judge_run -> judge_run -> Prop :=
  | step_push r item st' :
      Push2JudgeSendQueue_one (run_state r) item = Ok st' ->
      judge_step r (mkJudgeRun st' (run_flying r) (run_routed r ++ judge_route (run_state r) item) (run_popped r))
  | step_pop r node items st' :
      forward2JudgeTask_pop cfg node (run_state r) = Ok (st', items) -> items <> [] ->
      judge_step r (mkJudgeRun st' (run_flying r ++ [(node, items)]) (run_routed r)
        (run_popped r ++ map (pair node) items))
  | step_send r l1 node items l2 net :
      run_flying r = l1 ++ (node, items) :: l2 ->
      judge_step r (mkJudgeRun (fst (forward2JudgeTask_send cfg node net items (run_state r)))
        (l1 ++ l2) (run_routed r) (run_popped r)).

Definition judge_start : judge_run := mkJudgeRun (Start cfg) [] [] [].
Definition judge_reachable : judge_run -> Prop := rtc judge_step judge_start.

Definition flying (r : judge_run) : Z := Z.of_nat (length (mjoin (run_flying r).*2)).

(** The points of a batch as the ghost records have them. *)
Record run_inv (r : judge_run) : Prop := {
  run_started : started cfg (run_state r);
  run_count : Z.of_nat (length (run_routed r)) =
    total (JudgeQueues (run_state r)) + cnt (run_state r) "SendToJudgeDropCnt" + flying r
    + cnt (run_state r) "SendToJudgeCnt" + cnt (run_state r) "SendToJudgeFailCnt";
  run_fifo node Q : JudgeQueues (run_state r) !! node = Some Q ->
    routed node (run_popped r) ++ reverse (SL_FrontAll Q) `sublist_of` routed node (run_routed r) }.

Lemma judge_step_push r item st' :
  run_inv r -> Push2JudgeSendQueue_one (run_state r) item = Ok st' ->
  run_inv (mkJudgeRun st' (run_flying r) (run_routed r ++ judge_route (run_state r) item) (run_popped r)).
Proof.
  intros [Hs Hc Hf] E. destruct (Push2JudgeSendQueue_one_spec cfg _ item Hs) as (qs & p & E' & Hq & _).
  rewrite E' in E. injection E as <-.
  assert (forall node Q, qs !! node = Some Q -> routed node (run_popped r) ++ reverse (SL_FrontAll Q)
    `sublist_of` routed node (run_routed r ++ judge_route (run_state r) item)) as Hf'.
  { intros node Q' EQ. specialize (Hq node). rewrite EQ in Hq. destruct (JudgeQueues (run_state r) !! node) as [Q|] eqn:EJ; [|done].
    destruct Hq as [_ Hq]. rewrite Hq, routed_app. unfold accepted. rewrite reverse_app, reverse_involutive, app_assoc.
    apply sublist_app; [by apply Hf | apply sublist_take]. }
  assert (started cfg (set_proc p (set_JudgeQueues qs (run_state r)))) as Hst.
  { apply started_proc. destruct Hs. constructor; simpl; eauto using queues_extend_some. }
  constructor; simpl; [exact Hst| |exact Hf'].
  rewrite length_app, Nat2Z.inj_add, Hc. clear Hf Hf' Hst. revert E' Hq. unfold Push2JudgeSendQueue_one, judge_route, flying.
  cbn [run_flying]. destruct (GetNode _ _) as [node|] eqn:En.
  2:{ intros E' _. injection E' as E'. apply (f_equal JudgeQueues) in E' as Eq. apply (f_equal proc) in E' as Ep.
      simpl in Eq, Ep. unfold cnt. simpl. rewrite <- Eq, <- Ep. lia. }
  destruct (judge_item_ok (MinStep (run_state r)) item) as [j Ej]; [by eapply started_MinStep|]. rewrite Ej. cbn [rbind].
  destruct (map_push _ node j) as [[m ok]|] eqn:Em; [|done]. apply map_push_total in Em. cbn [rbind].
  intros E' _. injection E' as E'. rewrite <- E'.
  assert (JudgeQueues (set_proc p (set_JudgeQueues qs (run_state r))) = m) as Eq by (rewrite <- E'; by destruct ok).
  simpl in Eq. subst m. destruct ok; rewrite ?cnt_IncrBy; unfold cnt; simpl; lia.
Qed.

Lemma routed_pairs {V : Type} node node' (vs : list V) :
  routed node' (map (pair node) vs) = if decide (node = node') then vs else [].
Proof. unfold routed. induction vs as [|v vs IH]; csimpl; [by case_decide|]. rewrite IH. by case_decide. Qed.

Lemma judge_step_pop r node items st' :
  0 <= Judge_Batch (Judge cfg) -> run_inv r -> forward2JudgeTask_pop cfg node (run_state r) = Ok (st', items) ->
  run_inv (mkJudgeRun st' (run_flying r ++ [(node, items)]) (run_routed r) (run_popped r ++ map (pair node) items)).
Proof.
  intros Hb [Hs Hc Hf]. unfold forward2JudgeTask_pop. destruct (map_pop _ _ _) as [[m its]|] eqn:Em; [|done].
  intros [= <- <-]. apply map_pop_spec in Em as (Q & Q' & EQ & -> & Hm & Hr & Ht); [|done].
  constructor; simpl.
  - destruct Hs. constructor; simpl; try done. intros pk n En. destruct (decide (node = n)) as [->|].
    + rewrite lookup_insert_eq. eauto.
    + rewrite lookup_insert_ne by done. eauto.
  - unfold flying in *. simpl. rewrite fmap_app, join_app, length_app. simpl. rewrite app_nil_r. unfold cnt in *. simpl. lia.
  - intros n Q2. rewrite routed_app, routed_pairs. destruct (decide (node = n)) as [->|].
    + rewrite lookup_insert_eq. intros [= <-]. rewrite <- app_assoc, <- Hr. by apply Hf.
    + rewrite lookup_insert_ne, app_nil_r by done. apply Hf.
Qed.

Lemma judge_step_send r l1 node items l2 net :
  run_inv r -> run_flying r = l1 ++ (node, items) :: l2 ->
  run_inv (mkJudgeRun (fst (forward2JudgeTask_send cfg node net items (run_state r))) (l1 ++ l2) (run_routed r) (run_popped r)).
Proof.
  intros [Hs Hc Hf] El. unfold forward2JudgeTask_send, send_batch. destruct (call_retry _ _ _ _ _) as [ev ok].
  assert (flying r = Z.of_nat (length items) + Z.of_nat (length (mjoin (l1 ++ l2).*2))) as Ef.
  { unfold flying. rewrite El, !fmap_app, fmap_cons, !join_app.
    change (mjoin (snd (node, items) :: l2.*2)) with (items ++ mjoin l2.*2). rewrite !length_app. lia. }
  constructor; unfold flying in *; cbn [run_state run_flying run_routed run_popped fst].
  - destruct ok; by apply started_proc.
  - destruct ok; rewrite !cnt_IncrBy; simpl; lia.
  - destruct ok; apply Hf.
Qed.

Lemma judge_start_inv : cfg_formatted cfg -> run_inv judge_start.
Proof.
  intros Hf. constructor; simpl; [by apply Start_started| |].
  - rewrite total_empty; [done|]. apply new_queues_total. intros k Q. by rewrite lookup_empty.
  - intros node Q EQ. rewrite (new_queues_total _ ∅ ltac:(intros k Q'; by rewrite lookup_empty) node Q EQ). apply sublist_nil_l.
Qed.

Lemma judge_reachable_inv r : 0 <= Judge_Batch (Judge cfg) -> cfg_formatted cfg -> judge_reachable r -> run_inv r.
Proof.
  intros Hb Hf Hr. apply (rtc_ind_r (R := judge_step) run_inv judge_start); [by apply judge_start_inv| |done].
  intros r1 r2 _ Hstep Hi. destruct Hstep; eauto using judge_step_push, judge_step_pop, judge_step_send.
Qed.

End JudgeRuns.

(** * Sending to another transfer *)

Section TransferSend.
Context `{LimitedList, NodeRing, MapRange, NSet}.
Variables (cfg : GlobalConfig) (env : transfer_env).

Abbreviation hosts := (TransferHostnames cfg).
Abbreviation n := (Z.of_nat (length hosts)).

(** The host of attempt [i] of round [j], and that the attempt does not send. *)
Definition attempt_host (j : nat) (i : Z) : option string := hosts !! Z.to_nat ((i + rint env j) mod n).
Definition attempt_fails (j : nat) (i : Z) : Prop :=
  exists host, attempt_host j i = Some host /\
    (Transfer_MaxConns (Transfer cfg) <= GetCounterCount env j i host \/ transfer_net env j i <> Replied).

(** The random start leaves room for the sum with the index. *)
Definition rint_ok : Prop := forall j, 0 <= rint env j <= int64_max - n.

Lemma TransferConnPools_Call host o :
  host ∈ hosts ->
  snd (SafeRpcConnPools_Call (TransferConnPools cfg) (default "" (TransferMap cfg !! host)) o) = true <-> o = Replied.
Proof.
  intros Hh. unfold SafeRpcConnPools_Call, SafeRpcConnPools_Get.
  assert (default "" (TransferMap cfg !! host) ∈ M (TransferConnPools cfg)) as Hm.
  { apply CreateSafeRpcConnPools_M, set_ToSlice_elem. unfold TransferHostnames in Hh.
    rewrite (range_order_elem (Transfer_Cluster (Transfer cfg))) in Hh by apply range_keys_order. destruct Hh as [a Ea].
    unfold TransferMap. rewrite Ea. apply list_elem_of_fmap. exists (host, a). split; [done|]. by apply elem_of_range_pairs. }
  rewrite bool_decide_true by done. by destruct o.
Qed.

Lemma attempt_host_index j i :
  rint_ok -> 0 <= i < n ->
  exists host, attempt_host j i = Some host /\ host ∈ hosts /\
    go_rem (i64 (i + rint env j)) n = Ok ((i + rint env j) mod n) /\ index hosts ((i + rint env j) mod n) = Ok host.
Proof.
  intros Hr Hi. specialize (Hr j).
  assert (0 <= (i + rint env j) mod n < n) as Hm by (apply Z.mod_pos_bound; lia).
  destruct (lookup_lt_is_Some_2 hosts (Z.to_nat ((i + rint env j) mod n))) as [host Eh]; [lia|].
  exists host. split; [exact Eh|]. split; [by eapply list_elem_of_lookup_2|].
  rewrite i64_id by (unfold is_int64, int64_min in *; lia). unfold go_rem.
  destruct (Z.eqb_spec n 0) as [|Hn]; [lia|]. rewrite Z.rem_mod_nonneg by lia. split; [done|].
  rewrite <- (Z2Nat.id ((i + rint env j) mod n)) by lia. by apply index_nat.
Qed.

Lemma transfer_round_spec j k i :
  rint_ok -> 0 <= i -> i + Z.of_nat k <= n ->
  exists called ok, transfer_round cfg env j k i = Ok (called, ok) /\ (forall h, h ∈ called -> h ∈ hosts) /\
    (ok = true -> called <> []) /\
    (ok = false <-> forall i', i <= i' < i + Z.of_nat k -> attempt_fails j i').
Proof.
  intros Hr. revert i. induction k as [|k IH]; intros i Hi Hk; cbn [transfer_round].
  { exists [], false. split; [done|]. split; [set_solver|]. split; [done|]. split; [|done]. intros _ i' ?. lia. }
  destruct (attempt_host_index j i Hr) as (host & Eh & Hin & Eg & Ei); [lia|]. rewrite Eg. cbn [rbind]. rewrite Ei. cbn [rbind].
  destruct (IH (i + 1)) as (called & ok & E & Hc & Hne & Hok); [lia..|].
  pose proof (TransferConnPools_Call host (transfer_net env j i) Hin) as Hcall.
  assert ((forall i', i <= i' < i + Z.of_nat (S k) -> attempt_fails j i') <->
    attempt_fails j i /\ forall i', i + 1 <= i' < i + 1 + Z.of_nat k -> attempt_fails j i') as Hsplit.
  { split; [intros Ha; split; [|intros ? ?]; apply Ha; lia|]. intros [H0' H1'] i' ?.
    destruct (decide (i' = i)) as [->|]; [done|]. apply H1'. lia. }
  setoid_rewrite Hsplit. destruct (Z.leb_spec (Transfer_MaxConns (Transfer cfg)) (GetCounterCount env j i host)) as [Hb|Hb].
  - exists called, ok. split; [done|]. split; [done|]. split; [done|]. rewrite Hok.
    assert (attempt_fails j i) by (exists host; auto). tauto.
  - destruct (SafeRpcConnPools_Call _ _ _) as [ev sent]. simpl in Hcall. destruct sent.
    + exists [host], true. split; [done|]. split; [set_solver|]. split; [done|]. split; [done|].
      intros [(h & Eh' & [Hb'|Hn]) _]; [|by destruct Hn; apply Hcall]. assert (h = host) as -> by congruence. lia.
    + rewrite E. exists (host :: called), ok. split; [done|]. split; [set_solver|]. split; [done|]. rewrite Hok.
      assert (attempt_fails j i); [|tauto]. exists host. split; [done|]. right. intros Hn. apply Hcall in Hn. done.
Qed.

Lemma transfer_rounds_spec m j :
  rint_ok ->
  exists called ok, transfer_rounds cfg env m j = Ok (called, ok) /\ (forall h, h ∈ called -> h ∈ hosts) /\
    (ok = true -> called <> []) /\
    (ok = false <-> forall j' i, (j <= j' < j + m)%nat -> 0 <= i < n -> attempt_fails j' i).
Proof.
  intros Hr. revert j. induction m as [|m IH]; intros j; cbn [transfer_rounds].
  { exists [], false. split; [done|]. split; [set_solver|]. split; [done|]. split; [|done]. intros _ j' i ?. lia. }
  destruct (transfer_round_spec j (length hosts) 0 Hr) as (c1 & ok1 & -> & Hc1 & Hne1 & Hok1); [lia..|]. cbn [rbind].
  destruct (IH (S j)) as (c2 & ok2 & E & Hc2 & Hne2 & Hok2).
  assert ((forall j' i, (j <= j' < j + S m)%nat -> 0 <= i < n -> attempt_fails j' i) <->
    (forall i, 0 <= i < 0 + n -> attempt_fails j i) /\
    (forall j' i, (S j <= j' < S j + m)%nat -> 0 <= i < n -> attempt_fails j' i)) as Hsplit.
  { split; [intros Ha; split; intros; apply Ha; lia|]. intros [H0' H1'] j' i Hj Hi.
    destruct (decide (j' = j)) as [->|]; [apply H0' | apply H1']; lia. }
  setoid_rewrite Hsplit. setoid_rewrite <- Hok1. setoid_rewrite <- Hok2. destruct ok1.
  - exists c1, true. split; [done|]. split; [done|]. split; [done|]. naive_solver.
  - rewrite E. exists (c1 ++ c2), ok2. split; [done|]. split; [set_solver|].
    split; [intros Hok [_ ?]%app_nil; by apply Hne2|]. naive_solver.
Qed.

End TransferSend.

Lemma node_tasks_elem `{MapRange} task cl t :
  t ∈ node_tasks task cl <-> exists node c addr, cl !! node = Some c /\ addr ∈ Addrs c /\ t = task node addr.
Proof.
  unfold node_tasks. rewrite list_elem_of_bind. split.
  - intros ([node c] & Ht & Hin). apply list_elem_of_fmap in Ht as (addr & -> & Ha). apply elem_of_range_pairs in Hin. eauto 10.
  - intros (node & c & addr & Ec & Ha & ->). exists (node, c). split; [by apply list_elem_of_fmap_2|]. by apply elem_of_range_pairs.
Qed.

Definition sample_judge_cluster : gmap string string := {["judge-00" := "10.0.0.1:6080"]}.
Definition sample_transfer_config : GlobalConfig := mkGlobalConfig 30
  (mkJudgeConfig true 200 1000 5000 32 32 500 sample_judge_cluster ∅)
  (mkGraphConfig true 200 1000 5000 32 32 500 {["graph-00" := "10.0.0.2:6070, 10.0.0.3:6070"]} ∅)
  (mkTsdbConfig false 200 1000 5000 32 32 3 "10.0.0.4:8088")
  (mkTransferConfig true 200 1000 5000 32 32 3 {["t1" := "10.0.0.5:8433"]})
  (mkInfluxdbConfig false 200 3 32 5000 "10.0.0.6:8086" "db" "u" "p" "s")
  (mkP8sRelayConfig true 200 1000 5000 32 32 500 ["net."] {["relay-00" := "10.0.0.7:80,10.0.0.8:80"]} ∅).

(** * Properties *)

(** C14. Every point routed to the judge is accounted for, in every interleaving of
    receivers, tasks and sending goroutines: it is in a send queue, was refused by
    a full one, is in a batch being sent, was sent, or failed after three
    attempts, and each counter counts its share. Points leave a node's queue in
    the order they were routed to it. *)
Theorem judge_accounting `{LimitedList, NodeRing, MapRange, NSet} (c : GlobalConfig) (r : judge_run) :
  0 <= Judge_Batch (Judge c) -> judge_reachable (ParseConfig c) r ->
  Z.of_nat (length (run_routed r)) =
    calcSendCacheSize (JudgeQueues (run_state r)) + cnt (run_state r) "SendToJudgeDropCnt" + flying r
    + cnt (run_state r) "SendToJudgeCnt" + cnt (run_state r) "SendToJudgeFailCnt" /\
  forall node Q, JudgeQueues (run_state r) !! node = Some Q ->
    routed node (run_popped r) ++ reverse (SL_FrontAll Q) `sublist_of` routed node (run_routed r).
Proof.
  intros Hb Hr. destruct (judge_reachable_inv (ParseConfig c) r Hb (ParseConfig_formatted c) Hr) as [_ Hc Hf].
  rewrite calcSendCacheSize_total. auto.
Qed.

Definition sample_started := @Start limited_list ring_mod map_range_default (@ParseConfig map_range_default sample_transfer_config).

Lemma judge_accounting_witness :
  exists st, @Push2JudgeSendQueue_one limited_list ring_mod sample_started sample_meta = Ok st /\
    1 = @calcSendCacheSize limited_list map_range_default _ (JudgeQueues st) + cnt st "SendToJudgeDropCnt"
      + 0 + cnt st "SendToJudgeCnt" + cnt st "SendToJudgeFailCnt".
Proof.
  destruct (@Push2JudgeSendQueue_one_spec limited_list ring_mod (@ParseConfig map_range_default sample_transfer_config)
    sample_started sample_meta) as (qs & p & E & _).
  { apply Start_started, ParseConfig_formatted. }
  set (st := set_proc p (set_JudgeQueues qs sample_started)) in E. clearbody st.
  exists st. split; [exact E|].
  destruct (@judge_accounting limited_list ring_mod map_range_default set_list sample_transfer_config
    (mkJudgeRun st [] ([] ++ judge_route sample_started sample_meta) [])) as [Hc _].
  - vm_compute. discriminate.
  - apply rtc_once. exact (@step_push limited_list ring_mod map_range_default set_list
      (@ParseConfig map_range_default sample_transfer_config) (mkJudgeRun sample_started [] [] []) sample_meta st E).
  - assert (length (@judge_route limited_list ring_mod sample_started sample_meta) = 1%nat) as El by (vm_compute; reflexivity).
    cbn [run_routed run_state app] in Hc. rewrite El in Hc. exact Hc.
Defined.

(** C17. A batch for another transfer is given up only when every host of every
    round was busy or its call failed; otherwise exactly one call succeeds. The
    hosts are the configured ones, taken in turn from a random start, and each
    call counts the whole batch as sent or as failed. *)
Theorem transfer_send_complete `{LimitedList, NodeRing, MapRange, NSet} (cfg : GlobalConfig) (env : transfer_env)
    (items : list MetricValue) (st : TransferState) :
  rint_ok cfg env ->
  exists st' called ok, forward2TransferTask_send cfg env items st = Ok (st', called, ok) /\
    (forall h, h ∈ called -> h ∈ TransferHostnames cfg) /\
    (ok = false <-> forall j i, Z.of_nat j < Z.max 1 (Transfer_MaxRetry (Transfer cfg)) ->
      0 <= i < Z.of_nat (length (TransferHostnames cfg)) -> attempt_fails cfg env j i) /\
    cnt st' "SendToTransferCnt" = cnt st "SendToTransferCnt" + (if ok then Z.of_nat (length items) else 0) /\
    cnt st' "SendToTransferFailCnt" = cnt st "SendToTransferFailCnt"
      + (Z.of_nat (length called) - (if ok then 1 else 0)) * Z.of_nat (length items).
Proof.
  intros Hr. unfold forward2TransferTask_send.
  set (retry := if Transfer_MaxRetry (Transfer cfg) <? 1 then 1 else Transfer_MaxRetry (Transfer cfg)).
  assert (retry = Z.max 1 (Transfer_MaxRetry (Transfer cfg))) as Er.
  { unfold retry. destruct (Z.ltb_spec (Transfer_MaxRetry (Transfer cfg)) 1); lia. }
  destruct (transfer_rounds_spec cfg env (Z.to_nat retry) 0 Hr) as (called & ok & -> & Hc & Hne & Hok). cbn [rbind].
  eexists _, called, ok. split; [reflexivity|]. split; [exact Hc|]. split.
  { rewrite Hok. split; intros Ha j i Hj Hi; apply Ha; lia. }
  destruct (Z.ltb_spec 0 (if ok then Z.of_nat (length called) - 1 else Z.of_nat (length called))) as [Hl|Hl], ok;
    rewrite ?cnt_IncrBy; simpl; try lia.
  destruct called; [by destruct Hne|]. simpl in *. lia.
Qed.

Lemma transfer_send_complete_witness :
  exists st' called ok, @forward2TransferTask_send limited_list ring_mod map_range_default set_list sample_transfer_config
    (mkTransferEnv (fun _ => 5) (fun _ _ _ => 0) (fun j _ => if (j =? 0)%nat then TimedOut else Replied))
    [convert sample_meta] sample_started = Ok (st', called, ok) /\
    cnt st' "SendToTransferCnt" = 0 + (if ok then 1 else 0) /\ ok = true.
Proof.
  destruct (@transfer_send_complete limited_list ring_mod map_range_default set_list sample_transfer_config
    (mkTransferEnv (fun _ => 5) (fun _ _ _ => 0) (fun j _ => if (j =? 0)%nat then TimedOut else Replied))
    [convert sample_meta] sample_started) as (st' & called & ok & E & _ & _ & Hc & _).
  - intros j. vm_compute. split; discriminate.
  - exists st', called, ok. split; [exact E|]. split; [exact Hc|].
    assert (match @forward2TransferTask_send limited_list ring_mod map_range_default set_list sample_transfer_config
      (mkTransferEnv (fun _ => 5) (fun _ _ _ => 0) (fun j _ => if (j =? 0)%nat then TimedOut else Replied))
      [convert sample_meta] sample_started with Ok (_, _, b) => b | Panic _ => false end = true) as Eb
      by (vm_compute; reflexivity).
    rewrite E in Eb. exact Eb.
Defined.

(** Every sending task that is started has what it works with: the queue it
    drains was created, and for the judge and the graph the address it calls has a
    connection pool. *)
Theorem tasks_connected `{LimitedList, NodeRing, MapRange, NSet} (c : GlobalConfig) (t : send_task) :
  t ∈ startSendTasks (ParseConfig c) ->
  match t with
  | JudgeTask node _ => is_Some (JudgeQueues (Start (ParseConfig c)) !! node) /\
      exists addr, Judge_Cluster (Judge c) !! node = Some addr /\ addr ∈ M (JudgeConnPools (ParseConfig c))
  | GraphTask node addr _ => is_Some (GraphQueues (Start (ParseConfig c)) !! (node +:+ addr)) /\
      addr ∈ M (GraphConnPools (ParseConfig c))
  | P8sRelayTask node addr _ => is_Some (P8sRelayQueues (Start (ParseConfig c)) !! (node +:+ addr))
  | TsdbTask _ => is_Some (TsdbQueue (Start (ParseConfig c)))
  | TransferTask _ => is_Some (TransferQueue (Start (ParseConfig c)))
  | InfluxdbTask _ => is_Some (InfluxdbQueue (Start (ParseConfig c)))
  end.
Proof.
  unfold startSendTasks. rewrite !elem_of_app, list_elem_of_fmap, node_tasks_elem.
  intros [(node & -> & Hn)|[(node & cn & addr & Ec & Ha & ->)|[Ht|[Ht|[Ht|Ht]]]]].
  - rewrite (range_order_elem (Judge_Cluster (Judge c))) in Hn by apply range_keys_order. split.
    + apply fold_new_queues. left. simpl. by rewrite (range_order_elem (Judge_Cluster (Judge c))) by apply range_keys_order.
    + destruct Hn as [addr Ea]. exists addr. split; [done|]. apply CreateSafeRpcConnPools_M, set_ToSlice_elem, list_elem_of_fmap.
      exists (node, addr). split; [done|]. by apply elem_of_range_pairs.
  - split; [apply node_queues_some; eauto 10|]. apply CreateSafeRpcConnPools_M, set_ToSlice_elem, list_elem_of_bind.
    exists cn. split; [done|]. apply list_elem_of_fmap. exists (node, cn). split; [done|]. by apply elem_of_range_pairs.
  - simpl. destruct (Tsdb_Enabled (Tsdb c)) eqn:E; simpl in Ht; rewrite E in Ht; [|set_solver].
    apply list_elem_of_singleton in Ht as ->. done.
  - simpl. destruct (Transfer_Enabled (Transfer c)) eqn:E; simpl in Ht; rewrite E in Ht; [|set_solver].
    apply list_elem_of_singleton in Ht as ->. done.
  - simpl. destruct (Influxdb_Enabled (Influxdb c)) eqn:E; simpl in Ht; rewrite E in Ht; [|set_solver].
    apply list_elem_of_singleton in Ht as ->. done.
  - destruct (P8sRelay_Enabled (P8sRelay c)) eqn:E; simpl in Ht; rewrite E in Ht; [|set_solver].
    apply node_tasks_elem in Ht as (node & cn & addr & Ec & Ha & ->). simpl. rewrite E. apply node_queues_some. eauto 10.
Qed.

Lemma tasks_connected_witness :
  is_Some (GraphQueues sample_started !! "graph-0010.0.0.3:6070") /\
  "10.0.0.3:6070" ∈ M (@GraphConnPools map_range_default set_list (@ParseConfig map_range_default sample_transfer_config)).
Proof.
  apply (@tasks_connected limited_list ring_mod map_range_default set_list sample_transfer_config
    (GraphTask "graph-00" "10.0.0.3:6070" 32)).
  apply list_elem_of_lookup. exists 2%nat. vm_compute. reflexivity.
Defined.

(** With [maxConns] zero or less, which the semaphores read as one, the filter of
    busy hosts passes no host: the batch is dropped and nothing counts it. *)
Lemma transfer_zero_conns `{LimitedList, NodeRing, MapRange, NSet} (cfg : GlobalConfig) (env : transfer_env)
    (items : list MetricValue) (st : TransferState) :
  Transfer_MaxConns (Transfer cfg) <= 0 -> (forall j i h, 0 <= GetCounterCount env j i h) -> rint_ok cfg env ->
  forward2TransferTask_send cfg env items st = Ok (st, [], false).
Proof.
  intros Hm Hg Hr. unfold forward2TransferTask_send.
  assert (forall j k i, 0 <= i -> i + Z.of_nat k <= Z.of_nat (length (TransferHostnames cfg)) ->
    transfer_round cfg env j k i = Ok ([], false)) as E.
  { intros j. induction k as [|k IH]; intros i Hi Hk; cbn [transfer_round]; [done|].
    destruct (attempt_host_index cfg env j i Hr) as (host & _ & _ & Eg & Ei); [lia|]. rewrite Eg. cbn [rbind]. rewrite Ei. cbn [rbind].
    specialize (Hg j i host). destruct (Z.leb_spec (Transfer_MaxConns (Transfer cfg)) (GetCounterCount env j i host)); [|lia].
    apply IH; lia. }
  assert (forall m j, transfer_rounds cfg env m j = Ok ([], false)) as ->.
  { induction m as [|m IH]; intros j; cbn [transfer_rounds]; [done|]. rewrite E by lia. cbn [rbind]. by rewrite IH. }
  done.
Qed.

(** The pools of the relay are made for the texts of the nodes, its tasks call the
    addresses in them: with two addresses in a node no call can succeed. *)
Example p8s_relay_without_pool :
  P8sRelayTask "relay-00" "10.0.0.7:80" 32 ∈ @startSendTasks map_range_default (@ParseConfig map_range_default sample_transfer_config) /\
  (forall net, snd (call_retry 3 (@P8sRelayConnPools map_range_default set_list
    (@ParseConfig map_range_default sample_transfer_config)) "10.0.0.7:80" net 0) = false).
Proof.
  split; [apply list_elem_of_lookup; exists 4%nat; vm_compute; reflexivity|].
  assert (@P8sRelayConnPools map_range_default set_list (@ParseConfig map_range_default sample_transfer_config)
    = CreateSafeRpcConnPools 32 32 1000 5000 ["10.0.0.7:80,10.0.0.8:80"]) as -> by (vm_compute; reflexivity).
  intros net. vm_compute. reflexivity.
Qed.
