(* ===== verification/TransferTsdb.v ===== *)
(** modules/transfer and common: the way of a batch to OpenTSDB. The text of an item
    (common/model/tsdb.go), the buffer of a batch (sender/send_tasks.go) and its way over a
    pooled connection (common/backend_pool/tsdb_backends.go). *)
From Stdlib Require Import Ascii ZArith.
From stdpp Require Import base list gmap strings numbers pretty.
From S2P Require Import Prelude GoString GoFloat GoText Utils Model ThirdParty TransferCfg TransferSender TransferTasks.

Local Open Scope Z_scope.

(** [strings.ToLower]: of text in ASCII the letters only. *)
Class UnicodeCase := {
  strings_ToLower : string -> string;
  strings_ToLower_ascii s : str_forall (fun c => byte_val c <? 128) s = true -> strings_ToLower s = strings_map lower s }.

Definition newline : string := String "010" "".

Section Text.
Context `{MapRange, UnicodeCase}.

(** * common/model/tsdb.go *)

Definition tsdb_tag (s : string) (kv : string * string) : string :=
  let key := strings_ToLower (strings_replace " " "_" (fst kv)) in
  let value := strings_replace " " "_" (snd kv) in
  s +:+ key +:+ "=" +:+ value +:+ " ".
Definition TsdbString (this : TsdbItem) : string :=
  fold_left tsdb_tag (range_pairs (TsdbItem_Tags this))
    ("put " +:+ TsdbItem_Metric this +:+ " " +:+ strconv_Itoa (TsdbItem_Timestamp this) +:+ " " +:+ f64_format 3 (TsdbItem_Value this) +:+ " ").

(** * sender/send_tasks.go *)

Definition tsdbBuffer (itemList : list TsdbItem) : string := fold_left (fun b it => b +:+ TsdbString it +:+ newline) itemList "".

(** * common/backend_pool/tsdb_backends.go *)

(** What becomes of a call: there is no connection; the write of the whole text returns; it
    fails after [k] bytes, and not after all of them; or the time is up before it returns, when
    [k] bytes were written, or will have been when the connection is closed. In the last case
    the goroutine may finish while [Send] returns: it assigns the same variable, and [nil]
    replaces the error. What is written is with the operating system, and no more is known of
    it. *)
Inductive tsdb_write := NotConnected | WriteDone | WriteFailed (k : nat) | WriteTimedOut (k : nat) (nil_late : bool).
(** What happens to the connection, what is written, and whether the error is nil. *)
Definition TsdbConnPoolHelper_Send (address data : string) (c : tsdb_write) : list pool_event * list string * bool :=
  match c with
  | NotConnected => ([], [], false)
  | WriteDone => ([Fetch address; Release address], [data], true)
  | WriteFailed k => ([Fetch address; ForceClose address], [str_take (k `min` (String.length data - 1)) data], false)
  | WriteTimedOut k nil_late => ([Fetch address; ForceClose address], [if nil_late : bool then data else str_take k data], nil_late)
  end.
(** The loop of attempts: what happens to connections, and the texts that are written. *)
Fixpoint tsdb_attempts (n : nat) (address data : string) (net : nat -> tsdb_write) (i : nat) : list pool_event * list string :=
  match n with
  | O => ([], [])
  | S n =>
      let '(ev, written, ok) := TsdbConnPoolHelper_Send address data (net i) in
      if ok : bool then (ev, written) else let '(ev', written') := tsdb_attempts n address data net (S i) in (ev ++ ev', written ++ written')
  end.
(** Whether a call returns no error. *)
Definition no_error (c : tsdb_write) : bool := snd (TsdbConnPoolHelper_Send "" "" c).
(** One goroutine of [forward2TsdbTask]: the counters, the connections and what is written. *)
Definition tsdb_forward `{LimitedList, NodeRing} (cfg : GlobalConfig) (net : nat -> tsdb_write) (itemList : list TsdbItem) (st : TransferState) : TransferState * (list pool_event * list string) :=
  (forward2TsdbTask_send cfg (fun i => no_error (net i)) itemList st,
   tsdb_attempts (Z.to_nat (Tsdb_MaxRetry (Tsdb cfg))) (Tsdb_Address (Tsdb cfg)) (tsdbBuffer itemList) net 0).

(** * The lines of a text *)

(** The lines that are complete, each cut at its spaces. *)
Definition lines_of (s : string) : list (list string) := map (fun line => strings_Split line " ") (removelast (strings_Split s "010")).
(** A field cut at its first equality sign. *)
Definition cut_tag (s : string) : option (string * string) := i ← find_byte "=" s; Some (str_take i s, str_drop (S i) s).
(** The tags of an item with spaces replaced and names in lower case. *)
Definition tsdb_tags (it : TsdbItem) : list (string * string) :=
  map (fun kv => (strings_ToLower (strings_replace " " "_" (fst kv)), strings_replace " " "_" (snd kv))) (range_pairs (TsdbItem_Tags it)).
Definition tag_text (kv : string * string) : string := fst kv +:+ "=" +:+ snd kv.
(** The fields of the line of an item; the line ends with a space. *)
Definition tsdb_fields (it : TsdbItem) : list string :=
  ["put"; TsdbItem_Metric it; strconv_Itoa (TsdbItem_Timestamp it); f64_format 3 (TsdbItem_Value it)] ++ map tag_text (tsdb_tags it).
(** Texts that the protocol can carry. *)
Record tsdb_clean (it : TsdbItem) : Prop := {
  tc_metric : TsdbItem_Metric it <> "" /\ str_free " " (TsdbItem_Metric it) = true /\ str_free "010" (TsdbItem_Metric it) = true;
  tc_time : is_int64 (TsdbItem_Timestamp it);
  tc_tags k v : TsdbItem_Tags it !! k = Some v ->
    str_forall (fun c => byte_val c <? 128) k = true /\ str_free "010" k = true /\ str_free "=" k = true /\ str_free "010" v = true }.

(** ** Texts *)

Lemma str_free_map c f s : (forall d, Ascii.eqb c (f d) = true -> Ascii.eqb c d = true) -> str_free c s = true -> str_free c (strings_map f s) = true.
Proof using Type.
  intros Hf. induction s as [|d s IH]; [done|]. intros [Hd Hs]%str_free_cons. cbn. apply andb_true_iff. split; [|by apply IH].
  destruct (Ascii.eqb c (f d)) eqn:E; [|done]. apply Hf in E. by rewrite E in Hd.
Qed.
Lemma replaced_no_space s : str_free " " (strings_replace " " "_" s) = true.
Proof using Type. unfold strings_replace, str_free in *. induction s as [|d s IH]; [done|]. cbn [strings_map str_forall]. rewrite IH, andb_true_r. by destruct (Ascii.eqb " " d) eqn:E; [|rewrite E]. Qed.
Lemma replaced_free c s : c <> "_"%char -> str_free c s = true -> str_free c (strings_replace " " "_" s) = true.
Proof using Type.
  intros Hc. apply str_free_map. intros d. destruct (Ascii.eqb " " d) eqn:E; [|done]. intros E'%Ascii.eqb_eq. by subst c.
Qed.
Lemma lower_free c s : (65 <=? byte_val c) && (byte_val c <=? 122) = false -> str_free c s = true -> str_free c (strings_map lower s) = true.
Proof using Type.
  intros Hc. apply str_free_map. intros d E%Ascii.eqb_eq. subst c. destruct (Ascii.eqb_spec (lower d) d) as [E|E]; [done|]. exfalso. clear -Hc E.
  unfold lower in *. destruct ((65 <=? byte_val d) && (byte_val d <=? 90)) eqn:Eb; [|done]. apply andb_true_iff in Eb as [B1%Z.leb_le B2%Z.leb_le].
  assert (byte_val (ascii_of_N (Z.to_N (byte_val d + 32))) = byte_val d + 32) as Eq by (unfold byte_val at 1; rewrite N_ascii_embedding by lia; lia). rewrite Eq in Hc. lia.
Qed.
Lemma replaced_ascii s : str_forall (fun c => byte_val c <? 128) s = true -> str_forall (fun c => byte_val c <? 128) (strings_replace " " "_" s) = true.
Proof using Type.
  unfold strings_replace. induction s as [|d s IH]; [done|]. cbn [str_forall strings_map]. intros [Hd Hs]%andb_true_iff. apply andb_true_iff. split; [|by apply IH].
  by destruct (Ascii.eqb " " d).
Qed.
Lemma format_free c prec x : is_digit c = false -> c <> "-"%char -> c <> "."%char -> str_free c "NaN+Inf" = true -> str_free c (f64_format prec x) = true.
Proof using Type.
  intros Hd Hm Hp Hn.
  assert (Hz : is_digit c = false -> Ascii.eqb c "0" = false) by (intros E; destruct (Ascii.eqb_spec c "0"); [by subst|done]).
  assert (Hpad : forall n s, str_free c s = true -> str_free c (pad_zeros n s) = true).
  { induction n as [|n IH]; intros s Hs; [done|]. cbn [pad_zeros]. destruct (_ <? _)%nat; [|done]. cbn. rewrite (Hz Hd). cbn. by apply IH. }
  assert (Hshow : forall (s : bool) n, str_free c ((if s then "-" else "") +:+ strconv_Itoa (n / 10 ^ Z.of_nat prec) +:+ (if (prec =? 0)%nat then "" else "." +:+ pad_zeros prec (strconv_Itoa (n mod 10 ^ Z.of_nat prec)))) = true).
  { intros s n. rewrite !str_free_app. rewrite strconv_Itoa_free by done. cbn [andb]. apply andb_true_iff. split.
    - destruct s; [|done]. cbn. destruct (Ascii.eqb_spec c "-"); [done|done].
    - destruct (prec =? 0)%nat; [done|]. rewrite str_free_app. rewrite Hpad by (by apply strconv_Itoa_free). cbn. destruct (Ascii.eqb_spec c "."); done. }
  unfold str_free in *. cbn in Hn. unfold f64_format.
  destruct x as [s|[|]| |s m e]; [apply Hshow| | | |apply Hshow]; cbn; repeat (apply andb_true_iff in Hn as [? Hn]); rewrite ?andb_true_iff; split_and!; try done.
  by destruct (Ascii.eqb_spec c "-").
Qed.

(** A text whose parts each end with a separator. *)
Fixpoint ended (sep : ascii) (l : list string) : string := match l with [] => "" | x :: l => x +:+ String sep (ended sep l) end.
Lemma split_ended sep l : Forall (fun s => str_free sep s = true) l -> strings_Split (ended sep l) sep = l ++ [""].
Proof using Type. induction 1 as [|x l Hx _ IH]; [done|]. cbn [ended]. rewrite strings_Split_app by done. cbn [app]. by f_equal. Qed.
Lemma fold_ended {A : Type} (f : A -> string) sep l b : fold_left (fun b x => b +:+ f x +:+ String sep "") l b = b +:+ ended sep (map f l).
Proof using Type.
  revert b. induction l as [|x l IH]; intros b; cbn [fold_left map ended]; [by rewrite str_app_nil_r|]. rewrite IH, !str_app_assoc. done.
Qed.
Lemma ended_app sep l l' : ended sep (l ++ l') = ended sep l +:+ ended sep l'.
Proof using Type. induction l as [|x l IH]; [done|]. cbn [app ended]. rewrite IH, str_app_assoc. done. Qed.

Lemma TsdbString_ended it : TsdbString it = ended " " (tsdb_fields it).
Proof using Type.
  unfold TsdbString, tsdb_fields, tsdb_tags. rewrite ended_app.
  assert (Hf : forall l b, fold_left tsdb_tag l b
    = b +:+ ended " " (map tag_text (map (fun kv => (strings_ToLower (strings_replace " " "_" (fst kv)), strings_replace " " "_" (snd kv))) l))).
  { intros l b. rewrite <-fold_ended. revert b. induction l as [|kv l IH]; intros b; [done|]. cbn [fold_left map]. rewrite IH. f_equal.
    unfold tsdb_tag, tag_text. by rewrite !str_app_assoc. }
  rewrite Hf. by f_equal.
Qed.
Lemma tsdbBuffer_ended items : tsdbBuffer items = ended "010" (map TsdbString items).
Proof using Type. unfold tsdbBuffer. apply (fold_ended TsdbString "010" items ""). Qed.
Lemma str_free_ended c sep l : Ascii.eqb c sep = false -> Forall (fun s => str_free c s = true) l -> str_free c (ended sep l) = true.
Proof using Type. intros Hc. induction 1 as [|x l Hx _ IH]; [done|]. cbn [ended]. rewrite str_free_app, Hx. unfold str_free in *. cbn. by rewrite Hc, IH. Qed.

Lemma tag_free it kv c : tsdb_clean it -> kv ∈ tsdb_tags it -> c = " "%char \/ c = "010"%char -> str_free c (tag_text kv) = true.
Proof using Type.
  intros Hc ([k v] & -> & Hk%elem_of_range_pairs)%list_elem_of_fmap Hsep. destruct (tc_tags it Hc k v Hk) as (Ha & Hkn & _ & Hvn).
  unfold tag_text. cbn [fst snd]. rewrite strings_ToLower_ascii by (by apply replaced_ascii).
  rewrite !str_free_app. apply andb_true_iff; split; [|apply andb_true_iff; split].
  - apply lower_free; [by destruct Hsep as [->| ->]|]. destruct Hsep as [->| ->]; [apply replaced_no_space|by apply replaced_free].
  - by destruct Hsep as [->| ->].
  - destruct Hsep as [->| ->]; [apply replaced_no_space|by apply replaced_free].
Qed.
Lemma fields_free it c : tsdb_clean it -> c = " "%char \/ c = "010"%char -> Forall (fun s => str_free c s = true) (tsdb_fields it).
Proof using Type.
  intros Hc Hsep. destruct (tc_metric it Hc) as (_ & M1 & M2). unfold tsdb_fields. apply Forall_app. split.
  - assert (is_digit c = false /\ c <> "-"%char /\ c <> "."%char /\ str_free c "NaN+Inf" = true /\ str_free c "put" = true /\ str_free c (TsdbItem_Metric it) = true) as (H1 & H2 & H3 & H4 & H5 & H6)
      by (destruct Hsep as [->| ->]; done).
    repeat constructor; [done|done|by apply strconv_Itoa_free|by apply format_free].
  - apply Forall_map, list.Forall_forall. intros kv Hkv. cbn. by eapply tag_free.
Qed.
(** A tag is read back from its field. *)
Lemma tags_cut it : tsdb_clean it -> mapM cut_tag (map tag_text (tsdb_tags it)) = Some (tsdb_tags it).
Proof using Type.
  intros Hc. unfold tsdb_tags.
  assert (Hin : forall kv, kv ∈ range_pairs (TsdbItem_Tags it) -> TsdbItem_Tags it !! fst kv = Some (snd kv)) by (intros [k v] ?%elem_of_range_pairs; done).
  induction (range_pairs (TsdbItem_Tags it)) as [|[k v] l IH]; [done|]. cbn [map mapM fst snd].
  destruct (tc_tags it Hc k v) as (Ha & Hkn & Heq & Hvn); [apply (Hin (k, v)); left|]. set (key := strings_ToLower _). set (value := strings_replace _ _ v).
  assert (cut_tag (tag_text (key, value)) = Some (key, value)) as ->.
  { unfold cut_tag, tag_text. cbn [fst snd]. destruct (find_byte_pair key value) as (-> & E1 & E2); [|cbn [mbind option_bind]; by rewrite E1, E2].
    unfold key. rewrite strings_ToLower_ascii by (by apply replaced_ascii). apply lower_free; [done|by apply replaced_free]. }
  cbn [mbind option_bind]. by rewrite IH by (intros kv Hkv; apply Hin; by right).
Qed.

(** ** Lines *)

Lemma take_within n s1 s2 : (n <= String.length s1)%nat -> str_take n (s1 +:+ s2) = str_take n s1.
Proof using Type.
  revert s1. induction n as [|n IH]; intros [|c s1] Hn; try done; cbn [String.length] in Hn; [lia|]. rewrite str_app_cons. cbn [str_take]. f_equal. apply IH. lia.
Qed.
Lemma take_beyond n s1 s2 : (String.length s1 <= n)%nat -> str_take n (s1 +:+ s2) = s1 +:+ str_take (n - String.length s1) s2.
Proof using Type.
  revert n. induction s1 as [|c s1 IH]; intros n Hn; [by rewrite Nat.sub_0_r|]. cbn [String.length] in *. destruct n as [|n]; [lia|].
  rewrite !str_app_cons. cbn [str_take]. f_equal. rewrite IH by lia. done.
Qed.
Lemma take_free c n s : str_free c s = true -> str_free c (str_take n s) = true.
Proof using Type. revert s. induction n as [|n IH]; intros [|d s] Hs; try done. apply str_free_cons in Hs as [Hd Hs]. cbn. apply andb_true_iff. split; [by rewrite Hd|by apply IH]. Qed.
(** The complete lines of the beginning of a text are its first lines. *)
Lemma prefix_lines sep L n : Forall (fun s => str_free sep s = true) L -> exists j, removelast (strings_Split (str_take n (ended sep L)) sep) = take j L.
Proof using Type.
  intros HL. revert n. induction HL as [|x L Hx _ IH]; intros n; [exists O; by destruct n|]. cbn [ended].
  destruct (Nat.le_gt_cases n (String.length x)) as [Hn|Hn].
  - exists O. rewrite take_within by done. rewrite strings_Split_free by (by apply take_free). done.
  - destruct (IH (n - String.length x - 1)%nat) as [j Hj]. exists (S j). rewrite take_beyond by lia.
    destruct (n - String.length x)%nat as [|m] eqn:Em; [lia|]. cbn [str_take]. rewrite strings_Split_app by done.
    rewrite Nat.sub_1_r in Hj. cbn [pred] in Hj. cbn [take]. rewrite <-Hj.
    pose proof (strings_Split_nonempty (str_take m (ended sep L)) sep). by destruct (strings_Split (str_take m (ended sep L)) sep).
Qed.
Lemma lines_prefix items n : Forall tsdb_clean items -> exists j, lines_of (str_take n (tsdbBuffer items)) = map (fun it => tsdb_fields it ++ [""]) (take j items).
Proof using Type.
  intros Hc. unfold lines_of. rewrite tsdbBuffer_ended. destruct (prefix_lines "010" (map TsdbString items) n) as [j Hj].
  { apply Forall_map. eapply Forall_impl; [exact Hc|]. intros it Hit. cbn. rewrite TsdbString_ended. apply str_free_ended; [done|]. apply fields_free; [done|by right]. }
  exists j. rewrite Hj. assert (take j (map TsdbString items) = map TsdbString (take j items)) as -> by apply firstn_map. rewrite map_map. apply map_ext_in. intros it (i & Hit & _)%list_elem_of_In%elem_of_take. rewrite list.Forall_forall in Hc.
  rewrite TsdbString_ended, split_ended; [done|]. apply fields_free; [eapply Hc, list_elem_of_lookup_2, Hit|by left].
Qed.
Lemma lines_all items : Forall tsdb_clean items -> lines_of (tsdbBuffer items) = map (fun it => tsdb_fields it ++ [""]) items.
Proof using Type.
  intros Hc. unfold lines_of. rewrite tsdbBuffer_ended, split_ended.
  - rewrite removelast_last, map_map. apply map_ext_in. intros it Hit%list_elem_of_In. rewrite list.Forall_forall in Hc.
    rewrite TsdbString_ended, split_ended; [done|]. apply fields_free; [by apply Hc|by left].
  - apply Forall_map. eapply Forall_impl; [exact Hc|]. intros it Hit. cbn. rewrite TsdbString_ended. apply str_free_ended; [done|]. apply fields_free; [done|by right].
Qed.

(** ** Attempts *)

Lemma Send_no_error address data c : snd (TsdbConnPoolHelper_Send address data c) = no_error c.
Proof using Type. by destruct c. Qed.
Lemma take_all s : str_take (String.length s) s = s.
Proof using Type. induction s as [|c s IH]; [done|]. cbn. by rewrite IH. Qed.
Lemma take_length n s : String.length (str_take n s) = (n `min` String.length s)%nat.
Proof using Type. revert s. induction n as [|n IH]; intros [|c s]; cbn; try done. by rewrite IH. Qed.
Lemma Send_written address data c : data <> "" ->
  let '(_, written, ok) := TsdbConnPoolHelper_Send address data c in
  Forall (fun w => exists n, w = str_take n data) written /\ (ok = true -> written = [data]) /\
  (length (filter (fun w => w = data) written) <= 1)%nat /\
  (ok = false -> (forall k b, c <> WriteTimedOut k b) -> filter (fun w => w = data) written = []).
Proof using Type.
  intros Hd. assert (Hlen : String.length data <> O) by (by destruct data).
  destruct c as [| |k|k [|]]; cbn [TsdbConnPoolHelper_Send]; split_and!; try done; try (cbn; lia);
    try (constructor; [|constructor]; first [by eexists | exists (String.length data); by rewrite take_all]);
    try (rewrite list.filter_cons; case_decide; cbn; lia).
  - intros _ _. rewrite list.filter_cons, decide_False; [done|]. intros E%(f_equal String.length). rewrite take_length in E. lia.
  - intros _ Hno. by destruct (Hno k false).
Qed.
Lemma attempts_spec n address data net i : data <> "" ->
  let written := snd (tsdb_attempts n address data net i) in
  Forall (fun w => exists k, w = str_take k data) written /\
  (snd (plain_retry n (fun i => no_error (net i)) i) = true -> list.last written = Some data) /\
  ((forall j k b, net j <> WriteTimedOut k b) -> (length (filter (fun w => w = data) written) <= 1)%nat).
Proof using Type.
  intros Hd. revert i. induction n as [|n IH]; intros i; cbn [tsdb_attempts plain_retry]; [cbn; split_and!; [constructor|done|lia]|].
  pose proof (Send_written address data (net i) Hd) as Hs. pose proof (Send_no_error address data (net i)) as He.
  destruct (TsdbConnPoolHelper_Send address data (net i)) as [[ev written] ok]. destruct Hs as (S1 & S2 & S3 & S4). cbn [snd] in He. rewrite <-He.
  destruct ok; cbn [snd]; [split_and!; [done|intros _; by rewrite S2|done]|].
  specialize (IH (S i)). destruct (tsdb_attempts n address data net (S i)) as [ev' written']. destruct (plain_retry n _ (S i)) as [calls ok].
  cbn [snd] in IH |- *. destruct IH as (H1 & H2 & H3). split_and!.
  - by apply Forall_app.
  - intros Hok. rewrite last_app. by rewrite H2.
  - intros Hno. rewrite list.filter_app, S4 by done. by apply H3.
Qed.
Lemma plain_retry_ok n send i : snd (plain_retry n send i) = true <-> exists j, (j < n)%nat /\ send (i + j)%nat = true.
Proof using Type.
  revert i. induction n as [|n IH]; intros i; cbn [plain_retry]; [split; [done|by intros (j & ? & _); lia]|]. destruct (send i) eqn:E.
  - split; [intros _; exists O; rewrite Nat.add_0_r; split; [lia|done]|done].
  - specialize (IH (S i)). destruct (plain_retry n send (S i)) as [calls ok]. cbn [snd] in *. rewrite IH. split.
    + intros (j & Hj & Hs). exists (S j). rewrite Nat.add_succ_r. split; [lia|done].
    + intros ([|j] & Hj & Hs); [rewrite Nat.add_0_r in Hs; congruence|]. exists j. rewrite Nat.add_succ_r in Hs. split; [lia|done].
Qed.
Lemma plain_retry_calls n send i : 0 <= fst (plain_retry n send i) /\ ((0 < n)%nat -> 0 < fst (plain_retry n send i)) /\ (n = O -> fst (plain_retry n send i) = 0).
Proof using Type.
  revert i. induction n as [|n IH]; intros i; cbn [plain_retry]; [cbn; lia|]. destruct (send i); [cbn; lia|]. specialize (IH (S i)). destruct (plain_retry n send (S i)). cbn in *. lia.
Qed.

(** C40. What is written to OpenTSDB. For a batch that is not empty, of items whose texts the
    protocol can carry (no line break, no space or nothing in the metric, ASCII names of tags
    without an equality sign), the text of the batch has one line for each item, in order, whose
    fields at the spaces are put, the metric, the time, the value with three decimals and the
    tags with spaces replaced and names in lower case, from which the tags are read back. Every
    attempt writes this text or a beginning of it, whose complete lines are those of the first
    items. A batch is counted as sent exactly when an attempt returned no error, and then the
    last text written is complete; else it is counted as failed, if there was an attempt. If no
    attempt timed out, it is completely written at most once. Written is with the operating
    system: nothing is known of what arrives. *)
Theorem tsdb_written `{LimitedList, NodeRing} cfg net items (st st' : TransferState) ev written :
  items <> [] -> Forall tsdb_clean items -> tsdb_forward cfg net items st = (st', (ev, written)) ->
  let retry := Z.to_nat (Tsdb_MaxRetry (Tsdb cfg)) in let n := Z.of_nat (length items) in let data := tsdbBuffer items in
  (lines_of data = map (fun it => tsdb_fields it ++ [""]) items /\ Forall (fun it => mapM cut_tag (drop 4 (tsdb_fields it)) = Some (tsdb_tags it)) items) /\
  Forall (fun w => exists k j, w = str_take k data /\ lines_of w = map (fun it => tsdb_fields it ++ [""]) (take j items)) written /\
  ((exists i, (i < retry)%nat /\ no_error (net i) = true) -> st' = IncrBy "SendToTsdbCnt" n st /\ list.last written = Some data) /\
  ((forall i, (i < retry)%nat -> no_error (net i) = false) -> st' = if 0 <? Tsdb_MaxRetry (Tsdb cfg) then IncrBy "SendToTsdbFailCnt" n st else st) /\
  ((forall i k b, net i <> WriteTimedOut k b) -> (length (filter (fun w => w = data) written) <= 1)%nat).
Proof using Type.
  intros Hne Hc E retry n data. unfold tsdb_forward in E. injection E as E1 E2. unfold forward2TsdbTask_send, retry_counters in E1. fold retry n in E1. fold retry data in E2.
  assert (Hd : data <> "").
  { unfold data. rewrite tsdbBuffer_ended. destruct items as [|it items]; [done|]. cbn [map ended]. by destruct (TsdbString it). }
  pose proof (attempts_spec retry (Tsdb_Address (Tsdb cfg)) data net 0 Hd) as (A1 & A2 & A3). rewrite E2 in A1, A2, A3. cbn [snd] in A1, A2, A3.
  pose proof (plain_retry_ok retry (fun i => no_error (net i)) 0) as Hok. pose proof (plain_retry_calls retry (fun i => no_error (net i)) 0) as Hcalls.
  destruct (plain_retry retry _ 0) as [calls ok]. cbn [fst snd] in *. split_and!.
  - by apply lines_all.
  - eapply Forall_impl; [exact Hc|]. intros it Hit. by apply tags_cut.
  - eapply Forall_impl; [exact A1|]. intros w [k ->]. destruct (lines_prefix items k Hc) as [j Hj]. by exists k, j.
  - intros (i & Hi & Ho). assert (ok = true) as -> by (apply Hok; by exists i). auto.
  - intros Hno. destruct ok; [exfalso; destruct (proj1 Hok eq_refl) as (j & Hj & Hr); specialize (Hno j Hj); cbn [Nat.add] in Hr; congruence|].
    subst st'. destruct (Z.ltb_spec 0 (Tsdb_MaxRetry (Tsdb cfg))).
    + destruct (Z.ltb_spec 0 calls); [done|]. subst retry. lia.
    + assert (retry = O) as Er by (subst retry; lia). destruct (Z.ltb_spec 0 calls); [|done]. destruct Hcalls as (_ & _ & Hz). rewrite (Hz Er) in *. lia.
  - done.
Qed.
End Text.

(** * Examples *)

Definition ascii_case : UnicodeCase.
Proof. by refine {| strings_ToLower := strings_map lower |}. Defined.
Definition sample_tsdb : TsdbItem := mkTsdbItem "net.in" {["Iface" := "eth 0"]} (f64_of_Z 5) 1600000000.
Lemma sample_tsdb_clean : tsdb_clean sample_tsdb.
Proof.
  constructor; [by vm_compute|by vm_compute|]. intros k v Hk. cbn [TsdbItem_Tags sample_tsdb] in Hk. apply lookup_singleton_Some in Hk as [<- <-]. by vm_compute.
Qed.
(** No connection, a write that breaks off, and one that does not. *)
Definition third_time (i : nat) : tsdb_write := match i with O => NotConnected | S O => WriteFailed 20 | _ => WriteDone end.
Lemma tsdb_written_witness :
  [sample_tsdb; sample_tsdb] <> [] /\ Forall tsdb_clean [sample_tsdb; sample_tsdb] /\
  list.last (snd (snd (@tsdb_forward map_range_default ascii_case limited_list ring_mod sample_transfer_config third_time [sample_tsdb; sample_tsdb] sample_started)))
  = Some (@tsdbBuffer map_range_default ascii_case [sample_tsdb; sample_tsdb]).
Proof.
  assert (Hc : Forall tsdb_clean [sample_tsdb; sample_tsdb]) by (repeat (constructor; [exact sample_tsdb_clean|]); constructor). split; [discriminate|]. split; [exact Hc|].
  destruct (@tsdb_forward map_range_default ascii_case limited_list ring_mod sample_transfer_config third_time [sample_tsdb; sample_tsdb] sample_started) as [st' [ev got]] eqn:E.
  apply (@tsdb_written map_range_default ascii_case limited_list ring_mod sample_transfer_config third_time [sample_tsdb; sample_tsdb] sample_started st' ev got ltac:(discriminate) Hc E).
  exists 2%nat. split; [apply Nat.ltb_lt; reflexivity|reflexivity].
Defined.
Example sample_line : @TsdbString map_range_default ascii_case sample_tsdb = "put net.in 1600000000 5.000 iface=eth_0 ".
Proof. by vm_compute. Qed.
(** A metric with a line break is read as a second command. *)
Example injected_put :
  lines_of (@tsdbBuffer map_range_default ascii_case [mkTsdbItem ("a 1 1 x=y" +:+ newline +:+ "put b") {["h" := "v"]} (f64_of_Z 5) 7])
  = [["put"; "a"; "1"; "1"; "x=y"]; ["put"; "b"; "7"; "5.000"; "h=v"; ""]].
Proof. by vm_compute. Qed.
(** Two tags whose names differ in case get one name. *)
Example tags_clash : @TsdbString map_range_default ascii_case (mkTsdbItem "m" {["A" := "1"; "a" := "2"]} (f64_of_Z 0) 7) = "put m 7 0.000 a=1 a=2 "
  \/ @TsdbString map_range_default ascii_case (mkTsdbItem "m" {["A" := "1"; "a" := "2"]} (f64_of_Z 0) 7) = "put m 7 0.000 a=2 a=1 ".
Proof. vm_compute. auto. Qed.
