(* ===== verification/TransferRecv.v ===== *)
(** modules/transfer/receiver: the validation of received points and their way
    into the send queues, over RPC or HTTP (rpc_transfer.go) and over the line
    protocol (socket_telnet.go). *)
From Stdlib Require Import Ascii ZArith.
From stdpp Require Import base list gmap strings pretty numbers.
From S2P Require Import Prelude GoString GoFloat GoText GoHash Utils Model JsonWire ThirdParty TransferCfg TransferSender TransferTasks.

Local Open Scope Z_scope.

(** * rpc/rpc_transfer.go *)

(** The [switch] on the dynamic type of a value. *)
Definition recv_value (v : GoValue) : option f64 :=
  match v with
  | VString cv => match strconv_ParseFloat cv with (vv, None) => Some vv | (_, Some _) => None end
  | VFloat64 cv => Some cv
  | VInt64 cv => Some (f64_of_Z cv)
  | VInt _ | VUint64 _ | VUint _ | VOther => None
  end.

(** One iteration of the loop; [None] counts as invalid. *)
Definition recv_item (now : Z) (arg : option MetricValue) : option MetaData :=
  match arg with
  | None => None
  | Some v =>
      if bool_decide (MetricValue_Metric v = "kernel.hostname") then None
      else if bool_decide (MetricValue_Metric v = "") || bool_decide (MetricValue_Endpoint v = "") then None
      else if negb (bool_decide (MetricValue_Type v = COUNTER)) && negb (bool_decide (MetricValue_Type v = GAUGE))
              && negb (bool_decide (MetricValue_Type v = DERIVE)) then None
      else if match MetricValue_Value v with VString cv => bool_decide (cv = "") | _ => false end then None
      else if MetricValue_Step v <=? 0 then None
      else if 510 <? str_len (MetricValue_Metric v) + str_len (MetricValue_Tags v) then None
      else
        let ts := if (MetricValue_Timestamp v <=? 0) || (i64 (now * 2) <? MetricValue_Timestamp v) then now
                  else MetricValue_Timestamp v in
        vv ← recv_value (MetricValue_Value v);
        Some (mkMetaData (MetricValue_Metric v) (MetricValue_Endpoint v) ts (MetricValue_Step v) vv
          (MetricValue_Type v) (DictedTagstring (MetricValue_Tags v)))
  end.

Section Recv.
Context `{LimitedList, NodeRing}.
Implicit Types st : TransferState.

Definition when (b : bool) (f : TransferState -> result TransferState) st : result TransferState :=
  if b then f st else Ok st.

(** [latency] is the time the call took, as the clock measured it. *)
Definition RecvMetricValues (cfg : GlobalConfig) (now latency : Z) (args : list (option MetricValue)) (from : string) st
    : result (TransferState * TransferResponse) :=
  let items := omap (recv_item now) args in
  let invalid := Z.of_nat (length (List.filter (fun a => match recv_item now a with None => true | Some _ => false end) args)) in
  let cnt := Z.of_nat (length items) in
  let st := IncrBy "RecvCnt" cnt st in
  let st := if bool_decide (from = "rpc") then IncrBy "RpcRecvCnt" cnt st
            else if bool_decide (from = "http") then IncrBy "HttpRecvCnt" cnt st else st in
  let! st := when (Graph_Enabled (Graph cfg)) (Push2GraphSendQueue cfg items) st in
  let! st := when (Judge_Enabled (Judge cfg)) (Push2JudgeSendQueue items) st in
  let! st := when (Tsdb_Enabled (Tsdb cfg)) (Push2TsdbSendQueue items) st in
  let! st := when (Transfer_Enabled (Transfer cfg)) (Push2TransferSendQueue items) st in
  let! st := when (Influxdb_Enabled (Influxdb cfg)) (Push2InfluxdbSendQueue items) st in
  let! st := when (P8sRelay_Enabled (P8sRelay cfg)) (Push2P8sRelaySendQueue cfg items) st in
  Ok (st, mkTransferResponse "ok" (Z.of_nat (length args)) invalid latency).

(** * socket/socket_telnet.go *)

(** example: endpoint counter timestamp value [type] [step] *)
Definition convertLine2MetaData (fields : list string) : option MetaData :=
  match fields with
  | endpoint :: metric :: f2 :: f3 :: rest =>
      if (2 <? length rest)%nat then None
      else
        ts ← strconv_ParseInt 64 f2;
        match strconv_ParseFloat f3 with
        | (_, Some _) => None
        | (v, None) =>
            let type_ := match rest with [] => COUNTER | f4 :: _ => f4 end in
            if negb (bool_decide (type_ = DERIVE)) && negb (bool_decide (type_ = GAUGE)) && negb (bool_decide (type_ = COUNTER))
            then None
            else
              step ← match rest with
                     | [_; f5] =>
                         match strings_Split f5 ":" with
                         | [s] => strconv_ParseInt 64 s
                         | [_; _; _; s] => strconv_ParseInt 64 s
                         | _ => None
                         end
                     | _ => Some DEFAULT_STEP
                     end;
              Some (mkMetaData metric endpoint ts step v type_ ∅)
        end
  | _ => None
  end.

Definition newline : ascii := "010".

(** The items of the lines read, each with its newline, until the read fails (the
    list ends) or a line says quit. *)
Fixpoint telnet_items (lines : list string) : list MetaData :=
  match lines with
  | [] => []
  | line :: lines =>
      let line := strings_Trim newline line in
      if bool_decide (line = "quit") then []
      else if bool_decide (line = "") then telnet_items lines
      else match strings_Fields line with
      | cmd :: ((_ :: _) as args) =>
          if bool_decide (cmd = "update") then
            match convertLine2MetaData args with
            | Some item => item :: telnet_items lines
            | None => telnet_items lines
            end
          else telnet_items lines
      | _ => telnet_items lines
      end
  end.

Definition socketTelnetHandle (cfg : GlobalConfig) (lines : list string) st : result TransferState :=
  let items := telnet_items lines in
  let cnt := Z.of_nat (length items) in
  let st := IncrBy "RecvCnt" cnt (IncrBy "SocketRecvCnt" cnt st) in
  let! st := when (Graph_Enabled (Graph cfg)) (Push2GraphSendQueue cfg items) st in
  let! st := when (Judge_Enabled (Judge cfg)) (Push2JudgeSendQueue items) st in
  let! st := when (Transfer_Enabled (Transfer cfg)) (Push2TransferSendQueue items) st in
  when (P8sRelay_Enabled (P8sRelay cfg)) (Push2P8sRelaySendQueue cfg items) st.

End Recv.

(** * Lemmas *)

Lemma recv_partition now args :
  (length (omap (recv_item now) args)
   + length (List.filter (fun a => match recv_item now a with None => true | Some _ => false end) args) = length args)%nat.
Proof. induction args as [|a args IH]; csimpl; [done|]. destruct (recv_item now a); csimpl; lia. Qed.

Section RecvLemmas.
Context `{LimitedList, NodeRing}.
Implicit Types st : TransferState.

(** A sink that is not enabled gets nothing. *)
Lemma when_spec {Q B : Type} (cfg : GlobalConfig) (name : string) (proj : TransferState -> Q)
    (upd : Q -> TransferState -> TransferState) (ext : Q -> Q -> list B -> Prop) (b : bool)
    (f : TransferState -> result TransferState) st (vs : list B) :
  (b = true -> started cfg st -> exists q p, f st = Ok (set_proc p (upd q st)) /\ ext (proj st) q vs /\
    same_cnt name (proc st) p /\ started cfg (set_proc p (upd q st))) ->
  set_proc (proc st) (upd (proj st) st) = st -> (forall q, ext q q []) -> started cfg st ->
  exists q p, when b f st = Ok (set_proc p (upd q st)) /\ ext (proj st) q (if b then vs else []) /\
    same_cnt name (proc st) p /\ started cfg (set_proc p (upd q st)).
Proof.
  intros Hf Hu Hn Hs. destruct b; [by apply Hf|]. exists (proj st), (proc st). simpl. rewrite Hu. by auto using same_cnt_refl.
Qed.

(** What the sinks got of [items]. *)
Record received (cfg : GlobalConfig) (items : list MetaData) (tsdb : bool) (st st' : TransferState) : Prop := {
  recv_graph : queues_extend (GraphQueues st) (GraphQueues st')
    (if Graph_Enabled (Graph cfg) then items ≫= graph_route cfg st else []);
  recv_judge : queues_extend (JudgeQueues st) (JudgeQueues st')
    (if Judge_Enabled (Judge cfg) then items ≫= judge_route st else []);
  recv_p8s : queues_extend (P8sRelayQueues st) (P8sRelayQueues st')
    (if P8sRelay_Enabled (P8sRelay cfg) then items ≫= p8s_route cfg st else []);
  recv_transfer : ptr_extends (TransferQueue st) (TransferQueue st')
    (if Transfer_Enabled (Transfer cfg) then items else []);
  recv_tsdb : ptr_extends (TsdbQueue st) (TsdbQueue st')
    (if Tsdb_Enabled (Tsdb cfg) && tsdb then map convert2TsdbItem items else []);
  recv_influxdb : ptr_extends (InfluxdbQueue st) (InfluxdbQueue st')
    (if Influxdb_Enabled (Influxdb cfg) && tsdb then map convert2InfluxdbItem items else []);
  recv_cnt : cnt st' "RecvCnt" = cnt st "RecvCnt" + Z.of_nat (length items) }.

#[local] Hint Resolve queues_extend_nil ptr_extends_nil : core.

Ltac sink q set_q := intros Hs; apply (when_spec _ _ q set_q);
  [eauto using Push2GraphSendQueue_spec, Push2JudgeSendQueue_spec, Push2TsdbSendQueue_spec, Push2TransferSendQueue_spec,
    Push2InfluxdbSendQueue_spec, Push2P8sRelaySendQueue_spec | match goal with |- _ = ?st => by destruct st end | auto | exact Hs].

Lemma when_graph cfg items st :
  started cfg st ->
  exists q p, when (Graph_Enabled (Graph cfg)) (Push2GraphSendQueue cfg items) st = Ok (set_proc p (set_GraphQueues q st)) /\
    queues_extend (GraphQueues st) q (if Graph_Enabled (Graph cfg) then items ≫= graph_route cfg st else []) /\
    same_cnt "SendToGraphDropCnt" (proc st) p /\ started cfg (set_proc p (set_GraphQueues q st)).
Proof. sink GraphQueues set_GraphQueues. Qed.

Lemma when_judge cfg items st :
  started cfg st ->
  exists q p, when (Judge_Enabled (Judge cfg)) (Push2JudgeSendQueue items) st = Ok (set_proc p (set_JudgeQueues q st)) /\
    queues_extend (JudgeQueues st) q (if Judge_Enabled (Judge cfg) then items ≫= judge_route st else []) /\
    same_cnt "SendToJudgeDropCnt" (proc st) p /\ started cfg (set_proc p (set_JudgeQueues q st)).
Proof. sink JudgeQueues set_JudgeQueues. Qed.

Lemma when_tsdb cfg items st :
  started cfg st ->
  exists q p, when (Tsdb_Enabled (Tsdb cfg)) (Push2TsdbSendQueue items) st = Ok (set_proc p (set_TsdbQueue q st)) /\
    ptr_extends (TsdbQueue st) q (if Tsdb_Enabled (Tsdb cfg) then map convert2TsdbItem items else []) /\
    same_cnt "SendToTsdbDropCnt" (proc st) p /\ started cfg (set_proc p (set_TsdbQueue q st)).
Proof. sink TsdbQueue set_TsdbQueue. Qed.

Lemma when_transfer cfg items st :
  started cfg st ->
  exists q p, when (Transfer_Enabled (Transfer cfg)) (Push2TransferSendQueue items) st = Ok (set_proc p (set_TransferQueue q st)) /\
    ptr_extends (TransferQueue st) q (if Transfer_Enabled (Transfer cfg) then items else []) /\
    same_cnt "SendToTransferDropCnt" (proc st) p /\ started cfg (set_proc p (set_TransferQueue q st)).
Proof. sink TransferQueue set_TransferQueue. Qed.

Lemma when_influxdb cfg items st :
  started cfg st ->
  exists q p, when (Influxdb_Enabled (Influxdb cfg)) (Push2InfluxdbSendQueue items) st = Ok (set_proc p (set_InfluxdbQueue q st)) /\
    ptr_extends (InfluxdbQueue st) q (if Influxdb_Enabled (Influxdb cfg) then map convert2InfluxdbItem items else []) /\
    same_cnt "SendToInfluxdbDropCnt" (proc st) p /\ started cfg (set_proc p (set_InfluxdbQueue q st)).
Proof. sink InfluxdbQueue set_InfluxdbQueue. Qed.

Lemma when_p8s cfg items st :
  started cfg st ->
  exists q p, when (P8sRelay_Enabled (P8sRelay cfg)) (Push2P8sRelaySendQueue cfg items) st = Ok (set_proc p (set_P8sRelayQueues q st)) /\
    queues_extend (P8sRelayQueues st) q (if P8sRelay_Enabled (P8sRelay cfg) then items ≫= p8s_route cfg st else []) /\
    same_cnt "SendToP8sRelayDropCnt" (proc st) p /\ started cfg (set_proc p (set_P8sRelayQueues q st)).
Proof. sink P8sRelayQueues set_P8sRelayQueues. Qed.

(** The counters of the receivers are not those of the queues. *)
Lemma same_cnt_RecvCnt name p p' : same_cnt name p p' -> name <> "RecvCnt" -> p' !! "RecvCnt" = p !! "RecvCnt".
Proof. intros Hs Hn. apply Hs. congruence. Qed.

Lemma RecvMetricValues_spec cfg now latency args from st :
  started cfg st ->
  exists st', RecvMetricValues cfg now latency args from st =
      Ok (st', mkTransferResponse "ok" (Z.of_nat (length args)) (Z.of_nat (length args - length (omap (recv_item now) args))) latency) /\
    started cfg st' /\ received cfg (omap (recv_item now) args) true st st'.
Proof.
  intros Hs. unfold RecvMetricValues. pose proof (recv_partition now args) as Hpart. set (items := omap (recv_item now) args) in *.
  set (st0 := if bool_decide (from = "rpc") then _ else _). set (n := Z.of_nat (length items)) in *.
  assert (cnt st0 "RecvCnt" = cnt st "RecvCnt" + n) as H0' by (unfold st0; repeat case_bool_decide; by rewrite !cnt_IncrBy).
  assert (st0 = set_proc (proc st0) st) as E0 by (unfold st0; by repeat case_bool_decide).
  change (cnt st0 "RecvCnt") with (default 0 (proc st0 !! "RecvCnt")) in H0'. revert H0' E0. generalize (proc st0) as p0.
  clearbody st0. intros p0 H0' ->. apply (started_proc _ p0) in Hs.
  destruct (when_graph _ items _ Hs) as (q1 & p1 & E & He1 & Hp1 & Hs1). rewrite E. cbn [rbind]. clear E Hs.
  destruct (when_judge _ items _ Hs1) as (q2 & p2 & E & He2 & Hp2 & Hs2). rewrite E. cbn [rbind]. clear E Hs1.
  destruct (when_tsdb _ items _ Hs2) as (q3 & p3 & E & He3 & Hp3 & Hs3). rewrite E. cbn [rbind]. clear E Hs2.
  destruct (when_transfer _ items _ Hs3) as (q4 & p4 & E & He4 & Hp4 & Hs4). rewrite E. cbn [rbind]. clear E Hs3.
  destruct (when_influxdb _ items _ Hs4) as (q5 & p5 & E & He5 & Hp5 & Hs5). rewrite E. cbn [rbind]. clear E Hs4.
  destruct (when_p8s _ items _ Hs5) as (q6 & p6 & E & He6 & Hp6 & Hs6). rewrite E. cbn [rbind]. clear E Hs5.
  eexists. split; [do 3 f_equal; lia|]. split; [exact Hs6|].
  constructor; [exact He1 | exact He2 | exact He6 | exact He4 | by rewrite andb_true_r | by rewrite andb_true_r |].
  unfold cnt at 1. simpl.
  apply same_cnt_RecvCnt in Hp1, Hp2, Hp3, Hp4, Hp5, Hp6; [|done..]. simpl in *.
  by rewrite Hp6, Hp5, Hp4, Hp3, Hp2, Hp1.
Qed.

Lemma socketTelnetHandle_spec cfg lines st :
  started cfg st ->
  exists st', socketTelnetHandle cfg lines st = Ok st' /\ started cfg st' /\ received cfg (telnet_items lines) false st st'.
Proof.
  intros Hs. unfold socketTelnetHandle. set (items := telnet_items lines) in *. set (n := Z.of_nat (length items)).
  set (st0 := IncrBy "RecvCnt" n _). assert (cnt st0 "RecvCnt" = cnt st "RecvCnt" + n) as H0' by (unfold st0; by rewrite !cnt_IncrBy).
  assert (st0 = set_proc (proc st0) st) as E0 by done.
  change (cnt st0 "RecvCnt") with (default 0 (proc st0 !! "RecvCnt")) in H0'. revert H0' E0. generalize (proc st0) as p0.
  clearbody st0. intros p0 H0' ->. apply (started_proc _ p0) in Hs.
  destruct (when_graph _ items _ Hs) as (q1 & p1 & E & He1 & Hp1 & Hs1). rewrite E. cbn [rbind]. clear E Hs.
  destruct (when_judge _ items _ Hs1) as (q2 & p2 & E & He2 & Hp2 & Hs2). rewrite E. cbn [rbind]. clear E Hs1.
  destruct (when_transfer _ items _ Hs2) as (q3 & p3 & E & He3 & Hp3 & Hs3). rewrite E. cbn [rbind]. clear E Hs2.
  destruct (when_p8s _ items _ Hs3) as (q4 & p4 & E & He4 & Hp4 & Hs4). rewrite E. clear E Hs3.
  eexists. split; [reflexivity|]. split; [exact Hs4|].
  constructor; [exact He1 | exact He2 | exact He4 | exact He3 | rewrite andb_false_r; apply ptr_extends_nil
    | rewrite andb_false_r; apply ptr_extends_nil |].
  unfold cnt at 1. simpl.
  apply same_cnt_RecvCnt in Hp1, Hp2, Hp3, Hp4; [|done..]. simpl in *. by rewrite Hp4, Hp3, Hp2, Hp1.
Qed.

End RecvLemmas.

(** * The states of the service *)

Section Reach.
Context `{LimitedList, NodeRing, MapRange, NSet}.
Implicit Types st : TransferState.

(** What a task does to the state: it takes a batch, or its goroutine counts one. *)
Inductive task_step (cfg : GlobalConfig) : TransferState -> TransferState -> Prop :=
  | pop_judge node st st' items : forward2JudgeTask_pop cfg node st = Ok (st', items) -> task_step cfg st st'
  | pop_graph node addr st st' items : forward2GraphTask_pop cfg node addr st = Ok (st', items) -> task_step cfg st st'
  | pop_p8s node addr st st' items : forward2P8sRelayTask_pop cfg node addr st = Ok (st', items) -> task_step cfg st st'
  | pop_tsdb st st' items : forward2TsdbTask_pop cfg st = Ok (st', items) -> task_step cfg st st'
  | pop_transfer st st' items : forward2TransferTask_pop cfg st = Ok (st', items) -> task_step cfg st st'
  | pop_influxdb st st' items : forward2InfluxdbTask_pop cfg st = Ok (st', items) -> task_step cfg st st'
  | send_counts st p : task_step cfg st (set_proc p st).

(** Any interleaving of receptions and tasks after start-up. *)
Inductive transfer_reachable (cfg : GlobalConfig) : TransferState -> Prop :=
  | reach_start : transfer_reachable cfg (Start cfg)
  | reach_recv st now latency args from st' reply :
      transfer_reachable cfg st -> RecvMetricValues cfg now latency args from st = Ok (st', reply) -> transfer_reachable cfg st'
  | reach_telnet st lines st' :
      transfer_reachable cfg st -> socketTelnetHandle cfg lines st = Ok st' -> transfer_reachable cfg st'
  | reach_task st st' : transfer_reachable cfg st -> task_step cfg st st' -> transfer_reachable cfg st'.

Lemma map_pop_some {V : Type} (m m' : gmap string (SafeListLimited V)) key batch items k :
  map_pop m key batch = Ok (m', items) -> is_Some (m !! k) -> is_Some (m' !! k).
Proof.
  unfold map_pop. destruct (m !! key); [|done]. destruct (SL_PopBackBy _ _) as [Q its]. intros [= <- <-] Hk.
  destruct (decide (key = k)) as [->|]; [rewrite lookup_insert_eq; eauto | by rewrite lookup_insert_ne].
Qed.

Lemma ptr_pop_some {V : Type} (q q' : option (SafeListLimited V)) batch items : ptr_pop q batch = Ok (q', items) -> is_Some q'.
Proof. destruct q; [|done]. simpl. destruct (SL_PopBackBy _ _). intros [= <- <-]. eauto. Qed.

Lemma map_pop_ring {V : Type} ring cl (m m' : gmap string (SafeListLimited V)) key batch items :
  map_pop m key batch = Ok (m', items) -> ring_queues ring cl m -> ring_queues ring cl m'.
Proof.
  intros Hm Hr pk node En. destruct (Hr pk node En) as (c & Ec & Ha). exists c. eauto using map_pop_some.
Qed.

Lemma task_step_started cfg st st' : task_step cfg st st' -> started cfg st -> started cfg st'.
Proof.
  intros Ht Hs. destruct Ht as [node st st' its E|node addr st st' its E|node addr st st' its E|st st' its E|st st' its E|st st' its E|st p];
    [..|by apply started_proc].
  all: apply rbind_Ok_inv in E as ([q its'] & E & [= <- <-]).
  all: destruct Hs; constructor; simpl; eauto using map_pop_some, map_pop_ring, ptr_pop_some.
Qed.

Lemma transfer_reachable_started cfg st : cfg_formatted cfg -> transfer_reachable cfg st -> started cfg st.
Proof.
  intros Hf. induction 1 as [|st now latency args from st' reply _ IH E|st lines st' _ IH E|st st' _ IH E].
  - by apply Start_started.
  - destruct (RecvMetricValues_spec cfg now latency args from st IH) as (s & E' & Hs & _). congruence.
  - destruct (socketTelnetHandle_spec cfg lines st IH) as (s & E' & Hs & _). congruence.
  - eauto using task_step_started.
Qed.

End Reach.

(** ** Lines of the socket *)

(** A point as a line of the protocol, its value written [vs]. *)
Definition print_line (d : MetaData) (vs : string) : string :=
  strings_Join ["update"; MetaData_Endpoint d; MetaData_Metric d; strconv_Itoa (MetaData_Timestamp d); vs;
    MetaData_CounterType d; strconv_Itoa (MetaData_Step d)] " " +:+ String newline "".

Record line_ok (d : MetaData) (vs : string) : Prop := {
  line_endpoint : word (MetaData_Endpoint d);
  line_metric : word (MetaData_Metric d);
  line_text : word vs;
  line_value : strconv_ParseFloat vs = (MetaData_Value d, None);
  line_type : MetaData_CounterType d ∈ [GAUGE; COUNTER; DERIVE];
  line_ts : is_int64 (MetaData_Timestamp d);
  line_step : is_int64 (MetaData_Step d);
  line_tags : MetaData_Tags d = ∅ }.

Lemma Itoa_word z : word (strconv_Itoa z).
Proof.
  split.
  - unfold strconv_Itoa, pretty, pretty_Z. destruct z; [done | apply (pretty_N_nonempty (N.pos p)) | done].
  - apply strconv_Itoa_forall; [done|]. intros c. unfold is_digit, is_graph, byte_val. lia.
Qed.

Lemma convertLine_printed d vs :
  line_ok d vs ->
  convertLine2MetaData [MetaData_Endpoint d; MetaData_Metric d; strconv_Itoa (MetaData_Timestamp d); vs;
    MetaData_CounterType d; strconv_Itoa (MetaData_Step d)] = Some d.
Proof.
  intros [_ _ _ Hv Hty Hts Hst Htg]. destruct d as [m e ts step v ty tags]. cbn -[strconv_ParseFloat strconv_ParseInt] in *.
  rewrite (Atoi_Itoa ts Hts : strconv_ParseInt 64 _ = _). cbn -[strconv_ParseFloat strconv_ParseInt]. rewrite Hv.
  rewrite strings_Split_free by (by apply strconv_Itoa_free).
  rewrite (Atoi_Itoa step Hst : strconv_ParseInt 64 _ = _). subst tags.
  rewrite !elem_of_cons in Hty. destruct Hty as [->|[->|[->|Hty]]]; [done..|]. by apply not_elem_of_nil in Hty.
Qed.

Lemma telnet_printed d vs lines : line_ok d vs -> telnet_items (print_line d vs :: lines) = d :: telnet_items lines.
Proof.
  intros Hok. unfold print_line.
  set (ws := ["update"; MetaData_Endpoint d; MetaData_Metric d; strconv_Itoa (MetaData_Timestamp d); vs;
    MetaData_CounterType d; strconv_Itoa (MetaData_Step d)]).
  assert (Forall word ws) as Hw.
  { destruct Hok. unfold ws. repeat (apply list.Forall_cons; split; [first [assumption | apply Itoa_word | split; done | idtac] |]);
      [|constructor]. rewrite !elem_of_cons in line_type0.
    destruct line_type0 as [->|[->|[->|Hty]]]; [done..|]. by apply not_elem_of_nil in Hty. }
  assert (str_free newline (strings_Join ws " ") = true) as Hn.
  { apply str_free_join; [done|]. eapply list.Forall_impl; [exact Hw|]. intros s [_ Hs]. revert Hs. apply str_forall_mono.
    intros c Hc. destruct (Ascii.eqb_spec newline c) as [<-|]; [done|]. done. }
  cbn [telnet_items]. rewrite strings_Trim_end by done. rewrite strings_Fields_Join by done.
  rewrite !bool_decide_false by done. unfold ws. cbv beta iota. rewrite bool_decide_true by done.
  by rewrite (convertLine_printed d vs Hok).
Qed.

Definition sample_metric : MetricValue := mkMetricValue "host" "cpu.idle" (VString "7") 60 "GAUGE" "core=0" 125.

(** * Properties *)

(** C13. Receiving a batch never panics in any state the service can reach, and
    answers with the number of points and of invalid ones. Each sink that is
    enabled gets every valid point, converted, in order: the graph and the relay in
    the queues of all addresses of the node its key hashes to, the judge in the
    queue of its node, the others in their one queue; a full queue refuses what
    comes after. The line protocol does the same, for four of the six sinks. *)
Theorem recv_routes `{LimitedList, NodeRing, MapRange, NSet} (c : GlobalConfig) (now latency : Z)
    (args : list (option MetricValue)) (from : string) (lines : list string) (st : TransferState) :
  let cfg := ParseConfig c in
  transfer_reachable cfg st ->
  (exists st', RecvMetricValues cfg now latency args from st = Ok (st', mkTransferResponse "ok" (Z.of_nat (length args))
      (Z.of_nat (length args - length (omap (recv_item now) args))) latency) /\
    received cfg (omap (recv_item now) args) true st st') /\
  (exists st', socketTelnetHandle cfg lines st = Ok st' /\ received cfg (telnet_items lines) false st st').
Proof.
  intros cfg Hr. apply transfer_reachable_started in Hr; [|apply ParseConfig_formatted]. split.
  - destruct (RecvMetricValues_spec cfg now latency args from st Hr) as (st' & E & _ & Hrec). eauto.
  - destruct (socketTelnetHandle_spec cfg lines st Hr) as (st' & E & _ & Hrec). eauto.
Qed.

Lemma recv_routes_witness :
  exists st', @RecvMetricValues limited_list ring_mod (@ParseConfig map_range_default sample_transfer_config) 1000 1
    [Some sample_metric; None] "rpc" sample_started = Ok (st', mkTransferResponse "ok" 2 1 1) /\
    cnt st' "RecvCnt" = cnt sample_started "RecvCnt" + 1.
Proof.
  destruct (@recv_routes limited_list ring_mod map_range_default set_list sample_transfer_config 1000 1
    [Some sample_metric; None] "rpc" [] sample_started) as [(st' & E & Hr) _].
  - apply reach_start.
  - assert (length (omap (recv_item 1000) [Some sample_metric; None]) = 1%nat) as El by (vm_compute; reflexivity).
    exists st'. split; [rewrite El in E; exact E|]. destruct Hr as [_ _ _ _ _ _ Hc]. rewrite El in Hc. exact Hc.
Defined.

(** A relayed point is accepted again, when the JSON that carries it can hold it. *)
Lemma relayed_item (now now' : Z) (arg : option MetricValue) (d : MetaData) :
  recv_item now arg = Some d -> 0 < now -> MetaData_Timestamp d <= i64 (now' * 2) ->
  str_len (MetaData_Metric d) + str_len (SortedTags (MetaData_Tags d)) <= 510 -> text_valid (convert d) = true ->
  recv_item now' (Some (wire_metric (convert d))) = Some d.
Proof.
  intros E Hnow Hts Hlen Htext. rewrite wire_metric_valid by done. revert E Hnow Hts Hlen. clear Htext.
  destruct arg as [v|]; [|done]. unfold recv_item at 1.
  case_bool_decide as Hk; [done|]. destruct (bool_decide _ || _) eqn:Hem; [done|]. destruct (_ && _) eqn:Hty; [done|].
  destruct (match MetricValue_Value v with VString cv => _ | _ => _ end); [done|].
  destruct (Z.leb_spec (MetricValue_Step v) 0) as [|Hst]; [done|]. destruct (510 <? _); [done|]. cbn zeta.
  set (ts := if _ || _ then now else _). destruct (recv_value (MetricValue_Value v)) as [vv|]; [|done].
  cbn [mbind option_bind]. intros [= <-] Hnow Hts Hlen. cbn [MetaData_Timestamp MetaData_Metric MetaData_Tags] in *.
  assert (0 < ts) as Hpos.
  { unfold ts. destruct (Z.leb_spec (MetricValue_Timestamp v) 0); [done|]. cbn [orb]. by destruct (_ <? _). }
  unfold recv_item, convert.
  cbn [MetricValue_Metric MetricValue_Endpoint MetricValue_Type MetricValue_Value MetricValue_Step MetricValue_Tags
    MetricValue_Timestamp MetaData_Metric MetaData_Endpoint MetaData_Timestamp MetaData_Step MetaData_Value
    MetaData_CounterType MetaData_Tags wire_value].
  rewrite bool_decide_false, Hem, Hty by done. destruct (Z.leb_spec (MetricValue_Step v) 0); [lia|].
  destruct (Z.ltb_spec 510 (str_len (MetricValue_Metric v) + str_len (SortedTags (DictedTagstring (MetricValue_Tags v))))); [lia|].
  destruct (Z.leb_spec ts 0); [lia|]. destruct (Z.ltb_spec (i64 (now' * 2)) ts); [lia|].
  cbn [recv_value orb mbind option_bind]. by rewrite DictedTagstring_SortedTags by apply DictedTagstring_wf.
Qed.

(** C16. Points one transfer accepted and relays to the next in one call over
    JSON-RPC. When the text of each is UTF-8, its metric and the sorted text of its
    tags fit the limit and the clocks agree within a factor of two: if all values
    are numbers, the next transfer decodes the batch and accepts exactly these
    points, in order; if one of them is a NaN or an infinity (which a value sent as
    the text [NaN] becomes: [nan_accepted]), the batch cannot be encoded, and none
    of it arrives. *)
Theorem relay_roundtrip (now now' : Z) (args : list (option MetricValue)) :
  let ds := omap (recv_item now) args in
  0 < now ->
  Forall (fun d => text_valid (convert d) = true /\ MetaData_Timestamp d <= i64 (now' * 2) /\
    str_len (MetaData_Metric d) + str_len (SortedTags (MetaData_Tags d)) <= 510) ds ->
  match wire_batch (map Some (map convert ds)) with
  | Some ws => Forall (fun d => f64_isFinite (MetaData_Value d) = true) ds /\ omap (recv_item now') ws = ds
  | None => Exists (fun d => f64_isFinite (MetaData_Value d) = false) ds
  end.
Proof.
  intros ds Hnow Hok. rewrite wire_batch_spec.
  assert (Forall (fun d => exists arg, recv_item now arg = Some d) ds) as Hacc.
  { apply list.Forall_forall. intros d (arg & _ & E)%list_elem_of_omap. by exists arg. }
  clearbody ds. destruct (forallb _ _) eqn:Ef.
  - split.
    + apply list.Forall_forall. intros d Hd. rewrite forallb_forall in Ef. apply (Ef (convert d)).
      apply list_elem_of_In, list_elem_of_fmap. by exists d.
    + clear Ef. induction Hok as [|d ds (Ht & Hts & Hlen) Hok IH]; [done|]. apply list.Forall_cons in Hacc as [[arg Ha] Hacc].
      cbn [map omap list_omap]. rewrite (relayed_item now now' arg d) by done. by rewrite IH.
  - clear Hok Hacc. induction ds as [|d ds IH]; [done|]. cbn [map forallb] in Ef.
    apply andb_false_iff in Ef as [Ef|Ef]; [by left | right; by apply IH].
Qed.

Lemma relay_roundtrip_witness :
  exists d ws, recv_item 1000 (Some sample_metric) = Some d /\ wire_batch [Some (convert d); Some (convert d)] = Some ws /\
    omap (recv_item 1010) ws = [d; d].
Proof.
  pose proof (relay_roundtrip 1000 1010 [Some sample_metric; None; Some sample_metric]) as H. cbv zeta in H.
  destruct (recv_item 1000 (Some sample_metric)) as [d|] eqn:Ed; [|vm_compute in Ed; discriminate].
  assert (omap (recv_item 1000) [Some sample_metric; None; Some sample_metric] = [d; d]) as El by (cbn [omap list_omap]; by rewrite Ed).
  rewrite El in H. exists d. vm_compute in Ed. injection Ed as <-.
  eexists. split; [reflexivity|]. split; [vm_compute; reflexivity|]. apply H.
  - lia.
  - repeat constructor; (vm_compute; reflexivity || (vm_compute; discriminate)).
Defined.

(** The text [NaN] is a value the transfer accepts. *)
Example nan_accepted :
  match recv_item 1000 (Some (mkMetricValue "host" "cpu.idle" (VString "NaN") 60 "GAUGE" "" 900)) with
  | Some d => f64_isNaN (MetaData_Value d) = true /\ wire_batch [Some (convert d)] = None
  | None => False
  end.
Proof. vm_compute. split; reflexivity. Qed.

(** A session of lines that print points is read back as those points, up to
    the line that says quit. *)
Theorem telnet_roundtrip (ds : list (MetaData * string)) (rest : list string) :
  Forall (fun '(d, vs) => line_ok d vs) ds ->
  telnet_items (map (fun '(d, vs) => print_line d vs) ds ++ ("quit" +:+ String newline "") :: rest) = map fst ds.
Proof.
  induction 1 as [|[d vs] ds Hd _ IH]; cbn [map app]; [vm_compute; reflexivity|].
  rewrite telnet_printed by done. by rewrite IH.
Qed.

Lemma telnet_roundtrip_witness :
  telnet_items ([print_line sample_meta "7"] ++ ["quit" +:+ String newline ""; "update"]) = [sample_meta].
Proof.
  apply (telnet_roundtrip [(sample_meta, "7")] ["update"]). apply list.Forall_singleton.
  constructor; [split; [done | reflexivity].. | vm_compute; reflexivity | left | vm_compute; split; discriminate
    | vm_compute; split; discriminate | reflexivity].
Defined.
