(* ===== verification/Nodata.v ===== *)
(** modules/nodata: the service that reports a configured value for series whose
    data stopped. Configurations come from the database (config), the last points
    of their series from the API (collector), the verdict of each minute is taken
    in judge, and the points it makes up are sent to the transfer (sender). *)
From Stdlib Require Import Ascii ZArith.
From stdpp Require Import base list gmap strings numbers.
From S2P Require Import Prelude GoString GoFloat GoText GoHash Utils Model ThirdParty.

Local Open Scope Z_scope.

(** * config/service *)

(** ** mockcfg.go *)
Record MockCfg := mkMockCfg {
  MockCfg_Id : Z;
  MockCfg_Name : string;
  MockCfg_Obj : string;
  MockCfg_ObjType : string;
  MockCfg_Metric : string;
  MockCfg_Tags : tagmap;
  MockCfg_Type : string;
  MockCfg_Step : Z;
  MockCfg_Mock : f64 }.

(** A row of the table mockcfg, its tags still text, and what [Scan] and the
    reader of tags make of it. *)
Record mock_row := mkMockRow {
  row_id : Z;
  row_name : string;
  row_obj : string;
  row_obj_type : string;
  row_metric : string;
  row_tags : string;
  row_dstype : string;
  row_step : Z;
  row_mock : f64 }.
Definition row_cfg (r : mock_row) : MockCfg :=
  mkMockCfg (row_id r) (row_name r) (row_obj r) (row_obj_type r) (row_metric r) (DictedTagstring (row_tags r))
    (row_dstype r) (row_step r) (row_mock r).

Definition checkMockCfg (mc : MockCfg) : bool :=
  if str_len (MockCfg_Metric mc) <? 1 then false
  else if negb (bool_decide (MockCfg_Type mc = "GAUGE")) then false
  else if MockCfg_Step mc <? 1 then false
  else true.

Definition isSpuerNodataCfg (A B : NodataConfig) : bool :=
  if bool_decide (NodataConfig_ObjType A = "group") && bool_decide (NodataConfig_ObjType B = "host") then false else true.

Definition getEndpointFromHosts (hosts : string) : list string :=
  fold_left (fun ret host =>
    let nh := strings_TrimSpace host in
    if negb (bool_decide (nh = "")) then ret ++ [nh] else ret) (strings_Split hosts "010") [].
Definition getEndpointFromOther : string -> list string := getEndpointFromHosts.

(** ** host.go: the rows of the join, [None] when there is no connection or the
    query fails; a row that does not scan is [None]. *)
Definition GetHostsFromGroup (rows : option (list (option (Z * string)))) : gmap string Z :=
  match rows with
  | None => ∅
  | Some rows =>
      fold_left (fun (hosts : gmap string Z) row =>
        match row with
        | None => hosts
        | Some (hid, hostname) => if (hid <? 0) || bool_decide (hostname = "") then hosts else <[hostname := hid]> hosts
        end) rows ∅
  end.

(** The two tables as the queries see them. *)
Record nodata_db := mkNodataDb {
  db_mockcfg : option (list (option mock_row));
  db_group : string -> option (list (option (Z * string))) }.

Section Config.
Context `{MapRange}.

Definition getEndpointFromGroups (db : nodata_db) (grps : string) : list string :=
  let hosts := fold_left (fun (hosts : gmap string string) grp =>
    let ngrp := strings_TrimSpace grp in
    if str_len ngrp <? 1 then hosts
    else fold_left (fun (hosts : gmap string string) hostname =>
      if negb (bool_decide (hostname = "")) then <[hostname := hostname]> hosts else hosts)
      (range_keys (GetHostsFromGroup (db_group db grp))) hosts) (strings_Split grps "010") ∅ in
  range_keys hosts.

Definition getEndpoint (db : nodata_db) (objType obj : string) : list string :=
  if bool_decide (objType = "host") then getEndpointFromHosts obj
  else if bool_decide (objType = "group") then getEndpointFromGroups db obj
  else if bool_decide (objType = "other") then getEndpointFromOther obj
  else [].

(** One endpoint of one row: the first configuration of a series stays, unless it
    comes from a group and the new one names the host. *)
Definition add_mockcfg (t : MockCfg) (ret : gmap string NodataConfig) (ep : string) : gmap string NodataConfig :=
  let uuid := PK ep (MockCfg_Metric t) (MockCfg_Tags t) in
  let ncfg := NewNodataConfig (MockCfg_Id t) (MockCfg_Name t) (MockCfg_ObjType t) ep (MockCfg_Metric t)
    (MockCfg_Tags t) (MockCfg_Type t) (MockCfg_Step t) (MockCfg_Mock t) in
  match ret !! uuid with
  | None => <[uuid := ncfg]> ret
  | Some val => if isSpuerNodataCfg val ncfg then ret else <[uuid := ncfg]> ret
  end.

Definition GetMockCfgFromDB (db : nodata_db) : gmap string NodataConfig :=
  match db_mockcfg db with
  | None => ∅
  | Some rows =>
      fold_left (fun ret row =>
        match row with
        | None => ret
        | Some r =>
            let t := row_cfg r in
            if negb (checkMockCfg t) then ret
            else fold_left (add_mockcfg t) (getEndpoint db (MockCfg_ObjType t) (MockCfg_Obj t)) ret
        end) rows ∅
  end.
End Config.

(** * The state of the service *)

(** collector.go *)
Record DataItem := mkDataItem {
  DataItem_Ts : Z;
  DataItem_Value : f64;
  DataItem_FStatus : string;
  DataItem_FTs : Z }.
Definition NewDataItem (ts : Z) (val : f64) (fstatus : string) (fts : Z) : DataItem := mkDataItem ts val fstatus fts.

(** status.go *)
Record NodataStatus := mkNodataStatus {
  NodataStatus_Key : string;
  NodataStatus_Status : string;
  NodataStatus_Cnt : Z;
  NodataStatus_Ts : Z }.
Definition NewNodataStatus (key status : string) (cnt ts : Z) : NodataStatus := mkNodataStatus key status cnt ts.

Section State.
Context `{LimitedList, NMap, MapRange}.

Record NodataState := mkNodataState {
  NdConfigMap : SafeMap NodataConfig;
  ItemMap : SafeMap (SafeListLimited DataItem);
  StatusMap : SafeMap NodataStatus;
  MockMap : SafeMap JsonMetaData }.
Implicit Types st : NodataState.

Definition set_NdConfigMap m st : NodataState := mkNodataState m (ItemMap st) (StatusMap st) (MockMap st).
Definition set_ItemMap m st : NodataState := mkNodataState (NdConfigMap st) m (StatusMap st) (MockMap st).
Definition set_StatusMap m st : NodataState := mkNodataState (NdConfigMap st) (ItemMap st) m (MockMap st).
Definition set_MockMap m st : NodataState := mkNodataState (NdConfigMap st) (ItemMap st) (StatusMap st) m.

(** ** config.go, config_cron.go *)
Definition Keys st : list string := NM_Keys (NdConfigMap st).
Definition GetNdConfig (key : string) st : option NodataConfig := NM_Get (NdConfigMap st) key.

Definition syncNdConfig (db : nodata_db) st : NodataState * Z :=
  let nm := fold_left (fun nm '(_, ndc) =>
    if bool_decide (NodataConfig_Endpoint ndc = "") then nm
    else NM_Put nm (PK (NodataConfig_Endpoint ndc) (NodataConfig_Metric ndc) (NodataConfig_Tags ndc)) ndc)
    (range_pairs (GetMockCfgFromDB db)) NewSafeMap in
  (set_NdConfigMap nm st, NM_Size nm).

(** ** collector.go *)
Definition GetFirstItem (key : string) st : option DataItem :=
  match NM_Get (ItemMap st) key with
  | None => None
  | Some listv => SL_Front listv
  end.

Definition AddItem (key : string) (val : DataItem) st : NodataState :=
  match NM_Get (ItemMap st) key with
  | None => set_ItemMap (NM_Put (ItemMap st) key (SL_PushFrontViolently val (NewSafeListLimited 3))) st
  | Some listv => set_ItemMap (NM_Put (ItemMap st) key (SL_PushFrontViolently val listv)) st
  end.

Definition RemoveItem (key : string) st : NodataState := set_ItemMap (NM_Remove (ItemMap st) key) st.

(** ** collector_cron.go *)

(** The request of [keys] in the order of the keys. *)
Definition last_params (keys : list string) st : list (string * string) :=
  omap (fun key => ndcfg ← GetNdConfig key st;
    Some (NodataConfig_Endpoint ndcfg, Counter (NodataConfig_Metric ndcfg) (NodataConfig_Tags ndcfg))) keys.

(** [query] is the answer of the API, [None] an error; an answer that is nil or has
    a nil value is [None]. The number of answers counts as fetched. *)
Definition fetchItemsAndStore (query : list (string * string) -> option (list (option GraphLastResp))) (fts : Z)
    (fetchKeys : list string) st : NodataState * Z :=
  match last_params fetchKeys st with
  | [] => (st, 0)
  | args =>
      match query args with
      | None => (st, 0)
      | Some resp =>
          (fold_left (fun st glr =>
             match glr with
             | None => st
             | Some glr =>
                 AddItem (PK2 (GraphLastResp_Endpoint glr) (GraphLastResp_Counter glr))
                   (NewDataItem (RRDData_Timestamp (GraphLastResp_Value glr)) (RRDData_Value (GraphLastResp_Value glr)) "OK" fts) st
             end) resp st, Z.of_nat (length resp))
      end
  end.

(** [keys[i : i+fetchSize]] for each round of the loop. *)
Fixpoint key_batches (fuel batch : nat) (keys : list string) : list (list string) :=
  match fuel with
  | O => []
  | S fuel => match keys with [] => [] | _ => take batch keys :: key_batches fuel batch (drop batch keys) end
  end.

(** The batches of the goroutines, one after the other. *)
Definition collectDataOnce (Collector_Batch : Z) (query : list (string * string) -> option (list (option GraphLastResp)))
    (fts : Z) st : NodataState * Z :=
  let keys := Keys st in
  let batch := if (Collector_Batch <? 100) || (1000 <? Collector_Batch) then 200 else Collector_Batch in
  fold_left (fun '(st, collectCnt) fetchKeys =>
    let '(st, size) := fetchItemsAndStore query fts fetchKeys st in (st, collectCnt + size))
    (key_batches (length keys) (Z.to_nat batch) keys) (st, 0).

(** ** status.go *)
Definition LastTs (key : string) st : Z :=
  match NM_Get (StatusMap st) key with None => 0 | Some v => NodataStatus_Ts v end.

Definition TurnOk (key : string) (ts : Z) st : NodataState :=
  match NM_Get (StatusMap st) key with
  | None => set_StatusMap (NM_Put (StatusMap st) key (NewNodataStatus key "OK" 0 ts)) st
  | Some ns => set_StatusMap (NM_Put (StatusMap st) key (mkNodataStatus (NodataStatus_Key ns) "OK" 0 ts)) st
  end.

Definition TurnNodata (key : string) (ts : Z) st : NodataState :=
  match NM_Get (StatusMap st) key with
  | None => set_StatusMap (NM_Put (StatusMap st) key (NewNodataStatus key "NODATA" 1 ts)) st
  | Some ns =>
      set_StatusMap (NM_Put (StatusMap st) key
        (mkNodataStatus (NodataStatus_Key ns) "NODATA" (i64 (NodataStatus_Cnt ns + 1)) ts)) st
  end.

(** A status not found is the zero value. *)
Definition GetNodataStatus (key : string) st : NodataStatus :=
  match NM_Get (StatusMap st) key with None => mkNodataStatus "" "" 0 0 | Some v => v end.
Definition GetAllNodataStatus st : list NodataStatus := omap (NM_Get (StatusMap st)) (NM_Keys (StatusMap st)).

(** ** judge_cron.go *)
Definition minfloat64 : f64 := f64_lit 1 (-6).
Definition fCompare (left right : f64) : Z :=
  let sub := f64_sub left right in
  if f64_gt sub (f64_lit (-1) (-6)) && f64_lt sub minfloat64 then 0
  else if f64_ge sub minfloat64 then 1
  else -1.

Definition getTimeout (step : Z) : Z := if step <? 60 then 180 else i64 (step * 3).

Definition genTs (nowTs step : Z) : Z :=
  let step := if step <? 1 then 60 else step in
  i64 (i64 (nowTs - Z.rem nowTs step) - i64 (2 * step)).

(** sender.go *)
Definition AddMock (key endpoint metric tags : string) (ts : Z) (dstype : string) (step : Z) (value : GoValue) st : NodataState :=
  set_MockMap (NM_Put (MockMap st) key (mkJsonMetaData metric endpoint ts step value dstype tags)) st.

Definition genMock (ts : Z) (key : string) (ndcfg : NodataConfig) st : NodataState :=
  AddMock key (NodataConfig_Endpoint ndcfg) (NodataConfig_Metric ndcfg) (SortedTags (NodataConfig_Tags ndcfg)) ts
    (NodataConfig_Type ndcfg) (NodataConfig_Step ndcfg) (VFloat64 (NodataConfig_Mock ndcfg)) st.

Definition judge_key (now : Z) st (key : string) : NodataState :=
  match GetNdConfig key st with
  | None => st
  | Some ndcfg =>
      let step := NodataConfig_Step ndcfg in
      let mock := NodataConfig_Mock ndcfg in
      match GetFirstItem key st with
      | None => st
      | Some item =>
          let lastTs := i64 (now - getTimeout step) in
          let nodata :=
            if i64 (LastTs key st + step) <=? now then genMock (genTs now step) key ndcfg (TurnNodata key now st) else st in
          if negb (bool_decide (DataItem_FStatus item = "OK")) || (DataItem_FTs item <? lastTs) then st
          else if fCompare mock (DataItem_Value item) =? 0 then nodata
          else if DataItem_Ts item <? lastTs then nodata
          else TurnOk key now st
      end
  end.
Definition judge (now : Z) st : NodataState := fold_left (judge_key now) (Keys st) st.

(** ** sender.go *)

(** The loop over [mocks], [fuel] rounds at most: the batches sent, or [None] when
    it does not end; [batch] negative makes the slice bounds invalid. *)
Fixpoint sendMock_loop {A : Type} (fuel : nat) (batch : Z) (mocks : list A) (i : Z) : result (option (list (list A))) :=
  match fuel with
  | O => Ok None
  | S fuel =>
      let mockSize := Z.of_nat (length mocks) in
      if i <? mockSize then
        let leftLen := mockSize - i in
        let sendSize := if leftLen <? batch then leftLen else batch in
        if sendSize <? 0 then Panic SliceBoundsOutOfRange
        else
          let fetchMocks := take (Z.to_nat sendSize) (drop (Z.to_nat i) mocks) in
          let! rest := sendMock_loop fuel batch mocks (i + sendSize) in
          Ok (cons fetchMocks <$> rest)
      else Ok (Some [])
  end.

(** [post] is the answer of the transfer to one request. *)
Definition sendItemsToTransfer (post : list JsonMetaData -> bool) (items : list JsonMetaData) : Z * bool :=
  if Z.of_nat (length items) <? 1 then (0, true)
  else if post items then (Z.of_nat (length items), true) else (0, false).

(** The state, the batches and the number of points the transfer took. *)
Definition sendMock (fuel : nat) (Sender_Batch : Z) (post : list JsonMetaData -> bool) st
    : result (option (NodataState * list (list JsonMetaData) * Z)) :=
  let mocks := NM_Slice (MockMap st) in
  let st := set_MockMap (NM_Clear (MockMap st)) st in
  let! batches := sendMock_loop fuel Sender_Batch mocks 0 in
  Ok (batches ← batches; Some (st, batches, fold_left (fun cnt items => cnt + fst (sendItemsToTransfer post items)) batches 0)).

(** [None] when another call holds the semaphore is -1. *)
Definition SendMockOnce (fuel : nat) (acquired enabled : bool) (Sender_Batch : Z) (post : list JsonMetaData -> bool) st
    : result (option (NodataState * Z)) :=
  if negb acquired then Ok (Some (st, -1))
  else if negb enabled then Ok (Some (st, 0))
  else let! r := sendMock fuel Sender_Batch post st in Ok ('(st, _, cnt) ← r; Some (st, cnt)).

End State.

(** * The verdict on a series *)

Section Verdict.
Context `{LimitedList, NMap, MapRange}.
Implicit Types st : NodataState.

(** The last point of the series was fetched recently. *)
Definition fetched (now step : Z) (item : DataItem) : Prop :=
  DataItem_FStatus item = "OK" /\ i64 (now - getTimeout step) <= DataItem_FTs item.
(** Its data stopped: the last point is old, or is a made-up one. *)
Definition silent (now step : Z) (mock : f64) (item : DataItem) : Prop :=
  fCompare mock (DataItem_Value item) = 0 \/ DataItem_Ts item < i64 (now - getTimeout step).

#[global] Instance fetched_dec now step item : Decision (fetched now step item).
Proof. unfold fetched. apply _. Defined.
#[global] Instance silent_dec now step mock item : Decision (silent now step mock item).
Proof. unfold silent. apply _. Defined.

Inductive verdict := Skip | Alive | Missing (c : NodataConfig).

Definition verdict_of (now : Z) st (key : string) : verdict :=
  match GetNdConfig key st, GetFirstItem key st with
  | Some c, Some item =>
      let step := NodataConfig_Step c in
      if decide (~ fetched now step item) then Skip
      else if decide (silent now step (NodataConfig_Mock c) item) then
        if decide (i64 (LastTs key st + step) <= now) then Missing c else Skip
      else Alive
  | _, _ => Skip
  end.

(** The status and the point made up after the verdict. *)
Definition judged (now : Z) st (key : string) : option NodataStatus * option JsonMetaData :=
  let old := NM_Get (StatusMap st) key in
  let name := match old with Some s => NodataStatus_Key s | None => key end in
  match verdict_of now st key with
  | Skip => (old, NM_Get (MockMap st) key)
  | Alive => (Some (mkNodataStatus name "OK" 0 now), NM_Get (MockMap st) key)
  | Missing c =>
      (Some (mkNodataStatus name "NODATA" (match old with Some s => i64 (NodataStatus_Cnt s + 1) | None => 1 end) now),
       Some (mkJsonMetaData (NodataConfig_Metric c) (NodataConfig_Endpoint c) (genTs now (NodataConfig_Step c))
         (NodataConfig_Step c) (VFloat64 (NodataConfig_Mock c)) (NodataConfig_Type c) (SortedTags (NodataConfig_Tags c))))
  end.

Definition entry st (key : string) : option NodataStatus * option JsonMetaData :=
  (NM_Get (StatusMap st) key, NM_Get (MockMap st) key).

Lemma TurnOk_get key ts st key' :
  NdConfigMap (TurnOk key ts st) = NdConfigMap st /\ ItemMap (TurnOk key ts st) = ItemMap st /\ MockMap (TurnOk key ts st) = MockMap st /\
  NM_Get (StatusMap (TurnOk key ts st)) key' =
    if decide (key = key') then Some (mkNodataStatus (match NM_Get (StatusMap st) key with Some s => NodataStatus_Key s | None => key end) "OK" 0 ts)
    else NM_Get (StatusMap st) key'.
Proof. unfold TurnOk. destruct (NM_Get (StatusMap st) key); simpl; rewrite NM_Get_Put; done. Qed.

Lemma TurnNodata_get key ts st key' :
  NdConfigMap (TurnNodata key ts st) = NdConfigMap st /\ ItemMap (TurnNodata key ts st) = ItemMap st /\ MockMap (TurnNodata key ts st) = MockMap st /\
  NM_Get (StatusMap (TurnNodata key ts st)) key' =
    if decide (key = key') then Some (mkNodataStatus (match NM_Get (StatusMap st) key with Some s => NodataStatus_Key s | None => key end) "NODATA"
      (match NM_Get (StatusMap st) key with Some s => i64 (NodataStatus_Cnt s + 1) | None => 1 end) ts)
    else NM_Get (StatusMap st) key'.
Proof. unfold TurnNodata. destruct (NM_Get (StatusMap st) key); simpl; rewrite NM_Get_Put; done. Qed.

Lemma judge_key_spec now st key :
  let st' := judge_key now st key in
  NdConfigMap st' = NdConfigMap st /\ ItemMap st' = ItemMap st /\
  forall key', entry st' key' = if decide (key = key') then judged now st key else entry st key'.
Proof.
  unfold judge_key, judged, verdict_of, entry.
  assert (forall key', (NM_Get (StatusMap st) key', NM_Get (MockMap st) key')
    = if decide (key = key') then (NM_Get (StatusMap st) key, NM_Get (MockMap st) key) else (NM_Get (StatusMap st) key', NM_Get (MockMap st) key')) as Hskip.
  { intros key'. case_decide; by subst. }
  destruct (GetNdConfig key st) as [c|]; [|done]. destruct (GetFirstItem key st) as [item|]; [|done]. cbn zeta.
  set (step := NodataConfig_Step c). set (lastTs := i64 (now - getTimeout step)).
  assert (negb (bool_decide (DataItem_FStatus item = "OK")) || (DataItem_FTs item <? lastTs) = bool_decide (~ fetched now step item)) as ->.
  { apply eq_true_iff_eq. rewrite bool_decide_eq_true, orb_true_iff, negb_true_iff, bool_decide_eq_false, Z.ltb_lt.
    unfold fetched. fold lastTs. destruct (decide (DataItem_FStatus item = "OK")), (decide (lastTs <= DataItem_FTs item)); intuition lia. }
  rewrite bool_decide_decide. case_decide as Hf; [done|].
  set (nodata := if i64 (LastTs key st + step) <=? now then _ else _).
  assert ((if fCompare (NodataConfig_Mock c) (DataItem_Value item) =? 0 then nodata
    else if DataItem_Ts item <? lastTs then nodata else TurnOk key now st)
    = if decide (silent now step (NodataConfig_Mock c) item) then nodata else TurnOk key now st) as ->.
  { destruct (Z.eqb_spec (fCompare (NodataConfig_Mock c) (DataItem_Value item)) 0), (Z.ltb_spec (DataItem_Ts item) lastTs);
      case_decide as Hs; try done; exfalso; unfold silent in Hs; fold lastTs in Hs; intuition lia. }
  case_decide as Hs.
  - unfold nodata. destruct (Z.leb_spec (i64 (LastTs key st + step)) now) as [Hl|Hl], (decide (i64 (LastTs key st + step) <= now)); try lia; [|done].
    unfold genMock, AddMock. cbn [NdConfigMap ItemMap StatusMap MockMap set_MockMap].
    destruct (TurnNodata_get key now st key) as (-> & -> & -> & _). split; [done|]. split; [done|]. intros key'.
    destruct (TurnNodata_get key now st key') as (_ & _ & _ & ->). rewrite NM_Get_Put. by case_decide.
  - destruct (TurnOk_get key now st key) as (-> & -> & -> & _). split; [done|]. split; [done|]. intros key'.
    destruct (TurnOk_get key now st key') as (_ & _ & _ & ->). case_decide; by subst.
Qed.

(** The verdict depends on the entry of its own key only. *)
Lemma judged_ext now st st' key :
  NdConfigMap st' = NdConfigMap st -> ItemMap st' = ItemMap st -> entry st' key = entry st key -> judged now st' key = judged now st key.
Proof.
  intros Hc Hi He. injection He as Hs Hm. unfold judged, verdict_of, GetNdConfig, GetFirstItem, LastTs. by rewrite Hc, Hi, Hs, Hm.
Qed.

Lemma judge_keys_spec now keys st :
  NoDup keys ->
  let st' := fold_left (judge_key now) keys st in
  NdConfigMap st' = NdConfigMap st /\ ItemMap st' = ItemMap st /\
  forall key, entry st' key = if decide (key ∈ keys) then judged now st key else entry st key.
Proof.
  revert st; induction keys as [|k keys IH]; intros st Hnd; cbn [fold_left].
  { split; [done|]. split; [done|]. intros key. case_decide as Hk; [by apply not_elem_of_nil in Hk | done]. }
  apply list.NoDup_cons in Hnd as [Hk Hnd]. destruct (judge_key_spec now st k) as (Hc & Hi & He).
  destruct (IH (judge_key now st k) Hnd) as (Hc' & Hi' & He'). split; [congruence|]. split; [congruence|].
  intros key. rewrite He'. destruct (decide (key = k)) as [->|Hne].
  - rewrite decide_False by done. rewrite He, !decide_True by set_solver. done.
  - case_decide as Hin.
    + rewrite decide_True by set_solver. apply judged_ext; [done..|]. by rewrite He, decide_False.
    + rewrite He, !decide_False by set_solver. done.
Qed.

Lemma genTs_spec now step :
  0 <= now <= int64_max / 4 -> 1 <= step <= int64_max / 4 ->
  (step | genTs now step) /\ now - 3 * step < genTs now step <= now - 2 * step.
Proof.
  assert (int64_max / 4 = 2305843009213693951) as -> by reflexivity. intros Hn Hs. unfold genTs.
  destruct (Z.ltb_spec step 1); [lia|].
  rewrite Z.rem_mod_nonneg by lia. pose proof (Z.mod_pos_bound now step). pose proof (Z.div_mod now step).
  pose proof (Z.mod_le now step).
  rewrite (i64_id (now - _)), (i64_id (2 * step)), i64_id by (unfold is_int64, int64_min, int64_max; lia).
  split; [|lia]. exists (now / step - 2). lia.
Qed.

End Verdict.

(** * The loop of the sender *)

Lemma sendMock_loop_spec {A : Type} (batch : Z) (mocks : list A) fuel i :
  0 < batch -> 0 <= i <= Z.of_nat (length mocks) -> (Z.to_nat (Z.of_nat (length mocks) - i) < fuel)%nat ->
  exists batches, sendMock_loop fuel batch mocks i = Ok (Some batches) /\
    mjoin batches = drop (Z.to_nat i) mocks /\ Forall (fun b => b <> [] /\ Z.of_nat (length b) <= batch) batches.
Proof.
  intros Hb. revert i. induction fuel as [|fuel IH]; intros i Hi Hf; [lia|]. cbn [sendMock_loop].
  destruct (Z.ltb_spec i (Z.of_nat (length mocks))) as [Hl|Hl].
  2:{ exists []. split; [done|]. split; [|constructor]. cbn. rewrite drop_ge by lia. done. }
  set (sz := if Z.of_nat (length mocks) - i <? batch then _ else _).
  assert (0 < sz <= batch /\ i + sz <= Z.of_nat (length mocks)) as [Hsz Hle].
  { unfold sz. destruct (Z.ltb_spec (Z.of_nat (length mocks) - i) batch); lia. }
  destruct (Z.ltb_spec sz 0); [lia|]. destruct (IH (i + sz)) as (batches & -> & Hj & Hall); [lia..|].
  eexists. split; [reflexivity|]. split.
  - change (take (Z.to_nat sz) (drop (Z.to_nat i) mocks) ++ mjoin batches = drop (Z.to_nat i) mocks). rewrite Hj.
    replace (Z.to_nat (i + sz)) with (Z.to_nat i + Z.to_nat sz)%nat by lia. rewrite <- drop_drop. apply take_drop.
  - constructor; [|done]. rewrite length_take, length_drop. split; [|lia].
    intros E. apply (f_equal length) in E. rewrite length_take, length_drop in E. simpl in E. lia.
Qed.

Lemma sendMock_loop_stuck {A : Type} (mocks : list A) fuel : mocks <> [] -> sendMock_loop fuel 0 mocks 0 = Ok None.
Proof.
  intros Hm. assert (0 < Z.of_nat (length mocks)) as Hl by (destruct mocks; [done | cbn [length]; lia]).
  induction fuel as [|fuel IH]; [done|]. cbn [sendMock_loop]. destruct (Z.ltb_spec 0 (Z.of_nat (length mocks))); [|lia].
  destruct (Z.ltb_spec (Z.of_nat (length mocks) - 0) 0); [lia|]. destruct (Z.ltb_spec 0 0); [lia|].
  rewrite Z.add_0_r, IH. done.
Qed.

(** * Conflicting configurations *)

Section Precedence.
Context `{MapRange}.

Definition cfg_key (c : NodataConfig) : string := PK (NodataConfig_Endpoint c) (NodataConfig_Metric c) (NodataConfig_Tags c).
Definition cfg_of (t : MockCfg) (ep : string) : NodataConfig :=
  NewNodataConfig (MockCfg_Id t) (MockCfg_Name t) (MockCfg_ObjType t) ep (MockCfg_Metric t)
    (MockCfg_Tags t) (MockCfg_Type t) (MockCfg_Step t) (MockCfg_Mock t).

(** The configurations the rows stand for, in the order they are read. *)
Definition candidates (db : nodata_db) : list NodataConfig :=
  default [] (db_mockcfg db) ≫= (fun row =>
    match row with
    | None => []
    | Some r =>
        let t := row_cfg r in
        if checkMockCfg t then map (cfg_of t) (getEndpoint db (MockCfg_ObjType t) (MockCfg_Obj t)) else []
    end).

(** Of the configurations of one series: the first, unless it is of a group and a
    later one names the host; then the first that does. *)
Definition preferred (l : list NodataConfig) : option NodataConfig :=
  match l with
  | [] => None
  | c :: l =>
      if decide (NodataConfig_ObjType c = "group") then
        Some (default c (head (filter (fun d => NodataConfig_ObjType d = "host") l)))
      else Some c
  end.

Definition add_cfg (ret : gmap string NodataConfig) (c : NodataConfig) : gmap string NodataConfig :=
  match ret !! cfg_key c with
  | None => <[cfg_key c := c]> ret
  | Some val => if isSpuerNodataCfg val c then ret else <[cfg_key c := c]> ret
  end.

Lemma GetMockCfgFromDB_fold db : GetMockCfgFromDB db = fold_left add_cfg (candidates db) ∅.
Proof.
  unfold GetMockCfgFromDB, candidates. destruct (db_mockcfg db) as [rows|]; [|done]. cbn [default from_option].
  generalize (∅ : gmap string NodataConfig) as ret. induction rows as [|row rows IH]; intros ret; csimpl; [done|].
  rewrite fold_left_app, IH. f_equal. destruct row as [r|]; [|done]. destruct (checkMockCfg _); [|done]. cbn [negb].
  generalize (row_cfg r) as t. clear IH. intros t. generalize (getEndpoint db (row_obj_type r) (row_obj r)) as eps. intros eps.
  revert ret. induction eps as [|ep eps IHe]; intros m; [reflexivity | apply IHe].
Qed.

Lemma add_cfg_some uuid l ret v :
  ret !! uuid = Some v ->
  fold_left add_cfg l ret !! uuid = preferred (v :: filter (fun c => cfg_key c = uuid) l).
Proof.
  revert ret v; induction l as [|c l IH]; intros ret v Hv; cbn [fold_left].
  { rewrite Hv. cbn. by case_decide. }
  rewrite filter_cons. destruct (decide (cfg_key c = uuid)) as [<-|Hne].
  - unfold add_cfg at 2. rewrite Hv. unfold isSpuerNodataCfg. cbn [preferred].
    rewrite filter_cons. destruct (decide (NodataConfig_ObjType v = "group")) as [Hg|Hg].
    + rewrite bool_decide_true by done. cbn [andb]. case_bool_decide as Hh.
      * rewrite decide_True by done. rewrite (IH _ c) by apply lookup_insert_eq. cbn [preferred head default from_option].
        rewrite decide_False; [done|]. rewrite Hh. done.
      * rewrite decide_False by done. rewrite (IH _ v) by done. cbn [preferred]. by rewrite decide_True.
    + rewrite bool_decide_false by done. cbn [andb]. rewrite (IH _ v) by done. cbn [preferred]. by rewrite decide_False.
  - apply IH. unfold add_cfg. destruct (ret !! cfg_key c); [destruct (isSpuerNodataCfg _ _); [done|]|]; by rewrite lookup_insert_ne by done.
Qed.

Lemma add_cfg_lookup uuid l ret :
  ret !! uuid = None -> fold_left add_cfg l ret !! uuid = preferred (filter (fun c => cfg_key c = uuid) l).
Proof.
  revert ret; induction l as [|c l IH]; intros ret Hv; cbn [fold_left]; [done|].
  rewrite filter_cons. destruct (decide (cfg_key c = uuid)) as [<-|Hne].
  - apply add_cfg_some. unfold add_cfg. rewrite Hv. apply lookup_insert_eq.
  - apply IH. unfold add_cfg. destruct (ret !! cfg_key c); [destruct (isSpuerNodataCfg _ _); [done|]|]; by rewrite lookup_insert_ne by done.
Qed.

(** What [checkMockCfg] and the reader of tags ensure. *)
Record cfg_ok (c : NodataConfig) : Prop := {
  cfg_metric : NodataConfig_Metric c <> "";
  cfg_type : NodataConfig_Type c = "GAUGE";
  cfg_step : 1 <= NodataConfig_Step c }.

Lemma checkMockCfg_ok t ep : checkMockCfg t = true -> cfg_ok (cfg_of t ep).
Proof.
  unfold checkMockCfg. destruct (Z.ltb_spec (str_len (MockCfg_Metric t)) 1) as [|Hm]; [done|].
  case_bool_decide; [|done]. destruct (Z.ltb_spec (MockCfg_Step t) 1); [done|]. intros _. constructor; cbn; [|done..].
  by destruct (MockCfg_Metric t).
Qed.

Lemma candidates_ok db c : c ∈ candidates db -> cfg_ok c /\ wf_tags (NodataConfig_Tags c).
Proof.
  unfold candidates. rewrite list_elem_of_bind. intros (row & Hc & Hrow). destruct row as [r|]; [|by apply not_elem_of_nil in Hc].
  destruct (checkMockCfg _) eqn:Ec; [|by apply not_elem_of_nil in Hc].
  apply list_elem_of_fmap in Hc as (ep & -> & _). split; [by apply checkMockCfg_ok | apply DictedTagstring_wf].
Qed.

Lemma preferred_elem l c : preferred l = Some c -> c ∈ l.
Proof.
  destruct l as [|d l]; [done|]. cbn [preferred]. case_decide; intros [= <-]; [|set_solver].
  destruct (filter (fun d => NodataConfig_ObjType d = "host") l) as [|h hs] eqn:E; cbn; [set_solver|].
  assert (h ∈ filter (fun d => NodataConfig_ObjType d = "host") l) as Hh by (rewrite E; set_solver).
  apply list_elem_of_filter in Hh as [_ Hh]. set_solver.
Qed.

Lemma GetMockCfgFromDB_cand db uuid c :
  GetMockCfgFromDB db !! uuid = Some c -> c ∈ candidates db /\ cfg_key c = uuid.
Proof.
  rewrite GetMockCfgFromDB_fold, add_cfg_lookup by done. intros E%preferred_elem. apply list_elem_of_filter in E. tauto.
Qed.

Lemma syncNdConfig_get `{LimitedList, NMap} db st key c :
  GetNdConfig key (fst (syncNdConfig db st)) = Some c ->
  c ∈ candidates db /\ cfg_key c = key /\ NodataConfig_Endpoint c <> "".
Proof.
  unfold GetNdConfig, syncNdConfig. cbn [fst NdConfigMap set_NdConfigMap].
  assert (forall (l : list (string * NodataConfig)) (nm : SafeMap NodataConfig), NM_Get (fold_left (fun nm '(_, ndc) =>
    if bool_decide (NodataConfig_Endpoint ndc = "") then nm
    else NM_Put nm (PK (NodataConfig_Endpoint ndc) (NodataConfig_Metric ndc) (NodataConfig_Tags ndc)) ndc) l nm) key = Some c ->
    NM_Get nm key = Some c \/ (exists k, (k, c) ∈ l /\ cfg_key c = key /\ NodataConfig_Endpoint c <> "")) as Hfold.
  { induction l as [|[k d] l IH]; intros nm; cbn [fold_left]; [by left|]. intros [E|(k' & Hin & Hr)]%IH.
    - case_bool_decide as He; [by left|]. rewrite NM_Get_Put in E. case_decide as Hk; [|by left].
      injection E as ->. right. exists k. split; [left|]. done.
    - right. exists k'. split; [by right|]. done. }
  intros [E|(k & Hin & Hk & He)]%Hfold; [by rewrite NM_Get_new in E|].
  apply elem_of_range_pairs, GetMockCfgFromDB_cand in Hin as [Hin _]. done.
Qed.

End Precedence.

Definition sample_ndcfg : NodataConfig := NewNodataConfig 1 "agent" "host" "host" "agent.alive" ∅ "GAUGE" 60 (f64_of_Z (-1)).
Definition sample_row (objType obj : string) : mock_row :=
  mkMockRow 1 "agent" obj objType "agent.alive" "" "GAUGE" 60 (f64_of_Z (-1)).
Definition sample_nodata_db : nodata_db :=
  mkNodataDb (Some [Some (sample_row "group" "g"); None; Some (sample_row "host" "host")]) (fun _ => Some [Some (1, "host")]).

(** * Properties *)

(** C18. A minute's judgement visits every configured series once and decides by
    its last fetched point alone: when that was fetched recently and is old or
    made-up, and the last verdict is at least a step ago, the series turns NODATA
    (its count of silent rounds goes up) and one point with the configured value is
    queued, at the start of the step before the last; when it is fresh the series
    turns OK; otherwise, and for every other key, nothing changes. *)
Theorem judge_verdicts `{LimitedList, NMap, MapRange} (now : Z) (st : NodataState) :
  NdConfigMap (judge now st) = NdConfigMap st /\ ItemMap (judge now st) = ItemMap st /\
  (forall key, entry (judge now st) key = if decide (key ∈ Keys st) then judged now st key else entry st key) /\
  (forall step, 0 <= now <= int64_max / 4 -> 1 <= step <= int64_max / 4 ->
    (step | genTs now step) /\ now - 3 * step < genTs now step <= now - 2 * step).
Proof.
  destruct (judge_keys_spec now (Keys st) st (NM_Keys_NoDup _)) as (Hc & Hi & He).
  split; [exact Hc|]. split; [exact Hi|]. split; [exact He|]. intros step. apply genTs_spec.
Qed.

(** Of the configurations of one series the service uses the first read, unless
    that one comes from a group and another names the host: then the first that
    does. Every configuration in use has a metric, the type GAUGE and a step of at
    least a second. *)
Theorem mockcfg_precedence `{MapRange} (db : nodata_db) (uuid : string) :
  GetMockCfgFromDB db !! uuid = preferred (filter (fun c => cfg_key c = uuid) (candidates db)) /\
  forall c, GetMockCfgFromDB db !! uuid = Some c -> cfg_ok c.
Proof.
  split.
  - rewrite GetMockCfgFromDB_fold. by apply add_cfg_lookup.
  - intros c [Hc _]%GetMockCfgFromDB_cand. by apply candidates_ok in Hc as [Hc _].
Qed.

Example host_wins : NodataConfig_ObjType <$> @GetMockCfgFromDB map_range_default sample_nodata_db !! "host/agent.alive" = Some "host".
Proof. vm_compute. reflexivity. Qed.

(** With a batch size of at least one the sender's loop ends after as many
    rounds as there are points: every queued point is posted exactly once, in
    non-empty batches of at most that size, and the queue is left empty. With a
    batch size of zero the loop never ends as soon as there is a point to send. *)
Theorem sendMock_terminates `{LimitedList, NMap} (Sender_Batch : Z) (post : list JsonMetaData -> bool) (st : NodataState) :
  0 < Sender_Batch ->
  (exists st' batches cnt, sendMock (S (length (NM_Slice (MockMap st)))) Sender_Batch post st = Ok (Some (st', batches, cnt)) /\
    mjoin batches = NM_Slice (MockMap st) /\ Forall (fun b => b <> [] /\ Z.of_nat (length b) <= Sender_Batch) batches /\
    forall key, NM_Get (MockMap st') key = None) /\
  (forall fuel, NM_Slice (MockMap st) <> [] -> sendMock fuel 0 post st = Ok None).
Proof.
  intros Hb. unfold sendMock. split.
  - destruct (sendMock_loop_spec Sender_Batch (NM_Slice (MockMap st)) (S (length (NM_Slice (MockMap st)))) 0)
      as (batches & -> & Hj & Ha); [done | lia..|]. cbn [rbind mbind option_bind].
    eexists _, batches, _. split; [reflexivity|]. split; [exact Hj|]. split; [exact Ha|]. apply NM_Get_Clear.
  - intros fuel Hm. by rewrite sendMock_loop_stuck.
Qed.

Definition sample_nodata_state : @NodataState limited_list nmap_gmap :=
  @genMock limited_list nmap_gmap 120 "host/agent.alive" sample_ndcfg (@mkNodataState limited_list nmap_gmap ∅ ∅ ∅ ∅).

Lemma sendMock_terminates_witness :
  exists st' batches cnt, @sendMock limited_list nmap_gmap 2 10 (fun _ => true) sample_nodata_state = Ok (Some (st', batches, cnt)) /\
    length (mjoin batches) = 1%nat.
Proof.
  destruct (@sendMock_terminates limited_list nmap_gmap 10 (fun _ => true) sample_nodata_state) as [(st' & b & cnt & E & Hj & _) _]; [lia|].
  exists st', b, cnt. split; [exact E|]. rewrite Hj. vm_compute. reflexivity.
Defined.
