(* ===== verification/Pipeline.v ===== *)
(** The services together: what one sends is what the next one relies on. Points
    go from nodata to the transfer, and from the transfer to the judge and to the
    graph. *)
From Stdlib Require Import Ascii ZArith.
From stdpp Require Import base list gmap strings numbers.
From S2P Require Import Prelude GoString GoFloat GoText GoHash Utils Model.
From S2P Require JudgeEvent JudgeStore.
From S2P Require Import ThirdParty TransferCfg TransferSender TransferTasks TransferRecv Nodata.

Local Open Scope Z_scope.

(** * From the transfer to the judge and the graph *)

Section Sent.
Context `{LimitedList, NodeRing, MapRange, NSet}.
Implicit Types st : TransferState.

(** Every element of every queue. *)
Definition queues_all {V : Type} (P : V -> Prop) (m : gmap string (SafeListLimited V)) : Prop :=
  forall key Q, m !! key = Some Q -> Forall P (SL_FrontAll Q).

Lemma queues_all_extend {V : Type} (P : V -> Prop) (m m' : gmap string (SafeListLimited V)) pushes :
  queues_extend m m' pushes -> Forall (fun p => P (snd p)) pushes -> queues_all P m -> queues_all P m'.
Proof.
  intros He Hp Hm key Q' E. specialize (He key). rewrite E in He. destruct (m !! key) as [Q|] eqn:EQ; [|done].
  destruct He as [_ ->]. apply Forall_app. split; [|by eapply Hm]. apply Forall_reverse, Forall_take.
  apply list.Forall_forall. intros v Hv. apply list_elem_of_omap in Hv as ([k v'] & Hin & Hv). case_decide; [|done].
  injection Hv as ->. rewrite list.Forall_forall in Hp. by apply (Hp _ Hin).
Qed.

Lemma queues_all_pop {V : Type} (P : V -> Prop) (m m' : gmap string (SafeListLimited V)) key batch items :
  0 <= batch -> map_pop m key batch = Ok (m', items) -> queues_all P m -> queues_all P m' /\ Forall P items.
Proof.
  intros Hb E Hm. apply map_pop_spec in E as (Q & Q' & EQ & -> & _ & Hr & _); [|done].
  assert (Forall P (items ++ reverse (SL_FrontAll Q'))) as Hall by (rewrite <- Hr; apply Forall_reverse; by eapply Hm).
  apply Forall_app in Hall as [Hi Hq]. split; [|done]. intros k Qk. destruct (decide (key = k)) as [->|].
  - rewrite lookup_insert_eq. intros [= <-]. rewrite <- (reverse_involutive (SL_FrontAll Q')). by apply Forall_reverse.
  - rewrite lookup_insert_ne by done. apply Hm.
Qed.

(** What a received point is: it has a known type. *)
Definition typed_point (d : MetaData) : Prop := MetaData_CounterType d ∈ [GAUGE; COUNTER; DERIVE].

(** What the judge and the graph get. *)
Definition judge_point (j : JudgeItem) : Prop := JudgeItem_JudgeType j ∈ [GAUGE; COUNTER; DERIVE].
Definition graph_point (g : GraphItem) : Prop := GraphItem_DsType g ∈ [GAUGE; DERIVE] /\ 1 <= GraphItem_Step g.

Lemma recv_item_typed now arg d : recv_item now arg = Some d -> typed_point d.
Proof.
  destruct arg as [v|]; [|done]. unfold recv_item. case_bool_decide; [done|]. destruct (bool_decide _ || _); [done|].
  destruct (_ && _) eqn:Hty; [done|]. destruct (match MetricValue_Value v with VString cv => _ | _ => _ end); [done|].
  destruct (_ <=? 0); [done|]. destruct (510 <? _); [done|]. destruct (recv_value _); [|done]. intros [= <-].
  unfold typed_point. cbn [MetaData_CounterType]. revert Hty. repeat case_bool_decide; try done; set_solver.
Qed.

Lemma telnet_items_typed lines : Forall typed_point (telnet_items lines).
Proof.
  induction lines as [|line lines IH]; cbn [telnet_items]; [constructor|].
  destruct (bool_decide _); [constructor|]. destruct (bool_decide _); [done|].
  destruct (strings_Fields _) as [|cmd [|a args]]; [done..|]. destruct (bool_decide _); [|done].
  destruct (convertLine2MetaData (a :: args)) as [d|] eqn:E; [|done]. constructor; [|done].
  revert E. unfold convertLine2MetaData. destruct args as [|f1 [|f2 [|f3 rest]]]; [done..|].
  destruct (2 <? length rest)%nat; [done|]. destruct (strconv_ParseInt 64 f2); [|done]. cbn [mbind option_bind].
  destruct (strconv_ParseFloat f3) as [v [e|]]; [done|]. set (ty := match rest with [] => _ | _ => _ end).
  destruct (_ && _) eqn:Hty; [done|]. destruct (match rest with [_; _] => _ | _ => _ end); [|done]. intros [= <-].
  unfold typed_point. cbn [MetaData_CounterType]. revert Hty. repeat case_bool_decide; try done; set_solver.
Qed.

Lemma judge_route_point st items :
  Forall typed_point items -> Forall (fun p => judge_point (snd p)) (items ≫= judge_route st).
Proof.
  intros Hi. apply list.Forall_forall. intros [k j] Hp. apply list_elem_of_bind in Hp as (d & Hp & Hd).
  rewrite list.Forall_forall in Hi. specialize (Hi d Hd). unfold judge_route in Hp. destruct (GetNode _ _); [|by apply not_elem_of_nil in Hp].
  destruct (judge_item (MinStep st) d) as [j'|] eqn:E; [|by apply not_elem_of_nil in Hp].
  apply list_elem_of_singleton in Hp as [= -> ->]. unfold judge_item in E. apply rbind_Ok_inv in E as (ts & _ & [= <-]). exact Hi.
Qed.

Lemma graph_route_point cfg st items :
  1 <= MinStep st -> Forall (fun p => graph_point (snd p)) (items ≫= graph_route cfg st).
Proof.
  intros Hm. apply list.Forall_forall. intros [k g] Hp. apply list_elem_of_bind in Hp as (d & Hp & Hd).
  unfold graph_route, addr_route in Hp. destruct (convert2GraphItem (MinStep st) d) as [[g'|]|] eqn:E;
    [|by apply not_elem_of_nil in Hp..]. destruct (GetNode _ _); [|by apply not_elem_of_nil in Hp].
  destruct (_ !! _); [|by apply not_elem_of_nil in Hp]. apply list_elem_of_fmap in Hp as (a & [= -> ->] & _). cbn [snd].
  unfold convert2GraphItem in E. pose proof (at_least_ge (MinStep st) (MetaData_Step d)). unfold graph_point.
  repeat case_bool_decide; try done; apply rbind_Ok_inv in E as (ts & _ & [= <-]); cbn; (split; [set_solver | lia]).
Qed.

Definition sent_ok st : Prop := queues_all judge_point (JudgeQueues st) /\ queues_all graph_point (GraphQueues st).

Lemma received_sent_ok cfg items b st st' :
  started cfg st -> Forall typed_point items -> received cfg items b st st' -> sent_ok st -> sent_ok st'.
Proof.
  intros Hs Hi Hr [Hj Hg]. split.
  - eapply queues_all_extend; [by eapply recv_judge| |done]. destruct (Judge_Enabled _); [by apply judge_route_point | constructor].
  - eapply queues_all_extend; [by eapply recv_graph| |done].
    destruct (Graph_Enabled _); [apply graph_route_point; by eapply started_MinStep | constructor].
Qed.

Lemma new_queues_all {V : Type} (P : V -> Prop) (m : gmap string (SafeListLimited V)) :
  (forall k Q, m !! k = Some Q -> SL_FrontAll Q = []) -> queues_all P m.
Proof. intros Hm k Q E. rewrite (Hm k Q E). constructor. Qed.

Lemma node_queues_empty {V : Type} (cl : gmap string ClusterNode) k (Q : SafeListLimited V) :
  node_queues cl !! k = Some Q -> SL_FrontAll Q = [].
Proof.
  unfold node_queues. assert (forall k (Q : SafeListLimited V), (∅ : gmap string (SafeListLimited V)) !! k = Some Q -> SL_FrontAll Q = []) as H0'.
  { intros k' Q'. by rewrite lookup_empty. }
  revert H0'. generalize (∅ : gmap string (SafeListLimited V)) as m. revert k Q. induction (range_pairs cl) as [|[node c] l IH]; intros k Q m Hm; cbn [fold_left]; [apply Hm|].
  apply IH. clear IH. intros k' Q'. revert m Hm. induction (Addrs c) as [|a addrs IHa]; intros m Hm; cbn [fold_left]; [apply Hm|].
  apply IHa. intros k2 Q2. destruct (decide (node +:+ a = k2)) as [<-|].
  - rewrite lookup_insert_eq. intros [= <-]. apply SL_new_all.
  - rewrite lookup_insert_ne by done. apply Hm.
Qed.

Lemma Start_sent_ok cfg : sent_ok (Start cfg).
Proof.
  split; apply new_queues_all; cbn [Start JudgeQueues GraphQueues].
  - apply new_queues_total. intros k Q. by rewrite lookup_empty.
  - apply node_queues_empty.
Qed.

Lemma task_sent_ok cfg st st' :
  0 <= Judge_Batch (Judge cfg) -> 0 <= Graph_Batch (Graph cfg) -> task_step cfg st st' -> sent_ok st -> sent_ok st'.
Proof.
  intros Hbj Hbg Ht [Hj Hg].
  destruct Ht as [node st st' its E|node addr st st' its E|node addr st st' its E|st st' its E|st st' its E|st st' its E|st p];
    [..|done].
  all: apply rbind_Ok_inv in E as ([q its'] & E & [= <- <-]); try done.
  - apply (queues_all_pop judge_point) in E as [E _]; [|done..]. done.
  - apply (queues_all_pop graph_point) in E as [E _]; [|done..]. done.
Qed.

Lemma reachable_sent_ok cfg st :
  cfg_formatted cfg -> 0 <= Judge_Batch (Judge cfg) -> 0 <= Graph_Batch (Graph cfg) -> transfer_reachable cfg st -> sent_ok st.
Proof.
  intros Hf Hbj Hbg Hr. induction Hr as [|st now latency args from st' reply Hr IH E|st lines st' Hr IH E|st st' Hr IH E].
  - apply Start_sent_ok.
  - pose proof (transfer_reachable_started _ _ Hf Hr) as Hs.
    destruct (RecvMetricValues_spec cfg now latency args from st Hs) as (s & E' & _ & Hrec). rewrite E in E'. injection E' as -> _.
    eapply received_sent_ok; [exact Hs| |exact Hrec|exact IH].
    apply list.Forall_forall. intros d Hd. apply list_elem_of_omap in Hd as (a & _ & Ha). by eapply recv_item_typed.
  - pose proof (transfer_reachable_started _ _ Hf Hr) as Hs.
    destruct (socketTelnetHandle_spec cfg lines st Hs) as (s & E' & _ & Hrec). rewrite E in E'. injection E' as ->.
    eapply received_sent_ok; [exact Hs|apply telnet_items_typed|exact Hrec|exact IH].
  - eauto using task_sent_ok.
Qed.

End Sent.

(** * From nodata to the transfer *)

(** The transfer decodes the JSON text of a made-up point by the field names, which
    are those of a received value. *)
Definition as_MetricValue (j : JsonMetaData) : MetricValue :=
  mkMetricValue (JsonMetaData_Endpoint j) (JsonMetaData_Metric j) (JsonMetaData_Value j) (JsonMetaData_Step j)
    (JsonMetaData_CounterType j) (JsonMetaData_Tags j) (JsonMetaData_Timestamp j).

Lemma recv_mock now ts c :
  cfg_ok c -> wf_tags (NodataConfig_Tags c) -> NodataConfig_Endpoint c <> "" -> NodataConfig_Metric c <> "kernel.hostname" ->
  str_len (NodataConfig_Metric c) + str_len (SortedTags (NodataConfig_Tags c)) <= 510 -> 0 < ts <= i64 (now * 2) ->
  recv_item now (Some (as_MetricValue (mkJsonMetaData (NodataConfig_Metric c) (NodataConfig_Endpoint c) ts (NodataConfig_Step c)
    (VFloat64 (NodataConfig_Mock c)) (NodataConfig_Type c) (SortedTags (NodataConfig_Tags c)))))
  = Some (mkMetaData (NodataConfig_Metric c) (NodataConfig_Endpoint c) ts (NodataConfig_Step c) (NodataConfig_Mock c)
      (NodataConfig_Type c) (NodataConfig_Tags c)).
Proof.
  intros [Hm Hty Hst] Hw He Hk Hlen Hts. unfold recv_item, as_MetricValue.
  cbn [MetricValue_Metric MetricValue_Endpoint MetricValue_Type MetricValue_Value MetricValue_Step MetricValue_Tags
    MetricValue_Timestamp JsonMetaData_Metric JsonMetaData_Endpoint JsonMetaData_Timestamp JsonMetaData_Step
    JsonMetaData_Value JsonMetaData_CounterType JsonMetaData_Tags].
  rewrite !bool_decide_false by done. rewrite Hty. cbn [orb andb].
  rewrite (bool_decide_true ("GAUGE" = GAUGE)) by done. rewrite andb_false_r, andb_false_l.
  destruct (Z.leb_spec (NodataConfig_Step c) 0); [lia|].
  destruct (Z.ltb_spec 510 (str_len (NodataConfig_Metric c) + str_len (SortedTags (NodataConfig_Tags c)))); [lia|].
  destruct (Z.leb_spec ts 0); [lia|]. destruct (Z.ltb_spec (i64 (now * 2)) ts); [lia|].
  cbn [recv_value orb mbind option_bind]. by rewrite DictedTagstring_SortedTags.
Qed.

(** * Properties *)

(** C19. Whatever batch a judge task takes from its queue, in any state a transfer
    whose batch sizes are not negative can reach, a judge takes it without a panic,
    in any state it can reach with alarms enabled, a positive [remain] and rules
    whose function texts do not make the reader panic and ask for fewer points than
    the largest int; and what a graph task takes has a type the graph knows and a
    positive step. *)
Theorem batches_accepted `{LimitedList, NodeRing, MapRange, NSet} (c : GlobalConfig) (st st' : TransferState) (node addr : string)
    (items : list JudgeItem) (jcfg : JudgeEvent.JudgeConfig) (now : Z) (w : JudgeStore.JudgeWorld) :
  0 <= Judge_Batch (Judge c) -> 0 <= Graph_Batch (Graph c) -> transfer_reachable (ParseConfig c) st ->
  JudgeEvent.Alarm_Enabled jcfg = true -> 1 <= JudgeEvent.Config_Remain jcfg -> JudgeStore.reachable jcfg w -> JudgeStore.rules_safe (JudgeStore.judge_state w) ->
  (forward2JudgeTask_pop (ParseConfig c) node st = Ok (st', items) -> safe (JudgeStore.Judge_Send jcfg now items w)) /\
  (forall st'' gs, forward2GraphTask_pop (ParseConfig c) node addr st = Ok (st'', gs) -> Forall graph_point gs).
Proof.
  intros Hbj Hbg Hr Hen Hrem Hw Hrules.
  destruct (reachable_sent_ok (ParseConfig c) st (ParseConfig_formatted c) Hbj Hbg Hr) as [Hj Hg]. split.
  - intros E. apply rbind_Ok_inv in E as ([q its] & E & [= <- <-]). apply (queues_all_pop judge_point) in E as [_ E]; [|done..].
    assert (Forall (fun it => JudgeItem_JudgeType it <> "") its) as Hty.
    { eapply list.Forall_impl; [exact E|]. intros it Hit Hempty. unfold judge_point in Hit. rewrite Hempty in Hit. set_solver. }
    destruct (JudgeStore.Send_safe_spec jcfg now its w Hen Hrem Hw Hrules Hty) as (w' & E' & _). by exists w'.
  - intros st'' gs E. apply rbind_Ok_inv in E as ([q its] & E & [= <- <-]). by apply (queues_all_pop graph_point) in E as [_ E].
Qed.

(** A transfer that has received a point for its judge. *)
Definition piped : @TransferState limited_list ring_mod :=
  match @RecvMetricValues limited_list ring_mod (@ParseConfig map_range_default sample_transfer_config) 1000 1
    [Some sample_metric] "rpc" sample_started with
  | Ok (st, _) => st
  | Panic _ => sample_started
  end.
Lemma piped_reachable :
  @transfer_reachable limited_list ring_mod map_range_default (@ParseConfig map_range_default sample_transfer_config) piped.
Proof.
  unfold piped. destruct (RecvMetricValues _ _ _ _ _ _) as [[st reply]|p] eqn:E; [|apply reach_start].
  eapply reach_recv; [apply reach_start | exact E].
Qed.

Lemma batches_accepted_witness :
  exists st item, @forward2JudgeTask_pop limited_list ring_mod (@ParseConfig map_range_default sample_transfer_config) "judge-00" piped
    = Ok (st, [item]) /\ JudgeItem_Metric item = "cpu.idle" /\
    safe (@JudgeStore.Judge_Send map_range_default JudgeEvent.sample_config 960 [item] JudgeStore.sample_world_3).
Proof.
  assert ((match @forward2JudgeTask_pop limited_list ring_mod (@ParseConfig map_range_default sample_transfer_config) "judge-00" piped with
    | Ok (_, items) => map JudgeItem_Metric items | Panic _ => [] end) = ["cpu.idle"]) as Ev by (vm_compute; reflexivity).
  destruct (@forward2JudgeTask_pop limited_list ring_mod (@ParseConfig map_range_default sample_transfer_config) "judge-00" piped)
    as [[st [|item [|]]]|p] eqn:E; [discriminate Ev | | discriminate Ev | discriminate Ev]. injection Ev as Em.
  exists st, item. split; [reflexivity|]. split; [exact Em|].
  refine (proj1 (@batches_accepted limited_list ring_mod map_range_default set_list sample_transfer_config piped st "judge-00" ""
    [item] JudgeEvent.sample_config 960 JudgeStore.sample_world_3 _ _ piped_reachable _ _ JudgeStore.sample_reachable
    JudgeStore.sample_rules_safe) E).
  - vm_compute. discriminate.
  - vm_compute. discriminate.
  - reflexivity.
  - vm_compute. discriminate.
Defined.

(** C20. The point nodata makes up for a configured series is, once received by the
    transfer, a point of that very series: same key, type, step and configured
    value, at the time nodata chose; and the collector asks the API for that key. The
    metric is not kernel.hostname, which the transfer drops, its name and tags have at
    most 510 bytes, and the time is positive and at most twice the transfer's. *)
Theorem mock_same_series `{LimitedList, NMap, MapRange} (db : nodata_db) (st : NodataState) (key : string) (c : NodataConfig)
    (now ts : Z) :
  let st := fst (syncNdConfig db st) in
  GetNdConfig key st = Some c -> NodataConfig_Metric c <> "kernel.hostname" ->
  str_len (NodataConfig_Metric c) + str_len (SortedTags (NodataConfig_Tags c)) <= 510 -> 0 < ts <= i64 (now * 2) ->
  exists j d, NM_Get (MockMap (genMock ts key c st)) key = Some j /\ recv_item now (Some (as_MetricValue j)) = Some d /\
    MetaData_PK d = key /\ MetaData_Value d = NodataConfig_Mock c /\ MetaData_Timestamp d = ts /\
    MetaData_CounterType d = GAUGE /\ MetaData_Step d = NodataConfig_Step c /\
    exists endpoint counter, last_params [key] st = [(endpoint, counter)] /\ PK2 endpoint counter = key.
Proof.
  cbn zeta. intros Hc Hk Hlen Hts. pose proof (syncNdConfig_get db st key c Hc) as (Hin & Hkey & He).
  destruct (candidates_ok db c Hin) as [Hok Hw]. eexists _, _.
  split; [unfold genMock, AddMock; cbn [MockMap set_MockMap]; by rewrite NM_Get_Put, decide_True|].
  split; [by apply recv_mock|]. split; [exact Hkey|]. split; [done|]. split; [done|]. split; [apply cfg_type, Hok|]. split; [done|].
  exists (NodataConfig_Endpoint c), (Counter (NodataConfig_Metric c) (NodataConfig_Tags c)). split.
  - unfold last_params, omap. cbn [list_omap]. by rewrite Hc.
  - rewrite <- Hkey. unfold cfg_key, PK2. symmetry. apply PK_Counter.
Qed.

Lemma mock_same_series_witness :
  exists j d, NM_Get (MockMap (@genMock limited_list nmap_gmap 120 "host/agent.alive" sample_ndcfg
      (fst (@syncNdConfig limited_list nmap_gmap map_range_default sample_nodata_db sample_nodata_state)))) "host/agent.alive" = Some j /\
    recv_item 1000 (Some (as_MetricValue j)) = Some d /\ MetaData_PK d = "host/agent.alive".
Proof.
  destruct (@mock_same_series limited_list nmap_gmap map_range_default sample_nodata_db sample_nodata_state "host/agent.alive"
    sample_ndcfg 1000 120) as (j & d & Ej & Er & Ek & _).
  - vm_compute. reflexivity.
  - done.
  - vm_compute. discriminate.
  - vm_compute. split; [reflexivity | discriminate].
  - exists j, d. split; [exact Ej|]. split; [exact Er | exact Ek].
Defined.
