(* ===== verification/Hbs.v ===== *)
(** modules/hbs, the heartbeat server: the queries of its database (db), the caches
    they fill (cache), and what it answers to the agents (rpc/agent.go). *)
From Stdlib Require Import Ascii ZArith.
From stdpp Require Import base list gmap strings numbers sorting.
From S2P Require Import Prelude GoString GoFloat GoText GoHash Utils Model ThirdParty.

Local Open Scope Z_scope.

(** The order in which [range] visits a map with integer keys. *)
Class IdRange := {
  range_ids {V : Type} (m : gmap Z V) : list Z;
  range_ids_perm {V : Type} (m : gmap Z V) : range_ids m ≡ₚ (map_to_list m).*1 }.
Definition id_range_default : IdRange := {| range_ids := fun V m => (map_to_list m).*1; range_ids_perm := fun V m => reflexivity _ |}.
Definition range_id_pairs `{IdRange} {V : Type} (m : gmap Z V) : list (Z * V) := omap (fun k => pair k <$> m !! k) (range_ids m).

(** * db *)

(** The rows of a query: [None] is an error, a row that does not scan is [None]. *)
Definition table (R : Type) : Type := option (list (option R)).
Definition scan {R S : Type} (f : S -> R -> S) (s : S) (rows : list (option R)) : S :=
  fold_left (fun s row => match row with None => s | Some r => f s r end) rows s.

(** [if _, exists := m[k]; exists { m[k] = append(m[k], v) } else { m[k] = [v] }]. *)
Definition id_append {V : Type} (m : gmap Z (list V)) (k : Z) (v : V) : gmap Z (list V) :=
  match m !! k with
  | Some l => <[k := l ++ [v]]> m
  | None => <[k := [v]]> m
  end.

(** template.go: the rows are (grp_id, tpl_id), templates, and (tpl_id, host_id). *)
Definition QueryGroupTemplates (rows : table (Z * Z)) : option (gmap Z (list Z)) :=
  scan (fun m '(gid, tid) => id_append m gid tid) ∅ <$> rows.
Definition QueryTemplates (rows : table Template) : option (gmap Z Template) :=
  scan (fun m t => <[Template_Id t := t]> m) ∅ <$> rows.
Definition QueryHostTemplateIds (rows : table (Z * Z)) : option (gmap Z (list Z)) :=
  scan (fun m '(tid, hid) => id_append m hid tid) ∅ <$> rows.

(** plugin.go: (grp_id, dir); group.go: (grp_id, host_id) *)
Definition QueryPlugins (rows : table (Z * string)) : option (gmap Z (list string)) :=
  scan (fun m '(id, dir) => id_append m id dir) ∅ <$> rows.
Definition QueryHostGroups (rows : table (Z * Z)) : option (gmap Z (list Z)) :=
  scan (fun m '(gid, hid) => id_append m hid gid) ∅ <$> rows.

(** host.go *)
Record Host := mkHost { Host_Id : Z; Host_Name : string }.
Record host_row := mkHostRow { row_host : Host; maintain_begin : Z; maintain_end : Z }.
Definition QueryHosts (rows : table host_row) : option (gmap string Z) :=
  scan (fun m r => <[Host_Name (row_host r) := Host_Id (row_host r)]> m) ∅ <$> rows.
(** [where maintain_begin > now or maintain_end < now] *)
Definition QueryMonitoredHosts (now : Z) (rows : table host_row) : option (gmap Z Host) :=
  scan (fun m r => if (now <? maintain_begin r) || (maintain_end r <? now)
                   then <[Host_Id (row_host r) := row_host r]> m else m) ∅ <$> rows.

(** strategy.go: a row is the strategy without its tags and template, the text of
    the tags, the id of the template, and the times of day it runs between. *)
Record strategy_row := mkStrategyRow {
  srow_strategy : Strategy;
  srow_tags : string;
  srow_tid : Z;
  srow_begin : string;
  srow_end : string }.

(** The condition of the query; [now] is formatted as hours and minutes. *)
Definition runs_at (now : string) (r : strategy_row) : bool :=
  (bool_decide (srow_begin r = "") && bool_decide (srow_end r = ""))
  || (bool_decide (String.le (srow_begin r) now) && bool_decide (String.le now (srow_end r)))
  || (negb (bool_decide (String.le (srow_begin r) (srow_end r)))
      && negb (negb (bool_decide (String.le (srow_begin r) now)) && negb (bool_decide (String.le now (srow_end r))))).

Definition strategy_tags (tags : string) : tagmap :=
  if bool_decide (tags = "") then ∅
  else fold_left (fun (tt : tagmap) tag =>
    match find_byte "=" tag with
    | Some i => <[str_take i tag := str_drop (S i) tag]> tt
    | None => tt
    end) (strings_Split tags ",") ∅.

Definition with_tags_tpl (s : Strategy) (tags : tagmap) (tpl : option Template) : Strategy :=
  mkStrategy (Strategy_Id s) (Strategy_Metric s) tags (Strategy_Func s) (Strategy_Operator s) (Strategy_RightValue s)
    (Strategy_MaxStep s) (Strategy_Priority s) (Strategy_Note s) tpl.

(** The error of a map without templates is [None] too. *)
Definition QueryStrategies (now : string) (tpls : gmap Z Template) (rows : table strategy_row) : option (gmap Z Strategy) :=
  if (size tpls =? 0)%nat then None
  else scan (fun ret r =>
    if negb (runs_at now r) then ret
    else match tpls !! srow_tid r with
    | None => ret
    | Some tpl => <[Strategy_Id (srow_strategy r) := with_tags_tpl (srow_strategy r) (strategy_tags (srow_tags r)) (Some tpl)]> ret
    end) ∅ <$> rows.

Record BuiltinMetric := mkBuiltinMetric { BuiltinMetric_Metric : string; BuiltinMetric_Tags : string }.
Definition BuiltinMetric_String (m : BuiltinMetric) : string := BuiltinMetric_Metric m +:+ "/" +:+ BuiltinMetric_Tags m.
#[global] Instance BuiltinMetric_eq_dec : EqDecision BuiltinMetric.
Proof. solve_decision. Defined.

Definition builtin_names : list string := ["net.port.listen"; "proc.num"; "du.bs"; "url.check.health"].
(** The rows are those of the table strategy: (tpl_id, metric, tags). *)
Definition QueryBuiltinMetrics (tids : list Z) (rows : table (Z * BuiltinMetric)) : option (list BuiltinMetric) :=
  fst <$> (scan (fun '(ret, metricTagsSet) '(tid, builtinMetric) =>
    if negb (bool_decide (tid ∈ tids) && bool_decide (BuiltinMetric_Metric builtinMetric ∈ builtin_names)) then (ret, metricTagsSet)
    else
      let k := BuiltinMetric_Metric builtinMetric +:+ BuiltinMetric_Tags builtinMetric in
      if decide (k ∈ metricTagsSet) then (ret, metricTagsSet)
      else (ret ++ [builtinMetric], {[k]} ∪ metricTagsSet)) ([], (∅ : gset string)) <$> rows).

(** expression.go *)
Fixpoint expression_tags (arr : list string) (tags : tagmap) : option tagmap :=
  match arr with
  | [] => Some tags
  | item :: arr =>
      match strings_Split item "=" with
      | [k; v] => expression_tags arr (<[strings_TrimSpace k := strings_TrimSpace v]> tags)
      | _ => None
      end
  end.

(** The inner [None] is an error; without a closing parenthesis after the opening
    one the slice panics. *)
Definition parseExpression (exp : string) : result (option (string * tagmap)) :=
  let left := strings_Index exp "(" in
  let right := strings_Index exp ")" in
  let! inner := str_slice exp (left + 1) right in
  let tagStrs := strings_TrimSpace inner in
  let arr := strings_Fields tagStrs in
  if (length arr <? 2)%nat then Ok None
  else
    Ok (tags ← expression_tags arr ∅; metric ← tags !! "metric"; Some (metric, delete "metric" tags)).

(** A row is the expression without metric and tags, and their text. *)
Definition QueryExpressions (rows : table (Expression * string)) : result (option (list Expression)) :=
  match rows with
  | None => Ok None
  | Some rows =>
      let! ret := rfold (fun ret row =>
        match row with
        | None => Ok ret
        | Some (e, exp) =>
            let! parsed := parseExpression exp in
            match parsed with
            | None => Ok ret
            | Some (metric, tags) =>
                Ok (ret ++ [mkExpression (Expression_Id e) metric tags (Expression_Func e) (Expression_Operator e)
                  (Expression_RightValue e) (Expression_MaxStep e) (Expression_Priority e) (Expression_Note e) (Expression_ActionId e)])
            end
        end) [] rows in
      Ok (Some ret)
  end.

(** * cache *)

Record AgentReportRequest := mkAgentReportRequest {
  Agent_Hostname : string;
  Agent_IP : string;
  Agent_Version : string;
  Agent_PluginVersion : string }.
Record AgentUpdateInfo := mkAgentUpdateInfo { LastUpdate : Z; ReportRequest : AgentReportRequest }.

Record HbsState := mkHbsState {
  GroupPlugins : gmap Z (list string);
  GroupTemplates : gmap Z (list Z);
  HostGroupsMap : gmap Z (list Z);
  HostMap : gmap string Z;
  TemplateCache : gmap Z Template;
  Strategies : gmap Z Strategy;
  HostTemplateIds : gmap Z (list Z);
  ExpressionCache : list Expression;
  MonitoredHosts : gmap Z Host;
  Agents : gmap string AgentUpdateInfo;
  (** the updates of the table host, oldest first *)
  UpdateAgents : list AgentUpdateInfo }.

(** One state of the database. *)
Record hbs_db := mkHbsDb {
  t_plugin_dir : table (Z * string);
  t_grp_tpl : table (Z * Z);
  t_grp_host : table (Z * Z);
  t_host : table host_row;
  t_tpl : table Template;
  t_strategy : table strategy_row;
  t_host_tpl : table (Z * Z);
  t_expression : table (Expression * string);
  t_builtin : table (Z * BuiltinMetric) }.

(** [Init] of each cache: it is left as it was when the query fails. *)
Definition SafeGroupPlugins_Init (db : hbs_db) (st : HbsState) := default (GroupPlugins st) (QueryPlugins (t_plugin_dir db)).
Definition SafeGroupTemplates_Init (db : hbs_db) (st : HbsState) := default (GroupTemplates st) (QueryGroupTemplates (t_grp_tpl db)).
Definition SafeHostGroupsMap_Init (db : hbs_db) (st : HbsState) := default (HostGroupsMap st) (QueryHostGroups (t_grp_host db)).
Definition SafeHostMap_Init (db : hbs_db) (st : HbsState) := default (HostMap st) (QueryHosts (t_host db)).
Definition SafeTemplateCache_Init (db : hbs_db) (st : HbsState) := default (TemplateCache st) (QueryTemplates (t_tpl db)).
Definition SafeStrategies_Init (time_of_day : string) (tpls : gmap Z Template) (db : hbs_db) (st : HbsState) := default (Strategies st) (QueryStrategies time_of_day tpls (t_strategy db)).
Definition SafeHostTemplateIds_Init (db : hbs_db) (st : HbsState) := default (HostTemplateIds st) (QueryHostTemplateIds (t_host_tpl db)).
Definition SafeMonitoredHosts_Init (now : Z) (db : hbs_db) (st : HbsState) := default (MonitoredHosts st) (QueryMonitoredHosts now (t_host db)).
Definition SafeExpressionCache_Init (db : hbs_db) (st : HbsState) :=
  let! expressions := QueryExpressions (t_expression db) in Ok (default (ExpressionCache st) expressions).
(** One round of [LoopInit], in its order: a query that fails leaves its cache. *)
Definition cache_Init (now : Z) (time_of_day : string) (db : hbs_db) (st : HbsState) : result HbsState :=
  let groupPlugins := SafeGroupPlugins_Init db st in
  let groupTemplates := SafeGroupTemplates_Init db st in
  let hostGroupsMap := SafeHostGroupsMap_Init db st in
  let hostMap := SafeHostMap_Init db st in
  let templateCache := SafeTemplateCache_Init db st in
  let strategies := SafeStrategies_Init time_of_day templateCache db st in
  let hostTemplateIds := SafeHostTemplateIds_Init db st in
  let! expressionCache := SafeExpressionCache_Init db st in
  let monitoredHosts := SafeMonitoredHosts_Init now db st in
  Ok (mkHbsState groupPlugins groupTemplates hostGroupsMap hostMap templateCache strategies hostTemplateIds
    expressionCache monitoredHosts (Agents st) (UpdateAgents st)).

(** agents.go *)
Definition set_Agents (m : gmap string AgentUpdateInfo) (log : list AgentUpdateInfo) (st : HbsState) : HbsState :=
  mkHbsState (GroupPlugins st) (GroupTemplates st) (HostGroupsMap st) (HostMap st) (TemplateCache st) (Strategies st)
    (HostTemplateIds st) (ExpressionCache st) (MonitoredHosts st) m log.

Definition SafeAgents_Put (now : Z) (req : AgentReportRequest) (st : HbsState) : HbsState :=
  let val := mkAgentUpdateInfo now req in
  let changed := match Agents st !! Agent_Hostname req with
    | None => true
    | Some info =>
        negb (bool_decide (Agent_Version (ReportRequest info) = Agent_Version req))
        || negb (bool_decide (Agent_IP (ReportRequest info) = Agent_IP req))
        || negb (bool_decide (Agent_PluginVersion (ReportRequest info) = Agent_PluginVersion req))
    end in
  set_Agents (<[Agent_Hostname req := val]> (Agents st)) (if changed then UpdateAgents st ++ [val] else UpdateAgents st) st.

Definition SafeAgents_Delete (hostname : string) (st : HbsState) : HbsState :=
  set_Agents (delete hostname (Agents st)) (UpdateAgents st) st.

(** A key without an agent would be a nil pointer. *)
Definition deleteStaleAgents `{MapRange} (now : Z) (st : HbsState) : result HbsState :=
  let before := now - 3600 * 24 in
  rfold (fun st key =>
    match Agents st !! key with
    | None => Panic NilDereference
    | Some curr => Ok (if LastUpdate curr <? before then SafeAgents_Delete (Agent_Hostname (ReportRequest curr)) st else st)
    end) st (range_keys (Agents st)).

Section Cache.
Context `{MapRange, NIntSet}.

(** plugins.go *)
Definition GetPlugins (st : HbsState) (hostname : string) : list string :=
  match HostMap st !! hostname with
  | None => []
  | Some hid =>
      match HostGroupsMap st !! hid with
      | None => []
      | Some gids =>
          let pluginDirs := fold_left (fun dirs gid =>
            match GroupPlugins st !! gid with
            | None => dirs
            | Some plugins => fold_left (fun (dirs : gmap string unit) plugin => <[plugin := tt]> dirs) plugins dirs
            end) gids ∅ in
          if (size pluginDirs =? 0)%nat then [] else sort_Strings (range_keys pluginDirs)
      end
  end.

(** strategies.go: how the loop of [ParentIds] ends. *)
Inductive parents_end := Found (ret : list Z) | TooDeep.

(** The loop, which has no bound of its own but the test of [depth]; [None]: it is
    still running after [fuel] rounds. *)
Fixpoint ParentIds_loop (fuel : nat) (allTpls : gmap Z Template) (ret : list Z) (depth tid : Z) : option parents_end :=
  match fuel with
  | O => None
  | S fuel =>
      if tid <=? 0 then Some (Found ret)
      else match allTpls !! tid with
      | None => Some (Found ret)
      | Some t =>
          let ret := ret ++ [tid] in
          let depth := depth + 1 in
          if depth =? 10 then Some TooDeep
          else ParentIds_loop fuel allTpls ret depth (Template_ParentId t)
      end
  end.

(** Ten rounds are enough for every table ([ParentIds_loop_spec]). *)
Definition ParentIds (allTpls : gmap Z Template) (tid : Z) : list Z :=
  match ParentIds_loop 10 allTpls [] 0 tid with
  | Some (Found ret) => reverse ret
  | Some TooDeep | None => []
  end.

Definition GetBuiltinMetrics (db : table (Z * BuiltinMetric)) (st : HbsState) (hostname : string) : option (list BuiltinMetric) :=
  match HostMap st !! hostname with
  | None => Some []
  | Some hid =>
      match HostGroupsMap st !! hid with
      | None => Some []
      | Some gids =>
          let added := gids ≫= (fun gid => default [] (GroupTemplates st !! gid)) in
          match iset_ToSlice added with
          | [] => Some []
          | tidSlice =>
              let added := added ++ (tidSlice ≫= ParentIds (TemplateCache st)) in
              QueryBuiltinMetrics (iset_ToSlice added) db
          end
      end
  end.

End Cache.

(** * rpc/agent.go *)

(** [sort.Sort] by the text of the metrics; any sort gives the same texts. *)
Definition metric_le (a b : BuiltinMetric) : Prop := String.le (BuiltinMetric_String a) (BuiltinMetric_String b).
#[global] Instance metric_le_dec a b : Decision (metric_le a b).
Proof. unfold metric_le. apply _. Defined.
Definition DigestBuiltinMetrics (items : list BuiltinMetric) : string :=
  Md5 (foldr (fun m buf => BuiltinMetric_String m +:+ buf) "" (merge_sort metric_le items)).

(** The metrics and checksum of the reply; [None] when the reply is left empty. *)
Definition Agent_BuiltinMetrics `{NIntSet} (db : table (Z * BuiltinMetric)) (st : HbsState) (hostname checksum : string)
    : option (list BuiltinMetric * string) :=
  if bool_decide (hostname = "") then None
  else
    metrics ← GetBuiltinMetrics db st hostname;
    let digest := if (0 <? length metrics)%nat then DigestBuiltinMetrics metrics else "" in
    Some (if bool_decide (checksum = digest) then [] else merge_sort metric_le metrics, digest).

Definition Agent_MinePlugins `{MapRange} (st : HbsState) (hostname : string) : option (list string) :=
  if bool_decide (hostname = "") then None else Some (GetPlugins st hostname).

(** The new state and the code of the reply. *)
Definition Agent_ReportStatus (now : Z) (args : AgentReportRequest) (st : HbsState) : HbsState * Z :=
  if bool_decide (Agent_Hostname args = "") then (st, 1) else (SafeAgents_Put now args st, 0).

(** * The ancestors of a template *)

(** [ancestry m tid l]: [l] is [tid], its parent, its grandparent and so on, up to
    the first id that names no template. *)
Inductive ancestry (m : gmap Z Template) : Z -> list Z -> Prop :=
  | ancestry_end tid : tid <= 0 \/ m !! tid = None -> ancestry m tid []
  | ancestry_step tid t l : 0 < tid -> m !! tid = Some t -> ancestry m (Template_ParentId t) l -> ancestry m tid (tid :: l).

Lemma ancestry_functional m tid l l' : ancestry m tid l -> ancestry m tid l' -> l = l'.
Proof.
  intros Hl. revert l'. induction Hl as [tid Hend|tid t l Hpos Ht Hl IH]; intros l' Hl'; inversion Hl'; subst; try done.
  - destruct Hend; [lia | congruence].
  - match goal with H : _ \/ _ |- _ => destruct H; [lia | congruence] end.
  - f_equal. apply IH. congruence.
Qed.

Lemma ancestry_tail m tid l x : ancestry m tid l -> x ∈ l -> exists l', ancestry m x (x :: l') /\ (length (x :: l') <= length l)%nat.
Proof.
  induction 1 as [|tid t l Hpos Ht Hl IH]; intros Hx; [by apply not_elem_of_nil in Hx|].
  apply elem_of_cons in Hx as [->|Hx].
  - exists l. split; [by econstructor | done].
  - destruct (IH Hx) as (l' & Hl' & Hlen). exists l'. split; [done|]. cbn [length] in *. lia.
Qed.

(** A chain that ends visits no template twice. *)
Lemma ancestry_NoDup m tid l : ancestry m tid l -> NoDup l.
Proof.
  induction 1 as [|tid t l Hpos Ht Hl IH]; [constructor|]. constructor; [|done]. intros Hx.
  destruct (ancestry_tail _ _ _ _ Hl Hx) as (l' & Hl' & Hlen).
  assert (l = l') as <-; [|cbn [length] in Hlen; lia].
  assert (ancestry m tid (tid :: l)) as Hfull by (by econstructor).
  pose proof (ancestry_functional _ _ _ _ Hfull Hl') as [= E]. done.
Qed.

(** The loop ends by its tenth round, with the chain when that has fewer than ten
    templates, and only then. *)
Lemma ParentIds_loop_spec m fuel ret depth tid :
  10 <= depth + Z.of_nat fuel -> 0 <= depth < 10 ->
  exists r, ParentIds_loop fuel m ret depth tid = Some r /\
    match r with
    | Found ret' => exists l, ret' = ret ++ l /\ ancestry m tid l /\ depth + Z.of_nat (length l) < 10
    | TooDeep => forall l, ancestry m tid l -> 10 <= depth + Z.of_nat (length l)
    end.
Proof.
  revert ret depth tid. induction fuel as [|fuel IH]; intros ret depth tid Hf Hd; [lia|]. cbn [ParentIds_loop].
  destruct (Z.leb_spec tid 0).
  { eexists. split; [done|]. exists []. rewrite app_nil_r. split_and!; [done | by constructor; left | simpl; lia]. }
  destruct (m !! tid) as [t|] eqn:Et.
  2:{ eexists. split; [done|]. exists []. rewrite app_nil_r. split_and!; [done | by constructor; right | simpl; lia]. }
  assert (forall l, ancestry m tid l -> exists l', l = tid :: l' /\ ancestry m (Template_ParentId t) l') as Hcons.
  { intros l Hl. inversion Hl as [? Hend|? t' l' _ Et' Hl']; subst; [destruct Hend; [lia | congruence]|].
    exists l'. split; [done|]. congruence. }
  destruct (Z.eqb_spec (depth + 1) 10).
  - eexists. split; [done|]. intros l (l' & -> & _)%Hcons. cbn [length]. lia.
  - destruct (IH (ret ++ [tid]) (depth + 1) (Template_ParentId t)) as ([ret'|] & E & Hr); [lia | lia | |];
      (eexists; split; [exact E|]).
    + destruct Hr as (l & -> & Hl & Hlen). exists (tid :: l). rewrite <- app_assoc. split_and!; [done | by econstructor | cbn [length]; lia].
    + intros l (l' & -> & Hl')%Hcons. specialize (Hr _ Hl'). cbn [length]. lia.
Qed.

(** What [ParentIds] returns: a chain, oldest first, of at most nine templates. *)
Lemma ParentIds_chain m tid :
  (exists l, ancestry m tid l /\ (length l < 10)%nat /\ ParentIds m tid = reverse l)
  \/ (ParentIds m tid = [] /\ forall l, ancestry m tid l -> (10 <= length l)%nat).
Proof.
  unfold ParentIds. destruct (ParentIds_loop_spec m 10 [] 0 tid ltac:(lia) ltac:(lia)) as ([ret|] & -> & Hs); [left | right].
  - destruct Hs as (l & -> & Hl & Hlen). exists l. split; [done|]. split; [lia | done].
  - split; [done|]. intros l Hl. specialize (Hs l Hl). lia.
Qed.

(** More rounds give the same end. *)
Lemma ParentIds_loop_mono m fuel fuel' ret depth tid r :
  (fuel <= fuel')%nat -> ParentIds_loop fuel m ret depth tid = Some r -> ParentIds_loop fuel' m ret depth tid = Some r.
Proof.
  revert fuel' ret depth tid. induction fuel as [|fuel IH]; intros [|fuel'] ret depth tid Hle; try done; [lia|].
  cbn [ParentIds_loop]. repeat case_match; try done. intros. apply IH; [lia | done].
Qed.

(** C21. [ParentIds] ends on every table of templates, also on one whose parents form
    a cycle: its loop, given any number of rounds from ten on, has ended, always in
    the same way, through the test of the depth when it did not come to the end of the
    chain. When the chain of a template has fewer than ten templates the function returns
    that chain with the oldest ancestor first, without repetition and ending with the
    template itself; otherwise (a longer chain, or a cycle, which has no finite
    chain) it returns nothing. *)
Theorem ParentIds_correct m tid :
  (exists r, (forall fuel, (10 <= fuel)%nat -> ParentIds_loop fuel m [] 0 tid = Some r) /\
    ParentIds m tid = match r with Found ret => reverse ret | TooDeep => [] end /\
    (r = TooDeep <-> forall l, ancestry m tid l -> (10 <= length l)%nat))
  /\ (forall l, ancestry m tid l -> (length l < 10)%nat ->
    ParentIds m tid = reverse l /\ NoDup (ParentIds m tid) /\ (ParentIds m tid <> [] -> last (ParentIds m tid) = Some tid))
  /\ (length (ParentIds m tid) < 10)%nat.
Proof.
  split.
  { destruct (ParentIds_loop_spec m 10 [] 0 tid ltac:(lia) ltac:(lia)) as (r & E & Hr). exists r. split_and!.
    - intros fuel Hf. by eapply ParentIds_loop_mono.
    - unfold ParentIds. rewrite E. by destruct r.
    - destruct r as [ret|]; [|split; [intros _ l Hl; specialize (Hr l Hl); lia | done]].
      destruct Hr as (l & _ & Hl & Hlen). split; [done|]. intros Hno. specialize (Hno l Hl). lia. }
  destruct (ParentIds_chain m tid) as [(l & Hl & Hlen & E)|[E Hno]]; rewrite E; split.
  - intros l' Hl' _. rewrite (ancestry_functional _ _ _ _ Hl' Hl). split; [done|].
    split; [rewrite reverse_Permutation; by eapply ancestry_NoDup|].
    intros Hne. inversion Hl; subst; [done|]. by rewrite reverse_cons, last_snoc.
  - by rewrite length_reverse.
  - intros l Hl Hlen. specialize (Hno l Hl). lia.
  - simpl. lia.
Qed.

(** Cycles have no finite chain: a template that is its own ancestor is never returned. *)
Example ParentIds_cycle :
  let t id pid := mkTemplate id "t" pid 0 "" in
  let m : gmap Z Template := {[1 := t 1 2; 2 := t 2 1; 3 := t 3 4; 4 := t 4 0]} in
  ParentIds m 1 = [] /\ ParentIds m 3 = [4; 3].
Proof. by split; vm_compute. Qed.

(** * Plugins *)

Lemma foldl_insert_keys (l : list string) (m : gmap string unit) k :
  is_Some (fold_left (fun (m : gmap string unit) x => <[x := tt]> m) l m !! k) <-> k ∈ l \/ is_Some (m !! k).
Proof.
  revert m. induction l as [|x l IH]; intros m; cbn [fold_left].
  { split; [by right | intros [?%not_elem_of_nil|]; done]. }
  rewrite IH, elem_of_cons, lookup_insert_is_Some. destruct (decide (x = k)); naive_solver.
Qed.

Lemma plugin_dirs_elem st gids (m : gmap string unit) k :
  is_Some (fold_left (fun dirs gid => match GroupPlugins st !! gid with
      | None => dirs
      | Some plugins => fold_left (fun (dirs : gmap string unit) plugin => <[plugin := tt]> dirs) plugins dirs
      end) gids m !! k)
  <-> (exists gid plugins, gid ∈ gids /\ GroupPlugins st !! gid = Some plugins /\ k ∈ plugins) \/ is_Some (m !! k).
Proof.
  revert m. induction gids as [|g gids IH]; intros m; cbn [fold_left].
  { split; [by right | intros [(? & ? & ?%not_elem_of_nil & _)|]; done]. }
  rewrite IH. setoid_rewrite elem_of_cons. destruct (GroupPlugins st !! g) as [ps|] eqn:E.
  - rewrite foldl_insert_keys. split; [naive_solver|].
    intros [(gid & ps' & [->|Hg] & Hps & Hk)|]; [right; left; congruence | left; eauto | auto].
  - split; [naive_solver|]. intros [(gid & ps' & [->|Hg] & Hps & Hk)|]; [congruence | left; eauto | auto].
Qed.

(** The plugin directories answered to a host are exactly those bound to one of
    its groups, each once and in ascending order: the answer is the same text
    whatever order the groups and the map are visited in. *)
Theorem GetPlugins_exact `{MapRange} st hostname :
  Sorted String.le (GetPlugins st hostname) /\ NoDup (GetPlugins st hostname) /\
  forall dir, dir ∈ GetPlugins st hostname <->
    exists hid gids gid plugins, HostMap st !! hostname = Some hid /\ HostGroupsMap st !! hid = Some gids /\ gid ∈ gids /\
      GroupPlugins st !! gid = Some plugins /\ dir ∈ plugins.
Proof.
  assert (forall dir : string, dir ∈ ([] : list string) <-> False) as Hnil by (intros dir; rewrite elem_of_nil; done).
  unfold GetPlugins. destruct (HostMap st !! hostname) as [hid|]; [|split_and!; [constructor | constructor | naive_solver]].
  destruct (HostGroupsMap st !! hid) as [gids|] eqn:Eg; [|split_and!; [constructor | constructor | naive_solver]].
  set (dirs := fold_left _ gids ∅).
  assert (forall dir, is_Some (dirs !! dir) <-> exists gid plugins, gid ∈ gids /\ GroupPlugins st !! gid = Some plugins /\ dir ∈ plugins) as Hd.
  { intros dir. unfold dirs. rewrite plugin_dirs_elem, lookup_empty. split; [|by left]. by intros [|[? [=]]]. }
  assert (forall l : list string, (forall dir : string, dir ∈ l <-> is_Some (dirs !! dir)) -> forall dir, dir ∈ l <->
    exists hid' gids' gid plugins, Some hid = Some hid' /\ HostGroupsMap st !! hid' = Some gids' /\ gid ∈ gids' /\
      GroupPlugins st !! gid = Some plugins /\ dir ∈ plugins) as Hl.
  { intros l Hl dir. rewrite Hl, Hd. naive_solver. }
  destruct (Nat.eqb_spec (size dirs) 0) as [E|E].
  - split_and!; [constructor | constructor|]. apply Hl. intros dir.
    apply map_size_empty_iff in E as ->. rewrite Hnil, lookup_empty. split; [done | by intros [? ?]].
  - split_and!.
    + apply Sorted_merge_sort, _.
    + rewrite sort_Strings_perm. eapply range_order_NoDup, range_keys_order.
    + apply Hl. intros dir. rewrite sort_Strings_perm. apply range_order_elem, range_keys_order.
Qed.

(** * The metrics an agent collects *)

#[global] Instance metric_le_trans : Transitive metric_le.
Proof. intros a b c. unfold metric_le. apply (transitivity (R := String.le)). Qed.
#[global] Instance metric_le_total : Total metric_le.
Proof. intros a b. unfold metric_le. apply (total String.le). Qed.

Lemma metric_sort_strings l : map BuiltinMetric_String (merge_sort metric_le l) = sort_Strings (map BuiltinMetric_String l).
Proof.
  apply (Sorted_unique String.le).
  - apply (Sorted_fmap _ metric_le); [done | apply Sorted_merge_sort, _].
  - apply Sorted_merge_sort, _.
  - rewrite sort_Strings_perm. apply Permutation_map, merge_sort_Permutation.
Qed.

Lemma digest_strings l : DigestBuiltinMetrics l = Md5 (foldr String.app "" (sort_Strings (map BuiltinMetric_String l))).
Proof.
  unfold DigestBuiltinMetrics. rewrite <- metric_sort_strings. f_equal.
  induction (merge_sort metric_le l) as [|m ms IH]; simpl; [done | by rewrite IH].
Qed.

Lemma digest_perm l l' : l ≡ₚ l' -> DigestBuiltinMetrics l = DigestBuiltinMetrics l'.
Proof. intros Hp. rewrite !digest_strings. do 2 f_equal. apply sort_Strings_unique. by apply Permutation_map. Qed.

(** The key of the set of seen metrics joins name and tags without a separator; it is
    still one-to-one, since no built-in name is a prefix of another. *)
Lemma builtin_key_inj m m' :
  BuiltinMetric_Metric m ∈ builtin_names -> BuiltinMetric_Metric m' ∈ builtin_names ->
  BuiltinMetric_Metric m +:+ BuiltinMetric_Tags m = BuiltinMetric_Metric m' +:+ BuiltinMetric_Tags m' -> m = m'.
Proof.
  destruct m as [n t], m' as [n' t']; cbn [BuiltinMetric_Metric BuiltinMetric_Tags]. unfold builtin_names.
  rewrite !elem_of_cons, !elem_of_nil.
  intros [->|[->|[->|[->|[]]]]] [->|[->|[->|[->|[]]]]] E; cbn in E; by simplify_eq.
Qed.

Definition selected (tids : list Z) (rows : list (option (Z * BuiltinMetric))) (m : BuiltinMetric) : Prop :=
  BuiltinMetric_Metric m ∈ builtin_names /\ exists tid, tid ∈ tids /\ Some (tid, m) ∈ rows.

Lemma QueryBuiltinMetrics_spec tids rows :
  exists ret, QueryBuiltinMetrics tids (Some rows) = Some ret /\ NoDup ret /\ forall m, m ∈ ret <-> selected tids rows m.
Proof.
  unfold QueryBuiltinMetrics. simpl. set (key m := BuiltinMetric_Metric m +:+ BuiltinMetric_Tags m).
  match goal with |- context [scan ?f _ rows] => set (step := f) end.
  assert (forall (st : list BuiltinMetric * gset string) done,
    (forall m, m ∈ st.1 <-> selected tids done m) -> NoDup st.1 -> (forall k, k ∈ st.2 <-> exists m, m ∈ st.1 /\ k = key m) ->
    (forall m, m ∈ (scan step st rows).1 <-> selected tids (done ++ rows) m) /\ NoDup (scan step st rows).1) as Hgen.
  { induction rows as [|row rows IH]; intros st dn Hin Hnd Hset.
    { rewrite app_nil_r. by split. }
    change (dn ++ row :: rows) with (dn ++ [row] ++ rows). rewrite app_assoc.
    change (scan step st (row :: rows)) with (scan step (match row with None => st | Some r => step st r end) rows).
    destruct st as [ret seen]. cbn [fst snd] in *.
    assert (forall m, selected tids (dn ++ [row]) m <-> selected tids dn m \/
      (BuiltinMetric_Metric m ∈ builtin_names /\ exists tid, tid ∈ tids /\ row = Some (tid, m))) as Hsel.
    { intros m. unfold selected. setoid_rewrite elem_of_app. setoid_rewrite list_elem_of_singleton. naive_solver. }
    destruct row as [[tid m]|]; cbv iota beta; [|apply IH; cbn [fst snd]; [intros m; rewrite Hsel, Hin; naive_solver | done | done]].
    assert (step (ret, seen) (tid, m) =
      if negb (bool_decide (tid ∈ tids) && bool_decide (BuiltinMetric_Metric m ∈ builtin_names)) then (ret, seen)
      else if decide (key m ∈ seen) then (ret, seen) else (ret ++ [m], {[key m]} ∪ seen)) as -> by done.
    destruct (bool_decide_reflect (tid ∈ tids)) as [Ht|Ht]; simpl;
      [|apply IH; cbn [fst snd]; [intros m'; rewrite Hsel, Hin; naive_solver | done | done]].
    destruct (bool_decide_reflect (BuiltinMetric_Metric m ∈ builtin_names)) as [Hb|Hb]; simpl;
      [|apply IH; cbn [fst snd]; [intros m'; rewrite Hsel, Hin; naive_solver | done | done]].
    destruct (decide (key m ∈ seen)) as [Hs|Hs].
    - apply IH; cbn [fst snd]; [|done|done]. intros m'. rewrite Hsel, <- Hin. split; [by left|].
      intros [|(Hb' & tid' & Ht' & [= <- <-])]; [done|].
      apply Hset in Hs as (m2 & Hm2 & Ek). assert (m = m2) as ->; [|done].
      apply builtin_key_inj; [done | by apply Hin in Hm2 as [] | done].
    - apply IH; cbn [fst snd].
      + intros m'. rewrite Hsel, elem_of_app, list_elem_of_singleton, Hin. naive_solver.
      + apply NoDup_app. split; [done|]. split; [|apply NoDup_singleton].
        intros m' Hm' ->%list_elem_of_singleton. apply Hs, Hset. eauto.
      + intros k. rewrite elem_of_union, elem_of_singleton, Hset. setoid_rewrite elem_of_app. setoid_rewrite list_elem_of_singleton. naive_solver. }
  destruct (Hgen ([], ∅) []) as [Hin Hnd].
  - intros m. unfold selected. setoid_rewrite elem_of_nil. naive_solver.
  - constructor.
  - intros k. cbn [fst snd]. rewrite elem_of_empty. setoid_rewrite elem_of_nil. naive_solver.
  - exists (scan step ([], ∅) rows).1. split; [done|]. split; [done|]. exact Hin.
Qed.

(** The templates of a host: those bound to its groups, and their ancestors. *)
Definition bound_template (st : HbsState) (hostname : string) (t : Z) : Prop :=
  exists hid gids gid tids, HostMap st !! hostname = Some hid /\ HostGroupsMap st !! hid = Some gids /\ gid ∈ gids /\
    GroupTemplates st !! gid = Some tids /\ t ∈ tids.
Definition host_metric (st : HbsState) (rows : list (option (Z * BuiltinMetric))) (hostname : string) (m : BuiltinMetric) : Prop :=
  BuiltinMetric_Metric m ∈ builtin_names /\
  exists t tid, bound_template st hostname t /\ (tid = t \/ tid ∈ ParentIds (TemplateCache st) t) /\ Some (tid, m) ∈ rows.

Lemma added_templates st gids t :
  t ∈ (gids ≫= (fun gid => default [] (GroupTemplates st !! gid))) <-> exists gid tids, gid ∈ gids /\ GroupTemplates st !! gid = Some tids /\ t ∈ tids.
Proof.
  rewrite list_elem_of_bind. split.
  - intros (gid & Ht & Hg). destruct (GroupTemplates st !! gid) as [tids|] eqn:E; [eauto | by apply not_elem_of_nil in Ht].
  - intros (gid & tids & Hg & E & Ht). exists gid. by rewrite E.
Qed.

Lemma GetBuiltinMetrics_spec `{NIntSet} rows st hostname :
  exists ret, GetBuiltinMetrics (Some rows) st hostname = Some ret /\ NoDup ret /\ forall m, m ∈ ret <-> host_metric st rows hostname m.
Proof.
  assert ((forall t, ~ bound_template st hostname t) ->
    exists ret, Some ([] : list BuiltinMetric) = Some ret /\ NoDup ret /\ forall m, m ∈ ret <-> host_metric st rows hostname m) as Hnone.
  { intros Hno. exists []. split; [done|]. split; [constructor|]. intros m. rewrite elem_of_nil. split; [done|].
    intros (_ & t & tid & Ht & _). by apply (Hno t). }
  unfold GetBuiltinMetrics. destruct (HostMap st !! hostname) as [hid|] eqn:Eh;
    [|apply Hnone; intros t (? & ? & ? & ? & ? & _); congruence].
  destruct (HostGroupsMap st !! hid) as [gids|] eqn:Eg;
    [|apply Hnone; intros t (? & ? & ? & ? & ? & ? & _); congruence].
  assert (forall t, bound_template st hostname t <-> t ∈ (gids ≫= (fun gid => default [] (GroupTemplates st !! gid)))) as Hb.
  { intros t. rewrite added_templates. unfold bound_template. rewrite Eh. naive_solver. }
  set (added := gids ≫= _) in *. pose proof (iset_ToSlice_elem added) as Hel.
  destruct (iset_ToSlice added) as [|t0 ts] eqn:Es.
  { apply Hnone. intros t. rewrite Hb, <- Hel, elem_of_nil. tauto. }
  destruct (QueryBuiltinMetrics_spec (iset_ToSlice (added ++ ((t0 :: ts) ≫= ParentIds (TemplateCache st)))) rows) as (ret & E & Hnd & Hin).
  exists ret. split; [done|]. split; [done|]. intros m. rewrite Hin. unfold selected, host_metric.
  setoid_rewrite iset_ToSlice_elem. setoid_rewrite elem_of_app. setoid_rewrite list_elem_of_bind. setoid_rewrite Hel. setoid_rewrite Hb.
  naive_solver.
Qed.

(** The exchange of built-in metrics between the heartbeat server and an agent:
    the server answers with one checksum, whatever the order of the rows of the
    database and of the sets it builds; an agent that already holds that checksum is
    sent nothing, and any other agent exactly the built-in metrics of the templates
    bound to its groups and of their ancestors, each once. *)
Theorem BuiltinMetrics_protocol (S S' : NIntSet) st hostname rows rows' :
  hostname <> "" -> (forall r, Some r ∈ rows <-> Some r ∈ rows') ->
  exists metrics metrics' digest,
    (forall sum, Agent_BuiltinMetrics (H := S) (Some rows) st hostname sum = Some (if bool_decide (sum = digest) then [] else metrics, digest))
    /\ (forall sum, Agent_BuiltinMetrics (H := S') (Some rows') st hostname sum = Some (if bool_decide (sum = digest) then [] else metrics', digest))
    /\ metrics ≡ₚ metrics' /\ map BuiltinMetric_String metrics = map BuiltinMetric_String metrics'
    /\ NoDup metrics /\ forall m, m ∈ metrics <-> host_metric st rows hostname m.
Proof.
  intros Hh Hrows.
  destruct (GetBuiltinMetrics_spec (H := S) rows st hostname) as (ret & E & Hnd & Hin).
  destruct (GetBuiltinMetrics_spec (H := S') rows' st hostname) as (ret' & E' & Hnd' & Hin').
  assert (ret ≡ₚ ret') as Hp.
  { apply NoDup_Permutation; [done | done|]. intros m. rewrite Hin, Hin'. unfold host_metric. by setoid_rewrite Hrows. }
  exists (merge_sort metric_le ret), (merge_sort metric_le ret'), (if (0 <? length ret)%nat then DigestBuiltinMetrics ret else "").
  unfold Agent_BuiltinMetrics. rewrite bool_decide_eq_false_2 by done. rewrite E, E'. cbn [mbind option_bind].
  split; [done|]. split; [by rewrite (digest_perm _ _ Hp), (Permutation_length Hp)|].
  rewrite !metric_sort_strings, !merge_sort_Permutation. split; [done|].
  split; [by apply sort_Strings_unique, Permutation_map|]. split; [done|]. intros m. by rewrite merge_sort_Permutation.
Qed.

(** * The agents *)

(** What the server does: reports of agents, the daily clean-up, and the reload of
    the caches, in any order. *)
Inductive hbs_step `{MapRange} (st : HbsState) : HbsState -> Prop :=
  | step_report now req : hbs_step st (fst (Agent_ReportStatus now req st))
  | step_stale now st' : deleteStaleAgents now st = Ok st' -> hbs_step st st'
  | step_reload now tod db st' : cache_Init now tod db st = Ok st' -> hbs_step st st'.
Inductive hbs_reachable `{MapRange} : HbsState -> Prop :=
  | reach_start st : Agents st = ∅ -> UpdateAgents st = [] -> hbs_reachable st
  | reach_step st st' : hbs_reachable st -> hbs_step st st' -> hbs_reachable st'.

(** The row of a host that the last update wrote. *)
Definition last_row (log : list AgentUpdateInfo) (hostname : string) : option AgentUpdateInfo :=
  last (filter (fun i => Agent_Hostname (ReportRequest i) = hostname) log).
Definition same_agent (a b : AgentReportRequest) : Prop :=
  Agent_Version a = Agent_Version b /\ Agent_IP a = Agent_IP b /\ Agent_PluginVersion a = Agent_PluginVersion b.

(** Every cached agent is under its own name, and its row is up to date. *)
Definition agents_ok (st : HbsState) : Prop :=
  forall k info, Agents st !! k = Some info ->
    Agent_Hostname (ReportRequest info) = k /\
    exists row, last_row (UpdateAgents st) k = Some row /\ same_agent (ReportRequest row) (ReportRequest info).

Lemma last_row_snoc log i k :
  last_row (log ++ [i]) k = if decide (Agent_Hostname (ReportRequest i) = k) then Some i else last_row log k.
Proof.
  unfold last_row. rewrite filter_app. case_decide as E; [rewrite filter_cons_True by done | rewrite filter_cons_False by done];
    rewrite filter_nil; [by rewrite last_snoc | by rewrite app_nil_r].
Qed.

Lemma Put_ok now req st : agents_ok st -> agents_ok (SafeAgents_Put now req st).
Proof.
  intros Hok k info. unfold SafeAgents_Put, set_Agents. cbn [Agents UpdateAgents].
  destruct (decide (Agent_Hostname req = k)) as [<-|Hk].
  - rewrite lookup_insert_eq. intros [= <-]. split; [done|]. cbn [ReportRequest].
    destruct (Agents st !! Agent_Hostname req) as [old|] eqn:E.
    2:{ rewrite last_row_snoc, decide_True by done. by eexists. }
    destruct (bool_decide_reflect (Agent_Version (ReportRequest old) = Agent_Version req)),
      (bool_decide_reflect (Agent_IP (ReportRequest old) = Agent_IP req)),
      (bool_decide_reflect (Agent_PluginVersion (ReportRequest old) = Agent_PluginVersion req)); simpl;
      try (rewrite last_row_snoc, decide_True by done; by eexists).
    destruct (Hok _ _ E) as (_ & row & Hrow & Hs). exists row. split; [done|]. unfold same_agent in *. intuition congruence.
  - rewrite lookup_insert_ne by done. intros E. destruct (Hok _ _ E) as (Hn & row & Hrow & Hs). split; [done|].
    exists row. split; [|done]. case_match; [|done]. by rewrite last_row_snoc, decide_False.
Qed.

Lemma Delete_ok k st : agents_ok st -> agents_ok (SafeAgents_Delete k st).
Proof. intros Hok k' info. unfold SafeAgents_Delete. cbn [Agents UpdateAgents set_Agents]. intros [_ E]%lookup_delete_Some. by apply Hok. Qed.

(** The clean-up loop over distinct present keys never fails. *)
Lemma deleteStale_loop before ks st :
  (forall k info, Agents st !! k = Some info -> Agent_Hostname (ReportRequest info) = k) ->
  NoDup ks -> (forall k, k ∈ ks -> is_Some (Agents st !! k)) ->
  exists st', rfold (fun st key =>
    match Agents st !! key with
    | None => Panic NilDereference
    | Some curr => Ok (if LastUpdate curr <? before then SafeAgents_Delete (Agent_Hostname (ReportRequest curr)) st else st)
    end) st ks = Ok st' /\ UpdateAgents st' = UpdateAgents st /\
    forall k info, Agents st' !! k = Some info <-> Agents st !! k = Some info /\ (k ∈ ks -> before <= LastUpdate info).
Proof.
  revert st. induction ks as [|k ks IH]; intros st Hname Hnd Hin; cbn [rfold].
  { exists st. split; [done|]. split; [done|]. intros k info. rewrite elem_of_nil. tauto. }
  apply list.NoDup_cons in Hnd as [Hk Hnd]. destruct (Hin k) as [curr E]; [left|]. rewrite E. cbn [rbind].
  assert (forall k', k' ∈ ks -> is_Some (Agents st !! k')) as Hin' by (intros k' ?; apply Hin; by right).
  destruct (Z.ltb_spec (LastUpdate curr) before) as [Hlt|Hge].
  - rewrite (Hname _ _ E). destruct (IH (SafeAgents_Delete k st)) as (st' & -> & Hlog & Hst').
    + intros k' info. unfold SafeAgents_Delete. cbn [Agents set_Agents]. intros [_ ?]%lookup_delete_Some. by apply Hname.
    + done.
    + intros k' Hk'. unfold SafeAgents_Delete. cbn [Agents set_Agents]. rewrite lookup_delete_ne by (intros ->; done). auto.
    + exists st'. split; [done|]. split; [done|]. intros k' info. rewrite Hst'. unfold SafeAgents_Delete. cbn [Agents set_Agents].
      rewrite lookup_delete_Some, elem_of_cons. split; [naive_solver|]. intros [E' Hb]. split; [|tauto]. split; [|done].
      intros ->. rewrite E in E'. injection E' as ->. lia || (specialize (Hb (or_introl eq_refl)); lia).
  - destruct (IH st) as (st' & -> & Hlog & Hst'); [done | done | done|].
    exists st'. split; [done|]. split; [done|]. intros k' info. rewrite Hst', elem_of_cons. split; [|tauto].
    intros [E' Hb]. split; [done|]. intros [->|]; [congruence | auto].
Qed.

Lemma deleteStaleAgents_spec `{MapRange} now st :
  (forall k info, Agents st !! k = Some info -> Agent_Hostname (ReportRequest info) = k) ->
  exists st', deleteStaleAgents now st = Ok st' /\ UpdateAgents st' = UpdateAgents st /\
    forall k info, Agents st' !! k = Some info <-> Agents st !! k = Some info /\ now - 86400 <= LastUpdate info.
Proof.
  intros Hname. destruct (deleteStale_loop (now - 3600 * 24) (range_keys (Agents st)) st) as (st' & E & Hlog & Hst').
  - done.
  - eapply range_order_NoDup, range_keys_order.
  - intros k. by apply range_order_elem, range_keys_order.
  - exists st'. split; [done|]. split; [done|]. intros k info. rewrite Hst'. split; intros [Hk Hb]; (split; [done|]).
    + apply Hb. apply (range_order_elem (Agents st)); [apply range_keys_order | by exists info].
    + intros _. lia.
Qed.

Lemma hbs_reachable_ok `{MapRange} st : hbs_reachable st -> agents_ok st.
Proof.
  induction 1 as [st Ha Hl|st st' _ IH Hstep]; [intros k info; by rewrite Ha|].
  destruct Hstep as [now req|now st' E|now tod db st' E].
  - unfold Agent_ReportStatus. case_bool_decide; [done | by apply Put_ok].
  - destruct (deleteStaleAgents_spec now st) as (st1 & E' & Hlog & Hst1); [intros k info Hk; by apply IH|].
    rewrite E in E'. injection E' as ->. intros k info [Hk _]%Hst1. rewrite Hlog. by apply IH.
  - unfold cache_Init in E. inv_ok. intros k info. apply IH.
Qed.

(** In every state the server reaches by reports, clean-ups and reloads, in any
    order: every cached agent is filed under its own host name, and the last row
    written to the database for it has the address and versions it last reported.
    The clean-up returns (it never meets a missing entry) and drops exactly the
    agents that were silent for more than a day, which the database keeps. *)
Theorem agents_tracked `{MapRange} st now :
  hbs_reachable st ->
  agents_ok st /\
  exists st', deleteStaleAgents now st = Ok st' /\ UpdateAgents st' = UpdateAgents st /\
    forall k info, Agents st' !! k = Some info <-> Agents st !! k = Some info /\ now - 86400 <= LastUpdate info.
Proof.
  intros Hr%hbs_reachable_ok. split; [done|]. apply deleteStaleAgents_spec. intros k info E. by apply Hr.
Qed.

(** * Expressions *)

(** [k=v], in a printed expression: words without an equals sign or a closing parenthesis. *)
Definition expression_item (kv : string * string) : string := fst kv +:+ "=" +:+ snd kv.
Definition plain (s : string) : Prop := word s /\ str_free "=" s = true /\ str_free ")" s = true.
Definition print_expression (name : string) (kvs : list (string * string)) (rest : string) : string :=
  name +:+ "(" +:+ strings_Join (map expression_item kvs) " " +:+ ")" +:+ rest.

Lemma expression_tags_items kvs tags :
  Forall (fun kv => plain (fst kv) /\ plain (snd kv)) kvs ->
  expression_tags (map expression_item kvs) tags = Some (fold_left (fun (m : tagmap) kv => <[fst kv := snd kv]> m) kvs tags).
Proof.
  intros Hk. revert tags. induction Hk as [|[k v] kvs [[Hk1 [Hk2 Hk3]] [Hv1 [Hv2 Hv3]]] Hk IH]; intros tags; [done|]. cbn [fst snd] in *.
  cbn [map expression_tags fold_left]. unfold expression_item at 1. cbn [fst snd].
  change (k +:+ "=" +:+ v) with (k +:+ String "=" v). rewrite strings_Split_app, strings_Split_free by done.
  rewrite !strings_TrimSpace_word by done. apply IH.
Qed.

Lemma fold_insert_tags (kvs : list (string * string)) (m : tagmap) :
  NoDup kvs.*1 -> (forall k, k ∈ kvs.*1 -> m !! k = None) -> fold_left (fun (m : tagmap) kv => <[fst kv := snd kv]> m) kvs m = list_to_map kvs ∪ m.
Proof.
  revert m. induction kvs as [|[k v] kvs IH]; intros m; cbn [fold_left fmap list_fmap fst snd]; [intros _ _; cbn [list_to_map foldr]; by rewrite (left_id_L ∅ (∪) m)|].
  intros [Hk Hnd]%list.NoDup_cons Hm. rewrite IH; [|done|].
  - cbn [list_to_map foldr curry uncurry fst snd]. rewrite <- insert_union_l, insert_union_r; [done|]. by apply not_elem_of_list_to_map_1.
  - intros k' Hk'. rewrite lookup_insert_ne; [apply Hm; by right|]. intros ->. done.
Qed.

Lemma str_slice_print (name body rest : string) :
  str_free "(" name = true -> str_free ")" name = true -> str_free ")" body = true ->
  str_slice (name +:+ "(" +:+ body +:+ ")" +:+ rest)
    (strings_Index (name +:+ "(" +:+ body +:+ ")" +:+ rest) "(" + 1) (strings_Index (name +:+ "(" +:+ body +:+ ")" +:+ rest) ")") = Ok body.
Proof.
  intros Hl Hr Hb. unfold strings_Index.
  assert (find_byte "(" (name +:+ "(" +:+ body +:+ ")" +:+ rest) = Some (String.length name)) as -> by (by apply (find_byte_app "(" name)).
  replace (name +:+ "(" +:+ body +:+ ")" +:+ rest) with ((name +:+ "(" +:+ body) +:+ String ")" rest)
    by (by rewrite !str_app_assoc).
  rewrite (find_byte_app ")" (name +:+ "(" +:+ body)) by (by rewrite !str_free_app, Hr, Hb).
  replace ((name +:+ "(" +:+ body) +:+ String ")" rest) with ((name +:+ "(") +:+ body +:+ String ")" rest)
    by (by rewrite !str_app_assoc).
  rewrite <- (str_slice_mid (name +:+ "(") body (String ")" rest)). unfold str_len.
  rewrite !str_length_app. f_equal; cbn [String.length]; lia.
Qed.

(** C22. Reading an expression such as [each(metric=m k=v ...)]: a text that prints at
    least two items with distinct keys, one of them the metric, is read back as that
    metric and the other items. The reader panics exactly on a text whose first
    closing parenthesis is missing or does not come after its first opening one. *)
Theorem parseExpression_roundtrip name kvs rest metric :
  str_free "(" name = true -> str_free ")" name = true ->
  Forall (fun kv => plain (fst kv) /\ plain (snd kv)) kvs -> NoDup kvs.*1 -> ("metric", metric) ∈ kvs -> (2 <= length kvs)%nat ->
  parseExpression (print_expression name kvs rest) = Ok (Some (metric, delete "metric" (list_to_map kvs)))
  /\ forall exp, (exists p, parseExpression exp = Panic p) <-> strings_Index exp ")" <= strings_Index exp "(".
Proof.
  intros Hl Hr Hk Hnd Hm Hlen. split.
  - unfold parseExpression, print_expression.
    assert (Forall (fun s => word s /\ str_free ")" s = true) (map expression_item kvs)) as Hitems.
    { apply Forall_map. eapply list.Forall_impl; [exact Hk|]. intros [k v] [[Hk1 [Hk2 Hk3]] [Hv1 [Hv2 Hv3]]]. cbn [fst snd] in *.
      unfold expression_item. cbn [fst snd]. rewrite !str_free_app, Hk3, Hv3. split; [|done].
      split; [by destruct k; destruct Hk1|]. rewrite !str_forall_app, (proj2 Hk1), (proj2 Hv1). done. }
    rewrite str_slice_print; [|done|done|].
    2:{ apply str_forall_join; [done|]. eapply list.Forall_impl; [exact Hitems|]. by intros s [_ Hs]. }
    cbn [rbind]. assert (Forall word (map expression_item kvs)) as Hw by (eapply list.Forall_impl; [exact Hitems|]; by intros s [Hs _]).
    rewrite strings_TrimSpace_Join, strings_Fields_Join by done. rewrite length_map. destruct (Nat.ltb_spec (length kvs) 2); [lia|].
    rewrite expression_tags_items by done. cbn [mbind option_bind].
    rewrite fold_insert_tags; [|done | intros; apply lookup_empty]. rewrite (right_id_L ∅ (∪)).
    assert ((list_to_map kvs : tagmap) !! "metric" = Some metric) as -> by (by apply elem_of_list_to_map_1). done.
  - intros exp. unfold parseExpression, str_slice.
    assert (-1 <= strings_Index exp "(" /\ strings_Index exp ")" <= str_len exp) as [Hlo Hhi].
    { unfold strings_Index. split; [destruct (find_byte _ _); lia|]. destruct (find_byte ")" exp) as [n|] eqn:E; [|unfold str_len; lia].
      unfold str_len. clear - E. assert (n < String.length exp)%nat; [|lia]. revert n E.
      induction exp as [|c exp IH]; intros n; cbn [find_byte String.length]; [done|]. case_match; [intros [= <-]; lia|].
      destruct (find_byte ")" exp) as [k|]; [|done]. intros [= <-]. specialize (IH k eq_refl). lia. }
    rewrite (proj2 (Z.ltb_ge (strings_Index exp "(" + 1) 0)), (proj2 (Z.ltb_ge (str_len exp) _)) by lia. simpl.
    rewrite orb_false_r. destruct (Z.ltb_spec (strings_Index exp ")") (strings_Index exp "(" + 1)); cbn [rbind].
    + split; [lia | by eexists].
    + split; [|lia]. intros [p Hp]. case_match; done.
Qed.

Lemma parseExpression_roundtrip_witness :
  parseExpression "each(metric=load.1min idc=bj)" = Ok (Some ("load.1min", {["idc" := "bj"]}))
  /\ (exists p, parseExpression "each(metric=load.1min idc=bj" = Panic p).
Proof.
  destruct (parseExpression_roundtrip "each" [("metric", "load.1min"); ("idc", "bj")] "" "load.1min") as [E Hp];
    [done | done | by repeat constructor; vm_compute | by apply (bool_decide_unpack _); vm_compute | left | simpl; lia |].
  split; [exact E|]. apply Hp. by vm_compute.
Defined.

(** * A small site: one host, one group with a template and its parent *)

Definition site_rows : list (option (Z * BuiltinMetric)) :=
  [Some (2, mkBuiltinMetric "proc.num" "name=sshd"); None; Some (1, mkBuiltinMetric "du.bs" "path=/data"); Some (7, mkBuiltinMetric "du.bs" "path=/")].
Definition site : HbsState :=
  mkHbsState {[10 := ["sys"; "net"]]} {[10 := [2]]} {[5 := [10]]} {["h1" := 5]}
    {[1 := mkTemplate 1 "base" 0 0 ""; 2 := mkTemplate 2 "web" 1 0 ""]} ∅ {[5 := [2]]} [] ∅ ∅ [].

Lemma BuiltinMetrics_protocol_witness :
  exists (metrics : list BuiltinMetric) digest, Agent_BuiltinMetrics (H := iset_dedup) (Some site_rows) site "h1" digest = Some ([], digest)
    /\ mkBuiltinMetric "du.bs" "path=/data" ∈ metrics
    /\ Agent_BuiltinMetrics (H := iset_dedup) (Some (reverse site_rows)) site "h1" digest = Some ([], digest).
Proof.
  destruct (BuiltinMetrics_protocol iset_dedup iset_dedup site "h1" site_rows (reverse site_rows)) as (ms & ms' & digest & E & E' & _ & _ & _ & Hin).
  - done.
  - intros r. by rewrite elem_of_reverse.
  - exists ms, digest. rewrite E, E', bool_decide_eq_true_2 by done. split; [done|]. split; [|done].
    apply Hin. split; [by apply (bool_decide_unpack _); vm_compute|]. exists 2, 1. split; [|split].
    + exists 5, [10], 10, [2]. repeat split; left.
    + right. apply (bool_decide_unpack _). by vm_compute.
    + right. right. left.
Defined.

Lemma agents_tracked_witness :
  let st := fst (Agent_ReportStatus 100000 (mkAgentReportRequest "h1" "10.0.0.1" "5.1" "") site) in
  agents_ok st /\ exists st', deleteStaleAgents (H := map_range_default) 200000 st = Ok st' /\ Agents st' !! "h1" = None.
Proof.
  set (st := fst _). cbv zeta. destruct (agents_tracked (H := map_range_default) st 200000) as [Hok (st' & E & _ & Hin)].
  - eapply reach_step; [apply (reach_start (H := map_range_default) site); done | apply (step_report (H := map_range_default))].
  - split; [done|]. exists st'. split; [done|]. destruct (Agents st' !! "h1") as [info|] eqn:Ei; [|done].
    apply Hin in Ei as [Ei Hb]. assert (Agents st !! "h1" = Some (mkAgentUpdateInfo 100000 (mkAgentReportRequest "h1" "10.0.0.1" "5.1" ""))) as E2 by done.
    rewrite E2 in Ei. injection Ei as <-. simpl in Hb. lia.
Defined.
