(* ===== verification/HbsRules.v ===== *)
(** modules/hbs/rpc/hbs.go: the strategies of each host, with the strategies of a
    template overriding those of its ancestors. *)
From Stdlib Require Import Ascii ZArith.
From stdpp Require Import base list gmap strings numbers sorting.
From S2P Require Import Prelude GoString GoFloat GoText GoHash Utils Model ThirdParty Hbs.

Local Open Scope Z_scope.

(** * Definitions *)

Fixpoint slice_int_contains (list : list Z) (target : Z) : bool :=
  match list with
  | [] => false
  | b :: list => if b =? target then true else slice_int_contains list target
  end.
Fixpoint slice_int_eq_from (a b : list Z) : bool :=
  match a, b with
  | [], _ => true
  | av :: a, bv :: b => if negb (av =? bv) then false else slice_int_eq_from a b
  | _ :: _, [] => false
  end.
Definition slice_int_eq (a b : list Z) : bool :=
  if negb (length a =? length b)%nat then false else slice_int_eq_from a b.
Fixpoint slice_int_lt (a b : list Z) : bool :=
  match a with
  | [] => true
  | i :: a => if negb (slice_int_contains b i) then false else slice_int_lt a b
  end.

(** The loop over [j] for bucket [i]: [rest] are the buckets from index [j] on. *)
Fixpoint bucket_valid (i j : nat) (bucket : list Z) (rest : list (list Z)) : bool :=
  match rest with
  | [] => true
  | other :: rest =>
      if (i =? j)%nat then bucket_valid i (S j) bucket rest
      else if slice_int_eq bucket other then true
      else if slice_int_lt bucket other then false
      else bucket_valid i (S j) bucket rest
  end.
Definition uniq_buckets (buckets : list (list Z)) : list (list Z) :=
  map snd (filter (fun '(i, bucket) => bucket_valid i 0 bucket buckets = true) (zip (seq 0 (length buckets)) buckets)).

Definition strategy_uuid (s : Strategy) : string := "metric:" +:+ Strategy_Metric s +:+ "/tags:" +:+ SortedTags (Strategy_Tags s).

Definition by_uuid : list Strategy -> gmap string (list Strategy) := group_by strategy_uuid.

Definition set_Tpl (tpl : option Template) (s : Strategy) : Strategy := with_tags_tpl s (Strategy_Tags s) tpl.

Section Rules.
Context `{MapRange, IdRange}.

Definition Tpl2Strategies (strategies : gmap Z Strategy) : gmap Z (list Strategy) :=
  fold_left (fun ret '(_, s) =>
    match Strategy_Tpl s with
    | None => ret
    | Some tpl => id_append ret (Template_Id tpl) s
    end) (range_id_pairs strategies) ∅.

(** The strategies of one bucket: the templates are visited oldest first. *)
Definition bucket_strategies (tpl2Strategies : gmap Z (list Strategy)) (bucket : list Z) : gmap string (list Strategy) :=
  fold_left (fun bucket_stras_map tid =>
    let the_tid_stras := match tpl2Strategies !! tid with Some stras => by_uuid stras | None => ∅ end in
    fold_left (fun m '(uuid, ss) => <[uuid := ss]> m) (range_pairs the_tid_stras) bucket_stras_map) bucket ∅.

(** One strategy of a bucket: the strategies so far, and the ids among them. *)
Definition collect (allTpls : gmap Z Template) (last_tid : Z) (st : list Strategy * gset Z) (s : Strategy) : result (list Strategy * gset Z) :=
  let '(strategies, exists_by_id) := st in
  if decide (Strategy_Id s ∈ exists_by_id) then Ok st
  else match Strategy_Tpl s with
  | None => Panic NilDereference
  | Some tpl =>
      let valStrategy := if negb (Template_Id tpl =? last_tid) then set_Tpl (allTpls !! last_tid) s else s in
      Ok (strategies ++ [valStrategy], {[Strategy_Id s]} ∪ exists_by_id)
  end.

Definition CalcInheritStrategies (allTpls : gmap Z Template) (tids : list Z) (tpl2Strategies : gmap Z (list Strategy)) : result (list Strategy) :=
  let tpl_buckets := filter (fun ids => ids <> []) (map (ParentIds allTpls) tids) in
  let! (strategies, _) := rfold (fun st bucket =>
    let bucket_stras_map := bucket_strategies tpl2Strategies bucket in
    let! last_tid := index bucket (Z.of_nat (length bucket) - 1) in
    rfold (fun st '(_, ss) => rfold (collect allTpls last_tid) st ss) st (range_pairs bucket_stras_map))
    ([], ∅) (uniq_buckets tpl_buckets) in
  Ok strategies.

Definition GetStrategies (st : HbsState) : result (list HostStrategy) :=
  let hidTids := HostTemplateIds st in
  if (size hidTids =? 0)%nat then Ok []
  else if (size (MonitoredHosts st) =? 0)%nat then Ok []
  else if (size (TemplateCache st) =? 0)%nat then Ok []
  else if (size (Strategies st) =? 0)%nat then Ok []
  else
    let tpl2Strategies := Tpl2Strategies (Strategies st) in
    rfold (fun hostStrategies '(hostId, tplIds) =>
      match MonitoredHosts st !! hostId with
      | None => Ok hostStrategies
      | Some h =>
          let! ss := CalcInheritStrategies (TemplateCache st) tplIds tpl2Strategies in
          match ss with
          | [] => Ok hostStrategies
          | _ => Ok (hostStrategies ++ [mkHostStrategy (Host_Name h) ss])
          end
      end) [] (range_id_pairs hidTids).

Definition GetExpressions (st : HbsState) : list Expression := ExpressionCache st.

End Rules.

(** * Buckets *)

Lemma slice_int_contains_spec l x : slice_int_contains l x = true <-> x ∈ l.
Proof.
  induction l as [|y l IH]; cbn [slice_int_contains]; [rewrite elem_of_nil; split; done|].
  rewrite elem_of_cons. destruct (Z.eqb_spec y x); [subst; tauto|]. rewrite IH. naive_solver.
Qed.

Lemma slice_int_lt_spec a b : slice_int_lt a b = true <-> a ⊆ b.
Proof.
  induction a as [|x a IH]; cbn [slice_int_lt]; [split; [intros _ y ?%not_elem_of_nil; done | done]|].
  destruct (slice_int_contains b x) eqn:E; cbn [negb].
  - apply slice_int_contains_spec in E. rewrite IH. set_solver.
  - split; [done|]. intros Hs. exfalso. apply not_true_iff_false in E. apply E, slice_int_contains_spec, Hs. left.
Qed.

Lemma slice_int_eq_spec a b : slice_int_eq a b = true <-> a = b.
Proof.
  unfold slice_int_eq. destruct (Nat.eqb_spec (length a) (length b)) as [Hl|Hl]; cbn [negb]; [|split; [done | by intros ->]].
  revert b Hl. induction a as [|x a IH]; intros [|y b] Hl; cbn [slice_int_eq_from length] in *; try done.
  destruct (Z.eqb_spec x y) as [->|Hne]; cbn [negb]; [|split; [done | congruence]].
  rewrite IH by lia. naive_solver.
Qed.

Lemma bucket_valid_spec i j bucket rest :
  (forall k other, rest !! k = Some other -> (j + k)%nat <> i -> bucket <> other) ->
  bucket_valid i j bucket rest = true <-> forall k other, rest !! k = Some other -> (j + k)%nat <> i -> ~ bucket ⊆ other.
Proof.
  revert j. induction rest as [|other rest IH]; intros j Hne; cbn [bucket_valid]; [done|].
  assert (forall k o, rest !! k = Some o -> (S j + k)%nat <> i -> bucket <> o) as Hne'.
  { intros k o Hk Hi. apply (Hne (S k) o Hk). lia. }
  assert ((forall k o, (other :: rest) !! k = Some o -> (j + k)%nat <> i -> ~ bucket ⊆ o) <->
    (i <> j -> ~ bucket ⊆ other) /\ (forall k o, rest !! k = Some o -> (S j + k)%nat <> i -> ~ bucket ⊆ o)) as Hsplit.
  { split.
    - intros Ha. split; [intros Hi; apply (Ha O other eq_refl); lia|]. intros k o Hk Hi. apply (Ha (S k) o Hk). lia.
    - intros [H0 Hs] [|k] o Hk Hi; [injection Hk as <-; apply H0; lia | apply (Hs k o Hk); lia]. }
  rewrite Hsplit. destruct (Nat.eqb_spec i j) as [->|Hij]; [rewrite IH by done; naive_solver|].
  destruct (slice_int_eq bucket other) eqn:Ee.
  { apply slice_int_eq_spec in Ee. exfalso. apply (Hne O other); [done | lia | done]. }
  destruct (slice_int_lt bucket other) eqn:El.
  - apply slice_int_lt_spec in El. naive_solver.
  - rewrite IH by done. assert (~ bucket ⊆ other); [|naive_solver].
    intros Hs%slice_int_lt_spec. congruence.
Qed.

(** Among distinct buckets, those kept are the ones no other bucket contains. *)
Lemma uniq_buckets_elem buckets b :
  NoDup buckets -> b ∈ uniq_buckets buckets <-> b ∈ buckets /\ forall b', b' ∈ buckets -> b' <> b -> ~ b ⊆ b'.
Proof.
  intros Hnd. unfold uniq_buckets. change (map snd) with (fmap (M := list) (@snd nat (list Z))).
  rewrite list_elem_of_fmap. setoid_rewrite list_elem_of_filter.
  assert (forall i b, (i, b) ∈ zip (seq 0 (length buckets)) buckets <-> buckets !! i = Some b) as Hzip.
  { intros i b'. rewrite list_elem_of_lookup. setoid_rewrite lookup_zip_with_Some. setoid_rewrite lookup_seq. split.
    - intros (k & x & y & [= <- <-] & [Hx _] & Hy). simpl in Hx. by subst.
    - intros Hi. exists i, i, b'. split; [done|]. split; [|done]. split; [done | by eapply lookup_lt_Some]. }
  assert (forall i b, buckets !! i = Some b -> (forall k other, buckets !! k = Some other -> (0 + k)%nat <> i -> b <> other)) as Hdist.
  { intros i b' Hi k other Hk Hki ->. apply Hki. symmetry. by eapply NoDup_lookup. }
  split.
  - intros ([i b0] & Eb & Hv & Hi%Hzip). cbn [snd] in Eb. subst b0. split; [by eapply list_elem_of_lookup_2|].
    intros b' [k Hk]%list_elem_of_lookup Hne. rewrite bucket_valid_spec in Hv by (by apply Hdist).
    apply (Hv k b' Hk). intros <-. simpl in Hi. congruence.
  - intros [[i Hi]%list_elem_of_lookup Hmax]. exists (i, b). split; [done|]. split; [|by apply Hzip].
    apply bucket_valid_spec; [by apply Hdist|]. intros k other Hk Hki. apply Hmax; [by eapply list_elem_of_lookup_2|].
    intros ->. by eapply (Hdist i).
Qed.

Lemma ancestry_suffix m tid l x : ancestry m tid l -> x ∈ l -> exists l', ancestry m x (x :: l') /\ x :: l' ⊆ l.
Proof.
  induction 1 as [|tid t l Hpos Ht Hl IH]; intros Hx; [by apply not_elem_of_nil in Hx|].
  apply elem_of_cons in Hx as [->|Hx].
  - exists l. split; [by econstructor | done].
  - destruct (IH Hx) as (l' & Hl' & Hsub). exists l'. split; [done | set_solver].
Qed.

Lemma ParentIds_nonempty m tid :
  ParentIds m tid <> [] -> exists l, ancestry m tid (tid :: l) /\ ParentIds m tid = reverse (tid :: l).
Proof.
  intros Hne. destruct (ParentIds_chain m tid) as [(l & Hl & _ & E)|[E _]]; [|congruence].
  inversion Hl; subst; [by rewrite E in Hne|]. eauto.
Qed.

Lemma ParentIds_last m tid : ParentIds m tid <> [] -> exists pre, ParentIds m tid = pre ++ [tid].
Proof. intros (l & _ & E)%ParentIds_nonempty. exists (reverse l). by rewrite E, reverse_cons. Qed.

(** The chain of one template is part of another's exactly when the latter descends
    from it. *)
Lemma ParentIds_sub m tid tid' :
  ParentIds m tid <> [] -> ParentIds m tid ⊆ ParentIds m tid' <-> tid ∈ ParentIds m tid'.
Proof.
  intros Hne. destruct (ParentIds_nonempty m tid Hne) as (l & Hl & E). rewrite E. split.
  - intros Hs. apply Hs. rewrite elem_of_reverse. left.
  - intros Hin. destruct (decide (ParentIds m tid' = [])) as [E'|Hne']; [rewrite E' in Hin; by apply not_elem_of_nil in Hin|].
    destruct (ParentIds_nonempty m tid' Hne') as (l' & Hl' & E'). rewrite E' in *. rewrite elem_of_reverse in Hin.
    destruct (ancestry_suffix _ _ _ _ Hl' Hin) as (l2 & Hl2 & Hsub). pose proof (ancestry_functional _ _ _ _ Hl Hl2) as [= ->].
    intros x. rewrite !elem_of_reverse. apply Hsub.
Qed.

(** ** Which templates of a host count *)

(** A template of the host from which no other template of the host descends. *)
Definition youngest (m : gmap Z Template) (tids : list Z) (tid : Z) : Prop :=
  tid ∈ tids /\ ParentIds m tid <> [] /\ forall tid', tid' ∈ tids -> tid' <> tid -> tid ∉ ParentIds m tid'.

Lemma buckets_NoDup m tids : NoDup tids -> NoDup (filter (fun ids => ids <> []) (map (ParentIds m) tids)).
Proof.
  induction 1 as [|t ts Ht Hnd IH]; [constructor|]. cbn [map]. rewrite filter_cons. case_decide as Hne; [|done].
  constructor; [|done]. rewrite list_elem_of_filter, list_elem_of_fmap. intros [_ (t' & E & Ht')].
  destruct (ParentIds_last m t Hne) as [pre E1]. rewrite E in Hne. destruct (ParentIds_last m t' Hne) as [pre' E2].
  rewrite E1, E2 in E. apply app_inj_tail in E as [_ ->]. done.
Qed.

Lemma uniq_buckets_youngest m tids b :
  NoDup tids ->
  b ∈ uniq_buckets (filter (fun ids => ids <> []) (map (ParentIds m) tids)) <-> exists tid, youngest m tids tid /\ b = ParentIds m tid.
Proof.
  intros Hnd. rewrite uniq_buckets_elem by (by apply buckets_NoDup).
  assert (forall b, b ∈ filter (fun ids => ids <> []) (map (ParentIds m) tids) <-> exists tid, tid ∈ tids /\ ParentIds m tid <> [] /\ b = ParentIds m tid) as Hb.
  { intros b'. change (map (ParentIds m) tids) with (ParentIds m <$> tids). rewrite list_elem_of_filter, list_elem_of_fmap. naive_solver. }
  rewrite Hb. split.
  - intros [(tid & Ht & Hne & ->) Hmax]. exists tid. split; [|done]. split; [done|]. split; [done|].
    intros tid' Ht' Hd Hin. apply (Hmax (ParentIds m tid')).
    + apply Hb. exists tid'. split; [done|]. split; [|done]. intros E. rewrite E in Hin. by apply not_elem_of_nil in Hin.
    + intros E. destruct (ParentIds_last m tid Hne) as [pre E1]. rewrite <- E in Hne. destruct (ParentIds_last m tid' Hne) as [pre' E2].
      rewrite E1, E2 in E. by apply app_inj_tail in E as [_ ->].
    + by apply ParentIds_sub.
  - intros (tid & (Ht & Hne & Hy) & ->). split; [eauto|]. intros b' (tid' & Ht' & Hne' & ->)%Hb Hd Hs.
    apply (Hy tid' Ht'); [congruence|]. by apply ParentIds_sub.
Qed.

(** ** The strategies of one bucket *)

(** [effective stras bucket s]: a template of the bucket has [s], and no younger one
    has a strategy for the same metric and tags. *)
Definition effective (has : Z -> Strategy -> Prop) (bucket : list Z) (s : Strategy) : Prop :=
  exists pre tid post, bucket = pre ++ tid :: post /\ has tid s /\
    forall tid' s', tid' ∈ post -> has tid' s' -> strategy_uuid s' <> strategy_uuid s.

Lemma effective_iff has has' bucket s : (forall tid s, has tid s <-> has' tid s) -> effective has bucket s <-> effective has' bucket s.
Proof. intros E. unfold effective. by setoid_rewrite E. Qed.

Section RulesProofs.
Context `{MapRange, IdRange}.

Lemma bucket_strategies_snoc t2 b tid u :
  bucket_strategies t2 (b ++ [tid]) !! u =
    match filter (fun s => strategy_uuid s = u) (default [] (t2 !! tid)) with [] => bucket_strategies t2 b !! u | l => Some l end.
Proof using Type.
  unfold bucket_strategies at 1. rewrite fold_left_app. cbn [fold_left]. fold (bucket_strategies t2 b).
  rewrite (fold_range_lookup (fun ss => ss)). destruct (t2 !! tid) as [stras|]; simpl.
  - unfold by_uuid. rewrite group_by_lookup. by destruct (filter _ stras).
  - done.
Qed.

Lemma bucket_strategies_effective t2 b s :
  (exists ss, bucket_strategies t2 b !! strategy_uuid s = Some ss /\ s ∈ ss) <-> effective (fun tid s => s ∈ default [] (t2 !! tid)) b s.
Proof using Type.
  induction b as [|tid b IH] using rev_ind.
  { split; [by intros (ss & [=] & _) | intros (pre & tid & post & E & _); by destruct pre]. }
  setoid_rewrite bucket_strategies_snoc. pose proof (list_elem_of_filter (fun s' => strategy_uuid s' = strategy_uuid s) (default [] (t2 !! tid))) as Hf.
  split.
  - intros (ss & E & Hs). destruct (filter _ _) as [|s0 l] eqn:El.
    + destruct (proj1 IH) as (pre & t & post & -> & Ht & Hpost); [eauto|]. exists pre, t, (post ++ [tid]).
      split; [by rewrite <- app_assoc|]. split; [done|]. intros tid' s'. rewrite elem_of_app, list_elem_of_singleton.
      intros [Ht'| ->] Hs'; [by eapply Hpost|]. intros E'. specialize (Hf s'). rewrite elem_of_nil in Hf. tauto.
    + injection E as <-. exists b, tid, []. split; [done|]. split; [by apply Hf in Hs as []|]. intros ? ? ?%not_elem_of_nil. done.
  - intros (pre & t & post & E & Ht & Hpost). destruct (decide (post = [])) as [->|Hne].
    + apply app_inj_tail in E as [-> ->]. destruct (filter _ _) as [|s0 l] eqn:El.
      * specialize (Hf s). rewrite elem_of_nil in Hf. tauto.
      * exists (s0 :: l). split; [done|]. by apply Hf.
    + destruct (exists_last Hne) as (post' & last & ->).
      replace (pre ++ t :: post' ++ [last]) with ((pre ++ t :: post') ++ [last]) in E by (by rewrite <- app_assoc).
      apply app_inj_tail in E as [-> ->]. destruct (proj2 IH) as (ss & Ess & Hss).
      { exists pre, t, post'. split; [done|]. split; [done|]. intros tid' s' Ht'. apply Hpost. rewrite elem_of_app. by left. }
      destruct (filter _ _) as [|s0 l] eqn:El; [eauto|]. exfalso.
      destruct (proj1 (Hf s0)) as [Eu Hin]; [left|]. eapply (Hpost last s0); [rewrite elem_of_app; right; left | done | done].
Qed.

Lemma bucket_strategies_uuid t2 b u ss s : bucket_strategies t2 b !! u = Some ss -> s ∈ ss -> strategy_uuid s = u.
Proof using Type.
  induction b as [|tid b IH] using rev_ind; [done|]. rewrite bucket_strategies_snoc.
  pose proof (list_elem_of_filter (fun s' => strategy_uuid s' = u) (default [] (t2 !! tid))) as Hf.
  destruct (filter _ _) as [|s0 l] eqn:El; [done|]. intros [= <-] Hs. by apply Hf in Hs as [].
Qed.

Lemma bucket_visited t2 b s :
  s ∈ (range_pairs (bucket_strategies t2 b) ≫= snd) <-> effective (fun tid s => s ∈ default [] (t2 !! tid)) b s.
Proof using Type.
  rewrite <- bucket_strategies_effective, list_elem_of_bind. split.
  - intros ([u ss] & Hs & Hp%elem_of_range_pairs). cbn [snd] in Hs. exists ss. split; [|done].
    by rewrite (bucket_strategies_uuid _ _ _ _ _ Hp Hs).
  - intros (ss & E & Hs). exists (strategy_uuid s, ss). split; [done|]. by apply elem_of_range_pairs.
Qed.

End RulesProofs.

(** ** The strategies of a host *)

(** What the reply shows of a strategy found in the bucket of [last_tid]. *)
Definition retarget (m : gmap Z Template) (last_tid : Z) (s : Strategy) : Strategy :=
  match Strategy_Tpl s with
  | Some tpl => if Template_Id tpl =? last_tid then s else set_Tpl (m !! last_tid) s
  | None => s
  end.

Definition collected (m : gmap Z Template) (visited : list (Z * Strategy)) (st : list Strategy * gset Z) : Prop :=
  NoDup (map Strategy_Id (fst st)) /\
  (forall i, i ∈ snd st <-> i ∈ map Strategy_Id (fst st)) /\
  (forall s', s' ∈ fst st -> exists t s, (t, s) ∈ visited /\ s' = retarget m t s) /\
  (forall t s, (t, s) ∈ visited -> Strategy_Id s ∈ snd st).

Lemma retarget_Id m t s : Strategy_Id (retarget m t s) = Strategy_Id s.
Proof. unfold retarget. destruct (Strategy_Tpl s); [|done]. by case_match. Qed.

Lemma collect_step m visited st t s :
  collected m visited st -> is_Some (Strategy_Tpl s) ->
  exists st', collect m t st s = Ok st' /\ collected m (visited ++ [(t, s)]) st'.
Proof.
  intros (Hnd & Hset & Hsound & Hcomplete) [tpl Htpl]. destruct st as [ss ids]. unfold collect. cbn [fst snd] in *.
  assert (forall t' s', (t', s') ∈ visited ++ [(t, s)] <-> (t', s') ∈ visited \/ (t' = t /\ s' = s)) as Hv.
  { intros t' s'. rewrite elem_of_app, list_elem_of_singleton. naive_solver. }
  case_decide as Hin.
  - exists (ss, ids). split; [done|]. split; [done|]. split; [done|]. split.
    + intros s' (t' & s0 & Hs & ->)%Hsound. exists t', s0. rewrite Hv. auto.
    + intros t' s' [?|[-> ->]]%Hv; [by eapply Hcomplete | done].
  - rewrite Htpl.
    assert ((if negb (Template_Id tpl =? t) then set_Tpl (m !! t) s else s) = retarget m t s) as ->.
    { unfold retarget. rewrite Htpl. by destruct (Template_Id tpl =? t). }
    eexists. split; [done|]. unfold collected. cbn [fst snd]. rewrite map_app. cbn [map]. rewrite retarget_Id. split; [|split; [|split]].
    + apply NoDup_app. split; [done|]. split; [|apply NoDup_singleton]. intros i Hi ->%list_elem_of_singleton. by apply Hin, Hset.
    + intros i. rewrite elem_of_union, elem_of_singleton, elem_of_app, list_elem_of_singleton, Hset. tauto.
    + intros s' [Hs'| ->%list_elem_of_singleton]%elem_of_app.
      * apply Hsound in Hs' as (t' & s0 & Hs & ->). exists t', s0. rewrite Hv. auto.
      * exists t, s. rewrite Hv. auto.
    + intros t' s' [Hs|[-> ->]]%Hv; rewrite elem_of_union, elem_of_singleton; [right; by eapply Hcomplete | by left].
Qed.

Lemma collect_all m visited st l :
  collected m visited st -> Forall (fun p => is_Some (Strategy_Tpl (snd p))) l ->
  exists st', rfold (fun st p => collect m (fst p) st (snd p)) st l = Ok st' /\ collected m (visited ++ l) st'.
Proof.
  intros Hc Hl. revert visited st Hc. induction Hl as [|[t s] l Hs Hl IH]; intros visited st Hc; cbn [rfold fst snd].
  { exists st. rewrite app_nil_r. by split. }
  destruct (collect_step m visited st t s Hc Hs) as (st1 & -> & Hc1). cbn [rbind].
  destruct (IH _ _ Hc1) as (st' & E & Hc'). exists st'. split; [done|]. by rewrite <- app_assoc in Hc'.
Qed.

Section RulesTheorems.
Context `{MapRange, IdRange}.

(** The strategies the loops over the buckets visit, each with the youngest template. *)
Definition visits (t2 : gmap Z (list Strategy)) (b : list Z) : list (Z * Strategy) :=
  map (pair (default 0 (last b))) (range_pairs (bucket_strategies t2 b) ≫= snd).

Lemma index_snoc {A : Type} (l : list A) x : index (l ++ [x]) (Z.of_nat (length (l ++ [x])) - 1) = Ok x.
Proof using Type.
  rewrite length_app. cbn [length]. replace (Z.of_nat (length l + 1) - 1) with (Z.of_nat (length l)) by lia.
  apply index_nat. by rewrite lookup_app_r, Nat.sub_diag by lia.
Qed.

Lemma bucket_loop m t2 b st :
  b <> [] ->
  (let! last_tid := index b (Z.of_nat (length b) - 1) in
    rfold (fun st '(_, ss) => rfold (collect m last_tid) st ss) st (range_pairs (bucket_strategies t2 b)))
  = rfold (fun st p => collect m (fst p) st (snd p)) st (visits t2 b).
Proof using Type.
  intros Hne. destruct (exists_last Hne) as (pre & x & ->). rewrite index_snoc. cbn [rbind]. unfold visits.
  rewrite last_snoc, rfold_map. cbn [default fst snd].
  rewrite <- (rfold_bind (fun s a => collect m x s a) snd). apply rfold_ext. by intros s [u ss] _.
Qed.

(** [CalcInheritStrategies] for distinct templates. *)
Lemma CalcInherit_spec m tids t2 :
  NoDup tids -> (forall tid l s, t2 !! tid = Some l -> s ∈ l -> is_Some (Strategy_Tpl s)) ->
  let stras tid s := s ∈ default [] (t2 !! tid) in
  exists ss, CalcInheritStrategies m tids t2 = Ok ss /\ NoDup (map Strategy_Id ss) /\
    (forall s', s' ∈ ss -> exists tid s, youngest m tids tid /\ effective stras (ParentIds m tid) s /\ s' = retarget m tid s) /\
    (forall tid s, youngest m tids tid -> effective stras (ParentIds m tid) s -> exists s', s' ∈ ss /\ Strategy_Id s' = Strategy_Id s).
Proof using Type.
  intros Hnd Htpl stras. unfold CalcInheritStrategies.
  set (uniq := uniq_buckets _).
  assert (forall b, b ∈ uniq <-> exists tid, youngest m tids tid /\ b = ParentIds m tid) as Hu by (intros b; by apply uniq_buckets_youngest).
  rewrite (rfold_ext _ (fun st b => rfold (fun st p => collect m (fst p) st (snd p)) st (visits t2 b))).
  2:{ intros st b (tid & (_ & Hne & _) & ->)%Hu. by apply bucket_loop. }
  rewrite rfold_bind.
  assert (forall t s, (t, s) ∈ (uniq ≫= visits t2) <-> youngest m tids t /\ effective stras (ParentIds m t) s) as Hvis.
  { intros t s. rewrite list_elem_of_bind. unfold visits. setoid_rewrite list_elem_of_fmap. setoid_rewrite bucket_visited. split.
    - intros (b & (s0 & [= -> ->] & He) & (tid & Hy & ->)%Hu).
      destruct (ParentIds_last m tid) as [pre E]; [by destruct Hy as (_ & ? & _)|]. rewrite E, last_snoc in *. cbn [default]. rewrite <- E in *. done.
    - intros [Hy He]. exists (ParentIds m t). split; [|apply Hu; eauto]. exists s. split; [|done].
      destruct (ParentIds_last m t) as [pre ->]; [by destruct Hy as (_ & ? & _)|]. by rewrite last_snoc. }
  destruct (collect_all m [] ([], ∅) (uniq ≫= visits t2)) as ([ss ids] & E & Hcol & Hset & Hsound & Hcomplete).
  - split; [constructor|]. split; [set_solver|]. split; intros *; cbn [fst snd]; rewrite elem_of_nil; done.
  - apply list.Forall_forall. intros [t s] [_ (pre & tid & post & _ & Hs & _)]%Hvis. unfold stras in Hs. cbn [snd].
    destruct (t2 !! tid) as [l|] eqn:El; [by eapply Htpl | by apply not_elem_of_nil in Hs].
  - rewrite E. cbn [rbind]. exists ss. cbn [fst snd app] in *. split; [done|]. split; [done|]. split.
    + intros s' (t & s & [Hy He]%Hvis & ->)%Hsound. eauto.
    + intros tid s Hy He. assert (Strategy_Id s ∈ map Strategy_Id ss) as Hi by (apply Hset; eapply Hcomplete, Hvis; eauto).
      apply list_elem_of_fmap in Hi as (s' & Ei & Hs'). eauto.
Qed.

(** The strategies of a template. *)
Definition has_strategy (strategies : gmap Z Strategy) (tid : Z) (s : Strategy) : Prop :=
  exists k tpl, strategies !! k = Some s /\ Strategy_Tpl s = Some tpl /\ Template_Id tpl = tid.

Lemma elem_of_range_id_pairs {V : Type} (m : gmap Z V) k v : (k, v) ∈ range_id_pairs m <-> m !! k = Some v.
Proof using Type.
  unfold range_id_pairs. rewrite list_elem_of_omap. split.
  - intros (k' & _ & (v' & Hk & [= <- <-])%fmap_Some_1). done.
  - intros Hk. exists k. split; [|by rewrite Hk]. rewrite range_ids_perm, list_elem_of_fmap.
    exists (k, v). split; [done|]. by apply elem_of_map_to_list.
Qed.

Lemma id_append_lookup {V : Type} (m : gmap Z (list V)) k v k' :
  id_append m k v !! k' = if decide (k = k') then Some (default [] (m !! k) ++ [v]) else m !! k'.
Proof using Type.
  unfold id_append. destruct (m !! k) as [l|] eqn:E; case_decide as Hk; subst;
    first [by rewrite lookup_insert_eq | by rewrite lookup_insert_ne].
Qed.

Lemma Tpl2Strategies_elem strategies tid s :
  s ∈ default [] (Tpl2Strategies strategies !! tid) <-> has_strategy strategies tid s.
Proof using Type.
  unfold has_strategy. setoid_rewrite <- elem_of_range_id_pairs. unfold Tpl2Strategies.
  induction (range_id_pairs strategies) as [|[k x] l IH] using rev_ind.
  { cbn [fold_left]. rewrite lookup_empty. setoid_rewrite elem_of_nil. naive_solver. }
  rewrite fold_left_app. cbn [fold_left]. setoid_rewrite elem_of_app. setoid_rewrite list_elem_of_singleton.
  destruct (Strategy_Tpl x) as [tpl|] eqn:E.
  - rewrite id_append_lookup. case_decide as Ht; cbn [default]; [|rewrite IH; naive_solver].
    subst tid. simpl. rewrite elem_of_app, list_elem_of_singleton, IH. naive_solver.
  - rewrite IH. naive_solver.
Qed.

(** What the caches guarantee: strategies are filed under their ids; and what the
    host groups of the site should: no template twice for a host. *)
Definition rules_wf (st : HbsState) : Prop :=
  (forall k s, Strategies st !! k = Some s -> Strategy_Id s = k) /\
  (forall hid tids, HostTemplateIds st !! hid = Some tids -> NoDup tids).

(** [applies st hid tid s]: host [hid] has template [tid], no other template of the
    host descends from it, and [s] is in force in its chain. *)
Definition applies (st : HbsState) (hid tid : Z) (s : Strategy) : Prop :=
  exists tids, HostTemplateIds st !! hid = Some tids /\ youngest (TemplateCache st) tids tid /\
    effective (has_strategy (Strategies st)) (ParentIds (TemplateCache st) tid) s.

(** The strategies of one host. *)
Lemma host_rules st hid tids :
  rules_wf st -> HostTemplateIds st !! hid = Some tids ->
  exists ss, CalcInheritStrategies (TemplateCache st) tids (Tpl2Strategies (Strategies st)) = Ok ss /\ NoDup (map Strategy_Id ss) /\
    (forall s', s' ∈ ss -> exists tid s, applies st hid tid s /\ s' = retarget (TemplateCache st) tid s) /\
    (forall tid s, applies st hid tid s -> exists s' tid', s' ∈ ss /\ applies st hid tid' s /\ s' = retarget (TemplateCache st) tid' s).
Proof using Type.
  intros [Hkey Hnd] Ht.
  destruct (CalcInherit_spec (TemplateCache st) tids (Tpl2Strategies (Strategies st))) as (ss & E & Hids & Hsound & Hcomplete).
  { by eapply Hnd. }
  { intros tid l s El Hs. destruct (proj1 (Tpl2Strategies_elem (Strategies st) tid s)) as (k & tpl & _ & Htpl & _); [by rewrite El | eauto]. }
  assert (forall s', s' ∈ ss -> exists tid s, applies st hid tid s /\ s' = retarget (TemplateCache st) tid s) as Hsound'.
  { intros s' (tid & s & Hy & He & ->)%Hsound. exists tid, s. split; [|done]. exists tids. split; [done|]. split; [done|].
    eapply effective_iff, He. intros. symmetry. apply Tpl2Strategies_elem. }
  exists ss. split; [done|]. split; [done|]. split; [done|].
  intros tid s (tids' & Ht' & Hy & He). rewrite Ht in Ht'. injection Ht' as <-.
  destruct (Hcomplete tid s Hy) as (s' & Hs' & Ei).
  { eapply effective_iff, He. intros. apply Tpl2Strategies_elem. }
  destruct (Hsound' s' Hs') as (tid' & s2 & Ha & ->). exists (retarget (TemplateCache st) tid' s2), tid'.
  assert (s2 = s) as ->; [|done]. rewrite retarget_Id in Ei.
  destruct Ha as (_ & _ & _ & (_ & t2 & _ & _ & (k2 & tpl2 & Hk2 & _) & _)), He as (_ & t1 & _ & _ & (k1 & tpl1 & Hk1 & _) & _).
  rewrite (Hkey _ _ Hk1), (Hkey _ _ Hk2) in Ei. congruence.
Qed.

Definition in_reply (hs : list HostStrategy) (hostname : string) (s' : Strategy) : Prop :=
  exists h, h ∈ hs /\ HostStrategy_Hostname h = hostname /\ s' ∈ HostStrategy_Strategies h.

Lemma hosts_loop st hosts acc :
  rules_wf st -> (forall hid tids, (hid, tids) ∈ hosts -> HostTemplateIds st !! hid = Some tids) ->
  (forall h, h ∈ acc -> NoDup (map Strategy_Id (HostStrategy_Strategies h))) ->
  exists hs, rfold (fun hostStrategies '(hostId, tplIds) =>
      match MonitoredHosts st !! hostId with
      | None => Ok hostStrategies
      | Some h =>
          let! ss := CalcInheritStrategies (TemplateCache st) tplIds (Tpl2Strategies (Strategies st)) in
          match ss with
          | [] => Ok hostStrategies
          | _ => Ok (hostStrategies ++ [mkHostStrategy (Host_Name h) ss])
          end
      end) acc hosts = Ok hs /\
    (forall h, h ∈ hs -> NoDup (map Strategy_Id (HostStrategy_Strategies h))) /\
    (forall name s', in_reply hs name s' -> in_reply acc name s' \/
      exists hid host tid s, MonitoredHosts st !! hid = Some host /\ Host_Name host = name /\ applies st hid tid s /\ s' = retarget (TemplateCache st) tid s) /\
    (forall name s', in_reply acc name s' -> in_reply hs name s') /\
    (forall hid tids host tid s, (hid, tids) ∈ hosts -> MonitoredHosts st !! hid = Some host -> applies st hid tid s ->
      exists tid', applies st hid tid' s /\ in_reply hs (Host_Name host) (retarget (TemplateCache st) tid' s)).
Proof using Type.
  intros Hwf. revert acc. induction hosts as [|[hid tids] hosts IH]; intros acc Hin Hnd; cbn [rfold].
  { exists acc. split; [done|]. split; [done|]. split; [by left|]. split; [done|]. intros *. by rewrite elem_of_nil. }
  assert (forall hid tids, (hid, tids) ∈ hosts -> HostTemplateIds st !! hid = Some tids) as Hin' by (intros; apply Hin; by right).
  destruct (MonitoredHosts st !! hid) as [host|] eqn:Eh.
  2:{ cbn [rbind]. destruct (IH acc Hin' Hnd) as (hs & E & Hnd' & Hs & Hm & Hc). exists hs. split; [done|]. split; [done|]. split; [done|].
      split; [done|]. intros hid' tids' host' tid s [[= -> ->]|Hx]%elem_of_cons Hh Ha; [congruence | by eapply Hc]. }
  destruct (host_rules st hid tids Hwf) as (ss & -> & Hids & Hsound & Hcomplete); [apply Hin; left|]. cbn [rbind].
  set (acc' := match ss with [] => acc | _ => acc ++ [mkHostStrategy (Host_Name host) ss] end).
  replace (match ss with [] => Ok acc | _ => Ok (acc ++ [mkHostStrategy (Host_Name host) ss]) end) with (Ok acc') by (by destruct ss).
  assert (forall name s', in_reply acc' name s' <-> in_reply acc name s' \/ (name = Host_Name host /\ s' ∈ ss)) as Hacc.
  { intros name s'. unfold acc', in_reply. destruct ss as [|s0 ss]; [rewrite elem_of_nil; naive_solver|].
    setoid_rewrite elem_of_app. setoid_rewrite list_elem_of_singleton. naive_solver. }
  assert (forall h, h ∈ acc' -> NoDup (map Strategy_Id (HostStrategy_Strategies h))) as Hnd'.
  { unfold acc'. destruct ss; [done|]. intros h. rewrite elem_of_app, list_elem_of_singleton. intros [?| ->]; auto. }
  cbn [rbind]. destruct (IH acc' Hin' Hnd') as (hs & E & Hnd2 & Hs & Hm & Hc). exists hs. split; [done|]. split; [done|]. split; [|split].
  - intros name s' [[?|[-> Hs']]%Hacc|?]%Hs; [by left | right | by right].
    apply Hsound in Hs' as (tid & s & Ha & ->). exists hid, host, tid, s. done.
  - intros name s' Hx. apply Hm, Hacc. by left.
  - intros hid' tids' host' tid s [[= -> ->]|Hx]%elem_of_cons Hh Ha; [|by eapply Hc].
    rewrite Eh in Hh. injection Hh as <-. destruct (Hcomplete tid s Ha) as (s' & tid' & Hs' & Ha' & ->). exists tid'. split; [done|].
    apply Hm, Hacc. by right.
Qed.

(** The answer of [GetStrategies] to the judges: it never panics, no host gets a
    strategy twice, and a host is answered exactly the strategies in force for it. A
    strategy is in force when a template of the host, from which no other template of
    the host descends, has it in its chain of ancestors and no younger template of
    that chain has one for the same metric and tags; it is answered with the
    youngest template of such a chain, so that the alarm goes to its owners. *)
Theorem GetStrategies_correct st :
  rules_wf st ->
  exists hs, GetStrategies st = Ok hs /\
    (forall h, h ∈ hs -> NoDup (map Strategy_Id (HostStrategy_Strategies h))) /\
    (forall name s', in_reply hs name s' ->
      exists hid host tid s, MonitoredHosts st !! hid = Some host /\ Host_Name host = name /\ applies st hid tid s /\ s' = retarget (TemplateCache st) tid s) /\
    (forall hid host tid s, MonitoredHosts st !! hid = Some host -> applies st hid tid s ->
      exists tid', applies st hid tid' s /\ in_reply hs (Host_Name host) (retarget (TemplateCache st) tid' s)).
Proof using Type.
  intros Hwf.
  assert ((forall hid host tid s, MonitoredHosts st !! hid = Some host -> ~ applies st hid tid s) ->
    exists hs, Ok ([] : list HostStrategy) = Ok hs /\
    (forall h, h ∈ hs -> NoDup (map Strategy_Id (HostStrategy_Strategies h))) /\
    (forall name s', in_reply hs name s' ->
      exists hid host tid s, MonitoredHosts st !! hid = Some host /\ Host_Name host = name /\ applies st hid tid s /\ s' = retarget (TemplateCache st) tid s) /\
    (forall hid host tid s, MonitoredHosts st !! hid = Some host -> applies st hid tid s ->
      exists tid', applies st hid tid' s /\ in_reply hs (Host_Name host) (retarget (TemplateCache st) tid' s))) as Hempty.
  { intros Hno. exists []. split; [done|]. split; [intros h ?%not_elem_of_nil; done|]. split.
    - intros name s' (h & ?%not_elem_of_nil & _). done.
    - intros hid host tid s Hh Ha. exfalso. by eapply Hno. }
  unfold GetStrategies.
  destruct (Nat.eqb_spec (size (HostTemplateIds st)) 0) as [E|_].
  { apply map_size_empty_iff in E. apply Hempty. intros hid host tid s _ (tids & Ht & _). by rewrite E in Ht. }
  destruct (Nat.eqb_spec (size (MonitoredHosts st)) 0) as [E|_].
  { apply map_size_empty_iff in E. apply Hempty. intros hid host tid s Hh. by rewrite E in Hh. }
  destruct (Nat.eqb_spec (size (TemplateCache st)) 0) as [E|_].
  { apply map_size_empty_iff in E. apply Hempty. intros hid host tid s _ (tids & _ & (_ & Hne & _) & _).
    apply ParentIds_nonempty in Hne as (l & Hl & _). inversion Hl; subst. rewrite E in *. done. }
  destruct (Nat.eqb_spec (size (Strategies st)) 0) as [E|_].
  { apply map_size_empty_iff in E. apply Hempty. intros hid host tid s _ (tids & _ & _ & (_ & t & _ & _ & (k & tpl & Hk & _) & _)). by rewrite E in Hk. }
  destruct (hosts_loop st (range_id_pairs (HostTemplateIds st)) []) as (hs & E & Hnd & Hs & _ & Hc).
  - done.
  - intros hid tids. by rewrite elem_of_range_id_pairs.
  - intros h ?%not_elem_of_nil. done.
  - exists hs. split; [done|]. split; [done|]. split.
    + intros name s' [(h & ?%not_elem_of_nil & _)|?]%Hs; done.
    + intros hid host tid s Hh Ha. destruct Ha as (tids & Ht & Ha). eapply Hc; [by apply elem_of_range_id_pairs | done | by exists tids].
Qed.

End RulesTheorems.

(** * Examples *)

Definition stra (id tid : Z) (metric : string) : Strategy :=
  mkStrategy id metric ∅ "all(#3)" ">" (f64_lit 1 0) 3 0 "" (Some (mkTemplate tid "" 0 0 "")).
(** Host 5 has templates 1 and 2, and 2 is a child of 1: strategy 12 overrides 11. *)
Definition rules_site (tids : list Z) : HbsState :=
  mkHbsState ∅ ∅ ∅ ∅ {[1 := mkTemplate 1 "base" 0 0 ""; 2 := mkTemplate 2 "web" 1 0 ""]}
    {[11 := stra 11 1 "load"; 12 := stra 12 2 "load"; 13 := stra 13 1 "mem"]} {[5 := tids]} [] {[5 := mkHost 5 "h1"]} ∅ [].

Definition reply_ids (r : result (list HostStrategy)) : list (string * list (Z * option Z)) :=
  match r with
  | Ok hs => map (fun h => (HostStrategy_Hostname h, map (fun s => (Strategy_Id s, Template_Id <$> Strategy_Tpl s)) (HostStrategy_Strategies h))) hs
  | Panic _ => []
  end.

#[local] Existing Instance map_range_default.
#[local] Existing Instance id_range_default.

Example overrides : reply_ids (GetStrategies (rules_site [1; 2])) = [("h1", [(13, Some 2); (12, Some 2)])].
Proof. by vm_compute. Qed.

(** With a template bound through two groups the duplicate buckets stop the search
    before the containing one: the overridden strategy 11 stays, and 13 keeps the
    template of the parent. *)
Example duplicate_template_keeps_overridden :
  reply_ids (GetStrategies (rules_site [1; 1; 2])) = [("h1", [(13, Some 1); (11, Some 1); (12, Some 2)])].
Proof. by vm_compute. Qed.

Lemma GetStrategies_correct_witness :
  rules_wf (rules_site [1; 2]) /\ exists hs tid', GetStrategies (rules_site [1; 2]) = Ok hs /\
    in_reply hs "h1" (retarget (TemplateCache (rules_site [1; 2])) tid' (stra 12 2 "load")).
Proof.
  assert (rules_wf (rules_site [1; 2])) as Hwf.
  { split.
    - intros k s. cbn [Strategies rules_site]. intros [[<- <-]|[_ [[<- <-]|[_ [<- <-]%lookup_singleton_Some]]%lookup_insert_Some]]%lookup_insert_Some; done.
    - intros hid tids. cbn [HostTemplateIds rules_site]. intros [_ <-]%lookup_singleton_Some. by apply (bool_decide_unpack _); vm_compute. }
  split; [done|]. destruct (GetStrategies_correct (rules_site [1; 2]) Hwf) as (hs & E & _ & _ & Hc).
  destruct (Hc 5 (mkHost 5 "h1") 2 (stra 12 2 "load")) as (tid' & _ & Hin); [done| |].
  - exists [1; 2]. split; [done|]. split.
    + split; [right; left|]. split; [by vm_compute|]. intros tid' Ht Hne.
      assert (tid' = 1) as -> by (clear - Ht Hne; set_solver). apply (bool_decide_unpack _). by vm_compute.
    + exists [1], 2, []. split; [by vm_compute|]. split; [|intros ? ? []%not_elem_of_nil].
      exists 12, (mkTemplate 2 "" 0 0 ""). split; [vm_compute; reflexivity|]. split; reflexivity.
  - exists hs, tid'. split; [exact E | exact Hin].
Defined.
