(* ===== verification/Aggregator.v ===== *)
(** modules/aggregator, which computes one point for a group of hosts from the last
    points of each host, and common/sdk/sender, the queue it pushes the point to. *)
From Stdlib Require Import Ascii ZArith.
From stdpp Require Import base list gmap strings numbers.
From S2P Require Import Prelude GoString GoFloat GoText GoRegexp Utils Model.

Local Open Scope Z_scope.

(** * common/sdk/sender *)

(** The front of the queue is the head of the list. *)
Definition SafeLinkedList : Type := list JsonMetaData.
Definition PopBack (limit : Z) (this : SafeLinkedList) : SafeLinkedList * list JsonMetaData :=
  let sz := Z.of_nat (length this) in
  if sz =? 0 then (this, [])
  else
    let limit := if sz <? limit then sz else limit in
    let n := (length this - Z.to_nat limit)%nat in
    (take n this, reverse (drop n this)).
Definition PushFront (v : JsonMetaData) (this : SafeLinkedList) : SafeLinkedList := v :: this.

Definition MakeMetaData (now : Z) (endpoint metric tags : string) (val : GoValue) (counterType : string) (step_and_ts : list Z) : JsonMetaData :=
  let '(step, ts) := match step_and_ts with
    | [] => (60, now)
    | [step] => (step, now)
    | [step; ts] => (step, ts)
    | _ => (0, 0)
    end in
  mkJsonMetaData metric endpoint ts step val counterType tags.

Definition LIMIT : Z := 200.
(** One round of [startSender]: the batch posted, if any; whether the transfer took
    it or not, it is gone from the queue. *)
Definition startSender_round (queue : SafeLinkedList) : SafeLinkedList * option (list JsonMetaData) :=
  match PopBack LIMIT queue with
  | (queue, []) => (queue, None)
  | (queue, L) => (queue, Some L)
  end.

(** * cron/run.go: the text of numerator and denominator *)

Definition cleanParam (val : string) : string :=
  let val := strings_TrimSpace val in
  let val := strings_remove " " val in
  let val := strings_remove "013" val in
  let val := strings_remove "010" val in
  strings_remove "009" val.

Definition needCompute (val : string) : bool := strings_Contains val "$(".

(** The parts of the expressions: [\$\([^\(\)]+\)], [(>|=|<|>=|<=)\d+(\.\d+)?]. *)
Definition re_counter : regexp := RSeq (RStr "$(") (RSeq (RPlus (RNotOf "()")) (RStr ")")).
Definition re_sum : regexp := RSeq (RStar (RSeq re_counter (ROneOf "+-"))) re_counter.
Definition re_digits : regexp := RPlus (RSet is_digit).
Definition re_compare : regexp :=
  RSeq (RAlt (RStr ">") (RAlt (RStr "=") (RAlt (RStr "<") (RAlt (RStr ">=") (RStr "<=")))))
    (RSeq re_digits (ROpt (RSeq (RStr ".") re_digits))).
Definition matchMode0 : regexp := re_sum.
Definition matchMode1 : regexp := RSeq re_counter re_compare.
Definition matchMode2 : regexp := RSeq (RStr "(") (RSeq re_sum (RSeq (RStr ")") re_compare)).
Definition matchMode3 : regexp := re_digits.

Definition expressionValid (val : string) : bool :=
  if strings_Contains val "（" || strings_Contains val "）" then false
  else if bool_decide (val = "$#") then true
  else if regexp_Match matchMode0 val then true
  else if regexp_Match matchMode1 val then true
  else if regexp_Match matchMode2 val then true
  else if regexp_Match matchMode3 val then true
  else false.

(** Even positions are operands and odd ones operators. *)
Fixpoint operands_operators (i : Z) (vals operands operators : list string) : list string * list string :=
  match vals with
  | [] => (operands, operators)
  | val :: vals =>
      if i mod 2 =? 0 then operands_operators (i + 1) vals (operands ++ [val]) operators
      else operands_operators (i + 1) vals operands (operators ++ [val])
  end.

(** [items[1 : count-1]] panics for a single item. *)
Definition parse (expression : string) (needCompute : bool) : result (list string * list string * string) :=
  if negb needCompute then Ok ([], [], "")
  else
    let items := split_runs (fun c => str_mem c "$()") expression in
    let count := Z.of_nat (length items) in
    if count - 1 <? 1 then Panic SliceBoundsOutOfRange
    else
      let '(operands, operators) := operands_operators 0 (take (length items - 2) (drop 1 items)) [] [] in
      let! computeMode := index items (count - 1) in
      Ok (operands, operators, computeMode).

Definition operatorsValid (ops : list string) : bool :=
  forallb (fun op => negb (negb (bool_decide (op = "+")) && negb (bool_decide (op = "-")))) ops.

(** * cron/computer.go *)

Definition queryOperands (counters : list string) (endpoint : string) (valMap : gmap string f64) : list f64 :=
  fold_left (fun ret counter => match valMap !! (endpoint +:+ counter) with Some v => ret ++ [v] | None => ret end) counters [].

Fixpoint str_span (f : ascii -> bool) (s : string) : string * string :=
  match s with
  | EmptyString => ("", "")
  | String c s' => if f c then let '(a, b) := str_span f s' in (String c a, b) else ("", s)
  end.
(** [FindStringSubmatch] of [([><=]+)([\d\.]+)]: the leftmost place where it matches,
    both runs as long as they can be. *)
Fixpoint find_mode (s : string) : option (string * string) :=
  match s with
  | EmptyString => None
  | String _ s' =>
      let '(mode, rest) := str_span (fun c => str_mem c "><=") s in
      let '(val, _) := str_span (fun c => is_digit c || Ascii.eqb c ".") rest in
      if bool_decide (mode = "") || bool_decide (val = "") then find_mode s' else Some (mode, val)
  end.

(** Without a match [match[1]] is out of range. *)
Definition compareSum (sum : f64) (computeMode : string) : result bool :=
  match find_mode computeMode with
  | None => Panic IndexOutOfRange
  | Some (mode, text) =>
      let val := fst (strconv_ParseFloat text) in
      Ok ((bool_decide (mode = ">") && f64_gt sum val) || (bool_decide (mode = "<") && f64_lt sum val)
          || (bool_decide (mode = "=") && f64_eq sum val) || (bool_decide (mode = ">=") && f64_ge sum val)
          || (bool_decide (mode = "<=") && f64_le sum val))
  end.

Fixpoint sum_loop (operators : list string) (i : Z) (vals : list f64) (sum : f64) : result f64 :=
  match vals with
  | [] => Ok sum
  | v :: vals =>
      let! op := index operators i in
      sum_loop operators (i + 1) vals (if bool_decide (op = "+") then f64_add sum v else f64_sub sum v)
  end.

(** [None] is an error. *)
Definition compute (operands operators : list string) (computeMode hostname : string) (valMap : gmap string f64) : result (option f64) :=
  if (length operands =? 0)%nat then Ok None
  else
    let vals := queryOperands operands hostname valMap in
    if negb (length vals =? length operands)%nat then Ok None
    else
      let! v0 := index vals 0 in
      let! sum := sum_loop operators 0 (drop 1 vals) v0 in
      if negb (bool_decide (computeMode = "")) then
        let! b := compareSum sum computeMode in Ok (Some (if b : bool then f64_of_Z 1 else f64_zero))
      else Ok (Some sum).

(** * cron/query.go, sdk/sdk.go *)

Definition last_params (endpoints counters : list string) : list (string * string) :=
  endpoints ≫= fun e => map (fun c => (e, c)) counters.

(** [query] answers the request, [None] an error; an answer that is nil or has no
    value is [None], and reading it panics. *)
Definition queryCounterLast (query : list (string * string) -> option (list (option GraphLastResp)))
    (numeratorOperands denominatorOperands hostnames : list string) (begin end_ : Z) : result (option (gmap string f64)) :=
  match query (last_params hostnames (numeratorOperands ++ denominatorOperands)) with
  | None => Ok None
  | Some resp =>
      let! m := rfold (fun (ret : gmap string f64) res =>
        match res with
        | None => Panic NilDereference
        | Some res =>
            let v := GraphLastResp_Value res in
            if (RRDData_Timestamp v <? begin) || (end_ <? RRDData_Timestamp v) then Ok ret
            else Ok (<[GraphLastResp_Endpoint res +:+ GraphLastResp_Counter res := RRDData_Value v]> ret)
        end) ∅ resp in
      Ok (Some m)
  end.

(** The hosts of the group that are not under maintenance: (name, begin, end). *)
Definition HostnamesByID (nowTs : Z) (resp : option (list (string * Z * Z))) : option (list string) :=
  match resp with
  | None => None
  | Some hosts =>
      Some (fold_left (fun hosts '(name, maintainBegin, maintainEnd) =>
        if (maintainBegin <=? nowTs) && (nowTs <=? maintainEnd) then hosts else hosts ++ [name]) hosts [])
  end.

(** * cron/run.go: one run of a worker *)

Record Cluster := mkCluster {
  Cluster_Id : Z;
  Cluster_GroupId : Z;
  Numerator : string;
  Denominator : string;
  Cluster_Endpoint : string;
  Cluster_Metric : string;
  Cluster_Tags : string;
  Cluster_DsType : string;
  Cluster_Step : Z;
  LastUpdate : string }.

(** Numerator, denominator and count so far. *)
Definition host_round (num den : list string * list string * string) (needNum needDen : bool) (valueMap : gmap string f64)
    (acc : f64 * f64 * Z) (hostname : string) : result (f64 * f64 * Z) :=
  let '(numerator, denominator, validCount) := acc in
  let value need p :=
    let '(operands, operators, mode) := p in
    if need : bool then compute operands operators mode hostname valueMap else Ok (Some f64_zero) in
  let! numeratorVal := value needNum num in
  match numeratorVal with
  | None => Ok acc
  | Some numeratorVal =>
      let! denominatorVal := value needDen den in
      match denominatorVal with
      | None => Ok acc
      | Some denominatorVal => Ok (f64_add numerator numeratorVal, f64_add denominator denominatorVal, validCount + 1)
      end
  end.

(** A side that is not computed: the number of hosts, or the number in the text. *)
Definition constant_side (text : string) (validCount : Z) : option f64 :=
  if bool_decide (text = "$#") then Some (f64_of_Z validCount)
  else match strconv_ParseFloat text with
       | (v, None) => Some v
       | (_, Some _) => None
       end.

(** The point pushed, if any. [hosts] is the answer of [HostnamesByID]. *)
Definition WorkerRun (item : Cluster) (hosts : option (list string)) (query : list (string * string) -> option (list (option GraphLastResp)))
    (now : Z) : result (option JsonMetaData) :=
  let numeratorStr := cleanParam (Numerator item) in
  let denominatorStr := cleanParam (Denominator item) in
  if negb (expressionValid numeratorStr) || negb (expressionValid denominatorStr) then Ok None
  else
    let needNum := needCompute numeratorStr in
    let needDen := needCompute denominatorStr in
    if negb needNum && negb needDen then Ok None
    else
      let! num := parse numeratorStr needNum in
      let! den := parse denominatorStr needDen in
      let '(numeratorOperands, numeratorOperators, _) := num in
      let '(denominatorOperands, denominatorOperators, _) := den in
      if negb (operatorsValid numeratorOperators) || negb (operatorsValid denominatorOperators) then Ok None
      else match hosts with
      | None | Some [] => Ok None
      | Some hostnames =>
          let! valueMap := queryCounterLast query numeratorOperands denominatorOperands hostnames (i64 (now - i64 (Cluster_Step item * 2))) now in
          match valueMap with
          | None => Ok None
          | Some valueMap =>
              let! (numerator, denominator, validCount) :=
                rfold (host_round num den needNum needDen valueMap) (f64_zero, f64_zero, 0) hostnames in
              Ok (numerator ← (if needNum then Some numerator else constant_side numeratorStr validCount);
                  denominator ← (if needDen then Some denominator else constant_side denominatorStr validCount);
                  if f64_eq denominator f64_zero then None
                  else if validCount =? 0 then None
                  else Some (MakeMetaData now (Cluster_Endpoint item) (Cluster_Metric item) (Cluster_Tags item)
                    (VFloat64 (f64_div numerator denominator)) (Cluster_DsType item) [Cluster_Step item]))
          end
      end.

(** * db/reader.go, cron/worker.go, cron/updater.go *)

(** The bounds of [Database.Ids]; -1 is no bound. *)
Definition in_ids (lo hi id : Z) : bool :=
  ((lo =? -1) || (lo <=? id)) && ((hi =? -1) || (id <=? hi)).
Definition cluster_key (c : Cluster) : string := strconv_Itoa (Cluster_Id c) +:+ LastUpdate c.
(** [None] is an error of the query; a row that does not scan is [None]. *)
Definition ReadClusterMonitorItems (lo hi : Z) (rows : option (list (option Cluster))) : option (gmap string Cluster) :=
  match rows with
  | None => None
  | Some rows =>
      Some (fold_left (fun M row =>
        match row with
        | Some c => if in_ids lo hi (Cluster_Id c) then <[cluster_key c := c]> M else M
        | None => M
        end) rows ∅)
  end.

(** A worker is known by the channel it quits on. *)
Record Worker := mkWorker { ClusterItem : Cluster; Quit : nat }.
Record WorkersState := mkWorkersState {
  Workers : gmap string Worker;
  (** channels made so far, and those closed *)
  made : nat;
  closed : gset nat;
  (** the workers started, oldest first *)
  started : list Worker }.

Definition Worker_Drop (this : Worker) (st : WorkersState) : result WorkersState :=
  if decide (Quit this ∈ closed st) then Panic CloseOfClosedChannel
  else Ok (mkWorkersState (Workers st) (made st) ({[Quit this]} ∪ closed st) (started st)).
Definition set_Workers (m : gmap string Worker) (st : WorkersState) : WorkersState := mkWorkersState m (made st) (closed st) (started st).
Definition Worker_Start (key : string) (item : Cluster) (st : WorkersState) : WorkersState :=
  let worker := mkWorker item (made st) in
  mkWorkersState (<[key := worker]> (Workers st)) (S (made st)) (closed st) (started st ++ [worker]).

Section Workers.
Context `{MapRange}.

Definition deleteNoUseWorker (m : gmap string Cluster) (st : WorkersState) : result WorkersState :=
  let! (st, del) := rfold (fun '(st, del) '(key, worker) =>
    match m !! key with
    | Some _ => Ok (st, del)
    | None => let! st := Worker_Drop worker st in Ok (st, del ++ [key])
    end) (st, []) (range_pairs (Workers st)) in
  Ok (fold_left (fun st key => set_Workers (delete key (Workers st)) st) del st).

Definition createWorkerIfNeed (m : gmap string Cluster) (st : WorkersState) : WorkersState :=
  fold_left (fun st '(key, item) =>
    match Workers st !! key with
    | Some _ => st
    | None => if Cluster_Step item <=? 0 then st else Worker_Start key item st
    end) (range_pairs m) st.

Definition updateItems (items : option (gmap string Cluster)) (st : WorkersState) : result WorkersState :=
  match items with
  | None => Ok st
  | Some items => let! st := deleteNoUseWorker items st in Ok (createWorkerIfNeed items st)
  end.

End Workers.

(** * The grammar of expressions *)

(** What an expression can be: [$#], a number, a sum of counters, or the comparison
    of a sum with a number. [init] are the counters followed by an operator. *)
Inductive side :=
  | SCount
  | SNum (digits : string)
  | SSum (init : list (string * string)) (last : string)
  | SCmp (paren : bool) (init : list (string * string)) (last cmp num : string).

(** The counters and operators between the opening and the closing parenthesis. *)
Fixpoint print_body (init : list (string * string)) (last close : string) : string :=
  match init with
  | [] => last +:+ close
  | (counter, op) :: init => counter +:+ ")" +:+ op +:+ "$(" +:+ print_body init last close
  end.
Definition print_side (s : side) : string :=
  match s with
  | SCount => "$#"
  | SNum digits => digits
  | SSum init last => "$(" +:+ print_body init last ")"
  | SCmp paren init last cmp num =>
      (if paren then "($(" +:+ print_body init last "))" else "$(" +:+ print_body init last ")") +:+ cmp +:+ num
  end.

Definition counter_ok (c : string) : Prop := c <> "" /\ str_forall (fun c => negb (str_mem c "()")) c = true.
Definition init_ok (init : list (string * string)) : Prop := Forall (fun p => counter_ok (fst p) /\ (snd p = "+" \/ snd p = "-")) init.
Definition digits_ok (t : string) : Prop := t <> "" /\ str_forall is_digit t = true.
Definition num_ok (t : string) : Prop := exists i, digits_ok i /\ (t = i \/ exists f, digits_ok f /\ t = i +:+ "." +:+ f).
Definition cmp_ok (cmp : string) : Prop := cmp ∈ [">"; "="; "<"; ">="; "<="].
Definition side_ok (s : side) : Prop :=
  match s with
  | SCount => True
  | SNum digits => digits_ok digits
  | SSum init last => init_ok init /\ counter_ok last
  | SCmp paren init last cmp num => init_ok init /\ counter_ok last /\ cmp_ok cmp /\ num_ok num /\ (paren = false -> init = [])
  end.
Definition wide (s : string) : bool := strings_Contains s "（" || strings_Contains s "）".

Lemma matches_counter s : matches re_counter s <-> exists c, counter_ok c /\ s = "$(" +:+ c +:+ ")".
Proof.
  split.
  - intros (s1 & s2 & -> & ->%matches_RStr & (c & s3 & -> & Hc%matches_RPlus_set & ->%matches_RStr)%matches_RSeq)%matches_RSeq. by exists c.
  - intros (c & Hc & ->). constructor; [by apply matches_RStr|]. constructor; [by apply matches_RPlus_set | by apply matches_RStr].
Qed.

Lemma str_mem_pm c : str_mem c "+-" = true <-> String c "" = "+" \/ String c "" = "-".
Proof. cbn [str_mem]. rewrite !orb_true_iff, !Ascii.eqb_eq. naive_solver. Qed.

Lemma print_body_app init last close t : print_body init last close +:+ t = print_body init last (close +:+ t).
Proof. induction init as [|[c op] init IH]; cbn [print_body]; rewrite !str_app_assoc; [done|]. by rewrite IH. Qed.

Lemma matches_sum s : matches re_sum s <-> exists init last, init_ok init /\ counter_ok last /\ s = "$(" +:+ print_body init last ")".
Proof.
  unfold re_sum. rewrite matches_RSeq. setoid_rewrite matches_RStar. split.
  - intros (s1 & s2 & -> & (l & -> & Hl) & (last & Hlast & ->)%matches_counter).
    induction Hl as [|t l Ht Hl (init & last' & Hinit & Hlast' & E)]; [exists [], last; split; [constructor | done]|]. cbn [foldr].
    apply matches_RSeq in Ht as (u & v & -> & (c & Hc & ->)%matches_counter & (d & -> & Hd%str_mem_pm)%matches_RSet).
    exists ((c, String d "") :: init), last'. split; [by constructor|]. split; [done|]. cbn [print_body].
    rewrite !str_app_assoc, E. done.
  - intros (init & last & Hinit & Hlast & ->).
    induction Hinit as [|[c op] init [Hc Hop] Hinit (s1 & s2 & E & (l & -> & Hl) & H2)]; cbn [print_body fst snd] in *.
    + exists "", ("$(" +:+ last +:+ ")"). split; [done|]. split; [by exists []|]. apply matches_counter. eauto.
    + exists (("$(" +:+ c +:+ ")" +:+ op) +:+ foldr (fun a b => a +:+ b) "" l), s2. split; [rewrite E, !str_app_assoc; done|]. split; [|done].
      exists (("$(" +:+ c +:+ ")" +:+ op) :: l). split; [done|]. constructor; [|done]. apply matches_RSeq.
      exists ("$(" +:+ c +:+ ")"), op. split; [by rewrite !str_app_assoc|]. split; [apply matches_counter; eauto|].
      apply matches_RSet. destruct Hop as [-> | ->]; eexists; split; done.
Qed.

Lemma matches_digits s : matches re_digits s <-> digits_ok s.
Proof. apply matches_RPlus_set. Qed.

Lemma matches_compare s : matches re_compare s <-> exists cmp num, cmp_ok cmp /\ num_ok num /\ s = cmp +:+ num.
Proof.
  unfold re_compare. rewrite matches_RSeq.
  assert (forall s1, matches (RAlt (RStr ">") (RAlt (RStr "=") (RAlt (RStr "<") (RAlt (RStr ">=") (RStr "<="))))) s1 <-> cmp_ok s1) as Hcmp.
  { intros s1. rewrite !matches_RAlt, !matches_RStr. unfold cmp_ok. rewrite !elem_of_cons, elem_of_nil. tauto. }
  assert (forall s2, matches (RSeq re_digits (ROpt (RSeq (RStr ".") re_digits))) s2 <-> num_ok s2) as Hnum.
  { intros s2. rewrite matches_RSeq. split.
    - intros (i & r & -> & Hi%matches_digits & [->%matches_REps|(p & f & -> & ->%matches_RStr & Hf%matches_digits)%matches_RSeq]%matches_RAlt);
        exists i; (split; [done|]); [left; by rewrite str_app_nil_r | right; eauto].
    - intros (i & Hi%matches_digits & [->|(f & Hf%matches_digits & ->)]).
      + exists i, "". split; [by rewrite str_app_nil_r|]. split; [done|]. apply matches_RAlt. left. constructor.
      + exists i, ("." +:+ f). split; [done|]. split; [done|]. apply matches_RAlt. right. apply matches_RSeq. exists ".", f.
        split; [done|]. split; [by apply matches_RStr | done]. }
  split.
  - intros (s1 & s2 & -> & H1%Hcmp & H2%Hnum). eauto.
  - intros (cmp & num & H1%Hcmp & H2%Hnum & ->). eauto.
Qed.

(** [expressionValid] accepts exactly the texts of the grammar without a wide parenthesis. *)
Lemma expressionValid_grammar val :
  expressionValid val = true <-> wide val = false /\ exists s, side_ok s /\ val = print_side s.
Proof.
  unfold expressionValid. fold (wide val). destruct (wide val); [naive_solver|].
  assert (forall b1 b2 b3 b4 b5 : bool, (if b1 then true else if b2 then true else if b3 then true else if b4 then true else if b5 then true else false) = true
    <-> b1 = true \/ b2 = true \/ b3 = true \/ b4 = true \/ b5 = true) as Hif by (intros [] [] [] [] []; naive_solver).
  rewrite Hif, bool_decide_eq_true, !regexp_Match_spec. unfold matchMode0, matchMode1, matchMode2, matchMode3.
  rewrite matches_sum, matches_digits. split.
  - intros [->|[(init & last & Hi & Hl & ->)|[(s1 & s2 & -> & (c & Hc & ->)%matches_counter & (cmp & num & Hcmp & Hnum & ->)%matches_compare)%matches_RSeq|[(s1 & s2 & -> & ->%matches_RStr & (s3 & s4 & -> & (init & last & Hi & Hl & ->)%matches_sum & (s5 & s6 & -> & ->%matches_RStr & (cmp & num & Hcmp & Hnum & ->)%matches_compare)%matches_RSeq)%matches_RSeq)%matches_RSeq|Hd]]]];
      (split; [done|]).
    + by exists SCount.
    + by exists (SSum init last).
    + exists (SCmp false [] c cmp num). split; [split; [constructor | done]|]. cbn [print_side print_body]. by rewrite !str_app_assoc.
    + exists (SCmp true init last cmp num). split; [by split_and!|]. cbn [print_side].
      change "))" with (")" +:+ ")"). rewrite <- print_body_app. change "($(" with ("(" +:+ "$("). by rewrite !str_app_assoc.
    + by exists (SNum val).
  - intros [_ (s & Hs & ->)]. destruct s as [|digits|init last|[] init last cmp num]; cbn [side_ok print_side] in *.
    + by left.
    + tauto.
    + right; left. naive_solver.
    + destruct Hs as (Hi & Hl & Hcmp & Hnum & _). do 3 right. left.
      replace (("($(" +:+ print_body init last "))") +:+ cmp +:+ num) with ("(" +:+ ("$(" +:+ print_body init last ")") +:+ ")" +:+ cmp +:+ num)
        by (change "))" with (")" +:+ ")"); rewrite <- print_body_app; change "($(" with ("(" +:+ "$("); by rewrite !str_app_assoc).
      constructor; [by apply matches_RStr|]. constructor; [apply matches_sum; eauto|]. constructor; [by apply matches_RStr|].
      apply matches_compare. eauto.
    + destruct Hs as (Hi & Hl & Hcmp & Hnum & E). rewrite E by done. do 2 right. left.
      constructor; [apply matches_counter; eauto | apply matches_compare; eauto].
Qed.

(** * Parsing what was printed *)

Definition is_sep (c : ascii) : bool := str_mem c "$()".
(** A counter that the splitting leaves whole. *)
Definition counter_plain (c : string) : Prop := c <> "" /\ str_forall (fun c => negb (is_sep c)) c = true.
Definition init_plain (init : list (string * string)) : Prop := Forall (fun p => counter_plain (fst p) /\ (snd p = "+" \/ snd p = "-")) init.
Definition starts_plain (s : string) : Prop := forall c t, s = String c t -> is_sep c = false.

Lemma starts_plain_free s : str_forall (fun c => negb (is_sep c)) s = true -> starts_plain s.
Proof. intros Hs c t ->. cbn [str_forall] in Hs. apply andb_true_iff in Hs as [Hc _]. by destruct (is_sep c). Qed.
Lemma starts_plain_app s t : s <> "" -> starts_plain s -> starts_plain (s +:+ t).
Proof. intros Hne Hs c u E. destruct s as [|d s]; [done|]. rewrite str_app_cons in E. injection E as -> _. by eapply Hs. Qed.

Fixpoint interleave (init : list (string * string)) (last : string) : list string :=
  match init with
  | [] => [last]
  | (c, op) :: init => c :: op :: interleave init last
  end.

Lemma split_printed item open init last close mode :
  str_forall (fun c => negb (is_sep c)) item = true -> open <> "" -> str_forall is_sep open = true ->
  init_plain init -> counter_plain last -> close <> "" -> str_forall is_sep close = true -> str_forall (fun c => negb (is_sep c)) mode = true ->
  split_runs is_sep (item +:+ open +:+ print_body init last close +:+ mode) = item :: interleave init last ++ [mode].
Proof.
  intros Hitem Hopen Hopen' Hinit Hlast Hclose Hclose' Hmode. revert item open Hitem Hopen Hopen'.
  induction Hinit as [|[c op] init [[Hc Hc'] Hop] Hinit IH]; intros item open Hitem Hopen Hopen'; cbn [print_body interleave app fst snd] in *.
  - destruct Hlast as [Hl Hl']. rewrite split_runs_item; [|done|done|done|].
    + f_equal. rewrite str_app_assoc, split_runs_item; [|done|done|done|by apply starts_plain_free]. by rewrite split_runs_free.
    + rewrite str_app_assoc. apply starts_plain_app; [done | by apply starts_plain_free].
  - assert (op <> "" /\ str_forall (fun c => negb (is_sep c)) op = true) as [Hop1 Hop2] by (by destruct Hop as [-> | ->]).
    rewrite !str_app_assoc. rewrite split_runs_item; [|done|done|done|].
    + f_equal. rewrite split_runs_item; [|done|done|done|by apply starts_plain_app, starts_plain_free].
      f_equal. by apply (IH op "$(").
    + apply starts_plain_app; [done | by apply starts_plain_free].
Qed.

Lemma interleave_split init last i operands operators :
  i mod 2 = 0 -> operands_operators i (interleave init last) operands operators
    = (operands ++ map fst init ++ [last], operators ++ map snd init).
Proof.
  revert i operands operators. induction init as [|[c op] init IH]; intros i operands operators Hi; cbn [interleave operands_operators map fst snd].
  - rewrite Hi. simpl. by rewrite app_nil_r.
  - rewrite Hi. cbn [Z.eqb]. replace ((i + 1) mod 2 =? 0) with false by (symmetry; apply Z.eqb_neq; pose proof (Z.div_mod i 2); pose proof (Z.mod_unique (i + 1) 2 (i / 2) 1); lia).
    rewrite IH; [by rewrite <- !app_assoc|]. rewrite <- Zplus_assoc, Zplus_mod, Hi. done.
Qed.

Lemma parse_items expression item items mode :
  split_runs is_sep expression = item :: items ++ [mode] ->
  parse expression true = Ok (operands_operators 0 items [] [], mode).
Proof.
  intros E. unfold parse. cbn [negb]. fold is_sep. rewrite E. cbn [length]. rewrite length_app. cbn [length].
  destruct (Z.ltb_spec (Z.of_nat (S (length items + 1)) - 1) 1); [lia|].
  replace (S (length items + 1) - 2)%nat with (length items) by lia. cbn [drop]. rewrite drop_0, take_app_length.
  destruct (operands_operators 0 items [] []) as [operands operators].
  replace (Z.of_nat (S (length items + 1)) - 1) with (Z.of_nat (S (length items))) by lia.
  rewrite (index_nat _ _ mode); [done|]. change (item :: items ++ [mode]) with ([item] ++ items ++ [mode]).
  rewrite app_assoc. apply lookup_snoc_Some. right. rewrite length_app. cbn [length]. split; [lia | done].
Qed.

Definition computed (s : side) : bool := match s with SCount | SNum _ => false | SSum _ _ | SCmp _ _ _ _ _ => true end.
Definition side_operands (s : side) : list string :=
  match s with SCount | SNum _ => [] | SSum init last | SCmp _ init last _ _ => map fst init ++ [last] end.
Definition side_operators (s : side) : list string :=
  match s with SCount | SNum _ => [] | SSum init _ | SCmp _ init _ _ _ => map snd init end.
Definition side_mode (s : side) : string := match s with SCmp _ _ _ cmp num => cmp +:+ num | _ => "" end.
Definition side_plain (s : side) : Prop := side_ok s /\ Forall counter_plain (side_operands s).

Lemma digits_free t : str_forall is_digit t = true -> str_forall (fun c => negb (is_sep c)) t = true.
Proof.
  apply str_forall_mono. intros c. unfold is_digit, is_sep. cbn [str_mem]. intros Hd.
  destruct (Ascii.eqb_spec c "$"), (Ascii.eqb_spec c "("), (Ascii.eqb_spec c ")"); subst; done.
Qed.
Lemma mode_free cmp num : cmp_ok cmp -> num_ok num -> str_forall (fun c => negb (is_sep c)) (cmp +:+ num) = true.
Proof.
  intros Hc (i & [_ Hi] & Hn). rewrite str_forall_app.
  assert (str_forall (fun c => negb (is_sep c)) cmp = true) as ->.
  { unfold cmp_ok in Hc. rewrite !elem_of_cons, elem_of_nil in Hc. by destruct Hc as [->|[->|[->|[->|[->|[]]]]]]. }
  destruct Hn as [->|(f & [_ Hf] & ->)]; [by apply digits_free|]. by rewrite !str_forall_app, (digits_free i), (digits_free f).
Qed.

Lemma strings_Contains_app s t u : strings_Contains u t = true -> strings_Contains (s +:+ u) t = true.
Proof. intros Hu. induction s as [|c s IH]; [done|]. rewrite str_app_cons. cbn [strings_Contains]. by rewrite IH, orb_true_r. Qed.
Lemma HasPrefix_app p s : strings_HasPrefix (p +:+ s) p = true.
Proof. apply strings_HasPrefix_spec. eauto. Qed.
Lemma digits_needCompute t : str_forall is_digit t = true -> needCompute t = false.
Proof.
  unfold needCompute. induction t as [|c t IH]; cbn [str_forall]; [done|]. intros [Hc Ht]%andb_true_iff. cbn [strings_Contains strings_HasPrefix].
  rewrite IH by done. rewrite orb_false_r. destruct (Ascii.eqb_spec "$" c) as [<-|]; [by vm_compute in Hc | done].
Qed.

Lemma needCompute_side s : side_ok s -> needCompute (print_side s) = computed s.
Proof.
  assert (forall t, needCompute ("$(" +:+ t) = true) as Hpre.
  { intros t. unfold needCompute. change ("$(" +:+ t) with (String "$" ("(" +:+ t)). cbn [strings_Contains].
    assert (strings_HasPrefix (String "$" ("(" +:+ t)) "$(" = true) as -> by apply (HasPrefix_app "$(" t). done. }
  destruct s as [|digits|init last|[] init last cmp num]; cbn [side_ok print_side computed].
  - done.
  - intros [_ Hd]. by apply digits_needCompute.
  - intros _. apply Hpre.
  - intros _. rewrite str_app_assoc. apply (strings_Contains_app "(" "$(" ("$(" +:+ print_body init last "))" +:+ cmp +:+ num)). exact (Hpre (print_body init last "))" +:+ cmp +:+ num)).
  - intros _. rewrite str_app_assoc. apply Hpre.
Qed.

Lemma side_plain_parts init last : init_ok init -> Forall counter_plain (map fst init ++ [last]) -> init_plain init /\ counter_plain last.
Proof.
  intros Hi [Hf Hl]%Forall_app. apply list.Forall_cons_1 in Hl as [Hl _]. split; [|done]. unfold init_plain, init_ok in *.
  rewrite list.Forall_forall in *. intros p Hp. split; [|by apply Hi]. eapply list.Forall_forall; [exact Hf|]. apply list_elem_of_fmap. by exists p.
Qed.

(** Operands, operators and mode of a side are read back. *)
Lemma parse_side s : side_plain s -> parse (print_side s) (computed s) = Ok (side_operands s, side_operators s, side_mode s).
Proof.
  intros [Hok Hpl]. destruct s as [|digits|init last|paren init last cmp num]; cbn [computed side_operands side_operators side_mode side_ok print_side] in *; [done|done| |].
  - destruct Hok as [Hi Hl]. destruct (side_plain_parts _ _ Hi Hpl) as [Hi' Hl'].
    rewrite (parse_items _ "" (interleave init last) ""); [by rewrite interleave_split|].
    rewrite <- (split_printed "" "$(" init last ")" ""); [by rewrite str_app_nil_l, str_app_nil_r | done..].
  - destruct Hok as (Hi & Hl & Hcmp & Hnum & _). destruct (side_plain_parts _ _ Hi Hpl) as [Hi' Hl']. pose proof (mode_free _ _ Hcmp Hnum) as Hm.
    rewrite (parse_items _ "" (interleave init last) (cmp +:+ num)); [by rewrite interleave_split|]. destruct paren.
    + rewrite <- (split_printed "" "($(" init last "))" (cmp +:+ num)); [by rewrite str_app_nil_l, str_app_assoc | done..].
    + rewrite <- (split_printed "" "$(" init last ")" (cmp +:+ num)); [by rewrite str_app_nil_l, str_app_assoc | done..].
Qed.

(** * What a side means for a host *)

Definition cmp_holds (cmp : string) (x y : f64) : bool :=
  if bool_decide (cmp = ">") then f64_gt x y else if bool_decide (cmp = "<") then f64_lt x y
  else if bool_decide (cmp = "=") then f64_eq x y else if bool_decide (cmp = ">=") then f64_ge x y else f64_le x y.
Definition signed_sum (v0 : f64) (rest : list (string * f64)) : f64 :=
  fold_left (fun sum '(op, v) => if bool_decide (op = "+") then f64_add sum v else f64_sub sum v) rest v0.
(** [val] gives the last value of a counter: all of them are needed. *)
Definition sum_value (val : string -> option f64) (operands operators : list string) : option f64 :=
  vals ← mapM val operands;
  match vals with
  | [] => None
  | v0 :: vals => Some (signed_sum v0 (zip operators vals))
  end.
Definition side_value (val : string -> option f64) (s : side) : option f64 :=
  match s with
  | SCount | SNum _ => Some f64_zero
  | SSum _ _ => sum_value val (side_operands s) (side_operators s)
  | SCmp _ _ _ cmp num =>
      sum ← sum_value val (side_operands s) (side_operators s);
      Some (if cmp_holds cmp sum (fst (strconv_ParseFloat num)) then f64_of_Z 1 else f64_zero)
  end.

Lemma queryOperands_omap counters endpoint valMap :
  queryOperands counters endpoint valMap = omap (fun c => valMap !! (endpoint +:+ c)) counters.
Proof.
  unfold queryOperands.
  assert (forall acc, fold_left (fun ret counter => match valMap !! (endpoint +:+ counter) with Some v => ret ++ [v] | None => ret end) counters acc
    = acc ++ omap (fun c => valMap !! (endpoint +:+ c)) counters) as Hgen; [|apply (Hgen [])].
  induction counters as [|c cs IH]; intros acc; csimpl; [by rewrite app_nil_r|]. rewrite IH. destruct (valMap !! _); [by rewrite <- app_assoc | done].
Qed.

Lemma omap_mapM {A B : Type} (f : A -> option B) l :
  if (length (omap f l) =? length l)%nat then mapM f l = Some (omap f l) else mapM f l = None.
Proof.
  assert (forall l, length (omap f l) <= length l)%nat as Hle.
  { clear. intros l. induction l as [|a l IH]; csimpl; [done|]. destruct (f a); csimpl; lia. }
  destruct (mapM f l) as [k|] eqn:Em.
  - apply mapM_Some in Em. assert (omap f l = k) as ->.
    { induction Em as [|a b l k Hab _ IH]; csimpl; [done|]. by rewrite Hab, IH. }
    by rewrite (list.Forall2_length _ _ _ Em), Nat.eqb_refl.
  - apply mapM_None in Em. destruct (Nat.eqb_spec (length (omap f l)) (length l)) as [E|]; [|done].
    exfalso. induction Em as [a l Ha|a l Hl IH]; csimpl in E.
    + rewrite Ha in E. specialize (Hle l). lia.
    + destruct (f a); csimpl in E; [apply IH; lia | specialize (Hle l); lia].
Qed.

Lemma signed_loop_spec operators i vals sum :
  (length vals + i <= length operators)%nat ->
  sum_loop operators (Z.of_nat i) vals sum = Ok (signed_sum sum (zip (drop i operators) vals)).
Proof.
  revert i sum. induction vals as [|v vals IH]; intros i sum Hle; cbn [sum_loop length] in *; [by destruct (drop i operators)|].
  destruct (lookup_lt_is_Some_2 operators i) as [op Hop]; [lia|]. rewrite (index_nat _ _ op Hop). cbn [rbind].
  replace (Z.of_nat i + 1) with (Z.of_nat (S i)) by lia. rewrite IH by lia. by rewrite (drop_S _ _ _ Hop).
Qed.

Lemma str_span_app f a b : str_forall f a = true -> (forall c t, b = String c t -> f c = false) -> str_span f (a +:+ b) = (a, b).
Proof.
  intros Ha Hb. induction a as [|c a IH].
  - rewrite str_app_nil_l. destruct b as [|c b]; [done|]. cbn [str_span]. by rewrite (Hb c b).
  - cbn [str_forall] in Ha. apply andb_true_iff in Ha as [Hc Ha]. rewrite str_app_cons. cbn [str_span]. by rewrite Hc, IH.
Qed.

Lemma num_ok_parts num : num_ok num -> num <> "" /\ str_forall (fun c => is_digit c || Ascii.eqb c ".") num = true /\
  forall c t, num = String c t -> str_mem c "><=" = false.
Proof.
  assert (forall i, str_forall is_digit i = true -> str_forall (fun c => is_digit c || Ascii.eqb c ".") i = true) as Hdig.
  { intros i. apply str_forall_mono. intros c. intros ->. done. }
  assert (forall i rest, digits_ok i -> i +:+ rest <> "" /\ forall c t, i +:+ rest = String c t -> str_mem c "><=" = false) as Hhead.
  { intros [|d i] rest [Hne Hd]; [done|]. rewrite str_app_cons. split; [done|]. intros c t [= <- _].
    cbn [str_forall] in Hd. apply andb_true_iff in Hd as [Hd _]. cbn [str_mem].
    destruct (Ascii.eqb_spec d ">"), (Ascii.eqb_spec d "<"), (Ascii.eqb_spec d "="); subst; done. }
  intros (i & Hi & [->|(f & Hf & ->)]).
  - destruct (Hhead i "" Hi) as [H1 H2]. rewrite str_app_nil_r in *. split; [done|]. split; [by apply Hdig, Hi | done].
  - destruct (Hhead i ("." +:+ f) Hi) as [H1 H2]. split; [done|]. split; [|done]. rewrite !str_forall_app, (Hdig i), (Hdig f); [done | apply Hf | apply Hi].
Qed.

Lemma compareSum_spec sum cmp num :
  cmp_ok cmp -> num_ok num -> compareSum sum (cmp +:+ num) = Ok (cmp_holds cmp sum (fst (strconv_ParseFloat num))).
Proof.
  intros Hc Hn. destruct (num_ok_parts num Hn) as (Hne & Hall & Hhead). unfold compareSum.
  assert (find_mode (cmp +:+ num) = Some (cmp, num)) as ->.
  { assert (cmp <> "" /\ str_forall (fun c => str_mem c "><=") cmp = true) as [Hne' Hcmp].
    { unfold cmp_ok in Hc. rewrite !elem_of_cons, elem_of_nil in Hc. by destruct Hc as [->|[->|[->|[->|[->|[]]]]]]. }
    pose proof (str_span_app _ _ _ Hcmp Hhead) as E. destruct cmp as [|c cmp]; [done|]. rewrite str_app_cons in *. cbn [find_mode].
    rewrite E. rewrite <- (str_app_nil_r num) at 1. rewrite str_span_app by done. rewrite !bool_decide_eq_false_2 by done. done. }
  unfold cmp_ok in Hc. rewrite !elem_of_cons, elem_of_nil in Hc. unfold cmp_holds.
  destruct Hc as [->|[->|[->|[->|[->|[]]]]]]; cbn; by rewrite ?orb_false_r.
Qed.

Lemma side_operators_length s : computed s = true -> length (side_operands s) = S (length (side_operators s)).
Proof. destruct s; try done; intros _; cbn [side_operands side_operators]; rewrite length_app, !length_map; simpl; lia. Qed.

Lemma sum_value_compute operands operators mode hostname valMap :
  length operands = S (length operators) ->
  compute operands operators mode hostname valMap =
    match sum_value (fun c => valMap !! (hostname +:+ c)) operands operators with
    | None => Ok None
    | Some sum => if negb (bool_decide (mode = "")) then let! b := compareSum sum mode in Ok (Some (if b : bool then f64_of_Z 1 else f64_zero))
                  else Ok (Some sum)
    end.
Proof.
  intros Hlen. unfold compute, sum_value. rewrite queryOperands_omap. set (val := fun c => valMap !! (hostname +:+ c)).
  destruct (Nat.eqb_spec (length operands) 0); [lia|]. pose proof (omap_mapM val operands) as Hm.
  destruct (Nat.eqb_spec (length (omap val operands)) (length operands)) as [E|E]; cbn [negb]; rewrite Hm; cbn [mbind option_bind]; [|done].
  destruct (omap val operands) as [|v0 vals]; [simpl in E; lia|].
  assert (index (v0 :: vals) 0 = Ok v0) as -> by done. change (drop 1 (v0 :: vals)) with (drop 0 vals). rewrite drop_0. cbn [rbind].
  pose proof (signed_loop_spec operators 0 vals v0) as Hs. change (Z.of_nat 0) with 0 in Hs. rewrite Hs by (simpl in E; lia). rewrite drop_0. done.
Qed.

(** [compute] of what [parse] read is the meaning of the side. *)
Lemma compute_side s hostname valMap :
  side_ok s -> computed s = true ->
  compute (side_operands s) (side_operators s) (side_mode s) hostname valMap = Ok (side_value (fun c => valMap !! (hostname +:+ c)) s).
Proof.
  intros Hok Hc. rewrite sum_value_compute by (by apply side_operators_length).
  destruct s as [|digits|init last|paren init last cmp num]; try done; cbn [side_mode side_value]; destruct (sum_value _ _ _) as [sum|]; try done.
  destruct Hok as (_ & _ & Hcmp & Hnum & _). rewrite bool_decide_eq_false_2.
  - cbn [negb]. rewrite compareSum_spec by done. done.
  - intros E%str_app_eq_nil. destruct E as [_ ->]. by destruct (num_ok_parts "" Hnum).
Qed.

(** * What a run pushes *)

(** The last answer for a counter of a host whose time is within the bounds. *)
Definition last_value (begin end_ : Z) (resp : list GraphLastResp) (host counter : string) : option f64 :=
  list.last (omap (fun res =>
    if bool_decide (GraphLastResp_Endpoint res = host) && bool_decide (GraphLastResp_Counter res = counter)
       && (begin <=? RRDData_Timestamp (GraphLastResp_Value res)) && (RRDData_Timestamp (GraphLastResp_Value res) <=? end_)
    then Some (RRDData_Value (GraphLastResp_Value res)) else None) resp).

(** No answer is for another counter with the same text of host and counter. *)
Definition unambiguous (resp : list GraphLastResp) (hosts counters : list string) : Prop :=
  forall res host counter, res ∈ resp -> host ∈ hosts -> counter ∈ counters ->
    GraphLastResp_Endpoint res +:+ GraphLastResp_Counter res = host +:+ counter ->
    GraphLastResp_Endpoint res = host /\ GraphLastResp_Counter res = counter.

Lemma queryCounterLast_spec query no do_ hosts begin end_ resp :
  query (last_params hosts (no ++ do_)) = Some (map Some resp) -> unambiguous resp hosts (no ++ do_) ->
  exists m, queryCounterLast query no do_ hosts begin end_ = Ok (Some m) /\
    forall host counter, host ∈ hosts -> counter ∈ no ++ do_ -> m !! (host +:+ counter) = last_value begin end_ resp host counter.
Proof.
  intros Hq Hun. unfold queryCounterLast. rewrite Hq, rfold_map. clear Hq.
  match goal with |- context [rfold ?g ∅ resp] => set (f := g) end.
  assert (exists m, rfold f ∅ resp = Ok m /\
    forall host counter, host ∈ hosts -> counter ∈ no ++ do_ -> m !! (host +:+ counter) = last_value begin end_ resp host counter) as (m & -> & Hm).
  2:{ exists m. split; [done|]. done. }
  induction resp as [|res resp IH] using rev_ind.
  { exists ∅. split; [done|]. intros host counter _ _. by rewrite lookup_empty. }
  destruct IH as (m & E & Hm). { intros r h c Hr. apply Hun. rewrite elem_of_app. by left. }
  rewrite rfold_app, E. cbn [rbind rfold]. unfold f at 1.
  assert (res ∈ resp ++ [res]) as Hin by (rewrite elem_of_app; right; left).
  destruct (Z.ltb_spec (RRDData_Timestamp (GraphLastResp_Value res)) begin) as [Hb|Hb];
    [|destruct (Z.ltb_spec end_ (RRDData_Timestamp (GraphLastResp_Value res))) as [He|He]]; cbn [orb rbind]; eexists; (split; [done|]);
    intros host counter Hh Hc; unfold last_value; rewrite omap_app, last_app; csimpl.
  - rewrite (proj2 (Z.leb_gt begin _)), andb_false_r by done. simpl. by apply Hm.
  - rewrite (proj2 (Z.leb_gt _ end_)), andb_false_r by done. simpl. by apply Hm.
  - rewrite (proj2 (Z.leb_le begin _)), (proj2 (Z.leb_le _ end_)), !andb_true_r by done.
    destruct (decide (GraphLastResp_Endpoint res +:+ GraphLastResp_Counter res = host +:+ counter)) as [Ek|Ek].
    + destruct (Hun res host counter Hin Hh Hc Ek) as [-> ->]. rewrite !bool_decide_eq_true_2 by done. by rewrite lookup_insert_eq.
    + rewrite lookup_insert_ne by done. rewrite Hm by done.
      destruct (bool_decide_reflect (GraphLastResp_Endpoint res = host)) as [Eh|Eh]; [|done].
      rewrite bool_decide_eq_false_2; [done|]. intros Ec. apply Ek. by rewrite Eh, Ec.
Qed.

(** The point of the group: over the hosts where both sides have a value. *)
Definition host_values (val : string -> string -> option f64) (sn sd : side) (hosts : list string) : list (f64 * f64) :=
  omap (fun h => n ← side_value (val h) sn; d ← side_value (val h) sd; Some (n, d)) hosts.
Definition side_total (s : side) (count : Z) (vals : list f64) : option f64 :=
  match s with
  | SCount => Some (f64_of_Z count)
  | SNum digits => match strconv_ParseFloat digits with (v, None) => Some v | (_, Some _) => None end
  | SSum _ _ | SCmp _ _ _ _ _ => Some (f64_sum vals)
  end.
Definition aggregate (item : Cluster) (now : Z) (sn sd : side) (vals : list (f64 * f64)) : option JsonMetaData :=
  n ← side_total sn (Z.of_nat (length vals)) (map fst vals);
  d ← side_total sd (Z.of_nat (length vals)) (map snd vals);
  if f64_eq d f64_zero || (length vals =? 0)%nat then None
  else Some (mkJsonMetaData (Cluster_Metric item) (Cluster_Endpoint item) now (Cluster_Step item) (VFloat64 (f64_div n d))
    (Cluster_DsType item) (Cluster_Tags item)).

Lemma side_value_ext s f g : (forall c, c ∈ side_operands s -> f c = g c) -> side_value f s = side_value g s.
Proof.
  intros Hfg. assert (mapM f (side_operands s) = mapM g (side_operands s)) as E.
  { apply Forall_mapM_ext, list.Forall_forall. exact Hfg. }
  destruct s; cbn [side_value]; unfold sum_value; by rewrite ?E.
Qed.

Lemma host_rounds sn sd m hosts acc :
  side_ok sn -> side_ok sd ->
  rfold (host_round (side_operands sn, side_operators sn, side_mode sn) (side_operands sd, side_operators sd, side_mode sd) (computed sn) (computed sd) m) acc hosts
  = Ok (fold_left (fun '(n, d, c) '(x, y) => (f64_add n x, f64_add d y, c + 1)) (host_values (fun h c => m !! (h +:+ c)) sn sd hosts) acc).
Proof.
  intros Hn Hd. revert acc. induction hosts as [|h hosts IH]; intros [[n d] c]; [done|]. cbn [rfold]. unfold host_round at 1.
  assert (forall s, side_ok s -> (if computed s then compute (side_operands s) (side_operators s) (side_mode s) h m else Ok (Some f64_zero))
    = Ok (side_value (fun c => m !! (h +:+ c)) s)) as Hs.
  { intros s Hs. destruct (computed s) eqn:Ec; [by apply compute_side|]. by destruct s. }
  rewrite (Hs sn Hn). unfold host_values. csimpl. destruct (side_value _ sn) as [x|]; csimpl; [|apply IH].
  rewrite (Hs sd Hd). cbn [rbind]. destruct (side_value _ sd) as [y|]; csimpl; apply IH.
Qed.

Lemma fold_totals vals n d c :
  fold_left (fun '(n, d, c) '(x, y) => (f64_add n x, f64_add d y, c + 1)) vals (n, d, c)
  = (f64_sum_from n (map fst vals), f64_sum_from d (map snd vals), c + Z.of_nat (length vals)).
Proof.
  revert n d c. induction vals as [|[x y] vals IH]; intros n d c; cbn [fold_left map fst snd length]; [by rewrite Z.add_0_r|].
  rewrite IH. f_equal; lia.
Qed.

Lemma side_total_spec s vals count : side_ok s ->
  (if computed s then Some (f64_sum_from f64_zero vals) else constant_side (print_side s) count) = side_total s count vals.
Proof.
  destruct s as [|digits| |]; cbn [computed print_side side_ok]; try done. intros [_ Hd]. unfold constant_side. rewrite bool_decide_eq_false_2; [done|].
  intros ->. by vm_compute in Hd.
Qed.

Lemma side_operators_valid s : side_ok s -> operatorsValid (side_operators s) = true.
Proof.
  assert (forall init, init_ok init -> operatorsValid (map snd init) = true) as Hi.
  { intros init Hi. unfold operatorsValid. induction Hi as [|[c op] init [_ Hop] Hi IH]; [done|]. cbn [map forallb fst snd] in *. rewrite IH.
    by destruct Hop as [-> | ->]. }
  destruct s; cbn [side_ok side_operators]; try done; intros Hs; apply Hi; tauto.
Qed.

Lemma hosts_nonempty {A : Type} (hosts : list string) (x y : A) : hosts <> [] -> match hosts with [] => x | _ => y end = y.
Proof. by destruct hosts. Qed.

(** C23. A run of a worker pushes the point of its group: with numerator and
    denominator printed from the grammar, and counters whose text is not ambiguous
    after that of a host, the value is the quotient of the two sides summed over the
    hosts that have a recent value for every counter of both; [$#] is the number of
    those hosts. Nothing is pushed when there is no such host, the denominator is
    zero, or a number does not fit a float. *)
Theorem WorkerRun_correct item hosts query now sn sd resp :
  cleanParam (Numerator item) = print_side sn -> cleanParam (Denominator item) = print_side sd ->
  wide (print_side sn) = false -> wide (print_side sd) = false -> side_plain sn -> side_plain sd ->
  computed sn || computed sd = true -> hosts <> [] ->
  query (last_params hosts (side_operands sn ++ side_operands sd)) = Some (map Some resp) ->
  unambiguous resp hosts (side_operands sn ++ side_operands sd) ->
  let begin := i64 (now - i64 (Cluster_Step item * 2)) in
  WorkerRun item (Some hosts) query now = Ok (aggregate item now sn sd (host_values (last_value begin now resp) sn sd hosts)).
Proof.
  intros En Ed Hwn Hwd Hn Hd Hc Hne Hq Hun begin. destruct (Hn) as [Hno _], (Hd) as [Hdo _].
  unfold WorkerRun. rewrite En, Ed.
  rewrite (proj2 (expressionValid_grammar (print_side sn))), (proj2 (expressionValid_grammar (print_side sd))) by eauto. cbn [negb orb].
  rewrite !needCompute_side by done. replace (negb (computed sn) && negb (computed sd)) with false by (by destruct (computed sn), (computed sd)).
  rewrite !parse_side by done. cbn [rbind]. rewrite !side_operators_valid by done. cbn [negb orb].
  destruct (queryCounterLast_spec query (side_operands sn) (side_operands sd) hosts begin now resp Hq Hun) as (m & Em & Hm).
  fold begin. destruct hosts as [|h0 hs]; [done|]. set (hosts := h0 :: hs) in *. rewrite Em. cbn [rbind].
  rewrite host_rounds by done. cbn [rbind]. rewrite fold_totals. rewrite !side_total_spec by done.
  assert (host_values (fun h c => m !! (h +:+ c)) sn sd hosts = host_values (last_value begin now resp) sn sd hosts) as ->.
  { unfold host_values. apply list_omap_ext, Forall2_same_length_lookup. split; [done|]. intros i x y Hx Hy.
    rewrite Hx in Hy. injection Hy as <-. assert (x ∈ hosts) as Hin by (by eapply list_elem_of_lookup_2).
    rewrite (side_value_ext sn (fun c => m !! (x +:+ c)) (last_value begin now resp x)), (side_value_ext sd (fun c => m !! (x +:+ c)) (last_value begin now resp x)); [done| |];
      intros c Hcin; apply Hm; try done; rewrite elem_of_app; auto. }
  set (vals := host_values _ sn sd hosts). unfold aggregate. change (0 + Z.of_nat (length vals)) with (Z.of_nat (length vals)).
  destruct (side_total sn _ _) as [n|]; [|done]. cbn [mbind option_bind]. destruct (side_total sd _ _) as [d|]; [|done]. cbn [mbind option_bind].
  destruct (f64_eq d f64_zero); [done|]. cbn [orb]. by destruct vals.
Qed.

(** * No text makes a worker panic *)

Lemma split_runs_last f x c t :
  f c = true -> str_forall (fun c => negb (f c)) t = true ->
  exists item items, split_runs f (x +:+ String c t) = item :: items ++ [t].
Proof.
  intros Hc Ht. induction x as [|d x IH].
  - exists "", []. rewrite str_app_nil_l. cbn [split_runs]. rewrite split_runs_free by done. rewrite Hc. destruct t as [|e t]; [done|].
    cbn [str_forall] in Ht. apply andb_true_iff in Ht as [He _]. by destruct (f e).
  - destruct IH as (item & items & E). rewrite str_app_cons. cbn [split_runs]. rewrite E.
    destruct (f d).
    + destruct (x +:+ String c t) as [|e s] eqn:Es; [by apply str_app_eq_nil in Es as []|].
      destruct (f e); [by exists item, items | by exists "", (item :: items)].
    + by exists (String d item), items.
Qed.

Lemma operands_operators_length i vals operands operators :
  (i mod 2 = 0 /\ length operands = length operators) \/ (i mod 2 = 1 /\ length operands = S (length operators)) ->
  let '(o, p) := operands_operators i vals operands operators in (length o <= S (length p))%nat.
Proof.
  revert i operands operators. induction vals as [|v vals IH]; intros i operands operators Hi; cbn [operands_operators]; [lia|].
  assert ((i + 1) mod 2 = (i mod 2 + 1) mod 2) as Hm by (rewrite Zplus_mod_idemp_l; done).
  destruct Hi as [[E Hl]|[E Hl]]; rewrite E in *; cbn [Z.eqb]; apply IH; rewrite Hm, ?length_app; simpl; [right | left]; split; try done; lia.
Qed.

(** A comparison, or nothing, follows the last parenthesis of a valid text. *)
Definition mode_ok (mode : string) : Prop := mode = "" \/ exists cmp num, cmp_ok cmp /\ num_ok num /\ mode = cmp +:+ num.

Lemma side_last s : side_ok s -> computed s = true -> mode_ok (side_mode s) /\ exists x, print_side s = x +:+ String ")" (side_mode s).
Proof.
  assert (forall init last close t, exists x, print_body init last (close +:+ String ")" t) = x +:+ String ")" t) as Hb.
  { intros init last close t. induction init as [|[c op] init [x E]]; cbn [print_body].
    - exists (last +:+ close). by rewrite str_app_assoc.
    - exists (c +:+ ")" +:+ op +:+ "$(" +:+ x). rewrite E. by rewrite !str_app_assoc. }
  destruct s as [|digits|init last|paren init last cmp num]; try done; cbn [side_ok side_mode print_side]; intros Hok _.
  - split; [by left|]. destruct (Hb init last "" "") as [x E]. exists ("$(" +:+ x). rewrite str_app_assoc, <- E. done.
  - destruct Hok as (_ & _ & Hc & Hn & _). split; [right; eauto|]. destruct paren.
    + destruct (Hb init last ")" (cmp +:+ num)) as [x E]. exists ("($(" +:+ x). rewrite !str_app_assoc, <- E, print_body_app. done.
    + destruct (Hb init last "" (cmp +:+ num)) as [x E]. exists ("$(" +:+ x). rewrite !str_app_assoc, <- E, print_body_app. done.
Qed.

Lemma parse_safe text :
  expressionValid text = true ->
  exists operands operators mode, parse text (needCompute text) = Ok (operands, operators, mode) /\
    (length operands <= S (length operators))%nat /\ mode_ok mode.
Proof.
  intros [_ (s & Hs & ->)]%expressionValid_grammar. rewrite needCompute_side by done. destruct (computed s) eqn:Ec.
  2:{ exists [], [], "". split; [done|]. split; [simpl; lia | by left]. }
  destruct (side_last s Hs Ec) as [Hm [x E]].
  destruct (split_runs_last is_sep x ")" (side_mode s)) as (item & items & Ei); [done| |].
  - destruct Hm as [->|(cmp & num & Hc & Hn & ->)]; [done | by apply mode_free].
  - rewrite <- E in Ei. rewrite (parse_items _ _ _ _ Ei).
    pose proof (operands_operators_length 0 items [] []) as Hl. destruct (operands_operators 0 items [] []) as [o p].
    exists o, p, (side_mode s). split; [done|]. split; [apply Hl; left; done | done].
Qed.

Lemma compute_safe operands operators mode hostname m :
  (length operands <= S (length operators))%nat -> mode_ok mode -> safe (compute operands operators mode hostname m).
Proof.
  intros Hlen Hm. unfold compute, safe. destruct (Nat.eqb_spec (length operands) 0); [eauto|].
  destruct (Nat.eqb_spec (length (queryOperands operands hostname m)) (length operands)) as [E|E]; cbn [negb]; [|eauto].
  destruct (queryOperands operands hostname m) as [|v0 vals]; [simpl in E; lia|].
  assert (index (v0 :: vals) 0 = Ok v0) as -> by done. change (drop 1 (v0 :: vals)) with (drop 0 vals). rewrite drop_0. cbn [rbind].
  pose proof (signed_loop_spec operators 0 vals v0) as Hs. change (Z.of_nat 0) with 0 in Hs. rewrite Hs by (simpl in E; lia). cbn [rbind].
  destruct Hm as [->|(cmp & num & Hc & Hn & ->)]; [cbn; eauto|]. rewrite compareSum_spec by done. case_match; simpl; eauto.
Qed.

Lemma host_round_safe num den needNum needDen m acc h :
  let ok p := let '(o, q, mode) := p in (length o <= S (length q))%nat /\ mode_ok mode in
  ok num -> ok den -> safe (host_round num den needNum needDen m acc h).
Proof.
  intros ok Hn Hd. destruct num as [[no np] nm], den as [[do_ dp] dm], acc as [[n d] c], Hn as [Hn1 Hn2], Hd as [Hd1 Hd2]. unfold host_round.
  assert (forall (need : bool) o p mode, (length o <= S (length p))%nat -> mode_ok mode ->
    exists r, (if need then compute o p mode h m else Ok (Some f64_zero)) = Ok r) as Hs.
  { intros [] o p mode H1 H2; [by apply compute_safe | eauto]. }
  destruct (Hs needNum no np nm) as [[x|] ->]; [done|done| |unfold safe; simpl; eauto]. cbn [rbind].
  destruct (Hs needDen do_ dp dm) as [[y|] ->]; [done|done| |]; unfold safe; simpl; eauto.
Qed.

(** No text in the table of clusters, no list of hosts and no answer of the
    query makes a worker panic, as long as the answers are not null: the slices of
    [parse], the operators of [compute] and the match of [compareSum] are always in
    range, because only texts of the grammar get that far. *)
Theorem WorkerRun_safe item hosts query now :
  (forall params resp, query params = Some resp -> Forall is_Some resp) -> safe (WorkerRun item hosts query now).
Proof.
  intros Hq. unfold WorkerRun, safe.
  destruct (expressionValid (cleanParam (Numerator item))) eqn:En; [|cbn; eauto].
  destruct (expressionValid (cleanParam (Denominator item))) eqn:Ed; [|cbn; eauto]. cbn [negb orb].
  destruct (negb _ && negb _); [eauto|].
  destruct (parse_safe _ En) as (no & np & nm & -> & Hn1 & Hn2), (parse_safe _ Ed) as (do_ & dp & dm & -> & Hd1 & Hd2). cbn [rbind].
  destruct (negb _ || negb _); [eauto|]. destruct hosts as [[|h0 hs]|]; [eauto| |eauto].
  unfold queryCounterLast. destruct (query _) as [resp|] eqn:Er; [|cbn; eauto]. apply Hq in Er.
  match goal with |- context [rfold ?g ∅ resp] => destruct (rfold_safe (fun _ => True) g ∅ resp) as (m & -> & _) end.
  { intros s [res|] Hin _; [case_match; eauto|]. rewrite list.Forall_forall in Er. by destruct (Er None Hin) as [? [=]]. }
  { done. }
  cbn [rbind]. set (f := host_round _ _ _ _ _).
  destruct (rfold_safe (fun _ => True) f (f64_zero, f64_zero, 0) (h0 :: hs)) as ([[n d] c] & -> & _).
  { intros s h _ _. destruct (host_round_safe (no, np, nm) (do_, dp, dm) (needCompute (cleanParam (Numerator item))) (needCompute (cleanParam (Denominator item))) m s h) as [s' E]; [done|done|].
    exists s'. split; [exact E | done]. }
  { done. }
  cbn [rbind]. eauto.
Qed.

(** * The workers *)

(** Every worker of the map runs, under the key of its item; every worker started
    and not dropped is in the map; channels are not shared. *)
Record workers_ok (st : WorkersState) : Prop := {
  wk_running k w : Workers st !! k = Some w -> w ∈ started st /\ Quit w ∉ closed st;
  wk_kept w : w ∈ started st -> Quit w ∈ closed st \/ exists k, Workers st !! k = Some w;
  wk_channels k k' w w' : Workers st !! k = Some w -> Workers st !! k' = Some w' -> Quit w = Quit w' -> k = k';
  wk_made w : w ∈ started st -> (Quit w < made st)%nat;
  wk_closed q : q ∈ closed st -> (q < made st)%nat;
  wk_key k w : Workers st !! k = Some w -> cluster_key (ClusterItem w) = k /\ 0 < Cluster_Step (ClusterItem w) }.

Definition keyed (items : gmap string Cluster) : Prop := forall k c, items !! k = Some c -> cluster_key c = k.

Lemma ReadClusterMonitorItems_keyed lo hi rows items : ReadClusterMonitorItems lo hi rows = Some items -> keyed items.
Proof.
  destruct rows as [rows|]; [|done]. unfold ReadClusterMonitorItems. intros [= <-].
  assert (forall m, keyed m -> keyed (fold_left (fun M row => match row with Some c => if in_ids lo hi (Cluster_Id c) then <[cluster_key c := c]> M else M | None => M end) rows m)) as Hgen.
  { induction rows as [|[c|] rows IH]; intros m Hm; cbn [fold_left]; [done| |by apply IH]. apply IH. destruct (in_ids _ _ _); [|done].
    intros k c' [[<- <-]|[_ ?]]%lookup_insert_Some; [done | by apply Hm]. }
  apply Hgen. intros k c. by rewrite lookup_empty.
Qed.

Section WorkersProofs.
Context `{MapRange}.

(** The first loop: the workers without an item are dropped. *)
Lemma drop_loop (m : gmap string Cluster) st0 ps st del :
  (forall k w, (k, w) ∈ ps -> Workers st0 !! k = Some w /\ Quit w ∉ closed st) -> NoDup ps.*1 ->
  (forall k k' w w', Workers st0 !! k = Some w -> Workers st0 !! k' = Some w' -> Quit w = Quit w' -> k = k') ->
  exists st' , rfold (fun '(st, del) '(key, worker) =>
    match m !! key with
    | Some _ => Ok (st, del)
    | None => let! st := Worker_Drop worker st in Ok (st, del ++ [key])
    end) (st, del) ps = Ok (st', del ++ omap (fun p => if m !! p.1 then None else Some p.1) ps) /\
    Workers st' = Workers st /\ made st' = made st /\ started st' = started st /\
    forall q, q ∈ closed st' <-> q ∈ closed st \/ exists k w, (k, w) ∈ ps /\ m !! k = None /\ Quit w = q.
Proof using Type.
  revert st del. induction ps as [|[k w] ps IH]; intros st del Hps Hnd Hch; cbn [rfold fst].
  { exists st. csimpl. rewrite app_nil_r. split_and!; try done. intros q. setoid_rewrite elem_of_nil. naive_solver. }
  csimpl in Hnd. apply list.NoDup_cons in Hnd as [Hk Hnd]. destruct (Hps k w) as [Hw Hq]; [left|].
  destruct (m !! k) as [c|] eqn:Ek.
  - cbn [rbind]. destruct (IH st del) as (st' & -> & HW & HM & HS & HC); [|done|done|].
    { intros k' w' Hin. apply Hps. by right. }
    exists st'. csimpl. rewrite Ek. split_and!; try done. intros q. rewrite HC. setoid_rewrite elem_of_cons. naive_solver.
  - assert (Worker_Drop w st = Ok (mkWorkersState (Workers st) (made st) ({[Quit w]} ∪ closed st) (started st))) as ->
      by (unfold Worker_Drop; by rewrite decide_False). cbn [rbind].
    destruct (IH (mkWorkersState (Workers st) (made st) ({[Quit w]} ∪ closed st) (started st)) (del ++ [k])) as (st' & -> & HW & HM & HS & HC); [|done|done|].
    { intros k' w' Hin. destruct (Hps k' w') as [Hw' Hq']; [by right|]. split; [done|]. cbn [closed]. rewrite elem_of_union, elem_of_singleton.
      intros [E|E]; [|done]. assert (k' = k) as -> by (by eapply Hch). apply Hk, list_elem_of_fmap. by exists (k, w'). }
    exists st'. csimpl. rewrite Ek, <- app_assoc. split_and!; try done. intros q. rewrite HC. cbn [closed]. rewrite elem_of_union, elem_of_singleton.
    setoid_rewrite elem_of_cons. naive_solver.
Qed.

Lemma delete_keys ks st k :
  let st' := fold_left (fun st key => set_Workers (delete key (Workers st)) st) ks st in
  Workers st' !! k = (if decide (k ∈ ks) then None else Workers st !! k) /\ made st' = made st /\ closed st' = closed st /\ started st' = started st.
Proof using Type.
  revert st. induction ks as [|x ks IH]; intros st; cbn [fold_left]; [by rewrite decide_False by apply not_elem_of_nil|].
  destruct (IH (set_Workers (delete x (Workers st)) st)) as (-> & -> & -> & ->). split; [|done]. cbn [Workers set_Workers].
  destruct (decide (k ∈ ks)), (decide (k ∈ x :: ks)) as [Hd|Hd]; try done; [by destruct Hd; right| |].
  - apply elem_of_cons in Hd as [->|]; [by rewrite lookup_delete_eq | done].
  - rewrite lookup_delete_ne; [done|]. intros ->. apply Hd. left.
Qed.

Lemma deleteNoUseWorker_spec items st :
  workers_ok st -> exists st', deleteNoUseWorker items st = Ok st' /\ workers_ok st' /\
    forall k, Workers st' !! k = if items !! k then Workers st !! k else None.
Proof using Type.
  intros Hok. unfold deleteNoUseWorker.
  destruct (drop_loop items st (range_pairs (Workers st)) st []) as (st1 & -> & HW & HM & HS & HC).
  { intros k w Hin%elem_of_range_pairs. split; [done|]. by eapply wk_running. }
  { rewrite range_pairs_fst. eapply range_order_NoDup, range_keys_order. }
  { apply (wk_channels st Hok). }
  cbn [rbind app]. set (del := omap _ _).
  assert (forall k, k ∈ del <-> items !! k = None /\ is_Some (Workers st !! k)) as Hdel.
  { intros k. unfold del. rewrite list_elem_of_omap. split.
    - intros ([k' w] & Hin%elem_of_range_pairs & E). cbn [fst] in E. destruct (items !! k') eqn:Ei; [done|]. injection E as ->. rewrite Hin. eauto.
    - intros [Ei [w Hw]]. exists (k, w). split; [by apply elem_of_range_pairs|]. cbn [fst]. by rewrite Ei. }
  set (st' := fold_left _ del st1).
  assert (forall k, Workers st' !! k = if items !! k then Workers st !! k else None) as HW'.
  { intros k. unfold st'. rewrite (proj1 (delete_keys del st1 k)), HW. destruct (decide (k ∈ del)) as [Hd|Hd]; rewrite Hdel in Hd.
    - by destruct Hd as [-> _].
    - destruct (items !! k); [done|]. destruct (Workers st !! k) eqn:E; [|done]. by destruct Hd. }
  destruct (delete_keys del st1 "") as (_ & HM' & HC' & HS'). fold st' in HM', HC', HS'. rewrite HM in HM'. rewrite HS in HS'.
  assert (forall k w, Workers st' !! k = Some w -> Workers st !! k = Some w /\ is_Some (items !! k)) as Hsub.
  { intros k w. rewrite HW'. destruct (items !! k); [eauto | done]. }
  exists st'. split; [done|]. split; [|done]. split.
  - intros k w Hw. apply Hsub in Hw as [Hw Hi]. rewrite HS', HC'. destruct (wk_running st Hok k w Hw) as [H1 H2]. split; [done|].
    rewrite HC. intros [?|(k' & w' & Hin%elem_of_range_pairs & Ei & Eq)]; [done|].
    assert (k' = k) as -> by (by eapply (wk_channels st Hok)). rewrite Ei in Hi. by destruct Hi.
  - intros w Hw. rewrite HS' in Hw. rewrite HC'. destruct (wk_kept st Hok w Hw) as [?|[k Hk]]; [left; rewrite HC; auto|].
    destruct (items !! k) eqn:Ei; [right; exists k; by rewrite HW', Ei|]. left. rewrite HC. right. exists k, w. by rewrite elem_of_range_pairs.
  - intros k k' w w' [Hw _]%Hsub [Hw' _]%Hsub. by eapply wk_channels.
  - intros w. rewrite HS', HM'. apply wk_made, Hok.
  - intros q. rewrite HC', HM', HC. intros [?|(k & w & Hin%elem_of_range_pairs & _ & <-)]; [by apply (wk_closed st Hok)|].
    apply (wk_made st Hok). by eapply (wk_running st Hok).
  - intros k w [Hw _]%Hsub. by apply (wk_key st Hok).
Qed.

Lemma Worker_Start_ok k c st :
  workers_ok st -> Workers st !! k = None -> cluster_key c = k -> 0 < Cluster_Step c -> workers_ok (Worker_Start k c st).
Proof using Type.
  intros Hok Hk Hkey Hstep. unfold Worker_Start. set (w0 := mkWorker c (made st)).
  assert (forall w, w ∈ started st -> Quit w <> made st) as Hfresh.
  { intros w Hw E. apply (wk_made st Hok) in Hw. lia. }
  split; cbn [Workers made closed started].
  - intros k' w [[<- <-]|[Hne Hw]]%lookup_insert_Some.
    + split; [rewrite elem_of_app; right; left|]. cbn. intros Hc%(wk_closed st Hok). lia.
    + destruct (wk_running st Hok _ _ Hw) as [H1 H2]. split; [rewrite elem_of_app; auto | done].
  - intros w. rewrite elem_of_app, list_elem_of_singleton. intros [Hw| ->]; [|right; exists k; by rewrite lookup_insert_eq].
    destruct (wk_kept st Hok w Hw) as [?|[k' Hk']]; [by left|]. right. exists k'. rewrite lookup_insert_ne; [done|]. intros ->. congruence.
  - intros k1 k2 w1 w2 [[<- <-]|[_ Hw1]]%lookup_insert_Some [[<- <-]|[_ Hw2]]%lookup_insert_Some E; [done| | |by eapply (wk_channels st Hok)].
    + destruct (wk_running st Hok _ _ Hw2) as [H2 _]. by apply Hfresh in H2.
    + destruct (wk_running st Hok _ _ Hw1) as [H1 _]. by apply Hfresh in H1.
  - intros w. rewrite elem_of_app, list_elem_of_singleton. intros [Hw%(wk_made st Hok)| ->]; [lia | simpl; lia].
  - intros q Hq%(wk_closed st Hok). lia.
  - intros k' w [[<- <-]|[_ Hw]]%lookup_insert_Some; [done | by apply (wk_key st Hok)].
Qed.

Lemma createWorker_loop (m : gmap string Cluster) l st :
  keyed m -> workers_ok st -> (forall k c, (k, c) ∈ l -> m !! k = Some c) ->
  let st' := fold_left (fun st '(key, item) =>
    match Workers st !! key with
    | Some _ => st
    | None => if Cluster_Step item <=? 0 then st else Worker_Start key item st
    end) l st in
  workers_ok st' /\ (forall k w, Workers st !! k = Some w -> Workers st' !! k = Some w) /\
  (forall k w, Workers st' !! k = Some w -> Workers st !! k = Some w \/ m !! k = Some (ClusterItem w)) /\
  (forall k c, (k, c) ∈ l -> 0 < Cluster_Step c -> is_Some (Workers st' !! k)).
Proof using Type.
  intros Hm. revert st. induction l as [|[k c] l IH]; intros st Hok Hl st'; cbn [fold_left] in st'.
  { unfold st'. split; [done|]. split; [done|]. split; [by left|]. intros *. by rewrite elem_of_nil. }
  assert (forall k c, (k, c) ∈ l -> m !! k = Some c) as Hl' by (intros; apply Hl; by right).
  assert (m !! k = Some c) as Hc by (apply Hl; left).
  destruct (Workers st !! k) as [w0|] eqn:Ek; [|destruct (Z.leb_spec (Cluster_Step c) 0) as [Hs|Hs]].
  - destruct (IH st Hok Hl') as (H1 & H2 & H3 & H4). split_and!; try done. intros k' c' [[= -> ->]|Hin]%elem_of_cons Hp; [|by eapply H4].
    exists w0. by apply H2.
  - destruct (IH st Hok Hl') as (H1 & H2 & H3 & H4). split_and!; try done. intros k' c' [[= -> ->]|Hin]%elem_of_cons Hp; [lia | by eapply H4].
  - destruct (IH (Worker_Start k c st)) as (H1 & H2 & H3 & H4); [apply Worker_Start_ok; auto|done|]. split_and!; try done.
    + intros k' w Hw. apply H2. unfold Worker_Start. cbn [Workers]. rewrite lookup_insert_ne; [done|]. intros ->. congruence.
    + intros k' w [Hw|?]%H3; [|by right]. unfold Worker_Start in Hw. cbn [Workers] in Hw.
      apply lookup_insert_Some in Hw as [[<- <-]|[_ ?]]; [by right | by left].
    + intros k' c' [[= -> ->]|Hin]%elem_of_cons Hp; [|by eapply H4]. eexists. apply H2. unfold Worker_Start. cbn [Workers]. apply lookup_insert_eq.
Qed.

(** The workers follow the table of clusters. From a state where the running
    workers are those of the map, a round of the updater never panics (no channel is
    closed twice) and gives such a state again, in which exactly the items of the
    table with a positive step have a worker: one that ran before keeps running, and
    every other worker started so far was told to quit. An item that changed has a
    new key, and so a new worker. *)
Theorem updateItems_correct items st :
  workers_ok st -> keyed items ->
  exists st', updateItems (Some items) st = Ok st' /\ workers_ok st' /\
    (forall k, is_Some (Workers st' !! k) <-> exists c, items !! k = Some c /\ (0 < Cluster_Step c \/ is_Some (Workers st !! k))) /\
    (forall k w, Workers st !! k = Some w -> is_Some (items !! k) -> Workers st' !! k = Some w) /\
    (forall w, w ∈ started st' -> Quit w ∈ closed st' \/ exists k, Workers st' !! k = Some w /\ is_Some (items !! k)).
Proof using Type.
  intros Hok Hkey. unfold updateItems. destruct (deleteNoUseWorker_spec items st Hok) as (st1 & -> & Hok1 & HW1). cbn [rbind].
  destruct (createWorker_loop items (range_pairs items) st1 Hkey Hok1) as (Hok2 & Hkeep & Hfrom & Hstart).
  { intros k c. by rewrite elem_of_range_pairs. }
  set (st2 := createWorkerIfNeed items st1). change (fold_left _ (range_pairs items) st1) with st2 in Hok2, Hkeep, Hfrom, Hstart.
  assert (forall k w, Workers st2 !! k = Some w -> is_Some (items !! k)) as Hin.
  { intros k w [Hw|Hw]%Hfrom; [|eauto]. rewrite HW1 in Hw. destruct (items !! k); [eauto | done]. }
  exists st2. split; [done|]. split; [done|]. split; [|split].
  - intros k. split.
    + intros [w Hw]. destruct (Hin k w Hw) as [c Hc]. exists c. split; [done|]. destruct (Hfrom k w Hw) as [Hw1|Hw1].
      * rewrite HW1, Hc in Hw1. right. eauto.
      * rewrite Hc in Hw1. injection Hw1 as ->. left. by apply (wk_key st2 Hok2 k).
    + intros (c & Hc & [Hs|[w Hw]]).
      * eapply Hstart; [|done]. by apply elem_of_range_pairs.
      * exists w. apply Hkeep. by rewrite HW1, Hc.
  - intros k w Hw [c Hc]. apply Hkeep. by rewrite HW1, Hc.
  - intros w Hw. destruct (wk_kept st2 Hok2 w Hw) as [?|[k Hk]]; [by left|]. right. exists k. split; [done|]. by eapply Hin.
Qed.

End WorkersProofs.

(** * Examples *)

Definition sample_cluster (num den : string) : Cluster := mkCluster 1 7 num den "cluster" "cpu.busy.ratio" "" "GAUGE" 60 "2017-01-01".
Definition point_of (e c : string) (ts v : Z) : GraphLastResp := mkGraphLastResp e c (mkRRDData ts (f64_lit v 0)).

Example valid_texts :
  map expressionValid ["1210"; "$#"; "$(cpu.busy)"; "$(cpu.busy)+$(cpu.idle)-$(cpu.nice)"; "$(cpu.busy)>=80"; "($(cpu.busy)+$(cpu.idle)-$(cpu.nice))>80";
    "$(qps/module=judge,project=falcon)"; "($(cpu.idle)+$(cpu.busy))=100"] = replicate 8 true
  /\ map expressionValid ["$((cpu.busy)"; "$(cpu.idle)+$(cpu.busy)>40"; "($(cpu.idle)+$(cpu.busy)-60)>100"] = replicate 3 false.
Proof. by vm_compute. Qed.

(** The counter of another host answers when the texts run together: host [web1] has
    no value, but that of [0.load] of [web1] is the one of [.load] of [web10]. *)
Example concatenated_keys :
  WorkerRun (sample_cluster "$(0.load)" "$#") (Some ["web1"]) (fun _ => Some [Some (point_of "web10" ".load" 1000 5)]) 1000
  = Ok (Some (mkJsonMetaData "cpu.busy.ratio" "cluster" 1000 60 (VFloat64 (f64_lit 5 0)) "GAUGE" "")).
Proof. by vm_compute. Qed.

(** A dollar inside a counter splits it: the counter [a$+$b] is taken as [a] plus [b]. *)
Example dollar_splits : parse "$(a$+$b)" true = Ok (["a"; "b"], ["+"], "").
Proof. by vm_compute. Qed.

Definition sample_resp : list GraphLastResp := [point_of "h1" "busy" 1000 30; point_of "h2" "busy" 990 50; point_of "h3" "busy" 10 90].

Lemma WorkerRun_correct_witness :
  WorkerRun (sample_cluster " $(busy) " "$#") (Some ["h1"; "h2"; "h3"]) (fun _ => Some (map Some sample_resp)) 1000
  = Ok (Some (mkJsonMetaData "cpu.busy.ratio" "cluster" 1000 60 (VFloat64 (f64_lit 40 0)) "GAUGE" "")).
Proof.
  rewrite (WorkerRun_correct (sample_cluster " $(busy) " "$#") ["h1"; "h2"; "h3"] _ 1000 (SSum [] "busy") SCount sample_resp).
  - by vm_compute.
  - by vm_compute.
  - by vm_compute.
  - by vm_compute.
  - by vm_compute.
  - split; [split; [constructor|]; by vm_compute|]. constructor; [by vm_compute | constructor].
  - split; [done | constructor].
  - done.
  - done.
  - done.
  - intros res host counter Hr Hh Hc. cbn [side_operands map app] in Hc. apply list_elem_of_singleton in Hc as ->.
    unfold sample_resp in Hr. rewrite !elem_of_cons, elem_of_nil in Hr. rewrite !elem_of_cons, elem_of_nil in Hh.
    destruct Hr as [->|[->|[->|[]]]], Hh as [->|[->|[->|[]]]]; intros E; by vm_compute in E.
Defined.

Lemma WorkerRun_safe_witness : safe (WorkerRun (sample_cluster "$(a$)>1" "($(a$b))<=2.5") (Some ["h"]) (fun _ => Some []) 0).
Proof. apply WorkerRun_safe. intros params resp [= <-]. constructor. Defined.

Definition no_workers : WorkersState := mkWorkersState ∅ 0 ∅ [].
Lemma updateItems_correct_witness :
  exists st', updateItems (H := map_range_default) (Some {["12017-01-01" := sample_cluster "$(a)" "$#"]}) no_workers = Ok st' /\
    is_Some (Workers st' !! "12017-01-01").
Proof.
  destruct (updateItems_correct (H := map_range_default) {["12017-01-01" := sample_cluster "$(a)" "$#"]} no_workers) as (st' & E & _ & Hk & _).
  - split; cbn [Workers started closed made no_workers]; try (intros *; rewrite ?lookup_empty, ?elem_of_nil, ?elem_of_empty; done).
  - intros k c [<- <-]%lookup_singleton_Some. by vm_compute.
  - exists st'. split; [exact E|]. apply Hk. exists (sample_cluster "$(a)" "$#"). split; [by vm_compute|]. left. by vm_compute.
Defined.
