(* ===== verification/Alarm.v ===== *)
(** modules/alarm: the events the judges sent to redis are stored as cases in the
    database and turned into messages for the users of the teams of their action;
    messages of low priority wait in redis and are combined every minute. *)
From Stdlib Require Import Ascii ZArith.
From stdpp Require Import base list gmap strings numbers.
From S2P Require Import Prelude GoString GoFloat GoText Utils Model ThirdParty JudgeEvent.

Local Open Scope Z_scope.

(** * Lists in redis *)

(** The head of the list is its left end. A text that is blank or does not decode
    is [None]; a text the services wrote is the value it encodes. *)
Definition redis_list (T : Type) : Type := list (option T).
(** A push that redis takes; one it does not is logged and its value lost. *)
Definition LPUSH {T : Type} (v : T) (q : redis_list T) : redis_list T := Some v :: q.
(** RPOP until the list is empty, or until the connection fails after [n] replies:
    [popAllSmsDto], [PopAllSms] and their likes. *)
Definition popAll {T : Type} (n : nat) (q : redis_list T) : redis_list T * list T :=
  let k := (length q - n)%nat in
  (take k q, omap (fun x => x) (reverse (drop k q))).

(** * The records *)

Record Action := mkAction {
  Action_Id : Z;
  Uic : string;
  Url : string;
  Callback_flag : Z;
  BeforeCallbackSms : Z;
  BeforeCallbackMail : Z;
  AfterCallbackSms : Z;
  AfterCallbackMail : Z }.
Record User := mkUser { User_Name : string; Phone : string; Email : string; User_IM : string }.
(** SmsDto, ImDto: [To] is the phone or the IM account. *)
Record Dto := mkDto { Dto_Priority : Z; Dto_Metric : string; Dto_Content : string; Dto_To : string; Dto_Status : string }.
Record MailDto := mkMailDto { MailDto_dto : Dto; MailDto_Subject : string }.
Record Message := mkMessage { Tos : string; Message_Content : string }.
Record Mail := mkMail { Mail_Tos : string; Mail_Subject : string; Mail_Content : string }.

(** A row of event_cases; the condition is the three values its text shows, and no
    note of its processing is 0. *)
Record EventCase := mkEventCase {
  Case_Endpoint : string;
  Case_Metric : string;
  Case_Func : string;
  Case_Cond : f64 * string * f64;
  Case_Note : string;
  Case_MaxStep : Z;
  Case_CurrentStep : Z;
  Case_Priority : Z;
  Case_Status : string;
  Case_Timestamp : Z;
  Case_UpdateAt : Z;
  Case_ProcessStatus : string;
  Case_ProcessNote : Z;
  Case_TplCreator : string;
  Case_ExpressionId : Z;
  Case_StrategyId : Z;
  Case_TemplateId : Z }.
#[global] Instance EventCase_eq_dec : EqDecision EventCase.
Proof. solve_decision. Defined.
(** A row of events, and the case it belongs to. *)
Record EventRow := mkEventRow {
  Row_CaseId : string;
  Row_Step : Z;
  Row_Cond : f64 * string * f64;
  Row_Status : Z;
  Row_Timestamp : Z }.

Record AlarmState := mkAlarmState {
  Actions : gmap Z Action;
  Users : gmap string (list User);
  UserSmsQueue : redis_list Dto;
  UserIMQueue : redis_list Dto;
  UserMailQueue : redis_list MailDto;
  SmsQueue : redis_list Message;
  IMQueue : redis_list Message;
  MailQueue : redis_list Mail;
  EventCases : gmap string EventCase;
  EventRows : list EventRow }.

Definition set_Actions m st := mkAlarmState m (Users st) (UserSmsQueue st) (UserIMQueue st) (UserMailQueue st) (SmsQueue st) (IMQueue st) (MailQueue st) (EventCases st) (EventRows st).
Definition set_Users m st := mkAlarmState (Actions st) m (UserSmsQueue st) (UserIMQueue st) (UserMailQueue st) (SmsQueue st) (IMQueue st) (MailQueue st) (EventCases st) (EventRows st).
Definition set_UserSms q st := mkAlarmState (Actions st) (Users st) q (UserIMQueue st) (UserMailQueue st) (SmsQueue st) (IMQueue st) (MailQueue st) (EventCases st) (EventRows st).
Definition set_UserIM q st := mkAlarmState (Actions st) (Users st) (UserSmsQueue st) q (UserMailQueue st) (SmsQueue st) (IMQueue st) (MailQueue st) (EventCases st) (EventRows st).
Definition set_UserMail q st := mkAlarmState (Actions st) (Users st) (UserSmsQueue st) (UserIMQueue st) q (SmsQueue st) (IMQueue st) (MailQueue st) (EventCases st) (EventRows st).
Definition set_Sms q st := mkAlarmState (Actions st) (Users st) (UserSmsQueue st) (UserIMQueue st) (UserMailQueue st) q (IMQueue st) (MailQueue st) (EventCases st) (EventRows st).
Definition set_IM q st := mkAlarmState (Actions st) (Users st) (UserSmsQueue st) (UserIMQueue st) (UserMailQueue st) (SmsQueue st) q (MailQueue st) (EventCases st) (EventRows st).
Definition set_Mail q st := mkAlarmState (Actions st) (Users st) (UserSmsQueue st) (UserIMQueue st) (UserMailQueue st) (SmsQueue st) (IMQueue st) q (EventCases st) (EventRows st).
Definition set_Cases m st := mkAlarmState (Actions st) (Users st) (UserSmsQueue st) (UserIMQueue st) (UserMailQueue st) (SmsQueue st) (IMQueue st) (MailQueue st) m (EventRows st).
Definition set_Rows l st := mkAlarmState (Actions st) (Users st) (UserSmsQueue st) (UserIMQueue st) (UserMailQueue st) (SmsQueue st) (IMQueue st) (MailQueue st) (EventCases st) l.

(** * redi/msg_writer.go *)

Definition WriteSms (tos : list string) (content : string) (st : AlarmState) : AlarmState :=
  match tos with [] => st | _ => set_Sms (LPUSH (mkMessage (strings_Join tos ",") content) (SmsQueue st)) st end.
Definition WriteIM (tos : list string) (content : string) (st : AlarmState) : AlarmState :=
  match tos with [] => st | _ => set_IM (LPUSH (mkMessage (strings_Join tos ",") content) (IMQueue st)) st end.
Definition WriteMail (tos : list string) (subject content : string) (st : AlarmState) : AlarmState :=
  match tos with [] => st | _ => set_Mail (LPUSH (mkMail (strings_Join tos ",") subject content) (MailQueue st)) st end.

(** * api/portal.go, api/uic.go *)

(** [curl] is the answer of the API, [None] a failure. *)
Definition GetAction (curl : option Action) (id : Z) (st : AlarmState) : AlarmState * option Action :=
  let curl := if id <=? 0 then None else curl in
  match curl with
  | Some action => (set_Actions (<[id := action]> (Actions st)) st, Some action)
  | None => (st, Actions st !! id)
  end.

(** The users of a team; [None] is nil. *)
Definition UsersOf (curl : string -> option (list User)) (team : string) (st : AlarmState) : AlarmState * option (list User) :=
  match (if bool_decide (team = "") then Some [] else curl team) with
  | Some users => (set_Users (<[team := users]> (Users st)) st, Some users)
  | None => (st, Users st !! team)
  end.

Definition GetUsers (curl : string -> option (list User)) (teams : string) (st : AlarmState) : AlarmState * gmap string User :=
  fold_left (fun '(st, userMap) team =>
    if bool_decide (team = "") then (st, userMap)
    else let '(st, users) := UsersOf curl team st in
         match users with
         | None => (st, userMap)
         | Some users => (st, fold_left (fun (m : gmap string User) user => <[User_Name user := user]> m) users userMap)
         end) (strings_Split teams ",") (st, ∅).

Section Messages.
Context `{MapRange, NSet}.

(** Phones, mail addresses and IM accounts. *)
Definition ParseTeams (curl : string -> option (list User)) (teams : string) (st : AlarmState)
    : AlarmState * (list string * list string * list string) :=
  if bool_decide (teams = "") then (st, ([], [], []))
  else
    let '(st, userMap) := GetUsers curl teams st in
    let added f := filter (fun s => s <> "") (map (fun p => f (snd p)) (range_pairs userMap)) in
    (st, (set_ToSlice (added Phone), set_ToSlice (added Email), set_ToSlice (added User_IM))).

(** * g/eventdto.go, cron/builder.go *)

(** The address of the dashboard, and the local time as text. *)
Context (Dashboard : string) (UnixTsFormat : Z -> string).

Definition Link (event : Event) : result string :=
  let! tplId := Event_TplId event in
  if negb (tplId =? 0) then Ok (Dashboard +:+ "/portal/template/view/" +:+ strconv_Itoa tplId)
  else
    let eid := Event_ExpressionId event in
    if negb (eid =? 0) then Ok (Dashboard +:+ "/portal/expression/view/" +:+ strconv_Itoa eid) else Ok "".

Definition BuildCommonSMSContent (event : Event) : result string :=
  let! priority := Event_Priority event in
  let! note := Event_Note event in
  let! func := Event_Func event in
  let! metric := Event_Metric event in
  let! operator := Event_Operator event in
  let! rightValue := Event_RightValue event in
  Ok ("[P" +:+ strconv_Itoa priority +:+ "][" +:+ Event_Status event +:+ "][" +:+ Event_Endpoint event +:+ "][][" +:+ note +:+ " "
    +:+ func +:+ " " +:+ metric +:+ " " +:+ SortedTags (Event_PushedTags event) +:+ " " +:+ ReadableFloat (Event_LeftValue event)
    +:+ operator +:+ ReadableFloat rightValue +:+ "][O" +:+ strconv_Itoa (Event_CurrentStep event) +:+ " " +:+ UnixTsFormat (Event_EventTime event) +:+ "]").
Definition BuildCommonIMContent : Event -> result string := BuildCommonSMSContent.

Definition crlf : string := String "013" (String "010" "").
Definition BuildCommonMailContent (event : Event) : result string :=
  let! link := Link event in
  let! priority := Event_Priority event in
  let! metric := Event_Metric event in
  let! func := Event_Func event in
  let! operator := Event_Operator event in
  let! rightValue := Event_RightValue event in
  let! note := Event_Note event in
  let! maxStep := Event_MaxStep event in
  Ok (Event_Status event +:+ crlf +:+ "P" +:+ strconv_Itoa priority +:+ crlf +:+ "Endpoint:" +:+ Event_Endpoint event +:+ crlf
    +:+ "Metric:" +:+ metric +:+ crlf +:+ "Tags:" +:+ SortedTags (Event_PushedTags event) +:+ crlf
    +:+ func +:+ ": " +:+ ReadableFloat (Event_LeftValue event) +:+ operator +:+ ReadableFloat rightValue +:+ crlf
    +:+ "Note:" +:+ note +:+ crlf +:+ "Max:" +:+ strconv_Itoa maxStep +:+ ", Current:" +:+ strconv_Itoa (Event_CurrentStep event) +:+ crlf
    +:+ "Timestamp:" +:+ UnixTsFormat (Event_EventTime event) +:+ crlf +:+ link +:+ crlf).

Definition GenerateSmsContent : Event -> result string := BuildCommonSMSContent.
Definition GenerateMailContent : Event -> result string := BuildCommonMailContent.
Definition GenerateIMContent : Event -> result string := BuildCommonIMContent.

(** * cron/event_consumer.go, cron/callback.go *)

(** What answers: the users of a team, and the callback with its error. *)
Record alarm_env := mkAlarmEnv {
  env_action : Z -> option Action;
  env_users : string -> option (list User);
  env_callback : string -> string * option string }.

Definition ParseUserSms (env : alarm_env) (event : Event) (action : Action) (st : AlarmState) : result AlarmState :=
  let '(st, userMap) := GetUsers (env_users env) (Uic action) st in
  let! content := GenerateSmsContent event in
  let! metric := Event_Metric event in
  let! priority := Event_Priority event in
  Ok (fold_left (fun st p => set_UserSms (LPUSH (mkDto priority metric content (Phone (snd p)) (Event_Status event)) (UserSmsQueue st)) st) (range_pairs userMap) st).
Definition ParseUserIm (env : alarm_env) (event : Event) (action : Action) (st : AlarmState) : result AlarmState :=
  let '(st, userMap) := GetUsers (env_users env) (Uic action) st in
  let! content := GenerateIMContent event in
  let! metric := Event_Metric event in
  let! priority := Event_Priority event in
  Ok (fold_left (fun st p => set_UserIM (LPUSH (mkDto priority metric content (User_IM (snd p)) (Event_Status event)) (UserIMQueue st)) st) (range_pairs userMap) st).
Definition ParseUserMail (env : alarm_env) (event : Event) (action : Action) (st : AlarmState) : result AlarmState :=
  let '(st, userMap) := GetUsers (env_users env) (Uic action) st in
  let! metric := Event_Metric event in
  let! subject := GenerateSmsContent event in
  let! content := GenerateMailContent event in
  let! priority := Event_Priority event in
  Ok (fold_left (fun st p => set_UserMail (LPUSH (mkMailDto (mkDto priority metric content (Email (snd p)) (Event_Status event)) subject) (UserMailQueue st)) st)
    (range_pairs userMap) st).

Definition consumeLowEvents (env : alarm_env) (event : Event) (action : Action) (st : AlarmState) : result AlarmState :=
  if bool_decide (Uic action = "") then Ok st
  else
    let! priority := Event_Priority event in
    let! st := if priority <? 3 then ParseUserSms env event action st else Ok st in
    let! st := ParseUserIm env event action st in
    ParseUserMail env event action st.

Definition consumeHighEvents (env : alarm_env) (event : Event) (action : Action) (st : AlarmState) : result AlarmState :=
  if bool_decide (Uic action = "") then Ok st
  else
    let '(st, (phones, mails, ims)) := ParseTeams (env_users env) (Uic action) st in
    let! smsContent := GenerateSmsContent event in
    let! mailContent := GenerateMailContent event in
    let! imContent := GenerateIMContent event in
    let! priority := Event_Priority event in
    let st := if priority <? 3 then WriteSms phones smsContent st else st in
    Ok (WriteMail mails smsContent mailContent (WriteIM ims imContent st)).

(** The request of the callback itself is the argument [env_callback]. *)
Definition Callback (env : alarm_env) (event : Event) (action : Action) : result string :=
  if bool_decide (Url action = "") then Ok "callback url is blank"
  else
    let! _ := Event_Metric event in
    let! _ := Event_Priority event in
    let! _ := Event_TplId event in
    let '(resp, e) := env_callback env (Url action) in
    let success := match e with None => "success" | Some e => "fail:" +:+ e end in
    Ok ("curl " +:+ Url action +:+ " " +:+ success +:+ ". resp: " +:+ resp).

Definition HandleCallback (env : alarm_env) (event : Event) (action : Action) (st : AlarmState) : result AlarmState :=
  let teams := Uic action in
  let! (st, (phones, mails, ims)) :=
    (if bool_decide (teams = "") then Ok (st, ([], [], []))
     else
       let '(st, (phones, mails, ims)) := ParseTeams (env_users env) teams st in
       let! smsContent := GenerateSmsContent event in
       let! mailContent := GenerateMailContent event in
       let! imContent := GenerateIMContent event in
       let st := if BeforeCallbackSms action =? 1 then WriteIM ims imContent (WriteSms phones smsContent st) else st in
       let st := if BeforeCallbackMail action =? 1 then WriteMail mails smsContent mailContent st else st in
       Ok (st, (phones, mails, ims))) in
  let! message := Callback env event action in
  if bool_decide (teams = "") then Ok st
  else
    let st := if AfterCallbackSms action =? 1 then WriteIM ims message (WriteSms phones message st) else st in
    Ok (if AfterCallbackMail action =? 1 then WriteMail mails message message st else st).

Definition consume (env : alarm_env) (event : Event) (isHigh : bool) (st : AlarmState) : result AlarmState :=
  let! actionId := Event_ActionId event in
  if actionId <=? 0 then Ok st
  else
    match GetAction (env_action env actionId) actionId st with
    | (st, None) => Ok st
    | (st, Some action) =>
        let! st := if Callback_flag action =? 1 then HandleCallback env event action st else Ok st in
        if isHigh then consumeHighEvents env event action st else consumeLowEvents env event action st
    end.

End Messages.

(** * cron/combiner.go *)

Definition dto_key (d : Dto) : string := strconv_Itoa (Dto_Priority d) +:+ Dto_Status d +:+ Dto_To d +:+ Dto_Metric d.

(** [strings.Split(s, "][")]. *)
Fixpoint split_brackets (s : string) : list string :=
  match s with
  | EmptyString => [""]
  | String c s' =>
      match c, s' with
      | "]"%char, String "["%char s'' => "" :: split_brackets s''
      | _, _ => match split_brackets s' with
                | item :: items => String c item :: items
                | [] => []
                end
      end
  end.

Section Combine.
Context `{MapRange} (Dashboard : string).

Definition combined_subject (arr0 : Dto) (size : nat) : string :=
  "[P" +:+ strconv_Itoa (Dto_Priority arr0) +:+ "][" +:+ Dto_Status arr0 +:+ "] " +:+ strconv_Itoa (Z.of_nat size) +:+ " " +:+ Dto_Metric arr0.

(** One message for a group of two or more; [link] is the answer of [LinkToSMS]. *)
Definition combined_text (link : string -> option string) (arr0 : Dto) (arr : list Dto) : string :=
  let content := strings_Join (map Dto_Content arr) ",," in
  let t := split_brackets (Dto_Content arr0) in
  let eg := if (3 <=? length t)%nat then default "" (t !! 2%nat) else "" in
  match link content with
  | None | Some "" => combined_subject arr0 (length arr) +:+ ".  e.g. " +:+ eg +:+ ". detail in email"
  | Some path => combined_subject arr0 (length arr) +:+ " e.g. " +:+ eg +:+ " " +:+ Dashboard +:+ "/portal/links/" +:+ path +:+ " "
  end.

(** What a group becomes; the groups of the map are never empty. *)
Definition group_message (link : string -> option string) (arr : list Dto) : option Message :=
  match arr with
  | [] => None
  | [d] => Some (mkMessage (Dto_To d) (Dto_Content d))
  | d :: _ => Some (mkMessage (Dto_To d) (combined_text link d arr))
  end.
Definition group_mail (arr : list MailDto) : option Mail :=
  match arr with
  | [] => None
  | [d] => Some (mkMail (Dto_To (MailDto_dto d)) (MailDto_Subject d) (Dto_Content (MailDto_dto d)))
  | d :: _ => Some (mkMail (Dto_To (MailDto_dto d)) (combined_subject (MailDto_dto d) (length arr))
                (strings_Join (map (fun d => Dto_Content (MailDto_dto d)) arr) crlf))
  end.

(** [n] replies of redis before an error. *)
Definition popAllSmsDto (n : nat) (st : AlarmState) : AlarmState * list Dto :=
  let '(q, dtos) := popAll n (UserSmsQueue st) in (set_UserSms q st, dtos).
Definition popAllMailDto (n : nat) (st : AlarmState) : AlarmState * list MailDto :=
  let '(q, dtos) := popAll n (UserMailQueue st) in (set_UserMail q st, dtos).
Definition popAllImDto (n : nat) (st : AlarmState) : AlarmState * list Dto :=
  let '(q, dtos) := popAll n (UserIMQueue st) in (set_UserIM q st, dtos).

Definition combineSms (link : string -> option string) (n : nat) (st : AlarmState) : AlarmState :=
  let '(st, dtos) := popAllSmsDto n st in
  fold_left (fun st '(_, arr) =>
    match group_message link arr with Some m => WriteSms [Tos m] (Message_Content m) st | None => st end)
    (range_pairs (group_by dto_key dtos)) st.
Definition combineIM (link : string -> option string) (n : nat) (st : AlarmState) : AlarmState :=
  let '(st, dtos) := popAllImDto n st in
  fold_left (fun st '(_, arr) =>
    match group_message link arr with Some m => WriteIM [Tos m] (Message_Content m) st | None => st end)
    (range_pairs (group_by dto_key dtos)) st.
Definition combineMail (n : nat) (st : AlarmState) : AlarmState :=
  let '(st, dtos) := popAllMailDto n st in
  fold_left (fun st '(_, arr) =>
    match group_mail arr with Some m => WriteMail [Mail_Tos m] (Mail_Subject m) (Mail_Content m) st | None => st end)
    (range_pairs (group_by (fun d => dto_key (MailDto_dto d)) dtos)) st.

End Combine.

(** * model/event/event_operation.go *)

Definition counterGen (metric tags : string) : string :=
  if negb (bool_decide (tags = "")) then metric +:+ "/" +:+ tags else metric.

(** Which statements the database executes, and its time when the case is
    written. *)
Record db_faults := mkDbFaults { select_ok : bool; case_ok : bool; event_ok : bool; db_now : Z }.

Definition event_cond (eve : Event) : result (f64 * string * f64) :=
  let! operator := Event_Operator eve in
  let! rightValue := Event_RightValue eve in
  Ok (Event_LeftValue eve, operator, rightValue).

(** A row of events needs its case (a foreign key). *)
Definition insertEvent (db : db_faults) (eve : Event) (st : AlarmState) : result AlarmState :=
  let status := if bool_decide (Event_Status eve = "OK") then 1 else 0 in
  let! cond := event_cond eve in
  Ok (if event_ok db && bool_decide (is_Some (EventCases st !! Event_Id eve))
      then set_Rows (EventRows st ++ [mkEventRow (Event_Id eve) (Event_CurrentStep eve) cond status (Event_EventTime eve)]) st
      else st).

(** [select * from event_cases where id = ?], whose error is not looked at. *)
Definition select_case (db : db_faults) (eve : Event) (st : AlarmState) : option EventCase :=
  if select_ok db then EventCases st !! Event_Id eve else None.

(** The column [timestamp Timestamp NOT NULL] is declared [on update
    CURRENT_TIMESTAMP]: a statement that does not set it and changes another column
    of the row sets it to the time of the database. *)
Definition set_Timestamp (t : Z) (c : EventCase) : EventCase :=
  mkEventCase (Case_Endpoint c) (Case_Metric c) (Case_Func c) (Case_Cond c) (Case_Note c) (Case_MaxStep c) (Case_CurrentStep c) (Case_Priority c) (Case_Status c)
    t (Case_UpdateAt c) (Case_ProcessStatus c) (Case_ProcessNote c) (Case_TplCreator c) (Case_ExpressionId c) (Case_StrategyId c) (Case_TemplateId c).
Definition on_update (now : Z) (before after : EventCase) : EventCase :=
  if bool_decide (after = before) then after else set_Timestamp now after.

(** The statements after the select, with what it saw: the row is inserted, where a
    case that exists is a duplicate key, or the row that is there by now is updated. *)
Definition write_case (db : db_faults) (selected : option EventCase) (eve : Event) (st : AlarmState) : result AlarmState :=
  let tpl_creator := match Event_Tpl eve with Some t => Template_Creator t | None => "" end in
  let! metric := Event_Metric eve in
  let! func := Event_Func eve in
  let! cond := event_cond eve in
  let! note := Event_Note eve in
  let! maxStep := Event_MaxStep eve in
  let! priority := Event_Priority eve in
  let! tplId := Event_TplId eve in
  Ok
    (if negb (case_ok db) then st
    else match selected, EventCases st !! Event_Id eve with
    | None, Some _ => st
    | None, None =>
        set_Cases (<[Event_Id eve := mkEventCase (Event_Endpoint eve) (counterGen metric (SortedTags (Event_PushedTags eve))) func cond note
          maxStep (Event_CurrentStep eve) priority (Event_Status eve) (Event_EventTime eve) (Event_EventTime eve) "unresolved" 0 tpl_creator
          (Event_ExpressionId eve) (Event_StrategyId eve) tplId]> (EventCases st)) st
    | Some _, None => st
    | Some seen, Some c =>
        let reopen := bool_decide (Case_ProcessStatus seen = "resolved") || bool_decide (Case_ProcessStatus seen = "ignored") in
        let after := mkEventCase (Case_Endpoint c) (Case_Metric c) func cond note
          maxStep (Event_CurrentStep eve) priority (Event_Status eve) (Case_Timestamp c) (Event_EventTime eve)
          (if reopen then "unresolved" else Case_ProcessStatus c) (if reopen then 0 else Case_ProcessNote c) tpl_creator
          (Event_ExpressionId eve) (Event_StrategyId eve) tplId in
        let row := if Event_CurrentStep eve =? 1 then set_Timestamp (Event_EventTime eve) after else on_update (db_now db) c after in
        set_Cases (<[Event_Id eve := row]> (EventCases st)) st
    end).

(** Nothing holds the row between the statements. *)
Definition InsertEvent (db : db_faults) (eve : Event) (st : AlarmState) : result AlarmState :=
  let! st := write_case db (select_case db eve st) eve st in
  insertEvent db eve st.

(** [delete from events where timestamp < before limit n]. *)
Fixpoint delete_older (before : Z) (limit : nat) (rows : list EventRow) : list EventRow :=
  match rows, limit with
  | row :: rows, S limit' => if Row_Timestamp row <? before then delete_older before limit' rows else row :: delete_older before limit rows
  | _, _ => rows
  end.
Definition DeleteEventOlder (before : Z) (limit : nat) (st : AlarmState) : AlarmState := set_Rows (delete_older before limit (EventRows st)) st.

(** * cron/event_reader.go *)

(** BRPOP: the right end of the first list that is not empty; [None] blocks. *)
Fixpoint BRPOP (queues : list string) (lists : gmap string (redis_list Event)) : option (gmap string (redis_list Event) * option Event) :=
  match queues with
  | [] => None
  | q :: queues =>
      match list.last (default [] (lists !! q)) with
      | None => BRPOP queues lists
      | Some reply => Some (<[q := removelast (default [] (lists !! q))]> lists, reply)
      end
  end.

(** One round of [ReadHighEvent] and [ReadLowEvent]: a text that does not decode is
    skipped, any other event is stored and consumed. *)
Definition ReadEvent `{MapRange, NSet} (Dashboard : string) (UnixTsFormat : Z -> string) (isHigh : bool) (queues : list string)
    (db : db_faults) (env : alarm_env) (lists : gmap string (redis_list Event)) (st : AlarmState)
    : result (gmap string (redis_list Event) * AlarmState) :=
  match BRPOP queues lists with
  | None => Ok (lists, st)
  | Some (lists, None) => Ok (lists, st)
  | Some (lists, Some event) =>
      let! st := InsertEvent db event st in
      let! st := consume Dashboard UnixTsFormat env event isHigh st in
      Ok (lists, st)
  end.

(** * Combining *)

(** What makes messages alike. *)
Definition dto_class (d : Dto) : Z * string * string * string := (Dto_Priority d, Dto_Status d, Dto_To d, Dto_Metric d).

(** [groups] splits [dtos]: every one is in one group, and a group is all those alike
    one of them, in their order. *)
Definition split_alike {D : Type} (class : D -> Z * string * string * string) (dtos : list D) (groups : list (list D)) : Prop :=
  concat groups ≡ₚ dtos /\ NoDup groups /\
  forall g, g ∈ groups -> exists d, head g = Some d /\ g = filter (fun x => class x = class d) dtos.


Lemma concat_filter_groups {D : Type} (key : D -> string) (l : list D) (ks : list string) :
  NoDup ks -> (forall d, d ∈ l -> key d ∈ ks) -> concat (map (fun k => filter (fun d => key d = k) l) ks) ≡ₚ l.
Proof.
  intros Hnd. revert l. induction Hnd as [|k ks Hk Hnd IH]; intros l Hl; cbn [map concat].
  { destruct l as [|d l]; [done|]. destruct (not_elem_of_nil (key d)). apply Hl. left. }
  etrans; [|apply (filter_app_complement (fun d => key d = k) l)]. apply Permutation_app; [done|].
  rewrite <- (IH (filter (fun d => key d <> k) l)).
  - match goal with |- ?a ≡ₚ ?b => assert (a = b) as ->; [|done] end. f_equal. apply map_ext_in. intros k' Hk'. rewrite list_filter_filter. apply list_filter_iff.
    intros d. split; [intros <-; split; [done|] | tauto]. intros E. apply Hk. rewrite <- E. by apply list_elem_of_In.
  - intros d [Hd Hin]%list_elem_of_filter. apply Hl in Hin. by apply elem_of_cons in Hin as [?|?].
Qed.

(** The groups of the map, in the order it is visited. *)
Lemma group_by_groups `{MapRange} {D : Type} (key : D -> string) (class : D -> Z * string * string * string) (dtos : list D) :
  (forall d d', d ∈ dtos -> d' ∈ dtos -> key d = key d' <-> class d = class d') ->
  split_alike class dtos (map snd (range_pairs (group_by key dtos))).
Proof.
  intros Hkey. set (m := group_by key dtos).
  assert (forall k arr, (k, arr) ∈ range_pairs m <-> arr = filter (fun d => key d = k) dtos /\ arr <> []) as Hm.
  { intros k arr. rewrite elem_of_range_pairs. unfold m. rewrite group_by_lookup.
    destruct (filter (fun d => key d = k) dtos) as [|d l]; naive_solver. }
  assert (map snd (range_pairs m) = map (fun k => filter (fun d => key d = k) dtos) (range_keys m)) as Eg.
  { rewrite <- range_pairs_fst. change (range_pairs m).*1 with (map fst (range_pairs m)). rewrite map_map. apply map_ext_in.
    intros [k arr] Hin%list_elem_of_In. by apply Hm in Hin as [-> _]. }
  assert (NoDup (range_keys m)) as Hnd by (eapply range_order_NoDup, range_keys_order).
  split; [|split].
  - rewrite Eg. apply concat_filter_groups; [done|]. intros d Hd. apply (range_order_elem m); [apply range_keys_order|].
    unfold m. rewrite group_by_lookup. destruct (filter (fun x => key x = key d) dtos) eqn:E; [|eauto].
    assert (d ∈ filter (fun x => key x = key d) dtos) as Hin by (by apply list_elem_of_filter). rewrite E in Hin. by apply not_elem_of_nil in Hin.
  - change (map snd (range_pairs m)) with ((range_pairs m).*2).
    assert (NoDup (range_pairs m).*1) as Hnd' by (by rewrite range_pairs_fst). clear Eg Hnd.
    assert (forall p, p ∈ range_pairs m -> exists d, d ∈ p.2 /\ key d = p.1) as Hp.
    { intros [k arr] [-> Hne]%Hm. cbn [fst snd]. destruct (filter _ dtos) as [|d l] eqn:E; [done|]. exists d. split; [left|].
      assert (d ∈ filter (fun d => key d = k) dtos) as Hin by (rewrite E; left). by apply list_elem_of_filter in Hin as []. }
    assert (forall k arr d, (k, arr) ∈ range_pairs m -> d ∈ arr -> key d = k) as Hq.
    { intros k arr d [-> _]%Hm Hd. by apply list_elem_of_filter in Hd as []. }
    clear Hm Hkey. induction (range_pairs m) as [|[k arr] ps IH]; csimpl in *; [constructor|]. apply list.NoDup_cons in Hnd' as [Hk Hnd'].
    constructor; [|apply IH; [done | intros; apply Hp; by right | intros; eapply Hq; [by right | done]]].
    intros ([k' arr'] & Ea & Hin)%list_elem_of_fmap. cbn [snd] in Ea. subst arr'. apply Hk. destruct (Hp (k, arr)) as (d & Hd & Ed); [left|].
    cbn [fst snd] in *. apply list_elem_of_fmap. exists (k', arr). split; [|done]. cbn [fst]. rewrite <- Ed. eapply Hq; [by right | done].
  - intros g ([k arr] & -> & [-> Hne]%Hm)%list_elem_of_fmap. cbn [snd]. destruct (filter (fun d => key d = k) dtos) as [|d l] eqn:E; [done|].
    exists d. split; [done|]. rewrite <- E.
    assert (d ∈ filter (fun d => key d = k) dtos) as Hd by (rewrite E; left). apply list_elem_of_filter in Hd as [<- Hd].
    apply filter_ext_elem. intros x Hx. by apply Hkey.
Qed.

(** Messages that have the same key are alike. *)
Definition unmixed {D : Type} (dto : D -> Dto) (dtos : list D) : Prop :=
  forall d d', d ∈ dtos -> d' ∈ dtos -> dto_key (dto d) = dto_key (dto d') -> dto_class (dto d) = dto_class (dto d').

Lemma unmixed_key {D : Type} (dto : D -> Dto) (dtos : list D) :
  unmixed dto dtos -> forall d d', d ∈ dtos -> d' ∈ dtos -> dto_key (dto d) = dto_key (dto d') <-> dto_class (dto d) = dto_class (dto d').
Proof. intros Hu d d' Hd Hd'. split; [by apply Hu|]. unfold dto_class, dto_key. by intros [= -> -> -> ->]. Qed.

(** A loop that pushes one message per group. *)
Lemma fold_push {S G M : Type} (q : S -> redis_list M) (push : M -> S -> S) (msg : G -> option M) (l : list (string * G)) (st : S) :
  (forall m st, q (push m st) = Some m :: q st) ->
  q (fold_left (fun st '(_, g) => match msg g with Some m => push m st | None => st end) l st) = map Some (reverse (omap msg (map snd l))) ++ q st.
Proof.
  intros Hpush. revert st. induction l as [|[k g] l IH]; intros st; [done|]. cbn [fold_left map snd]. rewrite IH. csimpl.
  destruct (msg g) as [m|]; [|done]. rewrite Hpush, reverse_cons, map_app, <- app_assoc. done.
Qed.

Section CombineProofs.
Context `{MapRange} (Dashboard : string).

(** Combining loses nothing and mixes nobody's messages: when waiting messages
    with the same key are alike, each of the three combiners takes what waited in
    its list and writes one message per class (priority, status, receiver, metric),
    to that receiver; a message that is alone in its class is passed on unchanged.
    Every message taken is in exactly one class, in order of arrival. *)
Theorem combine_correct link n st :
  let sms := snd (popAll n (UserSmsQueue st)) in
  let ims := snd (popAll n (UserIMQueue st)) in
  let mails := snd (popAll n (UserMailQueue st)) in
  unmixed (fun d => d) sms -> unmixed (fun d => d) ims -> unmixed MailDto_dto mails ->
  (exists groups, split_alike dto_class sms groups /\
    SmsQueue (combineSms Dashboard link n st) = map Some (reverse (omap (group_message Dashboard link) groups)) ++ SmsQueue st) /\
  (exists groups, split_alike dto_class ims groups /\
    IMQueue (combineIM Dashboard link n st) = map Some (reverse (omap (group_message Dashboard link) groups)) ++ IMQueue st) /\
  (exists groups, split_alike (fun d => dto_class (MailDto_dto d)) mails groups /\
    MailQueue (combineMail n st) = map Some (reverse (omap group_mail groups)) ++ MailQueue st) /\
  (forall d arr, head arr = Some d -> exists m, group_message Dashboard link arr = Some m /\ Tos m = Dto_To d) /\
  (forall d, group_message Dashboard link [d] = Some (mkMessage (Dto_To d) (Dto_Content d))).
Proof using Type.
  intros sms ims mails Hs Hi Hm. split; [|split; [|split; [|split]]].
  - exists (map snd (range_pairs (group_by dto_key sms))). split; [apply group_by_groups, (unmixed_key (fun d => d)), Hs|].
    unfold combineSms, popAllSmsDto. subst sms. destruct (popAll n (UserSmsQueue st)) as [q dtos]. cbn [snd].
    by rewrite (fold_push SmsQueue (fun m => WriteSms [Tos m] (Message_Content m))) by (by intros [] ?).
  - exists (map snd (range_pairs (group_by dto_key ims))). split; [apply group_by_groups, (unmixed_key (fun d => d)), Hi|].
    unfold combineIM, popAllImDto. subst ims. destruct (popAll n (UserIMQueue st)) as [q dtos]. cbn [snd].
    by rewrite (fold_push IMQueue (fun m => WriteIM [Tos m] (Message_Content m))) by (by intros [] ?).
  - exists (map snd (range_pairs (group_by (fun d => dto_key (MailDto_dto d)) mails))). split; [apply group_by_groups, (unmixed_key MailDto_dto), Hm|].
    unfold combineMail, popAllMailDto. subst mails. destruct (popAll n (UserMailQueue st)) as [q dtos]. cbn [snd].
    by rewrite (fold_push MailQueue (fun m => WriteMail [Mail_Tos m] (Mail_Subject m) (Mail_Content m))) by (by intros [] ?).
  - intros d [|d' [|d'' arr]]; [done| |]; intros [= ->]; by eexists.
  - done.
Qed.
End CombineProofs.

(** * Cases *)

(** The event the judge built for a strategy with its template, or for an expression. *)
Definition event_wf (e : Event) : Prop :=
  (exists s t, Event_Strategy e = Some s /\ Strategy_Tpl s = Some t /\ Event_Expression e = None)
  \/ (exists x, Event_Strategy e = None /\ Event_Expression e = Some x).

Definition db_works (now : Z) : db_faults := mkDbFaults true true true now.

(** The fields of a case that follow its events, newest first, each with the time
    of the database when it was stored. *)
Definition case_follows (l : list (Event * Z)) (c : EventCase) : Prop :=
  exists e now older, l = (e, now) :: older /\ Case_Status c = Event_Status e /\ Case_CurrentStep c = Event_CurrentStep e /\
    Case_UpdateAt c = Event_EventTime e /\ Case_Timestamp c = if Event_CurrentStep e =? 1 then Event_EventTime e else now.

Definition row_of (e : Event) (cond : f64 * string * f64) : EventRow :=
  mkEventRow (Event_Id e) (Event_CurrentStep e) cond (if bool_decide (Event_Status e = "OK") then 1 else 0) (Event_EventTime e).

(** One event with a working database: its case exists afterwards, the others are
    as before, and it has a row. *)
Lemma InsertEvent_spec e now st :
  event_wf e ->
  exists st' c cond, InsertEvent (db_works now) e st = Ok st' /\ EventCases st' = <[Event_Id e := c]> (EventCases st) /\
    EventRows st' = EventRows st ++ [row_of e cond] /\
    Case_Status c = Event_Status e /\ Case_CurrentStep c = Event_CurrentStep e /\ Case_UpdateAt c = Event_EventTime e /\
    match EventCases st !! Event_Id e with
    | None => Case_Timestamp c = Event_EventTime e
    | Some old => Case_CurrentStep old <> Event_CurrentStep e \/ Event_CurrentStep e = 1 ->
        Case_Timestamp c = if Event_CurrentStep e =? 1 then Event_EventTime e else now
    end.
Proof.
  intros Hwf. unfold InsertEvent, write_case, select_case, insertEvent, event_cond, Event_Metric, Event_Func, Event_Operator, Event_RightValue, Event_Note, Event_MaxStep,
    Event_Priority, Event_either, Event_TplId. cbn [select_ok case_ok event_ok db_works negb andb db_now].
  destruct Hwf as [(s & t & Es & Et & Ex)|(x & Es & Ex)]; rewrite ?Es, ?Ex, ?Et; cbn [rbind];
    (destruct (EventCases st !! Event_Id e) as [c|] eqn:Ec;
      do 3 eexists; (split; [rewrite bool_decide_eq_true_2 by (cbn; rewrite lookup_insert_eq; eauto); reflexivity|]));
    cbn [set_Cases set_Rows EventCases EventRows]; (split; [reflexivity|]); (split; [reflexivity|]); try (repeat split; done);
    unfold on_update; destruct (Z.eqb_spec (Event_CurrentStep e) 1) as [E1|E1]; try (repeat split; done);
    (case_bool_decide as Eq; [|repeat split; done]); (split; [done|]); (split; [done|]); (split; [done|]);
    (intros [Hne|?]; [|done]); destruct Hne; apply (f_equal Case_CurrentStep) in Eq; cbn in Eq; by symmetry.
Qed.

Fixpoint insert_all (l : list (Event * Z)) (st : AlarmState) : result AlarmState :=
  match l with
  | [] => Ok st
  | (e, now) :: l => let! st := InsertEvent (db_works now) e st in insert_all l st
  end.

Lemma insert_all_app l1 l2 st : insert_all (l1 ++ l2) st = let! st' := insert_all l1 st in insert_all l2 st'.
Proof. revert st. induction l1 as [|[e now] l1 IH]; intros st; cbn [app insert_all]; [done|]. destruct (InsertEvent _ e st); cbn [rbind]; auto. Qed.

(** What was stored under an id, newest first. *)
Definition stored (id : string) (l : list (Event * Z)) : list (Event * Z) := reverse (filter (fun p => Event_Id p.1 = id) l).

Lemma stored_snoc id l e now : stored id (l ++ [(e, now)]) = if decide (Event_Id e = id) then (e, now) :: stored id l else stored id l.
Proof.
  unfold stored. rewrite list.filter_app, reverse_app. destruct (decide (Event_Id e = id)).
  - by rewrite list.filter_cons_True, list.filter_nil.
  - by rewrite list.filter_cons_False, list.filter_nil.
Qed.

(** In an alarm history the step always changes, or it is the first one. *)
Lemma history_step e e' h : alarm_history (e :: e' :: h) -> Event_CurrentStep e' <> Event_CurrentStep e \/ Event_CurrentStep e = 1.
Proof. intros Hh. inversion Hh as [|x l Hs _]; subst. inversion Hs; subst; auto. left. lia. Qed.
Lemma history_oldest h e : alarm_history (h ++ [e]) -> Event_CurrentStep e = 1.
Proof.
  induction h as [|x h IH]; cbn [app]; intros Hh; inversion Hh as [|x' l' Hs Hh']; subst; [by inversion Hs | auto].
Qed.
(** What comes after the first alarm of a problem repeats it. *)
Lemma history_repeats e h : alarm_history (e :: h) -> Event_CurrentStep e <> 1 -> is_problem e /\ exists e' h', h = e' :: h' /\ is_problem e'.
Proof.
  intros Hh H1. inversion Hh as [|x l Hs _]; subst. inversion Hs as [| last x m Hl He _ _ _ _ Eh |]; subst; [done| |done].
  destruct h as [|e' h']; [done|]. injection Eh as ->. eauto.
Qed.

(** The case of an id after any sequence of events, from a table without it. *)
Lemma insert_all_spec (l : list (Event * Z)) st :
  Forall (fun p => event_wf p.1) l -> EventCases st = ∅ -> (forall id, alarm_history (stored id l).*1) ->
  exists st', insert_all l st = Ok st' /\
    (forall id, match EventCases st' !! id with Some c => case_follows (stored id l) c | None => stored id l = [] end) /\
    map (fun r => (Row_CaseId r, Row_Step r, Row_Timestamp r)) (EventRows st') =
      map (fun r => (Row_CaseId r, Row_Step r, Row_Timestamp r)) (EventRows st) ++ map (fun p => (Event_Id p.1, Event_CurrentStep p.1, Event_EventTime p.1)) l.
Proof.
  intros Hl E0. induction l as [|[e now] l IH] using rev_ind; intros Hh.
  { exists st. split; [done|]. split; [intros id; by rewrite E0, lookup_empty | by rewrite app_nil_r]. }
  apply Forall_app in Hl as [Hl He]. apply list.Forall_cons_1 in He as [He _]. destruct IH as (st1 & E1 & Hc1 & Hr1); [done| |].
  { intros id. specialize (Hh id). rewrite stored_snoc in Hh. destruct (decide _); [by inversion Hh | done]. }
  destruct (InsertEvent_spec e now st1 He) as (st2 & c & cond & E2 & Hcases & Hrows & Hs & Hst & Hup & Hts).
  exists st2. split; [rewrite insert_all_app, E1; cbn [rbind insert_all]; by rewrite E2|]. split.
  - intros id. rewrite Hcases, stored_snoc. specialize (Hh id). rewrite stored_snoc in Hh. specialize (Hc1 id).
    destruct (decide (Event_Id e = id)) as [<-|Hne]; [rewrite lookup_insert_eq | by rewrite lookup_insert_ne].
    cbn [list_fmap fmap fst] in Hh. exists e, now, (stored (Event_Id e) l). split; [done|]. split; [done|]. split; [done|]. split; [done|].
    destruct (EventCases st1 !! Event_Id e) as [old|].
    + apply Hts. destruct Hc1 as (e' & now' & older & Eo & _ & Hstep & _). rewrite Eo in Hh. cbn in Hh. rewrite Hstep. by eapply history_step.
    + rewrite Hc1 in Hh. cbn in Hh. rewrite Hts, (history_oldest [] e Hh). done.
  - rewrite Hrows, map_app, Hr1, map_app, <- app_assoc. done.
Qed.

(** C24. The cases of the database follow the alarms of the judge. When the events of
    any number of rules are stored one after the other, interleaved in any way, from
    an empty table, no statement fails and no user writes to the cases in between,
    storing never panics, gives every event its row in order, and leaves the case of
    a rule with the status, step and time of its newest event. Right after the first
    alarm of a problem, and after a recovery, the case starts at the time of that
    event. It does not stay there: the column of the start is one the database
    updates by itself, so that a repeated alarm, which does not set it, moves the
    start to the time at which it is stored; the alarm before it is of the same
    problem. *)
Theorem cases_follow_alarms l st :
  Forall (fun p => event_wf p.1) l -> EventCases st = ∅ -> (forall id, alarm_history (stored id l).*1) ->
  exists st', insert_all l st = Ok st' /\
    map (fun r => (Row_CaseId r, Row_Step r, Row_Timestamp r)) (EventRows st') =
      map (fun r => (Row_CaseId r, Row_Step r, Row_Timestamp r)) (EventRows st) ++ map (fun p => (Event_Id p.1, Event_CurrentStep p.1, Event_EventTime p.1)) l /\
    (forall id, EventCases st' !! id = None <-> stored id l = []) /\
    forall id newest now older, stored id l = (newest, now) :: older ->
      exists c, EventCases st' !! id = Some c /\ Case_Status c = Event_Status newest /\ Case_CurrentStep c = Event_CurrentStep newest /\
        Case_UpdateAt c = Event_EventTime newest /\
        (Event_CurrentStep newest = 1 -> Case_Timestamp c = Event_EventTime newest) /\
        (Event_CurrentStep newest <> 1 -> Case_Timestamp c = now /\ is_problem newest /\
          exists last before rest, older = (last, before) :: rest /\ is_problem last).
Proof.
  intros Hl E0 Hh. destruct (insert_all_spec l st Hl E0 Hh) as (st' & E & Hc & Hr). exists st'. split; [done|]. split; [done|]. split.
  { intros id. specialize (Hc id). destruct (EventCases st' !! id) as [c|]; [|tauto]. split; [done|]. intros E'.
    destruct Hc as (? & ? & ? & ? & _). congruence. }
  intros id newest now older Eh. specialize (Hc id). specialize (Hh id). rewrite Eh in Hc, Hh.
  destruct (EventCases st' !! id) as [c|]; [|done]. exists c. split; [done|].
  destruct Hc as (e0 & now0 & older0 & [= <- <- <-] & Hs & Hst & Hup & Ht).
  split; [done|]. split; [done|]. split; [done|]. split; intros H1; rewrite Ht; [by rewrite H1|].
  rewrite (proj2 (Z.eqb_neq _ _)) by done. split; [done|]. destruct (history_repeats newest older.*1 Hh H1) as (Hp & e' & h' & Eo & Hp').
  split; [done|]. destruct older as [|[last before] rest]; [done|]. injection Eo as -> _. by exists e', before, rest.
Qed.

(** * Delivery *)

(** The users of a team: as the API answers, else as last answered. *)
Definition team_users (curl : string -> option (list User)) (st : AlarmState) (team : string) : list User :=
  match curl team with Some users => users | None => default [] (Users st !! team) end.
Definition teams_users (curl : string -> option (list User)) (st : AlarmState) (teams : string) : list User :=
  filter (fun t => t <> "") (strings_Split teams ",") ≫= team_users curl st.
Definition by_name (users : list User) : gmap string User := fold_left (fun (m : gmap string User) u => <[User_Name u := u]> m) users ∅.

Lemma GetUsers_spec curl teams st :
  exists m, fst (GetUsers curl teams st) = set_Users m st /\ (forall team, team_users curl (set_Users m st) team = team_users curl st team) /\
    snd (GetUsers curl teams st) = by_name (teams_users curl st teams).
Proof.
  unfold GetUsers, teams_users, by_name. generalize (strings_Split teams ",") as l. intros l.
  set (step := fun '(st, userMap) team => _).
  assert (forall l m acc, (forall team, team_users curl (set_Users m st) team = team_users curl st team) ->
    exists m', fst (fold_left step l (set_Users m st, acc)) = set_Users m' st /\ (forall team, team_users curl (set_Users m' st) team = team_users curl st team) /\
      snd (fold_left step l (set_Users m st, acc)) =
        fold_left (fun (m : gmap string User) u => <[User_Name u := u]> m) (filter (fun t => t <> "") l ≫= team_users curl st) acc) as Hgen.
  { clear l. intros l. induction l as [|t l IH]; intros m acc Hm; cbn [fold_left]; [by exists m|].
    unfold step at 2 4. rewrite list.filter_cons. destruct (decide (t = "")) as [->|Ht].
    - rewrite bool_decide_eq_true_2, decide_False by naive_solver. apply IH. done.
    - rewrite bool_decide_eq_false_2, decide_True by done. csimpl. rewrite fold_left_app. unfold UsersOf. rewrite bool_decide_eq_false_2 by done.
      destruct (curl t) as [us|] eqn:Ec.
      + assert (team_users curl st t = us) as -> by (unfold team_users; by rewrite Ec).
        apply (IH (<[t := us]> m)). intros team. rewrite <- Hm. unfold team_users. cbn [Users set_Users].
        destruct (decide (t = team)) as [->|Hne]; [by rewrite Ec | by rewrite lookup_insert_ne].
      + assert (team_users curl st t = default [] (m !! t)) as -> by (rewrite <- Hm; unfold team_users; by rewrite Ec).
        cbn [Users set_Users]. destruct (m !! t) as [us|]; cbn [default fold_left]; by apply IH. }
  destruct (Hgen l (Users st) ∅) as (m' & H1 & H2 & H3); [done|]. assert (set_Users (Users st) st = st) as Est by (by destruct st).
  rewrite Est in H1, H3. by exists m'.
Qed.

Section Delivery.
Context `{MapRange, NSet} (Dashboard : string) (UnixTsFormat : Z -> string).

Lemma event_texts e :
  event_wf e -> exists prio metric sms mail, Event_Priority e = Ok prio /\ Event_Metric e = Ok metric /\
    GenerateSmsContent UnixTsFormat e = Ok sms /\ GenerateMailContent Dashboard UnixTsFormat e = Ok mail.
Proof using Type.
  intros Hwf. unfold GenerateSmsContent, GenerateMailContent, BuildCommonSMSContent, BuildCommonMailContent, Link, Event_Metric, Event_Func, Event_Operator,
    Event_RightValue, Event_Note, Event_MaxStep, Event_Priority, Event_either, Event_TplId.
  destruct Hwf as [(s & t & Es & Et & Ex)|(x & Es & Ex)]; rewrite ?Es, ?Ex, ?Et; cbn [rbind]; repeat case_match; cbn [rbind]; do 4 eexists; repeat split.
Qed.

Lemma fold_lpush {S D : Type} (q : S -> redis_list D) (push : User -> S -> S) (d : User -> D) (l : list (string * User)) (st : S) :
  (forall u st, q (push u st) = Some (d u) :: q st) ->
  q (fold_left (fun st p => push (snd p) st) l st) = map Some (reverse (map d (map snd l))) ++ q st.
Proof using Type.
  intros Hpush. revert st. induction l as [|p l IH]; intros st; [done|]. cbn [fold_left map]. rewrite IH, Hpush.
  rewrite reverse_cons, map_app, <- app_assoc. done.
Qed.
Lemma fold_keep {S T : Type} (q : S -> T) (push : User -> S -> S) (l : list (string * User)) (st : S) :
  (forall u st, q (push u st) = q st) -> q (fold_left (fun st p => push (snd p) st) l st) = q st.
Proof using Type. intros Hpush. revert st. induction l as [|p l IH]; intros st; [done|]. cbn [fold_left]. by rewrite IH. Qed.


(** The users of the teams do not depend on what the loops of the channels did. *)
Definition same_users (curl : string -> option (list User)) (st st' : AlarmState) : Prop :=
  forall team, team_users curl st' team = team_users curl st team.
Lemma same_users_teams curl st st' teams : same_users curl st st' -> teams_users curl st' teams = teams_users curl st teams.
Proof using Type. intros Hs. unfold teams_users. induction (filter _ _) as [|t l IH]; csimpl; [done|]. by rewrite Hs, IH. Qed.

Section LowEvent.
Context (env : alarm_env) (e : Event) (action : Action) (prio : Z) (metric sms mail : string).
Context (Hprio : Event_Priority e = Ok prio) (Hmetric : Event_Metric e = Ok metric)
  (Hsms : GenerateSmsContent UnixTsFormat e = Ok sms) (Hmail : GenerateMailContent Dashboard UnixTsFormat e = Ok mail).

Let users st := map snd (range_pairs (by_name (teams_users (env_users env) st (Uic action)))).
Let dto content (f : User -> string) u := mkDto prio metric content (f u) (Event_Status e).

Lemma ParseUserSms_spec st :
  exists st', ParseUserSms UnixTsFormat env e action st = Ok st' /\ same_users (env_users env) st st' /\
    UserSmsQueue st' = map Some (reverse (map (dto sms Phone) (users st))) ++ UserSmsQueue st /\
    UserIMQueue st' = UserIMQueue st /\ UserMailQueue st' = UserMailQueue st.
Proof using Hprio Hmetric Hsms.
  unfold ParseUserSms. destruct (GetUsers_spec (env_users env) (Uic action) st) as (m & E1 & Hm & E2).
  destruct (GetUsers _ _ st) as [st1 um]. cbn [fst snd] in *. subst st1 um. rewrite Hsms, Hmetric, Hprio. cbn [rbind].
  eexists. split; [done|].
  set (push := fun u st => set_UserSms (LPUSH (mkDto prio metric sms (Phone u) (Event_Status e)) (UserSmsQueue st)) st).
  split; [|split; [|split]].
  - intros team. rewrite <- Hm. unfold team_users. by rewrite (fold_keep Users push).
  - by rewrite (fold_lpush UserSmsQueue push (dto sms Phone)).
  - by rewrite (fold_keep UserIMQueue push).
  - by rewrite (fold_keep UserMailQueue push).
Qed.
Lemma ParseUserIm_spec st :
  exists st', ParseUserIm UnixTsFormat env e action st = Ok st' /\ same_users (env_users env) st st' /\
    UserIMQueue st' = map Some (reverse (map (dto sms User_IM) (users st))) ++ UserIMQueue st /\
    UserSmsQueue st' = UserSmsQueue st /\ UserMailQueue st' = UserMailQueue st.
Proof using Hprio Hmetric Hsms.
  unfold ParseUserIm. destruct (GetUsers_spec (env_users env) (Uic action) st) as (m & E1 & Hm & E2).
  destruct (GetUsers _ _ st) as [st1 um]. cbn [fst snd] in *. subst st1 um. unfold GenerateIMContent, BuildCommonIMContent. unfold GenerateSmsContent in Hsms.
  rewrite Hsms, Hmetric, Hprio. cbn [rbind]. eexists. split; [done|].
  set (push := fun u st => set_UserIM (LPUSH (mkDto prio metric sms (User_IM u) (Event_Status e)) (UserIMQueue st)) st).
  split; [|split; [|split]].
  - intros team. rewrite <- Hm. unfold team_users. by rewrite (fold_keep Users push).
  - by rewrite (fold_lpush UserIMQueue push (dto sms User_IM)).
  - by rewrite (fold_keep UserSmsQueue push).
  - by rewrite (fold_keep UserMailQueue push).
Qed.
Lemma ParseUserMail_spec st :
  exists st', ParseUserMail Dashboard UnixTsFormat env e action st = Ok st' /\
    UserMailQueue st' = map Some (reverse (map (fun u => mkMailDto (dto mail Email u) sms) (users st))) ++ UserMailQueue st /\
    UserSmsQueue st' = UserSmsQueue st /\ UserIMQueue st' = UserIMQueue st.
Proof using Hprio Hmetric Hsms Hmail.
  unfold ParseUserMail. destruct (GetUsers_spec (env_users env) (Uic action) st) as (m & E1 & Hm & E2).
  destruct (GetUsers _ _ st) as [st1 um]. cbn [fst snd] in *. subst st1 um. rewrite Hmetric, Hsms, Hmail, Hprio. cbn [rbind]. eexists. split; [done|].
  set (push := fun u st => set_UserMail (LPUSH (mkMailDto (mkDto prio metric mail (Email u) (Event_Status e)) sms) (UserMailQueue st)) st).
  split; [|split].
  - by rewrite (fold_lpush UserMailQueue push (fun u => mkMailDto (dto mail Email u) sms)).
  - by rewrite (fold_keep UserSmsQueue push).
  - by rewrite (fold_keep UserIMQueue push).
Qed.
End LowEvent.

(** C25. An event reaches the users of the teams of its action, each user of that
    name once. At low priority every user gets one entry in the waiting lists of IM
    and mail, and of SMS when the priority is below 3. At high priority one message
    per channel goes to exactly the contacts the users have, and to nobody when none
    has one. The users of a team are those the API answers or, when it does not, those
    it answered last; neither kind of event panics. Redis is assumed to take what is
    pushed: a push that fails is only logged. *)
Theorem event_delivery env e action st :
  event_wf e -> Uic action <> "" ->
  let users := by_name (teams_users (env_users env) st (Uic action)) in
  let us := map snd (range_pairs users) in
  exists prio metric sms mail, Event_Priority e = Ok prio /\ Event_Metric e = Ok metric /\
    (exists st', consumeLowEvents Dashboard UnixTsFormat env e action st = Ok st' /\
      UserSmsQueue st' = (if prio <? 3 then map Some (reverse (map (fun u => mkDto prio metric sms (Phone u) (Event_Status e)) us)) else []) ++ UserSmsQueue st /\
      UserIMQueue st' = map Some (reverse (map (fun u => mkDto prio metric sms (User_IM u) (Event_Status e)) us)) ++ UserIMQueue st /\
      UserMailQueue st' = map Some (reverse (map (fun u => mkMailDto (mkDto prio metric mail (Email u) (Event_Status e)) sms) us)) ++ UserMailQueue st) /\
    (exists st' phones mails ims, consumeHighEvents Dashboard UnixTsFormat env e action st = Ok st' /\
      (forall p, p ∈ phones <-> p <> "" /\ exists name u, users !! name = Some u /\ Phone u = p) /\
      (forall p, p ∈ mails <-> p <> "" /\ exists name u, users !! name = Some u /\ Email u = p) /\
      (forall p, p ∈ ims <-> p <> "" /\ exists name u, users !! name = Some u /\ User_IM u = p) /\
      SmsQueue st' = (if (prio <? 3) && negb (bool_decide (phones = [])) then [Some (mkMessage (strings_Join phones ",") sms)] else []) ++ SmsQueue st /\
      IMQueue st' = (if bool_decide (ims = []) then [] else [Some (mkMessage (strings_Join ims ",") sms)]) ++ IMQueue st /\
      MailQueue st' = (if bool_decide (mails = []) then [] else [Some (mkMail (strings_Join mails ",") sms mail)]) ++ MailQueue st).
Proof using Type.
  intros Hwf Hu users us. destruct (event_texts e Hwf) as (prio & metric & sms & mail & Hp & Hm & Hs & Hma).
  exists prio, metric, sms, mail. split; [done|]. split; [done|]. split.
  - unfold consumeLowEvents. rewrite bool_decide_eq_false_2, Hp by done. cbn [rbind].
    assert (exists st1, (if prio <? 3 then ParseUserSms UnixTsFormat env e action st else Ok st) = Ok st1 /\ same_users (env_users env) st st1 /\
      UserSmsQueue st1 = (if prio <? 3 then map Some (reverse (map (fun u => mkDto prio metric sms (Phone u) (Event_Status e)) us)) else []) ++ UserSmsQueue st /\
      UserIMQueue st1 = UserIMQueue st /\ UserMailQueue st1 = UserMailQueue st) as (st1 & -> & Hu1 & Q1 & Q2 & Q3).
    { destruct (prio <? 3); [|by exists st]. by apply ParseUserSms_spec. }
    cbn [rbind]. destruct (ParseUserIm_spec env e action prio metric sms Hp Hm Hs st1) as (st2 & -> & Hu2 & R1 & R2 & R3). cbn [rbind].
    destruct (ParseUserMail_spec env e action prio metric sms mail Hp Hm Hs Hma st2) as (st3 & -> & T1 & T2 & T3).
    rewrite (same_users_teams _ _ _ _ Hu1) in R1. rewrite (same_users_teams _ _ _ _ Hu2), (same_users_teams _ _ _ _ Hu1) in T1.
    exists st3. split; [done|]. by rewrite T2, R2, Q1, T3, R1, Q2, T1, R3, Q3.
  - unfold consumeHighEvents. rewrite bool_decide_eq_false_2 by done. unfold ParseTeams. rewrite bool_decide_eq_false_2 by done.
    destruct (GetUsers_spec (env_users env) (Uic action) st) as (m & E1 & _ & E2).
    destruct (GetUsers _ _ st) as [st1 um]. cbn [fst snd] in *. subst st1 um. rewrite Hs, Hma. cbn [rbind].
    unfold GenerateIMContent, BuildCommonIMContent. unfold GenerateSmsContent in Hs. rewrite Hs, Hp. cbn [rbind]. fold users.
    assert (forall f p, p ∈ set_ToSlice (filter (fun s => s <> "") (map (fun q : string * User => f (snd q)) (range_pairs users)))
      <-> p <> "" /\ exists name u, users !! name = Some u /\ f u = p) as Hset.
    { intros f p. rewrite set_ToSlice_elem, list_elem_of_filter, list_elem_of_fmap. split.
      - intros (Hne & [n u] & -> & Hin%elem_of_range_pairs). eauto.
      - intros (Hne & n & u & Hin & <-). split; [done|]. exists (n, u). by rewrite elem_of_range_pairs. }
    do 4 eexists. split; [done|]. split; [apply Hset|]. split; [apply Hset|]. split; [apply Hset|].
    repeat match goal with |- context [set_ToSlice ?l] => destruct (set_ToSlice l) end; by destruct (prio <? 3).
Qed.
End Delivery.

(** * Examples *)

Definition empty_alarm : AlarmState := mkAlarmState ∅ ∅ [] [] [] [] [] [] ∅ [].
Definition sample_tpl : Template := mkTemplate 3 "web" 0 4 "ann".
Definition sample_strategy : Strategy := mkStrategy 9 "load" ∅ "all(#3)" ">" (f64_lit 10 0) 3 3 "high load" (Some sample_tpl).
Definition alarm_event (status : string) (step ts : Z) : Event :=
  mkEvent "s_9_x" (Some sample_strategy) None status "h1" (f64_lit 12 0) step ts ∅.
Definition sample_env : alarm_env :=
  mkAlarmEnv (fun _ => None) (fun team => if bool_decide (team = "ops") then Some [mkUser "ann" "555" "ann@x" "im-ann"; mkUser "bob" "" "bob@x" ""] else None) (fun _ => ("", None)).
Definition ops_action : Action := mkAction 4 "ops" "" 0 0 0 0 0.

(** The key joins receiver and metric without a separator: the message for the phone
    [13] about [9.load] goes to the phone [139], whose metric is [.load]. *)
Example mixed_receivers :
  let d to metric := mkDto 0 metric "text" to "OK" in
  map Tos (omap (fun x => x) (SmsQueue (combineSms (H := map_range_default) "" (fun _ => None) 10
    (set_UserSms [Some (d "13" "9.load"); Some (d "139" ".load")] empty_alarm)))) = ["139"].
Proof. by vm_compute. Qed.

(** A user without an IM account still gets an entry at low priority. *)
Example blank_receiver :
  match consumeLowEvents (H := map_range_default) "" (fun _ => "") sample_env (alarm_event "PROBLEM" 1 100) ops_action empty_alarm with
  | Ok st => map Dto_To (omap (fun x => x) (UserIMQueue st)) = [""; "im-ann"] \/ map Dto_To (omap (fun x => x) (UserIMQueue st)) = ["im-ann"; ""]
  | Panic _ => False
  end.
Proof. vm_compute. auto. Qed.

Lemma combine_correct_witness :
  exists groups, split_alike dto_class [mkDto 0 "load" "b" "139" "OK"; mkDto 0 "load" "a" "139" "OK"] groups /\
    SmsQueue (combineSms (H := map_range_default) "" (fun _ => None) 10
      (set_UserSms [Some (mkDto 0 "load" "a" "139" "OK"); None; Some (mkDto 0 "load" "b" "139" "OK")] empty_alarm))
    = map Some (reverse (omap (group_message "" (fun _ => None)) groups)) ++ [].
Proof.
  destruct (combine_correct (H := map_range_default) "" (fun _ => None) 10
      (set_UserSms [Some (mkDto 0 "load" "a" "139" "OK"); None; Some (mkDto 0 "load" "b" "139" "OK")] empty_alarm)) as ((groups & Hg & E) & _).
  - match goal with |- unmixed _ ?l => let l' := eval vm_compute in l in change l with l' end.
    intros d d' Hd Hd' _. rewrite !elem_of_cons, elem_of_nil in Hd, Hd'. by destruct Hd as [->|[->|[]]], Hd' as [->|[->|[]]].
  - intros d d' []%not_elem_of_nil.
  - intros d d' []%not_elem_of_nil.
  - exists groups. split; [exact Hg | exact E].
Defined.

(** An alarm, repeated, recovered and raised again, each stored five seconds later. *)
Definition sample_alarms : list (Event * Z) :=
  [(alarm_event "PROBLEM" 1 100, 105); (alarm_event "PROBLEM" 2 160, 165); (alarm_event "OK" 1 220, 225); (alarm_event "PROBLEM" 1 400, 405);
   (alarm_event "PROBLEM" 2 460, 465)].
Lemma cases_follow_alarms_witness :
  exists st' c, insert_all sample_alarms empty_alarm = Ok st' /\ EventCases st' !! "s_9_x" = Some c /\ Case_Status c = "PROBLEM" /\ Case_Timestamp c = 465.
Proof.
  destruct (cases_follow_alarms sample_alarms empty_alarm) as (st' & E & _ & _ & Hc).
  - unfold sample_alarms. repeat (apply list.Forall_cons_2; [left; do 2 eexists; repeat split|]). constructor.
  - done.
  - intros id. destruct (decide (id = "s_9_x")) as [->|Hne].
    + change (stored _ _) with (reverse sample_alarms). cbn [sample_alarms reverse rev_append].
      change (alarm_history [alarm_event "PROBLEM" 2 460; alarm_event "PROBLEM" 1 400; alarm_event "OK" 1 220; alarm_event "PROBLEM" 2 160; alarm_event "PROBLEM" 1 100]).
      apply history_cons; [eapply (step_again _ _ 3); done || (simpl; lia)|].
      apply history_cons; [eapply (step_raise _ _ 3); done || (simpl; lia)|].
      apply history_cons; [eapply step_recover; done || (simpl; lia)|].
      apply history_cons; [eapply (step_again _ _ 3); done || (simpl; lia)|].
      apply history_cons; [eapply (step_raise _ _ 3); done || (simpl; lia)|]. constructor.
    + assert (stored id sample_alarms = []) as ->; [|constructor].
      unfold stored, sample_alarms. rewrite !list.filter_cons_False by (simpl; congruence). done.
  - destruct (Hc "s_9_x" (alarm_event "PROBLEM" 2 460) 465 (tail (reverse sample_alarms))) as (c & Ec & Es & _ & _ & _ & Ht); [by vm_compute|].
    exists st', c. split; [exact E|]. split; [exact Ec|]. split; [exact Es|]. apply Ht. discriminate.
Defined.

(** The start of a case moves while the problem lasts. *)
Example start_moves :
  map (fun n => match insert_all (take n sample_alarms) empty_alarm with Ok st => Case_Timestamp <$> EventCases st !! "s_9_x" | _ => None end) [1; 2; 3]%nat
  = [Some 100; Some 165; Some 220].
Proof. vm_compute. reflexivity. Qed.

Lemma event_delivery_witness :
  exists st', consumeLowEvents (H := map_range_default) "" (fun _ => "") sample_env (alarm_event "PROBLEM" 1 100) ops_action empty_alarm = Ok st'
    /\ UserSmsQueue st' = [].
Proof.
  destruct (event_delivery (H := map_range_default) (H0 := set_list) "" (fun _ => "") sample_env (alarm_event "PROBLEM" 1 100) ops_action empty_alarm)
    as (prio & metric & sms & mail & Hp & _ & (st' & E & Q & _) & _).
  - left. do 2 eexists. repeat split.
  - done.
  - exists st'. split; [exact E|]. rewrite Q. injection Hp as <-. reflexivity.
Defined.
