(* ===== verification/AlarmSend.v ===== *)
(** modules/alarm: the senders. One goroutine for each channel pops the messages from redis
    and starts a goroutine for each, at most as many at a time as the channel has workers,
    which posts it to the provider. Readers, writers and workers interleave. *)
From Stdlib Require Import Ascii ZArith.
From stdpp Require Import base list gmap strings numbers relations.
From S2P Require Import Prelude GoString GoFloat GoText Utils Model ThirdParty JudgeEvent Alarm.

Local Open Scope Z_scope.

(** * One channel *)

(** The goroutine of a channel: in [PopAllIM] with the messages it has, or in [SendIMList]
    with the messages it has not started. *)
Inductive phase (T : Type) := Popping (ret : list T) | Sending (L : list T).
Arguments Popping {T} ret.
Arguments Sending {T} L.

(** [tokens]: what is in the worker channel; [workers]: the goroutines that run; [started]:
    all that were started, in order; [posted]: the requests made, in order. *)
Record sender (T : Type) := mkSender { at_phase : phase T; tokens : Z; workers : list T; started : list T; posted : list T }.
Arguments mkSender {T}.
Arguments at_phase {T}.
Arguments tokens {T}.
Arguments workers {T}.
Arguments started {T}.
Arguments posted {T}.
Definition new_sender {T : Type} : sender T := mkSender (Popping []) 0 [] [] [].

(** What happens next: redis answers RPOP or fails, the loop goes on, the [i]th goroutine
    ends. *)
Inductive sender_event := Reply (ok : bool) | Advance | Finish (i : nat).

(** RPOP: the right end of the list. *)
Definition RPOP {T : Type} (q : redis_list T) : redis_list T * option (option T) := (take (length q - 1) q, list.last q).
(** One round of the loop of [PopAllIM], and the test of [ConsumeIM] after it. *)
Definition reply {T : Type} (ok : bool) (q : redis_list T) (ret : list T) : redis_list T * phase T :=
  match (if ok then snd (RPOP q) else None) with
  | None => (q, match ret with [] => Popping [] | _ => Sending ret end)
  | Some None => (fst (RPOP q), Popping ret)
  | Some (Some v) => (fst (RPOP q), Popping (ret ++ [v]))
  end.
(** One round of the loop of [SendIMList]; [None]: the worker channel is full. *)
Definition advance {T : Type} (cap : Z) (s : sender T) (L : list T) : option (sender T) :=
  match L with
  | [] => Some (mkSender (Popping []) (tokens s) (workers s) (started s) (posted s))
  | m :: L => if tokens s <? cap then Some (mkSender (Sending L) (tokens s + 1) (workers s ++ [m]) (started s ++ [m]) (posted s)) else None
  end.
(** [SendIM], which posts whatever the provider answers; [valid]: the test of the address. *)
Definition finish {T : Type} (valid : bool) (i : nat) (s : sender T) : option (sender T) :=
  match workers s !! i with
  | None => None
  | Some m => Some (mkSender (at_phase s) (tokens s - 1) (delete i (workers s)) (started s) (if valid then posted s ++ [m] else posted s))
  end.
Definition sender_step {T : Type} (cap : Z) (valid : bool) (ev : sender_event) (q : redis_list T) (s : sender T) : option (redis_list T * sender T) :=
  match ev, at_phase s with
  | Reply ok, Popping ret => let '(q, ph) := reply ok q ret in Some (q, mkSender ph (tokens s) (workers s) (started s) (posted s))
  | Advance, Sending L => s' ← advance cap s L; Some (q, s')
  | Finish i, _ => s' ← finish valid i s; Some (q, s')
  | _, _ => None
  end.

(** * The three channels *)

Record sender_cfg := mkSenderCfg { Worker_IM : Z; Worker_Sms : Z; Worker_Mail : Z; Api_Sms : string }.
Record office := mkOffice { alarm : AlarmState; im_sender : sender Message; sms_sender : sender Message; mail_sender : sender Mail }.
(** [present]: the configuration has the section of the workers. A negative size panics. *)
Definition InitSenderWorker (present : bool) (cfg : sender_cfg) (st : AlarmState) : result office :=
  if negb present then Panic NilDereference
  else if (Worker_IM cfg <? 0) || (Worker_Sms cfg <? 0) || (Worker_Mail cfg <? 0) then Panic SizeOutOfRange
  else Ok (mkOffice st new_sender new_sender new_sender).

Definition ConsumeIM (cfg : sender_cfg) (ev : sender_event) (o : office) : option office :=
  '(q, s) ← sender_step (Worker_IM cfg) true ev (IMQueue (alarm o)) (im_sender o);
  Some (mkOffice (set_IM q (alarm o)) s (sms_sender o) (mail_sender o)).
(** No letter but those of ASCII has the lower case h, t or p. *)
Definition sms_valid (url : string) : bool := strings_HasPrefix (strings_map lower url) "http".
Definition ConsumeSms (cfg : sender_cfg) (ev : sender_event) (o : office) : option office :=
  '(q, s) ← sender_step (Worker_Sms cfg) (sms_valid (Api_Sms cfg)) ev (SmsQueue (alarm o)) (sms_sender o);
  Some (mkOffice (set_Sms q (alarm o)) (im_sender o) s (mail_sender o)).
Definition ConsumeMail (cfg : sender_cfg) (ev : sender_event) (o : office) : option office :=
  '(q, s) ← sender_step (Worker_Mail cfg) true ev (MailQueue (alarm o)) (mail_sender o);
  Some (mkOffice (set_Mail q (alarm o)) (im_sender o) (sms_sender o) s).

(** * What one channel does *)

Section Channel.
Context {T : Type} (cap : Z) (valid : bool).
Implicit Types (q : redis_list T) (s : sender T).

Definition waiting (ph : phase T) : list T := match ph with Popping l | Sending l => l end.
(** The messages of a list in redis, in the order in which they were written. *)
Definition in_order q : list T := omap (fun x => x) (reverse q).
(** What is not a message, in redis. *)
Record sender_ok q s (written : list T) : Prop := {
  so_fifo : written = started s ++ waiting (at_phase s) ++ in_order q;
  so_tokens : tokens s = Z.of_nat (length (workers s)) /\ tokens s <= Z.max 0 cap;
  so_posted : exists ended, started s ≡ₚ ended ++ workers s /\ posted s = if valid then ended else [] }.

Lemma in_order_app q q' : in_order (q ++ q') = in_order q' ++ in_order q.
Proof. unfold in_order. by rewrite reverse_app, omap_app. Qed.
Lemma RPOP_nil : RPOP (T := T) [] = ([], None).
Proof. done. Qed.
Lemma RPOP_snoc q x : RPOP (q ++ [x]) = (q, Some x).
Proof. unfold RPOP. rewrite length_app, last_snoc. cbn [length]. rewrite Nat.add_sub. by rewrite take_app_length. Qed.
Lemma new_sender_ok q : sender_ok q new_sender (in_order q).
Proof. split; cbn; [done|split; [done|lia]|exists []; split; [done|by destruct valid]]. Qed.
Lemma sender_ok_push q s w l : sender_ok q s w -> sender_ok (map Some l ++ q) s (w ++ reverse l).
Proof.
  intros [-> Ht Hp]. split; [|done..]. rewrite in_order_app, <-!app_assoc. repeat f_equal. unfold in_order.
  rewrite <-map_reverse || rewrite <-fmap_reverse. induction (reverse l) as [|x r IH]; [done|]. cbn. by f_equal.
Qed.
Lemma sender_step_ok ev q s w q' s' : sender_step cap valid ev q s = Some (q', s') -> sender_ok q s w -> sender_ok q' s' w.
Proof.
  intros E [Hw [Ht Hc] (ended & Hs & Hp)]. unfold sender_step in E. destruct ev as [ok| |i], (at_phase s) as [ret|L] eqn:Eph; try done.
  - unfold reply in E. destruct ok; [destruct q as [|x q _] using rev_ind; [rewrite RPOP_nil in E|rewrite RPOP_snoc in E]|]; cbn [fst snd] in E.
    + injection E as <- <-. split; cbn; [rewrite Hw; by destruct ret|done|by exists ended].
    + rewrite in_order_app in Hw. destruct x as [x|]; injection E as <- <-; (split; cbn; [rewrite Hw; cbn; by rewrite <-?app_assoc|done|by exists ended]).
    + injection E as <- <-. split; cbn; [rewrite Hw; by destruct ret|done|by exists ended].
  - unfold advance in E. destruct L as [|m L]; [|destruct (Z.ltb_spec (tokens s) cap)]; cbn in E; try done; injection E as <- <-.
    + split; cbn; [by rewrite Hw|done|by exists ended].
    + split; cbn; [rewrite Hw; cbn; by rewrite <-!app_assoc|rewrite length_app; cbn; lia|]. exists ended. by rewrite Hs, app_assoc.
  - unfold finish in E. destruct (workers s !! i) as [m|] eqn:Em; cbn in E; [|done]. injection E as <- <-. apply lookup_lt_Some in Em as Hi.
    split; cbn; [by rewrite Hw, Eph|rewrite length_delete by done; lia|]. exists (ended ++ [m]). split; [|rewrite Hp; by destruct valid].
    rewrite Hs, <-app_assoc. f_equiv. cbn. by apply delete_Permutation.
  - unfold finish in E. destruct (workers s !! i) as [m|] eqn:Em; cbn in E; [|done]. injection E as <- <-. apply lookup_lt_Some in Em as Hi.
    split; cbn; [by rewrite Hw, Eph|rewrite length_delete by done; lia|]. exists (ended ++ [m]). split; [|rewrite Hp; by destruct valid].
    rewrite Hs, <-app_assoc. f_equiv. cbn. by apply delete_Permutation.
Qed.

(** What is left to do; every step that changes something does some of it. *)
Definition phase_work (ph : phase T) : nat := match ph with Popping [] => 0 | Popping l => 3 * length l + 2 | Sending l => 3 * length l + 1 end.
Definition left_to_do q s : nat := 6 * length q + phase_work (at_phase s) + length (workers s).
Lemma sender_step_less ev q s q' s' : sender_step cap valid ev q s = Some (q', s') -> (q', s') = (q, s) \/ (left_to_do q' s' < left_to_do q s)%nat.
Proof.
  intros E. unfold sender_step in E. unfold left_to_do. destruct ev as [ok| |i], (at_phase s) as [ret|L] eqn:Eph; try done.
  - unfold reply in E. destruct ok; [destruct q as [|x q _] using rev_ind; [rewrite RPOP_nil in E|rewrite RPOP_snoc in E]|]; cbn [fst snd] in E.
    + injection E as <- <-. destruct ret as [|v ret]; [left; by destruct s; cbn in *; subst|right; cbn; lia].
    + right. rewrite length_app. destruct x as [x|]; injection E as <- <-; destruct ret as [|v ret]; cbn; rewrite ?length_app; cbn; lia.
    + injection E as <- <-. destruct ret as [|v ret]; [left; by destruct s; cbn in *; subst|right; cbn; lia].
  - right. unfold advance in E. destruct L as [|m L]; [|destruct (tokens s <? cap)]; cbn in E; try done; injection E as <- <-; cbn; rewrite ?length_app; cbn; lia.
  - right. unfold finish in E. destruct (workers s !! i) as [m|] eqn:Em; cbn in E; [|done]. injection E as <- <-. apply lookup_lt_Some in Em as Hi.
    cbn [at_phase workers]. rewrite ?Eph, length_delete by done. lia.
  - right. unfold finish in E. destruct (workers s !! i) as [m|] eqn:Em; cbn in E; [|done]. injection E as <- <-. apply lookup_lt_Some in Em as Hi.
    cbn [at_phase workers]. rewrite ?Eph, length_delete by done. lia.
Qed.
(** A channel in which nothing can change has posted every message. *)
Definition next_events : list sender_event := [Reply true; Advance; Finish 0].
Lemma quiet_sent q s w : 0 < cap -> sender_ok q s w ->
  (forall ev, ev ∈ next_events -> forall q' s', sender_step cap valid ev q s = Some (q', s') -> (q', s') = (q, s)) ->
  w = started s /\ workers s = [] /\ posted s ≡ₚ if valid then w else [].
Proof.
  intros Hcap [Hw [Ht Hc] (ended & Hs & Hp)] Hquiet.
  assert (Hwork : workers s = []).
  { destruct (workers s) as [|m l] eqn:Ew; [done|]. destruct (sender_step cap valid (Finish 0) q s) as [[q' s']|] eqn:E.
    - pose proof (Hquiet (Finish 0) ltac:(set_solver) _ _ E) as E'. injection E' as -> ->. exfalso. unfold sender_step, finish in E. rewrite Ew in E. cbn in E.
      destruct (at_phase s); injection E as E; apply (f_equal (fun x => length (workers x))) in E; cbn in E; rewrite Ew in E; cbn in E; lia.
    - unfold sender_step, finish in E. rewrite Ew in E. by destruct (at_phase s). }
  assert (Hph : at_phase s = Popping [] /\ q = []).
  { destruct (at_phase s) as [ret|L] eqn:Eph.
    - destruct (sender_step cap valid (Reply true) q s) as [[q' s']|] eqn:E; [|unfold sender_step in E; rewrite Eph in E; by destruct (reply true q ret)].
      pose proof (Hquiet (Reply true) ltac:(set_solver) _ _ E) as E'. injection E' as -> ->. unfold sender_step in E. rewrite Eph in E. unfold reply in E.
      destruct q as [|x q _] using rev_ind; [rewrite RPOP_nil in E|rewrite RPOP_snoc in E]; cbn [fst snd] in E.
      + injection E as E. destruct ret as [|v ret]; [done|]. apply (f_equal at_phase) in E. cbn in E. congruence.
      + exfalso. destruct x as [x|]; injection E as Eq _; apply (f_equal length) in Eq; rewrite length_app in Eq; cbn in Eq; lia.
    - destruct (sender_step cap valid Advance q s) as [[q' s']|] eqn:E.
      + pose proof (Hquiet Advance ltac:(set_solver) _ _ E) as E'. injection E' as -> ->. unfold sender_step in E. rewrite Eph in E. unfold advance in E.
        destruct L as [|m L]; [|destruct (tokens s <? cap)]; cbn in E; try done; injection E as E; apply (f_equal at_phase) in E; cbn in E; rewrite Eph in E; [done|].
        injection E as E. apply (f_equal length) in E. cbn in E. lia.
      + unfold sender_step in E. rewrite Eph in E. unfold advance in E. rewrite Hwork in Ht. cbn in Ht. destruct L as [|m L]; [done|].
        destruct (Z.ltb_spec (tokens s) cap); [done|lia]. }
  destruct Hph as [Hph ->]. rewrite Hph in Hw. cbn in Hw. rewrite app_nil_r in Hw. split; [done|]. split; [done|]. rewrite Hp. rewrite Hwork, app_nil_r in Hs.
  destruct valid; [by rewrite Hw, Hs|done].
Qed.
End Channel.

(** The reader of a channel alone: [n] replies and then an error are [popAll n]. *)
Fixpoint rpops {T : Type} (n : nat) (q : redis_list T) (ret : list T) : redis_list T * list T :=
  match n with
  | O => (q, ret)
  | S n => match reply true q ret with (q, Popping ret) => rpops n q ret | (q, Sending ret) => (q, ret) end
  end.
Lemma rpops_nil {T : Type} n (ret : list T) : rpops n [] ret = ([], ret).
Proof. induction n as [|n IH]; [done|]. cbn. by destruct ret. Qed.
Lemma rpops_popAll {T : Type} n (q : redis_list T) ret : rpops n q ret = (fst (popAll n q), ret ++ snd (popAll n q)).
Proof.
  revert q ret. induction n as [|n IH]; intros q ret.
  - unfold popAll. cbn [rpops fst snd]. by rewrite Nat.sub_0_r, take_ge, drop_ge, app_nil_r by done.
  - destruct q as [|x q _] using rev_ind; [rewrite rpops_nil; cbn; by rewrite app_nil_r|]. cbn [rpops]. unfold reply. rewrite RPOP_snoc. cbn [fst snd].
    assert (Hpop : popAll (S n) (q ++ [x]) = (fst (popAll n q), omap (fun y => y) [x] ++ snd (popAll n q))).
    { unfold popAll. rewrite length_app. cbn [length fst snd]. replace (length q + 1 - S n)%nat with (length q - n)%nat by lia.
      rewrite take_app_le, drop_app_le by lia. by rewrite reverse_app, omap_app. }
    rewrite Hpop. cbn [fst snd]. destruct x as [x|]; rewrite IH; cbn [omap list_omap app]; by rewrite <-?app_assoc.
Qed.

(** * What is written *)

(** The lists of messages only grow, at their left end. *)
Definition pushed {T : Type} (q q' : redis_list T) : Prop := exists l, q' = map Some l ++ q.
Record pushes (st st' : AlarmState) : Prop := {
  push_sms : pushed (SmsQueue st) (SmsQueue st');
  push_im : pushed (IMQueue st) (IMQueue st');
  push_mail : pushed (MailQueue st) (MailQueue st') }.
#[local] Instance pushed_refl {T : Type} : Reflexive (@pushed T).
Proof. intros q. by exists []. Qed.
#[local] Instance pushed_trans {T : Type} : Transitive (@pushed T).
Proof. intros q1 q2 q3 [l ->] [l' ->]. exists (l' ++ l). by rewrite map_app, <-app_assoc. Qed.
#[local] Instance pushes_refl : Reflexive pushes.
Proof. by split. Qed.
#[local] Instance pushes_trans : Transitive pushes.
Proof. intros st1 st2 st3 [? ? ?] [? ? ?]. split; by etrans. Qed.
Lemma pushes_same st st' : SmsQueue st' = SmsQueue st -> IMQueue st' = IMQueue st -> MailQueue st' = MailQueue st -> pushes st st'.
Proof. intros E1 E2 E3. by split; rewrite ?E1, ?E2, ?E3. Qed.
Lemma WriteSms_pushes tos content st : pushes st (WriteSms tos content st).
Proof. destruct tos; [done|]. split; [|done..]. by exists [mkMessage (strings_Join (s :: tos) ",") content]. Qed.
Lemma WriteIM_pushes tos content st : pushes st (WriteIM tos content st).
Proof. destruct tos; [done|]. split; [done| |done]. by exists [mkMessage (strings_Join (s :: tos) ",") content]. Qed.
Lemma WriteMail_pushes tos subject content st : pushes st (WriteMail tos subject content st).
Proof. destruct tos; [done|]. split; [done|done|]. by exists [mkMail (strings_Join (s :: tos) ",") subject content]. Qed.
Lemma fold_pushes {A : Type} (f : AlarmState -> A -> AlarmState) (l : list A) st : (forall st a, pushes st (f st a)) -> pushes st (fold_left f l st).
Proof. intros Hf. revert st. induction l as [|a l IH]; intros st; [done|]. cbn. etrans; [apply Hf|apply IH]. Qed.
Create HintDb writes.
#[local] Hint Resolve WriteSms_pushes WriteIM_pushes WriteMail_pushes : writes.
#[local] Hint Extern 1 (pushes _ _) => reflexivity : writes.

Lemma pushes_if (b : bool) st st1 st2 : pushes st st1 -> pushes st st2 -> pushes st (if b then st1 else st2).
Proof. by destruct b. Qed.
#[local] Hint Resolve pushes_if : writes.
Lemma pushes_two tos tos' content content' st : pushes st (WriteIM tos content (WriteSms tos' content' st)).
Proof. etrans; [apply WriteSms_pushes|apply WriteIM_pushes]. Qed.
#[local] Hint Resolve pushes_two : writes.

Lemma GetUsers_pushes curl teams st : pushes st (fst (GetUsers curl teams st)).
Proof. destruct (GetUsers_spec curl teams st) as (m & -> & _). by apply pushes_same. Qed.
Lemma ParseTeams_pushes `{MapRange, NSet} curl teams st : pushes st (fst (ParseTeams curl teams st)).
Proof. unfold ParseTeams. pose proof (GetUsers_pushes curl teams st) as Hg. destruct (bool_decide _); [done|]. by destruct (GetUsers curl teams st). Qed.
Lemma GetAction_pushes curl id st : pushes st (fst (GetAction curl id st)).
Proof. unfold GetAction. repeat case_match; cbn; by try apply pushes_same. Qed.

(** Split the binds and tests of a handler that returned. *)
Ltac returned E :=
  repeat match type of E with
    | rbind ?m _ = Ok _ => let x := fresh "x" in destruct m as [x|] eqn:?; cbn [rbind] in E; [|discriminate E]
    | (if ?b then _ else _) = Ok _ => destruct b eqn:?
    | Ok _ = Ok _ => injection E as E; subst
    end.

Section Writes.
Context `{MapRange, NSet} (Dashboard : string) (UnixTsFormat : Z -> string).

Lemma consumeHigh_pushes env e action st st' : consumeHighEvents Dashboard UnixTsFormat env e action st = Ok st' -> pushes st st'.
Proof using Type.
  intros E. unfold consumeHighEvents in E. destruct (bool_decide _); [by injection E as ->|].
  pose proof (ParseTeams_pushes (env_users env) (Uic action) st) as Hp. destruct (ParseTeams _ _ st) as [st1 [[phones mails] ims]]. cbn [fst] in Hp.
  returned E; (etrans; [exact Hp|]; etrans; [|apply WriteMail_pushes]; etrans; [|apply WriteIM_pushes]; auto with writes).
Qed.
Lemma consumeLow_pushes env e action st st' : consumeLowEvents Dashboard UnixTsFormat env e action st = Ok st' -> pushes st st'.
Proof using Type.
  assert (Hsms : forall st st', ParseUserSms UnixTsFormat env e action st = Ok st' -> pushes st st').
  { intros st1 st1' E. unfold ParseUserSms in E. pose proof (GetUsers_pushes (env_users env) (Uic action) st1) as Hp. destruct (GetUsers _ _ st1) as [st2 um]. cbn [fst] in Hp.
    returned E. etrans; [exact Hp|]. apply fold_pushes. intros. by apply pushes_same. }
  assert (Him : forall st st', ParseUserIm UnixTsFormat env e action st = Ok st' -> pushes st st').
  { intros st1 st1' E. unfold ParseUserIm in E. pose proof (GetUsers_pushes (env_users env) (Uic action) st1) as Hp. destruct (GetUsers _ _ st1) as [st2 um]. cbn [fst] in Hp.
    returned E. etrans; [exact Hp|]. apply fold_pushes. intros. by apply pushes_same. }
  assert (Hmail : forall st st', ParseUserMail Dashboard UnixTsFormat env e action st = Ok st' -> pushes st st').
  { intros st1 st1' E. unfold ParseUserMail in E. pose proof (GetUsers_pushes (env_users env) (Uic action) st1) as Hp. destruct (GetUsers _ _ st1) as [st2 um]. cbn [fst] in Hp.
    returned E. etrans; [exact Hp|]. apply fold_pushes. intros. by apply pushes_same. }
  intros E. unfold consumeLowEvents in E. destruct (bool_decide _); [by injection E as ->|]. destruct (Event_Priority e) as [pr|]; [|done]. cbn [rbind] in E.
  destruct (if pr <? 3 then _ else _) as [st1|] eqn:E1; [|done]. cbn [rbind] in E. destruct (ParseUserIm _ _ _ _ _) as [st2|] eqn:E2; [|done]. cbn [rbind] in E.
  etrans; [|by eapply Hmail]. etrans; [|by eapply Him]. destruct (pr <? 3); [by eapply Hsms|by injection E1 as ->].
Qed.
Lemma HandleCallback_pushes env e action st st' : HandleCallback Dashboard UnixTsFormat env e action st = Ok st' -> pushes st st'.
Proof using Type.
  intros E. unfold HandleCallback in E. destruct (bool_decide _) eqn:Et; cbn [rbind] in E.
  { destruct (Callback env e action); [|done]. cbn [rbind] in E. by injection E as ->. }
  pose proof (ParseTeams_pushes (env_users env) (Uic action) st) as Hp. destruct (ParseTeams _ _ st) as [st1 [[phones mails] ims]]. cbn [fst] in Hp.
  destruct (GenerateSmsContent _ e) as [sms|]; [|done]. cbn [rbind] in E. destruct (GenerateMailContent _ _ e) as [mail|]; [|done]. cbn [rbind] in E.
  destruct (GenerateIMContent _ e) as [im|]; [|done]. cbn [rbind] in E. destruct (Callback env e action) as [msg|]; [|done]. cbn [rbind] in E. injection E as <-.
  etrans; [exact Hp|]. etrans; [|apply pushes_if; [apply WriteMail_pushes|reflexivity]]. etrans; [|apply pushes_if; [apply pushes_two|reflexivity]].
  etrans; [|apply pushes_if; [apply WriteMail_pushes|reflexivity]]. auto with writes.
Qed.
Lemma consume_pushes env e isHigh st st' : consume Dashboard UnixTsFormat env e isHigh st = Ok st' -> pushes st st'.
Proof using Type.
  intros E. unfold consume in E. destruct (Event_ActionId e) as [id|]; [|done]. cbn [rbind] in E. destruct (id <=? 0); [by injection E as ->|].
  pose proof (GetAction_pushes (env_action env id) id st) as Hg. destruct (GetAction _ id st) as [st1 [action|]]; cbn [fst] in Hg; [|by injection E as <-].
  destruct (if Callback_flag action =? 1 then _ else _) as [st2|] eqn:E2; [|done]. cbn [rbind] in E. etrans; [exact Hg|].
  etrans; [|destruct isHigh; [by eapply consumeHigh_pushes|by eapply consumeLow_pushes]]. destruct (_ =? _); [by eapply HandleCallback_pushes|by injection E2 as ->].
Qed.
Lemma combine_pushes link n st : pushes st (combineSms Dashboard link n st) /\ pushes st (combineIM Dashboard link n st) /\ pushes st (combineMail n st).
Proof using Type.
  split; [|split].
  - unfold combineSms, popAllSmsDto. destruct (popAll n _) as [q dtos]. etrans; [|apply fold_pushes; intros st1 [? arr]; case_match; auto with writes]. by apply pushes_same.
  - unfold combineIM, popAllImDto. destruct (popAll n _) as [q dtos]. etrans; [|apply fold_pushes; intros st1 [? arr]; case_match; auto with writes]. by apply pushes_same.
  - unfold combineMail, popAllMailDto. destruct (popAll n _) as [q dtos]. etrans; [|apply fold_pushes; intros st1 [? arr]; case_match; auto with writes]. by apply pushes_same.
Qed.
End Writes.

(** * The service *)

Section Office.
Context `{MapRange, NSet} (Dashboard : string) (UnixTsFormat : Z -> string) (cfg : sender_cfg).

(** What the goroutines that read events and combine messages do. *)
Inductive alarm_step (st : AlarmState) : AlarmState -> Prop :=
  | step_consume env e isHigh st' : consume Dashboard UnixTsFormat env e isHigh st = Ok st' -> alarm_step st st'
  | step_combineSms link n : alarm_step st (combineSms Dashboard link n st)
  | step_combineIM link n : alarm_step st (combineIM Dashboard link n st)
  | step_combineMail n : alarm_step st (combineMail n st).
(** What the senders do. *)
Inductive send_step (o : office) : office -> Prop :=
  | step_im ev o' : ConsumeIM cfg ev o = Some o' -> send_step o o'
  | step_sms ev o' : ConsumeSms cfg ev o = Some o' -> send_step o o'
  | step_mail ev o' : ConsumeMail cfg ev o = Some o' -> send_step o o'.
(** The steps that change something: not those that look into an empty list. *)
Definition busy_step (o o' : office) : Prop := send_step o o' /\ o' <> o.

Record letters := mkLetters { l_im : list Message; l_sms : list Message; l_mail : list Mail }.
Definition in_redis (st : AlarmState) : letters := mkLetters (in_order (IMQueue st)) (in_order (SmsQueue st)) (in_order (MailQueue st)).
(** What was put at the left end of a list, in the order in which it was. *)
Definition new_in {T : Type} (q q' : redis_list T) : list T := in_order (take (length q' - length q) q').
Definition add_new (w : letters) (st st' : AlarmState) : letters :=
  mkLetters (l_im w ++ new_in (IMQueue st) (IMQueue st')) (l_sms w ++ new_in (SmsQueue st) (SmsQueue st')) (l_mail w ++ new_in (MailQueue st) (MailQueue st')).
(** The states the service comes to, with the messages written so far. *)
Inductive reaches : office -> letters -> Prop :=
  | reach_start st o : InitSenderWorker true cfg st = Ok o -> reaches o (in_redis st)
  | reach_write o w st' : reaches o w -> alarm_step (alarm o) st' -> reaches (mkOffice st' (im_sender o) (sms_sender o) (mail_sender o)) (add_new w (alarm o) st')
  | reach_send o w o' : reaches o w -> send_step o o' -> reaches o' w.

Record office_ok (o : office) (w : letters) : Prop := {
  oo_im : sender_ok (Worker_IM cfg) true (IMQueue (alarm o)) (im_sender o) (l_im w);
  oo_sms : sender_ok (Worker_Sms cfg) (sms_valid (Api_Sms cfg)) (SmsQueue (alarm o)) (sms_sender o) (l_sms w);
  oo_mail : sender_ok (Worker_Mail cfg) true (MailQueue (alarm o)) (mail_sender o) (l_mail w) }.

Lemma pushed_ok {T : Type} cap valid (q q' : redis_list T) s w : pushed q q' -> sender_ok cap valid q s w -> sender_ok cap valid q' s (w ++ new_in q q').
Proof using Type.
  intros [l ->] Hs. assert (new_in q (map Some l ++ q) = reverse l) as ->; [|by apply sender_ok_push].
  unfold new_in. rewrite length_app, Nat.add_sub, take_app_length. unfold in_order. rewrite <-fmap_reverse. induction (reverse l) as [|x r IH]; [done|]. cbn. by f_equal.
Qed.
Lemma alarm_step_pushes st st' : alarm_step st st' -> pushes st st'.
Proof using Type. intros [env e h st1 E|link n|link n|n]; [by eapply consume_pushes|by apply (combine_pushes Dashboard link n)..|by apply (combine_pushes Dashboard (fun _ => None) n)]. Qed.
Lemma send_step_inv o o' : send_step o o' ->
  (exists ev q s, sender_step (Worker_IM cfg) true ev (IMQueue (alarm o)) (im_sender o) = Some (q, s) /\ o' = mkOffice (set_IM q (alarm o)) s (sms_sender o) (mail_sender o))
  \/ (exists ev q s, sender_step (Worker_Sms cfg) (sms_valid (Api_Sms cfg)) ev (SmsQueue (alarm o)) (sms_sender o) = Some (q, s)
        /\ o' = mkOffice (set_Sms q (alarm o)) (im_sender o) s (mail_sender o))
  \/ (exists ev q s, sender_step (Worker_Mail cfg) true ev (MailQueue (alarm o)) (mail_sender o) = Some (q, s)
        /\ o' = mkOffice (set_Mail q (alarm o)) (im_sender o) (sms_sender o) s).
Proof using Type.
  intros [ev o1 E|ev o1 E|ev o1 E]; [left|right; left|right; right]; exists ev;
    unfold ConsumeIM, ConsumeSms, ConsumeMail in E; destruct (sender_step _ _ _ _ _) as [[q s]|]; cbn in E; try done; injection E as <-; by exists q, s.
Qed.
Lemma send_step_ok o o' w : send_step o o' -> office_ok o w -> office_ok o' w.
Proof using Type.
  intros Hs [Hi Hm Hl]. destruct (send_step_inv o o' Hs) as [(ev & q & s & E & ->)|[(ev & q & s & E & ->)|(ev & q & s & E & ->)]]; split; cbn; try done; by eapply sender_step_ok.
Qed.
Lemma reaches_ok o w : reaches o w -> office_ok o w.
Proof using Type.
  induction 1 as [st o E|o w st' _ Hi Hs|o w o' _ Hi Hs].
  - unfold InitSenderWorker in E. cbn [negb] in E. destruct (_ || _); [done|]. injection E as <-. split; apply new_sender_ok.
  - apply alarm_step_pushes in Hs as [P1 P2 P3]. destruct Hi. split; cbn; by apply pushed_ok.
  - by eapply send_step_ok.
Qed.

Definition to_do (o : office) : nat :=
  left_to_do (IMQueue (alarm o)) (im_sender o) + left_to_do (SmsQueue (alarm o)) (sms_sender o) + left_to_do (MailQueue (alarm o)) (mail_sender o).
Lemma busy_less o o' : busy_step o o' -> (to_do o' < to_do o)%nat.
Proof using Type.
  intros [Hs Hne]. unfold to_do.
  destruct (send_step_inv o o' Hs) as [(ev & q & s & E & ->)|[(ev & q & s & E & ->)|(ev & q & s & E & ->)]]; cbn [alarm im_sender sms_sender mail_sender IMQueue SmsQueue MailQueue set_IM set_Sms set_Mail];
    (destruct (sender_step_less _ _ _ _ _ _ _ E) as [E'|]; [|lia]); injection E' as -> ->; destruct Hne; by destruct o as [[] ? ? ?].
Qed.
Lemma busy_bounded o o' n : nsteps busy_step n o o' -> (n + to_do o' <= to_do o)%nat.
Proof using Type. induction 1 as [|n x y z Hs _ IH]; [lia|]. apply busy_less in Hs. lia. Qed.
Definition sent (o : office) (w : letters) : Prop :=
  (started (im_sender o) = l_im w /\ posted (im_sender o) ≡ₚ l_im w) /\ (started (sms_sender o) = l_sms w /\ posted (sms_sender o) ≡ₚ l_sms w)
  /\ (started (mail_sender o) = l_mail w /\ posted (mail_sender o) ≡ₚ l_mail w).
Lemma channel_go {T : Type} cap valid (q : redis_list T) s :
  (exists ev q' s', sender_step cap valid ev q s = Some (q', s') /\ (left_to_do q' s' < left_to_do q s)%nat)
  \/ (forall ev, ev ∈ next_events -> forall q' s', sender_step cap valid ev q s = Some (q', s') -> (q', s') = (q, s)).
Proof using Type.
  assert (Hdec : forall evs : list sender_event, (exists ev q' s', sender_step cap valid ev q s = Some (q', s') /\ (left_to_do q' s' < left_to_do q s)%nat)
    \/ (forall ev, ev ∈ evs -> forall q' s', sender_step cap valid ev q s = Some (q', s') -> (q', s') = (q, s))); [|apply Hdec].
  induction evs as [|ev evs [IH|IH]]; [right; by intros ev ?%not_elem_of_nil|by left|].
  destruct (sender_step cap valid ev q s) as [[q1 s1]|] eqn:E.
  - destruct (sender_step_less _ _ _ _ _ _ _ E) as [E1|Hlt]; [|left; by exists ev, q1, s1]. right. intros ev' [->|Hin]%elem_of_cons q' s'; [congruence|by apply IH].
  - right. intros ev' [->|Hin]%elem_of_cons q' s'; [congruence|by apply IH].
Qed.
(** A busy step is possible, or everything was sent. *)
Lemma busy_or_sent o w : 0 < Worker_IM cfg -> 0 < Worker_Sms cfg -> 0 < Worker_Mail cfg -> sms_valid (Api_Sms cfg) = true -> office_ok o w -> red busy_step o \/ sent o w.
Proof using Type.
  intros H1 H2 H3 Hv [Oi Os Om].
  assert (Hless : forall o', send_step o o' -> (to_do o' < to_do o)%nat -> red busy_step o).
  { intros o' Hs Hlt. exists o'. split; [done|]. intros ->. lia. }
  destruct (channel_go (Worker_IM cfg) true (IMQueue (alarm o)) (im_sender o)) as [(ev & q & s & E & Hlt)|Qi].
  { left. apply (Hless (mkOffice (set_IM q (alarm o)) s (sms_sender o) (mail_sender o))); [apply (step_im _ ev); unfold ConsumeIM; by rewrite E|].
    unfold to_do. cbn [alarm im_sender sms_sender mail_sender IMQueue SmsQueue MailQueue set_IM set_Sms set_Mail]. lia. }
  destruct (channel_go (Worker_Sms cfg) (sms_valid (Api_Sms cfg)) (SmsQueue (alarm o)) (sms_sender o)) as [(ev & q & s & E & Hlt)|Qs].
  { left. apply (Hless (mkOffice (set_Sms q (alarm o)) (im_sender o) s (mail_sender o))); [apply (step_sms _ ev); unfold ConsumeSms; by rewrite E|].
    unfold to_do. cbn [alarm im_sender sms_sender mail_sender IMQueue SmsQueue MailQueue set_IM set_Sms set_Mail]. lia. }
  destruct (channel_go (Worker_Mail cfg) true (MailQueue (alarm o)) (mail_sender o)) as [(ev & q & s & E & Hlt)|Qm].
  { left. apply (Hless (mkOffice (set_Mail q (alarm o)) (im_sender o) (sms_sender o) s)); [apply (step_mail _ ev); unfold ConsumeMail; by rewrite E|].
    unfold to_do. cbn [alarm im_sender sms_sender mail_sender IMQueue SmsQueue MailQueue set_IM set_Sms set_Mail]. lia. }
  right. destruct (quiet_sent _ _ _ _ _ H1 Oi Qi) as (Ei & _ & Pi), (quiet_sent _ _ _ _ _ H2 Os Qs) as (Es & _ & Ps), (quiet_sent _ _ _ _ _ H3 Om Qm) as (Em & _ & Pm).
  rewrite Hv in Ps. by split_and!.
Qed.
Lemma busy_ok o o' w : rtc busy_step o o' -> office_ok o w -> office_ok o' w.
Proof using Type. induction 1 as [|x y z [Hs _] _ IH]; [done|]. intros Ho. apply IH. by eapply send_step_ok. Qed.
Lemma busy_ends o w : 0 < Worker_IM cfg -> 0 < Worker_Sms cfg -> 0 < Worker_Mail cfg -> sms_valid (Api_Sms cfg) = true -> office_ok o w ->
  exists o', rtc busy_step o o' /\ sent o' w.
Proof using Type.
  intros H1 H2 H3 Hv. remember (to_do o) as n eqn:En. revert o En. induction n as [n IH] using lt_wf_ind. intros o -> Ho.
  destruct (busy_or_sent o w H1 H2 H3 Hv Ho) as [[o1 Hb]|Hs]; [|by exists o]. pose proof Hb as [Hstep _].
  destruct (IH (to_do o1) (busy_less _ _ Hb) o1 eq_refl (send_step_ok _ _ _ Hstep Ho)) as (o' & Hr & Hs). exists o'. split; [|done]. by eapply rtc_l.
Qed.

(** C38. However the goroutines that write messages and those of the three channels interleave,
    the messages of each channel are started in the order in which they were written, none is
    lost or started twice, and no more are under way than the channel has workers, as long as
    redis carries out a command exactly when its reply arrives. While
    nothing new is written, every run of the senders in which redis answers is bounded, and
    when nothing is left to do each message was posted exactly once; such a run exists. *)
Theorem messages_sent o w :
  reaches o w -> 0 < Worker_IM cfg -> 0 < Worker_Sms cfg -> 0 < Worker_Mail cfg -> sms_valid (Api_Sms cfg) = true ->
  office_ok o w /\
  (forall n o', nsteps busy_step n o o' -> (n <= to_do o)%nat) /\
  (forall o', rtc busy_step o o' -> nf busy_step o' -> sent o' w) /\
  (exists o', rtc busy_step o o' /\ sent o' w).
Proof using Type.
  intros Hr H1 H2 H3 Hv. apply reaches_ok in Hr. split; [done|]. split; [|split].
  - intros n o' Hn%busy_bounded. lia.
  - intros o' Hrun Hnf. destruct (busy_or_sent o' w H1 H2 H3 Hv) as [Hred|]; [by eapply busy_ok|by destruct Hnf|done].
  - by apply busy_ends.
Qed.
End Office.

(** * Examples *)

Definition sample_senders : sender_cfg := mkSenderCfg 2 1 2 "HTTP://sms".
Definition two_texts : AlarmState := set_UserSms [Some (mkDto 0 "load" "a" "139" "OK"); None; Some (mkDto 0 "disk" "b" "139" "OK")] empty_alarm.
Definition combined : AlarmState := combineSms (H := map_range_default) "" (fun _ => None) 10 two_texts.
Definition sample_office : office := mkOffice combined new_sender new_sender new_sender.
Definition sample_letters : letters := add_new (in_redis two_texts) two_texts combined.
Lemma sample_reaches : reaches (H := map_range_default) (H0 := set_list) "" (fun _ => "") sample_senders sample_office sample_letters.
Proof.
  apply (reach_write (H := map_range_default) (H0 := set_list) _ _ _ (mkOffice two_texts new_sender new_sender new_sender)); [|by apply (step_combineSms (H := map_range_default))].
  by apply reach_start.
Qed.
Lemma sample_texts : l_sms sample_letters = [mkMessage "139" "a"; mkMessage "139" "b"].
Proof. by vm_compute. Qed.
Lemma messages_sent_witness :
  l_sms sample_letters = [mkMessage "139" "a"; mkMessage "139" "b"] /\ exists o', rtc (busy_step sample_senders) sample_office o' /\ sent o' sample_letters.
Proof.
  split; [exact sample_texts|]. apply (messages_sent (H := map_range_default) (H0 := set_list) "" (fun _ => "") sample_senders sample_office sample_letters); [exact sample_reaches|done..].
Defined.
(** Without workers in the configuration the channel is not buffered, and the goroutine that
    sends waits for ever at the first message. *)
Example no_workers : forall ev q (s : sender Message) m L,
  at_phase s = Sending (m :: L) -> tokens s = 0 -> workers s = [] -> sender_step 0 true ev q s = None.
Proof. intros ev q s m L E1 E2 E3. unfold sender_step, advance, finish. rewrite E1, E2, E3. by destruct ev. Qed.
(** Text messages to a provider without an address are dropped. *)
Example no_provider : sms_valid "sms.example.com" = false.
Proof. by vm_compute. Qed.
