(* ===== verification/AgentFuncs.v ===== *)
(** modules/agent/funcs: the metrics an agent reads from the host. What nux, gonvml
    and the commands answer is an argument; [None] is an error. *)
From Stdlib Require Import Ascii ZArith.
From stdpp Require Import base list gmap strings numbers.
From S2P Require Import Prelude GoString GoFloat GoText GoRegexp Utils Model JsonWire.

Local Open Scope Z_scope.

(** * common.go *)

(** The fields the constructor leaves out have their zero value. *)
Definition NewMetricValue (metric : string) (val : GoValue) (dataType : string) (tags : list string) : MetricValue :=
  mkMetricValue "" metric val 0 dataType (if (0 <? length tags)%nat then strings_Join tags "," else "") 0.
Definition GaugeValue (metric : string) (val : GoValue) (tags : list string) : MetricValue := NewMetricValue metric val "GAUGE" tags.
Definition CounterValue (metric : string) (val : GoValue) (tags : list string) : MetricValue := NewMetricValue metric val "COUNTER" tags.

(** * agent.go, loadavg.go, kernel.go, meminfo.go *)

Definition AgentMetrics : list MetricValue := [GaugeValue "agent.alive" (VInt 1) []].

Record Loadavg := mkLoadavg { Avg1min : f64; Avg5min : f64; Avg15min : f64 }.
Definition LoadAvgMetrics (load : option Loadavg) : list MetricValue :=
  match load with
  | None => []
  | Some load =>
      [GaugeValue "load.1min" (VFloat64 (Avg1min load)) []; GaugeValue "load.5min" (VFloat64 (Avg5min load)) [];
       GaugeValue "load.15min" (VFloat64 (Avg15min load)) []]
  end.

Definition KernelMetrics (KernelMaxFiles KernelMaxProc KernelAllocateFiles : option Z) : list MetricValue :=
  match KernelMaxFiles with
  | None => []
  | Some maxFiles =>
      let L := [GaugeValue "kernel.maxfiles" (VUint64 maxFiles) []] in
      match KernelMaxProc with
      | None => L
      | Some maxProc =>
          let L := L ++ [GaugeValue "kernel.maxproc" (VUint64 maxProc) []] in
          match KernelAllocateFiles with
          | None => L
          | Some allocateFiles =>
              L ++ [GaugeValue "kernel.files.allocated" (VUint64 allocateFiles) [];
                    GaugeValue "kernel.files.left" (VUint64 (u64 (maxFiles - allocateFiles))) []]
          end
      end
  end.

(** The literal [100.0]. *)
Definition hundred : f64 := f64_lit 100 0.
Definition percent (part total : Z) : f64 := f64_div (f64_mul (f64_of_Z part) hundred) (f64_of_Z total).

Record Mem := mkMem {
  Buffers : Z; Cached : Z; MemTotal : Z; MemFree : Z; MemAvailable : Z; SwapTotal : Z; SwapUsed : Z; SwapFree : Z }.
Definition MemMetrics (MemInfo : option Mem) : list MetricValue :=
  match MemInfo with
  | None => []
  | Some m =>
      let memFree := if 0 <? MemAvailable m then MemAvailable m else u64 (MemFree m + Buffers m + Cached m) in
      let memUsed := u64 (MemTotal m - memFree) in
      let '(pmemFree, pmemUsed) :=
        if MemTotal m =? 0 then (f64_zero, f64_zero) else (percent memFree (MemTotal m), percent memUsed (MemTotal m)) in
      let '(pswapFree, pswapUsed) :=
        if SwapTotal m =? 0 then (f64_zero, f64_zero) else (percent (SwapFree m) (SwapTotal m), percent (SwapUsed m) (SwapTotal m)) in
      [GaugeValue "mem.memtotal" (VUint64 (MemTotal m)) []; GaugeValue "mem.memused" (VUint64 memUsed) [];
       GaugeValue "mem.memfree" (VUint64 memFree) []; GaugeValue "mem.swaptotal" (VUint64 (SwapTotal m)) [];
       GaugeValue "mem.swapused" (VUint64 (SwapUsed m)) []; GaugeValue "mem.swapfree" (VUint64 (SwapFree m)) [];
       GaugeValue "mem.memfree.percent" (VFloat64 pmemFree) []; GaugeValue "mem.memused.percent" (VFloat64 pmemUsed) [];
       GaugeValue "mem.swapfree.percent" (VFloat64 pswapFree) []; GaugeValue "mem.swapused.percent" (VFloat64 pswapUsed) []]
  end.

(** * cpustat.go *)

Record CpuUsage := mkCpuUsage {
  User : Z; Nice : Z; System : Z; Idle : Z; Iowait : Z; Irq : Z; SoftIrq : Z; Steal : Z; Guest : Z; Total : Z }.
Record ProcStat := mkProcStat { Cpu : CpuUsage; Ctxt : Z }.

(** The two cells of [procStatHistory]; [None] is nil. *)
Definition cpu_history : Type := option ProcStat * option ProcStat.

Definition UpdateCpuStat (CurrentProcStat : option ProcStat) (h : cpu_history) : cpu_history :=
  match CurrentProcStat with None => h | Some ps => (Some ps, fst h) end.

Definition deltaTotal (h : cpu_history) : result Z :=
  match h with
  | (_, None) => Ok 0
  | (Some a, Some b) => Ok (u64 (Total (Cpu a) - Total (Cpu b)))
  | (None, Some _) => Panic NilDereference
  end.

(** The body the nine functions share, which differ in the field they read. *)
Definition cpu_share (field : CpuUsage -> Z) (h : cpu_history) : result f64 :=
  let! dt := deltaTotal h in
  if dt =? 0 then Ok f64_zero
  else
    let invQuotient := f64_div hundred (f64_of_Z dt) in
    match h with
    | (Some a, Some b) => Ok (f64_mul (f64_of_Z (u64 (field (Cpu a) - field (Cpu b)))) invQuotient)
    | _ => Panic NilDereference
    end.
Definition CpuIdle : cpu_history -> result f64 := cpu_share Idle.
Definition CpuUser : cpu_history -> result f64 := cpu_share User.
Definition CpuNice : cpu_history -> result f64 := cpu_share Nice.
Definition CpuSystem : cpu_history -> result f64 := cpu_share System.
Definition CpuIowait : cpu_history -> result f64 := cpu_share Iowait.
Definition CpuIrq : cpu_history -> result f64 := cpu_share Irq.
Definition CpuSoftIrq : cpu_history -> result f64 := cpu_share SoftIrq.
Definition CpuSteal : cpu_history -> result f64 := cpu_share Steal.
Definition CpuGuest : cpu_history -> result f64 := cpu_share Guest.
Definition CurrentCpuSwitches (h : cpu_history) : result Z :=
  match fst h with Some ps => Ok (Ctxt ps) | None => Panic NilDereference end.
Definition CpuPrepared (h : cpu_history) : bool := match snd h with Some _ => true | None => false end.

Definition CpuMetrics (h : cpu_history) : result (list MetricValue) :=
  if negb (CpuPrepared h) then Ok []
  else
    let! idle := CpuIdle h in
    let! user := CpuUser h in
    let! nice := CpuNice h in
    let! system := CpuSystem h in
    let! iowait := CpuIowait h in
    let! irq := CpuIrq h in
    let! softirq := CpuSoftIrq h in
    let! steal := CpuSteal h in
    let! guest := CpuGuest h in
    let! switches := CurrentCpuSwitches h in
    Ok (map (fun '(name, v) => GaugeValue name (VFloat64 v) [])
          [("cpu.idle", idle); ("cpu.busy", f64_sub hundred idle); ("cpu.user", user); ("cpu.nice", nice);
           ("cpu.system", system); ("cpu.iowait", iowait); ("cpu.irq", irq); ("cpu.softirq", softirq);
           ("cpu.steal", steal); ("cpu.guest", guest)]
        ++ [CounterValue "cpu.switches" (VUint64 switches) []]).

(** * diskstats.go *)

Record DiskStats := mkDiskStats {
  Device : string;
  ReadRequests : Z; ReadMerged : Z; ReadSectors : Z; MsecRead : Z;
  WriteRequests : Z; WriteMerged : Z; WriteSectors : Z; MsecWrite : Z;
  IosInProgress : Z; MsecTotal : Z; MsecWeightedTotal : Z;
  (** when it was read, in nanoseconds *)
  DiskStats_TS : Z }.

(** The pair of samples of each device, the newer first. *)
Definition disk_history : Type := gmap string (DiskStats * option DiskStats).

Definition UpdateDiskStats (ListDiskStats : option (list DiskStats)) (m : disk_history) : disk_history :=
  match ListDiskStats with
  | None => m
  | Some dsList => fold_left (fun m ds => <[Device ds := (ds, fst <$> m !! Device ds)]> m) dsList m
  end.

(** The functions given to [IODelta], on a pair of two samples. *)
Definition io_field (field : DiskStats -> Z) (arr : DiskStats * DiskStats) : Z := u64 (field (fst arr) - field (snd arr)).
Definition IOReadRequests := io_field ReadRequests.
Definition IOReadMerged := io_field ReadMerged.
Definition IOReadSectors := io_field ReadSectors.
Definition IOMsecRead := io_field MsecRead.
Definition IOWriteRequests := io_field WriteRequests.
Definition IOWriteMerged := io_field WriteMerged.
Definition IOWriteSectors := io_field WriteSectors.
Definition IOMsecWrite := io_field MsecWrite.
Definition IOMsecTotal := io_field MsecTotal.
Definition IOMsecWeightedTotal := io_field MsecWeightedTotal.
(** [Time.Sub] saturates at the bounds of an int64. *)
Definition time_Sub (a b : Z) : Z := Z.max int64_min (Z.min int64_max (a - b)).
Definition TS (arr : DiskStats * DiskStats) : Z := u64 (Z.quot (time_Sub (DiskStats_TS (fst arr)) (DiskStats_TS (snd arr))) 1000000).

Definition IODelta (m : disk_history) (device : string) (f : DiskStats * DiskStats -> Z) : Z :=
  match m !! device with
  | None => 0
  | Some (_, None) => 0
  | Some (a, Some b) => f (a, b)
  end.

Definition ContainsAny (s chars : string) : bool := negb (str_forall (fun c => negb (str_mem c chars)) s).
Definition ShouldHandleDevice (device : string) : bool :=
  let normal := (str_len device <=? 4) && (strings_HasPrefix device "sd" || strings_HasPrefix device "vd")
                && negb (ContainsAny device "1234") in
  let aws := (4 <=? str_len device) && strings_HasPrefix device "xvd" in
  let flash := (4 <=? str_len device) && (strings_HasPrefix device "fio" || strings_HasPrefix device "nvme") in
  let nbd := (4 <=? str_len device) && strings_HasPrefix device "nbd" in
  normal || aws || flash || nbd.

Definition DiskIOMetrics (ListDiskStats : option (list DiskStats)) : list MetricValue :=
  match ListDiskStats with
  | None => []
  | Some dsList =>
      dsList ≫= fun ds =>
        if negb (ShouldHandleDevice (Device ds)) then []
        else
          let device := "device=" +:+ Device ds in
          map (fun '(name, v) => CounterValue name (VUint64 v) [device])
            [("disk.io.read_requests", ReadRequests ds); ("disk.io.read_merged", ReadMerged ds);
             ("disk.io.read_sectors", ReadSectors ds); ("disk.io.msec_read", MsecRead ds);
             ("disk.io.write_requests", WriteRequests ds); ("disk.io.write_merged", WriteMerged ds);
             ("disk.io.write_sectors", WriteSectors ds); ("disk.io.msec_write", MsecWrite ds);
             ("disk.io.ios_in_progress", IosInProgress ds); ("disk.io.msec_total", MsecTotal ds);
             ("disk.io.msec_weighted_total", MsecWeightedTotal ds)]
  end.

(** The averages per request: size, wait and service time. *)
Definition io_averages (m : disk_history) (device : string) : f64 * f64 * f64 :=
  let rio := IODelta m device IOReadRequests in
  let wio := IODelta m device IOWriteRequests in
  let delta_rsec := IODelta m device IOReadSectors in
  let delta_wsec := IODelta m device IOWriteSectors in
  let ruse := IODelta m device IOMsecRead in
  let wuse := IODelta m device IOMsecWrite in
  let use := IODelta m device IOMsecTotal in
  let n_io := u64 (rio + wio) in
  if n_io =? 0 then (f64_zero, f64_zero, f64_zero)
  else (f64_div (f64_of_Z (u64 (delta_rsec + delta_wsec))) (f64_of_Z n_io),
        f64_div (f64_of_Z (u64 (ruse + wuse))) (f64_of_Z n_io),
        f64_div (f64_of_Z use) (f64_of_Z n_io)).

(** The share of the time the device was busy. *)
Definition io_util (m : disk_history) (device : string) : f64 :=
  let use := IODelta m device IOMsecTotal in
  let duration := IODelta m device TS in
  let tmp := f64_div (f64_mul (f64_of_Z use) hundred) (f64_of_Z duration) in
  if f64_gt tmp hundred then hundred else tmp.

Definition IOStatsMetrics `{MapRange} (m : disk_history) : list MetricValue :=
  range_keys m ≫= fun device =>
    if negb (ShouldHandleDevice device) then []
    else
      let tags := "device=" +:+ device in
      let delta_rsec := IODelta m device IOReadSectors in
      let delta_wsec := IODelta m device IOWriteSectors in
      let '(avgrq_sz, await, svctm) := io_averages m device in
      map (fun '(name, v) => GaugeValue name (VFloat64 v) [tags])
        [("disk.io.read_bytes", f64_mul (f64_of_Z delta_rsec) (f64_lit 512 0));
         ("disk.io.write_bytes", f64_mul (f64_of_Z delta_wsec) (f64_lit 512 0));
         ("disk.io.avgrq_sz", avgrq_sz);
         ("disk.io.avgqu-sz", f64_div (f64_of_Z (IODelta m device IOMsecWeightedTotal)) (f64_lit 1000 0));
         ("disk.io.await", await); ("disk.io.svctm", svctm);
         ("disk.io.util", io_util m device)].

(** The rows of the page: [%d] and [%.2f] as text. *)
Definition IOStatsForPage `{MapRange} (m : disk_history) : list (list string) :=
  range_keys m ≫= fun device =>
    if negb (ShouldHandleDevice device) then []
    else
      let '(avgrq_sz, await, svctm) := io_averages m device in
      let two := f64_format 2 in
      [[device; strconv_Itoa (IODelta m device IOReadMerged); strconv_Itoa (IODelta m device IOWriteMerged);
        strconv_Itoa (IODelta m device IOReadRequests); strconv_Itoa (IODelta m device IOWriteRequests);
        two (f64_div (f64_of_Z (IODelta m device IOReadSectors)) (f64_lit 2 0));
        two (f64_div (f64_of_Z (IODelta m device IOWriteSectors)) (f64_lit 2 0));
        two avgrq_sz; two (f64_div (f64_of_Z (IODelta m device IOMsecWeightedTotal)) (f64_lit 1000 0));
        two await; two svctm; two (f64_div (f64_of_Z (IODelta m device IOMsecTotal)) (f64_lit 10 0)) +:+ "%"]].

(** * ifstat.go *)

Record NetIf := mkNetIf {
  Iface : string;
  InBytes : Z; InPackages : Z; InErrors : Z; InDropped : Z; InFifoErrs : Z; InFrameErrs : Z; InCompressed : Z; InMulticast : Z;
  OutBytes : Z; OutPackages : Z; OutErrors : Z; OutDropped : Z; OutFifoErrs : Z; OutCollisions : Z; OutCarrierErrs : Z; OutCompressed : Z;
  TotalBytes : Z; TotalPackages : Z; TotalErrors : Z; TotalDropped : Z;
  SpeedBits : Z; InPercent : f64; OutPercent : f64 }.

(** The slice is made with 26 cells for each interface, and each is written. *)
Definition CoreNetMetrics (NetIfs : option (list NetIf)) : list MetricValue :=
  match NetIfs with
  | None => []
  | Some netIfs =>
      netIfs ≫= fun netIf =>
        let iface := ["iface=" +:+ Iface netIf] in
        let counter '(name, v) := CounterValue name (VInt64 v) iface in
        map counter
          [("net.if.in.bytes", InBytes netIf); ("net.if.in.packets", InPackages netIf); ("net.if.in.errors", InErrors netIf);
           ("net.if.in.dropped", InDropped netIf); ("net.if.in.fifo.errs", InFifoErrs netIf); ("net.if.in.frame.errs", InFrameErrs netIf);
           ("net.if.in.compressed", InCompressed netIf); ("net.if.in.multicast", InMulticast netIf);
           ("net.if.out.bytes", OutBytes netIf); ("net.if.out.packets", OutPackages netIf); ("net.if.out.errors", OutErrors netIf);
           ("net.if.out.dropped", OutDropped netIf); ("net.if.out.fifo.errs", OutFifoErrs netIf);
           ("net.if.out.collisions", OutCollisions netIf); ("net.if.out.carrier.errs", OutCarrierErrs netIf);
           ("net.if.out.compressed", OutCompressed netIf); ("net.if.total.bytes", TotalBytes netIf);
           ("net.if.total.packets", TotalPackages netIf); ("net.if.total.errors", TotalErrors netIf);
           ("net.if.total.dropped", TotalDropped netIf)]
        ++ [GaugeValue "net.if.speed.bits" (VInt64 (SpeedBits netIf)) iface;
            CounterValue "net.if.in.percent" (VFloat64 (InPercent netIf)) iface;
            CounterValue "net.if.out.percent" (VFloat64 (OutPercent netIf)) iface]
        ++ map counter
          [("net.if.in.bits", i64 (InBytes netIf * 8)); ("net.if.out.bits", i64 (OutBytes netIf * 8));
           ("net.if.total.bits", i64 (TotalBytes netIf * 8))]
  end.

(** * netstat.go, snmp.go, sockstat.go *)

Definition USES : list string :=
  ["PruneCalled"; "LockDroppedIcmps"; "ArpFilter"; "TW"; "DelayedACKLocked"; "ListenOverflows"; "ListenDrops"; "TCPPrequeueDropped";
   "TCPTSReorder"; "TCPDSACKUndo"; "TCPLoss"; "TCPLostRetransmit"; "TCPLossFailures"; "TCPFastRetrans"; "TCPTimeouts";
   "TCPSchedulerFailed"; "TCPAbortOnMemory"; "TCPAbortOnTimeout"; "TCPAbortFailed"; "TCPMemoryPressures"; "TCPSpuriousRTOs";
   "TCPBacklogDrop"; "TCPMinTTLDrop"].

Section Snmp.
Context `{MapRange}.

Definition NetstatMetrics (tcpExts : option (gmap string Z)) : list MetricValue :=
  match tcpExts with
  | None => []
  | Some tcpExts =>
      omap (fun '(key, val) => if bool_decide (key ∈ USES) then Some (CounterValue ("TcpExt." +:+ key) (VUint64 val) []) else None)
        (range_pairs tcpExts)
  end.

Definition UdpMetrics (udp : option (gmap string Z)) : list MetricValue :=
  match udp with
  | None => []
  | Some udp => map (fun '(key, val) => CounterValue ("snmp.Udp." +:+ key) (VInt64 val) []) (range_pairs udp)
  end.

Definition SocketStatSummaryMetrics (ssMap : option (gmap string Z)) : list MetricValue :=
  match ssMap with
  | None => []
  | Some ssMap => map (fun '(k, v) => GaugeValue ("ss." +:+ k) (VUint64 v) []) (range_pairs ssMap)
  end.

End Snmp.

(** * dfstat.go *)

Record DeviceUsage := mkDeviceUsage {
  FsFile : string; FsVfstype : string;
  BlocksAll : Z; BlocksUsed : Z; BlocksFree : Z; BlocksUsedPercent : f64; BlocksFreePercent : f64;
  InodesAll : Z; InodesUsed : Z; InodesFree : Z; InodesUsedPercent : f64; InodesFreePercent : f64 }.

(** One mount point: its metrics, and the bytes it adds to the totals. *)
Definition df_point (du : DeviceUsage) : list MetricValue :=
  let tags := ["mount=" +:+ FsFile du +:+ ",fstype=" +:+ FsVfstype du] in
  [GaugeValue "df.bytes.total" (VUint64 (BlocksAll du)) tags; GaugeValue "df.bytes.used" (VUint64 (BlocksUsed du)) tags;
   GaugeValue "df.bytes.free" (VUint64 (BlocksFree du)) tags;
   GaugeValue "df.bytes.used.percent" (VFloat64 (BlocksUsedPercent du)) tags;
   GaugeValue "df.bytes.free.percent" (VFloat64 (BlocksFreePercent du)) tags]
  ++ (if InodesAll du =? 0 then []
      else [GaugeValue "df.inodes.total" (VUint64 (InodesAll du)) tags; GaugeValue "df.inodes.used" (VUint64 (InodesUsed du)) tags;
            GaugeValue "df.inodes.free" (VUint64 (InodesFree du)) tags;
            GaugeValue "df.inodes.used.percent" (VFloat64 (InodesUsedPercent du)) tags;
            GaugeValue "df.inodes.free.percent" (VFloat64 (InodesFreePercent du)) tags]).

Definition DeviceMetrics (BuildDeviceUsage : string -> string -> string -> option DeviceUsage) (MountPoint : list string)
    (mountPoints : option (list (string * string * string))) : list MetricValue :=
  match mountPoints with
  | None => []
  | Some mountPoints =>
      let '(L, diskTotal, diskUsed) := fold_left (fun '(L, diskTotal, diskUsed) '(fsSpec, fsFile, fsVfstype) =>
        if (0 <? length MountPoint)%nat && negb (bool_decide (fsFile ∈ MountPoint)) then (L, diskTotal, diskUsed)
        else match BuildDeviceUsage fsSpec fsFile fsVfstype with
             | None => (L, diskTotal, diskUsed)
             | Some du =>
                 if BlocksAll du =? 0 then (L, diskTotal, diskUsed)
                 else (L ++ df_point du, u64 (diskTotal + BlocksAll du), u64 (diskUsed + BlocksUsed du))
             end) mountPoints ([], 0, 0) in
      if (0 <? length L)%nat && (0 <? diskTotal) then
        L ++ [GaugeValue "df.statistics.total" (VFloat64 (f64_of_Z diskTotal)) [];
              GaugeValue "df.statistics.used" (VFloat64 (f64_of_Z diskUsed)) [];
              GaugeValue "df.statistics.used.percent" (VFloat64 (percent diskUsed diskTotal)) []]
      else L
  end.
Definition DeviceMetricsCheck (mountPoints : option (list (string * string * string))) : bool :=
  match mountPoints with None => false | Some mountPoints => (0 <? length mountPoints)%nat end.

(** * procs.go, portstat.go *)

Record Proc := mkProc { Proc_Name : string; Proc_Cmdline : string }.

(** The loop only returns false or goes on, so its order does not matter. *)
Definition is_a (p : Proc) (m : gmap Z string) : bool :=
  forallb (fun '(key, val) =>
    if key =? 1 then bool_decide (val = Proc_Name p)
    else if key =? 2 then strings_Contains (Proc_Cmdline p) val
    else true) (map_to_list m).

Definition ProcMetrics `{MapRange} (reportProcs : gmap string (gmap Z string)) (AllProcs : option (list Proc)) : list MetricValue :=
  match AllProcs with
  | None => []
  | Some ps =>
      map (fun '(tags, m) => GaugeValue "proc.num" (VInt (Z.of_nat (length (List.filter (fun p => is_a p m) ps)))) [tags])
        (range_pairs reportProcs)
  end.

Definition PortMetrics (reportPorts : list Z) (TcpPorts UdpPorts : option (list Z)) : list MetricValue :=
  if (length reportPorts =? 0)%nat then []
  else match TcpPorts, UdpPorts with
       | Some allTcpPorts, Some allUdpPorts =>
           map (fun port =>
             let listens := bool_decide (port ∈ allTcpPorts) || bool_decide (port ∈ allUdpPorts) in
             GaugeValue "net.port.listen" (VInt (if listens then 1 else 0)) ["port=" +:+ strconv_Itoa port]) reportPorts
       | _, _ => []
       end.

(** * urlstat.go *)

(** [curl] is what [sys.CmdOutBytes] returns and [ReadLine] is [file.ReadLine]. *)
Definition probeUrl (ReadLine : string -> option string) (curl : option string) : bool :=
  match curl with
  | None => false
  | Some bs => match ReadLine bs with None => false | Some retcode => bool_decide (strings_TrimSpace retcode = "200") end
  end.

Definition UrlMetrics `{MapRange} (ReadLine : string -> option string) (curl : string -> string -> option string)
    (hostname : option string) (reportUrls : gmap string string) : list MetricValue :=
  map (fun '(furl, timeout) =>
    let tags := "url=" +:+ furl +:+ ",timeout=" +:+ timeout +:+ ",src=" +:+ default "None" hostname in
    GaugeValue "url.check.health" (VInt (if probeUrl ReadLine (curl furl timeout) then 1 else 0)) [tags])
    (range_pairs reportUrls).

(** * du.go *)

(** How a run of du went: whether it started, timed out and failed, and its output. *)
Record du_run := mkDuRun { du_started : bool; du_timeout : bool; du_err : bool; du_stdout : string; du_stderr : string }.

(** [strconv.ParseUint(s, 10, 64)]. *)
Definition strconv_ParseUint (s : string) : option Z :=
  if bool_decide (s = "") then None
  else match parse_digits 0 s with Some z => if z <? 2 ^ 64 then Some z else None | None => None end.

(** The body of the goroutine of a path; [None] when [err] is set. *)
Definition du_size (r : du_run) : option Z :=
  if negb (du_started r) then None
  else if du_timeout r then None
  else if negb (bool_decide (du_stderr r = "")) then None
  else if du_err r then None
  else match strings_Fields (du_stdout r) with
       | a0 :: _ :: _ => strconv_ParseUint a0
       | _ => None
       end.

(** [ended] is the list of paths in the order in which their goroutines end. *)
Definition DuMetrics (run : string -> du_run) (ended : list string) : list MetricValue :=
  map (fun path =>
    match du_size (run path) with
    | None => GaugeValue "du.bs" (VInt (-1)) ["path=" +:+ path]
    | Some size => GaugeValue "du.bs" (VUint64 size) ["path=" +:+ path]
    end) ended.

(** * gpu.go *)

(** What the calls on a device return; where the code uses a value in spite of an
    error it is given with it. *)
Record gpu_device := mkGpuDevice {
  gpu_UUID : string; FanSpeed : option Z; Temperature : option Z; MemoryInfo : option (Z * Z);
  UtilizationRates : option (Z * Z); PowerUsage : Z }.

Definition gpu_round (acc : list MetricValue * Z * Z) (dev : option gpu_device) : list MetricValue * Z * Z :=
  let '(L, allUtilization, allMemoryUtilization) := acc in
  match dev with
  | None => acc
  | Some dev =>
      let tag := ["uuid=" +:+ gpu_UUID dev] in
      let L := match FanSpeed dev with Some fanSpeed => L ++ [GaugeValue "gpu.fan.speed" (VUint fanSpeed) tag] | None => L end in
      match Temperature dev, MemoryInfo dev, UtilizationRates dev with
      | Some temperature, Some (totalMemory, usedMemory), Some (gpuUtilization, memoryUtilization) =>
          (L ++ [GaugeValue "gpu.temperature" (VUint temperature) tag;
                 GaugeValue "gpu.memory.total" (VFloat64 (f64_of_Z (totalMemory / 1024 / 1024))) tag;
                 GaugeValue "gpu.memory.used" (VFloat64 (f64_of_Z (usedMemory / 1024 / 1024))) tag;
                 GaugeValue "gpu.memory.util" (VUint memoryUtilization) tag;
                 GaugeValue "gpu.util" (VUint gpuUtilization) tag;
                 GaugeValue "gpu.power.usage" (VFloat64 (f64_of_Z (PowerUsage dev / 1000))) tag],
           u64 (allUtilization + gpuUtilization), u64 (allMemoryUtilization + memoryUtilization))
      | _, _, _ => (L, allUtilization, allMemoryUtilization)
      end
  end.

(** [None] when the library does not load or does not count its devices; the
    devices in the order of their index, [None] where there is no handle. *)
Definition GpuMetrics (devices : option (list (option gpu_device))) : list MetricValue :=
  match devices with
  | None | Some [] => []
  | Some devices =>
      let count := Z.of_nat (length devices) in
      let '(L, allUtilization, allMemoryUtilization) := fold_left gpu_round devices ([], 0, 0) in
      L ++ [GaugeValue "gpu.count" (VUint count) []; GaugeValue "gpu.util.avg" (VUint (allUtilization / count)) [];
            GaugeValue "gpu.memory.util.avg" (VUint (allMemoryUtilization / count)) []]
  end.

(** * funcs.go *)

(** What the host answers when the metrics are collected. *)
Record readings := mkReadings {
  nux_NetIfs : option (list NetIf); nux_KernelMaxFiles : option Z; nux_KernelMaxProc : option Z; nux_KernelAllocateFiles : option Z;
  nux_LoadAvg : option Loadavg; nux_MemInfo : option Mem; nux_ListDiskStats : option (list DiskStats);
  nux_Netstat : option (gmap string Z); nux_AllProcs : option (list Proc); nux_Snmp : option (gmap string Z);
  nux_ListMountPoint : option (list (string * string * string)); nux_BuildDeviceUsage : string -> string -> string -> option DeviceUsage;
  nux_TcpPorts : option (list Z); nux_UdpPorts : option (list Z); nux_SocketStatSummary : option (gmap string Z);
  du_runs : string -> du_run; du_ended : list string; curl_runs : string -> string -> option string;
  file_ReadLine : string -> option string; gonvml_devices : option (list (option gpu_device)) }.

(** What the heartbeat server asks the agent to report (g/var.go). *)
Record reports := mkReports {
  ReportUrls : gmap string string; ReportPorts : list Z; ReportProcs : gmap string (gmap Z string); DuPaths : list string }.

(** The six groups of collectors; all have the interval of the configuration. *)
Definition Mappers `{MapRange} (MountPoint : list string) (hostname : option string) (rep : reports) (cpu : cpu_history) (disk : disk_history)
    (r : readings) : list (list (result (list MetricValue))) :=
  [[Ok AgentMetrics; CpuMetrics cpu; Ok (CoreNetMetrics (nux_NetIfs r));
    Ok (KernelMetrics (nux_KernelMaxFiles r) (nux_KernelMaxProc r) (nux_KernelAllocateFiles r)); Ok (LoadAvgMetrics (nux_LoadAvg r));
    Ok (MemMetrics (nux_MemInfo r)); Ok (DiskIOMetrics (nux_ListDiskStats r)); Ok (IOStatsMetrics disk);
    Ok (NetstatMetrics (nux_Netstat r)); Ok (ProcMetrics (ReportProcs rep) (nux_AllProcs r)); Ok (UdpMetrics (nux_Snmp r))];
   [Ok (DeviceMetrics (nux_BuildDeviceUsage r) MountPoint (nux_ListMountPoint r))];
   [Ok (PortMetrics (ReportPorts rep) (nux_TcpPorts r) (nux_UdpPorts r)); Ok (SocketStatSummaryMetrics (nux_SocketStatSummary r))];
   [Ok (DuMetrics (du_runs r) (du_ended r))];
   [Ok (UrlMetrics (file_ReadLine r) (curl_runs r) hostname (ReportUrls rep))];
   [Ok (GpuMetrics (gonvml_devices r))]].

(** * The values that are reported *)

(** Every value can be encoded as JSON. *)
Definition all_encodable (L : list MetricValue) : Prop := Forall (fun mv => encodable (MetricValue_Value mv) = true) L.

Lemma hundred_tame : tame (-46) (-46) hundred /\ positive hundred.
Proof. vm_compute. split; [constructor; done | done]. Qed.

Lemma percent_tame part total : 0 <= part < 2 ^ 64 -> 0 < total < 2 ^ 64 -> f64_isFinite (percent part total) = true.
Proof.
  intros Hp Ht. destruct (f64_of_Z_tame part Hp) as [Hx _]. destruct (f64_of_Z_tame total) as [Hy Hpos]; [lia|]. destruct hundred_tame as [Hh _].
  destruct (f64_mul_tame _ _ _ _ _ _ Hx Hh) as [Hm _]; [lia..|]. eapply tame_isFinite, (f64_div_tame _ _ _ _ _ _ Hm Hy); [apply Hpos; lia | lia..].
Qed.

Lemma IODelta_range m device f : (forall a b, 0 <= f (a, b) < 2 ^ 64) -> 0 <= IODelta m device f < 2 ^ 64.
Proof. intros Hf. unfold IODelta. destruct (m !! device) as [[a [b|]]|]; [apply Hf | lia..]. Qed.
Lemma io_field_range field a b : 0 <= io_field field (a, b) < 2 ^ 64.
Proof. apply u64_range. Qed.
#[export] Hint Resolve io_field_range u64_range IODelta_range : falcon.

(** The busy share a device is reported with. When the two samples of the device
    differ neither in their busy time nor in when they were taken, as with the one
    sample of a new device, the code divides zero by zero and the share is not a
    number; in every other case, wrap-around of the counters included, it is a number
    between 0 and 100. *)
Lemma io_util_range m device :
  let use := IODelta m device IOMsecTotal in
  let duration := IODelta m device TS in
  (f64_isNaN (io_util m device) = true <-> use = 0 /\ duration = 0) /\
  (use <> 0 \/ duration <> 0 -> f64_le f64_zero (io_util m device) = true /\ f64_le (io_util m device) hundred = true).
Proof.
  intros use duration.
  assert (0 <= use < 2 ^ 64) as Hu by (apply IODelta_range; intros; apply u64_range).
  assert (0 <= duration < 2 ^ 64) as Hd by (apply IODelta_range; intros; apply u64_range).
  unfold io_util. fold use duration. destruct hundred_tame as [Hh Hhp].
  destruct (f64_of_Z_tame use Hu) as [Hx Hxp]. destruct (f64_of_Z_tame duration Hd) as [Hy Hyp].
  destruct (f64_mul_tame _ _ _ _ _ _ Hx Hh) as [Hm Hmp]; [lia..|].
  assert (forall x, f64_isNaN x = false -> f64_le f64_zero x = true ->
    f64_isNaN (if f64_gt x hundred then hundred else x) = false /\
    f64_le f64_zero (if f64_gt x hundred then hundred else x) = true /\ f64_le (if f64_gt x hundred then hundred else x) hundred = true) as Hclamp.
  { intros x Hn Hx0. destruct (f64_gt x hundred) eqn:E; [done|]. split; [done|]. split; [done|]. by apply f64_not_lt. }
  destruct (decide (duration = 0)) as [Ed|Ed]; [destruct (decide (use = 0)) as [Eu|Eu]|].
  - rewrite Ed, Eu. vm_compute. tauto.
  - rewrite Ed. specialize (Hmp ltac:(apply Hxp; lia) Hhp). destruct (f64_mul (f64_of_Z use) hundred) as [[]|[]| |[] p q]; try done.
    destruct (Hclamp (f64_div (S754_finite false p q) (f64_of_Z 0))) as (-> & H2); [done..|]. split; [|done]. split; [done|]. tauto.
  - assert (tame (-98 - 12 - 106) (-34 + 54 + 52 + 107) (f64_div (f64_mul (f64_of_Z use) hundred) (f64_of_Z duration))) as Ht.
    { apply (f64_div_tame _ _ _ _ _ _ Hm Hy); [apply Hyp; lia | lia..]. }
    set (x := f64_div _ _) in *. destruct (Hclamp x) as (-> & H2); [by destruct Ht..|]. split; [|done]. split; [done|]. tauto.
Qed.

(** What makes the computed floats numbers: 64-bit counters, and numbers from nux. *)
Definition is_u64 (z : Z) : Prop := 0 <= z < 2 ^ 64.
Record Mem_ok (m : Mem) : Prop := {
  memo_total : is_u64 (MemTotal m); memo_avail : is_u64 (MemAvailable m); memo_swap : is_u64 (SwapTotal m);
  memo_swap_free : is_u64 (SwapFree m); memo_swap_used : is_u64 (SwapUsed m) }.

Lemma MemMetrics_encodable MemInfo : (forall m, MemInfo = Some m -> Mem_ok m) -> all_encodable (MemMetrics MemInfo).
Proof.
  intros Hok. destruct MemInfo as [m|]; [|constructor]. specialize (Hok m eq_refl). unfold MemMetrics, is_u64 in *. destruct Hok as [? ? ? ? ?].
  set (memFree := if 0 <? MemAvailable m then _ else _).
  assert (is_u64 memFree) as Hf by (unfold memFree; destruct (0 <? MemAvailable m); [done | apply u64_range]).
  assert (forall part total, is_u64 part -> is_u64 total -> f64_isFinite (if total =? 0 then f64_zero else percent part total) = true) as Hp.
  { intros part total Hpart Htot. destruct (Z.eqb_spec total 0); [done|]. apply percent_tame; unfold is_u64 in *; lia. }
  pose proof (Hp memFree (MemTotal m)) as P1. pose proof (Hp (u64 (MemTotal m - memFree)) (MemTotal m)) as P2.
  pose proof (Hp (SwapFree m) (SwapTotal m)) as P3. pose proof (Hp (SwapUsed m) (SwapTotal m)) as P4.
  pose proof (u64_range (MemTotal m - memFree)) as Hu.
  destruct (MemTotal m =? 0), (SwapTotal m =? 0); repeat (apply list.Forall_cons_2; [cbn [encodable MetricValue_Value GaugeValue NewMetricValue]; auto|]); constructor.
Qed.

(** The samples of the CPU: the older one is there only after the newer one. *)
Definition cpu_ok (h : cpu_history) : Prop := is_Some (snd h) -> is_Some (fst h).

Lemma UpdateCpuStat_ok r h : cpu_ok h -> cpu_ok (UpdateCpuStat r h).
Proof. destruct r; [|done]. intros _ _. eauto. Qed.

Lemma cpu_share_tame field a b : exists v, cpu_share field (Some a, Some b) = Ok v /\ tame (-216) 179 v.
Proof.
  unfold cpu_share. cbn [deltaTotal rbind]. set (dt := u64 _). assert (0 <= dt < 2 ^ 64) as Hdt by apply u64_range.
  destruct (Z.eqb_spec dt 0) as [E|E]; [eexists; split; [done | constructor]|]. eexists; split; [done|].
  destruct (f64_of_Z_tame dt Hdt) as [Hy Hyp]. destruct hundred_tame as [Hh _]. destruct (f64_of_Z_tame _ (u64_range (field (Cpu a) - field (Cpu b)))) as [Hx _].
  pose proof (f64_div_tame _ _ _ _ _ _ Hh Hy ltac:(apply Hyp; lia) ltac:(lia) ltac:(lia)) as Hq.
  apply (f64_mul_tame _ _ _ _ _ _ Hx Hq); lia.
Qed.

Lemma CpuMetrics_spec h : cpu_ok h ->
  exists L, CpuMetrics h = Ok L /\ all_encodable L /\ (length L = if CpuPrepared h then 11 else 0)%nat.
Proof.
  destruct h as [[a|] [b|]]; intros Hok; [|eexists; split; [done|]; split; [constructor | done]|by destruct Hok; [eauto|]|
    eexists; split; [done|]; split; [constructor | done]]. clear Hok.
  unfold CpuMetrics. cbn [CpuPrepared snd negb].
  unfold CpuIdle, CpuUser, CpuNice, CpuSystem, CpuIowait, CpuIrq, CpuSoftIrq, CpuSteal, CpuGuest.
  destruct (cpu_share_tame Idle a b) as (idle & -> & Hidle). cbn [rbind].
  repeat match goal with
  | |- context [cpu_share ?f (Some a, Some b)] => destruct (cpu_share_tame f a b) as (? & -> & ?); cbn [rbind]
  end.
  cbn [CurrentCpuSwitches fst rbind]. eexists. split; [reflexivity|]. split; [|reflexivity].
  assert (tame (-216) 179 hundred) as Hh by (vm_compute; constructor; done).
  cbn [map app]. repeat (apply list.Forall_cons_2; [cbn [encodable MetricValue_Value GaugeValue CounterValue NewMetricValue]; try (by eapply tame_isFinite); try (eapply f64_sub_tame; [done | done | lia | lia]); try done|]); constructor.
Qed.

Lemma div_lit_tame z k : 0 <= z < 2 ^ 64 -> 0 < k < 2 ^ 64 -> tame (-170) 171 (f64_div (f64_of_Z z) (f64_of_Z k)).
Proof.
  intros Hz Hk. destruct (f64_of_Z_tame z Hz) as [Hx _]. destruct (f64_of_Z_tame k) as [Hy Hp]; [lia|].
  apply (f64_div_tame _ _ _ _ _ _ Hx Hy); [apply Hp; lia | lia..].
Qed.

Lemma io_averages_tame m device : let '(a, b, c) := io_averages m device in tame (-170) 171 a /\ tame (-170) 171 b /\ tame (-170) 171 c.
Proof.
  unfold io_averages. set (n_io := u64 _). assert (0 <= n_io < 2 ^ 64) as Hn by apply u64_range.
  destruct (Z.eqb_spec n_io 0) as [E|E]; [split_and!; constructor|].
  split_and!; apply div_lit_tame; try apply u64_range; try lia. apply IODelta_range. intros. apply u64_range.
Qed.

Lemma IOStatsMetrics_encodable `{MapRange} m :
  (forall device, ShouldHandleDevice device = true -> is_Some (m !! device) -> f64_isNaN (io_util m device) = false) ->
  all_encodable (IOStatsMetrics m).
Proof.
  intros Hok. unfold all_encodable, IOStatsMetrics. rewrite list.Forall_forall. intros mv (device & Hmv & Hdev)%list_elem_of_bind.
  apply (range_order_elem m _ device (range_keys_order m)) in Hdev.
  destruct (ShouldHandleDevice device) eqn:Es; cbn [negb] in Hmv; [|by apply elem_of_nil in Hmv]. specialize (Hok device Es Hdev).
  assert (f64_isFinite (io_util m device) = true) as Hu.
  { destruct (io_util_range m device) as [[_ Hn] Hle]. assert (IODelta m device IOMsecTotal <> 0 \/ IODelta m device TS <> 0) as Hne.
    { destruct (decide (IODelta m device IOMsecTotal = 0)) as [E1|?]; [|by left]. destruct (decide (IODelta m device TS = 0)) as [E2|?]; [|by right].
      rewrite Hn in Hok by done. done. }
    destruct (Hle Hne) as [H1 H2]. clear - Hok H1 H2. unfold f64_isFinite. rewrite Hok. revert H1 H2.
    by destruct (io_util m device) as [|[]| |]. }
  pose proof (io_averages_tame m device) as Hav. destruct (io_averages m device) as [[a b] c]. destruct Hav as (Ha & Hb & Hc).
  assert (forall f, (forall x y, 0 <= f (x, y) < 2 ^ 64) -> tame (-52 + -43) (12 + -43 + 54) (f64_mul (f64_of_Z (IODelta m device f)) (f64_lit 512 0))) as Hbytes.
  { intros f Hf. apply f64_mul_tame; [apply f64_of_Z_tame, IODelta_range, Hf | vm_compute; constructor; done | lia..]. }
  cbn [map] in Hmv.
  repeat (apply elem_of_cons in Hmv as [->|Hmv]; [cbn [encodable MetricValue_Value GaugeValue NewMetricValue];
    try done; try (eapply tame_isFinite; done); try (eapply tame_isFinite, Hbytes; intros; apply u64_range)|]); [|by apply elem_of_nil in Hmv].
  eapply tame_isFinite, div_lit_tame; [apply IODelta_range; intros; apply u64_range | lia].
Qed.

(** * The shape of what is collected *)

(** A metric as the constructors leave it: named, of a type the transfer knows, its
    endpoint, step and time still to be filled in. *)
Definition fresh (mv : MetricValue) : Prop :=
  MetricValue_Metric mv <> "" /\ (MetricValue_Type mv = "GAUGE" \/ MetricValue_Type mv = "COUNTER") /\ MetricValue_Metric mv <> "kernel.hostname" /\
  match MetricValue_Value mv with VString _ | VOther => False | _ => True end.

Ltac fresh_one := repeat split; [discriminate | (by left) || (by right) | discriminate].
Ltac fresh_list := repeat (apply list.Forall_cons_2; [fresh_one|]); apply list.Forall_nil_2.

Lemma fresh_gauge c name v tags : c <> "k"%char -> match v with VString _ | VOther => False | _ => True end -> fresh (GaugeValue (String c name) v tags).
Proof. intros Hc Hv. repeat split; [discriminate | by left | cbn; congruence | done]. Qed.
Lemma fresh_counter c name v tags : c <> "k"%char -> match v with VString _ | VOther => False | _ => True end -> fresh (CounterValue (String c name) v tags).
Proof. intros Hc Hv. repeat split; [discriminate | by right | cbn; congruence | done]. Qed.

Lemma Forall_bind {A B : Type} (P : B -> Prop) (f : A -> list B) l : (forall x, x ∈ l -> Forall P (f x)) -> Forall P (l ≫= f).
Proof. intros Hf. rewrite list.Forall_forall. intros b (a & Hb & Ha)%list_elem_of_bind. specialize (Hf a Ha). rewrite list.Forall_forall in Hf. auto. Qed.
Lemma Forall_map_all {A B : Type} (P : B -> Prop) (f : A -> B) l : (forall x, x ∈ l -> P (f x)) -> Forall P (map f l).
Proof. intros Hf. rewrite list.Forall_forall. intros b (a & -> & Ha)%list_elem_of_fmap. auto. Qed.

Section Shape.
Context `{MapRange}.

Lemma DeviceMetrics_fresh build mps points : Forall fresh (DeviceMetrics build mps points).
Proof using Type.
  destruct points as [points|]; [|constructor]. unfold DeviceMetrics.
  assert (forall L t u, Forall fresh L -> Forall fresh (fold_left (fun '(L, diskTotal, diskUsed) '(fsSpec, fsFile, fsVfstype) =>
        if (0 <? length mps)%nat && negb (bool_decide (fsFile ∈ mps)) then (L, diskTotal, diskUsed)
        else match build fsSpec fsFile fsVfstype with
             | None => (L, diskTotal, diskUsed)
             | Some du =>
                 if BlocksAll du =? 0 then (L, diskTotal, diskUsed)
                 else (L ++ df_point du, u64 (diskTotal + BlocksAll du), u64 (diskUsed + BlocksUsed du))
             end) points (L, t, u)).1.1) as Hgen.
  { induction points as [|[[spec file] fs] points IH]; intros L t u HL; cbn [fold_left]; [done|].
    destruct (_ && _); [by apply IH|]. destruct (build spec file fs) as [du|]; [|by apply IH]. destruct (BlocksAll du =? 0); [by apply IH|].
    apply IH. apply list.Forall_app. split; [done|]. unfold df_point. apply list.Forall_app. split; [fresh_list|].
    destruct (InodesAll du =? 0); fresh_list. }
  specialize (Hgen [] 0 0 ltac:(constructor)). destruct (fold_left _ points _) as [[L t] u]. cbn [fst] in Hgen.
  destruct (_ && _); [|done]. apply list.Forall_app. split; [done | fresh_list].
Qed.

Lemma GpuMetrics_fresh devices : Forall fresh (GpuMetrics devices).
Proof using Type.
  destruct devices as [[|d0 devices]|]; [constructor| |constructor]. unfold GpuMetrics. generalize (Z.of_nat (length (d0 :: devices))) as count.
  generalize (d0 :: devices) as l. intros l count.
  assert (forall L t u, Forall fresh L -> Forall fresh (fold_left gpu_round l (L, t, u)).1.1) as Hgen.
  { induction l as [|[dev|] l IH]; intros L t u HL; cbn [fold_left]; [done| |by apply IH]. unfold gpu_round at 2.
    assert (Forall fresh (match FanSpeed dev with Some fanSpeed => L ++ [GaugeValue "gpu.fan.speed" (VUint fanSpeed) ["uuid=" +:+ gpu_UUID dev]] | None => L end)) as HL'.
    { destruct (FanSpeed dev); [|done]. apply list.Forall_app. split; [done | fresh_list]. }
    destruct (Temperature dev), (MemoryInfo dev) as [[]|], (UtilizationRates dev) as [[]|]; apply IH; try done.
    apply list.Forall_app. split; [done | fresh_list]. }
  specialize (Hgen [] 0 0 ltac:(constructor)). destruct (fold_left gpu_round l _) as [[L t] u]. cbn [fst] in Hgen.
  apply list.Forall_app. split; [done | fresh_list].
Qed.

Lemma Mappers_fresh mps hostname rep cpu disk r group L :
  group ∈ Mappers mps hostname rep cpu disk r -> Ok L ∈ group -> Forall fresh L.
Proof using Type.
  intros Hg HL.
  assert (Forall (Forall (fun m => forall L, m = Ok L -> Forall fresh L)) (Mappers mps hostname rep cpu disk r)) as Hall.
  2: { rewrite list.Forall_forall in Hall. specialize (Hall _ Hg). rewrite list.Forall_forall in Hall. by apply (Hall _ HL). }
  clear Hg HL group L. unfold Mappers.
  repeat (apply list.Forall_cons_2); try apply list.Forall_nil_2; try (intros L HL; injection HL as <-).
  - fresh_list.
  - intros L. unfold CpuMetrics. destruct (CpuPrepared cpu); cbn [negb]; [|intros [= <-]; constructor]. intros HL. inv_ok. cbn [map app]. fresh_list.
  - destruct (nux_NetIfs r); [|constructor]. apply Forall_bind. intros n _. cbn [map app]. fresh_list.
  - unfold KernelMetrics. destruct (nux_KernelMaxFiles r), (nux_KernelMaxProc r), (nux_KernelAllocateFiles r); cbn [app]; fresh_list.
  - unfold LoadAvgMetrics. destruct (nux_LoadAvg r); fresh_list.
  - unfold MemMetrics. destruct (nux_MemInfo r) as [m|]; [|constructor]. destruct (MemTotal m =? 0), (SwapTotal m =? 0); fresh_list.
  - destruct (nux_ListDiskStats r); [|constructor]. apply Forall_bind. intros d _. destruct (ShouldHandleDevice _); cbn [negb map]; fresh_list.
  - apply Forall_bind. intros d _. destruct (ShouldHandleDevice d); cbn [negb]; [|constructor]. destruct (io_averages disk d) as [[? ?] ?]. cbn [map]. fresh_list.
  - unfold NetstatMetrics. destruct (nux_Netstat r) as [m|]; [|constructor]. rewrite list.Forall_forall. intros mv ([k v] & _ & E)%list_elem_of_omap.
    destruct (bool_decide _); [|done]. injection E as <-. by apply fresh_counter.
  - unfold ProcMetrics. destruct (nux_AllProcs r); [|constructor]. apply Forall_map_all. intros [k v] _. by apply fresh_gauge.
  - unfold UdpMetrics. destruct (nux_Snmp r); [|constructor]. apply Forall_map_all. intros [k v] _. by apply fresh_counter.
  - apply DeviceMetrics_fresh.
  - unfold PortMetrics. destruct (_ =? _)%nat; [constructor|]. destruct (nux_TcpPorts r), (nux_UdpPorts r); try constructor.
    apply Forall_map_all. intros p _. by apply fresh_gauge.
  - unfold SocketStatSummaryMetrics. destruct (nux_SocketStatSummary r); [|constructor]. apply Forall_map_all. intros [k v] _. by apply fresh_gauge.
  - apply Forall_map_all. intros p _. destruct (du_size _); by apply fresh_gauge.
  - apply Forall_map_all. intros [k v] _. by apply fresh_gauge.
  - apply GpuMetrics_fresh.
Qed.

End Shape.
