(* ===== verification/AgentPlugins.v ===== *)
(** modules/agent/plugins and cron/plugin.go: the scripts an agent runs, as the
    heartbeat server binds them to the host. The file system and what the scripts
    print are arguments. *)
From Stdlib Require Import Ascii ZArith.
From stdpp Require Import base list gmap strings numbers.
From S2P Require Import Prelude GoString GoFloat GoText Utils Model.

Local Open Scope Z_scope.

(** * Packages path/filepath, strings and regexp, as far as they are used *)

(** The elements of a path that [filepath.Clean] keeps, last first. *)
Definition clean_element (rooted : bool) (out : list string) (e : string) : list string :=
  if bool_decide (e = "") || bool_decide (e = ".") then out
  else if bool_decide (e = "..") then
    match out with
    | [] => if rooted then [] else [".."]
    | o :: out' => if bool_decide (o = "..") then ".." :: out else out'
    end
  else e :: out.
Definition filepath_Clean (p : string) : string :=
  let rooted := strings_HasPrefix p "/" in
  let body := strings_Join (reverse (fold_left (clean_element rooted) (strings_Split p "/") [])) "/" in
  if rooted then "/" +:+ body else if bool_decide (body = "") then "." else body.
(** [filepath.Join(a, b)]. *)
Definition filepath_Join (a b : string) : string :=
  if bool_decide (a = "") then (if bool_decide (b = "") then "" else filepath_Clean b)
  else filepath_Clean (a +:+ "/" +:+ b).
(** The second result of [filepath.Split]. *)
Definition file_name (p : string) : string := default "" (list.last (strings_Split p "/")).

(** [strings.Split(s, sep)] of a separator that is not empty; [skip] bytes of the
    separator are still to be passed. *)
Fixpoint split_on (sep : string) (skip : nat) (s : string) : list string :=
  match s with
  | EmptyString => [""]
  | String c s' =>
      match skip with
      | S skip => split_on sep skip s'
      | O => if strings_HasPrefix s sep then "" :: split_on sep (String.length sep - 1) s'
             else match split_on sep 0 s' with
                  | w :: l => String c w :: l
                  | [] => [String c ""]
                  end
      end
  end.

(** The last occurrence of a byte: the text before it and after it. *)
Fixpoint cut_last (c : ascii) (s : string) : option (string * string) :=
  match s with
  | EmptyString => None
  | String d s' =>
      match cut_last c s' with
      | Some (a, b) => Some (String d a, b)
      | None => if Ascii.eqb c d then Some ("", s') else None
      end
  end.

(** The groups of the first match of the expression for a path and its arguments, a
    starred dot, an opening parenthesis, a starred dot and a closing one: the dot does
    not match a newline and the stars are greedy, so the match is on the first line
    that has one, up to its last closing parenthesis and the last opening one before
    that. *)
Definition line_args (line : string) : option (string * string) :=
  '(before, _) ← cut_last ")" line;
  cut_last "(" before.
Definition path_args (s : string) : option (string * string) := head (omap line_args (strings_Split s "010")).

(** * plugins.go *)

Record Plugin := mkPlugin { FilePath : string; MTime : Z; Cycle : Z; Args : string }.
(** A scheduler is known by the channel it quits on. *)
Record PluginScheduler := mkPluginScheduler { PluginScheduler_Plugin : Plugin; Quit : nat }.
Record PluginsState := mkPluginsState {
  Plugins : gmap string Plugin;
  PluginsWithScheduler : gmap string PluginScheduler;
  (** channels made so far, and those closed *)
  made : nat;
  closed : gset nat;
  (** the schedulers whose goroutine was started, oldest first *)
  scheduled : list PluginScheduler }.

(** [time.NewTicker] panics on a duration that is not positive. *)
Definition NewPluginScheduler (p : Plugin) (st : PluginsState) : result (PluginScheduler * PluginsState) :=
  if i64 (Cycle p * 1000000000) <=? 0 then Panic NonPositiveTicker
  else Ok (mkPluginScheduler p (made st), mkPluginsState (Plugins st) (PluginsWithScheduler st) (S (made st)) (closed st) (scheduled st)).
Definition Schedule (this : PluginScheduler) (st : PluginsState) : PluginsState :=
  mkPluginsState (Plugins st) (PluginsWithScheduler st) (made st) (closed st) (scheduled st ++ [this]).
Definition Stop (this : PluginScheduler) (st : PluginsState) : result PluginsState :=
  if decide (Quit this ∈ closed st) then Panic CloseOfClosedChannel
  else Ok (mkPluginsState (Plugins st) (PluginsWithScheduler st) (made st) ({[Quit this]} ∪ closed st) (scheduled st)).
Definition set_Plugins (m : gmap string Plugin) (st : PluginsState) : PluginsState :=
  mkPluginsState m (PluginsWithScheduler st) (made st) (closed st) (scheduled st).
Definition set_PluginsWithScheduler (m : gmap string PluginScheduler) (st : PluginsState) : PluginsState :=
  mkPluginsState (Plugins st) m (made st) (closed st) (scheduled st).

Definition deletePlugin (key : string) (st : PluginsState) : result PluginsState :=
  let! st := match PluginsWithScheduler st !! key with
             | Some v =>
                 let! st := Stop v st in
                 Ok (set_PluginsWithScheduler (delete key (PluginsWithScheduler st)) st)
             | None => Ok st
             end in
  Ok (set_Plugins (delete key (Plugins st)) st).

Section Lifecycle.
Context `{MapRange}.

Definition DelNoUsePlugins (newPlugins : gmap string Plugin) (st : PluginsState) : result PluginsState :=
  rfold (fun st '(currKey, currPlugin) =>
    match newPlugins !! currKey with
    | Some newPlugin => if MTime currPlugin =? MTime newPlugin then Ok st else deletePlugin currKey st
    | None => deletePlugin currKey st
    end) st (range_pairs (Plugins st)).

(** One turn of the loop. *)
Definition add_plugin (st : PluginsState) '((fpath, newPlugin) : string * Plugin) : result PluginsState :=
  if match Plugins st !! fpath with Some p => MTime newPlugin =? MTime p | None => false end then Ok st
  else
    let st := set_Plugins (<[fpath := newPlugin]> (Plugins st)) st in
    let! (sch, st) := NewPluginScheduler newPlugin st in
    let st := set_PluginsWithScheduler (<[fpath := sch]> (PluginsWithScheduler st)) st in
    Ok (Schedule sch st).
Definition AddNewPlugins (newPlugins : gmap string Plugin) (st : PluginsState) : result PluginsState :=
  rfold add_plugin st (range_pairs newPlugins).

Definition ClearAllPlugins (st : PluginsState) : result PluginsState :=
  rfold (fun st k => deletePlugin k st) st (range_keys (Plugins st)).

End Lifecycle.

(** * reader.go and cron/plugin.go *)

Record file_info := mkFileInfo { fi_IsDir : bool; fi_ModTime : Z }.
(** What [file.IsExist], [file.IsFile], [os.Stat] and [ioutil.ReadDir] answer, where
    [None] is an error. They are asked one after the other, and files come and go in
    between: the answers need not agree. *)
Record file_system := mkFileSystem {
  file_IsExist : string -> bool;
  file_IsFile : string -> bool;
  os_Stat : string -> option file_info;
  ioutil_ReadDir : string -> option (list (string * file_info)) }.

Definition ListPlugins (fs : file_system) (Dir script_path : string) : gmap string Plugin :=
  if bool_decide (script_path = "") then ∅
  else match ioutil_ReadDir fs (filepath_Join Dir script_path) with
       | None => ∅
       | Some files =>
           fold_left (fun ret '(filename, f) =>
             if fi_IsDir f then ret
             else match strings_Split filename "_" with
                  | a0 :: _ :: _ =>
                      match strconv_Atoi a0 with
                      | None => ret
                      | Some cycle =>
                          let fpath := filepath_Join script_path filename in
                          <[fpath := mkPlugin fpath (fi_ModTime f) cycle ""]> ret
                      end
                  | _ => ret
                  end) files ∅
       end.

(** The scripts and the directories of the answer, each in its order. *)
Definition classify (fs : file_system) (Dir : string) (pluginDirs : list string) : list (string * string) * list string :=
  fold_left (fun '(filefmt_scripts, dirfmt_scripts) script =>
    let '(script_path, args) := default (script, "") (path_args script) in
    let abs_path := filepath_Join Dir script_path in
    if negb (file_IsExist fs abs_path) then (filefmt_scripts, dirfmt_scripts)
    else if file_IsFile fs abs_path then (filefmt_scripts ++ [(script_path, args)], dirfmt_scripts)
    else (filefmt_scripts, dirfmt_scripts ++ [script_path])) pluginDirs ([], []).

(** The key of a script that is bound on its own. *)
Definition script_key (path args : string) : string := path +:+ "(" +:+ args +:+ ")".

(** One turn of the loop over the scripts. *)
Definition add_script (fs : file_system) (Dir : string) (desiredAll : gmap string Plugin) '((path, args) : string * string) : result (gmap string Plugin) :=
  let abs_path := filepath_Join Dir path in
  let! a0 := index (strings_Split (file_name abs_path) "_") 0 in
  match strconv_Atoi a0 with
  | None => Ok desiredAll
  | Some cycle =>
      match os_Stat fs abs_path with
      | None => Panic NilDereference
      | Some fi => Ok (<[script_key path args := mkPlugin path (fi_ModTime fi) cycle args]> desiredAll)
      end
  end.
Definition desired_scripts (fs : file_system) (Dir : string) (filefmt_scripts : list (string * string)) : result (gmap string Plugin) :=
  rfold (add_script fs Dir) ∅ filefmt_scripts.

Section Sync.
Context `{MapRange}.

Definition desired_dirs (fs : file_system) (Dir : string) (taken : list string) (dirfmt_scripts : list string) (desiredAll : gmap string Plugin)
    : gmap string Plugin :=
  fold_left (fun desiredAll script_path =>
    fold_left (fun desiredAll '(k, p) => if bool_decide (k ∈ taken) then desiredAll else <[k := p]> desiredAll)
      (range_pairs (ListPlugins fs Dir (strings_Trim "/" script_path))) desiredAll) dirfmt_scripts desiredAll.

Record AgentPluginsResponse := mkAgentPluginsResponse { resp_Plugins : list string; resp_Timestamp : Z }.

(** One turn of the loop: the time of the last answer taken, and the plugins. *)
Definition syncMinePlugins (hostname : option string) (resp : option AgentPluginsResponse) (fs : file_system) (Dir : string)
    (timestamp : Z) (st : PluginsState) : result (Z * PluginsState) :=
  match hostname, resp with
  | Some _, Some resp =>
      if resp_Timestamp resp <=? timestamp then Ok (timestamp, st)
      else
        let pluginDirs := resp_Plugins resp in
        let timestamp := resp_Timestamp resp in
        if (length pluginDirs =? 0)%nat then
          let! st := ClearAllPlugins st in Ok (timestamp, st)
        else
          let '(filefmt_scripts, dirfmt_scripts) := classify fs Dir pluginDirs in
          let! desiredAll := desired_scripts fs Dir filefmt_scripts in
          let desiredAll := desired_dirs fs Dir (map fst filefmt_scripts) dirfmt_scripts desiredAll in
          let! st := DelNoUsePlugins desiredAll st in
          let! st := AddNewPlugins desiredAll st in
          Ok (timestamp, st)
  | _, _ => Ok (timestamp, st)
  end.

End Sync.

(** * scheduler.go *)

(** One piece between escaped commas: [j] is the position in it and [n] its length. *)
Fixpoint piece_loop (n j : nat) (ret : list string) (tail : string) (x : list string) : list string * string :=
  match x with
  | [] => (ret, tail)
  | y :: x =>
      if (j =? 0)%nat then
        if bool_decide (tail = "") then piece_loop n (S j) (ret ++ [y]) tail x
        else piece_loop n (S j) (ret ++ [tail +:+ "," +:+ y]) "" x
      else if (j =? n - 1)%nat then piece_loop n (S j) ret y x
      else piece_loop n (S j) (ret ++ [y]) tail x
  end.
Definition clean_arg (arg : string) : string := strings_Trim "'" (strings_Trim "034" (strings_Trim " " arg)).
Definition PluginArgsParse (raw_args : string) : list string :=
  let ss := split_on "\," 0 raw_args in
  let out := map (fun s => map clean_arg (strings_Split s ",")) ss in
  let '(ret, tail) := fold_left (fun '(ret, tail) x => piece_loop (length x) 0 ret tail x) out ([], "") in
  if bool_decide (tail = "") then ret else ret ++ [tail].

(** How a run of the script went; [log_err] is the error of writing what it printed
    on its standard error to the log. *)
Record plugin_run := mkPluginRun { start_err : bool; run_err : bool; isTimeout : bool; stdout : string; stderr : string; log_err : bool }.

(** The command line, when there is a script to run. *)
Definition plugin_command (fs : file_system) (Dir : string) (plugin : Plugin) : option (string * list string) :=
  let fpath := filepath_Join Dir (FilePath plugin) in
  if negb (file_IsExist fs fpath) then None
  else Some (fpath, if bool_decide (Args plugin = "") then [] else PluginArgsParse (Args plugin)).

(** The metrics that are sent; [unmarshal] is [json.Unmarshal]. A nil entry of the
    list of pointers is [None]. *)
Definition PluginRun (unmarshal : string -> option (list (option MetricValue))) (fs : file_system) (Dir : string) (plugin : Plugin)
    (run : string * list string -> plugin_run) : option (list (option MetricValue)) :=
  cmd ← plugin_command fs Dir plugin;
  let r := run cmd in
  if start_err r then None
  else
    let err := if bool_decide (stderr r = "") then run_err r else log_err r in
    if isTimeout r then None
    else if err then None
    else if bool_decide (stdout r = "") then None
    else unmarshal (stdout r).

Example args_plain : PluginArgsParse "a, 'b c' ,d" = ["a"; "b c"; "d"].
Proof. vm_compute. reflexivity. Qed.
Example args_escaped : PluginArgsParse "a,b\,c,d" = ["a"; "b,c"; "d"].
Proof. vm_compute. reflexivity. Qed.
Example path_args_ex : path_args "sys/ntp/60_ntp.py(a,(b))" = Some ("sys/ntp/60_ntp.py(a,", "b)").
Proof. vm_compute. reflexivity. Qed.
Example path_args_plain : path_args "sys/ntp/60_ntp.py(a,b)" = Some ("sys/ntp/60_ntp.py", "a,b").
Proof. vm_compute. reflexivity. Qed.
Example clean_path : filepath_Join "./plugin/" "/a/../b//c/." = "plugin/b/c".
Proof. vm_compute. reflexivity. Qed.

(** * Arguments of a script *)

(** An argument without a comma, or with one that is escaped. *)
Inductive arg := Plain (s : string) | Pair (s t : string).
Definition print_arg (a : arg) : string := match a with Plain s => s | Pair s t => s +:+ "\," +:+ t end.
Definition arg_value (a : arg) : string := match a with Plain s => s | Pair s t => s +:+ "," +:+ t end.
(** Free of commas and backslashes, and not quoted or padded. *)
Definition text_ok (s : string) : Prop := clean_arg s = s /\ str_free "," s = true /\ str_free "\" s = true.
Definition arg_ok (a : arg) : Prop := match a with Plain s => text_ok s | Pair s t => text_ok s /\ s <> "" /\ text_ok t end.

(** The text between escaped commas, as lists of arguments. *)
Fixpoint pieces (cur : list string) (args : list arg) : list (list string) :=
  match args with
  | [] => [cur]
  | Plain s :: args => pieces (cur ++ [s]) args
  | Pair s t :: args => (cur ++ [s]) :: pieces [t] args
  end.

Lemma Join_cons (x : string) l sep : l <> [] -> strings_Join (x :: l) sep = x +:+ sep +:+ strings_Join l sep.
Proof. by destruct l. Qed.

Lemma Join_app_cons (l : list string) x y l' sep :
  strings_Join (l ++ [x +:+ y] ++ l') sep = strings_Join (l ++ [x]) sep +:+ strings_Join (y :: l') sep.
Proof.
  induction l as [|a l IH]; cbn [app].
  - destruct l'; cbn [strings_Join]; [done | by rewrite str_app_assoc].
  - rewrite !Join_cons by (by destruct l). cbn [app] in IH. rewrite IH. by rewrite !str_app_assoc.
Qed.

Lemma pieces_nonempty cur args : pieces cur args <> [].
Proof. revert cur. induction args as [|[s|s t] args IH]; intros cur; cbn [pieces]; [done | apply IH | done]. Qed.

Lemma pieces_text cur args :
  strings_Join (map (fun x => strings_Join x ",") (pieces cur args)) "\," = strings_Join (cur ++ map print_arg args) ",".
Proof.
  revert cur. induction args as [|[s|s t] args IH]; intros cur; cbn [pieces map print_arg].
  - by rewrite app_nil_r.
  - rewrite IH, <- app_assoc. done.
  - rewrite Join_cons by (intros E%fmap_nil_inv; by apply pieces_nonempty in E). rewrite IH.
    change (print_arg <$> args) with (map print_arg args). cbn [app].
    change (cur ++ (s +:+ "\," +:+ t) :: map print_arg args) with (cur ++ [s +:+ ("\," +:+ t)] ++ map print_arg args).
    rewrite Join_app_cons. f_equal. symmetry. apply (Join_app_cons [] "\," t (map print_arg args) ",").
Qed.

Lemma split_on_nonempty sep skip s : split_on sep skip s <> [].
Proof.
  revert skip. induction s as [|c s IH]; intros skip; cbn [split_on]; [done|]. destruct skip as [|skip]; [|apply IH].
  destruct (strings_HasPrefix _ _); [done|]. by destruct (split_on sep 0 s).
Qed.

Lemma split_on_free (w s : string) : str_free "\" w = true ->
  split_on "\," 0 (w +:+ s) = match split_on "\," 0 s with x :: l => (w +:+ x) :: l | [] => [w] end.
Proof.
  induction w as [|c w IH]; intros Hw.
  - rewrite str_app_nil_l. pose proof (split_on_nonempty "\," 0 s). by destruct (split_on "\," 0 s).
  - apply str_free_cons in Hw as [Hc Hw]. rewrite str_app_cons. cbn [split_on strings_HasPrefix]. rewrite Hc. cbn [andb]. rewrite IH by done.
    by destruct (split_on "\," 0 s).
Qed.

Lemma split_on_Join (l : list string) : l <> [] -> Forall (fun s => str_free "\" s = true) l -> split_on "\," 0 (strings_Join l "\,") = l.
Proof.
  induction l as [|x l IH]; [done|]. intros _ [Hx Hl]%list.Forall_cons_1. destruct l as [|y l].
  - cbn [strings_Join]. rewrite <- (str_app_nil_r x) at 1. rewrite split_on_free by done. cbn [split_on]. by rewrite str_app_nil_r.
  - rewrite Join_cons by done. rewrite split_on_free by done. rewrite !str_app_cons, str_app_nil_l. cbn [split_on strings_HasPrefix Ascii.eqb Bool.eqb andb].
    cbn [String.length Nat.sub]. rewrite IH by done. by rewrite str_app_nil_r.
Qed.

Definition glue (tail y : string) : string := if bool_decide (tail = "") then y else tail +:+ "," +:+ y.

Lemma piece_loop_mid n j ret tail mid z : (0 < j)%nat -> (n = j + length mid + 1)%nat ->
  piece_loop n j ret tail (mid ++ [z]) = (ret ++ mid, z).
Proof.
  revert j ret. induction mid as [|y mid IH]; intros j ret Hj Hn; cbn [piece_loop app length] in *.
  - rewrite (proj2 (Nat.eqb_neq j 0)) by lia. rewrite (proj2 (Nat.eqb_eq j (n - 1))) by lia. by rewrite app_nil_r.
  - rewrite (proj2 (Nat.eqb_neq j 0)) by lia. rewrite (proj2 (Nat.eqb_neq j (n - 1))) by lia.
    rewrite IH by lia. by rewrite <- app_assoc.
Qed.

Lemma piece_loop_first ret tail y rest z :
  piece_loop (length (y :: rest ++ [z])) 0 ret tail (y :: rest ++ [z]) = (ret ++ [glue tail y] ++ rest, z).
Proof.
  cbn [piece_loop Nat.eqb]. unfold glue. case_bool_decide as E; rewrite piece_loop_mid by (cbn [length]; rewrite ?length_app; cbn; lia);
    by rewrite <- app_assoc.
Qed.

Definition finish (p : list string * string) : list string := if bool_decide (snd p = "") then fst p else fst p ++ [snd p].

Lemma pieces_parse y mid args ret tail :
  Forall arg_ok args ->
  match list.last args with Some (Plain s) => s <> "" | Some (Pair _ _) => True | None => forall z, list.last mid = Some z -> z <> "" end ->
  finish (fold_left (fun '(ret, tail) x => piece_loop (length x) 0 ret tail x) (pieces (y :: mid) args) (ret, tail))
    = ret ++ [glue tail y] ++ mid ++ map arg_value args.
Proof.
  revert y mid ret tail. induction args as [|a args IH]; intros y mid ret tail Hok Hlast; cbn [pieces].
  - cbn [fold_left map]. rewrite app_nil_r. destruct mid as [|z mid _] using rev_ind.
    + assert (piece_loop (length [y]) 0 ret tail [y] = (ret ++ [glue tail y], "")) as ->; [|done].
      cbn [piece_loop Nat.eqb length]. unfold glue. case_bool_decide as E; [by rewrite E | done].
    + rewrite piece_loop_first. unfold finish. cbn [fst snd]. rewrite bool_decide_false by (apply Hlast, list.last_snoc).
      by rewrite <- !app_assoc.
  - apply list.Forall_cons_1 in Hok as [Ha Hok]. destruct a as [s|s t]; cbn [pieces map arg_value].
    + change ((y :: mid) ++ [s]) with (y :: (mid ++ [s])). rewrite IH; [by rewrite <- app_assoc | done|].
      destruct args as [|b args]; [|change (list.last (Plain s :: b :: args)) with (list.last (b :: args)) in Hlast;
        destruct (list.last (b :: args)) eqn:E; [done | by apply list.last_None in E]]. cbn in Hlast. cbn. intros z. rewrite list.last_snoc. by intros [= <-].
    + cbn [fold_left]. change ((y :: mid) ++ [s]) with (y :: (mid ++ [s])). rewrite piece_loop_first. destruct Ha as (_ & Hs & _).
      rewrite IH; [|done|destruct args as [|b args]; [done|change (list.last (Pair s t :: b :: args)) with (list.last (b :: args)) in Hlast;
        destruct (list.last (b :: args)) eqn:E; [done | by apply list.last_None in E]]]. unfold glue at 2. rewrite bool_decide_false by done. by rewrite <- !app_assoc.
Qed.

Lemma pieces_Forall (P : string -> Prop) cur args :
  Forall P cur -> Forall (fun a => match a with Plain s => P s | Pair s t => P s /\ P t end) args -> Forall (fun x => x <> [] \/ cur = []) (pieces cur args) /\ Forall (Forall P) (pieces cur args).
Proof.
  revert cur. induction args as [|[s|s t] args IH]; intros cur Hc Ha; cbn [pieces].
  - split; (apply list.Forall_cons_2; [|apply list.Forall_nil_2]); [|done]. destruct cur; auto.
  - apply list.Forall_cons_1 in Ha as [Hs Ha]. destruct (IH (cur ++ [s])) as [H1 H2]; [apply list.Forall_app; auto | done|]. split; [|done].
    eapply list.Forall_impl; [exact H1|]. intros x [?|E]; [auto|]. by destruct cur.
  - apply list.Forall_cons_1 in Ha as [[Hs Ht] Ha]. destruct (IH [t]) as [H1 H2]; [auto|done|]. split; constructor; auto.
    + left. by destruct cur.
    + eapply list.Forall_impl; [exact H1|]. intros x [?|E]; [auto | done].
    + apply list.Forall_app. auto.
Qed.

(** The arguments of a script survive being written in its binding: a list of
    arguments joined by commas, where a comma inside an argument is escaped by a
    backslash, is split into these arguments again, if no argument has more than one
    comma, the first has none and the last is not empty. *)
Theorem PluginArgsParse_roundtrip first rest :
  text_ok first -> Forall arg_ok rest -> (forall s, list.last rest = Some (Plain s) -> s <> "") ->
  PluginArgsParse (strings_Join (first :: map print_arg rest) ",") = first :: map arg_value rest.
Proof.
  intros Hf Hr Hlast. unfold PluginArgsParse.
  destruct (pieces_Forall text_ok [first] rest) as [Hne Hok]; [auto|eapply list.Forall_impl; [exact Hr|]; intros [s|s t]; cbn; tauto|].
  change (first :: map print_arg rest) with ([first] ++ map print_arg rest). rewrite <- (pieces_text [first] rest). rewrite split_on_Join.
  2: { intros E%fmap_nil_inv. by apply pieces_nonempty in E. }
  2: { apply list.Forall_fmap. eapply list.Forall_impl; [exact Hok|]. intros x Hx. apply str_free_join; [done|].
       eapply list.Forall_impl; [exact Hx|]. by intros s (_ & _ & ?). }
  assert (map (fun s => map clean_arg (strings_Split s ",")) (map (fun x => strings_Join x ",") (pieces [first] rest)) = pieces [first] rest) as ->.
  { rewrite map_map. rewrite <- (map_id (pieces [first] rest)) at 2. apply map_ext_in. intros x Hx%list_elem_of_In.
    rewrite list.Forall_forall in Hok, Hne. destruct (Hne x Hx) as [Hx0|]; [|done]. specialize (Hok x Hx).
    rewrite strings_Split_Join; [|done|eapply list.Forall_impl; [exact Hok|]; by intros s (_ & ? & _)].
    rewrite <- (map_id x) at 2. apply map_ext_in. intros s Hs%list_elem_of_In. rewrite list.Forall_forall in Hok. by destruct (Hok s Hs). }
  pose proof (pieces_parse first [] rest [] "" Hr) as Hp. unfold finish in Hp. cbn [app] in Hp.
  destruct (fold_left _ (pieces [first] rest) ([], "")) as [ret tail]. cbn [fst snd] in Hp. apply Hp.
  destruct (list.last rest) as [[s|s t]|]; [by apply Hlast | done..].
Qed.

(** * The running scripts *)

(** The two maps agree; every scheduler of the map runs, and every scheduler that was
    started and not stopped is in the map; channels are not shared. *)
Record plugins_ok (st : PluginsState) : Prop := {
  pk_maps k : Plugins st !! k = PluginScheduler_Plugin <$> PluginsWithScheduler st !! k;
  pk_running k s : PluginsWithScheduler st !! k = Some s -> s ∈ scheduled st /\ Quit s ∉ closed st;
  pk_kept s : s ∈ scheduled st -> Quit s ∈ closed st \/ exists k, PluginsWithScheduler st !! k = Some s;
  pk_channels k k' s s' : PluginsWithScheduler st !! k = Some s -> PluginsWithScheduler st !! k' = Some s' -> Quit s = Quit s' -> k = k';
  pk_made s : s ∈ scheduled st -> (Quit s < made st)%nat;
  pk_closed q : q ∈ closed st -> (q < made st)%nat }.

Lemma deletePlugin_spec key st : plugins_ok st ->
  exists st', deletePlugin key st = Ok st' /\ plugins_ok st' /\ PluginsWithScheduler st' = delete key (PluginsWithScheduler st).
Proof.
  intros Hok. unfold deletePlugin. destruct (PluginsWithScheduler st !! key) as [v|] eqn:E.
  - destruct (pk_running st Hok _ _ E) as [Hv Hq]. unfold Stop. rewrite decide_False by done. cbn [rbind].
    eexists. split; [reflexivity|]. split; [|reflexivity].
    assert (forall k s, delete key (PluginsWithScheduler st) !! k = Some s -> PluginsWithScheduler st !! k = Some s /\ k <> key) as Hsub.
    { intros k s [? ?]%lookup_delete_Some. auto. }
    split; cbn [Plugins PluginsWithScheduler made closed scheduled set_Plugins set_PluginsWithScheduler].
    + intros k. destruct (decide (k = key)) as [->|Hne]; [by rewrite !lookup_delete_eq|]. rewrite !lookup_delete_ne by done. apply (pk_maps st Hok).
    + intros k s [Hs Hne]%Hsub. destruct (pk_running st Hok _ _ Hs) as [H1 H2]. split; [done|]. rewrite elem_of_union, elem_of_singleton.
      intros [Eq|?]; [|done]. apply Hne. by eapply (pk_channels st Hok).
    + intros s Hs. rewrite elem_of_union, elem_of_singleton. destruct (pk_kept st Hok s Hs) as [?|[k Hk]]; [auto|].
      destruct (decide (k = key)) as [->|Hne]; [left; left; congruence|]. right. exists k. by rewrite lookup_delete_ne.
    + intros k k' s s' [Hs _]%Hsub [Hs' _]%Hsub. by eapply (pk_channels st Hok).
    + apply (pk_made st Hok).
    + intros q. rewrite elem_of_union, elem_of_singleton. intros [->|Hc]; [by apply (pk_made st Hok) | by apply (pk_closed st Hok)].
  - cbn [rbind]. eexists. split; [reflexivity|]. cbn [PluginsWithScheduler set_Plugins]. rewrite (delete_id _ _ E). split; [|done].
    assert (Plugins st !! key = None) as Ep by (by rewrite (pk_maps st Hok), E). rewrite (delete_id _ _ Ep). by destruct Hok.
Qed.

(** A plugin whose ticker can be made. *)
Definition runnable (p : Plugin) : Prop := 0 < i64 (Cycle p * 1000000000).

Lemma start_plugin_ok key p st : plugins_ok st -> PluginsWithScheduler st !! key = None ->
  plugins_ok (mkPluginsState (<[key := p]> (Plugins st)) (<[key := mkPluginScheduler p (made st)]> (PluginsWithScheduler st)) (S (made st)) (closed st)
    (scheduled st ++ [mkPluginScheduler p (made st)])).
Proof.
  intros Hok Hk. split; cbn [Plugins PluginsWithScheduler made closed scheduled].
  - intros k. destruct (decide (k = key)) as [->|Hne]; [by rewrite !lookup_insert_eq|]. rewrite !lookup_insert_ne by done. apply (pk_maps st Hok).
  - intros k s [[<- <-]|[Hne Hs]]%lookup_insert_Some.
    + split; [rewrite elem_of_app; right; left|]. intros Hc%(pk_closed st Hok). cbn in Hc. lia.
    + destruct (pk_running st Hok _ _ Hs). split; [rewrite elem_of_app; auto | done].
  - intros s. rewrite elem_of_app, list_elem_of_singleton. intros [Hs| ->]; [|right; exists key; by rewrite lookup_insert_eq].
    destruct (pk_kept st Hok s Hs) as [?|[k Hk']]; [auto|]. right. exists k. rewrite lookup_insert_ne; [done|]. intros ->. congruence.
  - assert (forall k s, PluginsWithScheduler st !! k = Some s -> Quit s <> made st) as Hfresh.
    { intros k s Hs E. destruct (pk_running st Hok _ _ Hs) as [Hs' _]. apply (pk_made st Hok) in Hs'. lia. }
    intros k1 k2 s1 s2 [[<- <-]|[_ H1]]%lookup_insert_Some [[<- <-]|[_ H2]]%lookup_insert_Some E; [done | by eapply Hfresh in H2 |by eapply Hfresh in H1 |by eapply (pk_channels st Hok)].
  - intros s. rewrite elem_of_app, list_elem_of_singleton. intros [Hs%(pk_made st Hok)| ->]; [lia | cbn; lia].
  - intros q Hq%(pk_closed st Hok). lia.
Qed.

Section LifecycleProofs.
Context `{MapRange}.

(** The plugins that stay: those that are still asked for and whose script did not change. *)
Definition stays (newPlugins : gmap string Plugin) (k : string) (p : Plugin) : bool :=
  match newPlugins !! k with Some q => MTime p =? MTime q | None => false end.

Lemma DelNoUse_loop newPlugins l st : plugins_ok st -> NoDup l.*1 ->
  exists st', rfold (fun st '(currKey, currPlugin) =>
    match newPlugins !! currKey with
    | Some newPlugin => if MTime currPlugin =? MTime newPlugin then Ok st else deletePlugin currKey st
    | None => deletePlugin currKey st
    end) st l = Ok st' /\ plugins_ok st' /\
    (forall k, k ∉ l.*1 -> PluginsWithScheduler st' !! k = PluginsWithScheduler st !! k) /\
    (forall k p, (k, p) ∈ l -> PluginsWithScheduler st' !! k = if stays newPlugins k p then PluginsWithScheduler st !! k else None).
Proof using Type.
  revert st. induction l as [|[k p] l IH]; intros st Hok Hnd; cbn [rfold].
  { exists st. split_and!; try done. intros *. by rewrite elem_of_nil. }
  csimpl in Hnd. apply list.NoDup_cons in Hnd as [Hk Hnd].
  assert (exists st1, match newPlugins !! k with
      | Some newPlugin => if MTime p =? MTime newPlugin then Ok st else deletePlugin k st
      | None => deletePlugin k st
      end = Ok st1 /\ plugins_ok st1 /\ (forall k', k' <> k -> PluginsWithScheduler st1 !! k' = PluginsWithScheduler st !! k') /\
      PluginsWithScheduler st1 !! k = if stays newPlugins k p then PluginsWithScheduler st !! k else None) as (st1 & -> & Hok1 & Hother & Hthis).
  { unfold stays. destruct (deletePlugin_spec k st Hok) as (st1 & E & Hok1 & HW).
    assert (forall k', k' <> k -> PluginsWithScheduler st1 !! k' = PluginsWithScheduler st !! k') as Ho by (intros; by rewrite HW, lookup_delete_ne).
    destruct (newPlugins !! k) as [q|]; [destruct (MTime p =? MTime q); [by exists st|]|].
    all: exists st1; split_and!; try done; by rewrite HW, lookup_delete_eq. }
  cbn [rbind]. destruct (IH st1 Hok1 Hnd) as (st' & -> & Hok' & Hout & Hin). exists st'. split; [done|]. split; [done|]. csimpl. split.
  - intros k' Hk'. rewrite not_elem_of_cons in Hk'. rewrite Hout by tauto. apply Hother. tauto.
  - intros k' p' [[= -> ->]|Hin']%elem_of_cons; [by rewrite Hout|]. rewrite (Hin k' p' Hin'). rewrite Hother; [done|].
    intros ->. apply Hk, list_elem_of_fmap. by exists (k, p').
Qed.

Lemma DelNoUsePlugins_spec newPlugins st : plugins_ok st ->
  exists st', DelNoUsePlugins newPlugins st = Ok st' /\ plugins_ok st' /\
    forall k, PluginsWithScheduler st' !! k =
      s ← PluginsWithScheduler st !! k; if stays newPlugins k (PluginScheduler_Plugin s) then Some s else None.
Proof using Type.
  intros Hok. unfold DelNoUsePlugins.
  destruct (DelNoUse_loop newPlugins (range_pairs (Plugins st)) st Hok) as (st' & -> & Hok' & Hout & Hin).
  { rewrite range_pairs_fst. eapply range_order_NoDup, range_keys_order. }
  exists st'. split; [done|]. split; [done|]. intros k. destruct (PluginsWithScheduler st !! k) as [s|] eqn:E; cbn [mbind option_bind].
  - rewrite (Hin k (PluginScheduler_Plugin s)); [by rewrite E|]. apply elem_of_range_pairs. by rewrite (pk_maps st Hok), E.
  - rewrite Hout; [done|]. rewrite range_pairs_fst, (range_order_elem _ _ _ (range_keys_order _)). rewrite (pk_maps st Hok), E. by intros [].
Qed.

Lemma AddNew_loop (newPlugins : gmap string Plugin) l st : plugins_ok st -> NoDup l.*1 ->
  (forall k p, (k, p) ∈ l -> newPlugins !! k = Some p /\ runnable p) ->
  (forall k s, PluginsWithScheduler st !! k = Some s -> k ∈ l.*1 -> stays newPlugins k (PluginScheduler_Plugin s) = true) ->
  exists st', rfold add_plugin st l = Ok st' /\ plugins_ok st' /\
    (forall k s, PluginsWithScheduler st !! k = Some s -> PluginsWithScheduler st' !! k = Some s) /\
    (forall k, k ∉ l.*1 -> PluginsWithScheduler st' !! k = PluginsWithScheduler st !! k) /\
    (forall k p, (k, p) ∈ l -> PluginsWithScheduler st !! k = None -> exists q, PluginsWithScheduler st' !! k = Some (mkPluginScheduler p q)).
Proof using Type.
  revert st. induction l as [|[k p] l IH]; intros st Hok Hnd Hl Hst; cbn [rfold].
  { exists st. split_and!; try done. intros *. by rewrite elem_of_nil. }
  csimpl in Hnd. apply list.NoDup_cons in Hnd as [Hk Hnd]. destruct (Hl k p) as [Hp Hrun]; [left|].
  unfold add_plugin at 1. rewrite (pk_maps st Hok). destruct (PluginsWithScheduler st !! k) as [s|] eqn:E; cbn [fmap option_fmap option_map].
  - assert (stays newPlugins k (PluginScheduler_Plugin s) = true) as Hs by (eapply Hst; [done|]; csimpl; left).
    unfold stays in Hs. rewrite Hp in Hs. rewrite Z.eqb_sym, Hs. cbn [rbind].
    destruct (IH st Hok Hnd) as (st' & -> & Hok' & Hkeep & Hout & Hin).
    { intros k' p' Hin'. apply Hl. by right. } { intros k' s' Hs' Hin'. eapply Hst; [done|]. csimpl. by right. }
    exists st'. split; [done|]. split; [done|]. split; [done|]. csimpl. split.
    + intros k' Hk'. apply Hout. rewrite not_elem_of_cons in Hk'. tauto.
    + intros k' p' [[= -> ->]|Hin']%elem_of_cons Hn; [congruence | by apply Hin].
  - unfold NewPluginScheduler. unfold runnable in Hrun. rewrite (proj2 (Z.leb_gt _ _)) by done. cbn [rbind].
    unfold Schedule, set_PluginsWithScheduler, set_Plugins. cbn [Plugins PluginsWithScheduler made closed scheduled].
    set (st1 := mkPluginsState (<[k:=p]> (Plugins st)) _ _ _ _).
    assert (plugins_ok st1) as Hok1 by (by apply start_plugin_ok).
    destruct (IH st1 Hok1 Hnd) as (st' & -> & Hok' & Hkeep & Hout & Hin).
    { intros k' p' Hin'. apply Hl. by right. }
    { intros k' s' Hs' Hin'. unfold st1 in Hs'. cbn [PluginsWithScheduler] in Hs'. apply lookup_insert_Some in Hs' as [[<- <-]|[_ Hs']]; [done|]. eapply Hst; [done|]. csimpl. by right. }
    exists st'. split; [done|]. split; [done|]. split; [|csimpl; split].
    + intros k' s' Hs'. apply Hkeep. unfold st1. cbn [PluginsWithScheduler]. rewrite lookup_insert_ne; [done|]. intros ->. congruence.
    + intros k' Hk'. rewrite not_elem_of_cons in Hk'. rewrite Hout by tauto. unfold st1. cbn [PluginsWithScheduler]. rewrite lookup_insert_ne; [done|]. intros ->. tauto.
    + intros k' p' [[= -> ->]|Hin']%elem_of_cons Hn.
      * exists (made st). apply Hkeep. unfold st1. cbn [PluginsWithScheduler]. apply lookup_insert_eq.
      * apply Hin; [done|]. unfold st1. cbn [PluginsWithScheduler]. rewrite lookup_insert_ne; [done|]. intros ->.
        apply Hk, list_elem_of_fmap. by exists (k', p').
Qed.

(** Both loops: the plugins asked for run, and no others. *)
Lemma update_plugins_spec newPlugins st : plugins_ok st -> map_Forall (fun _ p => runnable p) newPlugins ->
  exists st1 st', DelNoUsePlugins newPlugins st = Ok st1 /\ AddNewPlugins newPlugins st1 = Ok st' /\ plugins_ok st' /\
    forall k, match newPlugins !! k with
      | None => PluginsWithScheduler st' !! k = None
      | Some p => exists s, PluginsWithScheduler st' !! k = Some s /\
          (if match PluginsWithScheduler st !! k with Some s0 => MTime (PluginScheduler_Plugin s0) =? MTime p | None => false end
           then PluginsWithScheduler st !! k = Some s else PluginScheduler_Plugin s = p)
      end.
Proof using Type.
  intros Hok Hrun. destruct (DelNoUsePlugins_spec newPlugins st Hok) as (st1 & E1 & Hok1 & HW). unfold AddNewPlugins.
  destruct (AddNew_loop newPlugins (range_pairs newPlugins) st1 Hok1) as (st' & E2 & Hok' & Hkeep & Hout & Hin).
  { rewrite range_pairs_fst. eapply range_order_NoDup, range_keys_order. }
  { intros k p Hkp%elem_of_range_pairs. split; [done|]. by apply (Hrun k). }
  { intros k s. rewrite HW. destruct (PluginsWithScheduler st !! k) as [s0|]; cbn [mbind option_bind]; [|done].
    destruct (stays newPlugins k (PluginScheduler_Plugin s0)) eqn:Es; [by intros [= <-] | done]. }
  exists st1, st'. split; [done|]. split; [done|]. split; [done|]. intros k. destruct (newPlugins !! k) as [p|] eqn:Ep.
  - specialize (HW k). destruct (PluginsWithScheduler st !! k) as [s0|] eqn:Es0; cbn [mbind option_bind] in HW.
    + unfold stays in HW. rewrite Ep in HW. destruct (MTime (PluginScheduler_Plugin s0) =? MTime p); [exists s0; auto|].
      destruct (Hin k p) as [q Hq]; [by apply elem_of_range_pairs | done | eauto].
    + destruct (Hin k p) as [q Hq]; [by apply elem_of_range_pairs | done | eauto].
  - rewrite Hout.
    + rewrite HW. unfold stays. rewrite Ep. by destruct (PluginsWithScheduler st !! k).
    + rewrite range_pairs_fst, (range_order_elem _ _ _ (range_keys_order _)), Ep. by intros [].
Qed.

Lemma ClearAllPlugins_spec st : plugins_ok st -> exists st', ClearAllPlugins st = Ok st' /\ plugins_ok st' /\ PluginsWithScheduler st' = ∅.
Proof using Type.
  intros Hok. unfold ClearAllPlugins.
  assert (forall ks st, plugins_ok st -> exists st', rfold (fun st k => deletePlugin k st) st ks = Ok st' /\ plugins_ok st' /\
    forall k, PluginsWithScheduler st' !! k = if decide (k ∈ ks) then None else PluginsWithScheduler st !! k) as Hgen.
  { clear. induction ks as [|x ks IH]; intros st Hok; cbn [rfold].
    { by exists st. }
    destruct (deletePlugin_spec x st Hok) as (st1 & -> & Hok1 & HW). cbn [rbind]. destruct (IH st1 Hok1) as (st' & -> & Hok' & HW').
    exists st'. split; [done|]. split; [done|]. intros k. rewrite HW', HW. destruct (decide (k ∈ ks)), (decide (k ∈ x :: ks)) as [Hd|Hd]; try done.
    - destruct Hd. by right.
    - apply elem_of_cons in Hd as [->|]; [by rewrite lookup_delete_eq | done].
    - rewrite lookup_delete_ne; [done|]. intros ->. apply Hd. left. }
  destruct (Hgen (range_keys (Plugins st)) st Hok) as (st' & -> & Hok' & HW). exists st'. split; [done|]. split; [done|].
  apply map_empty. intros k. rewrite HW. destruct (decide _) as [|Hd]; [done|]. rewrite (range_order_elem _ _ _ (range_keys_order _)) in Hd.
  rewrite (pk_maps st Hok) in Hd. destruct (PluginsWithScheduler st !! k); [|done]. destruct Hd. eauto.
Qed.

End LifecycleProofs.

(** * What the bindings ask for *)

Definition binding (script : string) : string * string := default (script, "") (path_args script).
Definition bound_file (fs : file_system) (Dir : string) (scripts : list string) (path args : string) : Prop :=
  exists script, script ∈ scripts /\ binding script = (path, args) /\ file_IsExist fs (filepath_Join Dir path) = true /\
    file_IsFile fs (filepath_Join Dir path) = true.
Definition bound_dir (fs : file_system) (Dir : string) (scripts : list string) (path : string) : Prop :=
  exists script args, script ∈ scripts /\ binding script = (path, args) /\ file_IsExist fs (filepath_Join Dir path) = true /\
    file_IsFile fs (filepath_Join Dir path) = false.
Definition cycle_of (name : string) : option Z := a0 ← head (strings_Split name "_"); strconv_Atoi a0.

(** A script bound on its own whose name begins with its cycle, or a script of a bound
    directory that is not bound on its own. *)
Inductive wanted (fs : file_system) (Dir : string) (scripts : list string) : string -> Plugin -> Prop :=
  | wanted_file path args cycle fi :
      bound_file fs Dir scripts path args -> cycle_of (file_name (filepath_Join Dir path)) = Some cycle ->
      os_Stat fs (filepath_Join Dir path) = Some fi ->
      wanted fs Dir scripts (script_key path args) (mkPlugin path (fi_ModTime fi) cycle args)
  | wanted_dir d k p :
      bound_dir fs Dir scripts d -> ListPlugins fs Dir (strings_Trim "/" d) !! k = Some p ->
      (forall args, ~ bound_file fs Dir scripts k args) -> wanted fs Dir scripts k p.

(** A script bound on its own, with a cycle, that is gone when its time is asked for. *)
Definition vanished (fs : file_system) (Dir : string) (scripts : list string) : Prop :=
  exists path args, bound_file fs Dir scripts path args /\ is_Some (cycle_of (file_name (filepath_Join Dir path))) /\
    os_Stat fs (filepath_Join Dir path) = None.

Lemma classify_spec fs Dir scripts :
  let '(files, dirs) := classify fs Dir scripts in
  (forall path args, (path, args) ∈ files <-> bound_file fs Dir scripts path args) /\
  (forall d, d ∈ dirs <-> bound_dir fs Dir scripts d).
Proof.
  unfold classify.
  assert (forall fs0 ds0, let '(files, dirs) := fold_left (fun '(filefmt_scripts, dirfmt_scripts) script =>
      let '(script_path, args) := default (script, "") (path_args script) in
      let abs_path := filepath_Join Dir script_path in
      if negb (file_IsExist fs abs_path) then (filefmt_scripts, dirfmt_scripts)
      else if file_IsFile fs abs_path then (filefmt_scripts ++ [(script_path, args)], dirfmt_scripts)
      else (filefmt_scripts, dirfmt_scripts ++ [script_path])) scripts (fs0, ds0) in
    (forall path args, (path, args) ∈ files <-> (path, args) ∈ fs0 \/ bound_file fs Dir scripts path args) /\
    (forall d, d ∈ dirs <-> d ∈ ds0 \/ bound_dir fs Dir scripts d)) as Hgen.
  2: { specialize (Hgen [] []). destruct (fold_left _ scripts _) as [files dirs]. destruct Hgen as [H1 H2].
       split; [intros path args; rewrite H1 | intros d; rewrite H2]; rewrite elem_of_nil; tauto. }
  induction scripts as [|script scripts IH]; intros fs0 ds0.
  { cbn [fold_left]. split; [intros path args | intros d]; (split; [auto|]); (intros [?|Hb]; [done|]).
    - destruct Hb as (? & []%not_elem_of_nil & _).
    - destruct Hb as (? & ? & []%not_elem_of_nil & _). }
  cbn [fold_left]. change (default (script, "") (path_args script)) with (binding script).
  destruct (binding script) as [path0 args0] eqn:Eb.
  assert (forall path args, bound_file fs Dir (script :: scripts) path args <->
    (binding script = (path, args) /\ file_IsExist fs (filepath_Join Dir path) = true /\ file_IsFile fs (filepath_Join Dir path) = true)
    \/ bound_file fs Dir scripts path args) as Hf.
  { intros path args. unfold bound_file. setoid_rewrite elem_of_cons. split; [|naive_solver]. intros (s & [->|Hs] & Hb); [by left|]. right. eauto. }
  assert (forall d, bound_dir fs Dir (script :: scripts) d <-> ((exists args, binding script = (d, args)) /\ file_IsExist fs (filepath_Join Dir d) = true /\
    file_IsFile fs (filepath_Join Dir d) = false) \/ bound_dir fs Dir scripts d) as Hd.
  { intros d. unfold bound_dir. setoid_rewrite elem_of_cons. split; [|naive_solver]. intros (s & a & [->|Hs] & Hb & Hr); [left; eauto|]. right. eauto 6. }
  destruct (file_IsExist fs (filepath_Join Dir path0)) eqn:Ee; cbn [negb]; [destruct (file_IsFile fs (filepath_Join Dir path0)) eqn:Ef|].
  1: specialize (IH (fs0 ++ [(path0, args0)]) ds0). 2: specialize (IH fs0 (ds0 ++ [path0])). 3: specialize (IH fs0 ds0).
  all: destruct (fold_left _ scripts _) as [files dirs]; destruct IH as [H1 H2];
    (split; [intros path args; rewrite H1, Hf | intros d; rewrite H2, Hd]); rewrite ?elem_of_app, ?list_elem_of_singleton, Eb.
  all: clear H1 H2 Hf Hd; naive_solver congruence.
Qed.

Lemma index_head {A : Type} (l : list A) a : head l = Some a -> index l 0 = Ok a.
Proof. destruct l as [|x l]; [done|]. cbn [head]. intros [= ->]. apply (index_nat (a :: l) 0 a). done. Qed.

(** What one script adds. *)
Definition script_plugin (fs : file_system) (Dir path args : string) : option Plugin :=
  cycle ← cycle_of (file_name (filepath_Join Dir path));
  fi ← os_Stat fs (filepath_Join Dir path);
  Some (mkPlugin path (fi_ModTime fi) cycle args).

Lemma add_script_spec fs Dir path args (m : gmap string Plugin) :
  add_script fs Dir m (path, args) =
    if decide (is_Some (cycle_of (file_name (filepath_Join Dir path))) /\ os_Stat fs (filepath_Join Dir path) = None) then Panic NilDereference
    else Ok (match script_plugin fs Dir path args with Some p => <[script_key path args := p]> m | None => m end).
Proof.
  unfold add_script, script_plugin, cycle_of. pose proof (strings_Split_nonempty (file_name (filepath_Join Dir path)) "_") as Hne.
  destruct (strings_Split (file_name (filepath_Join Dir path)) "_") as [|a0 l]; [done|]. rewrite (index_head (a0 :: l) a0 eq_refl). cbn [rbind head mbind option_bind].
  destruct (strconv_Atoi a0) as [cycle|]; [|by rewrite decide_False by (by intros [[] _])]. cbn [mbind option_bind].
  destruct (os_Stat fs (filepath_Join Dir path)); [by rewrite decide_False by (by intros [_ ?]) | by rewrite decide_True by eauto].
Qed.

(** The scripts bound on their own are all there, or the loop panics. *)
Lemma desired_scripts_spec fs Dir files :
  if decide (Exists (fun '(path, _) => is_Some (cycle_of (file_name (filepath_Join Dir path))) /\ os_Stat fs (filepath_Join Dir path) = None) files)
  then desired_scripts fs Dir files = Panic NilDereference
  else exists m, desired_scripts fs Dir files = Ok m /\
    (forall k p, m !! k = Some p -> exists path args, (path, args) ∈ files /\ k = script_key path args /\ script_plugin fs Dir path args = Some p) /\
    (forall path args, (path, args) ∈ files -> is_Some (script_plugin fs Dir path args) -> is_Some (m !! script_key path args)).
Proof.
  unfold desired_scripts. set (gone := fun '(path, _) => _).
  assert (forall m0 : gmap string Plugin, if decide (Exists gone files) then rfold (add_script fs Dir) m0 files = Panic NilDereference else
    exists m, rfold (add_script fs Dir) m0 files = Ok m /\
    (forall k p, m !! k = Some p -> m0 !! k = Some p \/ exists path args, (path, args) ∈ files /\ k = script_key path args /\ script_plugin fs Dir path args = Some p) /\
    (forall path args, (path, args) ∈ files -> is_Some (script_plugin fs Dir path args) -> is_Some (m !! script_key path args)) /\
    (forall k, is_Some (m0 !! k) -> is_Some (m !! k))) as Hgen.
  2: { specialize (Hgen ∅). destruct (decide _); [done|]. destruct Hgen as (m & E & H1 & H2 & _). exists m. split; [done|]. split; [|done].
       intros k p [Hk|?]%H1; [by rewrite lookup_empty in Hk | done]. }
  induction files as [|[path args] files IH]; intros m0.
  { destruct (decide _) as [Hd|_]; [inversion Hd|]. exists m0. cbn [rfold]. split; [done|]. split; [by left|]. split; [|done]. intros path args []%not_elem_of_nil. }
  cbn [rfold]. rewrite add_script_spec. destruct (decide (is_Some _ /\ _)) as [Hg|Hg]; [by rewrite decide_True by (by left)|]. cbn [rbind].
  set (m1 := match script_plugin _ _ _ _ with Some p => _ | None => _ end). specialize (IH m1).
  destruct (decide (Exists gone files)) as [He|He]; [by rewrite decide_True by (by right)|].
  rewrite decide_False by (intros [?|?]%Exists_cons; done). destruct IH as (m & -> & H1 & H2 & H3). exists m. split; [done|]. split; [|split].
  - intros k p [Hk|(p' & a' & Hin & Hr)]%H1; [|right; exists p', a'; split; [by right | done]]. unfold m1 in Hk.
    destruct (script_plugin fs Dir path args) as [q|] eqn:Eo; [|by left]. apply lookup_insert_Some in Hk as [[<- <-]|[_ Hk]]; [|by left]. right. exists path, args. split; [left | done].
  - intros path' args' [[= -> ->]|Hin]%elem_of_cons Hs; [|by apply H2]. apply H3. unfold m1. destruct Hs as [q ->]. rewrite lookup_insert_eq. eauto.
  - intros k Hk. apply H3. unfold m1. destruct (script_plugin fs Dir path args) as [q|]; [|done].
    destruct (decide (k = script_key path args)) as [->|Hne]; [rewrite lookup_insert_eq; eauto | by rewrite lookup_insert_ne].
Qed.

Section SyncProofs.
Context `{MapRange}.

Lemma desired_dirs_spec fs Dir taken dirs m0 :
  let m := desired_dirs fs Dir taken dirs m0 in
  (forall k p, m !! k = Some p -> m0 !! k = Some p \/ (k ∉ taken) /\ exists d, d ∈ dirs /\ ListPlugins fs Dir (strings_Trim "/" d) !! k = Some p) /\
  (forall k, is_Some (m0 !! k) -> is_Some (m !! k)) /\
  (forall k d p, d ∈ dirs -> ListPlugins fs Dir (strings_Trim "/" d) !! k = Some p -> k ∉ taken -> is_Some (m !! k)).
Proof using Type.
  unfold desired_dirs. revert m0. induction dirs as [|d dirs IH]; intros m0; cbn [fold_left].
  { split; [by left|]. split; [done|]. intros k d p []%not_elem_of_nil. }
  set (ps := ListPlugins fs Dir (strings_Trim "/" d)) in *.
  assert (forall l (m1 : gmap string Plugin), let m2 := fold_left (fun desiredAll '(k, p) => if bool_decide (k ∈ taken) then desiredAll else <[k := p]> desiredAll) l m1 in
    (forall k p, m2 !! k = Some p -> m1 !! k = Some p \/ (k ∉ taken) /\ (k, p) ∈ l) /\ (forall k, is_Some (m1 !! k) -> is_Some (m2 !! k)) /\
    (forall k p, (k, p) ∈ l -> k ∉ taken -> is_Some (m2 !! k))) as Hgen.
  { clear. induction l as [|[k p] l IH]; intros m1; cbn [fold_left].
    { split; [by left|]. split; [done|]. intros k p []%not_elem_of_nil. }
    case_bool_decide as Ht.
    - destruct (IH m1) as (H1 & H2 & H3). split; [|split; [done|]].
      + intros k' p' [?|[? ?]]%H1; [by left|]. right. split; [done | by right].
      + intros k' p' [[= -> ->]|Hin]%elem_of_cons Hn; [done | by eapply H3].
    - destruct (IH (<[k:=p]> m1)) as (H1 & H2 & H3). split; [|split].
      + intros k' p' [Hk|[? ?]]%H1; [|right; split; [done | by right]]. apply lookup_insert_Some in Hk as [[<- <-]|[_ ?]]; [|by left]. right. split; [done | left].
      + intros k' Hk'. apply H2. destruct (decide (k = k')) as [->|]; [rewrite lookup_insert_eq; eauto | by rewrite lookup_insert_ne].
      + intros k' p' [[= -> ->]|Hin]%elem_of_cons Hn; [apply H2; rewrite lookup_insert_eq; eauto | by eapply H3]. }
  destruct (Hgen (range_pairs ps) m0) as (G1 & G2 & G3). set (m1 := fold_left _ (range_pairs ps) m0) in *.
  destruct (IH m1) as (H1 & H2 & H3). split; [|split].
  - intros k p [Hk|(Hn & d' & Hd & Hp)]%H1; [|right; split; [done|]; exists d'; split; [by right | done]].
    apply G1 in Hk as [?|[Hn Hin%elem_of_range_pairs]]; [by left|]. right. split; [done|]. exists d. split; [left | done].
  - intros k Hk. by apply H2, G2.
  - intros k d' p [->|Hd]%elem_of_cons Hp Hn; [|by eapply H3]. apply H2. eapply G3; [by apply elem_of_range_pairs | done].
Qed.

(** The table built from the bindings holds the scripts they want, or one vanished. *)
Lemma desired_spec fs Dir scripts files dirs : classify fs Dir scripts = (files, dirs) ->
  vanished fs Dir scripts /\ desired_scripts fs Dir files = Panic NilDereference \/
  ~ vanished fs Dir scripts /\ exists m, desired_scripts fs Dir files = Ok m /\
    let all := desired_dirs fs Dir (map fst files) dirs m in
    (forall k p, all !! k = Some p -> wanted fs Dir scripts k p) /\ (forall k p, wanted fs Dir scripts k p -> is_Some (all !! k)).
Proof using Type.
  intros Ec. pose proof (classify_spec fs Dir scripts) as Hc. rewrite Ec in Hc. destruct Hc as [Hf Hd].
  pose proof (desired_scripts_spec fs Dir files) as Hs. destruct (decide _) as [He|He].
  { left. split; [|done]. apply list.Exists_exists in He as ([path args] & Hin & Hg). exists path, args. split; [by apply Hf | done]. }
  right. split. { intros (path & args & Hin%Hf & Hg). apply He, list.Exists_exists. by exists (path, args). }
  destruct Hs as (m & -> & H1 & H2). exists m. split; [done|]. intros all. destruct (desired_dirs_spec fs Dir (map fst files) dirs m) as (D1 & D2 & D3). fold all in D1, D2, D3.
  assert (forall k, k ∈ map fst files <-> exists args, bound_file fs Dir scripts k args) as Ht.
  { intros k. change (map fst files) with (fst <$> files). rewrite list_elem_of_fmap. setoid_rewrite <- Hf. split; [intros ([p a] & -> & ?); eauto | intros [a ?]; exists (k, a); auto]. }
  split.
  - intros k p [Hk|(Hn & d & Hin & Hp)]%D1.
    + apply H1 in Hk as (path & args & Hin & -> & Hs). unfold script_plugin in Hs.
      destruct (cycle_of _) as [cycle|] eqn:Ecyc; cbn [mbind option_bind] in Hs; [|done]. destruct (os_Stat _ _) as [fi|] eqn:Efi; [|done].
      injection Hs as <-. apply wanted_file; [by apply Hf | done..].
    + eapply wanted_dir; [by apply Hd | done|]. intros args Hb. apply Hn, Ht. eauto.
  - intros k p [path args cycle fi Hb Hcyc Hfi|d k' p' Hb Hp Hn].
    + apply D2, H2; [by apply Hf|]. unfold script_plugin. rewrite Hcyc, Hfi. eauto.
    + eapply D3; [by apply Hd | done|]. rewrite Ht. intros [args ?]. by eapply Hn.
Qed.

(** C29. The scripts that run follow the bindings of the heartbeat server. When an
    answer newer than the last is taken, whatever is bound and however the answers of
    the file system change during the round, the round panics if a script bound on its
    own, whose name begins with a cycle, is gone when its time is asked for. Otherwise,
    if every wanted script has a cycle for which a ticker can be made, it does not, and
    afterwards exactly the wanted scripts have a scheduler: a script bound on its own
    under its path and arguments, and a script of a bound directory whose path is not
    also the text of a binding. (The comment in cron/plugin.go says that a script bound
    on its own is ignored in its directory; bound with a leading slash it is not, and
    runs twice.) A scheduler runs on only if the script has not changed since; every
    other one started so far was told to quit, and no channel is closed twice. *)
Theorem syncMinePlugins_correct hostname resp fs Dir timestamp st :
  plugins_ok st -> timestamp < resp_Timestamp resp ->
  (vanished fs Dir (resp_Plugins resp) -> syncMinePlugins (Some hostname) (Some resp) fs Dir timestamp st = Panic NilDereference) /\
  (~ vanished fs Dir (resp_Plugins resp) -> (forall k p, wanted fs Dir (resp_Plugins resp) k p -> runnable p) ->
   exists st', syncMinePlugins (Some hostname) (Some resp) fs Dir timestamp st = Ok (resp_Timestamp resp, st') /\ plugins_ok st' /\
    (forall k s, PluginsWithScheduler st' !! k = Some s -> exists p, wanted fs Dir (resp_Plugins resp) k p /\
      if match PluginsWithScheduler st !! k with Some s0 => MTime (PluginScheduler_Plugin s0) =? MTime p | None => false end
      then PluginsWithScheduler st !! k = Some s else PluginScheduler_Plugin s = p) /\
    (forall k p, wanted fs Dir (resp_Plugins resp) k p -> is_Some (PluginsWithScheduler st' !! k)) /\
    (forall s, s ∈ scheduled st' -> Quit s ∈ closed st' \/ exists k, PluginsWithScheduler st' !! k = Some s)).
Proof using Type.
  intros Hok Ht. unfold syncMinePlugins. rewrite (proj2 (Z.leb_gt _ _)) by done.
  destruct (length (resp_Plugins resp) =? 0)%nat eqn:El.
  { apply Nat.eqb_eq, nil_length_inv in El. rewrite El in *. split; [by intros (? & ? & (? & []%not_elem_of_nil & _) & _)|]. intros _ _.
    destruct (ClearAllPlugins_spec st Hok) as (st' & -> & Hok' & HE). cbn [rbind].
    exists st'. split; [done|]. split; [done|]. rewrite HE. split; [intros k s; by rewrite lookup_empty|]. split; [|rewrite <- HE; apply (pk_kept st' Hok')].
    intros k p [? ? ? ? (s & []%not_elem_of_nil & _) _ _|? ? ? (s & a & []%not_elem_of_nil & _) _ _]. }
  destruct (classify fs Dir (resp_Plugins resp)) as [files dirs] eqn:Ec.
  destruct (desired_spec fs Dir _ files dirs Ec) as [[Hv ->]|(Hv & m & -> & Hsound & Hcomplete)]; [by split|]. split; [done|]. intros _ Hrun. cbn [rbind].
  set (all := desired_dirs fs Dir (map fst files) dirs m) in *.
  destruct (update_plugins_spec all st Hok) as (st1 & st' & -> & E2 & Hok' & HW).
  { intros k p Hk. eapply Hrun, Hsound, Hk. }
  cbn [rbind]. rewrite E2. cbn [rbind]. exists st'. split; [done|]. split; [done|]. split; [|split; [|apply (pk_kept st' Hok')]].
  - intros k s Hs. specialize (HW k). destruct (all !! k) as [p|] eqn:Ek; [|congruence]. destruct HW as (s' & Hs' & Hc).
    assert (s' = s) as -> by congruence. exists p. split; [by apply Hsound | done].
  - intros k p Hw. specialize (HW k). destruct (Hcomplete k p Hw) as [q Hq]. rewrite Hq in HW. destruct HW as (s & -> & _). eauto.
Qed.

End SyncProofs.

(** * Examples *)

(** An escaped comma in the first argument does not join its two halves, and of two
    escaped commas in an argument only the first does. *)
Example args_first_escaped : PluginArgsParse "a\,b,c" = ["a"; "b"; "c"] /\ PluginArgsParse "x,a\,b\,c" = ["x"; "a,b"; "c"].
Proof. vm_compute. split; reflexivity. Qed.

(** The directory sys with two scripts, one of them named after a cycle of 0. *)
Definition sample_stat (names : list string) (p : string) : option file_info :=
  if bool_decide (p = "plugin/sys") then Some (mkFileInfo true 1)
  else if existsb (fun n => bool_decide (p = "plugin/sys/" +:+ n)) names then Some (mkFileInfo false 7) else None.
Definition sample_fs (names : list string) : file_system :=
  mkFileSystem (fun p => bool_decide (is_Some (sample_stat names p)))
    (fun p => match sample_stat names p with Some fi => negb (fi_IsDir fi) | None => false end) (sample_stat names)
    (fun p => if bool_decide (p = "plugin/sys") then Some (map (fun n => (n, mkFileInfo false 7)) names) else None).
Definition no_plugins : PluginsState := mkPluginsState ∅ ∅ 0 ∅ [].

Lemma no_plugins_ok : plugins_ok no_plugins.
Proof. split; cbn; try done. all: intros *; rewrite ?elem_of_nil, ?lookup_empty; done. Qed.

(** A script whose name starts with a cycle of 0 stops the whole agent. *)
Example zero_cycle_panics :
  syncMinePlugins (H := map_range_default) (Some "h") (Some (mkAgentPluginsResponse ["sys"] 10)) (sample_fs ["60_a.sh"; "0_b.sh"]) "./plugin" (-1) no_plugins
    = Panic NonPositiveTicker.
Proof. vm_compute. reflexivity. Qed.

(** A script that is removed between two questions, as [git pull] does it, stops it too. *)
Definition pulled_fs : file_system :=
  mkFileSystem (file_IsExist (sample_fs ["60_a.sh"])) (file_IsFile (sample_fs ["60_a.sh"])) (os_Stat (sample_fs [])) (ioutil_ReadDir (sample_fs [])).
Example vanished_panics :
  syncMinePlugins (H := map_range_default) (Some "h") (Some (mkAgentPluginsResponse ["sys/60_a.sh"] 10)) pulled_fs "./plugin" (-1) no_plugins
    = Panic NilDereference.
Proof. vm_compute. reflexivity. Qed.

(** A script is recognised as bound on its own by its text only: written with a
    leading slash it runs a second time for its directory. *)
Example slash_runs_twice :
  (let! (_, st) := syncMinePlugins (H := map_range_default) (Some "h") (Some (mkAgentPluginsResponse ["/sys/60_a.sh"; "sys"] 10))
      (sample_fs ["60_a.sh"]) "./plugin" (-1) no_plugins in Ok (length (scheduled st))) = Ok 2%nat.
Proof. vm_compute. reflexivity. Qed.

(** What a script printed on its standard error decides: its exit status is then
    forgotten, and the metrics of a script that failed are sent. *)
Example failure_forgotten mvs :
  let run err log := fun _ : string * list string => mkPluginRun false true false "[]" err log in
  let send err log := PluginRun (fun _ => Some mvs) (sample_fs ["60_a.sh"]) "plugin" (mkPlugin "sys/60_a.sh" 7 60 "") (run err log) in
  send "" false = None /\ send "disk is read-only" false = Some mvs /\ send "disk is read-only" true = None.
Proof. vm_compute. repeat split. Qed.

Lemma PluginArgsParse_roundtrip_witness : PluginArgsParse "a,b\,c,-v" = ["a"; "b,c"; "-v"].
Proof.
  apply (PluginArgsParse_roundtrip "a" [Pair "b" "c"; Plain "-v"]).
  - vm_compute. repeat split.
  - repeat constructor; try (vm_compute; repeat split; fail); discriminate.
  - intros s [= <-]. discriminate.
Defined.

Lemma syncMinePlugins_correct_witness :
  exists st', syncMinePlugins (H := map_range_default) (Some "h") (Some (mkAgentPluginsResponse ["sys/60_a.sh(x)"] 10)) (sample_fs ["60_a.sh"]) "./plugin" (-1) no_plugins
    = Ok (10, st') /\ plugins_ok st' /\ is_Some (PluginsWithScheduler st' !! "sys/60_a.sh(x)").
Proof.
  set (resp := mkAgentPluginsResponse ["sys/60_a.sh(x)"] 10).
  assert (forall path args, bound_file (sample_fs ["60_a.sh"]) "./plugin" (resp_Plugins resp) path args -> path = "sys/60_a.sh" /\ args = "x") as Hb.
  { intros path args (s & Hs%list_elem_of_singleton & E & _). subst s. vm_compute in E. injection E as <- <-. done. }
  destruct (syncMinePlugins_correct (H := map_range_default) "h" resp (sample_fs ["60_a.sh"]) "./plugin" (-1) no_plugins no_plugins_ok) as [_ Hsync]; [reflexivity|].
  destruct Hsync as (st' & H1 & H2 & _ & H4 & _).
  - intros (path & args & [-> ->]%Hb & _ & Hn). vm_compute in Hn. discriminate Hn.
  - intros k p [path args cycle fi Hf Hc _|d k' p' (s & a & Hs%list_elem_of_singleton & E & He & Hf) _ _].
    + apply Hb in Hf as [-> ->]. vm_compute in Hc. injection Hc as <-. unfold runnable. reflexivity.
    + subst s. vm_compute in E. injection E as <- <-. vm_compute in Hf. discriminate Hf.
  - exists st'. split; [exact H1|]. split; [exact H2|]. apply (H4 "sys/60_a.sh(x)" (mkPlugin "sys/60_a.sh" 7 60 "x")).
    apply (wanted_file _ _ _ "sys/60_a.sh" "x" 60 (mkFileInfo false 7)); [|reflexivity|reflexivity].
    exists "sys/60_a.sh(x)". split; [left|]. repeat split; reflexivity.
Defined.
