(* ===== verification/Agent.v ===== *)
(** modules/agent/g and cron: what the agent is asked to report, the rounds that
    collect metrics, and the clients that send them to the transfers. *)
From Stdlib Require Import Ascii ZArith.
From stdpp Require Import base list gmap strings numbers sorting.
From S2P Require Import Prelude GoString GoFloat GoText Utils Model JsonWire ThirdParty TransferCfg TransferSender TransferTasks TransferRecv Hbs AgentFuncs AgentPlugins.

Local Open Scope Z_scope.

(** * g/cfg.go, g/tool.go *)

(** [None] is an error of [os.Hostname]. *)
Definition g_Hostname (cfg_hostname env_endpoint : string) (os_Hostname : option string) : option string :=
  if negb (bool_decide (cfg_hostname = "")) then Some cfg_hostname
  else if negb (bool_decide (env_endpoint = "")) then Some env_endpoint
  else os_Hostname.
Definition g_IP (cfg_ip LocalIp : string) : string :=
  if negb (bool_decide (cfg_ip = "")) then cfg_ip else if 0 <? str_len LocalIp then LocalIp else cfg_ip.

(** [git] is the output of [git rev-parse HEAD], or the text of the error. *)
Definition GetCurrPluginVersion (enabled dir_exists : bool) (git : string + string) : string :=
  if negb enabled then "plugin not enabled"
  else if negb dir_exists then "plugin dir not existent"
  else match git with inr err => "Error:" +:+ err | inl out => strings_TrimSpace out end.

(** * g/var.go: trusted addresses *)

Definition SetTrustableIps (ipStr : string) : list string := strings_Split ipStr ",".
Definition IsTrustable (ips : list string) (remoteAddr : string) : bool :=
  let ip := match cut_last ":" remoteAddr with
            | Some (a, _) => if 0 <? str_len a then a else remoteAddr
            | None => remoteAddr
            end in
  if bool_decide (ip = "127.0.0.1") then true else bool_decide (ip ∈ ips).
(** A turn of [syncTrustableIps]. *)
Definition syncTrustableIps (resp : option string) (ips : list string) : list string :=
  match resp with None => ips | Some s => SetTrustableIps s end.

(** * g/rpc.go *)

(** How a remote call ends. *)
Inductive call_end := CallTimeout | CallFailed | CallDone.

(** The connection is open or not; [dials] are the outcomes of the attempts to open
    it, each of which may fail. The number of the attempt goes from 1 to 4. *)
Fixpoint serverConn_loop (fuel retry : nat) (dials : nat -> bool) : bool :=
  match fuel with
  | O => false
  | S fuel => if dials retry then true else if (3 <? retry)%nat then false else serverConn_loop fuel (S retry) dials
  end.
Definition serverConn (dials : nat -> bool) (open : bool) : bool := if open then true else serverConn_loop 4 1 dials.

(** The state of the connection afterwards, and whether the call succeeded. *)
Definition Call (dials : nat -> bool) (e : call_end) (open : bool) : bool * bool :=
  if negb (serverConn dials open) then (false, false)
  else match e with
       | CallTimeout => (false, false)
       | CallFailed => (false, false)
       | CallDone => (true, true)
       end.

(** * g/transfer.go *)

(** The clients that were made, and whether the connection of each is open. *)
Abbreviation clients := (gmap string bool) (only parsing).
Definition getTransferClient (addr : string) (cs : clients) : option bool := cs !! addr.
Definition initTransferClient (addr : string) (cs : clients) : clients := <[addr := false]> cs.
Definition updateMetrics (env : (nat -> bool) * call_end) (addr : string) (cs : clients) : clients * bool :=
  let '(open, ok) := Call (fst env) (snd env) (default false (cs !! addr)) in
  (<[addr := open]> cs, ok).

(** [order] is what is left of [rand.Perm]; [env] tells how the call of each index
    goes. The addresses that were called, and the one that took the metrics. *)
Fixpoint SendMetrics_loop (Addrs : list string) (env : Z -> (nat -> bool) * call_end) (order : list Z) (cs : clients) (called : list string)
    : result (clients * list string * option string) :=
  match order with
  | [] => Ok (cs, called, None)
  | i :: order =>
      let! addr := index Addrs i in
      let cs := match getTransferClient addr cs with Some _ => cs | None => initTransferClient addr cs end in
      let '(cs, ok) := updateMetrics (env i) addr cs in
      if ok then Ok (cs, called ++ [addr], Some addr) else SendMetrics_loop Addrs env order cs (called ++ [addr])
  end.
Definition SendMetrics (Addrs : list string) (env : Z -> (nat -> bool) * call_end) (perm : list Z) (cs : clients)
    : result (clients * list string * option string) :=
  SendMetrics_loop Addrs env perm cs [].

(** * g/var.go: sending *)

Definition set_Tags (tags : string) (mv : MetricValue) : MetricValue :=
  mkMetricValue (MetricValue_Endpoint mv) (MetricValue_Metric mv) (MetricValue_Value mv) (MetricValue_Step mv) (MetricValue_Type mv) tags
    (MetricValue_Timestamp mv).

Section Send.
Context `{MapRange}.

Definition default_tags_text (dt : gmap string string) : string := strings_Join (map (fun '(k, v) => k +:+ "=" +:+ v) (range_pairs dt)) ",".

(** The batch that is sent; nil pointers in it are not looked at when there are no
    default tags. *)
Definition tag_metrics (dt : gmap string string) (metrics : list (option MetricValue)) : result (list (option MetricValue)) :=
  if (size dt =? 0)%nat then Ok metrics
  else
    let default_tags := default_tags_text dt in
    rfold (fun out x =>
      match x with
      | None => Panic NilDereference
      | Some mv =>
          Ok (out ++ [Some (set_Tags (if bool_decide (MetricValue_Tags mv = "") then default_tags
                                      else MetricValue_Tags mv +:+ "," +:+ default_tags) mv)])
      end) [] metrics.

Definition SendToTransfer (dt : gmap string string) (Addrs : list string) (env : Z -> (nat -> bool) * call_end) (perm : list Z)
    (metrics : list (option MetricValue)) (cs : clients) : result (clients * option (list (option MetricValue) * list string * option string)) :=
  if (length metrics =? 0)%nat then Ok (cs, None)
  else
    let! metrics := tag_metrics dt metrics in
    let! (cs, called, taken) := SendMetrics Addrs env perm cs in
    Ok (cs, Some (metrics, called, taken)).

(** * cron/collector.go *)

(** Ticks of [InitDataHistory]. *)
Definition InitDataHistory_tick (ps : option ProcStat) (ds : option (list DiskStats)) (h : cpu_history * disk_history) : cpu_history * disk_history :=
  (UpdateCpuStat ps (fst h), UpdateDiskStats ds (snd h)).

(** The metrics of a round of [collect], before they are sent. *)
Definition collect (sec now : Z) (hostname : string) (ignoreMetrics : gmap string bool) (fns : list (result (list MetricValue)))
    : result (list MetricValue) :=
  let! mvs := rfold (fun mvs fn =>
    let! items := fn in
    Ok (mvs ++ List.filter (fun mv => negb (default false (ignoreMetrics !! MetricValue_Metric mv))) items)) [] fns in
  Ok (map (fun mv => mkMetricValue hostname (MetricValue_Metric mv) (MetricValue_Value mv) sec (MetricValue_Type mv) (MetricValue_Tags mv) now) mvs).

End Send.

(** * http/push.go *)

(** The answer to a push, and the batch it hands on. *)
Definition push (ContentLength : Z) (decoded : option (list (option MetricValue))) : string * option (list (option MetricValue)) :=
  if ContentLength =? 0 then ("body is blank", None)
  else match decoded with None => ("connot decode body", None) | Some metrics => ("success", Some metrics) end.

(** * cron/reporter.go *)

Definition report_request (hostname : string + string) (ip version plugin_version : string) : AgentReportRequest :=
  mkAgentReportRequest (match hostname with inl h => h | inr err => "error:" +:+ err end) ip version plugin_version.

(** * cron/builtin.go *)

Definition URL_CHECK_HEALTH : string := "url.check.health".
Definition NET_PORT_LISTEN : string := "net.port.listen".
Definition DU_BS : string := "du.bs".
Definition PROC_NUM : string := "proc.num".

(** The entry of a metric for a URL: the address and its timeout, both of the form
    name=value. *)
Definition url_entry (tags : string) : option (string * string) :=
  match strings_Split tags "," with
  | [a0; a1] =>
      match strings_Split a0 "=", strings_Split a1 "=" with
      | [_; url], [_; stime] => match strconv_ParseInt 64 stime with Some _ => Some (url, stime) | None => None end
      | _, _ => None
      end
  | _ => None
  end.
Definition port_entry (tags : string) : option Z :=
  match strings_Split tags "=" with [_; v] => strconv_ParseInt 64 v | _ => None end.
Definition path_entry (tags : string) : option string :=
  match strings_Split tags "=" with [_; v] => Some (strings_TrimSpace v) | _ => None end.
(** The prefixes are five and eight bytes long. *)
Definition proc_entry (tags : string) : gmap Z string :=
  fold_left (fun m a =>
    if strings_HasPrefix a "name=" then <[1 := strings_TrimSpace (str_drop 5 a)]> m
    else if strings_HasPrefix a "cmdline=" then <[2 := strings_TrimSpace (str_drop 8 a)]> m
    else m) (strings_Split tags ",") ∅.

(** One metric of the answer. *)
Definition builtin_metric (rep : reports) (m : BuiltinMetric) : reports :=
  let name := BuiltinMetric_Metric m in
  let tags := BuiltinMetric_Tags m in
  if bool_decide (name = URL_CHECK_HEALTH) then
    match url_entry tags with
    | Some (url, stime) => mkReports (<[url := stime]> (ReportUrls rep)) (ReportPorts rep) (ReportProcs rep) (DuPaths rep)
    | None => rep
    end
  else if bool_decide (name = NET_PORT_LISTEN) then
    match port_entry tags with
    | Some port => mkReports (ReportUrls rep) (ReportPorts rep ++ [port]) (ReportProcs rep) (DuPaths rep)
    | None => rep
    end
  else if bool_decide (name = DU_BS) then
    match path_entry tags with
    | Some path => mkReports (ReportUrls rep) (ReportPorts rep) (ReportProcs rep) (DuPaths rep ++ [path])
    | None => rep
    end
  else if bool_decide (name = PROC_NUM) then
    mkReports (ReportUrls rep) (ReportPorts rep) (<[tags := proc_entry tags]> (ReportProcs rep)) (DuPaths rep)
  else rep.
Definition no_reports : reports := mkReports ∅ [] ∅ [].
Definition builtin_reports (metrics : list BuiltinMetric) : reports := fold_left builtin_metric metrics no_reports.

Record BuiltinMetricResponse := mkBuiltinMetricResponse {
  BuiltinMetrics : list BuiltinMetric; BuiltinChecksum : string; BuiltinTimestamp : Z }.
(** The variables of the loop, and what the agent reports. *)
Record builtin_state := mkBuiltinState { timestamp : Z; checksum : string; reporting : reports }.
Definition builtin_init : builtin_state := mkBuiltinState (-1) "nil" no_reports.

(** A turn of [syncBuiltinMetrics]; [resp] answers a request with the checksum of the
    state, and [None] is an error of the call. *)
Definition syncBuiltinMetrics (hostname : option string) (resp : string -> string -> option BuiltinMetricResponse) (st : builtin_state) : builtin_state :=
  match hostname with
  | None => st
  | Some hostname =>
      match resp hostname (checksum st) with
      | None => st
      | Some resp =>
          if BuiltinTimestamp resp <=? timestamp st then st
          else if bool_decide (BuiltinChecksum resp = checksum st) then st
          else mkBuiltinState (BuiltinTimestamp resp) (BuiltinChecksum resp) (builtin_reports (BuiltinMetrics resp))
      end
  end.

(** * The agent and the heartbeat server *)

(** What the server answers at a time; it leaves the reply empty on an error of the
    database. *)
Definition hbs_builtin `{NIntSet} (now : Z) (db : table (Z * BuiltinMetric)) (st : HbsState) (hostname sum : string) : BuiltinMetricResponse :=
  match Agent_BuiltinMetrics db st hostname sum with
  | Some (metrics, digest) => mkBuiltinMetricResponse metrics digest now
  | None => mkBuiltinMetricResponse [] "" 0
  end.

(** The turns of the loop: the call fails, or the server answers from what it holds
    then, its clock not running backwards. *)
Inductive builtin_reach (hostname : string) : builtin_state -> Prop :=
  | reach_init : builtin_reach hostname builtin_init
  | reach_fail st : builtin_reach hostname st -> builtin_reach hostname (syncBuiltinMetrics (Some hostname) (fun _ _ => None) st)
  | reach_answer (S : NIntSet) st now db hst : builtin_reach hostname st -> 0 <= now ->
      builtin_reach hostname (syncBuiltinMetrics (Some hostname) (fun h sum => Some (hbs_builtin now db hst h sum)) st).

(** What the agent reports when it is asked for the metrics of a set. *)
Record watches (P : BuiltinMetric -> Prop) (rep : reports) : Prop := {
  watch_ports p : p ∈ ReportPorts rep <-> exists m, P m /\ BuiltinMetric_Metric m = NET_PORT_LISTEN /\ port_entry (BuiltinMetric_Tags m) = Some p;
  watch_paths p : p ∈ DuPaths rep <-> exists m, P m /\ BuiltinMetric_Metric m = DU_BS /\ path_entry (BuiltinMetric_Tags m) = Some p;
  watch_procs t : ReportProcs rep !! t = Some (proc_entry t) /\ P (mkBuiltinMetric PROC_NUM t) \/
    ReportProcs rep !! t = None /\ ~ P (mkBuiltinMetric PROC_NUM t);
  watch_urls u : is_Some (ReportUrls rep !! u) <->
    exists m s, P m /\ BuiltinMetric_Metric m = URL_CHECK_HEALTH /\ url_entry (BuiltinMetric_Tags m) = Some (u, s) }.

Lemma watches_ext (P Q : BuiltinMetric -> Prop) rep : (forall m, P m <-> Q m) -> watches P rep -> watches Q rep.
Proof. intros HPQ [H1 H2 H3 H4]. split; setoid_rewrite <- HPQ; done. Qed.

Lemma builtin_metric_watches (P : BuiltinMetric -> Prop) rep x : watches P rep -> watches (fun m => P m \/ m = x) (builtin_metric rep x).
Proof.
  intros [H1 H2 H3 H4]. destruct x as [name tags]. unfold builtin_metric. cbn [BuiltinMetric_Metric BuiltinMetric_Tags].
  assert (forall (R : BuiltinMetric -> Prop), (exists m, (P m \/ m = mkBuiltinMetric name tags) /\ R m) <-> (exists m, P m /\ R m) \/ R (mkBuiltinMetric name tags)) as Hex.
  { intros R. split; [intros (m & [?| ->] & ?); eauto | intros [(m & ? & ?)|?]; eauto]. }
  assert (forall (R : BuiltinMetric -> string -> Prop), (exists m s, (P m \/ m = mkBuiltinMetric name tags) /\ R m s) <->
    (exists m s, P m /\ R m s) \/ exists s, R (mkBuiltinMetric name tags) s) as Hex2.
  { intros R. split; [intros (m & s & [?| ->] & ?); eauto | intros [(m & s & ? & ?)|[s ?]]; eauto]. }
  assert (name <> PROC_NUM -> forall t, ReportProcs rep !! t = Some (proc_entry t) /\ (P (mkBuiltinMetric PROC_NUM t) \/ mkBuiltinMetric PROC_NUM t = mkBuiltinMetric name tags) \/
    ReportProcs rep !! t = None /\ ~ (P (mkBuiltinMetric PROC_NUM t) \/ mkBuiltinMetric PROC_NUM t = mkBuiltinMetric name tags)) as Hproc.
  { intros Hn t. destruct (H3 t) as [[? ?]|[? Hno]]; [auto|]. right. split; [done|]. intros [?|E]; [done|]. by injection E as <- _. }
  assert (name <> NET_PORT_LISTEN \/ port_entry tags = None -> forall p, p ∈ ReportPorts rep <->
    exists m, (P m \/ m = mkBuiltinMetric name tags) /\ BuiltinMetric_Metric m = NET_PORT_LISTEN /\ port_entry (BuiltinMetric_Tags m) = Some p) as Hports.
  { intros Hn p. rewrite H1, Hex. cbn [BuiltinMetric_Metric BuiltinMetric_Tags]. intuition congruence. }
  assert (name <> DU_BS \/ path_entry tags = None -> forall p, p ∈ DuPaths rep <->
    exists m, (P m \/ m = mkBuiltinMetric name tags) /\ BuiltinMetric_Metric m = DU_BS /\ path_entry (BuiltinMetric_Tags m) = Some p) as Hpaths.
  { intros Hn p. rewrite H2, Hex. cbn [BuiltinMetric_Metric BuiltinMetric_Tags]. intuition congruence. }
  assert (name <> URL_CHECK_HEALTH \/ url_entry tags = None -> forall u, is_Some (ReportUrls rep !! u) <->
    exists m s, (P m \/ m = mkBuiltinMetric name tags) /\ BuiltinMetric_Metric m = URL_CHECK_HEALTH /\ url_entry (BuiltinMetric_Tags m) = Some (u, s)) as Hurls.
  { intros Hn u. rewrite H4, Hex2. cbn [BuiltinMetric_Metric BuiltinMetric_Tags]. split; [auto|]. intros [?|[s [? ?]]]; [done|]. intuition congruence. }
  repeat case_bool_decide; subst.
  - destruct (url_entry tags) as [[url stime]|] eqn:E; [|split; auto; (apply Hports || apply Hpaths || apply Hproc); auto; discriminate].
    split; cbn [ReportPorts ReportUrls ReportProcs DuPaths]; [apply Hports; auto | apply Hpaths; auto | by apply Hproc |].
    intros u. rewrite lookup_insert_is_Some, H4, Hex2. cbn [BuiltinMetric_Metric BuiltinMetric_Tags]. rewrite E.
    destruct (decide (url = u)) as [->|Hne]; [split; eauto 6|]. split; [tauto|]. intros [?|(s & _ & [= ? ?])]; [auto | done].
  - destruct (port_entry tags) as [port|] eqn:E; [|split; auto; (apply Hpaths || apply Hproc || apply Hurls); auto].
    split; cbn [ReportPorts ReportUrls ReportProcs DuPaths]; [|apply Hpaths; auto | by apply Hproc | apply Hurls; auto].
    intros p. rewrite elem_of_app, list_elem_of_singleton, H1, Hex. cbn [BuiltinMetric_Metric BuiltinMetric_Tags]. rewrite E. intuition congruence.
  - destruct (path_entry tags) as [path|] eqn:E; [|split; auto; (apply Hports || apply Hproc || apply Hurls); auto].
    split; cbn [ReportPorts ReportUrls ReportProcs DuPaths]; [apply Hports; auto | | by apply Hproc | apply Hurls; auto].
    intros p. rewrite elem_of_app, list_elem_of_singleton, H2, Hex. cbn [BuiltinMetric_Metric BuiltinMetric_Tags]. rewrite E. intuition congruence.
  - split; cbn [ReportPorts ReportUrls ReportProcs DuPaths]; [apply Hports; auto | apply Hpaths; auto | intros t | apply Hurls; auto].
    destruct (decide (t = tags)) as [->|Hne]; [rewrite lookup_insert_eq; auto|]. rewrite lookup_insert_ne by done.
    destruct (H3 t) as [[? ?]|[? Hno]]; [auto|]. right. split; [done|]. intros [?|[= ?]]; done.
  - split; [apply Hports | apply Hpaths | apply Hproc | apply Hurls]; auto.
Qed.

Lemma builtin_reports_watches ms : watches (fun m => m ∈ ms) (builtin_reports ms).
Proof.
  unfold builtin_reports.
  assert (forall l rep (P : BuiltinMetric -> Prop), watches P rep -> watches (fun m => P m \/ m ∈ l) (fold_left builtin_metric l rep)) as Hgen.
  { induction l as [|x l IH]; intros rep P HP; cbn [fold_left].
    - eapply watches_ext; [|exact HP]. intros m. rewrite elem_of_nil. tauto.
    - eapply watches_ext; [|apply IH, builtin_metric_watches, HP]. intros m. rewrite elem_of_cons. tauto. }
  eapply watches_ext; [|apply (Hgen ms no_reports (fun _ => False))]; [intros m; cbn; tauto|].
  split; cbn; intros *; rewrite ?elem_of_nil, ?lookup_empty; naive_solver.
Qed.

(** The checksum of a list of metrics. *)
Definition metrics_digest (ms : list BuiltinMetric) : string := if (0 <? length ms)%nat then DigestBuiltinMetrics ms else "".

#[global] Instance metrics_digest_perm : Proper (Permutation ==> eq) metrics_digest.
Proof. intros ms ms' Hp. unfold metrics_digest. by rewrite (Permutation_length Hp), (digest_perm _ _ Hp). Qed.

Lemma metrics_digest_nil ms : metrics_digest ms <> "nil".
Proof.
  unfold metrics_digest. destruct (0 <? length ms)%nat; [|discriminate]. rewrite digest_strings. intros E.
  pose proof (Md5_shape (foldr String.app "" (sort_Strings (map BuiltinMetric_String ms)))) as [Hl _]. rewrite E in Hl. discriminate Hl.
Qed.

Lemma hbs_builtin_spec `{NIntSet} now rows hst hostname sum : hostname <> "" ->
  exists current, NoDup current /\ (forall m, m ∈ current <-> host_metric hst rows hostname m) /\
    hbs_builtin now (Some rows) hst hostname sum
      = mkBuiltinMetricResponse (if bool_decide (sum = metrics_digest current) then [] else merge_sort metric_le current) (metrics_digest current) now.
Proof.
  intros Hh. destruct (GetBuiltinMetrics_spec rows hst hostname) as (ret & E & Hnd & Hin). exists ret. split; [done|]. split; [done|].
  unfold hbs_builtin, Agent_BuiltinMetrics. rewrite bool_decide_eq_false_2 by done. by rewrite E.
Qed.

(** What the agent holds came from the server under the checksum it keeps. *)
Definition builtin_ok (st : builtin_state) : Prop :=
  st = builtin_init \/ exists ms, reporting st = builtin_reports ms /\ checksum st = metrics_digest ms.

Lemma builtin_reach_ok hostname st : hostname <> "" -> builtin_reach hostname st -> builtin_ok st.
Proof.
  intros Hh. induction 1 as [|st _ IH|S st now db hst _ IH Hnow]; [by left | done|]. unfold syncBuiltinMetrics.
  destruct (BuiltinTimestamp _ <=? timestamp st); [done|]. case_bool_decide as Ec; [done|]. right. cbn [reporting checksum]. destruct db as [rows|].
  - destruct (hbs_builtin_spec now rows hst hostname (checksum st) Hh) as (cur & _ & _ & E). rewrite E in Ec |- *. cbn [BuiltinMetrics BuiltinChecksum] in *.
    rewrite bool_decide_eq_false_2 by congruence. eexists. split; [reflexivity|]. by rewrite merge_sort_Permutation.
  - assert (exists c, hbs_builtin now None hst hostname (checksum st) = mkBuiltinMetricResponse [] "" c) as [c E].
    { unfold hbs_builtin, Agent_BuiltinMetrics. rewrite bool_decide_eq_false_2 by done. unfold GetBuiltinMetrics.
      destruct (HostMap hst !! hostname) as [hid|]; cbn [mbind option_bind].
      2: { case_bool_decide; eauto. } 
      destruct (HostGroupsMap hst !! hid) as [gids|]; cbn [mbind option_bind]; [|case_bool_decide; eauto].
      destruct (iset_ToSlice _); cbn; [case_bool_decide; eauto|eauto]. }
    rewrite E. exists []. done.
Qed.

Lemma sync_answer `{NIntSet} hostname st now rows hst : hostname <> "" -> builtin_ok st -> timestamp st < now ->
  exists current, NoDup current /\ (forall m, m ∈ current <-> host_metric hst rows hostname m) /\
    let st' := syncBuiltinMetrics (Some hostname) (fun h sum => Some (hbs_builtin now (Some rows) hst h sum)) st in
    checksum st' = metrics_digest current /\
    exists ms, watches (fun m => m ∈ ms) (reporting st') /\ metrics_digest ms = metrics_digest current /\
      (checksum st <> metrics_digest current -> ms ≡ₚ current).
Proof.
  intros Hh Hok Ht. destruct (hbs_builtin_spec now rows hst hostname (checksum st) Hh) as (cur & Hnd & Hin & E).
  exists cur. split; [done|]. split; [done|]. unfold syncBuiltinMetrics. rewrite E. cbn [BuiltinTimestamp BuiltinChecksum BuiltinMetrics].
  rewrite (proj2 (Z.leb_gt _ _)) by done. case_bool_decide as Ec.
  - rewrite bool_decide_eq_true_2 by done. split; [done|]. destruct Hok as [->|(ms & Hrep & Hsum)]; [by symmetry in Ec; apply metrics_digest_nil in Ec|]. exists ms.
    rewrite Hrep. split; [apply builtin_reports_watches|]. split; [congruence|]. intros Hne. congruence.
  - rewrite bool_decide_eq_false_2 by congruence. cbn [checksum reporting]. split; [done|]. exists (merge_sort metric_le cur).
    split; [apply builtin_reports_watches|]. by rewrite merge_sort_Permutation.
Qed.

(** C28. What an agent watches follows the templates of its host. After any history of
    calls that failed and of answers, an answer later than the last one taken leaves
    the agent with the checksum of the built-in metrics bound to the host now, and it
    reports the ports, paths, processes and addresses of metrics with that checksum:
    of exactly the metrics bound now, unless the checksum it already held is theirs.
    The same answer again changes nothing. *)
Theorem builtin_metrics_followed `{NIntSet} hostname st now now' rows hst :
  hostname <> "" -> builtin_reach hostname st -> timestamp st < now ->
  let answer now := fun h sum => Some (hbs_builtin now (Some rows) hst h sum) in
  let st' := syncBuiltinMetrics (Some hostname) (answer now) st in
  (exists current ms, NoDup current /\ (forall m, m ∈ current <-> host_metric hst rows hostname m) /\
    checksum st' = metrics_digest current /\ watches (fun m => m ∈ ms) (reporting st') /\ metrics_digest ms = metrics_digest current /\
    (checksum st <> metrics_digest current -> watches (host_metric hst rows hostname) (reporting st'))) /\
  syncBuiltinMetrics (Some hostname) (answer now') st' = st'.
Proof.
  intros Hh Hre Ht answer st'. pose proof (builtin_reach_ok _ _ Hh Hre) as Hok.
  destruct (sync_answer hostname st now rows hst Hh Hok Ht) as (cur & Hnd & Hin & Hsum & ms & Hw & Hdig & Hperm). fold (answer now) in Hsum, Hw. fold st' in Hsum, Hw.
  split.
  - exists cur, ms. split_and!; try done. intros Hne. eapply watches_ext; [|exact Hw]. intros m. rewrite <- Hin. by rewrite (Hperm Hne).
  - unfold syncBuiltinMetrics at 1. unfold answer at 1. destruct (hbs_builtin_spec now' rows hst hostname (checksum st') Hh) as (cur' & Hnd' & Hin' & E).
    assert (metrics_digest cur' = metrics_digest cur) as Ed.
    { apply metrics_digest_perm, NoDup_Permutation; [done..|]. intros m. by rewrite Hin, Hin'. }
    rewrite E. cbn [BuiltinTimestamp BuiltinChecksum]. destruct (now' <=? timestamp st'); [done|]. by rewrite bool_decide_eq_true_2 by congruence.
Qed.

(** * Sending *)

Definition reaches (env : (nat -> bool) * call_end) (open : bool) : Prop :=
  (open = true \/ exists n, (1 <= n <= 4)%nat /\ fst env n = true) /\ snd env = CallDone.

Lemma serverConn_loop_spec fuel retry dials : (retry + fuel = 5)%nat ->
  serverConn_loop fuel retry dials = true <-> exists n, (retry <= n <= 4)%nat /\ dials n = true.
Proof.
  revert retry. induction fuel as [|fuel IH]; intros retry Hf; cbn [serverConn_loop].
  { split; [done|]. intros (n & Hn & _). lia. }
  destruct (dials retry) eqn:E; [split; [|done]; intros _; exists retry; split; [lia | done]|].
  destruct (Nat.ltb_spec 3 retry) as [H3|H3].
  - split; [done|]. intros (n & Hn & Hd). assert (n = retry) as -> by lia. congruence.
  - rewrite IH by lia. split; intros (n & Hn & Hd); exists n; (split; [|done]).
    + lia.
    + destruct (decide (n = retry)) as [->|]; [congruence | lia].
Qed.

(** A call succeeds exactly when the connection is open, or one of four attempts
    opens it, and the server answers; only then is the connection kept. *)
Lemma Call_spec env open : fst (Call (fst env) (snd env) open) = snd (Call (fst env) (snd env) open) /\
  (snd (Call (fst env) (snd env) open) = true <-> reaches env open).
Proof.
  unfold Call, reaches. assert (serverConn (fst env) open = true <-> open = true \/ exists n, (1 <= n <= 4)%nat /\ fst env n = true) as Hs.
  { unfold serverConn. destruct open; [naive_solver|]. rewrite serverConn_loop_spec by lia. naive_solver. }
  destruct (serverConn (fst env) open); cbn [negb].
  - destruct (snd env); cbn [fst snd]; intuition (auto; discriminate).
  - cbn [fst snd]. split; [done|]. split; [done|]. intros [Ho _]. by apply Hs.
Qed.

(** The state of a client before its first call in a round. *)
Definition client_open (cs : clients) (addr : string) : bool := default false (cs !! addr).

Lemma SendMetrics_loop_spec Addrs env order cs called :
  Forall (fun i => 0 <= i < Z.of_nat (length Addrs)) order -> NoDup Addrs -> NoDup order ->
  exists tried cs' taken, SendMetrics_loop Addrs env order cs called = Ok (cs', called ++ omap (fun i => Addrs !! Z.to_nat i) tried, taken) /\
    (exists rest, order = tried ++ rest /\ (taken = None -> rest = [])) /\
    match taken with
    | None => forall i addr, i ∈ tried -> Addrs !! Z.to_nat i = Some addr -> ~ reaches (env i) (client_open cs addr)
    | Some addr => exists i init, tried = init ++ [i] /\ Addrs !! Z.to_nat i = Some addr /\ reaches (env i) (client_open cs addr) /\
        forall j addr', j ∈ init -> Addrs !! Z.to_nat j = Some addr' -> ~ reaches (env j) (client_open cs addr')
    end.
Proof.
  revert cs called. induction order as [|i order IH]; intros cs called Hr Hnd Ho; cbn [SendMetrics_loop].
  { exists [], cs, None. cbn. rewrite app_nil_r. split; [done|]. split; [by exists []|]. intros i addr []%not_elem_of_nil. }
  apply list.Forall_cons_1 in Hr as [Hi Hr]. apply list.NoDup_cons in Ho as [Hni Ho].
  destruct (lookup_lt_is_Some_2 Addrs (Z.to_nat i)) as [addr Ha]; [lia|].
  assert (index Addrs i = Ok addr) as -> by (rewrite <- (Z2Nat.id i) by lia; by apply index_nat). cbn [rbind].
  set (cs1 := match getTransferClient addr cs with Some _ => cs | None => initTransferClient addr cs end).
  assert (forall a, client_open cs1 a = client_open cs a) as Hc1.
  { intros a. unfold cs1, getTransferClient, initTransferClient, client_open. destruct (cs !! addr) eqn:E; [done|].
    destruct (decide (a = addr)) as [->|]; [by rewrite lookup_insert_eq, E | by rewrite lookup_insert_ne]. }
  unfold updateMetrics. fold (client_open cs1 addr). rewrite Hc1. destruct (Call_spec (env i) (client_open cs addr)) as [_ Hcall].
  destruct (Call (fst (env i)) (snd (env i)) (client_open cs addr)) as [open ok]. cbn [snd] in Hcall. destruct ok.
  - exists [i], (<[addr:=open]> cs1), (Some addr). cbn [omap list_omap]. rewrite Ha. split; [done|]. split; [by exists order|].
    exists i, []. split_and!; [done | done | by apply Hcall |]. intros j addr' []%not_elem_of_nil.
  - destruct (IH (<[addr:=open]> cs1) (called ++ [addr]) Hr Hnd Ho) as (tried & cs' & taken & -> & (rest & Hsplit & Hrest) & Htaken).
    exists (i :: tried), cs', taken. cbn [omap list_omap]. rewrite Ha, <- app_assoc. split; [done|]. split; [exists rest; rewrite Hsplit; done|].
    assert (forall j a, j ∈ order -> Addrs !! Z.to_nat j = Some a -> client_open (<[addr:=open]> cs1) a = client_open cs a) as Hsame.
    { intros j a Hj Hja. unfold client_open. rewrite lookup_insert_ne; [apply Hc1|]. intros <-. rewrite list.Forall_forall in Hr. pose proof (Hr j Hj).
      pose proof (NoDup_lookup _ _ _ _ Hnd Ha Hja) as E. assert (i = j) by lia. congruence. }
    assert (~ reaches (env i) (client_open cs addr)) as Hno by (intros ?%Hcall; done).
    assert (forall j, j ∈ tried -> j ∈ order) as Hsub by (intros j Hj; rewrite Hsplit, elem_of_app; auto).
    destruct taken as [a|].
    + destruct Htaken as (k & init & -> & Hk & Hreach & Hfail). exists k, (i :: init).
      assert (k ∈ order) as Hko by (apply Hsub; rewrite elem_of_app; right; left).
      split; [done|]. split; [done|]. split; [by rewrite (Hsame k a) in Hreach|].
      intros j a' [->|Hj]%elem_of_cons Ha'; [congruence|]. rewrite <- (Hsame j a'); [by apply Hfail | apply Hsub; rewrite elem_of_app; auto | done].
    + intros j a' [->|Hj]%elem_of_cons Ha'; [congruence|]. rewrite <- (Hsame j a'); [by apply Htaken | by apply Hsub | done].
Qed.

(** * Tags *)

Lemma strings_Split_sep a b sep : strings_Split (a +:+ String sep b) sep = strings_Split a sep ++ strings_Split b sep.
Proof.
  induction a as [|c a IH]; [rewrite str_app_nil_l; cbn [strings_Split app]; by rewrite Ascii.eqb_refl|].
  rewrite str_app_cons. cbn [strings_Split]. rewrite IH. destruct (Ascii.eqb sep c); [done|].
  pose proof (strings_Split_nonempty a sep). by destruct (strings_Split a sep).
Qed.

Lemma strings_remove_app c a b : strings_remove c (a +:+ b) = strings_remove c a +:+ strings_remove c b.
Proof. induction a as [|d a IH]; [by rewrite !str_app_nil_l|]. rewrite str_app_cons. cbn [strings_remove]. destruct (Ascii.eqb c d); [done | by rewrite str_app_cons, IH]. Qed.

(** One metric with the default tags. *)
Definition tag_one `{MapRange} (dt : tagmap) (mv : MetricValue) : MetricValue :=
  if (size dt =? 0)%nat then mv
  else set_Tags (if bool_decide (MetricValue_Tags mv = "") then default_tags_text dt else MetricValue_Tags mv +:+ "," +:+ default_tags_text dt) mv.

Section DefaultTags.
Context `{MapRange} (dt : tagmap) (Hwf : wf_tags dt).

Lemma default_tags_join : default_tags_text dt = strings_Join (map (tag_pair dt) (range_keys dt)) ",".
Proof using Type.
  unfold default_tags_text. f_equal. rewrite <- range_pairs_fst. rewrite map_map. apply map_ext_in. intros [k v] Hin%list_elem_of_In.
  apply elem_of_range_pairs in Hin. unfold tag_pair. cbn [fst]. by rewrite Hin.
Qed.

Lemma default_tags_free (c : ascii) : c = ","%char \/ c = " "%char -> Forall (fun s => str_free c s = true) (map (tag_pair dt) (range_keys dt)).
Proof using Hwf.
  intros Hc. rewrite list.Forall_forall. intros s (k & -> & Hk)%list_elem_of_fmap. apply (range_order_elem dt _ k (range_keys_order dt)) in Hk as [v Hv].
  unfold tag_pair. rewrite Hv. cbn [default]. destruct (Hwf k v Hv) as (? & ? & ? & ? & ?). rewrite !str_free_app. destruct Hc as [-> | ->]; by repeat (apply andb_true_iff; split).
Qed.

Lemma default_tags_read (m : tagmap) : dt <> ∅ ->
  fold_left (fun (tag_dict : tagmap) tag =>
    match find_byte "=" tag with
    | Some idx => <[str_take idx tag := str_drop (S idx) tag]> tag_dict
    | None => tag_dict
    end) (strings_Split (strings_remove " " (default_tags_text dt)) ",") m = dt ∪ m.
Proof using Hwf.
  intros Hne. rewrite default_tags_join. rewrite strings_remove_free by (apply str_free_join; [done | apply default_tags_free; auto]).
  rewrite strings_Split_Join; [|intros E%map_eq_nil|apply default_tags_free; auto].
  2: { destruct (map_choose dt Hne) as (k & v & Hv). assert (k ∈ range_keys dt) as Hk by (apply (range_order_elem dt _ k (range_keys_order dt)); eauto).
       rewrite E in Hk. by apply not_elem_of_nil in Hk. }
  rewrite (read_pairs_rebuild dt Hwf). 2: { rewrite list.Forall_forall. intros k. apply (range_order_elem dt _ k (range_keys_order dt)). }
  apply map_eq. intros k. rewrite lookup_union.
  assert (forall ks (m : tagmap), fold_left (fun (m : tagmap) k => <[k := default "" (dt !! k)]> m) ks m !! k
    = if decide (k ∈ ks) then Some (default "" (dt !! k)) else m !! k) as E.
  { clear. induction ks as [|k' ks IH]; intros m; cbn [fold_left]; [by rewrite decide_False by apply not_elem_of_nil|]. rewrite IH.
    destruct (decide (k ∈ ks)), (decide (k ∈ k' :: ks)) as [Hd|Hd]; try done; [by destruct Hd; right| |].
    - apply elem_of_cons in Hd as [->|]; [apply lookup_insert_eq | done].
    - apply lookup_insert_ne. intros ->. apply Hd. left. }
  rewrite E. destruct (decide _) as [Hk|Hk]; rewrite (range_order_elem dt _ k (range_keys_order dt)) in Hk.
  - destruct Hk as [v ->]. cbn. by destruct (m !! k).
  - destruct (dt !! k) eqn:Ev; [destruct Hk; eauto|]. by destruct (m !! k).
Qed.

(** The series a tagged metric belongs to: the default tags come first. *)
Lemma tag_one_series mv : DictedTagstring (MetricValue_Tags (tag_one dt mv)) = dt ∪ DictedTagstring (MetricValue_Tags mv).
Proof using Hwf.
  unfold tag_one. destruct (size dt =? 0)%nat eqn:Es.
  { apply size_zero_empty in Es. rewrite Es. by rewrite (left_id_L ∅ (∪)). }
  assert (dt <> ∅) as Hne by (intros E%size_zero_empty; congruence). cbn [set_Tags MetricValue_Tags].
  assert (default_tags_text dt <> "") as Hdt.
  { intros E. pose proof (default_tags_read ∅ Hne) as Hr. rewrite E in Hr. cbn in Hr. rewrite (right_id_L ∅ (∪)) in Hr. by apply Hne. }
  case_bool_decide as Et; unfold DictedTagstring at 1.
  - rewrite bool_decide_false by done. rewrite default_tags_read by done. by rewrite Et.
  - rewrite bool_decide_false by (by destruct (MetricValue_Tags mv)). rewrite strings_remove_app.
    change (strings_remove " " ("," +:+ default_tags_text dt)) with (String "," (strings_remove " " (default_tags_text dt))).
    rewrite strings_Split_sep, fold_left_app, default_tags_read by done. f_equal. unfold DictedTagstring. by rewrite bool_decide_false.
Qed.

Lemma tag_metrics_some mvs : tag_metrics dt (map Some mvs) = Ok (map (fun mv => Some (tag_one dt mv)) mvs).
Proof using Type.
  clear Hwf. unfold tag_metrics, tag_one. destruct (size dt =? 0)%nat; [done|].
  set (f := fun out x => match x with None => Panic NilDereference | Some mv => _ end).
  assert (forall l out, rfold f out (map Some l) = Ok (out ++ map (fun mv => Some (set_Tags (if bool_decide (MetricValue_Tags mv = "") then default_tags_text dt
      else MetricValue_Tags mv +:+ "," +:+ default_tags_text dt) mv)) l)) as Hgen.
  { induction l as [|x l IH]; intros out; cbn [map rfold]; [by rewrite app_nil_r|]. unfold f at 1. cbn [rbind]. rewrite IH. by rewrite <- app_assoc. }
  apply (Hgen mvs []).
Qed.

End DefaultTags.

(** * From the agent to the transfer *)

Definition number_of (v : GoValue) : f64 :=
  match v with VFloat64 f => f | VInt64 n | VInt n | VUint64 n | VUint n => f64_of_Z n | VString _ | VOther => f64_zero end.
Definition stamp (hostname : string) (sec now : Z) (mv : MetricValue) : MetricValue :=
  mkMetricValue hostname (MetricValue_Metric mv) (MetricValue_Value mv) sec (MetricValue_Type mv) (MetricValue_Tags mv) now.

Lemma wire_fresh v : match v with VString _ | VOther => False | _ => True end -> wire_value v = VFloat64 (number_of v).
Proof. by destruct v. Qed.

Section Composition.
Context `{MapRange}.

(** The samples kept after some ticks. *)
Definition history (ticks : list (option ProcStat * option (list DiskStats))) : cpu_history * disk_history :=
  fold_left (fun h t => InitDataHistory_tick (fst t) (snd t) h) ticks ((None, None), ∅).

Lemma history_ok ticks : cpu_ok (fst (history ticks)).
Proof using Type.
  clear. unfold history. assert (forall h, cpu_ok (fst h) -> cpu_ok (fst (fold_left (fun h t => InitDataHistory_tick (fst t) (snd t) h) ticks h))) as Hgen.
  { induction ticks as [|t ticks IH]; intros h Hh; cbn [fold_left]; [done|]. by apply IH, UpdateCpuStat_ok. }
  apply Hgen. by intros [].
Qed.

Lemma collect_spec sec now hostname ignore (group : list (result (list MetricValue))) :
  Forall (fun m => exists L, m = Ok L) group ->
  exists mvs, collect sec now hostname ignore group = Ok mvs /\ forall mv, mv ∈ mvs <->
    exists L mv0, Ok L ∈ group /\ mv0 ∈ L /\ default false (ignore !! MetricValue_Metric mv0) = false /\ mv = stamp hostname sec now mv0.
Proof using Type.
  clear. intros Hg. unfold collect. set (keep := fun mv => negb (default false (ignore !! MetricValue_Metric mv))).
  assert (forall acc, exists mvs, rfold (fun mvs fn => let! items := fn in Ok (mvs ++ List.filter keep items)) acc group = Ok mvs /\
    forall mv, mv ∈ mvs <-> mv ∈ acc \/ exists L, Ok L ∈ group /\ mv ∈ L /\ keep mv = true) as Hgen.
  { induction Hg as [|m group [L ->] Hg IH]; intros acc; cbn [rfold rbind].
    { exists acc. split; [done|]. intros mv. setoid_rewrite elem_of_nil. naive_solver. }
    destruct (IH (acc ++ List.filter keep L)) as (mvs & E & Hin). exists mvs. split; [exact E|]. intros mv. rewrite Hin, elem_of_app.
    rewrite (list_elem_of_In (List.filter keep L) mv), filter_In, <- list_elem_of_In. setoid_rewrite elem_of_cons. naive_solver. }
  destruct (Hgen []) as (mvs & -> & Hin). cbn [rbind]. eexists. split; [reflexivity|]. intros mv. rewrite list_elem_of_fmap. setoid_rewrite Hin.
  setoid_rewrite elem_of_nil. unfold keep. setoid_rewrite negb_true_iff. unfold stamp. naive_solver.
Qed.

Lemma Mappers_return mps host rep ticks r group :
  group ∈ Mappers mps host rep (fst (history ticks)) (snd (history ticks)) r -> Forall (fun m => exists L, m = Ok L) group.
Proof using Type.
  intros Hg. destruct (CpuMetrics_spec (fst (history ticks)) (history_ok ticks)) as (L & E & _).
  unfold Mappers in Hg. rewrite E in Hg. repeat (apply elem_of_cons in Hg as [->|Hg]; [repeat (apply list.Forall_cons_2; [eauto|]); constructor|]).
  by apply elem_of_nil in Hg.
Qed.

(** A metric with the default tags, once it is decoded by the transfer, as a point. *)
Definition received_as (dt : tagmap) (hostname : string) (sec now : Z) (mv : MetricValue) : MetaData :=
  mkMetaData (MetricValue_Metric mv) hostname now sec (number_of (MetricValue_Value mv)) (MetricValue_Type mv) (dt ∪ DictedTagstring (MetricValue_Tags mv)).

Lemma tag_one_fields dt mv :
  tag_one dt mv = mkMetricValue (MetricValue_Endpoint mv) (MetricValue_Metric mv) (MetricValue_Value mv) (MetricValue_Step mv) (MetricValue_Type mv)
    (MetricValue_Tags (tag_one dt mv)) (MetricValue_Timestamp mv).
Proof using Type. clear. unfold tag_one. destruct (size dt =? 0)%nat; by destruct mv. Qed.

Lemma collected_item mps host rep ticks r group dt hostname sec now now' L mv0 :
  group ∈ Mappers mps host rep (fst (history ticks)) (snd (history ticks)) r ->
  hostname <> "" -> 0 < sec -> 0 < now <= i64 (now' * 2) -> wf_tags dt -> Ok L ∈ group -> mv0 ∈ L ->
  let mv := stamp hostname sec now mv0 in
  text_valid (tag_one dt mv) = true -> str_len (MetricValue_Metric mv) + str_len (MetricValue_Tags (tag_one dt mv)) <= 510 ->
  recv_item now' (Some (wire_metric (tag_one dt mv))) = Some (received_as dt hostname sec now mv).
Proof using Type.
  intros Hg Hh Hsec Hnow Hwf HL Hmv0 mv Htext Hlen. rewrite wire_metric_valid by done.
  pose proof (Mappers_fresh _ _ _ _ _ _ _ _ Hg HL) as Hf. rewrite list.Forall_forall in Hf. destruct (Hf mv0 Hmv0) as (Hname & Htype & Hkernel & Hval).
  unfold received_as. rewrite <- (tag_one_series dt Hwf mv). clear Htext. rewrite (tag_one_fields dt mv). set (tags := MetricValue_Tags (tag_one dt mv)) in *. clearbody tags.
  subst mv. cbn [stamp MetricValue_Metric MetricValue_Endpoint MetricValue_Value MetricValue_Step MetricValue_Type MetricValue_Tags MetricValue_Timestamp] in *.
  rewrite wire_fresh by done. unfold recv_item.
  cbn [MetricValue_Metric MetricValue_Endpoint MetricValue_Value MetricValue_Step MetricValue_Type MetricValue_Tags MetricValue_Timestamp].
  rewrite (bool_decide_eq_false_2 (_ = "kernel.hostname")) by done. rewrite (bool_decide_eq_false_2 (_ = "")) by done. rewrite (bool_decide_eq_false_2 (hostname = "")) by done.
  cbn [orb]. assert (negb (bool_decide (MetricValue_Type mv0 = COUNTER)) && negb (bool_decide (MetricValue_Type mv0 = GAUGE)) &&
    negb (bool_decide (MetricValue_Type mv0 = DERIVE)) = false) as -> by (destruct Htype as [-> | ->]; reflexivity).
  rewrite (proj2 (Z.leb_gt sec 0)) by lia. rewrite (proj2 (Z.ltb_ge 510 _)) by done.
  rewrite (proj2 (Z.leb_gt now 0)), (proj2 (Z.ltb_ge (i64 (now' * 2)) now)) by lia. done.
Qed.

(** C26. From the collectors of an agent to the points of a transfer. Whatever the
    host answers and however many samples were taken, a round of a group of
    collectors does not panic and gives the metrics of its collectors that are not
    ignored, stamped with the (non-empty) host name, the positive interval and the
    time, and adding the default tags to them does not panic. The batch is encoded
    as a whole: if one value is not a number, the call fails and none of it
    arrives. Otherwise all of it is decoded, in order, and each metric whose text is
    UTF-8 and whose name and tags have at most 510 bytes is accepted as a point of
    that host, metric, type, step and time, with its value as a float, and with its
    tags and the default tags, where the default ones have precedence. The default
    tags are assumed to be free of spaces, commas and, in names, equality signs,
    and the time to be positive and at most twice the transfer's. *)
Theorem collected_received mps host rep ticks r group ignore dt hostname sec now now' :
  group ∈ Mappers mps host rep (fst (history ticks)) (snd (history ticks)) r ->
  hostname <> "" -> 0 < sec -> 0 < now <= i64 (now' * 2) -> wf_tags dt ->
  exists mvs, collect sec now hostname ignore group = Ok mvs /\
    (forall mv, mv ∈ mvs <-> exists L mv0, Ok L ∈ group /\ mv0 ∈ L /\ default false (ignore !! MetricValue_Metric mv0) = false /\ mv = stamp hostname sec now mv0) /\
    exists batch, tag_metrics dt (map Some mvs) = Ok batch /\
      match wire_batch batch with
      | None => Exists (fun mv => encodable (MetricValue_Value mv) = false) mvs
      | Some decoded => all_encodable mvs /\
          Forall2 (fun mv w => text_valid (tag_one dt mv) = true -> str_len (MetricValue_Metric mv) + str_len (MetricValue_Tags (tag_one dt mv)) <= 510 ->
            recv_item now' w = Some (received_as dt hostname sec now mv)) mvs decoded
      end.
Proof using Type.
  intros Hg Hh Hsec Hnow Hwf. destruct (collect_spec sec now hostname ignore group (Mappers_return _ _ _ _ _ _ Hg)) as (mvs & E & Hin).
  exists mvs. split; [done|]. split; [done|]. eexists. split; [apply tag_metrics_some|]. rewrite <- map_map, wire_batch_spec.
  assert (forallb (fun mv => encodable (MetricValue_Value mv)) (map (tag_one dt) mvs) = forallb (fun mv => encodable (MetricValue_Value mv)) mvs) as ->.
  { clear. induction mvs as [|mv mvs IH]; [done|]. cbn [map forallb]. by rewrite IH, (tag_one_fields dt mv). }
  destruct (forallb _ mvs) eqn:Ef.
  - split. { apply list.Forall_forall. intros mv Hmv%list_elem_of_In. rewrite forallb_forall in Ef. by apply Ef. }
    rewrite map_map. assert (forall mv, mv ∈ mvs -> exists L mv0, Ok L ∈ group /\ mv0 ∈ L /\ mv = stamp hostname sec now mv0) as Hall.
    { intros mv (L & mv0 & ? & ? & _ & ->)%Hin. eauto. }
    clear E Hin Ef. induction mvs as [|mv mvs IH]; [constructor|]. constructor; [|apply IH; intros; apply Hall; by right].
    destruct (Hall mv) as (L & mv0 & HL & Hmv0 & ->); [left|]. intros Ht Hl. eapply collected_item; eauto.
  - clear -Ef. induction mvs as [|mv mvs IH]; [done|]. cbn [forallb] in Ef.
    apply andb_false_iff in Ef as [Ef|Ef]; [by left | right; by apply IH].
Qed.

End Composition.

(** The floats that come from nux are numbers, and its counters 64-bit. *)
Record readings_ok (r : readings) : Prop := {
  rd_load l : nux_LoadAvg r = Some l -> f64_isFinite (Avg1min l) && f64_isFinite (Avg5min l) && f64_isFinite (Avg15min l) = true;
  rd_mem m : nux_MemInfo r = Some m -> Mem_ok m;
  rd_net l n : nux_NetIfs r = Some l -> n ∈ l -> f64_isFinite (InPercent n) && f64_isFinite (OutPercent n) = true }.

(** The first group of collectors. *)
Definition first_group `{MapRange} rep ticks r : list (result (list MetricValue)) :=
  default [] (head (Mappers [] None rep (fst (history ticks)) (snd (history ticks)) r)).

Lemma encodable_ints (L : list MetricValue) : Forall (fun mv => match MetricValue_Value mv with VFloat64 _ => False | _ => True end) L -> all_encodable L.
Proof. intros HL. eapply list.Forall_impl; [exact HL|]. intros mv. cbn. destruct (MetricValue_Value mv); cbn; tauto. Qed.

Lemma first_group_others `{MapRange} rep ticks r L : readings_ok r -> Ok L ∈ first_group rep ticks r ->
  L = IOStatsMetrics (snd (history ticks)) \/ all_encodable L.
Proof.
  intros [Hload Hmem Hnet] HL. destruct (CpuMetrics_spec (fst (history ticks)) (history_ok ticks)) as (Lc & E & Hc & _).
  unfold first_group, Mappers in HL. cbn [head default] in HL. rewrite E in HL.
  repeat (apply elem_of_cons in HL as [[= ->]|HL]); [.. |by apply elem_of_nil in HL]; try (by left); right.
  - apply encodable_ints. repeat constructor.
  - done.
  - destruct (nux_NetIfs r) as [l|]; [|constructor]. apply Forall_bind. intros n Hn. specialize (Hnet l n eq_refl Hn) as [H1 H2]%andb_true_iff.
    cbn [map app]. repeat (apply list.Forall_cons_2; [done|]). constructor.
  - apply encodable_ints. unfold KernelMetrics. destruct (nux_KernelMaxFiles r), (nux_KernelMaxProc r), (nux_KernelAllocateFiles r); cbn [app];
      repeat (apply list.Forall_cons_2; [exact I|]); constructor.
  - unfold LoadAvgMetrics. destruct (nux_LoadAvg r) as [l|]; [|constructor]. specialize (Hload l eq_refl) as [[H1 H2]%andb_true_iff H3]%andb_true_iff.
    repeat (apply list.Forall_cons_2; [done|]). constructor.
  - by apply MemMetrics_encodable.
  - apply encodable_ints. destruct (nux_ListDiskStats r) as [l|]; [|constructor]. apply Forall_bind. intros d _.
    destruct (ShouldHandleDevice (Device d)); cbn [negb map]; repeat (apply list.Forall_cons_2; [exact I|]); constructor.
  - apply encodable_ints. unfold NetstatMetrics. destruct (nux_Netstat r) as [m|]; [|constructor]. rewrite list.Forall_forall.
    intros mv ([k v] & _ & E')%list_elem_of_omap. destruct (bool_decide _); [|done]. by injection E' as <-.
  - apply encodable_ints. unfold ProcMetrics. destruct (nux_AllProcs r); [|constructor]. apply Forall_map_all. by intros [k v] _.
  - apply encodable_ints. unfold UdpMetrics. destruct (nux_Snmp r); [|constructor]. apply Forall_map_all. by intros [k v] _.
Qed.

(** C27. When the first batch of an agent is lost. With 64-bit counters and numbers from
    nux, and [disk.io.util] not among the ignored metrics, every value of the batch with the CPU, memory, disk and network metrics can be
    encoded, whatever wraps around, exactly when no disk that is reported has two
    samples with the same busy time taken at the same time, or only one sample; one
    such disk makes the busy share not a number, which cannot be encoded, and the
    whole batch is lost with it. *)
Theorem first_batch_encodable `{MapRange} rep ticks r ignore hostname sec now :
  readings_ok r -> default false (ignore !! "disk.io.util") = false ->
  exists mvs, collect sec now hostname ignore (first_group rep ticks r) = Ok mvs /\
    (all_encodable mvs <-> forall device, ShouldHandleDevice device = true -> is_Some (snd (history ticks) !! device) ->
      IODelta (snd (history ticks)) device IOMsecTotal <> 0 \/ IODelta (snd (history ticks)) device TS <> 0).
Proof.
  intros Hr Hig. assert (first_group rep ticks r ∈ Mappers [] None rep (fst (history ticks)) (snd (history ticks)) r) as Hg by left.
  destruct (collect_spec sec now hostname ignore _ (Mappers_return _ _ _ _ _ _ Hg)) as (mvs & E & Hin). exists mvs. split; [done|].
  set (disk := snd (history ticks)) in *. unfold all_encodable at 1. rewrite list.Forall_forall. split.
  - intros Henc device Hs Hd.
    destruct (decide (IODelta disk device IOMsecTotal = 0)) as [Hu|?]; [|by left]. destruct (decide (IODelta disk device TS = 0)) as [Ht|?]; [|by right].
    exfalso. assert (f64_isNaN (io_util disk device) = true) as Hnan by (by apply io_util_range).
    assert (stamp hostname sec now (GaugeValue "disk.io.util" (VFloat64 (io_util disk device)) ["device=" +:+ device]) ∈ mvs) as Hmv.
    { apply Hin. exists (IOStatsMetrics disk), (GaugeValue "disk.io.util" (VFloat64 (io_util disk device)) ["device=" +:+ device]).
      split; [do 7 right; left|]. split; [|split; [exact Hig | reflexivity]]. unfold IOStatsMetrics. apply list_elem_of_bind. exists device.
      split; [|by apply (range_order_elem disk _ device (range_keys_order disk))]. rewrite Hs. cbn [negb]. destruct (io_averages disk device) as [[a b] c].
      cbn [map]. do 6 right. left. }
    apply Henc in Hmv. cbn [stamp MetricValue_Value GaugeValue NewMetricValue encodable] in Hmv. unfold f64_isFinite in Hmv. by rewrite Hnan in Hmv.
  - intros Hdev mv (L & mv0 & HL & Hmv0 & _ & ->)%Hin. cbn [stamp MetricValue_Value].
    assert (all_encodable L) as HL'; [|unfold all_encodable in HL'; rewrite list.Forall_forall in HL'; by apply HL'].
    destruct (first_group_others rep ticks r L Hr HL) as [->|?]; [|done]. apply IOStatsMetrics_encodable. intros device Hs Hd.
    destruct (f64_isNaN (io_util disk device)) eqn:Hn; [|done]. apply io_util_range in Hn as [H1 H2]. by destruct (Hdev device Hs Hd).
Qed.

(** Sending a batch: for any order the transfers are tried in, the round returns,
    calls each transfer at most once, and stops at the first that takes the batch, so
    that at most one does; the batch is lost only if every transfer was tried and none
    could be reached, with four attempts to connect, and answered. *)
Theorem SendMetrics_first Addrs env perm cs :
  NoDup Addrs -> perm ≡ₚ map Z.of_nat (seq 0 (length Addrs)) ->
  exists tried cs' taken, SendMetrics Addrs env perm cs = Ok (cs', omap (fun i => Addrs !! Z.to_nat i) tried, taken) /\
    NoDup (omap (fun i => Addrs !! Z.to_nat i) tried) /\ (exists rest, perm = tried ++ rest) /\
    match taken with
    | Some addr => exists i init, tried = init ++ [i] /\ Addrs !! Z.to_nat i = Some addr /\ reaches (env i) (client_open cs addr) /\
        forall j addr', j ∈ init -> Addrs !! Z.to_nat j = Some addr' -> ~ reaches (env j) (client_open cs addr')
    | None => forall k addr, Addrs !! k = Some addr -> ~ reaches (env (Z.of_nat k)) (client_open cs addr)
    end.
Proof.
  intros Hnd Hp. assert (Forall (fun i => 0 <= i < Z.of_nat (length Addrs)) perm) as Hr.
  { rewrite Hp, list.Forall_forall. intros i (n & -> & Hn%elem_of_seq)%list_elem_of_fmap. lia. }
  assert (NoDup perm) as Hndp by (rewrite Hp; apply NoDup_fmap_2; [apply _ | apply NoDup_seq]).
  destruct (SendMetrics_loop_spec Addrs env perm cs [] Hr Hnd Hndp) as (tried & cs' & taken & E & (rest & Hsplit & Hrest) & Htaken).
  exists tried, cs', taken. split; [exact E|]. split; [|split; [by exists rest|]].
  - assert (Forall (fun i => 0 <= i < Z.of_nat (length Addrs)) tried /\ NoDup tried) as [Hrt Hndt].
    { rewrite Hsplit in Hr, Hndp. apply list.Forall_app in Hr as [? _]. by apply NoDup_app in Hndp as [? _]. }
    clear -Hnd Hrt Hndt. induction tried as [|i tried IH]; cbn; [constructor|].
    apply list.Forall_cons_1 in Hrt as [Hi Hrt]. apply list.NoDup_cons in Hndt as [Hni Hndt]. specialize (IH Hrt Hndt).
    destruct (Addrs !! Z.to_nat i) as [a|] eqn:Ea; [|done]. apply list.NoDup_cons. split; [|done].
    intros (j & Hj & Hja)%list_elem_of_omap. pose proof (NoDup_lookup _ _ _ _ Hnd Ea Hja). rewrite list.Forall_forall in Hrt. specialize (Hrt j Hj).
    assert (i = j) as -> by lia. done.
  - destruct taken as [a|]; [done|]. intros k addr Hk. rewrite (Hrest eq_refl), app_nil_r in Hsplit. subst tried.
    pose proof (Htaken (Z.of_nat k) addr) as Hno. rewrite Nat2Z.id in Hno. apply Hno; [|done]. rewrite Hp. apply list_elem_of_fmap. exists k.
    split; [done|]. apply elem_of_seq. apply lookup_lt_Some in Hk. lia.
Qed.

(** * Examples *)

(** A nil entry in a batch, as a script or a push gives it with null, is dereferenced
    when there are default tags. *)
Example null_metric_panics :
  tag_metrics (H := map_range_default) {["idc" := "bj"]} [None] = Panic NilDereference /\ tag_metrics (H := map_range_default) ∅ [None] = Ok [None].
Proof. vm_compute. split; reflexivity. Qed.

Definition sample_disk (ts busy : Z) : DiskStats := mkDiskStats "sda" 0 0 0 0 0 0 0 0 0 busy 0 ts.
Definition quiet : readings :=
  mkReadings None None None None None None None None None None None (fun _ _ _ => None) None None None (fun _ => mkDuRun false false false "" "") []
    (fun _ _ => None) (fun _ => None) None.

(** The one sample of a disk that has just appeared. *)
Example new_disk_not_encodable :
  (let! mvs := collect 60 100 "h" ∅ (first_group (H := map_range_default) no_reports [(None, Some [sample_disk 0 5])] quiet) in
   Ok (map (fun mv => (MetricValue_Metric mv, encodable (MetricValue_Value mv))) mvs))
  = Ok [("agent.alive", true); ("disk.io.read_bytes", true); ("disk.io.write_bytes", true); ("disk.io.avgrq_sz", true); ("disk.io.avgqu-sz", true);
        ("disk.io.await", true); ("disk.io.svctm", true); ("disk.io.util", false)].
Proof. vm_compute. reflexivity. Qed.

Lemma first_batch_encodable_witness :
  exists mvs, collect 60 100 "h" ∅ (first_group (H := map_range_default) no_reports [(None, Some [sample_disk 0 5]); (None, Some [sample_disk 1000000000 9])] quiet) = Ok mvs
    /\ all_encodable mvs.
Proof.
  destruct (first_batch_encodable (H := map_range_default) no_reports [(None, Some [sample_disk 0 5]); (None, Some [sample_disk 1000000000 9])] quiet ∅ "h" 60 100) as (mvs & E & Henc).
  - split; discriminate.
  - reflexivity.
  - exists mvs. split; [exact E|]. apply Henc. intros device _ [p Hp]. left.
    change (snd (history _)) with ({["sda" := (sample_disk 1000000000 9, Some (sample_disk 0 5))]} : disk_history) in Hp |- *.
    apply lookup_singleton_Some in Hp as [<- _]. vm_compute. discriminate.
Defined.

(** What a URL check reports, with a default tag, is accepted. *)
Definition url_readings : readings :=
  mkReadings None None None None None None None None None None None (fun _ _ _ => None) None None None (fun _ => mkDuRun false false false "" "") []
    (fun _ _ => Some "200") (fun s => Some s) None.
Definition url_group : list (result (list MetricValue)) :=
  [Ok (UrlMetrics (H := map_range_default) (fun s => Some s) (fun _ _ => Some "200") (Some "h") {["http://x" := "5"]})].

Lemma collected_received_witness :
  exists mv batch w, collect 60 100 "h" ∅ url_group = Ok [mv] /\ tag_metrics (H := map_range_default) {["idc" := "bj"]} [Some mv] = Ok batch /\
    wire_batch batch = Some [w] /\ recv_item 90 w = Some (received_as {["idc" := "bj"]} "h" 60 100 mv).
Proof.
  destruct (collected_received (H := map_range_default) [] (Some "h") (mkReports {["http://x" := "5"]} [] ∅ []) [] url_readings url_group
    ∅ {["idc" := "bj"]} "h" 60 100 90) as (mvs & E & _ & batch & Et & Hb).
  - do 4 right. left.
  - discriminate.
  - lia.
  - vm_compute. split; [reflexivity | discriminate].
  - apply (bool_decide_unpack _). vm_compute. exact I.
  - pose proof E as Em. vm_compute in Em. injection Em as <-. eexists _, batch. pose proof Et as Eb. vm_compute in Eb. injection Eb as <-.
    destruct (wire_batch _) as [decoded|] eqn:Ew; [|vm_compute in Ew; discriminate]. pose proof Ew as Ed. vm_compute in Ed. injection Ed as <-.
    destruct Hb as [_ Hb]. apply list.Forall2_cons_1 in Hb as [Hb _].
    eexists. split; [exact E|]. split; [exact Et|]. split; [exact Ew|]. apply Hb; vm_compute; [reflexivity | discriminate].
Defined.

(** One disk that has just appeared loses the whole first batch. *)
Example new_disk_loses_batch :
  (let! mvs := collect 60 100 "h" ∅ (first_group (H := map_range_default) no_reports [(None, Some [sample_disk 0 5])] quiet) in
   let! batch := tag_metrics (H := map_range_default) {["idc" := "bj"]} (map Some mvs) in
   Ok (length mvs, wire_batch batch)) = Ok (8%nat, None).
Proof. vm_compute. reflexivity. Qed.

Lemma SendMetrics_first_witness :
  exists tried cs' taken, SendMetrics ["t1:8433"; "t2:8433"] (fun i => (fun n => (2 <=? n)%nat && (i =? 0), CallDone)) [1; 0] ∅ = Ok (cs', tried, taken) /\ NoDup tried.
Proof.
  destruct (SendMetrics_first ["t1:8433"; "t2:8433"] (fun i => (fun n => (2 <=? n)%nat && (i =? 0), CallDone)) [1; 0] ∅) as (tried & cs' & taken & E & Hnd & _).
  - apply (bool_decide_unpack _). vm_compute. exact I.
  - apply (bool_decide_unpack _). vm_compute. exact I.
  - eexists _, cs', taken. split; [exact E | exact Hnd].
Defined.

Lemma builtin_metrics_followed_witness :
  let st' := syncBuiltinMetrics (Some "h1") (fun h sum => Some (hbs_builtin (H := iset_dedup) 1000 (Some site_rows) site h sum)) builtin_init in
  DuPaths (reporting st') = ["/data"] /\
  syncBuiltinMetrics (Some "h1") (fun h sum => Some (hbs_builtin (H := iset_dedup) 2000 (Some site_rows) site h sum)) st' = st'.
Proof.
  destruct (builtin_metrics_followed (H := iset_dedup) "h1" builtin_init 1000 2000 site_rows site) as (_ & E).
  - discriminate.
  - constructor.
  - reflexivity.
  - split; [vm_compute; reflexivity | exact E].
Defined.
