(* ===== verification/ApiUic.v ===== *)
(** modules/api, users: accounts, sessions and teams (controller/uic, model/uic,
    helper/session.go, utils/auth_middle.go). The database is its tables; every
    statement can fail. *)
From Stdlib Require Import Ascii ZArith.
From stdpp Require Import base list gmap strings numbers.
From S2P Require Import Prelude GoString GoText GoRegexp GoHash Utils AgentFuncs.

Local Open Scope Z_scope.

(** How the database compares texts, and its regular expressions. *)
Class Collation := {
  same_text : string -> string -> bool;
  same_text_refl s : same_text s s = true;
  same_text_sym s t : same_text s t = same_text t s;
  same_text_trans s t u : same_text s t = true -> same_text t u = true -> same_text s u = true;
  db_regexp : string -> string -> bool }.
Definition binary_collation : Collation.
Proof.
  refine {| same_text := String.eqb; db_regexp := fun _ _ => true |}.
  - apply String.eqb_refl.
  - apply String.eqb_sym.
  - intros s t u ->%String.eqb_eq ->%String.eqb_eq. apply String.eqb_refl.
Defined.

(** * model/uic *)

Record User := mkUser {
  User_ID : Z; User_Name : string; User_Cnname : string; User_Passwd : string; User_Email : string; User_Phone : string;
  User_IM : string; User_QQ : string; User_Role : Z }.
Record Session := mkSession { Session_ID : Z; Session_Uid : Z; Session_Sig : string; Session_Expired : Z }.
Record Team := mkTeam { Team_ID : Z; Team_Name : string; Team_Resume : string; Team_Creator : Z }.
Record RelTeamUser := mkRelTeamUser { Rel_ID : Z; Rel_Tid : Z; Rel_Uid : Z }.

(** The tables, and the last number each has given out. *)
Record UicDb := mkUicDb {
  users : list User; sessions : list Session; teams : list Team; rels : list RelTeamUser;
  user_seq : Z; session_seq : Z; team_seq : Z; rel_seq : Z }.
Definition set_users (l : list User) (db : UicDb) : UicDb :=
  mkUicDb l (sessions db) (teams db) (rels db) (user_seq db) (session_seq db) (team_seq db) (rel_seq db).
Definition set_sessions (l : list Session) (db : UicDb) : UicDb :=
  mkUicDb (users db) l (teams db) (rels db) (user_seq db) (session_seq db) (team_seq db) (rel_seq db).
Definition set_teams (l : list Team) (db : UicDb) : UicDb :=
  mkUicDb (users db) (sessions db) l (rels db) (user_seq db) (session_seq db) (team_seq db) (rel_seq db).
Definition set_rels (l : list RelTeamUser) (db : UicDb) : UicDb :=
  mkUicDb (users db) (sessions db) (teams db) l (user_seq db) (session_seq db) (team_seq db) (rel_seq db).

(** The configuration that is read. *)
Record UicConfig := mkUicConfig {
  access_control : bool; signup_disable : bool; skip_auth : bool; default_token : string; salt : string }.

Definition IsAdmin (cfg : UicConfig) (this : User) : bool :=
  if negb (access_control cfg) then true else (User_Role this =? 2) || (User_Role this =? 1).
Definition IsSuperAdmin (cfg : UicConfig) (this : User) : bool :=
  if negb (access_control cfg) then true else User_Role this =? 2.

(** * Statements *)

(** A query into a struct leaves the last row in it. *)
Definition find_row {A : Type} (P : A -> bool) (l : list A) : option A := list.last (List.filter P l).
Definition delete_rows {A : Type} (P : A -> bool) (l : list A) : list A := List.filter (fun x => negb (P x)) l.
Definition update_rows {A : Type} (P : A -> bool) (f : A -> A) (l : list A) : list A := map (fun x => if P x then f x else x) l.
Definition has_id (id : Z) (u : User) : bool := User_ID u =? id.
Definition with_profile (cnname email phone im qq : string) (u : User) : User :=
  mkUser (User_ID u) (User_Name u) cnname (User_Passwd u) email phone im qq (User_Role u).
Definition with_passwd (passwd : string) (u : User) : User :=
  mkUser (User_ID u) (User_Name u) (User_Cnname u) passwd (User_Email u) (User_Phone u) (User_IM u) (User_QQ u) (User_Role u).
Definition with_role (role : Z) (u : User) : User :=
  mkUser (User_ID u) (User_Name u) (User_Cnname u) (User_Passwd u) (User_Email u) (User_Phone u) (User_IM u) (User_QQ u) role.
Definition no_user : User := mkUser 0 "" "" "" "" "" "" "" 0.

(** The errors of the statements of a request, by their number. *)
Definition faults : Type := nat -> option string.
Definition not_found : string := "record not found".
(** A query whose error is not looked at, and one whose error is. *)
Definition read {A : Type} (err : option string) (row : option A) : option A := match err with Some _ => None | None => row end.
Definition fetch {A : Type} (err : option string) (row : option A) : A + string :=
  match err, row with Some e, _ => inr e | None, None => inr not_found | None, Some x => inl x end.

Section Uic.
Context `{Collation} (cfg : UicConfig).

Definition has_name (name : string) (u : User) : bool := same_text (User_Name u) name.

(** The keys of the tables: a row is refused when its name is taken. *)
Definition create_user (u : User) (db : UicDb) : option (User * UicDb) :=
  if existsb (has_name (User_Name u)) (users db) then None
  else
    let id := user_seq db + 1 in
    let u := mkUser id (User_Name u) (User_Cnname u) (User_Passwd u) (User_Email u) (User_Phone u) (User_IM u) (User_QQ u) (User_Role u) in
    Some (u, mkUicDb (users db ++ [u]) (sessions db) (teams db) (rels db) id (session_seq db) (team_seq db) (rel_seq db)).
Definition create_session (uid : Z) (sig : string) (expired : Z) (db : UicDb) : UicDb :=
  let id := session_seq db + 1 in
  mkUicDb (users db) (sessions db ++ [mkSession id uid sig expired]) (teams db) (rels db) (user_seq db) id (team_seq db) (rel_seq db).
Definition create_team (name resume : string) (creator : Z) (db : UicDb) : option (Team * UicDb) :=
  if existsb (fun t => same_text (Team_Name t) name) (teams db) then None
  else
    let id := team_seq db + 1 in
    let t := mkTeam id name resume creator in
    Some (t, mkUicDb (users db) (sessions db) (teams db ++ [t]) (rels db) (user_seq db) (session_seq db) id (rel_seq db)).
Definition create_rel (tid uid : Z) (db : UicDb) : UicDb :=
  let id := rel_seq db + 1 in
  mkUicDb (users db) (sessions db) (teams db) (rels db ++ [mkRelTeamUser id tid uid]) (user_seq db) (session_seq db) (team_seq db) id.
(** Saving a struct without a number creates a row. *)
Definition save_user (u : User) (db : UicDb) : option UicDb :=
  if User_ID u =? 0 then snd <$> create_user u db
  else Some (set_users (update_rows (has_id (User_ID u)) (fun _ => u) (users db)) db).

(** * utils *)

Definition HashIt (passwd : string) : string := Md5 (salt cfg +:+ passwd).
Definition HasDangerousCharacters (s : string) : bool :=
  strings_Contains s "<" || strings_Contains s ">" || strings_Contains s "&" || strings_Contains s "'" || strings_Contains s (String "034" "").
(** [^[a-zA-Z0-9\-\_\.]+$] *)
Definition IsUsernameValid (name : string) : bool :=
  regexp_Match (RPlus (RSet (fun c => is_digit c || (Ascii.leb "a" c && Ascii.leb c "z") || (Ascii.leb "A" c && Ascii.leb c "Z") || str_mem c "-_."))) name.

(** * helper *)

(** Offset and number of rows; [inr] is an error. *)
Definition PageParser (page limit : string) : (Z * Z) + string :=
  if bool_decide (page = "") then inl (-1, -1)
  else match strconv_Atoi page with
       | None => inr "strconv"
       | Some p =>
           if bool_decide (limit = "") then inr "You set page but skip limit params, please check your input"
           else match strconv_Atoi limit with
                | None => inr "strconv"
                | Some l =>
                    if (p <=? 0) || (l <=? 0) then inr "limit or page can not set to 0 or less than 0"
                    else inl (if p =? 1 then 0 else i64 ((p - 1) * l), l)
                end
       end.

(** The Apitoken header: absent, not JSON, or a name and a signature. *)
Inductive token := TokenMissing | TokenBad (err : string) | Token (name sig : string).

Definition GetSession (tok : token) : (string * string) + string :=
  match tok with
  | TokenMissing => inr "token key is not set"
  | TokenBad err => inr err
  | Token name sig =>
      if bool_decide (name = "") then inr "token key:name is empty"
      else if bool_decide (sig = "") then inr "token key:sig is empty"
      else inl (name, sig)
  end.

(** [inl] when the token is that of a session; errors of the statements are ignored,
    as rows that are not there. *)
Definition SessionChecking (tok : token) (flt : faults) (db : UicDb) : unit + string :=
  match GetSession tok with
  | inr err => inr err
  | inl (name, sig) =>
      if negb (bool_decide (default_token cfg = "")) && bool_decide (sig = default_token cfg) then inl tt
      else match read (flt 0%nat) (find_row (has_name name) (users db)) with
           | None => inr "not found this user"
           | Some user =>
               match read (flt 1%nat) (find_row (fun s => same_text (Session_Sig s) sig && (Session_Uid s =? User_ID user)) (sessions db)) with
               | None => inr "session not found"
               | Some _ => inl tt
               end
           end
  end.

(** The user a token names; its signature is not looked at. *)
Definition GetUser (tok : token) (flt : option string) (db : UicDb) : User + string :=
  match GetSession tok with
  | inr err => inr err
  | inl (name, _) =>
      fetch flt (find_row (has_name name) (users db))
  end.


(** * Answers *)

Inductive body :=
  | Msg (s : string)
  | UserBody (u : User)
  | UsersBody (l : list User)
  | TeamsBody (l : list (Team * string * list User))
  | SessionBody (sig name : string) (admin : option bool).
(** [Both]: a handler that answers twice. *)
Inductive reply := Refuse (status : Z) (msg : string) | Answer (b : body) | Both (first second : reply).
(** The password is not part of the JSON of a user. *)
Definition shown (u : User) : User := with_passwd "" u.
Definition badstatus : Z := 400.
Definition ExpectationFailed : Z := 417.

(** * controller/uic/session_controller.go *)

(** The session of a user, made when there is none; [None] is an error other than that
    there is none. Session and sign-up make it alike. *)
Definition ensure_session (now : Z) (uuid : string) (uid : Z) (flt : option string) (create_flt : option string) (db : UicDb) : option string * (string * UicDb) :=
  match flt with
  | Some err => (Some err, ("", db))
  | None =>
      match find_row (fun s => Session_Uid s =? uid) (sessions db) with
      | Some s => (None, (Session_Sig s, db))
      | None => (None, (uuid, match create_flt with Some _ => db | None => create_session uid uuid (i64 (now + 3600 * 24 * 30)) db end))
      end
  end.

Definition Login (input : (string * string) + string) (now : Z) (uuid : string) (flt : faults) (db : UicDb) : reply * UicDb :=
  match input with
  | inr _ => (Refuse badstatus "name or password is blank", db)
  | inl (name, password) =>
      match read (flt 0%nat) (find_row (has_name name) (users db)) with
      | None => (Refuse badstatus "no such user", db)
      | Some user =>
          if negb (bool_decide (User_Passwd user = HashIt password)) then (Refuse badstatus "password error", db)
          else match ensure_session now uuid (User_ID user) (flt 1%nat) (flt 2%nat) db with
               | (Some err, (_, db)) => (Refuse badstatus err, db)
               | (None, (sig, db)) => (Answer (SessionBody sig (User_Name user) (Some (IsAdmin cfg user))), db)
               end
      end
  end.

Definition AdminLogin (tok : token) (input : string + string) (now : Z) (uuid : string) (flt : faults) (db : UicDb) : reply * UicDb :=
  match input with
  | inr _ => (Refuse badstatus "name is blank", db)
  | inl name =>
      match GetUser tok (flt 0%nat) db with
      | inr err => (Refuse badstatus err, db)
      | inl adminuser =>
          match read (flt 1%nat) (find_row (has_name name) (users db)) with
          | None => (Refuse badstatus "no such user", db)
          | Some user =>
              if User_Role adminuser <=? User_Role user then (Refuse badstatus "API_USER not admin, no permissions can do this", db)
              else match ensure_session now uuid (User_ID user) (flt 2%nat) (flt 3%nat) db with
                   | (Some err, (_, db)) => (Refuse badstatus err, db)
                   | (None, (sig, db)) => (Answer (SessionBody sig (User_Name user) (Some (IsAdmin cfg user))), db)
                   end
          end
      end
  end.

Definition Logout (tok : token) (flt : faults) (db : UicDb) : reply * UicDb :=
  match GetSession tok with
  | inr err => (Refuse badstatus err, db)
  | inl (name, sig) =>
      let uid := match read (flt 0%nat) (find_row (has_name name) (users db)) with Some user => User_ID user | None => 0 end in
      match read (flt 1%nat) (find_row (fun s => same_text (Session_Sig s) sig && (Session_Uid s =? uid)) (sessions db)) with
      | None => (Refuse badstatus "not found this kind of session in database.", db)
      | Some session =>
          match flt 2%nat with
          | Some err => (Both (Refuse badstatus err) (Answer (Msg "logout successful")), db)
          | None => (Answer (Msg "logout successful"), set_sessions (delete_rows (fun s => Session_ID s =? Session_ID session) (sessions db)) db)
          end
      end
  end.

Definition AuthSession (tok : token) (flt : faults) (db : UicDb) : reply * UicDb :=
  match SessionChecking tok flt db with
  | inr err => (Refuse 401 err, db)
  | inl _ => (Answer (Msg "session is valid!"), db)
  end.

Definition CreateRoot (password : string) (flt : faults) (db : UicDb) : reply * UicDb :=
  if bool_decide (password = "") then (Refuse badstatus "password is empty, please check it", db)
  else match flt 0%nat, save_user (mkUser 0 "root" "" (HashIt password) "" "" "" "" 0) db with
       | Some err, _ => (Refuse badstatus err, db)
       | None, None => (Refuse badstatus "Duplicate entry", db)
       | None, Some db => (Answer (Msg "root created!"), db)
       end.

(** * controller/uic/user_controller.go *)

Record APIUserInput := mkAPIUserInput {
  in_Name : string; in_Cnname : string; in_Passwd : string; in_Email : string; in_Phone : string; in_IM : string; in_QQ : string }.

Definition CreateUser (tok : token) (input : APIUserInput + string) (now : Z) (uuid : string) (flt : faults) (db : UicDb) : reply * UicDb :=
  match input with
  | inr err => (Refuse badstatus err, db)
  | inl i =>
      let refused :=
        if HasDangerousCharacters (in_Cnname i) then Some "name pattern is invalid"
        else if signup_disable cfg then
          let msg := "sign up is not enabled, please contact administrator" in
          match GetUser tok (flt 0%nat) db with
          | inr err => Some (if strings_Contains err "token key is not set" then msg else msg +:+ ". " +:+ err)
          | inl user => if negb (IsAdmin cfg user) then Some (msg +:+ ". You are not admin, no permissions can do this") else None
          end
        else None in
      match refused with
      | Some msg => (Refuse badstatus msg, db)
      | None =>
          match read (flt 1%nat) (find_row (has_name (in_Name i)) (users db)) with
          | Some _ => (Refuse badstatus "name is already existing", db)
          | None =>
              let user := mkUser 0 (in_Name i) (in_Cnname i) (HashIt (in_Passwd i)) (in_Email i) (in_Phone i) (in_IM i) (in_QQ i)
                            (if bool_decide (in_Name i = "root") then 2 else 0) in
              match flt 2%nat, create_user user db with
              | Some err, _ => (Refuse badstatus err, db)
              | None, None => (Refuse badstatus "Duplicate entry", db)
              | None, Some (user, db) =>
                  match ensure_session now uuid (User_ID user) (flt 3%nat) (flt 4%nat) db with
                  | (Some err, (_, db)) => (Refuse badstatus err, db)
                  | (None, (sig, db)) => (Answer (SessionBody sig (User_Name user) None), db)
                  end
              end
          end
      end
  end.

Record APIUserUpdateInput := mkAPIUserUpdateInput {
  up_Cnname : string; up_Email : string; up_Phone : string; up_IM : string; up_QQ : string }.
Definition update_profile (id : Z) (i : APIUserUpdateInput) (db : UicDb) : UicDb :=
  set_users (update_rows (has_id id) (with_profile (up_Cnname i) (up_Email i) (up_Phone i) (up_IM i) (up_QQ i)) (users db)) db.

Definition UpdateCurrentUser (tok : token) (input : APIUserUpdateInput + string) (flt : faults) (db : UicDb) : reply * UicDb :=
  match input with
  | inr err => (Refuse ExpectationFailed err, db)
  | inl i =>
      if HasDangerousCharacters (up_Cnname i) then (Refuse badstatus "name pattern is invalid", db)
      else match GetSession tok with
           | inr err => (Refuse badstatus err, db)
           | inl (name, _) =>
               match read (flt 0%nat) (find_row (has_name name) (users db)) with
               | None => (Refuse badstatus "name is not existing", db)
               | Some user =>
                   match flt 1%nat with
                   | Some err => (Refuse ExpectationFailed err, db)
                   | None => (Answer (Msg "user info updated"), update_profile (User_ID user) i db)
                   end
               end
           end
  end.

Definition change_password (tok : token) (oldPassword newPassword : string) (flt : faults) (db : UicDb) : reply * UicDb :=
  match GetSession tok with
  | inr err => (Refuse badstatus err, db)
  | inl (name, _) =>
      match fetch (flt 0%nat) (find_row (has_name name) (users db)) with
      | inr err => (Refuse ExpectationFailed err, db)
      | inl user =>
          if negb (bool_decide (User_Passwd user = HashIt oldPassword)) then (Refuse badstatus "oldPassword is not match current one", db)
          else match flt 1%nat, save_user (with_passwd (HashIt newPassword) user) db with
               | Some err, _ => (Refuse ExpectationFailed err, db)
               | None, None => (Refuse ExpectationFailed "Duplicate entry", db)
               | None, Some db => (Answer (Msg "password updated!"), db)
               end
      end
  end.
(** After an error of binding the handler answers, and goes on with what was bound. *)
Definition ChangePassword (tok : token) (bind_err : option string) (oldPassword newPassword : string) (flt : faults) (db : UicDb) : reply * UicDb :=
  let '(r, db) := change_password tok oldPassword newPassword flt db in
  (match bind_err with Some err => Both (Refuse badstatus err) r | None => r end, db).

Definition UserInfo (tok : token) (flt : faults) (db : UicDb) : reply * UicDb :=
  match GetUser tok (flt 0%nat) db with
  | inr err => (Refuse ExpectationFailed err, db)
  | inl user => (Answer (UserBody (shown user)), db)
  end.

(** The number in the path of the request. *)
Definition path_id (s missing : string) : Z + string :=
  if bool_decide (s = "") then inr missing else match strconv_Atoi s with Some n => inl n | None => inr "strconv" end.

Definition get_user (uidtmp : string) (flt : faults) (db : UicDb) : reply * UicDb :=
  match path_id uidtmp "user id is missing" with
  | inr err => (Refuse badstatus err, db)
  | inl uid =>
      match fetch (flt 0%nat) (find_row (has_id uid) (users db)) with
      | inr err => (Refuse 500 err, db)
      | inl u => (Answer (UserBody (shown u)), db)
      end
  end.

Definition UpdateUser (uidtmp : string) (input : APIUserUpdateInput + string) (flt : faults) (db : UicDb) : reply * UicDb :=
  match path_id uidtmp "user id is missing" with
  | inr err => (Refuse badstatus err, db)
  | inl uid =>
      match input with
      | inr err => (Refuse ExpectationFailed err, db)
      | inl i =>
          if HasDangerousCharacters (up_Cnname i) then (Refuse badstatus "name pattern is invalid", db)
          else match read (flt 0%nat) (find_row (has_id uid) (users db)) with
               | None => (Refuse badstatus "user does not exist", db)
               | Some _ =>
                   match flt 1%nat with
                   | Some err => (Refuse ExpectationFailed err, db)
                   | None => (Answer (Msg "user info updated"), update_profile uid i db)
                   end
               end
      end
  end.

Definition GetUserByName (name : string) (flt : faults) (db : UicDb) : reply * UicDb :=
  if bool_decide (name = "") then (Refuse badstatus "user name is missing", db)
  else match fetch (flt 0%nat) (find_row (has_name name) (users db)) with
       | inr err => (Refuse ExpectationFailed err, db)
       | inl u => (Answer (UserBody (shown u)), db)
       end.

Definition IsUserInTeams (uidtmp teams_raw : string) (flt : faults) (db : UicDb) : reply * UicDb :=
  match path_id uidtmp "user id is missing" with
  | inr err => (Refuse badstatus err, db)
  | inl uid =>
      if bool_decide (teams_raw = "") then (Refuse badstatus "system type error. please ask admin for help", db)
      else
        let team_names := strings_Split teams_raw "," in
        match fetch (flt 0%nat) (find_row (has_id uid) (users db)), flt 1%nat, flt 2%nat with
        | inr err, _, _ | inl _, Some err, _ | inl _, None, Some err => (Refuse ExpectationFailed err, db)
        | inl _, None, None =>
            let tids := map Team_ID (List.filter (fun t => existsb (same_text (Team_Name t)) team_names) (teams db)) in
            let tus := List.filter (fun r => (Rel_Uid r =? uid) && bool_decide (Rel_Tid r ∈ tids)) (rels db) in
            (Answer (Msg (if (length tus =? 0)%nat then "false" else "true")), db)
        end
  end.

Definition GetUserTeams (uidtmp : string) (flt : faults) (db : UicDb) : reply * UicDb :=
  match path_id uidtmp "user id is missing" with
  | inr err => (Refuse badstatus err, db)
  | inl uid =>
      match fetch (flt 0%nat) (find_row (has_id uid) (users db)), flt 1%nat, flt 2%nat with
      | inr err, _, _ | inl _, Some err, _ | inl _, None, Some err => (Refuse ExpectationFailed err, db)
      | inl _, None, None =>
          let tids := map Rel_Tid (List.filter (fun r => Rel_Uid r =? uid) (rels db)) in
          (Answer (TeamsBody (map (fun t => (t, "", [])) (List.filter (fun t => bool_decide (Team_ID t ∈ tids)) (teams db)))), db)
      end
  end.

Definition AdminChangeUserProfile (tok : token) (input : (Z * APIUserUpdateInput) + string) (flt : faults) (db : UicDb) : reply * UicDb :=
  match input with
  | inr err => (Refuse ExpectationFailed err, db)
  | inl (uid, i) =>
      match GetUser tok (flt 0%nat) db with
      | inr err => (Refuse ExpectationFailed err, db)
      | inl cuser =>
          if negb (IsAdmin cfg cuser) then (Refuse badstatus "you don't have permission!", db)
          else match flt 1%nat with
               | Some err => (Refuse ExpectationFailed err, db)
               | None => (Answer (Msg "user profile updated"), update_profile uid i db)
               end
      end
  end.

Definition AdminUserDelete (tok : token) (input : Z + string) (flt : faults) (db : UicDb) : reply * UicDb :=
  match input with
  | inr err => (Refuse badstatus err, db)
  | inl uid =>
      match GetUser tok (flt 0%nat) db with
      | inr err => (Refuse ExpectationFailed err, db)
      | inl cuser =>
          if negb (IsAdmin cfg cuser) then (Refuse badstatus "you don't have permission!", db)
          else match flt 1%nat with
               | Some err => (Refuse ExpectationFailed err, db)
               | None =>
                   let P u := has_id uid u && (User_Role u <=? User_Role cuser) in
                   if existsb P (users db) then (Answer (Msg "user has been delete"), set_users (delete_rows P (users db)) db)
                   else (Refuse ExpectationFailed "you have no such permission or sth goes wrong", db)
               end
      end
  end.

Definition AdminChangePassword (tok : token) (input : (Z * string) + string) (flt : faults) (db : UicDb) : reply * UicDb :=
  match input with
  | inr err => (Refuse badstatus err, db)
  | inl (uid, passwd) =>
      match GetUser tok (flt 0%nat) db with
      | inr err => (Refuse ExpectationFailed err, db)
      | inl cuser =>
          if negb (IsAdmin cfg cuser) then (Refuse badstatus "you don't have permission!", db)
          else match fetch (flt 1%nat) (find_row (has_id uid) (users db)), flt 2%nat with
               | inr err, _ | inl _, Some err => (Refuse ExpectationFailed err, db)
               | inl user, None =>
                   match save_user (with_passwd (HashIt passwd) user) db with
                   | None => (Refuse ExpectationFailed "Duplicate entry", db)
                   | Some db => (Answer (Msg "password updated!"), db)
                   end
               end
      end
  end.

(** The rows of a page, or all. *)
Definition page_rows {A : Type} (page : Z * Z) (l : list A) : list A :=
  let '(p, l_) := page in
  if negb (l_ =? -1) && negb (p =? -1) then take (Z.to_nat l_) (drop (Z.to_nat p) l) else l.

Definition UserList (pageTmp limitTmp q : string) (flt : faults) (db : UicDb) : reply * UicDb :=
  match PageParser pageTmp limitTmp with
  | inr err => (Refuse badstatus err, db)
  | inl page =>
      match flt 0%nat with
      | Some err => (Refuse ExpectationFailed err, db)
      | None => (Answer (UsersBody (map shown (page_rows page (List.filter (fun u => db_regexp (User_Name u) q) (users db))))), db)
      end
  end.

Definition asked_role (admin : string) (user : User) : User :=
  if bool_decide (admin = "yes") then with_role 1 user else if bool_decide (admin = "no") then with_role 0 user else user.
(** The error of looking up the user is not tested: an empty struct is then saved. *)
Definition ChangeRoleOfUser (tok : token) (input : (Z * string) + string) (flt : faults) (db : UicDb) : reply * UicDb :=
  match input with
  | inr err => (Refuse badstatus err, db)
  | inl (uid, admin) =>
      match GetUser tok (flt 0%nat) db with
      | inr err => (Refuse badstatus err, db)
      | inl cuser =>
          if negb (IsAdmin cfg cuser) then (Refuse badstatus "you don't have permission!", db)
          else
            let user := default no_user (read (flt 1%nat) (find_row (has_id uid) (users db))) in
            match flt 2%nat, save_user (asked_role admin user) db with
            | Some err, _ => (Refuse ExpectationFailed err, db)
            | None, None => (Refuse ExpectationFailed "Duplicate entry", db)
            | None, Some db => (Answer (Msg "user role update sccuessful"), db)
            end
      end
  end.

(** * controller/uic/team_controller.go *)

Definition Members (t : Team) (flt : faults) (db : UicDb) : list User + string :=
  match flt 0%nat with
  | Some err => inr err
  | None =>
      match map Rel_Uid (List.filter (fun r => Rel_Tid r =? Team_ID t) (rels db)) with
      | [] => inl []
      | uids =>
          match flt 1%nat with
          | Some err => inr err
          | None => inl (map (fun u => mkUser (User_ID u) (User_Name u) (User_Cnname u) "" "" "" "" "" 0)
                           (List.filter (fun u => bool_decide (User_ID u ∈ uids)) (users db)))
          end
      end
  end.
(** A creator of 0 is no condition. *)
Definition GetCreatorName (t : Team) (flt : option string) (db : UicDb) : string :=
  match fetch flt (find_row (fun u => (Team_Creator t =? 0) || has_id (Team_Creator t) u) (users db)) with
  | inl u => User_Name u
  | inr _ => "unknown"
  end.
Definition shift (k : nat) (flt : faults) : faults := fun n => flt (k + n)%nat.

Fixpoint cteams (ts : list Team) (flt : faults) (db : UicDb) : list (Team * string * list User) + string :=
  match ts with
  | [] => inl []
  | t :: ts =>
      match Members t flt db with
      | inr err => inr err
      | inl us =>
          match cteams ts (shift 3 flt) db with
          | inr err => inr err
          | inl out => inl ((t, GetCreatorName t (flt 2%nat) db, us) :: out)
          end
      end
  end.

(** A member or the creator of a team. *)
Definition in_team (uid tid : Z) (db : UicDb) : bool := existsb (fun r => (Rel_Tid r =? tid) && (Rel_Uid r =? uid)) (rels db).
Definition team_of (uid : Z) (db : UicDb) (t : Team) : bool := in_team uid (Team_ID t) db || (Team_Creator t =? uid).

Definition Teams (tok : token) (pageTmp limitTmp query : string) (flt : faults) (db : UicDb) : reply * UicDb :=
  match PageParser pageTmp limitTmp with
  | inr err => (Refuse badstatus err, db)
  | inl page =>
      match GetUser tok (flt 0%nat) db, flt 1%nat with
      | inr err, _ | inl _, Some err => (Refuse badstatus err, db)
      | inl user, None =>
          let named := List.filter (fun t => db_regexp (Team_Name t) query) (teams db) in
          let ts := if IsAdmin cfg user then page_rows page named else List.filter (team_of (User_ID user) db) named in
          match cteams ts (shift 2 flt) db with
          | inr err => (Refuse badstatus err, db)
          | inl outputs => (Answer (TeamsBody outputs), db)
          end
      end
  end.

(** Until the first error. *)
Fixpoint create_rels (tid : Z) (uids : list Z) (flt : faults) (db : UicDb) : option string * UicDb :=
  match uids with
  | [] => (None, db)
  | uid :: uids =>
      match flt 0%nat with
      | Some err => (Some err, db)
      | None => create_rels tid uids (shift 1 flt) (create_rel tid uid db)
      end
  end.

Definition CreateTeam (tok : token) (input : (string * string * list Z) + string) (flt : faults) (db : UicDb) : reply * UicDb :=
  match input with
  | inr err => (Refuse badstatus err, db)
  | inl (name, resume, userIDs) =>
      match GetUser tok (flt 0%nat) db, flt 1%nat with
      | inr err, _ | inl _, Some err => (Refuse badstatus err, db)
      | inl user, None =>
          match create_team name resume (User_ID user) db with
          | None => (Refuse badstatus "Duplicate entry", db)
          | Some (team, db) =>
              match create_rels (Team_ID team) userIDs (shift 2 flt) db with
              | (Some err, db) => (Refuse badstatus err, db)
              | (None, db) => (Answer (Msg "team created!"), db)
              end
          end
      end
  end.

(** The team that the user may manage: an admin any, others their own. *)
Definition managed_team (user : User) (tid : Z) (db : UicDb) : option Team :=
  find_row (fun t => (Team_ID t =? tid) && (IsAdmin cfg user || team_of (User_ID user) db t)) (teams db).

(** A struct of conditions ignores the fields that are 0. *)
Definition rel_row (tid uid : Z) (db : UicDb) : option RelTeamUser :=
  find_row (fun r => ((tid =? 0) || (Rel_Tid r =? tid)) && ((uid =? 0) || (Rel_Uid r =? uid))) (rels db).

Fixpoint bind_missing (tid : Z) (uids : list Z) (flt : faults) (db : UicDb) : option string * UicDb :=
  match uids with
  | [] => (None, db)
  | uid :: uids =>
      match read (flt 0%nat) (rel_row tid uid db) with
      | Some _ => bind_missing tid uids (shift 2 flt) db
      | None =>
          match flt 1%nat with
          | Some err => (Some err, db)
          | None => bind_missing tid uids (shift 2 flt) (create_rel tid uid db)
          end
      end
  end.
Fixpoint delete_rels (men : list RelTeamUser) (flt : faults) (db : UicDb) : option string * UicDb :=
  match men with
  | [] => (None, db)
  | man :: men =>
      match flt 0%nat with
      | Some err => (Some err, db)
      | None => delete_rels men (shift 1 flt) (set_rels (delete_rows (fun r => Rel_ID r =? Rel_ID man) (rels db)) db)
      end
  end.
(** The members of the team that are not in the list; SQL compares with no list as unknown. *)
Definition needDeleteMan (tid : Z) (uids : list Z) (db : UicDb) : list RelTeamUser :=
  match uids with
  | [] => []
  | _ => List.filter (fun r => (Rel_Tid r =? tid) && negb (bool_decide (Rel_Uid r ∈ uids))) (rels db)
  end.
Definition bindUsers (tid : Z) (uids : list Z) (flt : faults) (db : UicDb) : option string * UicDb :=
  match flt 0%nat with
  | Some err => (Some err, db)
  | None =>
      let men := needDeleteMan tid uids db in
      match delete_rels men (shift 1 flt) db with
      | (Some err, db) => (Some err, db)
      | (None, db) => bind_missing tid uids (shift (1 + length men) flt) db
      end
  end.

(** Only the fields that are not blank are written; [None] when the name is another's. *)
Definition update_team (tid : Z) (name resume : string) (db : UicDb) : option UicDb :=
  if negb (bool_decide (name = "")) && existsb (fun t => (Team_ID t =? tid)) (teams db)
     && existsb (fun t => negb (Team_ID t =? tid) && same_text (Team_Name t) name) (teams db) then None
  else Some (set_teams (update_rows (fun t => Team_ID t =? tid)
               (fun t => mkTeam (Team_ID t) (if bool_decide (name = "") then Team_Name t else name)
                           (if bool_decide (resume = "") then Team_Resume t else resume) (Team_Creator t)) (teams db)) db).

Definition UpdateTeam (tok : token) (input : (Z * string * string * list Z) + string) (flt : faults) (db : UicDb) : reply * UicDb :=
  match input with
  | inr err => (Refuse badstatus err, db)
  | inl (tid, resume, name, userIDs) =>
      match GetUser tok (flt 0%nat) db with
      | inr err => (Refuse badstatus err, db)
      | inl user =>
          match fetch (flt 1%nat) (managed_team user tid db), flt 2%nat with
          | inr err, _ | inl _, Some err => (Refuse badstatus err, db)
          | inl _, None =>
              match update_team tid name resume db with
              | None => (Refuse badstatus "Duplicate entry", db)
              | Some db =>
                  match bindUsers tid userIDs (shift 3 flt) db with
                  | (Some err, db) => (Refuse badstatus err, db)
                  | (None, db) => (Answer (Msg "team updated!"), db)
                  end
              end
          end
      end
  end.

Definition AddTeamUsers (tok : token) (input : (Z * list string) + string) (flt : faults) (db : UicDb) : reply * UicDb :=
  match input with
  | inr err => (Refuse badstatus err, db)
  | inl (tid, names) =>
      match GetUser tok (flt 0%nat) db with
      | inr err => (Refuse badstatus err, db)
      | inl cuser =>
          match fetch (flt 1%nat) (managed_team cuser tid db), flt 2%nat with
          | inr err, _ => (Refuse badstatus err, db)
          | inl _, Some _ => (Refuse badstatus "system type error. please ask admin for help", db)
          | inl _, None =>
              match List.filter (fun u => existsb (same_text (User_Name u)) names) (users db) with
              | [] => (Refuse badstatus "empty users", db)
              | us =>
                  match bind_missing tid (map User_ID us) (shift 3 flt) db with
                  | (Some err, db) => (Refuse badstatus err, db)
                  | (None, db) => (Answer (Msg "add successful"), db)
                  end
              end
          end
      end
  end.

(** The statements after the check of rights are not tested. *)
Definition DeleteTeam (tok : token) (team_id : string) (flt : faults) (db : UicDb) : reply * UicDb :=
  match strconv_Atoi team_id with
  | None => (Refuse badstatus "strconv", db)
  | Some teamId =>
      if teamId =? 0 then (Refuse badstatus "team_id is empty", db)
      else match GetUser tok (flt 0%nat) db with
           | inr err => (Refuse badstatus err, db)
           | inl user =>
               let drop_team db := set_teams (delete_rows (fun t => Team_ID t =? teamId) (teams db)) db in
               let drop_rels db := match flt 3%nat with Some _ => db | None => set_rels (delete_rows (fun r => Rel_Tid r =? teamId) (rels db)) db end in
               if IsAdmin cfg user then
                 match flt 1%nat with
                 | Some err => (Refuse ExpectationFailed err, db)
                 | None => (Answer (Msg "team is deleted"), drop_rels (drop_team db))
                 end
               else match fetch (flt 1%nat) (find_row (fun t => (Team_ID t =? teamId) && (Team_Creator t =? User_ID user)) (teams db)) with
                    | inr err => (Refuse ExpectationFailed err, db)
                    | inl _ => (Answer (Msg "team is deleted"), drop_rels (match flt 2%nat with Some _ => db | None => drop_team db end))
                    end
           end
  end.

(** The answer of [GetTeam] and [GetTeamByName]; the errors of its queries are not tested. *)
Definition team_answer (team : Team) (tid : Z) (flt : faults) (db : UicDb) : reply :=
  let uids := match flt 0%nat with Some _ => [] | None => map Rel_Uid (List.filter (fun r => (tid =? 0) || (Rel_Tid r =? tid)) (rels db)) end in
  let us := match flt 1%nat with Some _ => [] | None => map shown (List.filter (fun u => bool_decide (User_ID u ∈ uids)) (users db)) end in
  Answer (TeamsBody [(team, "", us)]).
Definition GetTeam (team_id_str : string) (flt : faults) (db : UicDb) : reply * UicDb :=
  match strconv_Atoi team_id_str with
  | None => (Refuse badstatus "team_id is empty", db)
  | Some team_id =>
      if team_id =? 0 then (Refuse badstatus "team_id is empty", db)
      else match fetch (flt 0%nat) (find_row (fun t => Team_ID t =? team_id) (teams db)) with
           | inr err => (Refuse badstatus err, db)
           | inl team => (team_answer team team_id (shift 1 flt) db, db)
           end
  end.
Definition GetTeamByName (name : string) (flt : faults) (db : UicDb) : reply * UicDb :=
  if bool_decide (name = "") then (Refuse badstatus "team name is missing", db)
  else match fetch (flt 0%nat) (find_row (fun t => same_text (Team_Name t) name) (teams db)) with
       | inr err => (Refuse badstatus err, db)
       | inl team => (team_answer team (Team_ID team) (shift 1 flt) db, db)
       end.

(** * controller/uic/user_routes.go *)

Inductive request :=
  | GET_auth_session
  | POST_login (input : (string * string) + string)
  | GET_logout
  | POST_create (input : APIUserInput + string)
  | GET_current
  | GET_user (uid : string)
  | PUT_user (uid : string) (input : APIUserUpdateInput + string)
  | GET_user_name (user_name : string)
  | PUT_update (input : APIUserUpdateInput + string)
  | PUT_cgpasswd (bind_err : option string) (oldPassword newPassword : string)
  | GET_users (page limit q : string)
  | GET_in_teams (uid team_names : string)
  | GET_user_teams (uid : string)
  | PUT_change_user_role (input : (Z * string) + string)
  | PUT_change_user_passwd (input : (Z * string) + string)
  | PUT_change_user_profile (input : (Z * APIUserUpdateInput) + string)
  | DELETE_delete_user (input : Z + string)
  | POST_admin_login (input : string + string)
  | GET_teams (page limit q : string)
  | GET_team (team_id : string)
  | GET_team_name (team_name : string)
  | POST_team (input : (string * string * list Z) + string)
  | PUT_team (input : (Z * string * string * list Z) + string)
  | POST_team_user (input : (Z * list string) + string)
  | DELETE_team (team_id : string).

(** [inl]: the request goes on. *)
Definition AuthSessionMidd (tok : token) (flt : faults) (db : UicDb) : unit + reply :=
  match SessionChecking tok flt db with
  | inr err => if skip_auth cfg then inl tt else inr (Refuse 401 err)
  | inl _ => inl tt
  end.

Definition authenticated_routes (req : request) (tok : token) (now : Z) (uuid : string) (flt : faults) (db : UicDb) : reply * UicDb :=
  match req with
  | GET_current => UserInfo tok flt db
  | GET_user uid => get_user uid flt db
  | PUT_user uid input => UpdateUser uid input flt db
  | GET_user_name name => GetUserByName name flt db
  | PUT_update input => UpdateCurrentUser tok input flt db
  | PUT_cgpasswd bind_err old new => ChangePassword tok bind_err old new flt db
  | GET_users page limit q => UserList page limit q flt db
  | GET_in_teams uid names => IsUserInTeams uid names flt db
  | GET_user_teams uid => GetUserTeams uid flt db
  | PUT_change_user_role input => ChangeRoleOfUser tok input flt db
  | PUT_change_user_passwd input => AdminChangePassword tok input flt db
  | PUT_change_user_profile input => AdminChangeUserProfile tok input flt db
  | DELETE_delete_user input => AdminUserDelete tok input flt db
  | POST_admin_login input => AdminLogin tok input now uuid flt db
  | GET_teams page limit q => Teams tok page limit q flt db
  | GET_team tid => GetTeam tid flt db
  | GET_team_name name => GetTeamByName name flt db
  | POST_team input => CreateTeam tok input flt db
  | PUT_team input => UpdateTeam tok input flt db
  | POST_team_user input => AddTeamUsers tok input flt db
  | DELETE_team tid => DeleteTeam tok tid flt db
  | _ => (Refuse 404 "404 page not found", db)
  end.

Definition Routes (req : request) (tok : token) (now : Z) (uuid : string) (flt : faults) (db : UicDb) : reply * UicDb :=
  match req with
  | GET_auth_session => AuthSession tok flt db
  | POST_login input => Login input now uuid flt db
  | GET_logout => Logout tok flt db
  | POST_create input => CreateUser tok input now uuid flt db
  | _ =>
      match AuthSessionMidd tok flt db with
      | inr r => (r, db)
      | inl _ => authenticated_routes req tok now uuid (shift 2 flt) db
      end
  end.

End Uic.

(** * Well-formed tables *)

Lemma find_row_Some {A : Type} (P : A -> bool) l x : find_row P l = Some x -> x ∈ l /\ P x = true.
Proof. intros H%last_Some_elem_of%list_elem_of_In%filter_In. rewrite list_elem_of_In. exact H. Qed.
Lemma find_row_None {A : Type} (P : A -> bool) l : find_row P l = None -> forall x, x ∈ l -> P x = false.
Proof.
  intros H%last_None x Hx. destruct (P x) eqn:E; [|done].
  assert (Hin : In x (List.filter P l)) by (apply filter_In; split; [by apply list_elem_of_In|done]).
  by rewrite H in Hin.
Qed.
Lemma fetch_inl {A : Type} e (o : option A) x : fetch e o = inl x -> e = None /\ o = Some x.
Proof. destruct e, o; cbn; intros E; by inversion E. Qed.
Lemma read_Some {A : Type} e (o : option A) x : read e o = Some x -> o = Some x.
Proof. by destruct e. Qed.
Lemma elem_of_delete_rows {A : Type} (P : A -> bool) l x : x ∈ delete_rows P l <-> x ∈ l /\ P x = false.
Proof. unfold delete_rows. rewrite !list_elem_of_In, filter_In, negb_true_iff. done. Qed.
Lemma delete_rows_sublist {A : Type} (P : A -> bool) l : delete_rows P l `sublist_of` l.
Proof. induction l as [|x l IH]; cbn; [constructor|]. destruct (P x); cbn; by constructor. Qed.
Lemma map_sublist {A B : Type} (f : A -> B) (k l : list A) : k `sublist_of` l -> map f k `sublist_of` map f l.
Proof. induction 1; cbn; by constructor. Qed.
Lemma map_update_rows {A B : Type} (g : A -> B) (P : A -> bool) f l :
  (forall x, P x = true -> x ∈ l -> g (f x) = g x) -> map g (update_rows P f l) = map g l.
Proof.
  intros Hg. unfold update_rows. rewrite map_map. apply map_ext_in. intros x Hx.
  destruct (P x) eqn:E; [|done]. apply Hg; [done|by apply list_elem_of_In].
Qed.

(** A table: the numbers of its rows are given out once each, up to the last one. *)
Definition keyed {A : Type} (key : A -> Z) (seq : Z) (l : list A) : Prop :=
  NoDup (map key l) /\ (forall x, x ∈ l -> 0 < key x <= seq).

Section keyed.
Context {A : Type} (key : A -> Z).
Implicit Types (l k : list A) (x y : A).

Lemma keyed_inj seq l x y : keyed key seq l -> x ∈ l -> y ∈ l -> key x = key y -> x = y.
Proof.
  intros [Hnd _]. induction l as [|z l IH]; [by intros ?%not_elem_of_nil|].
  cbn in Hnd. apply list.NoDup_cons in Hnd as [Hz Hnd]. rewrite !elem_of_cons.
  assert (Hno : forall w, w ∈ l -> key w <> key z).
  { intros w Hw E. apply Hz. rewrite <-E. by apply (list_elem_of_fmap_2 key). }
  intros [->|Hx] [->|Hy] E; [done|exfalso; by apply (Hno y)|exfalso; by apply (Hno x)|by apply IH].
Qed.
Lemma keyed_sublist seq l k : k `sublist_of` l -> keyed key seq l -> keyed key seq k.
Proof.
  intros Hk [Hnd Hr]. split; [apply (sublist_NoDup _ (map key l)); [done|by apply map_sublist]|].
  intros x Hx. apply Hr. by eapply elem_of_sublist.
Qed.
Lemma keyed_app seq l x : 0 <= seq -> key x = seq + 1 -> keyed key seq l -> keyed key (seq + 1) (l ++ [x]).
Proof.
  intros Hs Hx [Hnd Hr]. split.
  - rewrite map_app. apply list.NoDup_app. split; [done|]. split; [|apply NoDup_singleton].
    intros z Hz ->%list_elem_of_singleton. apply list_elem_of_fmap in Hz as (y & Hy & Hin). specialize (Hr y Hin). lia.
  - intros y. rewrite elem_of_app, list_elem_of_singleton. intros [Hy| ->]; [specialize (Hr y Hy)|]; lia.
Qed.
Lemma keyed_update seq l P f : (forall x, P x = true -> x ∈ l -> key (f x) = key x) -> keyed key seq l -> keyed key seq (update_rows P f l).
Proof.
  intros Hf [Hnd Hr]. split; [by rewrite map_update_rows|].
  intros y (x & -> & Hx)%list_elem_of_fmap. destruct (P x) eqn:E; [rewrite Hf by done|]; by apply Hr.
Qed.
End keyed.
Lemma sublist_names {A : Type} (R : A -> A -> Prop) (l k : list A) :
  k `sublist_of` l -> (forall x y, x ∈ l -> y ∈ l -> R x y -> x = y) -> (forall x y, x ∈ k -> y ∈ k -> R x y -> x = y).
Proof. intros Hk H x y Hx Hy. apply H; by eapply elem_of_sublist. Qed.

Record uic_ok `{Collation} (db : UicDb) : Prop := {
  ok_user_seq : 0 <= user_seq db;
  ok_users : keyed User_ID (user_seq db) (users db);
  ok_user_names u v : u ∈ users db -> v ∈ users db -> same_text (User_Name u) (User_Name v) = true -> u = v;
  ok_session_seq : 0 <= session_seq db;
  ok_sessions : keyed Session_ID (session_seq db) (sessions db);
  ok_session_users : keyed Session_Uid (user_seq db) (sessions db);
  ok_team_seq : 0 <= team_seq db;
  ok_teams : keyed Team_ID (team_seq db) (teams db);
  ok_team_names s t : s ∈ teams db -> t ∈ teams db -> same_text (Team_Name s) (Team_Name t) = true -> s = t;
  ok_team_creators t : t ∈ teams db -> 0 < Team_Creator t <= user_seq db;
  ok_rel_seq : 0 <= rel_seq db;
  ok_rels : keyed Rel_ID (rel_seq db) (rels db) }.

Lemma existsb_none {A : Type} (P : A -> bool) l : existsb P l = false -> forall x, x ∈ l -> P x = false.
Proof.
  intros H x Hx. destruct (P x) eqn:E; [|done].
  rewrite <-H. symmetry. apply existsb_exists. exists x. by rewrite <-list_elem_of_In.
Qed.
Create HintDb uic.
(** Splits the cases of a handler. *)
Ltac cases :=
  repeat match goal with
    | |- context [match ?x with _ => _ end] =>
        lazymatch x with context [match _ with _ => _ end] => fail | _ => destruct x eqn:? end
    end.

Section Invariant.
Context `{Collation} (cfg : UicConfig).
Implicit Types (db : UicDb) (flt : faults) (tok : token).

Lemma create_user_ok u db v db' : uic_ok db -> create_user u db = Some (v, db') ->
  uic_ok db' /\ 0 < User_ID v <= user_seq db'.
Proof.
  intros [] Hc. unfold create_user in Hc. destruct (existsb _ _) eqn:E; [done|]. injection Hc as <- <-.
  assert (Hno : forall w, w ∈ users db -> same_text (User_Name w) (User_Name u) = false).
  { intros w Hw. by apply (existsb_none _ _ E). }
  split; [|cbn; lia]. constructor; cbn; try done; try lia.
  - by apply keyed_app.
  - intros a b. rewrite !elem_of_app, !list_elem_of_singleton. intros [Ha| ->] [Hb| ->] Hs; cbn in Hs.
    + by apply ok_user_names0.
    + by rewrite Hno in Hs.
    + rewrite same_text_sym in Hs. by rewrite Hno in Hs.
    + done.
  - destruct ok_session_users0 as [Hnd Hr]. split; [done|]. intros s Hs. specialize (Hr s Hs). lia.
  - intros t Ht. specialize (ok_team_creators0 t Ht). lia.
Qed.
Lemma set_users_ok l db : uic_ok db -> keyed User_ID (user_seq db) l ->
  (forall u v, u ∈ l -> v ∈ l -> same_text (User_Name u) (User_Name v) = true -> u = v) -> uic_ok (set_users l db).
Proof. intros [] Hk Hn. by constructor. Qed.
Lemma delete_users_ok P db : uic_ok db -> uic_ok (set_users (delete_rows P (users db)) db).
Proof.
  intros Hok. apply set_users_ok; [done|eapply keyed_sublist; [apply delete_rows_sublist|apply Hok]|].
  intros u v Hu Hv. apply elem_of_delete_rows in Hu as [Hu _], Hv as [Hv _]. by apply Hok.
Qed.
(** A row is rewritten with its number and name. *)
Lemma update_users_ok P f db : uic_ok db -> (forall u, P u = true -> u ∈ users db -> User_ID (f u) = User_ID u /\ User_Name (f u) = User_Name u) ->
  uic_ok (set_users (update_rows P f (users db)) db).
Proof.
  intros Hok Hf. assert (Hk : keyed User_ID (user_seq db) (update_rows P f (users db))).
  { apply keyed_update; [|apply Hok]. intros x Hp Hx. by apply Hf. }
  apply set_users_ok; [done..|]. intros u v Hu Hv Hs. apply (keyed_inj _ _ _ _ _ Hk); [done..|].
  apply list_elem_of_fmap in Hu as (x & -> & Hx). apply list_elem_of_fmap in Hv as (y & -> & Hy).
  assert (Hsame : forall z, z ∈ users db -> User_ID (if P z then f z else z) = User_ID z /\ User_Name (if P z then f z else z) = User_Name z).
  { intros z Hz. destruct (P z) eqn:E; [by apply Hf|done]. }
  destruct (Hsame x Hx) as [-> Ex], (Hsame y Hy) as [-> Ey]. rewrite Ex, Ey in Hs.
  by rewrite (ok_user_names _ Hok x y Hx Hy Hs).
Qed.
Lemma save_user_ok u db db' : uic_ok db -> (User_ID u <> 0 -> forall v, v ∈ users db -> User_ID v = User_ID u -> User_Name v = User_Name u) ->
  save_user u db = Some db' -> uic_ok db'.
Proof.
  intros Hok Hu. unfold save_user. case_match.
  - destruct (create_user u db) as [[v d]|] eqn:E; cbn; [|done]. intros [= <-]. by apply (create_user_ok _ _ _ _ Hok E).
  - intros [= <-]. apply update_users_ok; [done|]. intros v Hv Hin. unfold has_id in Hv. split; [lia|]. symmetry. apply Hu; [lia|done|lia].
Qed.
Lemma set_sessions_ok l db : uic_ok db -> l `sublist_of` sessions db -> uic_ok (set_sessions l db).
Proof. intros [] Hl. constructor; cbn; try done; by eapply keyed_sublist. Qed.
Lemma create_session_ok uid sig expired db : uic_ok db -> 0 < uid <= user_seq db -> (forall s, s ∈ sessions db -> (Session_Uid s =? uid) = false) ->
  uic_ok (create_session uid sig expired db).
Proof.
  intros [] Hu Hno. constructor; cbn; try done; [lia|by apply keyed_app|].
  destruct ok_session_users0 as [Hnd Hr]. split.
  - rewrite map_app. apply list.NoDup_app. split; [done|]. split; [|apply NoDup_singleton].
    intros z Hz ->%list_elem_of_singleton. apply list_elem_of_fmap in Hz as (s & Hs & Hin). specialize (Hno s Hin). cbn in Hs. lia.
  - intros s. rewrite elem_of_app, list_elem_of_singleton. intros [Hs| ->]; [by apply Hr|done].
Qed.
Lemma ensure_session_ok now uuid uid f g db r sig db' : uic_ok db -> 0 < uid <= user_seq db -> ensure_session now uuid uid f g db = (r, (sig, db')) -> uic_ok db'.
Proof.
  intros Hok Hu. unfold ensure_session. cases; intros E; injection E as <- <- <-; try done.
  apply create_session_ok; [done..|]. by apply find_row_None.
Qed.
Lemma create_team_ok name resume creator db t db' : uic_ok db -> 0 < creator <= user_seq db -> create_team name resume creator db = Some (t, db') -> uic_ok db'.
Proof.
  intros [] Hcr Hc. unfold create_team in Hc. destruct (existsb _ _) eqn:E; [done|]. injection Hc as <- <-.
  assert (Hno : forall w, w ∈ teams db -> same_text (Team_Name w) name = false).
  { intros w Hw. by apply (existsb_none _ _ E). }
  constructor; cbn; try done; try lia; [by apply keyed_app| |].
  - intros a b. rewrite !elem_of_app, !list_elem_of_singleton. intros [Ha| ->] [Hb| ->] Hs; cbn in Hs.
    + by apply ok_team_names0.
    + by rewrite Hno in Hs.
    + rewrite same_text_sym in Hs. by rewrite Hno in Hs.
    + done.
  - intros s. rewrite elem_of_app, list_elem_of_singleton. intros [Hs| ->]; [by apply ok_team_creators0|done].
Qed.
Lemma delete_teams_ok P db : uic_ok db -> uic_ok (set_teams (delete_rows P (teams db)) db).
Proof.
  intros []. constructor; cbn; try done; [by eapply keyed_sublist; [apply delete_rows_sublist|]| |].
  - intros s t Hs Ht. apply elem_of_delete_rows in Hs as [Hs _], Ht as [Ht _]. by apply ok_team_names0.
  - intros t [Ht _]%elem_of_delete_rows. by apply ok_team_creators0.
Qed.
Lemma update_team_ok tid name resume db db' : uic_ok db -> update_team tid name resume db = Some db' -> uic_ok db'.
Proof.
  intros Hok. unfold update_team. destruct (_ && _ && _) eqn:E; [done|]. intros [= <-].
  set (f := fun t => mkTeam _ _ _ _). set (P := fun t => Team_ID t =? tid).
  assert (Hk : keyed Team_ID (team_seq db) (update_rows P f (teams db))) by (apply keyed_update; [done|apply Hok]).
  destruct Hok. constructor; cbn; try done.
  - intros u v Hu Hv Hs. apply (keyed_inj _ _ _ _ _ Hk); [done..|].
    apply list_elem_of_fmap in Hu as (x & -> & Hx). apply list_elem_of_fmap in Hv as (y & -> & Hy).
    assert (Hno : bool_decide (name = "") = false -> forall w z, P w = true -> w ∈ teams db -> P z = false -> z ∈ teams db -> same_text (Team_Name z) name = false).
    { intros Hn w z Pw Hw Pz Hz. rewrite Hn, andb_false_iff, andb_false_iff in E. destruct E as [[E|E]|E]; [done| |].
      - specialize (existsb_none _ _ E w Hw). unfold P in Pw. cbn. congruence.
      - specialize (existsb_none _ _ E z Hz). cbn. unfold P in Pz. by rewrite Pz. }
    destruct (P x) eqn:Px, (P y) eqn:Py; cbn in Hs |- *.
    + unfold P in Px, Py. lia.
    + destruct (bool_decide _) eqn:En; [by rewrite (ok_team_names0 x y)|]. rewrite same_text_sym in Hs. by rewrite (Hno eq_refl x y) in Hs.
    + destruct (bool_decide _) eqn:En; [by rewrite (ok_team_names0 x y)|]. by rewrite (Hno eq_refl y x) in Hs.
    + by rewrite (ok_team_names0 x y).
  - intros t (x & -> & Hx)%list_elem_of_fmap. destruct (P x); apply (ok_team_creators0 x Hx).
Qed.
Lemma create_rel_ok tid uid db : uic_ok db -> uic_ok (create_rel tid uid db).
Proof. intros []. constructor; cbn; try done; [lia|by apply keyed_app]. Qed.
Lemma delete_some_rels_ok P db : uic_ok db -> uic_ok (set_rels (delete_rows P (rels db)) db).
Proof. intros []. constructor; cbn; try done. by eapply keyed_sublist; [apply delete_rows_sublist|]. Qed.

Lemma create_rels_ok tid uids : forall flt db r db', uic_ok db -> create_rels tid uids flt db = (r, db') -> uic_ok db'.
Proof.
  induction uids as [|uid uids IH]; intros flt db r db' Hok; cbn; [by intros [= <- <-]|].
  cases; [by intros [= <- <-]|]. apply IH. by apply create_rel_ok.
Qed.
Lemma bind_missing_ok tid uids : forall flt db r db', uic_ok db -> bind_missing tid uids flt db = (r, db') -> uic_ok db'.
Proof.
  induction uids as [|uid uids IH]; intros flt db r db' Hok; cbn; [by intros [= <- <-]|].
  cases; [by apply IH|by intros [= <- <-]|]. apply IH. by apply create_rel_ok.
Qed.
Lemma delete_rels_ok men : forall flt db r db', uic_ok db -> delete_rels men flt db = (r, db') -> uic_ok db'.
Proof.
  induction men as [|man men IH]; intros flt db r db' Hok; cbn; [by intros [= <- <-]|].
  cases; [by intros [= <- <-]|]. apply IH. by apply delete_some_rels_ok.
Qed.
Lemma bindUsers_ok tid uids flt db r db' : uic_ok db -> bindUsers tid uids flt db = (r, db') -> uic_ok db'.
Proof.
  intros Hok. unfold bindUsers. destruct (flt 0%nat); [by intros [= <- <-]|].
  destruct (delete_rels _ _ _) as [[e|] d] eqn:E; [intros [= <- <-]|intros Hb; eapply bind_missing_ok; [|exact Hb]]; by eapply delete_rels_ok.
Qed.

Lemma GetUser_user tok f db u : GetUser tok f db = inl u ->
  exists name sig, tok = Token name sig /\ find_row (has_name name) (users db) = Some u.
Proof.
  unfold GetUser, GetSession. destruct tok as [| |name sig]; [done..|]. cases; try done.
  intros [_ Hf]%fetch_inl. by exists name, sig.
Qed.
Lemma GetUser_elem tok f db u : GetUser tok f db = inl u -> u ∈ users db.
Proof. by intros (name & sig & _ & [Hu _]%find_row_Some)%GetUser_user. Qed.
Lemma user_id_range u db : uic_ok db -> u ∈ users db -> 0 < User_ID u <= user_seq db.
Proof. intros [] Hu. by apply ok_users0. Qed.
Lemma resave_ok u v db db' : uic_ok db -> u ∈ users db -> User_ID v = User_ID u -> User_Name v = User_Name u -> save_user v db = Some db' -> uic_ok db'.
Proof.
  intros Hok Hu Hi Hn. apply save_user_ok; [done|]. intros _ w Hw Hid. rewrite Hn. f_equal.
  apply (keyed_inj _ _ _ _ _ (ok_users _ Hok)); [done..|congruence].
Qed.
Lemma update_profile_ok uid i db : uic_ok db -> uic_ok (update_profile uid i db).
Proof. intros Hok. by apply update_users_ok. Qed.

(** Collects what the branches of a handler know. *)
Ltac facts :=
  repeat match goal with
    | E : read _ _ = Some _ |- _ => apply read_Some in E
    | E : fetch _ _ = inl _ |- _ => apply fetch_inl in E as [_ E]
    | E : find_row _ _ = Some _ |- _ => apply find_row_Some in E as [? ?]
    | E : GetUser _ _ _ = inl _ |- _ => apply GetUser_elem in E
    end.
Lemma save_passwd_ok p u db db' : uic_ok db -> u ∈ users db -> save_user (with_passwd p u) db = Some db' -> uic_ok db'.
Proof. intros Hok Hu. by apply (resave_ok u). Qed.
Hint Resolve update_profile_ok delete_users_ok set_sessions_ok delete_rows_sublist delete_teams_ok delete_some_rels_ok : uic.
(** Carries the invariant through the statements of a branch. *)
Ltac carry :=
  facts;
  repeat match goal with
    | Hok : uic_ok ?d, Hu : ?u ∈ users ?d, E : ensure_session _ _ (User_ID ?u) _ _ ?d = _ |- _ =>
        apply (ensure_session_ok _ _ _ _ _ _ _ _ _ Hok (user_id_range _ _ Hok Hu)) in E
    | Hok : uic_ok ?d, Hu : ?u ∈ users ?d, E : save_user (with_passwd _ ?u) ?d = _ |- _ => apply (save_passwd_ok _ _ _ _ Hok Hu) in E
    | Hok : uic_ok ?d, Hu : ?u ∈ users ?d, E : create_team _ _ (User_ID ?u) ?d = _ |- _ =>
        apply (create_team_ok _ _ _ _ _ _ Hok (user_id_range _ _ Hok Hu)) in E
    | Hok : uic_ok ?d, E : update_team _ _ _ ?d = _ |- _ => apply (update_team_ok _ _ _ _ _ Hok) in E
    | Hok : uic_ok ?d, E : create_rels _ _ _ ?d = _ |- _ => apply (create_rels_ok _ _ _ _ _ _ Hok) in E
    | Hok : uic_ok ?d, E : bind_missing _ _ _ ?d = _ |- _ => apply (bind_missing_ok _ _ _ _ _ _ Hok) in E
    | Hok : uic_ok ?d, E : bindUsers _ _ _ ?d = _ |- _ => apply (bindUsers_ok _ _ _ _ _ _ Hok) in E
    end; cbn [snd]; auto with uic.

Lemma Login_ok input now uuid flt db : uic_ok db -> uic_ok (snd (Login cfg input now uuid flt db)).
Proof. intros Hok. unfold Login. cases; carry. Qed.
Lemma AdminLogin_ok tok input now uuid flt db : uic_ok db -> uic_ok (snd (AdminLogin cfg tok input now uuid flt db)).
Proof. intros Hok. unfold AdminLogin. cases; carry. Qed.
Lemma Logout_ok tok flt db : uic_ok db -> uic_ok (snd (Logout tok flt db)).
Proof. intros Hok. unfold Logout. cases; carry. Qed.
Lemma CreateUser_ok tok input now uuid flt db : uic_ok db -> uic_ok (snd (CreateUser cfg tok input now uuid flt db)).
Proof.
  intros Hok. unfold CreateUser. destruct input as [i|]; [|done]. cbv zeta.
  destruct (if HasDangerousCharacters _ then _ else _); [done|].
  destruct (read _ _); [done|]. destruct (flt 2%nat); [done|].
  destruct (create_user _ db) as [[v d]|] eqn:Ec; [|done]. apply (create_user_ok _ _ _ _ Hok) in Ec as [Hd Hv].
  destruct (ensure_session _ _ _ _ _ _) as [[e|] [sig d']] eqn:Es; by apply (ensure_session_ok _ _ _ _ _ _ _ _ _ Hd Hv) in Es.
Qed.
Lemma ChangePassword_ok tok e old new flt db : uic_ok db -> uic_ok (snd (ChangePassword cfg tok e old new flt db)).
Proof.
  intros Hok. unfold ChangePassword. destruct (change_password _ _ _ _ _ _) as [r d] eqn:E. cbn. revert E.
  unfold change_password. cases; intros E; injection E as <- <-; carry.
Qed.
Lemma AdminChangePassword_ok tok input flt db : uic_ok db -> uic_ok (snd (AdminChangePassword cfg tok input flt db)).
Proof. intros Hok. unfold AdminChangePassword. cases; carry. Qed.
Lemma asked_role_same admin u : User_ID (asked_role admin u) = User_ID u /\ User_Name (asked_role admin u) = User_Name u /\ User_Passwd (asked_role admin u) = User_Passwd u.
Proof. unfold asked_role. by repeat case_bool_decide. Qed.
Lemma ChangeRoleOfUser_ok tok input flt db : uic_ok db -> uic_ok (snd (ChangeRoleOfUser cfg tok input flt db)).
Proof.
  intros Hok. unfold ChangeRoleOfUser. destruct input as [[uid admin]|]; [|done]. destruct (GetUser _ _ _) as [cuser|]; [|done].
  destruct (negb _); [done|]. cbv zeta. destruct (flt 2%nat); [done|]. destruct (save_user _ _) as [d|] eqn:Es; [|done]. cbn.
  destruct (read _ _) as [u|] eqn:Er; cbn in Es; facts.
  - destruct (asked_role_same admin u) as (? & ? & _). by apply (resave_ok u (asked_role admin u) db).
  - eapply save_user_ok; [exact Hok| |exact Es]. intros Hz. by rewrite (proj1 (asked_role_same admin no_user)) in Hz.
Qed.
Lemma profile_ok tok uidtmp pinput ainput flt db : uic_ok db ->
  uic_ok (snd (UpdateCurrentUser tok pinput flt db)) /\ uic_ok (snd (UpdateUser uidtmp pinput flt db))
  /\ uic_ok (snd (AdminChangeUserProfile cfg tok ainput flt db)).
Proof.
  intros Hok. unfold UpdateCurrentUser, UpdateUser, AdminChangeUserProfile.
  split; [|split]; cases; carry.
Qed.
Lemma AdminUserDelete_ok tok input flt db : uic_ok db -> uic_ok (snd (AdminUserDelete cfg tok input flt db)).
Proof. intros Hok. unfold AdminUserDelete. cases; carry. Qed.
Lemma CreateTeam_ok tok input flt db : uic_ok db -> uic_ok (snd (CreateTeam tok input flt db)).
Proof. intros Hok. unfold CreateTeam. cases; carry. Qed.
Lemma UpdateTeam_ok tok input flt db : uic_ok db -> uic_ok (snd (UpdateTeam cfg tok input flt db)).
Proof. intros Hok. unfold UpdateTeam. cases; carry. Qed.
Lemma AddTeamUsers_ok tok input flt db : uic_ok db -> uic_ok (snd (AddTeamUsers cfg tok input flt db)).
Proof. intros Hok. unfold AddTeamUsers. cases; carry. Qed.
Lemma DeleteTeam_ok tok tid flt db : uic_ok db -> uic_ok (snd (DeleteTeam cfg tok tid flt db)).
Proof. intros Hok. unfold DeleteTeam. cases; carry. Qed.

(** The requests that only read. *)
Definition reading (req : request) : bool :=
  match req with
  | GET_auth_session | GET_current | GET_user _ | GET_user_name _ | GET_users _ _ _ | GET_in_teams _ _ | GET_user_teams _
  | GET_teams _ _ _ | GET_team _ | GET_team_name _ => true
  | _ => false
  end.
Lemma reading_unchanged req tok now uuid flt db : reading req = true -> snd (authenticated_routes cfg req tok now uuid flt db) = db.
Proof.
  destruct req; cbn [authenticated_routes reading]; intros Hr; try discriminate Hr; clear Hr;
    unfold AuthSession, UserInfo, get_user, GetUserByName, UserList, IsUserInTeams, GetUserTeams, Teams, GetTeam, GetTeamByName; cases; reflexivity.
Qed.
Lemma authenticated_ok req tok now uuid flt db : uic_ok db -> uic_ok (snd (authenticated_routes cfg req tok now uuid flt db)).
Proof.
  intros Hok. destruct (reading req) eqn:Hr; [by rewrite reading_unchanged|]. destruct req; try discriminate Hr; cbn [authenticated_routes].
  - done.
  - done.
  - done.
  - by apply (profile_ok TokenMissing uid input (inr "")).
  - by apply (profile_ok tok "" input (inr "")).
  - by apply ChangePassword_ok.
  - by apply ChangeRoleOfUser_ok.
  - by apply AdminChangePassword_ok.
  - by apply (profile_ok tok "" (inr "") input).
  - by apply AdminUserDelete_ok.
  - by apply AdminLogin_ok.
  - by apply CreateTeam_ok.
  - by apply UpdateTeam_ok.
  - by apply AddTeamUsers_ok.
  - by apply DeleteTeam_ok.
Qed.
Lemma Routes_ok req tok now uuid flt db : uic_ok db -> uic_ok (snd (Routes cfg req tok now uuid flt db)).
Proof.
  intros Hok.
  assert (Hauth : uic_ok (snd (match AuthSessionMidd cfg tok flt db with inr r => (r, db) | inl _ => authenticated_routes cfg req tok now uuid (shift 2 flt) db end))).
  { destruct (AuthSessionMidd _ _ _ _); [by apply authenticated_ok|done]. }
  destruct req; cbn [Routes]; try exact Hauth.
  - unfold AuthSession. by destruct (SessionChecking _ _ _ _).
  - by apply Login_ok.
  - by apply Logout_ok.
  - by apply CreateUser_ok.
Qed.
End Invariant.

(** * Who may change an account *)

Section Rights.
Context `{Collation} (cfg : UicConfig).
Implicit Types (db : UicDb) (flt : faults) (tok : token) (a u v : User).

(** The user of the token, whose session carries its signature. *)
Definition signed_in db tok a : Prop :=
  exists name sig s, tok = Token name sig /\ a ∈ users db /\ has_name name a = true
    /\ s ∈ sessions db /\ same_text (Session_Sig s) sig = true /\ Session_Uid s = User_ID a.

(** A token with the configured signature that other services use. *)
Definition server_token tok (name : string) : Prop := default_token cfg <> "" /\ tok = Token name (default_token cfg).
(** The account a caller acts as: the one whose session the token is of, or, with the
    token of the services, any account the caller names. *)
Inductive acts_as db tok a : Prop :=
  | acts_session : signed_in db tok a -> acts_as db tok a
  | acts_server name : server_token tok name -> a ∈ users db -> has_name name a = true -> acts_as db tok a.
Definition admitted db tok : Prop := (exists a, signed_in db tok a) \/ (exists name, server_token tok name).

(** What a request may do to the table of users, and on whose authority. *)
Inductive account_change db tok : request -> list User -> Prop :=
  | account_same req : account_change db tok req (users db)
  | account_signup i :
      (forall u, u ∈ users db -> has_name (in_Name i) u = false) ->
      (signup_disable cfg = true -> exists a name sig, tok = Token name sig /\ a ∈ users db /\ has_name name a = true /\ IsAdmin cfg a = true) ->
      account_change db tok (POST_create (inl i))
        (users db ++ [mkUser (user_seq db + 1) (in_Name i) (in_Cnname i) (HashIt cfg (in_Passwd i)) (in_Email i) (in_Phone i) (in_IM i) (in_QQ i)
                        (if bool_decide (in_Name i = "root") then 2 else 0)])
  | account_profile req uid i :
      admitted db tok ->
      account_change db tok req (update_rows (has_id uid) (with_profile (up_Cnname i) (up_Email i) (up_Phone i) (up_IM i) (up_QQ i)) (users db))
  | account_password a e old new :
      acts_as db tok a -> User_Passwd a = HashIt cfg old ->
      account_change db tok (PUT_cgpasswd e old new) (update_rows (has_id (User_ID a)) (with_passwd (HashIt cfg new)) (users db))
  | account_admin_password a uid p :
      acts_as db tok a -> IsAdmin cfg a = true ->
      account_change db tok (PUT_change_user_passwd (inl (uid, p))) (update_rows (has_id uid) (with_passwd (HashIt cfg p)) (users db))
  | account_role a uid admin :
      acts_as db tok a -> IsAdmin cfg a = true ->
      account_change db tok (PUT_change_user_role (inl (uid, admin))) (update_rows (has_id uid) (asked_role admin) (users db))
  | account_blank a uid admin u :
      acts_as db tok a -> IsAdmin cfg a = true -> User_ID u = user_seq db + 1 ->
      account_change db tok (PUT_change_user_role (inl (uid, admin))) (users db ++ [u])
  | account_delete a uid :
      acts_as db tok a -> IsAdmin cfg a = true ->
      account_change db tok (DELETE_delete_user (inl uid)) (delete_rows (fun u => has_id uid u && (User_Role u <=? User_Role a)) (users db)).

Lemma GetSession_token tok name sig : GetSession tok = inl (name, sig) -> tok = Token name sig.
Proof. destruct tok; try done. cbn. repeat case_bool_decide; try done. by intros [= <- <-]. Qed.
(** Whom the middleware lets in. *)
Lemma midd_someone tok flt db x : skip_auth cfg = false -> AuthSessionMidd cfg tok flt db = inl x ->
  admitted db tok /\ forall f u, GetUser tok f db = inl u -> acts_as db tok u.
Proof.
  intros Hs. unfold AuthSessionMidd, SessionChecking. destruct (GetSession tok) as [[name sig]|] eqn:Eg; [|by rewrite Hs].
  apply GetSession_token in Eg as ->. destruct (negb _ && _) eqn:Ed.
  { intros _. apply andb_true_iff in Ed as [Hd%negb_true_iff%bool_decide_eq_false ->%bool_decide_eq_true].
    split; [right; by exists name|]. intros f u (name' & sig' & [= <- <-] & [Hu Hn]%find_row_Some)%GetUser_user. by eapply acts_server. }
  clear Ed. destruct (read (flt 0%nat) _) as [v|] eqn:Ev; [|by rewrite Hs]. destruct (read (flt 1%nat) _) as [s|] eqn:Es; [|by rewrite Hs].
  intros _. apply read_Some in Ev, Es. pose proof Ev as [Hv Hn]%find_row_Some. apply find_row_Some in Es as [Hin [Hsig Huid%Z.eqb_eq]%andb_true_iff].
  assert (signed_in db (Token name sig) v) as Hv' by (exists name, sig, s; done).
  split; [left; by exists v|]. intros f u (name' & sig' & [= <- <-] & Hu)%GetUser_user. apply acts_session. congruence.
Qed.

(** Saving a row that was read rewrites that row. *)
Lemma save_row f u db db' : uic_ok db -> u ∈ users db -> User_ID (f u) = User_ID u -> save_user (f u) db = Some db' ->
  users db' = update_rows (has_id (User_ID u)) f (users db).
Proof.
  intros Hok Hu Hid. unfold save_user. rewrite Hid. pose proof (user_id_range _ _ Hok Hu).
  rewrite (proj2 (Z.eqb_neq _ _)) by lia. intros [= <-]. cbn. apply map_ext_in. intros v Hv%list_elem_of_In.
  destruct (has_id _ v) eqn:E; [|done]. f_equal. symmetry. apply (keyed_inj _ _ _ _ _ (ok_users _ Hok)); [done..|]. unfold has_id in E. lia.
Qed.
Lemma create_user_row u db v db' : create_user u db = Some (v, db') ->
  (forall w, w ∈ users db -> has_name (User_Name u) w = false) /\ users db' = users db ++ [v] /\ User_ID v = user_seq db + 1
  /\ v = mkUser (user_seq db + 1) (User_Name u) (User_Cnname u) (User_Passwd u) (User_Email u) (User_Phone u) (User_IM u) (User_QQ u) (User_Role u).
Proof. unfold create_user. destruct (existsb _ _) eqn:E; [done|]. intros [= <- <-]. repeat split; [|done..]. by apply existsb_none. Qed.
Lemma ensure_session_users now uuid uid f g db r sig db' : ensure_session now uuid uid f g db = (r, (sig, db')) -> users db' = users db.
Proof. unfold ensure_session. cases; intros E; by injection E as <- <- <-. Qed.

Lemma create_rels_users tid uids : forall flt db r db', create_rels tid uids flt db = (r, db') -> users db' = users db.
Proof.
  induction uids as [|uid uids IH]; intros flt db r db'; cbn; [by intros [= <- <-]|].
  cases; [by intros [= <- <-]|]. intros Hc. by rewrite (IH _ _ _ _ Hc).
Qed.
Lemma bind_missing_users tid uids : forall flt db r db', bind_missing tid uids flt db = (r, db') -> users db' = users db.
Proof.
  induction uids as [|uid uids IH]; intros flt db r db'; cbn; [by intros [= <- <-]|].
  cases; [by apply IH|by intros [= <- <-]|]. intros Hc. by rewrite (IH _ _ _ _ Hc).
Qed.
Lemma delete_rels_users men : forall flt db r db', delete_rels men flt db = (r, db') -> users db' = users db.
Proof.
  induction men as [|man men IH]; intros flt db r db'; cbn; [by intros [= <- <-]|].
  cases; [by intros [= <- <-]|]. intros Hc. by rewrite (IH _ _ _ _ Hc).
Qed.
Lemma bindUsers_users tid uids flt db r db' : bindUsers tid uids flt db = (r, db') -> users db' = users db.
Proof.
  unfold bindUsers. destruct (flt 0%nat); [by intros [= <- <-]|].
  destruct (delete_rels _ _ _) as [[e|] d] eqn:E; apply delete_rels_users in E; [by intros [= <- <-]|].
  intros Hb%bind_missing_users. congruence.
Qed.
Lemma create_team_users name resume creator db t db' : create_team name resume creator db = Some (t, db') -> users db' = users db.
Proof. unfold create_team. cases; [done|]. by intros [= <- <-]. Qed.
Lemma update_team_users tid name resume db db' : update_team tid name resume db = Some db' -> users db' = users db.
Proof. unfold update_team. destruct (_ && _ && _); [done|]. by intros [= <-]. Qed.
Ltac carry_users :=
  repeat match goal with
    | E : ensure_session _ _ _ _ _ _ = _ |- _ => apply ensure_session_users in E
    | E : create_team _ _ _ _ = _ |- _ => apply create_team_users in E
    | E : update_team _ _ _ _ = _ |- _ => apply update_team_users in E
    | E : create_rels _ _ _ _ = _ |- _ => apply create_rels_users in E
    | E : bind_missing _ _ _ _ = _ |- _ => apply bind_missing_users in E
    | E : bindUsers _ _ _ _ = _ |- _ => apply bindUsers_users in E
    end; cbn [snd users set_teams set_rels set_sessions]; congruence.
Lemma other_handlers_users tok now uuid flt db :
  (forall input, users (snd (Login cfg input now uuid flt db)) = users db)
  /\ (forall input, users (snd (AdminLogin cfg tok input now uuid flt db)) = users db)
  /\ users (snd (Logout tok flt db)) = users db
  /\ (forall input, users (snd (CreateTeam tok input flt db)) = users db)
  /\ (forall input, users (snd (UpdateTeam cfg tok input flt db)) = users db)
  /\ (forall input, users (snd (AddTeamUsers cfg tok input flt db)) = users db)
  /\ (forall tid, users (snd (DeleteTeam cfg tok tid flt db)) = users db).
Proof.
  unfold Login, AdminLogin, Logout, CreateTeam, UpdateTeam, AddTeamUsers, DeleteTeam.
  repeat split; intros; cases; carry_users.
Qed.

Lemma CreateUser_accounts tok input now uuid flt db :
  account_change db tok (POST_create input) (users (snd (CreateUser cfg tok input now uuid flt db))).
Proof.
  unfold CreateUser. destruct input as [i|]; [|constructor]. cbv zeta.
  destruct (if HasDangerousCharacters (in_Cnname i) then _ else _) as [msg|] eqn:Er; [constructor|].
  destruct (read _ _); [constructor|]. destruct (flt 2%nat); [constructor|].
  destruct (create_user _ db) as [[v d]|] eqn:Ec; [|constructor]. apply create_user_row in Ec as (Hno & Hd & _ & Hv).
  assert (Hu : users (snd (match ensure_session now uuid (User_ID v) (flt 3%nat) (flt 4%nat) d with
             | (Some err, (_, d)) => (Refuse badstatus err, d) | (None, (sig, d)) => (Answer (SessionBody sig (User_Name v) None), d) end)) = users d)
    by (cases; carry_users).
  rewrite Hu, Hd, Hv. apply account_signup; [exact Hno|]. intros Hsd. rewrite Hsd in Er.
  destruct (HasDangerousCharacters _); [done|]. destruct (GetUser tok (flt 0%nat) db) as [a|e] eqn:Eg; [|done].
  apply GetUser_user in Eg as (name & sig & -> & [Ha Hn]%find_row_Some). exists a, name, sig. repeat split; try done.
  by destruct (IsAdmin cfg a).
Qed.

Section SignedIn.
Context (db : UicDb) (tok : token) (Hok : uic_ok db) (Had : admitted db tok)
  (Hacts : forall f u, GetUser tok f db = inl u -> acts_as db tok u).

Lemma ChangePassword_accounts e old new flt : account_change db tok (PUT_cgpasswd e old new) (users (snd (ChangePassword cfg tok e old new flt db))).
Proof.
  unfold ChangePassword, change_password. destruct (GetSession tok) as [[name sig]|] eqn:Eg; [|constructor].
  destruct (fetch _ _) as [u|] eqn:Ef; [|constructor]. assert (GetUser tok (flt 0%nat) db = inl u) as Hu by (unfold GetUser; by rewrite Eg).
  pose proof (Hacts _ _ Hu) as Hme. apply GetUser_elem in Hu.
  case_bool_decide as Hp; cbn [negb]; [|constructor]. destruct (flt 1%nat); [constructor|].
  destruct (save_user _ _) as [d|] eqn:Es; cbn; [|constructor]. rewrite (save_row (with_passwd (HashIt cfg new)) _ _ _ Hok Hu eq_refl Es). by apply account_password.
Qed.
Lemma admin_accounts flt input :
  account_change db tok (PUT_change_user_passwd input) (users (snd (AdminChangePassword cfg tok input flt db)))
  /\ account_change db tok (PUT_change_user_role input) (users (snd (ChangeRoleOfUser cfg tok input flt db))).
Proof.
  unfold AdminChangePassword, ChangeRoleOfUser. destruct input as [[uid p]|]; [|split; constructor].
  destruct (GetUser tok (flt 0%nat) db) as [me|] eqn:Eg; [|split; constructor]. pose proof (Hacts _ _ Eg) as Hme.
  destruct (IsAdmin cfg me) eqn:Ha; cbn [negb]; [|split; constructor]. split.
  - destruct (fetch _ _) as [v|] eqn:Ef; [|constructor]. destruct (flt 2%nat); [constructor|].
    apply fetch_inl in Ef as [_ [Hv Hid]%find_row_Some]. unfold has_id in Hid. apply Z.eqb_eq in Hid as <-.
    destruct (save_user _ _) as [d|] eqn:Es; [|constructor]. cbn [snd]. rewrite (save_row (with_passwd (HashIt cfg p)) _ _ _ Hok Hv eq_refl Es). by eapply account_admin_password.
  - destruct (flt 2%nat); [constructor|]. cbv zeta. destruct (save_user _ _) as [d|] eqn:Es; [|constructor]. cbn [snd].
    destruct (read _ _) as [v|] eqn:Er; cbn in Es.
    + apply read_Some, find_row_Some in Er as [Hv Hid]. unfold has_id in Hid. apply Z.eqb_eq in Hid as <-.
      rewrite (save_row (asked_role p) _ _ _ Hok Hv (proj1 (asked_role_same p v)) Es). by eapply account_role.
    + unfold save_user in Es. rewrite (proj1 (asked_role_same p no_user)) in Es. cbn in Es.
      destruct (create_user _ db) as [[v d']|] eqn:Ec; [|done]. injection Es as <-. apply create_user_row in Ec as (_ & -> & Hid & _). by eapply account_blank.
Qed.
Lemma profile_accounts flt uid input ainput :
  account_change db tok (PUT_user uid input) (users (snd (UpdateUser uid input flt db)))
  /\ account_change db tok (PUT_update input) (users (snd (UpdateCurrentUser tok input flt db)))
  /\ account_change db tok (PUT_change_user_profile ainput) (users (snd (AdminChangeUserProfile cfg tok ainput flt db))).
Proof.
  unfold UpdateUser, UpdateCurrentUser, AdminChangeUserProfile.
  split; [|split]; cases; first [apply account_same | by apply account_profile].
Qed.
Lemma AdminUserDelete_accounts flt input : account_change db tok (DELETE_delete_user input) (users (snd (AdminUserDelete cfg tok input flt db))).
Proof.
  unfold AdminUserDelete. destruct input as [uid|]; [|constructor].
  destruct (GetUser tok (flt 0%nat) db) as [me|] eqn:Eg; [|constructor]. pose proof (Hacts _ _ Eg) as Hme.
  destruct (IsAdmin cfg me) eqn:Ha; cbn [negb]; [|constructor]. destruct (flt 1%nat); [constructor|]. cbv zeta.
  destruct (existsb _ _); [by apply account_delete|constructor].
Qed.
Lemma authenticated_accounts req now uuid flt : account_change db tok req (users (snd (authenticated_routes cfg req tok now uuid flt db))).
Proof.
  destruct (reading req) eqn:Hr; [rewrite (reading_unchanged cfg) by done; constructor|].
  destruct (other_handlers_users tok now uuid flt db) as (_ & HAL & _ & HC & HU & HA & HD).
  destruct req; try discriminate Hr; cbn [authenticated_routes]; try (rewrite ?HAL, ?HC, ?HU, ?HA, ?HD; constructor).
  - apply (profile_accounts flt uid input (inr "")).
  - apply (profile_accounts flt "" input (inr "")).
  - apply ChangePassword_accounts.
  - by apply admin_accounts.
  - by apply admin_accounts.
  - apply (profile_accounts flt "" (inr "") input).
  - apply AdminUserDelete_accounts.
Qed.
End SignedIn.

Lemma Routes_accounts req tok now uuid flt db : skip_auth cfg = false -> uic_ok db ->
account_change db tok req (users (snd (Routes cfg req tok now uuid flt db))).
Proof.
intros Hs Hok.
assert (Hauth : account_change db tok req (users (snd (match AuthSessionMidd cfg tok flt db with inr r => (r, db) | inl _ => authenticated_routes cfg req tok now uuid (shift 2 flt) db end)))).
{ destruct (AuthSessionMidd _ _ _ _) as [x|] eqn:Em; [|constructor].
  destruct (midd_someone _ _ _ _ Hs Em) as [Had Hacts]. by apply authenticated_accounts. }
destruct (other_handlers_users tok now uuid flt db) as (HL & _ & HO & _).
destruct req; cbn [Routes]; try exact Hauth.
- unfold AuthSession. destruct (SessionChecking _ _ _ _); constructor.
- rewrite HL. constructor.
- rewrite HO. constructor.
- apply CreateUser_accounts.
Qed.

Lemma update_rows_elem (P : User -> bool) f l u : u ∈ l -> (if P u then f u else u) ∈ update_rows P f l.
Proof. intros Hu. unfold update_rows. apply list_elem_of_fmap. by exists u. Qed.
Definition same_rights u v : Prop := User_ID v = User_ID u /\ User_Name v = User_Name u /\ User_Passwd v = User_Passwd u /\ User_Role v = User_Role u.

Lemma same_rights_refl u : same_rights u u.
Proof. done. Qed.
Lemma update_rows_kept uid f u l : u ∈ l -> (User_ID u = uid -> same_rights u (f u)) -> exists v, v ∈ update_rows (has_id uid) f l /\ same_rights u v.
Proof.
intros Hu Hf. exists (if has_id uid u then f u else u). split; [by apply update_rows_elem|].
destruct (has_id uid u) eqn:E; [apply Hf; unfold has_id in E; lia|apply same_rights_refl].
Qed.
Lemma update_rows_origin (P : User -> bool) f l v : v ∈ update_rows P f l -> (forall u, User_ID (f u) = User_ID u /\ User_Name (f u) = User_Name u) ->
exists u, u ∈ l /\ User_ID u = User_ID v /\ User_Name u = User_Name v.
Proof. intros (u & -> & Hu)%list_elem_of_fmap Hf. exists u. destruct (P u); [destruct (Hf u) as [-> ->]|]; done. Qed.
Lemma update_rows_touched uid f u (Q : Prop) l : u ∈ l -> (User_ID u = uid -> Q) -> (exists v, v ∈ update_rows (has_id uid) f l /\ same_rights u v) \/ Q.
Proof.
intros Hu HQ. destruct (Z.eq_dec (User_ID u) uid) as [E|E]; [right; auto|left; by apply update_rows_kept].
Qed.

(** C30. With access control on and authentication required, every account keeps its
  number, name, password and role through any request, whatever the token and whichever
  statements fail, unless the caller acts as an account that either is this one and changes
  its own password, giving the right old one, or is an administrator who sets this
  account's password or role, or who deletes this account with a role not above theirs. A
  caller acts as an account with a session of it, or with the default token, if the
  configuration sets one, and that account's name: with the default token, as every shipped
  configuration has it, a caller without a session is any administrator they name. Every
  account that is new has role 0, or is named root, or comes from an administrator's change
  of role. *)
Theorem accounts_protected req tok now uuid flt db r db' :
access_control cfg = true -> skip_auth cfg = false -> uic_ok db ->
Routes cfg req tok now uuid flt db = (r, db') ->
(forall u, u ∈ users db ->
   (exists v, v ∈ users db' /\ same_rights u v)
   \/ (exists e old new, acts_as db tok u /\ req = PUT_cgpasswd e old new /\ User_Passwd u = HashIt cfg old)
   \/ (exists a, acts_as db tok a /\ (User_Role a = 1 \/ User_Role a = 2)
        /\ ((exists x, req = PUT_change_user_passwd (inl (User_ID u, x)) \/ req = PUT_change_user_role (inl (User_ID u, x)))
            \/ req = DELETE_delete_user (inl (User_ID u)) /\ User_Role u <= User_Role a)))
/\ (forall v, v ∈ users db' ->
   (exists u, u ∈ users db /\ User_ID u = User_ID v /\ User_Name u = User_Name v)
   \/ User_ID v = user_seq db + 1
      /\ (User_Role v = 0 \/ User_Name v = "root"
          \/ exists a uid x, acts_as db tok a /\ (User_Role a = 1 \/ User_Role a = 2) /\ req = PUT_change_user_role (inl (uid, x)))).
Proof.
intros Hac Hs Hok Hr. pose proof (Routes_accounts req tok now uuid flt db Hs Hok) as Hc. rewrite Hr in Hc. cbn [snd] in Hc.
assert (Hrole : forall a, IsAdmin cfg a = true -> User_Role a = 1 \/ User_Role a = 2).
{ intros a. unfold IsAdmin. rewrite Hac. cbn. lia. }
split; [intros u Hu | intros v Hv]; destruct Hc as [req|i Hno Had|req uid i Ha|a e old new Ha Hp|a uid p Ha Hadm|a uid p Ha Hadm|a uid p w Ha Hadm Hid|a uid Ha Hadm].
- left. by exists u.
- left. exists u. split; [apply elem_of_app; by left|done].
- left. by apply update_rows_kept.
- apply update_rows_touched; [done|]. intros E. left. exists e, old, new.
  assert (a ∈ users db) as Hin by (by destruct Ha as [(n & g & s & _ & ? & _)|n _ ? _]).
  assert (u = a) as -> by by apply (keyed_inj _ _ _ _ _ (ok_users _ Hok)). done.
- apply update_rows_touched; [done|]. intros <-. right. exists a. split; [done|]. split; [auto|]. left. exists p. by left.
- apply update_rows_touched; [done|]. intros <-. right. exists a. split; [done|]. split; [auto|]. left. exists p. by right.
- left. exists u. split; [apply elem_of_app; by left|done].
- destruct (has_id uid u && (User_Role u <=? User_Role a)) eqn:E.
  + right; right. exists a. split; [done|]. split; [auto|]. right. unfold has_id in E.
    apply andb_true_iff in E as [->%Z.eqb_eq E]. split; [done|lia].
  + left. exists u. split; [by apply elem_of_delete_rows|done].
- left. by exists v.
- apply elem_of_app in Hv as [Hv| ->%list_elem_of_singleton]; [left; by exists v|]. right. cbn. split; [done|]. case_bool_decide; auto.
- left. by eapply update_rows_origin.
- left. by eapply update_rows_origin.
- left. by eapply update_rows_origin.
- left. eapply update_rows_origin; [done|]. intros u. pose proof (asked_role_same p u). tauto.
- apply elem_of_app in Hv as [Hv| ->%list_elem_of_singleton]; [left; by exists v|]. right. split; [done|]. right; right. exists a, uid, p. auto.
- apply elem_of_delete_rows in Hv as [Hv _]. left. by exists v.
Qed.

(** * Who may change a team *)

Definition team_rels (tid : Z) db : list RelTeamUser := List.filter (fun r => Rel_Tid r =? tid) (rels db).
(** Nothing changes but the members of one team. *)
Definition only_members (tid : Z) db db' : Prop :=
teams db' = teams db /\ forall t, t <> tid -> team_rels t db' = team_rels t db.
#[local] Instance only_members_pre tid : PreOrder (only_members tid).
Proof.
split; [by intros db; split|]. intros d1 d2 d3 [H1 H2] [H3 H4]. split; [congruence|].
intros t Ht. rewrite H4, H2; done.
Qed.
Lemma create_rel_members tid uid db : only_members tid db (create_rel tid uid db).
Proof.
split; [done|]. intros t Ht. unfold team_rels. cbn. rewrite filter_app. cbn.
rewrite (proj2 (Z.eqb_neq tid t)) by congruence. apply app_nil_r.
Qed.
Lemma create_rels_members tid uids : forall flt db r db', create_rels tid uids flt db = (r, db') -> only_members tid db db'.
Proof.
induction uids as [|uid uids IH]; intros flt db r db'; cbn; [by intros [= <- <-]|].
cases; [by intros [= <- <-]|]. intros Hc%IH. etrans; [apply create_rel_members|exact Hc].
Qed.
Lemma bind_missing_members tid uids : forall flt db r db', bind_missing tid uids flt db = (r, db') -> only_members tid db db'.
Proof.
induction uids as [|uid uids IH]; intros flt db r db'; cbn; [by intros [= <- <-]|].
cases; [by apply IH|by intros [= <- <-]|]. intros Hc%IH. etrans; [apply create_rel_members|exact Hc].
Qed.
(** The rows that go are among those listed, all of them when there is no error. *)
Lemma delete_rels_spec men : forall flt db r db', delete_rels men flt db = (r, db') ->
exists gone, gone `sublist_of` men /\ (r = None -> gone = men) /\ teams db' = teams db
  /\ rels db' = delete_rows (fun x => bool_decide (Rel_ID x ∈ map Rel_ID gone)) (rels db).
Proof.
assert (Hnone : forall db, rels db = delete_rows (fun x => bool_decide (Rel_ID x ∈ map Rel_ID [])) (rels db)).
{ intros db. unfold delete_rows. induction (rels db) as [|x l IH]; [done|]. cbn. f_equal. exact IH. }
induction men as [|man men IH]; intros flt db r db'; cbn.
{ intros [= <- <-]. exists []. split; [constructor|]. auto. }
destruct (flt 0%nat) as [err|]; [intros [= <- <-]; exists []; split; [apply sublist_nil_l|]; by auto|].
intros (gone & Hsub & Hall & Ht & Hr)%IH. exists (man :: gone). split; [by constructor|]. split; [intros E; by rewrite Hall|].
split; [done|]. rewrite Hr. cbn. unfold delete_rows. generalize (rels db) as l.
induction l as [|x l IHl]; [done|]. cbn. destruct (Rel_ID x =? Rel_ID man) eqn:E; cbn.
- rewrite bool_decide_eq_true_2; [cbn; exact IHl|]. apply Z.eqb_eq in E as ->. left.
- apply Z.eqb_neq in E. rewrite (bool_decide_ext (Rel_ID x ∈ Rel_ID man :: map Rel_ID gone) (Rel_ID x ∈ map Rel_ID gone)).
  + destruct (bool_decide _); cbn; by rewrite IHl.
  + rewrite elem_of_cons. tauto.
Qed.
Lemma needDeleteMan_elem tid uids db r : r ∈ needDeleteMan tid uids db -> r ∈ rels db /\ Rel_Tid r = tid /\ Rel_Uid r ∉ uids.
Proof.
unfold needDeleteMan. destruct uids as [|u uids]; [by intros ?%not_elem_of_nil|].
rewrite list_elem_of_In, filter_In, andb_true_iff, negb_true_iff, bool_decide_eq_false, <-list_elem_of_In. intros (? & ? & ?). split; [done|]. split; [lia|done].
Qed.
Lemma delete_rels_members tid uids gone db : uic_ok db -> gone `sublist_of` needDeleteMan tid uids db ->
forall t, t <> tid -> List.filter (fun r => Rel_Tid r =? t) (delete_rows (fun x => bool_decide (Rel_ID x ∈ map Rel_ID gone)) (rels db)) = team_rels t db.
Proof.
intros Hok Hsub t Ht. unfold team_rels, delete_rows.
assert (Hkeep : forall x, x ∈ rels db -> Rel_Tid x = t -> Rel_ID x ∉ map Rel_ID gone).
{ intros x Hx Hxt Hg. apply list_elem_of_fmap in Hg as (y & Hid & Hy).
  apply (elem_of_sublist _ _ _ Hy), needDeleteMan_elem in Hsub as (Hyin & Hyt & _).
  rewrite (keyed_inj _ _ _ _ _ (ok_rels _ Hok) Hx Hyin Hid) in Hxt. congruence. }
revert Hkeep. generalize (rels db) as l. induction l as [|x l IH]; intros Hkeep; [done|]. cbn.
rewrite <-IH by (intros y Hy; apply Hkeep; by right). destruct (Rel_Tid x =? t) eqn:E.
- rewrite bool_decide_eq_false_2 by (apply Hkeep; [left|lia]). cbn. by rewrite E.
- destruct (bool_decide _); cbn; by rewrite ?E.
Qed.
Lemma bindUsers_members tid uids flt db r db' : uic_ok db -> bindUsers tid uids flt db = (r, db') -> only_members tid db db'.
Proof.
intros Hok. unfold bindUsers. destruct (flt 0%nat); [by intros [= <- <-]|].
destruct (delete_rels _ _ _) as [e d] eqn:E. apply delete_rels_spec in E as (gone & Hsub & _ & Ht & Hr).
assert (Hd : only_members tid db d).
{ split; [done|]. intros t Hne. unfold team_rels at 1. rewrite Hr. by eapply delete_rels_members. }
destruct e; [by intros [= <- <-]|]. intros Hb%bind_missing_members. by etrans.
Qed.

Definition team_kept (t : Team) db db' : Prop := t ∈ teams db' /\ team_rels (Team_ID t) db' = team_rels (Team_ID t) db.
Definition same_teams db db' : Prop := teams db' = teams db /\ rels db' = rels db.
Lemma save_user_teams u db db' : save_user u db = Some db' -> same_teams db db'.
Proof. unfold save_user, create_user. cases; cbn; intros E; by inversion E. Qed.
Lemma ensure_session_teams now uuid uid f g db r sig db' : ensure_session now uuid uid f g db = (r, (sig, db')) -> same_teams db db'.
Proof. unfold ensure_session. cases; intros E; by injection E as <- <- <-. Qed.
Lemma create_user_teams u db v db' : create_user u db = Some (v, db') -> same_teams db db'.
Proof. unfold create_user. cases; [done|]. by intros [= <- <-]. Qed.
Lemma same_teams_kept t db db' : same_teams db db' -> t ∈ teams db -> team_kept t db db'.
Proof. intros [Ht Hr] Hin. split; [by rewrite Ht|]. unfold team_rels. by rewrite Hr. Qed.
Ltac carry_teams :=
repeat match goal with
  | E : ensure_session _ _ _ _ _ _ = _ |- _ => apply ensure_session_teams in E
  | E : save_user _ _ = _ |- _ => apply save_user_teams in E
  end; first [assumption | split; reflexivity].
Lemma account_handlers_teams tok now uuid flt db :
(forall input, same_teams db (snd (Login cfg input now uuid flt db)))
/\ (forall input, same_teams db (snd (AdminLogin cfg tok input now uuid flt db)))
/\ same_teams db (snd (Logout tok flt db))
/\ (forall e old new, same_teams db (snd (ChangePassword cfg tok e old new flt db)))
/\ (forall input, same_teams db (snd (AdminChangePassword cfg tok input flt db)))
/\ (forall input, same_teams db (snd (ChangeRoleOfUser cfg tok input flt db)))
/\ (forall input, same_teams db (snd (AdminUserDelete cfg tok input flt db)))
/\ (forall input, same_teams db (snd (UpdateCurrentUser tok input flt db)))
/\ (forall uid input, same_teams db (snd (UpdateUser uid input flt db)))
/\ (forall input, same_teams db (snd (AdminChangeUserProfile cfg tok input flt db))).
Proof.
unfold Login, AdminLogin, Logout, ChangePassword, change_password, AdminChangePassword, ChangeRoleOfUser, AdminUserDelete, UpdateCurrentUser, UpdateUser, AdminChangeUserProfile.
do 9 (split; [intros; cases; cbn [snd]; carry_teams|]). intros; cases; cbn [snd]; carry_teams.
Qed.
Lemma CreateUser_teams tok input now uuid flt db : same_teams db (snd (CreateUser cfg tok input now uuid flt db)).
Proof.
unfold CreateUser. destruct input as [i|]; [|done]. cbv zeta.
destruct (if HasDangerousCharacters _ then _ else _); [done|]. destruct (read _ _); [done|]. destruct (flt 2%nat); [done|].
destruct (create_user _ db) as [[v d]|] eqn:Ec; [|done]. apply create_user_teams in Ec as [Ht Hr].
destruct (ensure_session _ _ _ _ _ _) as [[e|] [sig d']] eqn:Es; apply ensure_session_teams in Es as [Ht' Hr']; split; cbn; congruence.
Qed.
Lemma managed_team_spec user tid db t : uic_ok db -> managed_team cfg user tid db = Some t ->
t ∈ teams db /\ Team_ID t = tid /\ (IsAdmin cfg user = true \/ team_of (User_ID user) db t = true).
Proof.
intros Hok [Ht [Hid%Z.eqb_eq Hr%orb_true_iff]%andb_true_iff]%find_row_Some. auto.
Qed.
Lemma update_team_kept tid name resume db db' t : update_team tid name resume db = Some db' -> t ∈ teams db -> Team_ID t <> tid -> t ∈ teams db' /\ rels db' = rels db.
Proof.
unfold update_team. destruct (_ && _ && _); [done|]. intros [= <-] Ht Hne. split; [|done]. cbn. unfold update_rows.
apply list_elem_of_fmap. exists t. split; [|done]. by rewrite (proj2 (Z.eqb_neq _ _)).
Qed.

(** Who may do what with the team [t]. *)
Definition team_right db tok (req : request) (t : Team) : Prop :=
exists a, acts_as db tok a
  /\ (((exists resume name uids, req = PUT_team (inl (Team_ID t, resume, name, uids))) \/ (exists names, req = POST_team_user (inl (Team_ID t, names))))
        /\ (IsAdmin cfg a = true \/ team_of (User_ID a) db t = true)
      \/ (exists s, req = DELETE_team s /\ strconv_Atoi s = Some (Team_ID t)) /\ (IsAdmin cfg a = true \/ Team_Creator t = User_ID a)).

Section TeamRights.
Context (db : UicDb) (tok : token) (t : Team) (Hok : uic_ok db)
  (Hacts : forall f u, GetUser tok f db = inl u -> acts_as db tok u) (Ht : t ∈ teams db).
Lemma only_members_kept tid d d' : only_members tid d d' -> t ∈ teams d -> Team_ID t <> tid -> team_kept t d d'.
Proof. intros [Hteams Hrels] Hin Hne. split; [by rewrite Hteams|by apply Hrels]. Qed.
Lemma CreateTeam_kept input flt : team_kept t db (snd (CreateTeam tok input flt db)).
Proof.
  unfold CreateTeam. destruct input as [[[name resume] uids]|]; [|done]. destruct (GetUser _ _ _); [|done]. destruct (flt 1%nat); [done|].
  destruct (create_team _ _ _ _) as [[t' d]|] eqn:Ec; [|done]. unfold create_team in Ec. destruct (existsb _ _); [done|].
  injection Ec as <- <-. destruct (create_rels _ _ _ _) as [e d'] eqn:Er. apply create_rels_members in Er.
  assert (team_kept t db d').
  { refine (only_members_kept _ _ _ Er _ _); cbn; [apply elem_of_app; by left|]. destruct (ok_teams _ Hok) as [_ Hr]. specialize (Hr t Ht). lia. }
  by destruct e.
Qed.
Lemma UpdateTeam_kept input flt : team_kept t db (snd (UpdateTeam cfg tok input flt db)) \/ team_right db tok (PUT_team input) t.
Proof.
  unfold UpdateTeam. destruct input as [[[[tid resume] name] uids]|]; [|by left]. destruct (GetUser tok _ _) as [me|] eqn:Eg; [|by left].
  pose proof (Hacts _ _ Eg) as Hme. destruct (fetch _ _) as [t'|] eqn:Ef; [|by left]. apply fetch_inl in Ef as [_ Hm].
  destruct (managed_team_spec _ _ _ _ Hok Hm) as (Ht' & Hid & Hright).
  destruct (flt 2%nat); [by left|]. destruct (update_team _ _ _ _) as [d|] eqn:Eu; [|by left].
  destruct (Z.eq_dec (Team_ID t) tid) as [E|Hne].
  - right. assert (t = t') as -> by (apply (keyed_inj _ _ _ _ _ (ok_teams _ Hok)); congruence). exists me. split; [done|]. left. rewrite E. split; [left; by eexists _, _, _|done].
  - left. destruct (update_team_kept _ _ _ _ _ _ Eu Ht Hne) as [Hin Hrels]. apply (update_team_ok _ _ _ _ _ Hok) in Eu.
    destruct (bindUsers _ _ _ _) as [e d'] eqn:Eb. apply (bindUsers_members _ _ _ _ _ _ Eu) in Eb.
    destruct (only_members_kept _ _ _ Eb Hin Hne) as [Hk Hr]. assert (team_kept t db d') by (split; [done|]; rewrite Hr; unfold team_rels; by rewrite Hrels). by destruct e.
Qed.
Lemma AddTeamUsers_kept input flt : team_kept t db (snd (AddTeamUsers cfg tok input flt db)) \/ team_right db tok (POST_team_user input) t.
Proof.
  unfold AddTeamUsers. destruct input as [[tid names]|]; [|by left]. destruct (GetUser tok _ _) as [me|] eqn:Eg; [|by left].
  pose proof (Hacts _ _ Eg) as Hme. destruct (fetch _ _) as [t'|] eqn:Ef; [|by left]. apply fetch_inl in Ef as [_ Hm].
  destruct (managed_team_spec _ _ _ _ Hok Hm) as (Ht' & Hid & Hright).
  destruct (flt 2%nat); [by left|]. destruct (List.filter _ _) as [|w us]; [by left|].
  destruct (Z.eq_dec (Team_ID t) tid) as [E|Hne].
  - right. assert (t = t') as -> by (apply (keyed_inj _ _ _ _ _ (ok_teams _ Hok)); congruence). exists me. split; [done|]. left. rewrite E. split; [right; by eexists|done].
  - left. destruct (bind_missing _ _ _ _) as [e d'] eqn:Eb. apply bind_missing_members in Eb.
    pose proof (only_members_kept _ _ _ Eb Ht Hne). by destruct e.
Qed.
Lemma DeleteTeam_kept s flt : team_kept t db (snd (DeleteTeam cfg tok s flt db)) \/ team_right db tok (DELETE_team s) t.
Proof.
  unfold DeleteTeam. destruct (strconv_Atoi s) as [tid|] eqn:Ea; [|by left]. destruct (tid =? 0); [by left|].
  destruct (GetUser tok _ _) as [me|] eqn:Eg; [|by left]. pose proof (Hacts _ _ Eg) as Hme. cbv zeta.
  assert (Hkeep : Team_ID t <> tid -> forall d, t ∈ teams d -> team_rels (Team_ID t) d = team_rels (Team_ID t) db ->
    team_kept t db (match flt 3%nat with Some _ => d | None => set_rels (delete_rows (fun r => Rel_Tid r =? tid) (rels d)) d end)).
  { intros Hne d Hd Hrel. destruct (flt 3%nat); [by split|]. split; [done|]. rewrite <-Hrel. unfold team_rels, delete_rows. cbn.
    generalize (rels d) as l. induction l as [|x l IH]; [done|]. cbn.
    destruct (Rel_Tid x =? tid) eqn:E1, (Rel_Tid x =? Team_ID t) eqn:E2; cbn; rewrite ?E2, IH; try done. lia. }
  assert (Hdrop : Team_ID t <> tid -> t ∈ teams (set_teams (delete_rows (fun t => Team_ID t =? tid) (teams db)) db)).
  { intros Hne. apply elem_of_delete_rows. split; [done|lia]. }
  destruct (IsAdmin cfg me) eqn:Hadm.
  - destruct (flt 1%nat); [by left|]. destruct (Z.eq_dec (Team_ID t) tid) as [E|Hne]; [|left; apply Hkeep; by auto].
    right. exists me. split; [done|]. right. split; [exists s; by rewrite E|by left].
  - destruct (fetch _ _) as [t'|] eqn:Ef; [|by left]. apply fetch_inl in Ef as [_ [Ht' [Hid%Z.eqb_eq Hcr%Z.eqb_eq]%andb_true_iff]%find_row_Some].
    destruct (Z.eq_dec (Team_ID t) tid) as [E|Hne]; [|left; apply Hkeep; destruct (flt 2%nat); by auto].
    right. assert (t = t') as -> by (apply (keyed_inj _ _ _ _ _ (ok_teams _ Hok)); congruence).
    exists me. split; [done|]. right. split; [exists s; by rewrite E|by right].
Qed.
End TeamRights.

(** With authentication required, every team keeps its row and its members through any
  request, whatever the token and whichever statements fail, unless the caller acts as an
  account and the request updates, adds members to or deletes this team, as an administrator,
  or as its creator, or, except for deleting, as one of its members. *)
Theorem teams_protected req tok now uuid flt db r db' t :
skip_auth cfg = false -> uic_ok db -> Routes cfg req tok now uuid flt db = (r, db') -> t ∈ teams db ->
team_kept t db db' \/ team_right db tok req t.
Proof.
intros Hs Hok Hr Ht. assert (db' = snd (Routes cfg req tok now uuid flt db)) as -> by by rewrite Hr. clear Hr.
assert (Hauth : team_kept t db (snd (match AuthSessionMidd cfg tok flt db with inr r => (r, db) | inl _ => authenticated_routes cfg req tok now uuid (shift 2 flt) db end))
                \/ team_right db tok req t).
{ destruct (AuthSessionMidd _ _ _ _) as [x|] eqn:Em; [|by left]. destruct (midd_someone _ _ _ _ Hs Em) as [_ Hacts].
  destruct (reading req) eqn:Hrd; [rewrite (reading_unchanged cfg) by done; by left|].
  destruct (account_handlers_teams tok now uuid (shift 2 flt) db) as (_ & HAL & _ & HCP & HACP & HCR & HAD & HUC & HUU & HAP).
  destruct req; try discriminate Hrd; cbn [authenticated_routes]; try (left; apply same_teams_kept; auto; done).
  - left. by apply CreateTeam_kept.
  - by apply UpdateTeam_kept.
  - by apply AddTeamUsers_kept.
  - by apply DeleteTeam_kept. }
destruct (account_handlers_teams tok now uuid flt db) as (HL & _ & HO & _).
destruct req; cbn [Routes]; try exact Hauth.
- left. unfold AuthSession. by destruct (SessionChecking _ _ _ _).
- left. by apply same_teams_kept.
- left. by apply same_teams_kept.
- left. apply same_teams_kept; [apply CreateUser_teams|done].
Qed.

(** * The members of a team *)

Lemma in_team_create uid tid db (u : Z) : in_team u tid (create_rel tid uid db) = in_team u tid db || (u =? uid).
Proof. unfold in_team. cbn. rewrite existsb_app. cbn. rewrite Z.eqb_refl, orb_false_r, (Z.eqb_sym u). done. Qed.
Lemma rel_row_in_team tid uid db : tid <> 0 -> uid <> 0 -> in_team uid tid db = match rel_row tid uid db with Some _ => true | None => false end.
Proof.
intros Ht Hu. unfold rel_row. rewrite (proj2 (Z.eqb_neq tid 0)), (proj2 (Z.eqb_neq uid 0)) by done. cbn [orb]. unfold in_team.
destruct (find_row _ _) as [r|] eqn:E.
- apply find_row_Some in E as [Hr Hm]. apply existsb_exists. exists r. by rewrite <-list_elem_of_In.
- destruct (existsb _ _) eqn:Ex; [|done]. apply existsb_exists in Ex as (r & Hr%list_elem_of_In & Hm). by rewrite (find_row_None _ _ E r Hr) in Hm.
Qed.
Lemma bind_missing_exact tid uids : tid <> 0 -> 0 ∉ uids -> forall db, exists db', bind_missing tid uids (fun _ => None) db = (None, db')
/\ forall u : Z, in_team u tid db' = in_team u tid db || bool_decide (u ∈ uids).
Proof.
intros Ht. induction uids as [|uid uids IH]; intros H0 db; cbn.
{ exists db. split; [done|]. intros u. by rewrite orb_false_r. }
apply not_elem_of_cons in H0 as [Hu H0]. pose proof (rel_row_in_team tid uid db Ht (not_eq_sym Hu)) as Hin. destruct (rel_row tid uid db) as [r|].
- destruct (IH H0 db) as (db' & Hb & Hm). exists db'. split; [exact Hb|]. intros u. rewrite Hm.
  destruct (Z.eq_dec u uid) as [->|Hne]; [by rewrite Hin|]. f_equal. apply bool_decide_ext. rewrite elem_of_cons. tauto.
- destruct (IH H0 (create_rel tid uid db)) as (db' & Hb & Hm). exists db'. split; [exact Hb|]. intros u. rewrite Hm, in_team_create, <-orb_assoc. f_equal.
  destruct (Z.eq_dec u uid) as [->|Hne].
  + rewrite Z.eqb_refl. symmetry. apply bool_decide_eq_true_2. left.
  + rewrite (proj2 (Z.eqb_neq _ _)) by done. apply bool_decide_ext. rewrite elem_of_cons. tauto.
Qed.
Lemma delete_rels_runs men : forall db, exists db', delete_rels men (fun _ => None) db = (None, db').
Proof. induction men as [|man men IH]; intros db; cbn; [by exists db|]. apply IH. Qed.
Lemma needDeleteMan_in tid uids db r : uids <> [] -> r ∈ rels db -> Rel_Tid r = tid -> Rel_Uid r ∉ uids -> r ∈ needDeleteMan tid uids db.
Proof.
intros Hne Hr Ht Hu. destruct uids as [|w ws]; [done|]. unfold needDeleteMan. rewrite list_elem_of_In, filter_In, <-list_elem_of_In. split; [done|].
rewrite bool_decide_eq_false_2 by done. cbn. lia.
Qed.
Lemma delete_rels_exact tid uids db db' : uic_ok db -> uids <> [] -> delete_rels (needDeleteMan tid uids db) (fun _ => None) db = (None, db') ->
forall u : Z, in_team u tid db' = in_team u tid db && bool_decide (u ∈ uids).
Proof.
intros Hok Hne (gone & _ & Hg & _ & Hr)%delete_rels_spec u. rewrite Hg in Hr by done. unfold in_team. rewrite Hr.
apply eq_bool_prop_intro. rewrite !Is_true_true, andb_true_iff, bool_decide_eq_true, !existsb_exists. split.
- intros (x & Hx & Hm). rewrite <-list_elem_of_In in Hx. apply elem_of_delete_rows in Hx as [Hx Hk]. apply bool_decide_eq_false in Hk.
  apply andb_true_iff in Hm as [Hxt%Z.eqb_eq Hxu%Z.eqb_eq]. split; [exists x; rewrite <-list_elem_of_In, Hxt, Hxu, !Z.eqb_refl; done|].
  destruct (decide (u ∈ uids)) as [|Hn]; [done|]. exfalso. apply Hk. apply (list_elem_of_fmap_2 Rel_ID). apply needDeleteMan_in; congruence.
- intros [(x & Hx & Hm) Hu]. exists x. split; [|done]. rewrite <-list_elem_of_In in Hx |- *. apply elem_of_delete_rows. split; [done|].
  apply bool_decide_eq_false. intros (y & Hid & Hy)%list_elem_of_fmap. apply needDeleteMan_elem in Hy as (Hy & _ & Hyu).
  rewrite (keyed_inj _ _ _ _ _ (ok_rels _ Hok) Hx Hy Hid) in Hm. apply andb_true_iff in Hm as [_ Hm%Z.eqb_eq]. congruence.
Qed.

(** When no statement fails and the caller may manage the team, updating it with a list
  of users that is not empty succeeds, makes exactly the listed users its members,
  whoever they were before, and leaves the members of the other teams. *)
Theorem UpdateTeam_members tok tid resume name uids db u t d :
uic_ok db -> GetUser tok None db = inl u -> managed_team cfg u tid db = Some t -> update_team tid name resume db = Some d ->
uids <> [] -> 0 ∉ uids ->
exists db', UpdateTeam cfg tok (inl (tid, resume, name, uids)) (fun _ => None) db = (Answer (Msg "team updated!"), db')
  /\ (forall w : Z, in_team w tid db' = bool_decide (w ∈ uids))
  /\ (forall k, k <> tid -> team_rels k db' = team_rels k db).
Proof.
intros Hok Hu Hm Hup Hne H0. destruct (managed_team_spec _ _ _ _ Hok Hm) as (Ht & Hid & _).
assert (Htid : tid <> 0) by (destruct (ok_teams _ Hok) as [_ Hr]; specialize (Hr t Ht); lia).
pose proof (update_team_ok _ _ _ _ _ Hok Hup) as Hd.
assert (Hrels : rels d = rels db) by (revert Hup; unfold update_team; destruct (_ && _ && _); [done|]; by intros [= <-]).
destruct (delete_rels_runs (needDeleteMan tid uids d) d) as [d1 Hdel].
destruct (bind_missing_exact tid uids Htid H0 d1) as (d2 & Hbind & Hin). exists d2.
assert (Hb : bindUsers tid uids (fun _ => None) d = (None, d2)) by (unfold bindUsers; change (shift 1 (fun _ => None)) with (fun _ : nat => @None string); rewrite Hdel; exact Hbind).
split; [|split].
- unfold UpdateTeam. rewrite Hu, Hm. cbn [fetch]. rewrite Hup. change (bindUsers tid uids (shift 3 (fun _ => None)) d = (None, d2)) in Hb. by rewrite Hb.
- intros w. rewrite Hin, (delete_rels_exact _ _ _ _ Hd Hne Hdel). by destruct (in_team w tid d), (bool_decide _).
- intros k Hk. destruct (bindUsers_members _ _ _ _ _ _ Hd Hb) as [_ Hother]. rewrite Hother by done. unfold team_rels. by rewrite Hrels.
Qed.

(** * Sequences of requests *)

Record call := mkCall { call_req : request; call_tok : token; call_now : Z; call_uuid : string; call_faults : faults }.
Definition serve (cs : list call) db : UicDb :=
foldl (fun db c => snd (Routes cfg (call_req c) (call_tok c) (call_now c) (call_uuid c) (call_faults c) db)) db cs.
Definition empty_db : UicDb := mkUicDb [] [] [] [] 0 0 0 0.
Lemma empty_ok : uic_ok empty_db.
Proof. constructor; cbn; try done; try (split; [constructor|]); intros; by match goal with Hx : _ ∈ [] |- _ => apply not_elem_of_nil in Hx end. Qed.
Lemma serve_ok cs : forall db, uic_ok db -> uic_ok (serve cs db).
Proof. induction cs as [|c cs IH]; intros db Hok; [done|]. apply IH. by apply Routes_ok. Qed.

(** Whatever requests arrive, one after the other in whatever order, with whatever tokens and
  failing statements, the tables stay well formed: the numbers of users, sessions, teams and
  memberships are unique and were given out in order, no two users and no two teams have
  names that compare equal, each user has at most one session, and sessions and teams
  carry numbers of users that exist or existed. *)
Theorem tables_wellformed cs : uic_ok (serve cs empty_db).
Proof. apply serve_ok, empty_ok. Qed.

End Rights.

(** * Examples *)

Definition cfg_open : UicConfig := mkUicConfig true false false "" "salt".
Definition cfg_closed : UicConfig := mkUicConfig true true false "" "salt".
Definition cfg_shipped : UicConfig := mkUicConfig true false false "default-token-used-in-server-side" "salt".
Definition no_faults : faults := fun _ => None.
Definition post (req : request) (tok : token) (uuid : string) : call := mkCall req tok 1000 uuid no_faults.
Definition signup (name : string) : request := POST_create (inl (mkAPIUserInput name name (name +:+ "pw") "m@x" "" "" "")).
#[local] Existing Instance binary_collation.
(** root, an administrator ann, bob, and a team of bob's. *)
Definition office : UicDb :=
  serve cfg_open [post (signup "root") TokenMissing "r1"; post (signup "ann") TokenMissing "a1"; post (signup "bob") TokenMissing "b1";
                  post (PUT_change_user_role (inl (2, "yes"))) (Token "root" "r1") ""; post (POST_team (inl ("ops", "", [2]))) (Token "bob" "b1") ""] empty_db.
Definition request_of (cfg : UicConfig) (req : request) (tok : token) : reply * UicDb := Routes cfg req tok 1000 "x1" no_faults office.
Lemma office_ok : uic_ok office.
Proof. apply serve_ok, empty_ok. Qed.
Definition root : User := default no_user (users office !! 0%nat).
Definition ops : Team := default (mkTeam 0 "" "" 0) (teams office !! 0%nat).

Example office_rows : map User_Role (users office) = [2; 1; 0] /\ map Team_Creator (teams office) = [3] /\ map Rel_Uid (rels office) = [2] /\ map Session_Uid (sessions office) = [1; 2; 3].
Proof. vm_compute. done. Qed.
Lemma accounts_protected_witness :
  exists v, v ∈ users (snd (request_of cfg_shipped (PUT_user "1" (inl (mkAPIUserUpdateInput "Bob was here" "" "" "" ""))) (Token "bob" "b1"))) /\ same_rights root v.
Proof.
  destruct (accounts_protected cfg_shipped (PUT_user "1" (inl (mkAPIUserUpdateInput "Bob was here" "" "" "" ""))) (Token "bob" "b1") 1000 "x1" no_faults office
              _ _ eq_refl eq_refl office_ok (surjective_pairing _)) as [Hk _].
  destruct (Hk root) as [Hv|[(? & ? & ? & _ & E & _)|(? & _ & _ & [(? & [E|E])|[E _]])]]; [|exact Hv|discriminate E..].
  apply (list_elem_of_lookup_2 _ 0). vm_compute. reflexivity.
Defined.
Lemma teams_protected_witness : team_kept ops office (snd (request_of cfg_open (PUT_team (inl (2, "", "mine", []))) (Token "bob" "b1"))).
Proof.
  destruct (teams_protected cfg_open (PUT_team (inl (2, "", "mine", []))) (Token "bob" "b1") 1000 "x1" no_faults office _ _ ops
              eq_refl office_ok (surjective_pairing _)) as [Hk|(a & _ & [[[(? & ? & ? & E)|(? & E)] _]|[(? & E & _) _]])];
    [apply (list_elem_of_lookup_2 _ 0); vm_compute; reflexivity|exact Hk|vm_compute in E; discriminate E|discriminate E|discriminate E].
Defined.
Lemma UpdateTeam_members_witness :
  exists db', UpdateTeam cfg_open (Token "bob" "b1") (inl (1, "", "", [3; 1])) (fun _ => None) office = (Answer (Msg "team updated!"), db')
    /\ (forall w : Z, in_team w 1 db' = bool_decide (w ∈ [3; 1])) /\ (forall k, k <> 1 -> team_rels k db' = team_rels k office).
Proof.
  apply (UpdateTeam_members cfg_open (Token "bob" "b1") 1 "" "" [3; 1] office (default no_user (users office !! 2%nat)) ops
           (default office (update_team 1 "" "" office)) office_ok).
  - vm_compute. reflexivity.
  - vm_compute. reflexivity.
  - vm_compute. reflexivity.
  - discriminate.
  - set_solver.
Defined.

(** With the default token of the shipped configuration a caller without a session is the
    account they name: as bob they change nothing of ann's, as root they set her password. *)
Definition set_by (name : string) : UicDb :=
  snd (request_of cfg_shipped (PUT_change_user_passwd (inl (2, "mine"))) (Token name "default-token-used-in-server-side")).
Example default_token_acts :
  map User_Passwd (users (set_by "bob")) = map User_Passwd (users office)
  /\ (User_Passwd <$> users (set_by "root") !! 1%nat) = Some (HashIt cfg_shipped "mine").
Proof. vm_compute. done. Qed.

(** Signing up is disabled, but the name of an administrator in the token is enough. *)
Example signup_bypassed : length (users (snd (request_of cfg_closed (signup "eve") (Token "root" "wrong")))) = 4%nat.
Proof. vm_compute. done. Qed.
(** Any user may rewrite anyone's profile. *)
Example profile_of_root_rewritten :
  map User_Email (users (snd (request_of cfg_open (PUT_user "1" (inl (mkAPIUserUpdateInput "x" "eve@x" "" "" ""))) (Token "bob" "b1")))) = ["eve@x"; "m@x"; "m@x"].
Proof. vm_compute. done. Qed.
(** An administrator may set root's password, whom they may not delete. *)
Example root_password_set :
  map User_Passwd (users (snd (request_of cfg_open (PUT_change_user_passwd (inl (1, "mine"))) (Token "ann" "a1")))) !! 0%nat = Some (HashIt cfg_open "mine")
  /\ users (snd (request_of cfg_open (DELETE_delete_user (inl 1)) (Token "ann" "a1"))) = users office.
Proof. vm_compute. done. Qed.
(** Changing the role of a user that does not exist makes a user without name or password. *)
Example blank_admin_created :
  users (snd (request_of cfg_open (PUT_change_user_role (inl (99, "yes"))) (Token "ann" "a1"))) = users office ++ [mkUser 4 "" "" "" "" "" "" "" 1].
Proof. vm_compute. done. Qed.
(** A team cannot be emptied. *)
Example team_not_emptied : rels (snd (request_of cfg_open (PUT_team (inl (1, "", "", []))) (Token "bob" "b1"))) = rels office.
Proof. vm_compute. done. Qed.
