(* ===== verification/ApiGraph.v ===== *)
(** modules/api, data of the graphs: the client of the graph cluster (graph/graph.go) and
    the handlers of controller/graph, for the dashboard and for Grafana. The index database
    is its tables; what the network answers is an argument. *)
From Stdlib Require Import Ascii ZArith.
From stdpp Require Import base list gmap strings numbers.
From S2P Require Import Prelude GoString GoFloat GoText GoRegexp GoHash Utils Model ThirdParty GraphUtil GraphStore GraphIndex GraphApi TransferCfg TransferSender ApiUic.

Local Open Scope Z_scope.

(** * graph/graph.go: the cluster *)

Section Cluster.
Context `{NodeRing, MapRange, NSet}.

Record GraphCluster := mkGraphCluster {
  clusterMap : gmap string string; ring : ConsistentHashNodeRing; GraphConnPools : SafeRpcConnPools }.

Definition initNodeRings (replicas : Z) (clusterMap : gmap string string) : ConsistentHashNodeRing :=
  NewConsistentHashNodesRing (i32 replicas) (KeysOfMap clusterMap).
Definition initConnPools (maxConns maxIdle connTimeout callTimeout : Z) (clusterMap : gmap string string) : SafeRpcConnPools :=
  CreateSafeRpcConnPools maxConns maxIdle connTimeout callTimeout (set_ToSlice (map snd (range_pairs clusterMap))).
Definition graph_Start (replicas maxConns maxIdle connTimeout callTimeout : Z) (addrs : gmap string string) : GraphCluster :=
  mkGraphCluster addrs (initNodeRings replicas addrs) (initConnPools maxConns maxIdle connTimeout callTimeout addrs).

(** The address, and an error. *)
Definition selectPoolByPK (gc : GraphCluster) (pk : string) : string + string :=
  match GetNode (ring gc) pk with
  | None => inr "empty circle"
  | Some node =>
      match clusterMap gc !! node with
      | None => inr "node not found"
      | Some addr => if SafeRpcConnPools_Get (GraphConnPools gc) addr then inl addr else inr "addr not found"
      end
  end.
Definition selectPool (gc : GraphCluster) (endpoint counter : string) : string + string := selectPoolByPK gc (PK2 endpoint counter).

(** What becomes of a call: no connection, a closed one, no answer in time, an error with
    what was decoded, an answer. *)
Inductive outcome (R : Type) :=
  | FetchErr (err : string)
  | ConnClosed
  | CallTimeout_
  | CallErr (err : string) (partial : R)
  | CallReply (r : R).
Arguments FetchErr {R}.
Arguments ConnClosed {R}.
Arguments CallTimeout_ {R}.
Arguments CallErr {R}.
Arguments CallReply {R}.

(** What a call does with the pool of its address. *)
Definition pool_use {R : Type} (addr : string) (o : outcome R) : list pool_event :=
  match o with
  | FetchErr _ => []
  | ConnClosed | CallTimeout_ | CallErr _ _ => [Fetch addr; ForceClose addr]
  | CallReply _ => [Fetch addr; Release addr]
  end.
Definition call_failed (addr err : string) : string := addr +:+ ", call failed, err " +:+ err.
Definition call_timeout (addr : string) : string := addr +:+ ", call timeout".

Definition GenQParam (endpoint counter consolFun : string) (stime etime step : Z) : GraphQueryParam :=
  mkGraphQueryParam stime etime consolFun endpoint counter step.

(** The values of the window; a negative one of a counter is not a number. The values
    decoded from an answer are never nil. *)
Definition fix_value (dsType : string) (v : RRDData) : RRDData :=
  if bool_decide (dsType = "DERIVE" \/ dsType = "COUNTER") && f64_lt (RRDData_Value v) f64_zero
  then mkRRDData (RRDData_Timestamp v) f64_nan else v.
Definition fix_values (start end_ : Z) (dsType : string) (vs : list RRDData) : list RRDData :=
  map (fix_value dsType) (List.filter (fun v => (start <=? RRDData_Timestamp v) && (RRDData_Timestamp v <=? end_)) vs).
Definition with_values (vs : list RRDData) (r : GraphQueryResponse) : GraphQueryResponse :=
  mkGraphQueryResponse (GraphQueryResponse_Endpoint r) (GraphQueryResponse_Counter r) (GraphQueryResponse_DsType r) (GraphQueryResponse_Step r) vs.
Definition empty_response : GraphQueryResponse := mkGraphQueryResponse "" "" "" 0 [].

(** The answer, nil after a timeout, and the error. *)
Definition QueryOne (gc : GraphCluster) (para : GraphQueryParam) (net : string -> outcome GraphQueryResponse)
    : list pool_event * (option GraphQueryResponse * option string) :=
  match selectPool gc (GraphQueryParam_Endpoint para) (GraphQueryParam_Counter para) with
  | inr err => ([], (Some empty_response, Some err))
  | inl addr =>
      (pool_use addr (net addr),
       match net addr with
       | FetchErr err => (Some empty_response, Some err)
       | ConnClosed => (Some empty_response, Some "conn closed")
       | CallTimeout_ => (None, Some (call_timeout addr))
       | CallErr err r => (Some r, Some (call_failed addr err))
       | CallReply r =>
           (Some (with_values (fix_values (GraphQueryParam_Start para) (GraphQueryParam_End para) (GraphQueryResponse_DsType r) (GraphQueryResponse_Values r)) r), None)
       end)
  end.

(** The parameters by the key of their series; those whose tags do not parse are dropped. *)
Definition delete_pk (para : GraphDeleteParam) : option string :=
  match SplitTagsString (GraphDeleteParam_Tags para) with
  | (Some _, _) => None
  | (None, tags) => Some (PK2 (GraphDeleteParam_Endpoint para) (Counter (GraphDeleteParam_Metric para) tags))
  end.
Definition group_param (nodes : gmap string (list GraphDeleteParam)) (para : GraphDeleteParam) : gmap string (list GraphDeleteParam) :=
  match delete_pk para with
  | None => nodes
  | Some pk => <[pk := default [] (nodes !! pk) ++ [para]]> nodes
  end.
Definition group_params (params : list GraphDeleteParam) : gmap string (list GraphDeleteParam) := fold_left group_param params ∅.

(** The calls that are made. *)
Definition delete_node (gc : GraphCluster) (net : string -> string -> outcome unit) (p : string * list GraphDeleteParam)
    : list pool_event * list (string * list GraphDeleteParam) :=
  let '(pk, node_params) := p in
  match selectPoolByPK gc pk with
  | inr _ => ([], [])
  | inl addr =>
      (pool_use addr (net pk addr),
       match net pk addr with FetchErr _ | ConnClosed => [] | _ => [(addr, node_params)] end)
  end.
Definition Delete (gc : GraphCluster) (params : list GraphDeleteParam) (net : string -> string -> outcome unit)
    : list pool_event * list (string * list GraphDeleteParam) :=
  let out := map (delete_node gc net) (range_pairs (group_params params)) in
  (concat (map fst out), concat (map snd out)).

Record GraphFullyInfo := mkGraphFullyInfo {
  Info_Endpoint : string; Info_Counter : string; Info_ConsolFun : string; Info_Step : Z; Info_Filename : string; Info_Addr : string }.

Definition Info (gc : GraphCluster) (endpoint counter : string) (net : string -> outcome GraphInfoResp)
    : list pool_event * (option GraphFullyInfo * option string) :=
  match selectPool gc endpoint counter with
  | inr err => ([], (None, Some err))
  | inl addr =>
      (pool_use addr (net addr),
       match net addr with
       | FetchErr err => (None, Some err)
       | ConnClosed => (None, Some "conn closed")
       | CallTimeout_ => (None, Some (call_timeout addr))
       | CallErr err _ => (None, Some (call_failed addr err))
       | CallReply r => (Some (mkGraphFullyInfo endpoint counter (GraphInfoResp_ConsolFun r) (GraphInfoResp_Step r) (GraphInfoResp_Filename r) addr), None)
       end)
  end.

(** [Last] and [LastRaw] differ in the method they call. *)
Definition Last (gc : GraphCluster) (endpoint counter : string) (net : string -> outcome GraphLastResp)
    : list pool_event * (option GraphLastResp * option string) :=
  match selectPool gc endpoint counter with
  | inr err => ([], (None, Some err))
  | inl addr =>
      (pool_use addr (net addr),
       match net addr with
       | FetchErr err => (None, Some err)
       | ConnClosed => (None, Some "conn closed")
       | CallTimeout_ => (None, Some (call_timeout addr))
       | CallErr err r => (Some r, Some (call_failed addr err))
       | CallReply r => (Some r, None)
       end)
  end.
Definition LastRaw := Last.

End Cluster.

Arguments FetchErr {R}.
Arguments ConnClosed {R}.
Arguments CallTimeout_ {R}.
Arguments CallErr {R}.
Arguments CallReply {R}.
Arguments outcome R : clear implicits.

(** The addresses of lines with a comma, of the file hosts. *)
Definition Hosts (f : string) : list string :=
  omap (fun d => if strings_Contains d "," then strings_Split d "," !! 1%nat else None) (strings_Split f "010").

(** * model/graph, and the tables *)

Record Endpoint := mkEndpoint { Endpoint_ID : Z; Endpoint_Endpoint : string; Endpoint_Ts : Z }.
Record EndpointCounter := mkEndpointCounter {
  EC_ID : Z; EC_EndpointID : Z; EC_Counter : string; EC_Step : Z; EC_Type : string; EC_Ts : Z }.
Record TagEndpoint := mkTagEndpoint { TE_ID : Z; TE_Tag : string; TE_EndpointID : Z; TE_Ts : Z }.
Record IndexTables := mkIndexTables { endpoints : list Endpoint; endpoint_counters : list EndpointCounter; tag_endpoints : list TagEndpoint }.

(** A handler answers, or refuses with a status and a text. *)
Definition answer (A : Type) : Type := A + (Z * string).

(** MySQL's [like]. *)
Class Like := db_like : string -> string -> bool.

(** The cache of steps (toolkits/cache/localcache): what it holds was put there. *)
Class TimedCache := {
  timed_cache : Type;
  cache_Get : timed_cache -> string -> Z -> option Z;
  cache_Set : timed_cache -> string -> Z -> Z -> timed_cache;
  cache_Get_Set c k v now k' now' w :
    cache_Get (cache_Set c k v now) k' now' = Some w -> (k' = k /\ w = v) \/ cache_Get c k' now' = Some w }.

Section Handlers.
Context `{NodeRing, MapRange, Collation, Like, TimedCache}.
Implicit Types (db : IndexTables) (flt : faults).

(** [endpoint in (?)] *)
Definition in_list (l : list string) (s : string) : bool := existsb (same_text s) l.

Definition EndpointObjGet (input : (list string * Z) + string) flt db : answer (list (Z * string * Z)) :=
  match input with
  | inr err => inr (badstatus, err)
  | inl (names, deadline) =>
      if (length names =? 0)%nat then inr (badstatus, "endpoints missing")
      else match flt 0%nat with
           | Some err => inr (badstatus, err)
           | None =>
               inl (map (fun r => (Endpoint_ID r, Endpoint_Endpoint r, Endpoint_Ts r))
                      (List.filter (fun r => in_list names (Endpoint_Endpoint r) && (deadline <=? Endpoint_Ts r)) (endpoints db)))
           end
  end.

(** The rows of a statement with a limit and an offset, where a negative offset is none;
    without a limit, which is what a negative one means, MySQL refuses the statement. *)
Definition limit_rows {A : Type} (limit offset : Z) (l : list A) : option (list A) :=
  if limit <? 0 then None else Some (take (Z.to_nat limit) (drop (Z.to_nat offset) l)).
Definition page_offset (page limit : Z) : Z := if 1 <? page then i64 ((page - 1) * limit) else 0.
Definition syntax_error : string := "Error 1064".
Definition run_limited {A : Type} (err : option string) (limit offset : Z) (l : list A) : list A + string :=
  match err, limit_rows limit offset l with
  | Some e, _ => inr e
  | None, None => inr syntax_error
  | None, Some rows => inl rows
  end.

(** The numbers of the endpoints that have a counter with all the labels. *)
Definition labelled (labels : list string) db : list Z :=
  remove_dups (map EC_EndpointID (List.filter (fun c => forallb (fun t => db_like (EC_Counter c) ("%" +:+ strings_TrimSpace t +:+ "%")) labels) (endpoint_counters db))).

Definition EndpointRegexpQuery (input : (string * string * Z * Z) + string) flt db : answer (list (Z * string)) :=
  match input with
  | inr err => inr (badstatus, err)
  | inl (q, label, limit, page) =>
      if bool_decide (q = "") && bool_decide (label = "") then inr (badstatus, "q and labels are all missing")
      else
        let labels := if bool_decide (label = "") then [] else strings_Split label "," in
        let qs := if bool_decide (q = "") then [] else strings_Split q " " in
        let offset := page_offset page limit in
        match (match labels with [] => inl [] | _ => run_limited (flt 0%nat) limit offset (labelled labels db) end) with
        | inr err => inr (badstatus, err)
        | inl endpoint_id =>
            let chosen e := bool_decide (Endpoint_ID e ∈ endpoint_id) in
            let out l := map (fun e => (Endpoint_ID e, Endpoint_Endpoint e)) l in
            match qs with
            | [] =>
                match endpoint_id, flt 1%nat with
                | [], _ => inl []
                | _, Some err => inr (badstatus, err)
                | _, None => inl (out (List.filter chosen (endpoints db)))
                end
            | _ =>
                (* the error of this query is lost *)
                let rows := List.filter (fun e => (match endpoint_id with [] => true | _ => chosen e end)
                              && forallb (fun t => db_regexp (Endpoint_Endpoint e) (strings_TrimSpace t)) qs) (endpoints db) in
                inl (out (match run_limited (flt 1%nat) limit offset rows with inl l => l | inr _ => [] end))
            end
        end
  end.

(** utils.ConverIntStringToList: what is not a number is dropped, its comma is not. *)
Fixpoint conver_loop (i : nat) (result : string) (es : list string) : string :=
  match es with
  | [] => result
  | e :: es =>
      conver_loop (S i)
        (match strconv_Atoi e with
         | None => result
         | Some v => match i with O => strconv_Itoa v | _ => result +:+ "," +:+ strconv_Itoa v end
         end) es
  end.
Definition ConverIntStringToList (eid : string) : string := conver_loop 0 "" (strings_Split eid ",").

(** One term of a metric query: negated after an exclamation mark. *)
Definition counter_term (counter term : string) : bool :=
  if bool_decide (strings_TrimSpace term = "") then true
  else if strings_HasPrefix term "!" then negb (db_regexp counter (str_drop 1 term)) else db_regexp counter term.
(** A text that is compared with a number is read as far as it is one; only [""] and
    numbers come here. *)
Definition eid_number (s : string) : Z := default 0 (strconv_Atoi s).

Definition EndpointCounterRegexpQuery (eid metricQuery limitTmp pageTmp : string) flt db : answer (list (Z * string * Z * string)) :=
  match strconv_Atoi limitTmp, strconv_Atoi pageTmp with
  | None, _ | Some _, None => inr (badstatus, "strconv")
  | Some limit, Some page =>
      if bool_decide (eid = "") then inr (badstatus, "eid is missing")
      else
        let eids := ConverIntStringToList eid in
        if bool_decide (eids = "") then inr (badstatus, "input error, please check your input info.")
        else
          let eidArray := map eid_number (strings_Split eids ",") in
          let rows := List.filter (fun c => bool_decide (EC_EndpointID c ∈ eidArray)
                        && (bool_decide (metricQuery = "") || forallb (counter_term (EC_Counter c)) (strings_Split metricQuery " "))) (endpoint_counters db) in
          match run_limited (flt 0%nat) limit (page_offset page limit) rows with
          | inr err => inr (badstatus, err)
          | inl rows => inl (map (fun c => (EC_EndpointID c, EC_Counter c, EC_Step c, EC_Type c)) rows)
          end
  end.

(** * Queries *)

Definition fetchData (gc : GraphCluster) (hostname counter consolFun : string) (startTime endTime step : Z)
    (net : string -> outcome GraphQueryResponse) : list pool_event * (option GraphQueryResponse * option string) :=
  QueryOne gc (GenQParam hostname counter consolFun startTime endTime step) net.

(** The rows with an endpoint and a counter. *)
Definition counter_rows (endpoint counter : string) db : list EndpointCounter :=
  List.filter (fun c => same_text (EC_Counter c) counter
    && existsb (fun e => (Endpoint_ID e =? EC_EndpointID c) && same_text (Endpoint_Endpoint e) endpoint) (endpoints db)) (endpoint_counters db).

(** [scan_int] is what scanning a row makes of a plain integer. *)
Definition getCounterStep (scan_int : Z -> Z) (endpoint counter : string) (now : Z) (err : option string) (cache : timed_cache) db
    : (Z + string) * timed_cache :=
  let cache_key := "step:" +:+ endpoint +:+ "/" +:+ counter in
  match cache_Get cache cache_key now with
  | Some s => (inl s, cache)
  | None =>
      match err, counter_rows endpoint counter db with
      | Some e, _ => (inr e, cache)
      | None, [] => (inr "empty result", cache)
      | None, row :: _ => let step := scan_int (EC_Step row) in (inl step, cache_Set cache cache_key step now)
      end
  end.

Record draw_input := mkDrawInput {
  HostNames : list string; Counters : list string; draw_ConsolFun : string; StartTime : Z; EndTime : Z; draw_Step : Z }.
(** The network and the clock, by the number of the query. *)
Definition network (R : Type) : Type := nat -> string -> outcome R.

Fixpoint draw_loop (gc : GraphCluster) (scan_int : Z -> Z) (i : draw_input) (now : Z) (net : network GraphQueryResponse) (flt : faults) db
    (pairs : list (string * string)) (cache : timed_cache) : list (option GraphQueryResponse) * timed_cache * list pool_event :=
  match pairs with
  | [] => ([], cache, [])
  | (host, counter) :: pairs =>
      let '(step, cache) := if 0 <? draw_Step i then (inl (draw_Step i), cache)
                            else getCounterStep scan_int host counter now (flt 0%nat) cache db in
      let rest := draw_loop gc scan_int i now (fun n => net (S n)) (shift 1 flt) db pairs in
      match step with
      | inr _ => rest cache
      | inl step =>
          let '(ev, (data, _)) := fetchData gc host counter (draw_ConsolFun i) (StartTime i) (EndTime i) step (net 0%nat) in
          let '(out, cache, evs) := rest cache in (data :: out, cache, ev ++ evs)
      end
  end.
Definition QueryGraphDrawData (gc : GraphCluster) (scan_int : Z -> Z) (input : draw_input + string) (now : Z) (net : network GraphQueryResponse) flt db (cache : timed_cache)
    : answer (list (option GraphQueryResponse)) * timed_cache * list pool_event :=
  match input with
  | inr err => (inr (badstatus, err), cache, [])
  | inl i =>
      let '(out, cache, evs) := draw_loop gc scan_int i now net flt db (list_prod (HostNames i) (Counters i)) cache in (inl out, cache, evs)
  end.

Fixpoint last_loop (gc : GraphCluster) (net : network GraphLastResp) (params : list (string * string)) : list (option GraphLastResp) * list pool_event :=
  match params with
  | [] => ([], [])
  | (endpoint, counter) :: params =>
      let '(ev, (r, err)) := Last gc endpoint counter (net 0%nat) in
      let '(out, evs) := last_loop gc (fun n => net (S n)) params in
      (match err with Some _ => out | None => r :: out end, ev ++ evs)
  end.
Definition QueryGraphLastPoint (gc : GraphCluster) (input : list (string * string) + string) (net : network GraphLastResp)
    : answer (list (option GraphLastResp)) * list pool_event :=
  match input with
  | inr err => (inr (badstatus, err), [])
  | inl params => let '(out, evs) := last_loop gc net params in (inl out, evs)
  end.

(** * Deletions *)

Record DBRows := mkDBRows { row_Endpoint : string; row_CounterId : Z; row_Counter : string; row_Type : string; row_Step : Z }.
(** The counters of the endpoints, in the order of the tables. *)
Definition db_rows (names : list string) (counters : option (list string)) db : list DBRows :=
  concat (map (fun a =>
    map (fun b => mkDBRows (Endpoint_Endpoint a) (EC_ID b) (EC_Counter b) (EC_Type b) (EC_Step b))
      (List.filter (fun b => (EC_EndpointID b =? Endpoint_ID a) && match counters with None => true | Some cs => in_list cs (EC_Counter b) end)
         (endpoint_counters db)))
    (List.filter (fun a => in_list names (Endpoint_Endpoint a)) (endpoints db))).
(** The metric and the tags of a counter: [strings.SplitN(counter, "/", 2)]. *)
Definition counter_fields (counter : string) : string * string :=
  match find_byte "/" counter with
  | None => (counter, "")
  | Some n => (str_take n counter, str_drop (S n) counter)
  end.
Definition row_param (row : DBRows) : GraphDeleteParam :=
  let '(metric, tags) := counter_fields (row_Counter row) in
  mkGraphDeleteParam (row_Endpoint row) metric (row_Step row) (row_Type row) tags.

Definition delete_counters (ids : list Z) db : IndexTables :=
  mkIndexTables (endpoints db) (delete_rows (fun c => bool_decide (EC_ID c ∈ ids)) (endpoint_counters db)) (tag_endpoints db).
Definition named_ids (names : list string) db : list Z := map Endpoint_ID (List.filter (fun e => in_list names (Endpoint_Endpoint e)) (endpoints db)).
Definition delete_tags (names : list string) db : IndexTables :=
  mkIndexTables (endpoints db) (endpoint_counters db) (delete_rows (fun t => bool_decide (TE_EndpointID t ∈ named_ids names db)) (tag_endpoints db)).
Definition delete_endpoints (names : list string) db : IndexTables :=
  mkIndexTables (delete_rows (fun e => in_list names (Endpoint_Endpoint e)) (endpoints db)) (endpoint_counters db) (tag_endpoints db).

(** The answer, the tables, and the calls to the graphs. The error of the commit is not
    looked at. *)
Definition deletion : Type := answer unit * IndexTables * (list pool_event * list (string * list GraphDeleteParam)).
Definition commit (err : option string) (db' db : IndexTables) : IndexTables := match err with Some _ => db | None => db' end.

Definition DeleteGraphEndpoint (gc : GraphCluster) (input : list string + string) (net : string -> string -> outcome unit) flt db : deletion :=
  match input with
  | inr err => (inr (badstatus, err), db, ([], []))
  | inl names =>
      match flt 0%nat with
      | Some err => (inr (badstatus, err), db, ([], []))
      | None =>
          let rows := db_rows names None db in
          let sent := match rows with [] => ([], []) | _ => Delete gc (map row_param rows) net end in
          let tx := match rows with
                    | [] => inl db
                    | _ => match flt 1%nat, flt 2%nat with
                           | Some err, _ | None, Some err => inr err
                           | None, None => inl (delete_tags names (delete_counters (map row_CounterId rows) db))
                           end
                    end in
          match tx, flt 3%nat with
          | inr err, _ | inl _, Some err => (inr (badstatus, err), db, sent)
          | inl db', None => (inl tt, commit (flt 4%nat) (delete_endpoints names db') db, sent)
          end
      end
  end.

Definition DeleteGraphCounter (gc : GraphCluster) (input : (list string * list string) + string) (net : string -> string -> outcome unit) flt db : deletion :=
  match input with
  | inr err => (inr (badstatus, err), db, ([], []))
  | inl (names, counters) =>
      match flt 0%nat with
      | Some err => (inr (badstatus, err), db, ([], []))
      | None =>
          match db_rows names (Some counters) db with
          | [] => (inl tt, db, ([], []))
          | rows =>
              let sent := Delete gc (map row_param rows) net in
              match flt 1%nat with
              | Some err => (inr (badstatus, err), db, sent)
              | None => (inl tt, commit (flt 2%nat) (delete_counters (map row_CounterId rows) db) db, sent)
              end
          end
      end
  end.

(** * controller/graph/grafana_controller.go *)

Record APIGrafanaMainQueryOutputs := mkGrafanaOutput { Expandable : bool; Text : string }.
Definition dots_to_tildes : string -> string := strings_replace "." "~".
Definition tildes_to_dots : string -> string := strings_replace "~" ".".
Definition host_outputs (es : list Endpoint) : list APIGrafanaMainQueryOutputs :=
  map (fun e => mkGrafanaOutput true (dots_to_tildes (Endpoint_Endpoint e))) es.
(** The errors of the queries are not looked at; a negative limit is none. *)
Definition upto {A : Type} (limit : Z) (l : list A) : list A := if limit <? 0 then l else take (Z.to_nat limit) l.
Definition rows_or_none {A : Type} (err : option string) (l : list A) : list A := match err with Some _ => [] | None => l end.

Definition repsonseDefault (limit : Z) (err : option string) db : list APIGrafanaMainQueryOutputs :=
  host_outputs (rows_or_none err (upto limit (endpoints db))).
Definition responseHostsRegexp (limit : Z) (regexpKey : string) (err : option string) db : list APIGrafanaMainQueryOutputs :=
  host_outputs (rows_or_none err (upto limit (List.filter (fun e => db_regexp (Endpoint_Endpoint e) regexpKey) (endpoints db)))).

(** [([^#}]+)}?#(.+)] at the start of the text. *)
Fixpoint span_host (s : string) : string * string :=
  match s with
  | EmptyString => ("", "")
  | String c t => if Ascii.eqb c "#" || Ascii.eqb c "}" then ("", s) else let '(h, r) := span_host t in (String c h, r)
  end.
Fixpoint first_line (s : string) : string :=
  match s with
  | EmptyString => ""
  | String c t => if Ascii.eqb c "010" then "" else String c (first_line t)
  end.
Definition match_hosts (s : string) : option (string * string) :=
  let '(h, r) := span_host s in
  if bool_decide (h = "") then None
  else
    let r := match r with String "}" t => t | _ => r end in
    match r with
    | String "#" t => let c := first_line t in if bool_decide (c = "") then None else Some (h, c)
    | _ => None
    end.
(** [^{?([^#}]+)}?#(.+)]: with the brace taken off first. *)
Definition match_query (s : string) : option (string * string) :=
  match s with
  | String "{" t => match match_hosts t with Some m => Some m | None => match_hosts s end
  | _ => match_hosts s
  end.
Definition cutEndpointCounterHelp (regexpKey : string) : list string * string :=
  match match_query regexpKey with
  | None => ([], "")
  | Some (hosts, counter) => (strings_Split (tildes_to_dots hosts) ",", strings_Replace "#" "\." counter)
  end.

Definition expandableChecking (counter counterSearchKeyWord : string) : string * bool :=
  let terms := strings_SplitStr counterSearchKeyWord "\." in
  let expCheck :=
    if (length terms =? 1)%nat then counter
    else strings_TrimPrefix (strings_TrimPrefix counter (strings_Join (take (length terms - 1) terms) ".")) "." in
  if bool_decide (expCheck = "") then (expCheck, false)
  else match strings_Split expCheck "." with
       | [a] => (a, false)
       | a :: _ => (a, true)
       | [] => ("", true)
       end.

(** The texts, each expandable when one of its items is. *)
Definition add_item (mapset : gmap string bool) (i : APIGrafanaMainQueryOutputs) : gmap string bool :=
  match mapset !! Text i with
  | Some val => if negb (Bool.eqb val (Expandable i)) && Expandable i then <[Text i := Expandable i]> mapset else mapset
  | None => <[Text i := Expandable i]> mapset
  end.
Definition addAddItionalItems (items : list APIGrafanaMainQueryOutputs) (regexpKey : string) : list APIGrafanaMainQueryOutputs :=
  let flag := existsb (fun i => negb (Expandable i)) items in
  let result := map (fun '(c, val) => mkGrafanaOutput val c) (range_pairs (fold_left add_item items ∅)) in
  let result := if flag then result ++ [mkGrafanaOutput false "$"] else result in
  if (0 <? length (strings_SplitStr regexpKey "\."))%nat then result ++ [mkGrafanaOutput false "%"] else result.

Definition findEndpointIdByEndpointList (hosts : list string) (err : option string) db : list Z :=
  map Endpoint_ID (rows_or_none err (List.filter (fun e => in_list hosts (Endpoint_Endpoint e)) (endpoints db))).

Definition responseCounterRegexp (regexpKey : string) flt db : list APIGrafanaMainQueryOutputs :=
  let '(hosts, counter) := cutEndpointCounterHelp regexpKey in
  if (length hosts =? 0)%nat || bool_decide (counter = "") then []
  else
    match findEndpointIdByEndpointList hosts (flt 0%nat) db with
    | [] => []
    | hostIds =>
        match rows_or_none (flt 1%nat) (List.filter (fun c => bool_decide (EC_EndpointID c ∈ hostIds) && db_regexp (EC_Counter c) counter) (endpoint_counters db)) with
        | [] => []
        | counters =>
            addAddItionalItems (map (fun c => let '(expsub, needexp) := expandableChecking (EC_Counter c) counter in mkGrafanaOutput needexp expsub) counters) regexpKey
        end
    end.

Definition GrafanaMainQuery (input : (Z * string) + string) flt db : answer (list APIGrafanaMainQueryOutputs) :=
  match input with
  | inr err => inr (badstatus, err)
  | inl (limit, query) =>
      inl (if bool_decide (query = "!N!") then repsonseDefault limit (flt 0%nat) db
           else if negb (strings_Contains query "#") then responseHostsRegexp limit query (flt 0%nat) db
           else if negb (strings_Contains query "#select metric") then responseCounterRegexp query flt db
           else [])
  end.

(** [\\.\$\s*$]: a backslash, any character and a dollar before the blanks at the end. *)
Definition is_blank (c : ascii) : bool := str_mem c (String "009" (String "010" (String "012" (String "013" " ")))).
Fixpoint cut_dollar (s : string) : option string :=
  match s with
  | EmptyString => None
  | String c t =>
      match s with
      | String "\" (String d (String "$" r)) =>
          if negb (Ascii.eqb d "010") && str_forall is_blank r then Some "" else String c <$> cut_dollar t
      | _ => String c <$> cut_dollar t
      end
  end.
(** The pattern of the counters and whether it is exact. *)
Definition render_counter (counter : string) : bool * string :=
  let '(flag, counter) := match cut_dollar counter with Some c => (true, c) | None => (false, counter) end in
  (flag, strings_Replace "\.%" ".+" counter).

(** [select distinct] on texts. *)
Fixpoint distinct_texts (seen l : list string) : list string :=
  match l with
  | [] => []
  | x :: l => if in_list seen x then distinct_texts seen l else x :: distinct_texts (x :: seen) l
  end.
Definition target_counters (hosts : list string) (counter : string) flt db : list string :=
  let '(flag, counter) := render_counter counter in
  let hostIds := findEndpointIdByEndpointList hosts (flt 0%nat) db in
  distinct_texts [] (map EC_Counter (rows_or_none (flt 1%nat)
    (List.filter (fun c => bool_decide (EC_EndpointID c ∈ hostIds)
       && (if (flag : bool) then same_text (EC_Counter c) counter else db_regexp (EC_Counter c) counter)) (endpoint_counters db)))).

Record APIGrafanaRenderInput := mkRenderInput { Target : list string; From_ : Z; Until : Z; render_Step : Z; render_ConsolFun : string }.
Fixpoint render_pairs (gc : GraphCluster) (i : APIGrafanaRenderInput) (net : network GraphQueryResponse) (pairs : list (string * string))
    : list (option GraphQueryResponse) * list pool_event :=
  match pairs with
  | [] => ([], [])
  | (host, c) :: pairs =>
      let '(ev, (resp, err)) := fetchData gc host c (render_ConsolFun i) (From_ i) (Until i) (render_Step i) (net 0%nat) in
      let '(out, evs) := render_pairs gc i (fun n => net (S n)) pairs in
      (match err with Some _ => out | None => resp :: out end, ev ++ evs)
  end.
Fixpoint render_targets (gc : GraphCluster) (i : APIGrafanaRenderInput) (net : nat -> network GraphQueryResponse) flt db (targets : list string)
    : list (option GraphQueryResponse) * list pool_event :=
  match targets with
  | [] => ([], [])
  | target :: targets =>
      let '(hosts, counter) := cutEndpointCounterHelp target in
      let '(out, evs) := render_pairs gc i (net 0%nat) (list_prod hosts (target_counters hosts counter flt db)) in
      let '(outs, evs') := render_targets gc i (fun n => net (S n)) (shift 2 flt) db targets in
      (out ++ outs, evs ++ evs')
  end.
Definition GrafanaRender (gc : GraphCluster) (input : APIGrafanaRenderInput + string) (net : nat -> network GraphQueryResponse) flt db
    : answer (list (option GraphQueryResponse)) * list pool_event :=
  match input with
  | inr err => (inr (badstatus, err), [])
  | inl i => let '(out, evs) := render_targets gc i net flt db (Target i) in (inl out, evs)
  end.

End Handlers.

(** * Keys *)

Lemma counter_fields_Counter metric tags : str_free "/" metric = true -> wf_tags tags ->
  exists text, counter_fields (Counter metric tags) = (metric, text) /\ SplitTagsString text = (None, tags).
Proof.
  intros Hm Hw. unfold Counter, counter_fields. destruct (size tags =? 0)%nat eqn:E.
  - apply size_zero_empty in E as ->. exists "". by rewrite (proj2 (find_byte_None _ _) Hm).
  - exists (SortedTags tags). split; [|by apply SplitTagsString_SortedTags].
    change ("/" +:+ SortedTags tags) with (String "/" (SortedTags tags)).
    rewrite find_byte_app by done. rewrite str_take_app. f_equal.
    change (String "/" (SortedTags tags)) with (String "/" EmptyString +:+ SortedTags tags). rewrite <-str_app_assoc.
    replace (S (String.length metric)) with (String.length (metric +:+ String "/" EmptyString)) by (rewrite str_length_app; cbn; lia).
    apply str_drop_app.
Qed.
Lemma group_params_elem params : forall nodes para pk,
  (para ∈ params /\ delete_pk para = Some pk \/ exists l, nodes !! pk = Some l /\ para ∈ l) ->
  exists l, fold_left group_param params nodes !! pk = Some l /\ para ∈ l.
Proof.
  induction params as [|p params IH]; intros nodes para pk; cbn.
  { intros [[?%not_elem_of_nil _]|Hl]; done. }
  intros Hp. apply IH. unfold group_param. destruct Hp as [[[->|Hp]%elem_of_cons Hk]|(l & Hl & Hin)].
  - right. rewrite Hk, lookup_insert_eq. eexists. split; [done|]. apply elem_of_app. right. left.
  - by left.
  - right. destruct (delete_pk p) as [pk'|]; [|by exists l]. destruct (decide (pk' = pk)) as [->|Hne].
    + rewrite lookup_insert_eq, Hl. eexists. split; [done|]. cbn. apply elem_of_app. by left.
    + rewrite lookup_insert_ne by done. by exists l.
Qed.
Lemma in_concat_map {A B : Type} (f : A -> list B) l x y : x ∈ l -> y ∈ f x -> y ∈ concat (map f l).
Proof. rewrite !list_elem_of_In, in_concat. intros Hx Hy. exists (f x). split; [by apply in_map|done]. Qed.
Lemma in_filter {A : Type} (P : A -> bool) l x : x ∈ l -> P x = true -> x ∈ List.filter P l.
Proof. rewrite !list_elem_of_In, filter_In. done. Qed.
(** The call is made: a connection was there. *)
Definition connected {R : Type} (o : outcome R) : bool := match o with FetchErr _ | ConnClosed => false | _ => true end.

Section Deleting.
Context `{NodeRing, MapRange}.
Lemma Delete_sends (gc : GraphCluster) params net para pk addr :
  para ∈ params -> delete_pk para = Some pk -> selectPoolByPK gc pk = inl addr -> connected (net pk addr) = true ->
  exists ps, (addr, ps) ∈ snd (Delete gc params net) /\ para ∈ ps.
Proof.
  intros Hp Hk Hs Hc. destruct (group_params_elem params ∅ para pk) as (l & Hl & Hin); [by left|].
  exists l. split; [|done]. unfold Delete. cbn [snd]. rewrite map_map.
  apply (in_concat_map _ _ (pk, l)); [by apply elem_of_range_pairs|].
  cbn. rewrite Hs. cbn. destruct (net pk addr); try done; left.
Qed.

Context `{!NSet}.
Lemma start_selects replicas mc mi ct cl addrs pk node addr :
  GetNode (NewConsistentHashNodesRing (i32 replicas) (KeysOfMap addrs)) pk = Some node -> addrs !! node = Some addr ->
  selectPoolByPK (graph_Start replicas mc mi ct cl addrs) pk = inl addr.
Proof.
  intros Hn Ha. unfold selectPoolByPK. cbn. unfold initNodeRings. rewrite Hn, Ha.
  unfold SafeRpcConnPools_Get. rewrite bool_decide_eq_true_2; [done|].
  apply CreateSafeRpcConnPools_M, set_ToSlice_elem, list_elem_of_fmap. exists (node, addr). split; [done|]. by apply elem_of_range_pairs.
Qed.
End Deleting.

(** A removal depends on the key, the type and the step. *)
Lemma RemoveItem_key `{LimitedList, NMap} {D DB : Type} `{!Disk D, !IndexDb DB} cfg (i j : GraphItem) (st : GraphState D DB) :
  GraphItem_Checksum i = GraphItem_Checksum j -> GraphItem_DsType i = GraphItem_DsType j -> GraphItem_Step i = GraphItem_Step j ->
  RemoveItem cfg i st = RemoveItem cfg j st.
Proof. unfold RemoveItem. by intros -> -> ->. Qed.

Section Reach.
Context `{NodeRing, MapRange, NSet, Collation} `{LimitedList, NMap} {D DB : Type} `{!Disk D, !IndexDb DB}.
(** The row of a series in the index. *)
Definition indexed (item : GraphItem) (a : Endpoint) (b : EndpointCounter) (db : IndexTables) : Prop :=
  a ∈ endpoints db /\ b ∈ endpoint_counters db /\ Endpoint_Endpoint a = GraphItem_Endpoint item /\ EC_EndpointID b = Endpoint_ID a
  /\ EC_Counter b = Counter (GraphItem_Metric item) (GraphItem_Tags item) /\ EC_Type b = GraphItem_DsType item /\ EC_Step b = GraphItem_Step item.

Lemma in_list_elem l s : s ∈ l -> in_list l s = true.
Proof. intros Hs. apply existsb_exists. exists s. rewrite <-list_elem_of_In. split; [done|apply same_text_refl]. Qed.
Definition series_row (item : GraphItem) (b : EndpointCounter) : DBRows :=
  mkDBRows (GraphItem_Endpoint item) (EC_ID b) (Counter (GraphItem_Metric item) (GraphItem_Tags item)) (GraphItem_DsType item) (GraphItem_Step item).
Lemma db_rows_elem names counters item a b db : indexed item a b db -> GraphItem_Endpoint item ∈ names ->
  match counters with None => True | Some cs => Counter (GraphItem_Metric item) (GraphItem_Tags item) ∈ cs end ->
  series_row item b ∈ db_rows names counters db.
Proof.
  intros (Ha & Hb & Ea & Eid & Ec & Et & Es) Hn Hc. unfold db_rows, series_row. rewrite <-Ea, <-Ec, <-Et, <-Es.
  apply (in_concat_map _ _ a); [apply in_filter; [done|apply in_list_elem; by rewrite Ea]|].
  apply (list_elem_of_fmap_2 (fun b => mkDBRows (Endpoint_Endpoint a) (EC_ID b) (EC_Counter b) (EC_Type b) (EC_Step b))).
  apply in_filter; [done|]. rewrite Eid, Z.eqb_refl. cbn. destruct counters; [|done]. rewrite Ec. by apply in_list_elem.
Qed.
Lemma row_param_deletes cfg item b : str_free "/" (GraphItem_Metric item) = true -> wf_tags (GraphItem_Tags item) ->
  delete_pk (row_param (series_row item b)) = Some (GraphItem_PrimaryKey item)
  /\ forall st : GraphState D DB, Graph_Delete_one cfg st (row_param (series_row item b)) = RemoveItem cfg item st.
Proof.
  intros Hm Hw. unfold row_param, series_row, delete_pk, Graph_Delete_one. cbn.
  destruct (counter_fields_Counter _ _ Hm Hw) as (text & -> & Ht). cbn. rewrite Ht. split.
  - unfold GraphItem_PrimaryKey. by rewrite PK_Counter.
  - intros st. by apply RemoveItem_key.
Qed.

(** C31. Deleting an endpoint or a counter reaches the data: for every series the index
    lists under it (a metric without a slash, printable tags), the call goes to the node of
    the ring to which the transfer sends the points of the series, and the parameter in it
    makes that graph remove exactly this series, its file and its cached points, provided
    the two services are configured with the same nodes and number of replicas, the query
    of the index succeeds and the connection stands. *)
Theorem delete_reaches_series (tcfg : TransferCfg.GlobalConfig) (gcfg : GraphUtil.GraphConfig) mc mi ct cl addrs names counters net flt db item a b node addr :
  KeysOfMap addrs = KeysOfMap (Graph_Cluster (Graph tcfg)) ->
  str_free "/" (GraphItem_Metric item) = true -> wf_tags (GraphItem_Tags item) -> indexed item a b db ->
  GraphItem_Endpoint item ∈ names -> Counter (GraphItem_Metric item) (GraphItem_Tags item) ∈ counters ->
  GetNode (TransferSender.GraphNodeRing (TransferSender.Start tcfg)) (GraphItem_PrimaryKey item) = Some node -> addrs !! node = Some addr ->
  flt 0%nat = None -> connected (net (GraphItem_PrimaryKey item) addr) = true ->
  let gc := graph_Start (Graph_Replicas (Graph tcfg)) mc mi ct cl addrs in
  forall sent, (sent = snd (snd (DeleteGraphCounter gc (inl (names, counters)) net flt db)) \/ sent = snd (snd (DeleteGraphEndpoint gc (inl names) net flt db))) ->
  exists ps p, (addr, ps) ∈ sent /\ p ∈ ps /\ forall st : GraphState D DB, Graph_Delete_one gcfg st p = RemoveItem gcfg item st.
Proof.
  intros Hk Hm Hw Hix Hn Hc Hnode Haddr Hf Hnet gc sent Hsent.
  cbn in Hnode. rewrite <-Hk in Hnode. pose proof (start_selects _ mc mi ct cl _ _ _ _ Hnode Haddr) as Hsel.
  destruct (row_param_deletes gcfg item b Hm Hw) as [Hpk Hdel].
  assert (Hsends : forall cs, match cs with None => True | Some cs => Counter (GraphItem_Metric item) (GraphItem_Tags item) ∈ cs end ->
            db_rows names cs db <> [] /\ exists ps, (addr, ps) ∈ snd (Delete gc (map row_param (db_rows names cs db)) net) /\ row_param (series_row item b) ∈ ps).
  { intros cs Hcs. pose proof (db_rows_elem names cs item a b db Hix Hn Hcs) as Hrow. split.
    - intros E. rewrite E in Hrow. by apply not_elem_of_nil in Hrow.
    - eapply Delete_sends; [by apply list_elem_of_fmap_2|exact Hpk|exact Hsel|exact Hnet]. }
  destruct Hsent as [-> | ->].
  - destruct (Hsends (Some counters) Hc) as (Hne & ps & Hps & Hp). exists ps, (row_param (series_row item b)). split; [|by split].
    unfold DeleteGraphCounter. rewrite Hf. destruct (db_rows names (Some counters) db) as [|row rows]; [done|]. by destruct (flt 1%nat).
  - destruct (Hsends None I) as (Hne & ps & Hps & Hp). exists ps, (row_param (series_row item b)). split; [|by split].
    unfold DeleteGraphEndpoint. rewrite Hf. destruct (db_rows names None db) as [|row rows]; [done|]. cbv zeta.
    destruct (flt 1%nat), (flt 2%nat), (flt 3%nat); exact Hps.
Qed.

(** A refused deletion leaves the tables. *)
Lemma deletion_atomic gc names counters net flt db err :
  (fst (fst (DeleteGraphEndpoint gc (inl names) net flt db)) = inr err -> snd (fst (DeleteGraphEndpoint gc (inl names) net flt db)) = db)
  /\ (fst (fst (DeleteGraphCounter gc (inl (names, counters)) net flt db)) = inr err -> snd (fst (DeleteGraphCounter gc (inl (names, counters)) net flt db)) = db).
Proof.
  unfold DeleteGraphEndpoint, DeleteGraphCounter. split; cbv zeta; cases; done.
Qed.
(** After a deletion of endpoints that had counters, nothing in the index refers to them. *)
Lemma deletion_complete gc names net flt db db' sent e :
  DeleteGraphEndpoint gc (inl names) net flt db = (inl tt, db', sent) -> flt 4%nat = None -> db_rows names None db <> [] ->
  e ∈ endpoints db -> in_list names (Endpoint_Endpoint e) = true ->
  e ∉ endpoints db' /\ (forall c, c ∈ endpoint_counters db' -> EC_EndpointID c <> Endpoint_ID e) /\ (forall t, t ∈ tag_endpoints db' -> TE_EndpointID t <> Endpoint_ID e).
Proof.
  unfold DeleteGraphEndpoint. intros Hd Hf Hne He Hn. destruct (flt 0%nat); [done|]. cbv zeta in Hd.
  destruct (db_rows names None db) as [|row rows] eqn:Er; [done|]. destruct (flt 1%nat), (flt 2%nat), (flt 3%nat); try discriminate Hd.
  injection Hd as <- _. rewrite Hf. cbn [commit delete_endpoints delete_tags delete_counters endpoints endpoint_counters tag_endpoints].
  split; [|split].
  - rewrite elem_of_delete_rows. by intros [_ Hf'%not_true_iff_false].
  - intros c [Hc Hids]%elem_of_delete_rows Heq. apply bool_decide_eq_false in Hids. apply Hids.
    change (EC_ID c) with (row_CounterId (mkDBRows (Endpoint_Endpoint e) (EC_ID c) (EC_Counter c) (EC_Type c) (EC_Step c))).
    change (row_CounterId row :: map row_CounterId rows) with (map row_CounterId (row :: rows)). apply list_elem_of_fmap_2. rewrite <-Er. apply (in_concat_map _ _ e); [by apply in_filter|].
    apply (list_elem_of_fmap_2 (fun b => mkDBRows (Endpoint_Endpoint e) (EC_ID b) (EC_Counter b) (EC_Type b) (EC_Step b))).
    apply in_filter; [done|]. by rewrite Heq, Z.eqb_refl.
  - intros t [Ht Hids]%elem_of_delete_rows Heq. apply bool_decide_eq_false in Hids. apply Hids. rewrite Heq.
    unfold named_ids. apply list_elem_of_fmap_2. by apply in_filter.
Qed.
End Reach.

(** * Connections *)

(** Every connection that is fetched is given back at once. *)
Inductive given_back : list pool_event -> Prop :=
  | given_none : given_back []
  | given_closed addr evs : given_back evs -> given_back (Fetch addr :: ForceClose addr :: evs)
  | given_released addr evs : given_back evs -> given_back (Fetch addr :: Release addr :: evs).
Lemma given_back_app e1 e2 : given_back e1 -> given_back e2 -> given_back (e1 ++ e2).
Proof. induction 1; intros H2; cbn; [done|apply given_closed; auto|apply given_released; auto]. Qed.
Lemma pool_use_back {R : Type} addr (o : outcome R) : given_back (pool_use addr o).
Proof. destruct o; repeat constructor. Qed.

Section Connections.
Context `{NodeRing, MapRange, Collation, Like, TimedCache}.
Lemma QueryOne_back gc para net : given_back (fst (QueryOne gc para net)).
Proof. unfold QueryOne. destruct (selectPool _ _ _); [apply pool_use_back|constructor]. Qed.
Lemma Last_back gc e c net : given_back (fst (Last gc e c net)).
Proof. unfold Last. destruct (selectPool _ _ _); [apply pool_use_back|constructor]. Qed.
Lemma Info_back gc e c net : given_back (fst (Info gc e c net)).
Proof. unfold Info. destruct (selectPool _ _ _); [apply pool_use_back|constructor]. Qed.
Lemma Delete_back gc params net : given_back (fst (Delete gc params net)).
Proof.
  unfold Delete. cbn [fst]. induction (range_pairs (group_params params)) as [|[pk ps] l IH]; cbn; [constructor|].
  apply given_back_app; [|exact IH]. destruct (selectPoolByPK gc pk); [apply pool_use_back|constructor].
Qed.
Lemma draw_back gc f i now db pairs : forall net cache flt, given_back (snd (draw_loop gc f i now net flt db pairs cache)).
Proof.
  induction pairs as [|[h c] pairs IH]; intros net cache flt; cbn; [constructor|].
  destruct (if 0 <? draw_Step i then _ else _) as [[step|err] cache']; [|apply IH].
  pose proof (QueryOne_back gc (GenQParam h c (draw_ConsolFun i) (StartTime i) (EndTime i) step) (net 0%nat)) as Hq. unfold fetchData.
  destruct (QueryOne _ _ _) as [ev [data err]]. specialize (IH (fun n => net (S n)) cache' (shift 1 flt)).
  destruct (draw_loop _ _ _ _ _ _ _ _ _) as [[out cache''] evs]. by apply given_back_app.
Qed.
End Connections.

(** * Grafana *)

Section Texts.
Lemma strings_map_app f s t : strings_map f (s +:+ t) = strings_map f s +:+ strings_map f t.
Proof. induction s as [|c s IH]; [done|]. rewrite str_app_cons. cbn [strings_map]. by rewrite IH, str_app_cons. Qed.
Lemma tildes_back h : str_free "~" h = true -> tildes_to_dots (dots_to_tildes h) = h.
Proof.
  unfold tildes_to_dots, dots_to_tildes, strings_replace. induction h as [|c h IH]; [done|]. intros [Hc Hf]%str_free_cons. cbn [strings_map].
  rewrite IH by done. f_equal. destruct (Ascii.eqb "." c) eqn:E; [by apply Ascii.eqb_eq in E as <-|]. by rewrite Hc.
Qed.
Lemma tildes_Join l : Forall (fun h => str_free "~" h = true) l -> tildes_to_dots (strings_Join (map dots_to_tildes l) ",") = strings_Join l ",".
Proof.
  induction 1 as [|x l Hx Hl IH]; [done|]. destruct l as [|y l]; [by apply tildes_back|].
  change (strings_Join (map dots_to_tildes (x :: y :: l)) ",") with (dots_to_tildes x +:+ "," +:+ strings_Join (map dots_to_tildes (y :: l)) ",").
  pose proof (tildes_back x Hx) as Hb. unfold tildes_to_dots, strings_replace in *. by rewrite !strings_map_app, IH, Hb.
Qed.
Lemma dots_free c h : Ascii.eqb c "~" = false -> str_free c h = true -> str_free c (dots_to_tildes h) = true.
Proof.
  intros Hc. unfold dots_to_tildes, strings_replace. induction h as [|d h IH]; [done|]. intros [Hd Hf]%str_free_cons.
  cbn [strings_map]. unfold str_free in *. cbn [str_forall]. rewrite IH by done. destruct (Ascii.eqb "." d); [by rewrite Hc|by rewrite Hd].
Qed.
Lemma Join_free c l sep : str_free c sep = true -> Forall (fun s => str_free c s = true) l -> str_free c (strings_Join l sep) = true.
Proof.
  intros Hs Hl. induction Hl as [|x [|y l] Hx Hl IH]; [done..|].
  change (strings_Join (x :: y :: l) sep) with (x +:+ sep +:+ strings_Join (y :: l) sep). by rewrite !str_free_app, Hx, Hs, IH.
Qed.
Lemma replace_cons c new d s : strings_Replace (String c "") new (String d s)
  = if Ascii.eqb c d then new +:+ strings_Replace (String c "") new s else String d (strings_Replace (String c "") new s).
Proof. unfold strings_Replace. cbn [replace_from strings_HasPrefix]. by rewrite andb_true_r. Qed.
Lemma replace_free c new s : str_free c s = true -> strings_Replace (String c "") new s = s.
Proof. induction s as [|d s IH]; [done|]. intros [Hd Hf]%str_free_cons. by rewrite replace_cons, Hd, IH. Qed.
Lemma replace_app c new s t : str_free c s = true -> strings_Replace (String c "") new (s +:+ String c t) = s +:+ new +:+ strings_Replace (String c "") new t.
Proof.
  induction s as [|d s IH]; [intros _; by rewrite !str_app_nil_l, replace_cons, Ascii.eqb_refl|].
  intros [Hd Hf]%str_free_cons. by rewrite !str_app_cons, replace_cons, Hd, IH.
Qed.
Lemma replace_Join c new l : Forall (fun s => str_free c s = true) l -> strings_Replace (String c "") new (strings_Join l (String c "")) = strings_Join l new.
Proof.
  intros Hl. induction Hl as [|x [|y l] Hx Hl IH]; [done|by apply replace_free|].
  change (strings_Join (x :: y :: l) (String c "")) with (x +:+ String c (strings_Join (y :: l) (String c ""))).
  rewrite replace_app by done. by rewrite IH.
Qed.
Lemma span_host_app h c r : str_free "#" h = true -> str_free "}" h = true -> (c = "#" \/ c = "}")%char -> span_host (h +:+ String c r) = (h, String c r).
Proof.
  intros Hh Hb Hc. induction h as [|d h IH]; [cbn; by destruct Hc as [-> | ->]|].
  apply str_free_cons in Hh as [Hd Hh], Hb as [He Hb]. rewrite str_app_cons. cbn [span_host].
  rewrite Ascii.eqb_sym, Hd, Ascii.eqb_sym, He. cbn. by rewrite IH.
Qed.
Lemma first_line_free s : str_free "010" s = true -> first_line s = s.
Proof. induction s as [|c s IH]; [done|]. intros [Hc Hs]%str_free_cons. cbn. rewrite Ascii.eqb_sym, Hc. by rewrite IH. Qed.
Lemma Join_nonempty l sep : l <> [] -> Forall (fun s => s <> "") l -> strings_Join l sep <> "".
Proof. intros Hl Hf. destruct Hf as [|x [|y l] Hx Hf]; [done|done|]. cbn. destruct x; [done|]. by rewrite str_app_cons. Qed.
Lemma dots_nonempty h : h <> "" -> dots_to_tildes h <> "".
Proof. by destruct h. Qed.
End Texts.

(** What may be an endpoint of a query of Grafana. *)
Definition plain_host (h : string) : bool :=
  negb (bool_decide (h = "")) && str_free "~" h && str_free "," h && str_free "#" h && str_free "}" h.
Lemma plain_host_spec h : plain_host h = true -> h <> "" /\ str_free "~" h = true /\ str_free "," h = true /\ str_free "#" h = true /\ str_free "}" h = true.
Proof. unfold plain_host. rewrite !andb_true_iff, negb_true_iff, bool_decide_eq_false. tauto. Qed.

(** The endpoints that Grafana is shown, their dots written as tildes, come back from its
    query: from the text with the chosen endpoints in braces and the parts of the counter
    after number signs, the endpoints and the counter with escaped dots are read, when the
    endpoints have no tilde, comma, number sign or closing brace and the counter no number
    sign in its parts and no line end. *)
Theorem grafana_roundtrip hosts parts :
  hosts <> [] -> Forall (fun h => plain_host h = true) hosts ->
  Forall (fun s => str_free "#" s = true /\ str_free "010" s = true) parts -> strings_Join parts "#" <> "" ->
  cutEndpointCounterHelp ("{" +:+ strings_Join (map dots_to_tildes hosts) "," +:+ "}#" +:+ strings_Join parts "#")
    = (hosts, strings_Join parts "\.").
Proof.
  intros Hne Hh Hp Hc.
  assert (Hfree : forall c, Ascii.eqb c "~" = false -> Ascii.eqb c "," = false -> (forall h, plain_host h = true -> str_free c h = true) ->
    str_free c (strings_Join (map dots_to_tildes hosts) ",") = true).
  { intros c Hc1 Hc2 Hpl. apply Join_free; [unfold str_free; cbn; by rewrite Hc2|].
    apply list.Forall_fmap, (list.Forall_impl _ _ _ Hh). intros h Hpl'. apply dots_free; [done|by apply Hpl]. }
  unfold cutEndpointCounterHelp. change ("{" +:+ ?x) with (String "{" x). cbn [match_query].
  set (H := strings_Join (map dots_to_tildes hosts) ","). set (C := strings_Join parts "#").
  assert (match_hosts (H +:+ "}#" +:+ C) = Some (H, C)) as ->.
  { unfold match_hosts. change ("}#" +:+ C) with (String "}" (String "#" C)).
    rewrite span_host_app; [|apply Hfree; [done..|]; intros h Hpl%plain_host_spec; tauto|apply Hfree; [done..|]; intros h Hpl%plain_host_spec; tauto|by right].
    rewrite bool_decide_eq_false_2.
    - rewrite first_line_free; [by rewrite bool_decide_eq_false_2|]. apply Join_free; [done|]. apply (list.Forall_impl _ _ _ Hp). by intros s [_ Hs].
    - apply Join_nonempty; [by destruct hosts|]. apply list.Forall_fmap, (list.Forall_impl _ _ _ Hh). intros h (Hn & _)%plain_host_spec. by apply dots_nonempty. }
  f_equal.
  - unfold H. rewrite tildes_Join by (apply (list.Forall_impl _ _ _ Hh); intros h Hpl%plain_host_spec; tauto).
    apply (strings_Split_Join hosts); [done|]. apply (list.Forall_impl _ _ _ Hh). by intros h (_ & _ & ? & _)%plain_host_spec.
  - unfold C. apply replace_Join. apply (list.Forall_impl _ _ _ Hp). by intros s [Hs _].
Qed.

Lemma grafana_roundtrip_witness : cutEndpointCounterHelp "{web1~example~com,db1}#cpu#idle" = (["web1.example.com"; "db1"], "cpu\.idle").
Proof.
  apply (grafana_roundtrip ["web1.example.com"; "db1"] ["cpu"; "idle"]);
    [discriminate|repeat constructor|repeat constructor|discriminate].
Defined.

(** A query that is answered: the values of the window in their order, those below 0 of a
    counter without a value, nothing else. *)
Lemma QueryOne_window `{NodeRing} (gc : GraphCluster) para net addr r :
  selectPool gc (GraphQueryParam_Endpoint para) (GraphQueryParam_Counter para) = inl addr -> net addr = CallReply r ->
  exists vs, snd (QueryOne gc para net) = (Some (with_values vs r), None)
    /\ map RRDData_Timestamp vs `sublist_of` map RRDData_Timestamp (GraphQueryResponse_Values r)
    /\ forall v, v ∈ vs <-> exists w, w ∈ GraphQueryResponse_Values r /\ GraphQueryParam_Start para <= RRDData_Timestamp w <= GraphQueryParam_End para
         /\ v = fix_value (GraphQueryResponse_DsType r) w.
Proof.
  intros Hs Hn. unfold QueryOne. rewrite Hs, Hn. eexists. split; [done|]. split.
  - unfold fix_values. rewrite map_map. generalize (GraphQueryResponse_Values r) as l. induction l as [|v l IH]; cbn; [constructor|].
    destruct (_ && _); cbn; [|by constructor]. replace (RRDData_Timestamp (fix_value (GraphQueryResponse_DsType r) v)) with (RRDData_Timestamp v); [by constructor|].
    unfold fix_value. by destruct (_ && _).
  - intros v. unfold fix_values. split.
    + intros (w & -> & Hw)%list_elem_of_fmap. apply list_elem_of_In, filter_In in Hw as [Hw Hr]. exists w. rewrite list_elem_of_In. split; [done|]. split; [lia|done].
    + intros (w & Hw & Hr & ->). apply list_elem_of_fmap_2, in_filter; [done|]. lia.
Qed.

(** * Examples *)

#[local] Existing Instances limited_list nmap_gmap ring_mod map_range_default set_list binary_collation disk_set db_log.
Definition two_graphs : gmap string string := {["g0" := "10.0.0.1:6070"; "g1" := "10.0.0.2:6070"]}.
Definition two_graphs_cfg : TransferCfg.GlobalConfig := TransferCfg.mkGlobalConfig 30
  (mkJudgeConfig true 200 1000 5000 32 32 500 ∅ ∅) (TransferCfg.mkGraphConfig true 200 1000 5000 32 32 500 two_graphs ∅)
  (mkTsdbConfig false 200 1000 5000 32 32 3 "") (mkTransferConfig false 200 1000 5000 32 32 3 ∅)
  (mkInfluxdbConfig false 200 3 32 5000 "" "" "" "" "") (mkP8sRelayConfig false 200 1000 5000 32 32 500 [] ∅ ∅).
Definition api_graphs : GraphCluster := graph_Start 500 32 32 1000 5000 two_graphs.
Definition eth0_item : GraphItem := mkGraphItem "web1" "net.in" {["iface" := "eth0"]} f64_zero 0 "COUNTER" 60 120 "U" "U".
(** The third counter is that of a metric with a slash. *)
Definition index_tables : IndexTables := mkIndexTables [mkEndpoint 1 "web1" 100; mkEndpoint 2 "db1" 100]
  [mkEndpointCounter 7 1 "net.in/iface=eth0" 60 "COUNTER" 100; mkEndpointCounter 8 1 "cpu.idle" 60 "GAUGE" 100; mkEndpointCounter 9 1 "disk/read" 60 "GAUGE" 100]
  [mkTagEndpoint 1 "iface=eth0" 1 100; mkTagEndpoint 2 "rack=1" 2 100].
Definition all_reply : string -> string -> outcome unit := fun _ _ => CallReply tt.

Lemma delete_reaches_series_witness :
  exists ps p, ("10.0.0.1:6070" : string, ps) ∈ snd (snd (DeleteGraphCounter api_graphs (inl (["web1"], ["net.in/iface=eth0"])) all_reply (fun _ => None) index_tables))
    /\ p ∈ ps /\ forall st : GraphState (gset string) (list index_stmt), Graph_Delete_one sample_graph_config st p = RemoveItem sample_graph_config eth0_item st.
Proof.
  apply (delete_reaches_series two_graphs_cfg sample_graph_config 32 32 1000 5000 two_graphs ["web1"] ["net.in/iface=eth0"] all_reply (fun _ => None) index_tables
           eth0_item (mkEndpoint 1 "web1" 100) (mkEndpointCounter 7 1 "net.in/iface=eth0" 60 "COUNTER" 100) "g0" "10.0.0.1:6070"); try (vm_compute; reflexivity).
  - apply (bool_decide_unpack _). vm_compute. exact I.
  - repeat split; try (vm_compute; reflexivity); apply (list_elem_of_lookup_2 _ 0); reflexivity.
  - left.
  - vm_compute. left.
  - by left.
Defined.

(** The data of a metric with a slash stay, the row of the index goes. *)
Example slash_metric_kept :
  let '(_, db, (_, sent)) := DeleteGraphCounter api_graphs (inl (["web1"], ["disk/read"])) all_reply (fun _ => None) index_tables in
  sent = [] /\ map EC_ID (endpoint_counters db) = [7; 8].
Proof. vm_compute. done. Qed.
(** The tags of an endpoint without counters stay. *)
Example tags_orphaned :
  let '(_, db, _) := DeleteGraphEndpoint api_graphs (inl ["db1"]) all_reply (fun _ => None) index_tables in
  map Endpoint_ID (endpoints db) = [1] /\ map TE_EndpointID (tag_endpoints db) = [1; 2].
Proof. vm_compute. done. Qed.
(** A label that no counter has is no condition when there is a query as well. *)
Example label_ignored :
  @EndpointRegexpQuery binary_collation (fun _ _ => false) (inl ("web", "iface=eth9", 500, 1)) (fun _ => None) index_tables = inl [(1, "web1"); (2, "db1")]
  /\ @EndpointRegexpQuery binary_collation (fun _ _ => false) (inl ("", "iface=eth9", 500, 1)) (fun _ => None) index_tables = inl [].
Proof. vm_compute. done. Qed.
(** A first number that is none leaves an empty one. *)
Example first_eid_empty : ConverIntStringToList "x,5" = ",5".
Proof. vm_compute. done. Qed.
