(* ===== verification/ApiTable.v ===== *)
(** modules/api, the tables of its databases that give their rows numbers: the statements the
    handlers send to them, and what keeps them well formed. *)
From Stdlib Require Import ZArith.
From stdpp Require Import base list strings numbers.
From S2P Require Import Prelude ApiUic.

Local Open Scope Z_scope.

(** A table and the last number it gave out. *)
Record table (A : Type) := mkTable { rows : list A; seq : Z }.
Arguments mkTable {A}.
Arguments rows {A}.
Arguments seq {A}.
Definition set_rows {A : Type} (l : list A) (t : table A) : table A := mkTable l (seq t).
Definition insert_row {A : Type} (make : Z -> A) (t : table A) : table A := mkTable (rows t ++ [make (seq t + 1)]) (seq t + 1).
Definition delete_where {A : Type} (P : A -> bool) (t : table A) : table A := set_rows (delete_rows P (rows t)) t.
Definition update_where {A : Type} (P : A -> bool) (f : A -> A) (t : table A) : table A := set_rows (update_rows P f (rows t)) t.
Definition select {A : Type} (P : A -> bool) (t : table A) : list A := List.filter P (rows t).
Definition find {A : Type} (P : A -> bool) (t : table A) : option A := find_row P (rows t).
Definition no_rows {A : Type} : table A := mkTable [] 0.

(** Its numbers were given out once each. *)
Definition table_ok {A : Type} (key : A -> Z) (t : table A) : Prop := 0 <= seq t /\ keyed key (seq t) (rows t).
Lemma insert_ok {A : Type} (key : A -> Z) make t : (forall id, key (make id) = id) -> table_ok key t -> table_ok key (insert_row make t).
Proof. intros Hm [Hs Hk]. split; cbn; [lia|]. by apply keyed_app. Qed.
Lemma delete_ok {A : Type} (key : A -> Z) P t : table_ok key t -> table_ok key (delete_where P t).
Proof. intros [Hs Hk]. split; [done|]. eapply keyed_sublist; [apply delete_rows_sublist|done]. Qed.
Lemma update_ok {A : Type} (key : A -> Z) P f t : (forall x, key (f x) = key x) -> table_ok key t -> table_ok key (update_where P f t).
Proof. intros Hf [Hs Hk]. split; [done|]. by apply keyed_update. Qed.
Lemma empty_table_ok {A : Type} (key : A -> Z) : table_ok key no_rows.
Proof. split; [done|]. split; [constructor|]. intros x Hx. by apply not_elem_of_nil in Hx. Qed.

(** No two rows have names that compare equal. *)
Definition names_ok `{Collation} {A : Type} (name : A -> string) (l : list A) : Prop :=
  forall x y, x ∈ l -> y ∈ l -> same_text (name x) (name y) = true -> x = y.
Section Names.
Context `{Collation} {A : Type} (key : A -> Z) (name : A -> string).
Lemma names_insert make (t : table A) s : (forall id, name (make id) = s) -> existsb (fun x => same_text (name x) s) (rows t) = false ->
  names_ok name (rows t) -> names_ok name (rows (insert_row make t)).
Proof.
  intros Hm Hno Hn x y. cbn. rewrite !elem_of_app, !list_elem_of_singleton. intros [Hx| ->] [Hy| ->] Hs; [by apply Hn| | |done].
  - rewrite Hm in Hs. by rewrite (existsb_none _ _ Hno x Hx) in Hs.
  - rewrite Hm, same_text_sym in Hs. by rewrite (existsb_none _ _ Hno y Hy) in Hs.
Qed.
Lemma names_delete P (t : table A) : names_ok name (rows t) -> names_ok name (rows (delete_where P t)).
Proof. intros Hn x y [Hx _]%elem_of_delete_rows [Hy _]%elem_of_delete_rows. by apply Hn. Qed.
Lemma names_same P f (t : table A) : (forall x, name (f x) = name x) -> table_ok key (update_where P f t) -> (forall x, key (f x) = key x) ->
  names_ok name (rows t) -> names_ok name (rows (update_where P f t)).
Proof.
  intros Hf [_ Hk] Hkey Hn x y Hx Hy Hs. apply (keyed_inj _ _ _ _ _ Hk Hx Hy).
  apply list_elem_of_fmap in Hx as (a & -> & Ha), Hy as (b & -> & Hb).
  assert (Hsame : forall z, key (if P z then f z else z) = key z /\ name (if P z then f z else z) = name z) by (intros z; destruct (P z); auto).
  destruct (Hsame a) as [-> Ea], (Hsame b) as [-> Eb]. rewrite Ea, Eb in Hs. by rewrite (Hn a b).
Qed.
(** The row with a number takes a name that no other has. *)
Lemma names_rename id f s (t : table A) : (forall x, name (f x) = s) -> (forall x, key (f x) = key x) ->
  existsb (fun x => negb (key x =? id) && same_text (name x) s) (rows t) = false -> table_ok key t ->
  names_ok name (rows t) -> names_ok name (rows (update_where (fun x => key x =? id) f t)).
Proof.
  intros Hf Hkey Hno Hok Hn x y Hx Hy Hs. destruct (update_ok key (fun x => key x =? id) f t Hkey Hok) as [_ Hk].
  apply (keyed_inj _ _ _ _ _ Hk Hx Hy). apply list_elem_of_fmap in Hx as (a & -> & Ha), Hy as (b & -> & Hb).
  assert (Hother : forall z, z ∈ rows t -> (key z =? id) = false -> same_text (name z) s = false).
  { intros z Hz Hzid. pose proof (existsb_none _ _ Hno z Hz) as Hx. cbn in Hx. by rewrite Hzid in Hx. }
  destruct (key a =? id) eqn:Ea, (key b =? id) eqn:Eb.
  - rewrite !Hkey. lia.
  - rewrite Hf, same_text_sym, (Hother b) in Hs; done.
  - rewrite Hf, (Hother a) in Hs; done.
  - by rewrite (Hn a b).
Qed.
End Names.

Create HintDb portal.
#[export] Hint Resolve insert_ok delete_ok update_ok empty_table_ok names_delete : portal.
