(* ===== verification/ApiPortal.v ===== *)
(** modules/api, the portal: host groups, hosts, plugins, aggregators and maintenance
    (controller/host), templates and actions (controller/template), strategies, expressions
    and nodata settings. The database is its tables; a transaction works on a copy that its
    commit puts in place; every statement can fail. A refusal carries its status and its error,
    without the words some handlers put around the text of an error of the database; the
    text of a success is left out. *)
From Stdlib Require Import Ascii ZArith.
From stdpp Require Import base list gmap strings numbers.
From S2P Require Import Prelude GoString GoFloat GoRegexp ApiUic ApiTable.

Local Open Scope Z_scope.

(** * model/falcon_portal *)

Record Host := mkHost { Host_ID : Z; Hostname : string; Ip : string; AgentVersion : string; PluginVersion : string; MaintainBegin : Z; MaintainEnd : Z }.
Record HostGroup := mkHostGroup { HostGroup_ID : Z; HostGroup_Name : string; HostGroup_CreateUser : string; ComeFrom : Z }.
Record GrpHost := mkGrpHost { GrpHost_GrpID : Z; GrpHost_HostID : Z }.
Record GrpTpl := mkGrpTpl { GrpTpl_GrpID : Z; GrpTpl_TplID : Z; BindUser : string }.
Record PluginDir := mkPluginDir { Plugin_ID : Z; Plugin_GrpId : Z; Dir : string; Plugin_CreateUser : string }.
Record Cluster := mkCluster {
  Cluster_ID : Z; Cluster_GrpId : Z; Numerator : string; Denominator : string; Cluster_Endpoint : string; Cluster_Metric : string; Cluster_Tags : string;
  Cluster_DsType : string; Cluster_Step : Z; Cluster_Creator : string }.
Record Template := mkTemplate { Template_ID : Z; Template_Name : string; ParentID : Z; ActionID : Z; Template_CreateUser : string }.
Record Strategy := mkStrategy {
  Strategy_ID : Z; Strategy_Metric : string; Strategy_Tags : string; Strategy_MaxStep : Z; Strategy_Priority : Z; Strategy_Func : string; Strategy_Op : string;
  Strategy_RightValue : string; Strategy_Note : string; RunBegin : string; RunEnd : string; Strategy_TplId : Z }.
Record Action := mkAction {
  Action_ID : Z; UIC : string; URL : string; Callback : Z; BeforeCallbackSMS : Z; BeforeCallbackMail : Z; AfterCallbackSMS : Z; AfterCallbackMail : Z }.
Record Expression := mkExpression {
  Expression_ID : Z; Expression_Expression : string; Expression_Func : string; Expression_Op : string; Expression_RightValue : string; Expression_MaxStep : Z;
  Expression_Priority : Z; Expression_Note : string; Expression_ActionId : Z; Expression_CreateUser : string; Pause : Z }.
Record Mockcfg := mkMockcfg {
  Mockcfg_ID : Z; Mockcfg_Name : string; Obj : string; ObjType : string; Mockcfg_Metric : string; Mockcfg_Tags : string; Mockcfg_DsType : string;
  Mockcfg_Step : Z; Mock : f64; Mockcfg_Creator : string; TCreate : Z }.

Record PortalDb := mkPortalDb {
  hosts : table Host; grps : table HostGroup; grp_hosts : list GrpHost; grp_tpls : list GrpTpl; plugins : table PluginDir; clusters : table Cluster;
  tpls : table Template; strategies : table Strategy; actions : table Action; expressions : table Expression; mockcfgs : table Mockcfg }.
Definition set_hosts x db := mkPortalDb x (grps db) (grp_hosts db) (grp_tpls db) (plugins db) (clusters db) (tpls db) (strategies db) (actions db) (expressions db) (mockcfgs db).
Definition set_grps x db := mkPortalDb (hosts db) x (grp_hosts db) (grp_tpls db) (plugins db) (clusters db) (tpls db) (strategies db) (actions db) (expressions db) (mockcfgs db).
Definition set_grp_hosts x db := mkPortalDb (hosts db) (grps db) x (grp_tpls db) (plugins db) (clusters db) (tpls db) (strategies db) (actions db) (expressions db) (mockcfgs db).
Definition set_grp_tpls x db := mkPortalDb (hosts db) (grps db) (grp_hosts db) x (plugins db) (clusters db) (tpls db) (strategies db) (actions db) (expressions db) (mockcfgs db).
Definition set_plugins x db := mkPortalDb (hosts db) (grps db) (grp_hosts db) (grp_tpls db) x (clusters db) (tpls db) (strategies db) (actions db) (expressions db) (mockcfgs db).
Definition set_clusters x db := mkPortalDb (hosts db) (grps db) (grp_hosts db) (grp_tpls db) (plugins db) x (tpls db) (strategies db) (actions db) (expressions db) (mockcfgs db).
Definition set_tpls x db := mkPortalDb (hosts db) (grps db) (grp_hosts db) (grp_tpls db) (plugins db) (clusters db) x (strategies db) (actions db) (expressions db) (mockcfgs db).
Definition set_strategies x db := mkPortalDb (hosts db) (grps db) (grp_hosts db) (grp_tpls db) (plugins db) (clusters db) (tpls db) x (actions db) (expressions db) (mockcfgs db).
Definition set_actions x db := mkPortalDb (hosts db) (grps db) (grp_hosts db) (grp_tpls db) (plugins db) (clusters db) (tpls db) (strategies db) x (expressions db) (mockcfgs db).
Definition set_expressions x db := mkPortalDb (hosts db) (grps db) (grp_hosts db) (grp_tpls db) (plugins db) (clusters db) (tpls db) (strategies db) (actions db) x (mockcfgs db).
Definition set_mockcfgs x db := mkPortalDb (hosts db) (grps db) (grp_hosts db) (grp_tpls db) (plugins db) (clusters db) (tpls db) (strategies db) (actions db) (expressions db) x.

(** A handler answers, or refuses with a status and a text, and leaves the tables. *)
Definition handled (A : Type) : Type := (A + (Z * string)) * PortalDb.
Definition expecstatus : Z := 417.
Definition duplicate : string := "Error 1062: Duplicate entry".
Definition no_permission : string := "You don't have permission!".

Definition named_only (name : string) : User := mkUser 0 name "" "" "" "" "" "" 0.
(** The user a handler that ignores the error of [GetUser] works with. *)
Definition user_or_name `{Collation} (tok : token) (err : option string) (db : UicDb) : User :=
  match GetUser tok err db with
  | inl u => u
  | inr _ => match GetSession tok with
             | inl (name, _) => named_only name
             | inr _ => no_user
             end
  end.

(** Go's [regexp.MatchString]; [None] for an expression that does not compile. *)
Class GoRegexps := go_MatchString : string -> string -> option bool.

Section Portal.
Context `{Collation, GoRegexps} (cfg : UicConfig).
Implicit Types (db : PortalDb) (flt : faults) (user : User).

(** * controller/host: host groups *)

Definition grp_is (id : Z) (g : HostGroup) : bool := HostGroup_ID g =? id.
Definition of_grp (id : Z) (x : GrpHost) : bool := GrpHost_GrpID x =? id.
(** The names of groups are unique. *)
Definition grp_taken (name : string) db : bool := existsb (fun g => same_text (HostGroup_Name g) name) (rows (grps db)).

Definition GetHostGroups (pageTmp limitTmp q : string) flt db : handled (list HostGroup) :=
  match PageParser pageTmp limitTmp, flt 0%nat with
  | inr err, _ => (inr (badstatus, err), db)
  | inl _, Some err => (inr (expecstatus, err), db)
  | inl page, None => (inl (page_rows page (select (fun g => db_regexp (HostGroup_Name g) q) (grps db))), db)
  end.

Definition CreateHostGroup (input : string + string) user flt db : handled unit :=
  match input, flt 0%nat with
  | inr err, _ => (inr (badstatus, err), db)
  | inl _, Some err => (inr (expecstatus, err), db)
  | inl name, None =>
      if grp_taken name db then (inr (expecstatus, duplicate), db)
      else (inl tt, set_grps (insert_row (fun id => mkHostGroup id name (User_Name user) 1) (grps db)) db)
  end.

(** [Host.Existing]: on the committed tables, an error is no host. *)
Definition Host_Existing (name : string) (err : option string) db : option Z :=
  Host_ID <$> read err (find (fun h => same_text (Hostname h) name) (hosts db)).
(** Saving a host with a name: refused when the name is taken. *)
Definition save_host (name : string) (tx : PortalDb) : option (Z * PortalDb) :=
  if existsb (fun h => same_text (Hostname h) name) (rows (hosts tx)) then None
  else Some (seq (hosts tx) + 1, set_hosts (insert_row (fun id => mkHost id name "" "" "" 0 0) (hosts tx)) tx).
Definition bind_host (grp id : Z) (tx : PortalDb) : PortalDb := set_grp_hosts (grp_hosts tx ++ [mkGrpHost grp id]) tx.

(** The number of a host, saved when it is new. *)
Definition host_id (host : string) flt db (tx : PortalDb) : (Z * PortalDb) + string :=
  match Host_Existing host (flt 0%nat) db with
  | Some id => inl (id, tx)
  | None =>
      match flt 1%nat, save_host host tx with
      | Some err, _ => inr err
      | None, None => inr duplicate
      | None, Some (id, tx) => inl (id, tx)
      end
  end.

(** Each host of the list on the transaction [tx], while [db] is what is committed. *)
Fixpoint bind_loop (grp : Z) (names : list string) flt db (tx : PortalDb) : PortalDb + string :=
  match names with
  | [] => inl tx
  | host :: names =>
      match host_id host flt db tx, flt 2%nat with
      | inr err, _ | inl _, Some err => inr err
      | inl (id, tx), None => bind_loop grp names (shift 3 flt) db (bind_host grp id tx)
      end
  end.

(** The group is looked up before the transaction begins, and nothing holds it until then. *)
Definition bind_lookup (gid : Z) user (err : option string) db : HostGroup + (Z * string) :=
  match fetch err (find (grp_is gid) (grps db)) with
  | inr err => inr (expecstatus, err)
  | inl g => if negb (IsAdmin cfg user) && negb (bool_decide (HostGroup_CreateUser g = User_Name user)) then inr (expecstatus, "You don't have permission.") else inl g
  end.
Definition bind_transaction (g : HostGroup) (names : list string) flt db : handled unit :=
  match flt 0%nat with
  | Some err => (inr (expecstatus, err), db)
  | None =>
      match bind_loop (HostGroup_ID g) names (shift 2 flt) db (set_grp_hosts (delete_rows (of_grp (HostGroup_ID g)) (grp_hosts db)) db) with
      | inr err => (inr (expecstatus, err), db)
      | inl tx => (inl tt, match flt 1%nat with Some _ => db | None => tx end)
      end
  end.
Definition BindHostToHostGroup (input : (list string * Z) + string) user flt db : handled unit :=
  match input with
  | inr err => (inr (badstatus, err), db)
  | inl (names, gid) =>
      match bind_lookup gid user (flt 0%nat) db with
      | inr r => (inr r, db)
      | inl g => bind_transaction g names (shift 1 flt) db
      end
  end.

(** A group by its number, unless the user is an administrator: then none is looked up. *)
Definition may_change (user : User) (gid : Z) (also : option string) (err : option string) (st : Z) db : unit + (Z * string) :=
  if IsAdmin cfg user then inl tt
  else match fetch err (find (grp_is gid) (grps db)) with
       | inr e => inr (st, e)
       | inl g => if bool_decide (HostGroup_CreateUser g = User_Name user) || bool_decide (also = Some (User_Name user)) then inl tt
                  else inr (badstatus, no_permission)
       end.

Definition UnBindAHostToHostGroup (input : (Z * Z) + string) user flt db : handled unit :=
  match input with
  | inr err => (inr (badstatus, err), db)
  | inl (hid, gid) =>
      match may_change user gid None (flt 0%nat) badstatus db, flt 1%nat with
      | inr r, _ => (inr r, db)
      | inl _, Some err => (inr (expecstatus, err), db)
      | inl _, None => (inl tt, set_grp_hosts (delete_rows (fun x => of_grp gid x && (GrpHost_HostID x =? hid)) (grp_hosts db)) db)
      end
  end.

Definition DeleteHostGroup (grpIDtmp : string) user flt db : handled unit :=
  match path_id grpIDtmp "grp id is missing" with
  | inr err => (inr (badstatus, err), db)
  | inl gid =>
      match may_change user gid None (flt 0%nat) badstatus db with
      | inr r => (inr r, db)
      | inl _ =>
          match flt 1%nat, flt 2%nat, flt 3%nat, flt 4%nat with
          | None, None, None, None =>
              let tx := set_grp_hosts (delete_rows (of_grp gid) (grp_hosts db)) db in
              let tx := set_plugins (delete_where (fun p => Plugin_GrpId p =? gid) (plugins tx)) tx in
              let tx := set_clusters (delete_where (fun c => Cluster_GrpId c =? gid) (clusters tx)) tx in
              let tx := set_grps (delete_where (grp_is gid) (grps tx)) tx in
              (inl tt, match flt 5%nat with Some _ => db | None => tx end)
          | Some err, _, _, _ | None, Some err, _, _ | None, None, Some err, _ | None, None, None, Some err => (inr (expecstatus, err), db)
          end
      end
  end.

(** The hosts of a group whose row is found and whose name matches. *)
Fixpoint group_hosts (ids : list Z) (keep : string -> bool) flt db : list Host :=
  match ids with
  | [] => []
  | id :: ids =>
      let rest := group_hosts ids keep (shift 1 flt) db in
      match read (flt 0%nat) (find (fun h => Host_ID h =? id) (hosts db)) with
      | Some h => if keep (Hostname h) then h :: rest else rest
      | None => rest
      end
  end.
Definition group_host_ids (gid : Z) db : list Z := map GrpHost_HostID (List.filter (of_grp gid) (grp_hosts db)).

Definition GetHostGroup (grpIDtmp q : string) flt db : handled (HostGroup * list Host) :=
  match path_id grpIDtmp "grp id is missing" with
  | inr err => (inr (badstatus, err), db)
  | inl gid =>
      match fetch (flt 0%nat) (find (grp_is gid) (grps db)), flt 1%nat with
      | inr err, _ | inl _, Some err => (inr (expecstatus, err), db)
      | inl g, None => (inl (g, group_hosts (group_host_ids gid db) (fun name => bool_decide (go_MatchString q name = Some true)) (shift 2 flt) db), db)
      end
  end.
(** All hosts of the group; 0 is no condition on the group. *)
Definition GetHostGroupWithTemplate (grpIDtmp : string) flt db : handled (HostGroup * list Host) :=
  match path_id grpIDtmp "grp id is missing" with
  | inr err => (inr (badstatus, err), db)
  | inl gid =>
      match fetch (flt 0%nat) (find (fun g => (gid =? 0) || grp_is gid g) (grps db)), flt 1%nat with
      | inr err, _ | inl _, Some err => (inr (expecstatus, err), db)
      | inl g, None => (inl (g, group_hosts (group_host_ids gid db) (fun _ => true) (shift 2 flt) db), db)
      end
  end.

Definition PutHostGroup (input : (Z * string) + string) flt db : handled unit :=
  match input with
  | inr err => (inr (badstatus, err), db)
  | inl (gid, name) =>
      if HasDangerousCharacters name then (inr (badstatus, "grp_name is invalid"), db)
      else match fetch (flt 0%nat) (find (grp_is gid) (grps db)), flt 1%nat with
           | inr err, _ => (inr (expecstatus, err), db)
           | inl _, Some err => (inr (badstatus, err), db)
           | inl g, None =>
               if existsb (fun x => negb (grp_is gid x) && same_text (HostGroup_Name x) name) (rows (grps db)) then (inr (badstatus, duplicate), db)
               else (inl tt, set_grps (update_where (grp_is gid) (fun x => mkHostGroup (HostGroup_ID x) name (HostGroup_CreateUser g) (ComeFrom g)) (grps db)) db)
           end
  end.

(** The binding of a template; an existing one is known by its user. *)
Definition tpl_binding (gid tid : Z) (x : GrpTpl) : bool := (GrpTpl_GrpID x =? gid) && (GrpTpl_TplID x =? tid).
Definition BindTemplateToGroup (input : (Z * Z) + string) user flt db : handled unit :=
  match input with
  | inr err => (inr (badstatus, err), db)
  | inl (tid, gid) =>
      let bound := default (mkGrpTpl gid tid "") (read (flt 0%nat) (find_row (tpl_binding gid tid) (grp_tpls db))) in
      if negb (bool_decide (BindUser bound = "")) then (inr (badstatus, "this binding already existing, reject!"), db)
      else match flt 1%nat with
           | Some err => (inr (badstatus, err), db)
           | None => (inl tt, set_grp_tpls (grp_tpls db ++ [mkGrpTpl gid tid (User_Name user)]) db)
           end
  end.
Definition UnBindTemplateToGroup (input : (Z * Z) + string) user flt db : handled unit :=
  match input with
  | inr err => (inr (badstatus, err), db)
  | inl (tid, gid) =>
      let bound := default (mkGrpTpl gid tid "") (read (flt 0%nat) (find_row (tpl_binding gid tid) (grp_tpls db))) in
      if negb (IsAdmin cfg user) && negb (bool_decide (BindUser bound = User_Name user)) then (inr (badstatus, "You don't have permission can do this."), db)
      else match flt 1%nat with
           | Some err => (inr (badstatus, err), db)
           | None => (inl tt, set_grp_tpls (delete_rows (tpl_binding gid tid) (grp_tpls db)) db)
           end
  end.
(** The errors of the second and third query are not looked at. *)
Definition GetTemplateOfHostGroup (grpIDtmp : string) flt db : handled (HostGroup * list Template) :=
  match path_id grpIDtmp "grp id is missing" with
  | inr err => (inr (badstatus, err), db)
  | inl gid =>
      match fetch (flt 0%nat) (find (grp_is gid) (grps db)) with
      | inr err => (inr (expecstatus, err), db)
      | inl g =>
          let tids := match flt 1%nat with Some _ => [] | None => map GrpTpl_TplID (List.filter (fun x => GrpTpl_GrpID x =? gid) (grp_tpls db)) end in
          (inl (g, match flt 2%nat with Some _ => [] | None => select (fun t => bool_decide (Template_ID t ∈ tids)) (tpls db) end), db)
      end
  end.

(** [GrpHost.Existing], on the committed tables. *)
Definition GrpHost_Existing (gid hid : Z) (err : option string) db : bool :=
  match read err (find_row (fun x => of_grp gid x && (GrpHost_HostID x =? hid)) (grp_hosts db)) with
  | Some x => negb (GrpHost_GrpID x =? 0)
  | None => false
  end.
Fixpoint add_loop (grp : Z) (names : list string) flt db (tx : PortalDb) : PortalDb + string :=
  match names with
  | [] => inl tx
  | host :: names =>
      match host_id host flt db tx with
      | inr err => inr err
      | inl (id, tx) =>
          if GrpHost_Existing grp id (flt 2%nat) db then add_loop grp names (shift 4 flt) db tx
          else match flt 3%nat with
               | Some err => inr err
               | None => add_loop grp names (shift 4 flt) db (bind_host grp id tx)
               end
      end
  end.
(** The rows are deleted outside the transaction. *)
Fixpoint remove_loop (grp : Z) (names : list string) flt db : PortalDb * option string :=
  match names with
  | [] => (db, None)
  | host :: names =>
      match Host_Existing host (flt 0%nat) db with
      | None => remove_loop grp names (shift 2 flt) db
      | Some id =>
          match flt 1%nat with
          | Some err => (db, Some err)
          | None => remove_loop grp names (shift 2 flt) (set_grp_hosts (delete_rows (fun x => of_grp grp x && (GrpHost_HostID x =? id)) (grp_hosts db)) db)
          end
      end
  end.
Definition bindHostToHostGroup (g : HostGroup) (names : list string) flt db : handled unit :=
  match add_loop (HostGroup_ID g) names (shift 1 flt) db db with
  | inr err => (inr (expecstatus, err), db)
  | inl tx => (inl tt, match flt 0%nat with Some _ => db | None => tx end)
  end.
Definition unbindHostToHostGroup (g : HostGroup) (names : list string) flt db : handled unit :=
  match remove_loop (HostGroup_ID g) names flt db with
  | (db, Some err) => (inr (expecstatus, err), db)
  | (db, None) => (inl tt, db)
  end.
Definition PatchHostGroupHost (input : (string * list string) + string) (grpIDParams : string) user flt db : handled unit :=
  match input with
  | inr err => (inr (badstatus, err), db)
  | inl (action, names) =>
      match path_id grpIDParams "grp id is missing" with
      | inr err => (inr (badstatus, err), db)
      | inl gid =>
          if negb (bool_decide (action = "add")) && negb (bool_decide (action = "remove")) then (inr (badstatus, "action must be add or remove"), db)
          else match fetch (flt 0%nat) (find (grp_is gid) (grps db)) with
               | inr err => (inr (expecstatus, err), db)
               | inl g =>
                   if negb (IsAdmin cfg user) && negb (bool_decide (HostGroup_CreateUser g = User_Name user)) then (inr (expecstatus, "You don't have permission."), db)
                   else if bool_decide (action = "add") then bindHostToHostGroup g names (shift 1 flt) db
                   else unbindHostToHostGroup g names (shift 1 flt) db
               end
      end
  end.

(** * controller/host: hosts and maintenance *)

Definition RelatedGrp (hid : Z) flt db : list HostGroup :=
  let gids := match flt 0%nat with Some _ => [] | None => map GrpHost_GrpID (List.filter (fun x => GrpHost_HostID x =? hid) (grp_hosts db)) end in
  match flt 1%nat with Some _ => [] | None => select (fun g => bool_decide (HostGroup_ID g ∈ gids)) (grps db) end.
Definition RelatedTpl (hid : Z) flt db : list Template :=
  let gids := map HostGroup_ID (RelatedGrp hid flt db) in
  let tids := match flt 2%nat with Some _ => [] | None => map GrpTpl_TplID (List.filter (fun x => bool_decide (GrpTpl_GrpID x ∈ gids)) (grp_tpls db)) end in
  match flt 3%nat with Some _ => [] | None => select (fun t => bool_decide (Template_ID t ∈ tids)) (tpls db) end.
Definition of_host {A : Type} (hostIDtmp : string) (f : Z -> faults -> PortalDb -> list A) flt db : handled (list A) :=
  match path_id hostIDtmp "host id is missing" with
  | inr err => (inr (badstatus, err), db)
  | inl hid =>
      match fetch (flt 0%nat) (find (fun h => Host_ID h =? hid) (hosts db)) with
      | inr err => (inr (expecstatus, err), db)
      | inl h => (inl (f (Host_ID h) (shift 1 flt) db), db)
      end
  end.
Definition GetGrpsRelatedHost (hostIDtmp : string) flt db : handled (list HostGroup) := of_host hostIDtmp RelatedGrp flt db.
Definition GetTplsRelatedHost (hostIDtmp : string) flt db : handled (list Template) := of_host hostIDtmp RelatedTpl flt db.
Definition GetHostBindToWhichHostGroup (hostIdTmp : string) flt db : handled (list HostGroup) :=
  match path_id hostIdTmp "host id is missing" with
  | inr err => (inr (badstatus, err), db)
  | inl hid => (inl (RelatedGrp hid flt db), db)
  end.

Definition with_maintain (b e : Z) (h : Host) : Host := mkHost (Host_ID h) (Hostname h) (Ip h) (AgentVersion h) (PluginVersion h) b e.
Definition maintain (names : list string) (ids : list Z) (b e : Z) flt db : handled unit :=
  match names, ids with
  | [], [] => (inr (badstatus, "hosts or ids is required"), db)
  | _, _ =>
      let P := match names with
               | [] => fun h => bool_decide (Host_ID h ∈ ids)
               | _ => fun h => existsb (same_text (Hostname h)) names
               end in
      match flt 0%nat with
      | Some err => (inr (badstatus, err), db)
      | None => (inl tt, set_hosts (update_where P (with_maintain b e) (hosts db)) db)
      end
  end.
Definition SetMaintain (input : (list string * list Z * Z * Z) + string) flt db : handled unit :=
  match input with
  | inr err => (inr (badstatus, err), db)
  | inl (names, ids, b, e) => maintain names ids b e flt db
  end.
Definition UnsetMaintain (input : (list string * list Z) + string) flt db : handled unit :=
  match input with
  | inr err => (inr (badstatus, err), db)
  | inl (names, ids) => maintain names ids 0 0 flt db
  end.

(** * controller/host: plugins and aggregators *)

Definition CreatePlugin (input : (Z * string) + string) user flt db : handled unit :=
  match input with
  | inr err => (inr (badstatus, err), db)
  | inl (gid, dir) =>
      match may_change user gid None (flt 0%nat) expecstatus db, flt 1%nat with
      | inr r, _ => (inr r, db)
      | inl _, Some err => (inr (expecstatus, err), db)
      | inl _, None => (inl tt, set_plugins (insert_row (fun id => mkPluginDir id gid dir (User_Name user)) (plugins db)) db)
      end
  end.
Definition GetPluginOfGrp (grpIDtmp : string) flt db : handled (list PluginDir) :=
  match path_id grpIDtmp "grp id is missing", flt 0%nat with
  | inr err, _ => (inr (badstatus, err), db)
  | inl _, Some err => (inr (expecstatus, err), db)
  | inl gid, None => (inl (select (fun p => Plugin_GrpId p =? gid) (plugins db)), db)
  end.
Definition DeletePlugin (pluginIDtmp : string) user flt db : handled unit :=
  match path_id pluginIDtmp "plugin id is missing" with
  | inr err => (inr (badstatus, err), db)
  | inl pid =>
      match fetch (flt 0%nat) (find (fun p => Plugin_ID p =? pid) (plugins db)) with
      | inr err => (inr (expecstatus, err), db)
      | inl p =>
          match may_change user (Plugin_GrpId p) (Some (Plugin_CreateUser p)) (flt 1%nat) expecstatus db, flt 2%nat with
          | inr r, _ => (inr r, db)
          | inl _, Some err => (inr (expecstatus, err), db)
          | inl _, None => (inl tt, set_plugins (delete_where (fun p => Plugin_ID p =? pid) (plugins db)) db)
          end
      end
  end.

Record aggregator_input := mkAggregatorInput {
  agg_Numerator : string; agg_Denominator : string; agg_Endpoint : string; agg_Metric : string; agg_Tags : string; agg_Step : Z }.
Definition cluster_is (id : Z) (c : Cluster) : bool := Cluster_ID c =? id.
Definition HostGroupName (c : Cluster) (err : option string) db : string + string :=
  if Cluster_GrpId c =? 0 then inl ""
  else match fetch err (find (grp_is (Cluster_GrpId c)) (grps db)) with inl g => inl (HostGroup_Name g) | inr e => inr e end.
Definition GetAggregatorListOfGrp (pageTmp limitTmp grpIDtmp : string) flt db : handled (string * list Cluster) :=
  match PageParser pageTmp limitTmp, path_id grpIDtmp "grp id is missing" with
  | inr err, _ | inl _, inr err => (inr (badstatus, err), db)
  | inl page, inl gid =>
      match flt 0%nat with
      | Some err => (inr (expecstatus, err), db)
      | None =>
          match page_rows page (select (fun c => Cluster_GrpId c =? gid) (clusters db)) with
          | [] => (inl ("", []), db)
          | c :: l => match HostGroupName c (flt 1%nat) db with
                      | inr err => (inr (badstatus, err), db)
                      | inl name => (inl (name, c :: l), db)
                      end
          end
      end
  end.
Definition GetAggregator (aggIDtmp : string) flt db : handled Cluster :=
  match path_id aggIDtmp "agg id is missing" with
  | inr err => (inr (badstatus, err), db)
  | inl id => match fetch (flt 0%nat) (find (cluster_is id) (clusters db)) with
              | inr err => (inr (expecstatus, err), db)
              | inl c => (inl c, db)
              end
  end.
Definition CreateAggregator (input : (Z * aggregator_input) + string) user flt db : handled unit :=
  match input with
  | inr err => (inr (badstatus, err), db)
  | inl (gid, i) =>
      match may_change user gid None (flt 0%nat) expecstatus db, flt 1%nat with
      | inr r, _ => (inr r, db)
      | inl _, Some err => (inr (expecstatus, err), db)
      | inl _, None =>
          (inl tt, set_clusters (insert_row (fun id => mkCluster id gid (agg_Numerator i) (agg_Denominator i) (agg_Endpoint i) (agg_Metric i) (agg_Tags i)
                                               "GAUGE" (agg_Step i) (User_Name user)) (clusters db)) db)
      end
  end.
Definition with_aggregator (i : aggregator_input) (c : Cluster) : Cluster :=
  mkCluster (Cluster_ID c) (Cluster_GrpId c) (agg_Numerator i) (agg_Denominator i) (agg_Endpoint i) (agg_Metric i) (agg_Tags i)
    (Cluster_DsType c) (agg_Step i) (Cluster_Creator c).
Definition UpdateAggregator (input : (Z * aggregator_input) + string) user flt db : handled unit :=
  match input with
  | inr err => (inr (badstatus, err), db)
  | inl (id, i) =>
      match fetch (flt 0%nat) (find (cluster_is id) (clusters db)) with
      | inr err => (inr (expecstatus, err), db)
      | inl c =>
          match may_change user (Cluster_GrpId c) (Some (Cluster_Creator c)) (flt 1%nat) expecstatus db, flt 2%nat with
          | inr r, _ => (inr r, db)
          | inl _, Some err => (inr (expecstatus, err), db)
          | inl _, None =>
              (match flt 3%nat with Some err => inr (expecstatus, err) | None => inl tt end,
               set_clusters (update_where (cluster_is (Cluster_ID c)) (with_aggregator i) (clusters db)) db)
          end
      end
  end.
Definition DeleteAggregator (aggIDtmp : string) user flt db : handled unit :=
  match path_id aggIDtmp "agg id is missing" with
  | inr err => (inr (badstatus, err), db)
  | inl id =>
      match fetch (flt 0%nat) (find (cluster_is id) (clusters db)) with
      | inr err => (inr (expecstatus, err), db)
      | inl c =>
          match may_change user (Cluster_GrpId c) None (flt 1%nat) expecstatus db, flt 2%nat with
          | inr r, _ => (inr r, db)
          | inl _, Some err => (inr (expecstatus, err), db)
          | inl _, None => (inl tt, set_clusters (delete_where (cluster_is id) (clusters db)) db)
          end
      end
  end.

(** * controller/template *)

Definition tpl_is (id : Z) (t : Template) : bool := Template_ID t =? id.
Definition FindParentName (t : Template) (err : option string) db : string :=
  if ParentID t =? 0 then "" else match read err (find (tpl_is (ParentID t)) (tpls db)) with Some p => Template_Name p | None => "" end.
Fixpoint with_parents (l : list Template) flt db : list (Template * string) :=
  match l with
  | [] => []
  | t :: l => (t, FindParentName t (flt 0%nat) db) :: with_parents l (shift 1 flt) db
  end.
Definition GetTemplates (pageTmp limitTmp q : string) flt db : handled (list (Template * string)) :=
  match PageParser pageTmp limitTmp, flt 0%nat with
  | inr err, _ | inl _, Some err => (inr (badstatus, err), db)
  | inl page, None => (inl (with_parents (page_rows page (select (fun t => db_regexp (Template_Name t) q) (tpls db))) (shift 1 flt) db), db)
  end.
Definition GetTemplatesSimple (q : string) flt db : handled (list (Z * string)) :=
  match flt 0%nat with
  | Some err => (inr (badstatus, err), db)
  | None => (inl (map (fun t => (Template_ID t, Template_Name t)) (select (fun t => db_regexp (Template_Name t) q) (tpls db))), db)
  end.
Definition no_action : Action := mkAction 0 "" "" 0 0 0 0 0.
Definition action_is (id : Z) (a : Action) : bool := Action_ID a =? id.
Definition GetATemplate (tplidtmp : string) flt db : handled (Template * list Strategy * Action * string) :=
  match path_id tplidtmp "tpl_id is missing" with
  | inr err => (inr (badstatus, err), db)
  | inl id =>
      match fetch (flt 0%nat) (find (tpl_is id) (tpls db)), flt 1%nat with
      | inr err, _ | inl _, Some err => (inr (badstatus, err), db)
      | inl t, None =>
          match (if ActionID t =? 0 then inl no_action else fetch (flt 2%nat) (find (action_is (ActionID t)) (actions db))) with
          | inr err => (inr (badstatus, err), db)
          | inl a => (inl (t, select (fun s => Strategy_TplId s =? id) (strategies db), a, FindParentName t (flt 3%nat) db), db)
          end
      end
  end.
Definition tpl_taken (name : string) db : bool := existsb (fun t => same_text (Template_Name t) name) (rows (tpls db)).
Definition CreateTemplate (input : (string * Z * Z) + string) (user : User + string) flt db : handled unit :=
  match input, user with
  | inr err, _ | inl _, inr err => (inr (badstatus, err), db)
  | inl (name, parent, action), inl u =>
      if bool_decide (name = "") then (inr (badstatus, "input name is empty, please check it"), db)
      else match flt 0%nat with
           | Some err => (inr (badstatus, err), db)
           | None => if tpl_taken name db then (inr (badstatus, duplicate), db)
                     else (inl tt, set_tpls (insert_row (fun id => mkTemplate id name parent action (User_Name u)) (tpls db)) db)
           end
  end.
Definition UpdateTemplate (input : (string * Z * Z) + string) (user : User + string) flt db : handled unit :=
  match input, user with
  | inr err, _ | inl _, inr err => (inr (badstatus, err), db)
  | inl (name, parent, id), inl u =>
      match fetch (flt 0%nat) (find (tpl_is id) (tpls db)) with
      | inr err => (inr (badstatus, err), db)
      | inl t =>
          if negb (bool_decide (Template_CreateUser t = User_Name u)) && negb (IsAdmin cfg u) then (inr (badstatus, no_permission), db)
          else match flt 1%nat with
               | Some err => (inr (badstatus, err), db)
               | None =>
                   if existsb (fun x => negb (tpl_is id x) && same_text (Template_Name x) name) (rows (tpls db)) then (inr (badstatus, duplicate), db)
                   else (inl tt, set_tpls (update_where (tpl_is id) (fun x => mkTemplate (Template_ID x) name parent (ActionID x) (Template_CreateUser x)) (tpls db)) db)
               end
      end
  end.
(** Every user may. *)
Definition DeleteTemplate (tidTmp : string) flt db : handled unit :=
  match path_id tidTmp "tpl_id is missing" with
  | inr err => (inr (badstatus, err), db)
  | inl id =>
      match fetch (flt 0%nat) (find (tpl_is id) (tpls db)) with
      | inr err => (inr (badstatus, err), db)
      | inl t =>
          match flt 1%nat, (if ActionID t =? 0 then None else flt 2%nat), flt 3%nat, flt 4%nat with
          | None, None, None, None =>
              let tx := set_tpls (delete_where (tpl_is (Template_ID t)) (tpls db)) db in
              let tx := if ActionID t =? 0 then tx else set_actions (delete_where (action_is (ActionID t)) (actions tx)) tx in
              let tx := set_strategies (delete_where (fun s => Strategy_TplId s =? id) (strategies tx)) tx in
              let tx := set_grp_tpls (delete_rows (fun x => GrpTpl_TplID x =? id) (grp_tpls tx)) tx in
              (inl tt, match flt 5%nat with Some _ => db | None => tx end)
          | Some err, _, _, _ | None, Some err, _, _ | None, None, Some err, _ | None, None, None, Some err => (inr (badstatus, err), db)
          end
      end
  end.
Definition GetATemplateHostgroup (tplidtmp : string) flt db : handled (Template * list HostGroup) :=
  match path_id tplidtmp "tpl_id is missing" with
  | inr err => (inr (badstatus, err), db)
  | inl id =>
      match fetch (flt 0%nat) (find (tpl_is id) (tpls db)) with
      | inr err => (inr (badstatus, err), db)
      | inl t =>
          let gids := match flt 1%nat with Some _ => [] | None => map GrpTpl_GrpID (List.filter (fun x => GrpTpl_TplID x =? id) (grp_tpls db)) end in
          (inl (t, match flt 2%nat with Some _ => [] | None => select (fun g => bool_decide (HostGroup_ID g ∈ gids)) (grps db) end), db)
      end
  end.

Record action_input := mkActionInput {
  in_UIC : string; in_URL : string; in_Callback : Z; in_BeforeSMS : Z; in_BeforeMail : Z; in_AfterSMS : Z; in_AfterMail : Z }.
Definition make_action (i : action_input) (id : Z) : Action :=
  mkAction id (in_UIC i) (in_URL i) (in_Callback i) (in_BeforeSMS i) (in_BeforeMail i) (in_AfterSMS i) (in_AfterMail i).
(** Without the answer of the second statement the handler panics, in its transaction. *)
Definition CreateActionToTmplate (input : (action_input * Z) + string) flt db : handled unit :=
  match input with
  | inr err => (inr (badstatus, err), db)
  | inl (i, tid) =>
      match flt 0%nat, flt 1%nat with
      | Some err, _ => (inr (badstatus, err), db)
      | None, Some _ => (inr (500, "index out of range"), db)
      | None, None =>
          let aid := seq (actions db) + 1 in
          let tx := set_actions (insert_row (make_action i) (actions db)) db in
          match fetch (flt 2%nat) (find (tpl_is tid) (tpls tx)), flt 3%nat with
          | inr err, _ | inl _, Some err => (inr (badstatus, err), db)
          | inl t, None =>
              let tx := set_tpls (update_where (tpl_is (Template_ID t)) (fun x => mkTemplate (Template_ID x) (Template_Name x) (ParentID x) aid (Template_CreateUser x)) (tpls tx)) tx in
              (inl tt, match flt 4%nat with Some _ => db | None => tx end)
          end
      end
  end.
Definition UpdateActionToTmplate (input : (Z * action_input) + string) flt db : handled unit :=
  match input with
  | inr err => (inr (badstatus, err), db)
  | inl (id, i) =>
      match fetch (flt 0%nat) (find (action_is id) (actions db)), flt 1%nat with
      | inr err, _ | inl _, Some err => (inr (badstatus, err), db)
      | inl _, None =>
          (inl tt, match flt 2%nat with Some _ => db | None => set_actions (update_where (action_is id) (fun a => make_action i (Action_ID a)) (actions db)) db end)
      end
  end.
Definition GetActionByID (aid : string) flt db : handled Action :=
  match strconv_Atoi aid with
  | None => (inr (badstatus, "invalid action id"), db)
  | Some id => match fetch (flt 0%nat) (find (action_is id) (actions db)) with
               | inr err => (inr (badstatus, err), db)
               | inl a => (inl a, db)
               end
  end.

(** * controller/strategy *)

Definition digit : regexp := RSet is_digit.
(** [^(>|=|<|!)(=)?$], [^\-?\d+(\.\d+)?$] and [^\d{2}:\d{2}$] *)
Definition validOp : string -> bool := regexp_Match (RSeq (ROneOf ">=<!") (ROpt (RStr "="))).
Definition validRightValue : string -> bool :=
  regexp_Match (RSeq (ROpt (RStr "-")) (RSeq (RPlus digit) (ROpt (RSeq (RStr ".") (RPlus digit))))).
Definition validTime : string -> bool := regexp_Match (RSeq digit (RSeq digit (RSeq (RStr ":") (RSeq digit digit)))).

Record strategy_input := mkStrategyInput {
  st_Metric : string; st_Tags : string; st_MaxStep : Z; st_Priority : Z; st_Func : string; st_Op : string; st_RightValue : string; st_Note : string;
  st_RunBegin : string; st_RunEnd : string }.
(** [CheckFormat] of both inputs. *)
Definition strategy_CheckFormat (i : strategy_input) : option string :=
  if negb (validOp (st_Op i)) then Some "op's formating is not vaild"
  else if negb (validRightValue (st_RightValue i)) then Some "right_value's formating is not vaild"
  else if negb (validTime (st_RunBegin i)) && negb (bool_decide (st_RunBegin i = "")) then Some "run_begin's formating is not vaild, please refer ex. 00:00"
  else if negb (validTime (st_RunEnd i)) && negb (bool_decide (st_RunEnd i = "")) then Some "run_end's formating is not vaild, please refer ex. 24:00"
  else None.
Definition make_strategy (i : strategy_input) (tid id : Z) : Strategy :=
  mkStrategy id (st_Metric i) (st_Tags i) (st_MaxStep i) (st_Priority i) (st_Func i) (st_Op i) (st_RightValue i) (st_Note i) (st_RunBegin i) (st_RunEnd i) tid.
Definition strategy_is (id : Z) (s : Strategy) : bool := Strategy_ID s =? id.

Definition GetStrategys (tidtmp : string) flt db : handled (list Strategy) :=
  match path_id tidtmp "tid is missing", flt 0%nat with
  | inr err, _ | inl _, Some err => (inr (badstatus, err), db)
  | inl tid, None => (inl (select (fun s => Strategy_TplId s =? tid) (strategies db)), db)
  end.
Definition CreateStrategy (input : (strategy_input * Z) + string) flt db : handled unit :=
  match input with
  | inr err => (inr (badstatus, err), db)
  | inl (i, tid) =>
      match strategy_CheckFormat i, flt 0%nat with
      | Some err, _ => (inr (badstatus, err), db)
      | None, Some err => (inr (expecstatus, err), db)
      | None, None => (inl tt, set_strategies (insert_row (make_strategy i tid) (strategies db)) db)
      end
  end.
Definition GetStrategy (sidtmp : string) flt db : handled Strategy :=
  match path_id sidtmp "sid is missing" with
  | inr err => (inr (badstatus, err), db)
  | inl sid => match fetch (flt 0%nat) (find (strategy_is sid) (strategies db)) with
               | inr err => (inr (badstatus, err), db)
               | inl s => (inl s, db)
               end
  end.
Definition UpdateStrategy (input : (Z * strategy_input) + string) flt db : handled unit :=
  match input with
  | inr err => (inr (badstatus, err), db)
  | inl (id, i) =>
      match strategy_CheckFormat i with
      | Some err => (inr (badstatus, err), db)
      | None =>
          match fetch (flt 0%nat) (find (strategy_is id) (strategies db)), flt 1%nat with
          | inr err, _ | inl _, Some err => (inr (expecstatus, err), db)
          | inl s, None =>
              (inl tt, set_strategies (update_where (strategy_is (Strategy_ID s)) (fun x => make_strategy i (Strategy_TplId x) (Strategy_ID x)) (strategies db)) db)
          end
      end
  end.
Definition DeleteStrategy (sidtmp : string) flt db : handled unit :=
  match path_id sidtmp "sid is missing", flt 0%nat with
  | inr err, _ | inl _, Some err => (inr (badstatus, err), db)
  | inl sid, None => (inl tt, set_strategies (delete_where (strategy_is sid) (strategies db)) db)
  end.
(** The lines of the file of metrics, or the error of reading it. *)
Definition MetricQuery (file : string + string) : list string + (Z * string) :=
  match file with
  | inr err => inr (badstatus, err)
  | inl data => inl (strings_Split data "010")
  end.

(** * controller/expression *)

Record expression_input := mkExpressionInput {
  ex_Expression : string; ex_Func : string; ex_Op : string; ex_RightValue : string; ex_MaxStep : Z; ex_Priority : Z; ex_Note : string; ex_Pause : Z;
  ex_UIC : list string; ex_Action : action_input }.
Definition expression_CheckFormat (i : expression_input) : option string :=
  if negb (validOp (ex_Op i)) then Some "op's formating is not vaild"
  else if negb (validRightValue (ex_RightValue i)) then Some "right_value's formating is not vaild"
  else None.
(** The action with its teams joined. *)
Definition expression_action (i : expression_input) (id : Z) : Action :=
  let a := ex_Action i in
  mkAction id (strings_Join (ex_UIC i) ",") (in_URL a) (in_Callback a) (in_BeforeSMS a) (in_BeforeMail a) (in_AfterSMS a) (in_AfterMail a).
Definition make_expression (i : expression_input) (action_id : Z) (user : string) (id : Z) : Expression :=
  mkExpression id (ex_Expression i) (ex_Func i) (ex_Op i) (ex_RightValue i) (ex_MaxStep i) (ex_Priority i) (ex_Note i) action_id user (ex_Pause i).
Definition expression_is (id : Z) (e : Expression) : bool := Expression_ID e =? id.

Definition GetExpressionList (pageTmp limitTmp : string) flt db : handled (list Expression) :=
  match PageParser pageTmp limitTmp, flt 0%nat with
  | inr err, _ | inl _, Some err => (inr (badstatus, err), db)
  | inl page, None => (inl (page_rows page (rows (expressions db))), db)
  end.
(** An action number of 0 is no condition. *)
Definition GetExpression (eidtmp : string) flt db : handled (Expression * Action) :=
  match path_id eidtmp "eid is missing" with
  | inr err => (inr (badstatus, err), db)
  | inl id =>
      match fetch (flt 0%nat) (find (expression_is id) (expressions db)) with
      | inr err => (inr (badstatus, err), db)
      | inl e => match fetch (flt 1%nat) (find (fun a => (Expression_ActionId e =? 0) || action_is (Expression_ActionId e) a) (actions db)) with
                 | inr err => (inr (badstatus, err), db)
                 | inl a => (inl (e, a), db)
                 end
      end
  end.
Definition CreateExrpession (input : expression_input + string) user flt db : handled unit :=
  match input with
  | inr err => (inr (badstatus, err), db)
  | inl i =>
      match expression_CheckFormat i, flt 0%nat, flt 1%nat with
      | Some err, _, _ => (inr (badstatus, err), db)
      | None, Some err, _ | None, None, Some err => (inr (expecstatus, err), db)
      | None, None, None =>
          let aid := seq (actions db) + 1 in
          let tx := set_actions (insert_row (expression_action i) (actions db)) db in
          let tx := set_expressions (insert_row (make_expression i aid (User_Name user)) (expressions tx)) tx in
          (inl tt, match flt 2%nat with Some _ => db | None => tx end)
      end
  end.
Definition UpdateExrpession (input : (Z * expression_input) + string) user flt db : handled unit :=
  match input with
  | inr err => (inr (badstatus, err), db)
  | inl (id, i) =>
      match expression_CheckFormat i with
      | Some err => (inr (badstatus, err), db)
      | None =>
          match fetch (flt 0%nat) (find (expression_is id) (expressions db)) with
          | inr err => (inr (expecstatus, err), db)
          | inl e =>
              if negb (IsAdmin cfg user) && negb (bool_decide (Expression_CreateUser e = User_Name user)) then (inr (badstatus, no_permission), db)
              else
                match flt 1%nat, fetch (flt 2%nat) (find (action_is (Expression_ActionId e)) (actions db)), flt 3%nat with
                | Some err, _, _ | None, inr err, _ | None, inl _, Some err => (inr (expecstatus, err), db)
                | None, inl a, None =>
                    let tx := set_expressions (update_where (expression_is (Expression_ID e))
                                (fun x => make_expression i (Expression_ActionId x) (Expression_CreateUser x) (Expression_ID x)) (expressions db)) db in
                    let tx := set_actions (update_where (action_is (Action_ID a)) (fun x => expression_action i (Action_ID x)) (actions tx)) tx in
                    (inl tt, match flt 4%nat with Some _ => db | None => tx end)
                end
          end
      end
  end.
(** The expression, with its action, is looked up for users who are no administrators only. *)
Definition DeleteExpression (eidtmp : string) user flt db : handled unit :=
  match path_id eidtmp "eid is missing" with
  | inr err => (inr (badstatus, err), db)
  | inl id =>
      let looked := if IsAdmin cfg user then None else read (flt 0%nat) (find (expression_is id) (expressions db)) in
      let creator := match looked with Some e => Expression_CreateUser e | None => "" end in
      let action_id := match looked with Some e => Expression_ActionId e | None => 0 end in
      if negb (IsAdmin cfg user) && negb (bool_decide (creator = User_Name user)) then (inr (badstatus, no_permission), db)
      else match flt 1%nat, flt 2%nat with
           | Some err, _ | None, Some err => (inr (badstatus, err), db)
           | None, None =>
               let tx := set_actions (delete_where (action_is action_id) (actions db)) db in
               let tx := set_expressions (delete_where (fun x => expression_is id x && match looked with Some e => expression_is (Expression_ID e) x | None => true end) (expressions tx)) tx in
               (inl tt, match flt 3%nat with Some _ => db | None => tx end)
           end
  end.

(** * controller/mockcfg *)

Record nodata_input := mkNodataInput {
  nd_Obj : string; nd_ObjType : string; nd_Metric : string; nd_Tags : string; nd_DsType : string; nd_Step : Z; nd_Mock : f64 }.
Definition nodata_CheckFormat (i : nodata_input) : option string :=
  if bool_decide (nd_ObjType i = "group" \/ nd_ObjType i = "host" \/ nd_ObjType i = "other") then None
  else Some "obj_type only accpect group, host, other".
Definition mockcfg_is (id : Z) (x : Mockcfg) : bool := Mockcfg_ID x =? id.
Definition GetNoDataList (pageTmp limitTmp : string) flt db : handled (list Mockcfg) :=
  match PageParser pageTmp limitTmp, flt 0%nat with
  | inr err, _ | inl _, Some err => (inr (badstatus, err), db)
  | inl page, None => (inl (page_rows page (rows (mockcfgs db))), db)
  end.
Definition GetNoData (nidtmp : string) flt db : handled Mockcfg :=
  match path_id nidtmp "nid is missing" with
  | inr err => (inr (badstatus, err), db)
  | inl id => match fetch (flt 0%nat) (find (mockcfg_is id) (mockcfgs db)) with
              | inr err => (inr (badstatus, err), db)
              | inl x => (inl x, db)
              end
  end.
Definition CreateNoData (input : (string * nodata_input) + string) (now : Z) user flt db : handled unit :=
  match input with
  | inr err => (inr (badstatus, err), db)
  | inl (name, i) =>
      match nodata_CheckFormat i, flt 0%nat with
      | Some err, _ => (inr (badstatus, err), db)
      | None, Some err => (inr (expecstatus, err), db)
      | None, None =>
          if existsb (fun x => same_text (Mockcfg_Name x) name) (rows (mockcfgs db)) then (inr (expecstatus, duplicate), db)
          else (inl tt, set_mockcfgs (insert_row (fun id => mkMockcfg id name (nd_Obj i) (nd_ObjType i) (nd_Metric i) (nd_Tags i) (nd_DsType i) (nd_Step i) (nd_Mock i)
                                                    (User_Name user) now) (mockcfgs db)) db)
      end
  end.
Definition with_nodata (i : nodata_input) (x : Mockcfg) : Mockcfg :=
  mkMockcfg (Mockcfg_ID x) (Mockcfg_Name x) (nd_Obj i) (nd_ObjType i) (nd_Metric i) (nd_Tags i) (nd_DsType i) (nd_Step i) (nd_Mock i) (Mockcfg_Creator x) (TCreate x).
(** The update is done before the row is looked up. *)
Definition UpdateNoData (input : (Z * nodata_input) + string) flt db : handled unit :=
  match input with
  | inr err => (inr (badstatus, err), db)
  | inl (id, i) =>
      match nodata_CheckFormat i, flt 0%nat with
      | Some err, _ => (inr (badstatus, err), db)
      | None, Some err => (inr (expecstatus, err), db)
      | None, None =>
          (match fetch (flt 1%nat) (find (mockcfg_is id) (mockcfgs db)) with inr err => inr (expecstatus, err) | inl _ => inl tt end,
           set_mockcfgs (update_where (mockcfg_is id) (with_nodata i) (mockcfgs db)) db)
      end
  end.
Definition DeleteNoData (nidtmp : string) flt db : handled unit :=
  match path_id nidtmp "nid is missing", flt 0%nat with
  | inr err, _ | inl _, Some err => (inr (badstatus, err), db)
  | inl id, None => (inl tt, set_mockcfgs (delete_where (mockcfg_is id) (mockcfgs db)) db)
  end.

(** * The routes that write *)

Inductive portal_request :=
  | POST_hostgroup (input : string + string)
  | POST_hostgroup_host (input : (list string * Z) + string)
  | PUT_hostgroup_host (input : (Z * Z) + string)
  | PUT_hostgroup (input : (Z * string) + string)
  | DELETE_hostgroup (host_group : string)
  | PATCH_hostgroup_host (host_group : string) (input : (string * list string) + string)
  | POST_plugin (input : (Z * string) + string)
  | DELETE_plugin (id : string)
  | POST_aggregator (input : (Z * aggregator_input) + string)
  | PUT_aggregator (input : (Z * aggregator_input) + string)
  | DELETE_aggregator (id : string)
  | POST_hostgroup_template (input : (Z * Z) + string)
  | PUT_hostgroup_template (input : (Z * Z) + string)
  | POST_maintain (input : (list string * list Z * Z * Z) + string)
  | DELETE_maintain (input : (list string * list Z) + string)
  | POST_template (input : (string * Z * Z) + string)
  | PUT_template (input : (string * Z * Z) + string)
  | DELETE_template (tpl_id : string)
  | POST_action (input : (action_input * Z) + string)
  | PUT_action (input : (Z * action_input) + string)
  | POST_strategy (input : (strategy_input * Z) + string)
  | PUT_strategy (input : (Z * strategy_input) + string)
  | DELETE_strategy (sid : string)
  | POST_expression (input : expression_input + string)
  | PUT_expression (input : (Z * expression_input) + string)
  | DELETE_expression (eid : string)
  | POST_nodata (input : (string * nodata_input) + string)
  | PUT_nodata (input : (Z * nodata_input) + string)
  | DELETE_nodata (nid : string).

(** [checked] is what [GetUser] answers, [user] what remains of it when its error is ignored. *)
Definition portal_routes (req : portal_request) (now : Z) (checked : User + string) user flt db : handled unit :=
  match req with
  | POST_hostgroup i => CreateHostGroup i user flt db
  | POST_hostgroup_host i => BindHostToHostGroup i user flt db
  | PUT_hostgroup_host i => UnBindAHostToHostGroup i user flt db
  | PUT_hostgroup i => PutHostGroup i flt db
  | DELETE_hostgroup g => DeleteHostGroup g user flt db
  | PATCH_hostgroup_host g i => PatchHostGroupHost i g user flt db
  | POST_plugin i => CreatePlugin i user flt db
  | DELETE_plugin id => DeletePlugin id user flt db
  | POST_aggregator i => CreateAggregator i user flt db
  | PUT_aggregator i => UpdateAggregator i user flt db
  | DELETE_aggregator id => DeleteAggregator id user flt db
  | POST_hostgroup_template i => BindTemplateToGroup i user flt db
  | PUT_hostgroup_template i => UnBindTemplateToGroup i user flt db
  | POST_maintain i => SetMaintain i flt db
  | DELETE_maintain i => UnsetMaintain i flt db
  | POST_template i => CreateTemplate i checked flt db
  | PUT_template i => UpdateTemplate i checked flt db
  | DELETE_template id => DeleteTemplate id flt db
  | POST_action i => CreateActionToTmplate i flt db
  | PUT_action i => UpdateActionToTmplate i flt db
  | POST_strategy i => CreateStrategy i flt db
  | PUT_strategy i => UpdateStrategy i flt db
  | DELETE_strategy id => DeleteStrategy id flt db
  | POST_expression i => CreateExrpession i user flt db
  | PUT_expression i => UpdateExrpession i user flt db
  | DELETE_expression id => DeleteExpression id user flt db
  | POST_nodata i => CreateNoData i now user flt db
  | PUT_nodata i => UpdateNoData i flt db
  | DELETE_nodata id => DeleteNoData id flt db
  end.

(** A request behind [AuthSessionMidd], with the tables of the accounts at that time. *)
Record portal_call := mkPortalCall { pc_req : portal_request; pc_tok : token; pc_now : Z; pc_faults : faults }.
Definition portal_answer (c : portal_call) (uic : UicDb) db : handled unit :=
  match AuthSessionMidd cfg (pc_tok c) (pc_faults c) uic with
  | inr (Refuse st err) => (inr (st, err), db)
  | inr _ => (inr (401, ""), db)
  | inl _ => portal_routes (pc_req c) (pc_now c) (GetUser (pc_tok c) (pc_faults c 2%nat) uic) (user_or_name (pc_tok c) (pc_faults c 2%nat) uic) (shift 3 (pc_faults c)) db
  end.
Definition empty_portal : PortalDb := mkPortalDb no_rows no_rows [] [] no_rows no_rows no_rows no_rows no_rows no_rows no_rows.

End Portal.

(** * Well-formed tables *)

Record portal_ok `{Collation} (db : PortalDb) : Prop := {
  pok_hosts : table_ok Host_ID (hosts db);
  pok_hostnames : names_ok Hostname (rows (hosts db));
  pok_grps : table_ok HostGroup_ID (grps db);
  pok_grp_names : names_ok HostGroup_Name (rows (grps db));
  pok_plugins : table_ok Plugin_ID (plugins db);
  pok_clusters : table_ok Cluster_ID (clusters db);
  pok_tpls : table_ok Template_ID (tpls db);
  pok_tpl_names : names_ok Template_Name (rows (tpls db));
  pok_strategies : table_ok Strategy_ID (strategies db);
  pok_actions : table_ok Action_ID (actions db);
  pok_expressions : table_ok Expression_ID (expressions db);
  pok_mockcfgs : table_ok Mockcfg_ID (mockcfgs db);
  pok_mockcfg_names : names_ok Mockcfg_Name (rows (mockcfgs db));
  (** a binding is of a group and a host that exist *)
  pok_grp_hosts x : x ∈ grp_hosts db ->
    (exists g, g ∈ rows (grps db) /\ HostGroup_ID g = GrpHost_GrpID x) /\ (exists h, h ∈ rows (hosts db) /\ Host_ID h = GrpHost_HostID x) }.


Section PortalInvariant.
Context `{Collation, GoRegexps} (cfg : UicConfig).
Implicit Types (db tx : PortalDb) (flt : faults) (user : User).

(** Proves the parts of the invariant that a change of one table leaves, or that its
    lemmas give. *)
Ltac parts := constructor; cbn -[insert_row delete_where update_where]; try assumption; eauto 2 with portal.
Ltac fresh_name := match goal with E : _ = false |- _ => eapply names_insert; [ |exact E|assumption]; intros ?; reflexivity end.
Ltac renamed key := match goal with E : _ = false |- _ => eapply (names_rename key); [ | |exact E|assumption|assumption]; intros ?; reflexivity end.
Ltac branches := intros Hok; cases; try exact Hok; cbn [snd]; destruct Hok.

Lemma CreateHostGroup_ok input user flt db : portal_ok db -> portal_ok (snd (CreateHostGroup input user flt db)).
Proof.
  unfold CreateHostGroup. branches. parts.
  - fresh_name.
  - intros x Hx. destruct (pok_grp_hosts0 x Hx) as [(g & Hg & Hid) Hh]. split; [|done]. exists g. split; [|done]. apply elem_of_app. by left.
Qed.
Lemma rename_keeps (f : HostGroup -> HostGroup) P (t : table HostGroup) id : (forall g, HostGroup_ID (f g) = HostGroup_ID g) ->
  (exists g, g ∈ rows t /\ HostGroup_ID g = id) -> exists g, g ∈ rows (update_where P f t) /\ HostGroup_ID g = id.
Proof.
  intros Hf (g & Hg & Hid). exists (if P g then f g else g). split; [|destruct (P g); [by rewrite Hf|done]].
  cbn. unfold update_rows. apply list_elem_of_fmap. by exists g.
Qed.
Lemma PutHostGroup_ok input flt db : portal_ok db -> portal_ok (snd (PutHostGroup input flt db)).
Proof.
  unfold PutHostGroup. branches. parts.
  - renamed HostGroup_ID.
  - intros x Hx. destruct (pok_grp_hosts0 x Hx) as [Hg Hh]. split; [|done]. by apply rename_keeps.
Qed.
Lemma unbind_ok P db : portal_ok db -> portal_ok (set_grp_hosts (delete_rows P (grp_hosts db)) db).
Proof. intros []. parts. intros x [Hx _]%elem_of_delete_rows. by apply pok_grp_hosts0. Qed.
Lemma UnBindAHostToHostGroup_ok input user flt db : portal_ok db -> portal_ok (snd (UnBindAHostToHostGroup cfg input user flt db)).
Proof. intros Hok. unfold UnBindAHostToHostGroup. cases; try exact Hok. by apply unbind_ok. Qed.
Lemma DeleteHostGroup_ok g user flt db : portal_ok db -> portal_ok (snd (DeleteHostGroup cfg g user flt db)).
Proof.
  unfold DeleteHostGroup. branches. parts. intros x [Hx Hne]%elem_of_delete_rows. destruct (pok_grp_hosts0 x Hx) as [(y & Hy & Hid) Hh].
  split; [|done]. exists y. split; [|done]. apply elem_of_delete_rows. split; [done|]. unfold of_grp in Hne. unfold grp_is. by rewrite Hid.
Qed.

(** A transaction that binds hosts: the groups stay and the hosts only grow. *)
Record binding (gid : Z) db tx : Prop := {
  bnd_ok : portal_ok tx;
  bnd_grps : grps tx = grps db;
  bnd_hosts h : h ∈ rows (hosts db) -> h ∈ rows (hosts tx);
  bnd_grp : exists g, g ∈ rows (grps db) /\ HostGroup_ID g = gid }.
Lemma bind_host_ok gid id db tx : binding gid db tx -> (exists h, h ∈ rows (hosts tx) /\ Host_ID h = id) -> binding gid db (bind_host gid id tx).
Proof.
  intros [[] Hg Hh Hgrp] Hid. constructor; [|done..]. parts. intros x. rewrite elem_of_app, list_elem_of_singleton. intros [Hx| ->]; [by apply pok_grp_hosts0|].
  cbn. by rewrite Hg.
Qed.
Lemma save_host_ok gid name db tx id tx' : binding gid db tx -> save_host name tx = Some (id, tx') ->
  binding gid db tx' /\ exists h, h ∈ rows (hosts tx') /\ Host_ID h = id.
Proof.
  unfold save_host. intros [[] Hg Hh Hgrp]. destruct (existsb _ _) eqn:E; [done|]. intros [= <- <-]. split.
  - constructor; [parts|done| |done].
    + fresh_name.
    + intros x Hx. destruct (pok_grp_hosts0 x Hx) as [Hgr (h & Hin & Hid)]. split; [done|]. exists h. split; [|done]. apply elem_of_app. by left.
    + intros h Hin. apply elem_of_app. left. by apply Hh.
  - eexists. split; [apply elem_of_app; right; by apply list_elem_of_singleton|done].
Qed.
Lemma host_id_ok gid host flt db tx id tx' : binding gid db tx -> host_id host flt db tx = inl (id, tx') ->
  binding gid db tx' /\ exists h, h ∈ rows (hosts tx') /\ Host_ID h = id.
Proof.
  unfold host_id, Host_Existing. intros Hb. destruct (read _ _) as [h|] eqn:E; cbn.
  - intros [= <- <-]. split; [done|]. apply read_Some, find_row_Some in E as [Hin _]. exists h. split; [|done]. by apply Hb.
  - destruct (flt 1%nat); [done|]. destruct (save_host host tx) as [[i t]|] eqn:Es; [|done]. intros [= <- <-]. by eapply save_host_ok.
Qed.
Lemma bind_loop_ok gid names : forall flt db tx tx', binding gid db tx -> bind_loop gid names flt db tx = inl tx' -> binding gid db tx'.
Proof.
  induction names as [|host names IH]; intros flt db tx tx' Hb; cbn; [by intros [= <-]|].
  destruct (host_id host flt db tx) as [[id t]|] eqn:E; [|done]. destruct (host_id_ok _ _ _ _ _ _ _ Hb E) as [Ht Hid].
  destruct (flt 2%nat); [done|]. apply IH. by apply bind_host_ok.
Qed.
Lemma add_loop_ok gid names : forall flt db tx tx', binding gid db tx -> add_loop gid names flt db tx = inl tx' -> binding gid db tx'.
Proof.
  induction names as [|host names IH]; intros flt db tx tx' Hb; cbn; [by intros [= <-]|].
  destruct (host_id host flt db tx) as [[id t]|] eqn:E; [|done]. destruct (host_id_ok _ _ _ _ _ _ _ Hb E) as [Ht Hid].
  destruct (GrpHost_Existing _ _ _ _); [by apply IH|]. destruct (flt 3%nat); [done|]. apply IH. by apply bind_host_ok.
Qed.
Lemma BindHostToHostGroup_ok input user flt db : portal_ok db -> portal_ok (snd (BindHostToHostGroup cfg input user flt db)).
Proof.
  intros Hok. unfold BindHostToHostGroup, bind_lookup, bind_transaction. destruct input as [[names gid]|]; [|done]. destruct (fetch _ _) as [g|] eqn:Ef; [|done].
  apply fetch_inl in Ef as [_ [Hg _]%find_row_Some]. destruct (_ && _); [done|]. destruct (shift 1 flt 0%nat); [done|].
  destruct (bind_loop _ _ _ _ _) as [tx|] eqn:E; [|done]. destruct (shift 1 flt 1%nat); [done|]. cbn [snd].
  eapply bnd_ok, (bind_loop_ok (HostGroup_ID g) names _ _ _ _); [|exact E]. constructor; [by apply unbind_ok|done..|by exists g].
Qed.
Lemma remove_loop_ok gid names : forall flt db, portal_ok db -> portal_ok (fst (remove_loop gid names flt db)).
Proof.
  induction names as [|host names IH]; intros flt db Hok; cbn; [done|]. destruct (Host_Existing _ _ _); [|by apply IH].
  destruct (flt 1%nat); [done|]. apply IH. by apply unbind_ok.
Qed.
Lemma PatchHostGroupHost_ok input g user flt db : portal_ok db -> portal_ok (snd (PatchHostGroupHost cfg input g user flt db)).
Proof.
  intros Hok. unfold PatchHostGroupHost. destruct input as [[action names]|]; [|done]. destruct (path_id _ _); [|done]. destruct (_ && _); [done|].
  destruct (fetch _ _) as [gr|] eqn:Ef; [|done]. apply fetch_inl in Ef as [_ [Hg _]%find_row_Some]. destruct (_ && _); [done|].
  destruct (bool_decide _).
  - unfold bindHostToHostGroup. destruct (add_loop _ _ _ _ _) as [tx|] eqn:E; [|done]. destruct (shift 1 flt 0%nat); [done|]. cbn [snd].
    eapply bnd_ok, (add_loop_ok (HostGroup_ID gr) names); [|exact E]. constructor; [done..|by exists gr].
  - unfold unbindHostToHostGroup. pose proof (remove_loop_ok (HostGroup_ID gr) names (shift 1 flt) db Hok) as Hr.
    destruct (remove_loop _ _ _ _) as [d [e|]]; exact Hr.
Qed.
Lemma host_update_keeps P (f : Host -> Host) (t : table Host) id : (forall h, Host_ID (f h) = Host_ID h) ->
  (exists h, h ∈ rows t /\ Host_ID h = id) -> exists h, h ∈ rows (update_where P f t) /\ Host_ID h = id.
Proof.
  intros Hf (h & Hh & Hid). exists (if P h then f h else h). split; [|destruct (P h); [by rewrite Hf|done]].
  cbn. unfold update_rows. apply list_elem_of_fmap. by exists h.
Qed.
Lemma maintain_ok names ids b e flt db : portal_ok db -> portal_ok (snd (maintain names ids b e flt db)).
Proof.
  intros Hok. unfold maintain. assert (Hset : forall P, portal_ok (set_hosts (update_where P (with_maintain b e) (hosts db)) db)).
  { intros P. destruct Hok. assert (Ht : table_ok Host_ID (update_where P (with_maintain b e) (hosts db))) by by apply update_ok. parts.
    - by apply (names_same Host_ID).
    - intros x Hx. destruct (pok_grp_hosts0 x Hx) as [Hg Hh]. split; [done|]. by apply host_update_keeps. }
  destruct names, ids; [done|..]; cbv zeta; destruct (flt 0%nat); try exact Hok; apply Hset.
Qed.
Lemma maintain_routes_ok i1 i2 flt db : portal_ok db -> portal_ok (snd (SetMaintain i1 flt db)) /\ portal_ok (snd (UnsetMaintain i2 flt db)).
Proof.
  intros Hok. split; [destruct i1 as [[[[names ids] b] e]|]|destruct i2 as [[names ids]|]]; [by apply maintain_ok|done|by apply maintain_ok|done].
Qed.
Lemma grp_tpls_ok l db : portal_ok db -> portal_ok (set_grp_tpls l db).
Proof. intros []. parts. Qed.
Lemma template_bindings_ok i1 i2 user flt db : portal_ok db ->
  portal_ok (snd (BindTemplateToGroup i1 user flt db)) /\ portal_ok (snd (UnBindTemplateToGroup cfg i2 user flt db)).
Proof. intros Hok. unfold BindTemplateToGroup, UnBindTemplateToGroup. split; cases; try exact Hok; by apply grp_tpls_ok. Qed.
Lemma plugins_ok i id user flt db : portal_ok db -> portal_ok (snd (CreatePlugin cfg i user flt db)) /\ portal_ok (snd (DeletePlugin cfg id user flt db)).
Proof. unfold CreatePlugin, DeletePlugin. intros Hok'. split; revert Hok'; branches; parts. Qed.
Lemma aggregators_ok i1 i2 id user flt db : portal_ok db ->
  portal_ok (snd (CreateAggregator cfg i1 user flt db)) /\ portal_ok (snd (UpdateAggregator cfg i2 user flt db)) /\ portal_ok (snd (DeleteAggregator cfg id user flt db)).
Proof. unfold CreateAggregator, UpdateAggregator, DeleteAggregator. intros Hok'. split; [|split]; revert Hok'; branches; parts. Qed.
Lemma CreateTemplate_ok i u flt db : portal_ok db -> portal_ok (snd (CreateTemplate i u flt db)).
Proof. unfold CreateTemplate. branches; parts; fresh_name. Qed.
Lemma UpdateTemplate_ok i u flt db : portal_ok db -> portal_ok (snd (UpdateTemplate cfg i u flt db)).
Proof. unfold UpdateTemplate. branches; parts; renamed Template_ID. Qed.
Lemma DeleteTemplate_ok id flt db : portal_ok db -> portal_ok (snd (DeleteTemplate id flt db)).
Proof.
  intros Hok. unfold DeleteTemplate. destruct (path_id _ _); [|done]. destruct (fetch _ _) as [t|]; [|done]. cbv zeta.
  destruct (flt 1%nat), (if ActionID t =? 0 then None else flt 2%nat), (flt 3%nat), (flt 4%nat), (flt 5%nat); try exact Hok. cbn [snd]. destruct Hok.
  destruct (ActionID t =? 0); parts.
Qed.
Lemma actions_ok i1 i2 flt db : portal_ok db -> portal_ok (snd (CreateActionToTmplate i1 flt db)) /\ portal_ok (snd (UpdateActionToTmplate i2 flt db)).
Proof.
  unfold CreateActionToTmplate, UpdateActionToTmplate. intros Hok'. split; revert Hok'; branches; parts.
  apply (names_same Template_ID); try done. by apply update_ok.
Qed.
Lemma strategies_ok i1 i2 id flt db : portal_ok db ->
  portal_ok (snd (CreateStrategy i1 flt db)) /\ portal_ok (snd (UpdateStrategy i2 flt db)) /\ portal_ok (snd (DeleteStrategy id flt db)).
Proof. unfold CreateStrategy, UpdateStrategy, DeleteStrategy. intros Hok'. split; [|split]; revert Hok'; branches; parts. Qed.
Lemma expressions_ok i1 i2 user flt db : portal_ok db -> portal_ok (snd (CreateExrpession i1 user flt db)) /\ portal_ok (snd (UpdateExrpession cfg i2 user flt db)).
Proof. unfold CreateExrpession, UpdateExrpession. intros Hok'. split; revert Hok'; branches; parts. Qed.
Lemma DeleteExpression_ok id user flt db : portal_ok db -> portal_ok (snd (DeleteExpression cfg id user flt db)).
Proof.
  intros Hok. unfold DeleteExpression. destruct (path_id _ _); [|done]. cbv zeta. destruct (_ && _); [done|].
  destruct (flt 1%nat), (flt 2%nat), (flt 3%nat); try exact Hok. destruct Hok. cbn [snd]. parts.
Qed.
Lemma nodata_ok i1 i2 id now user flt db : portal_ok db ->
  portal_ok (snd (CreateNoData i1 now user flt db)) /\ portal_ok (snd (UpdateNoData i2 flt db)) /\ portal_ok (snd (DeleteNoData id flt db)).
Proof.
  unfold CreateNoData, UpdateNoData, DeleteNoData. intros Hok'. split; [|split]; revert Hok'; branches; parts; try fresh_name;
    apply (names_same Mockcfg_ID); try done; by apply update_ok.
Qed.

Lemma portal_routes_ok req now checked user flt db : portal_ok db -> portal_ok (snd (portal_routes cfg req now checked user flt db)).
Proof.
  intros Hok. destruct req; cbn [portal_routes].
  - by apply CreateHostGroup_ok.
  - by apply BindHostToHostGroup_ok.
  - by apply UnBindAHostToHostGroup_ok.
  - by apply PutHostGroup_ok.
  - by apply DeleteHostGroup_ok.
  - by apply PatchHostGroupHost_ok.
  - by apply (plugins_ok input "").
  - by apply (plugins_ok (inr "") id).
  - by apply (aggregators_ok input (inr "") "").
  - by apply (aggregators_ok (inr "") input "").
  - by apply (aggregators_ok (inr "") (inr "") id).
  - by apply (template_bindings_ok input (inr "")).
  - by apply (template_bindings_ok (inr "") input).
  - by apply (maintain_routes_ok input (inr "")).
  - by apply (maintain_routes_ok (inr "") input).
  - by apply CreateTemplate_ok.
  - by apply UpdateTemplate_ok.
  - by apply DeleteTemplate_ok.
  - by apply (actions_ok input (inr "")).
  - by apply (actions_ok (inr "") input).
  - by apply (strategies_ok input (inr "") "").
  - by apply (strategies_ok (inr "") input "").
  - by apply (strategies_ok (inr "") (inr "") sid).
  - by apply (expressions_ok input (inr "")).
  - by apply (expressions_ok (inr "") input).
  - by apply DeleteExpression_ok.
  - by apply (nodata_ok input (inr "") "").
  - by apply (nodata_ok (inr "") input "" 0 no_user).
  - by apply (nodata_ok (inr "") (inr "") nid 0 no_user).
Qed.
Definition portal_serve (cs : list (portal_call * UicDb)) db : PortalDb := foldl (fun db c => snd (portal_answer cfg c.1 c.2 db)) db cs.
Lemma portal_answer_ok c uic db : portal_ok db -> portal_ok (snd (portal_answer cfg c uic db)).
Proof. intros Hok. unfold portal_answer. destruct (AuthSessionMidd _ _ _ _) as [|r]; [by apply portal_routes_ok|by destruct r]. Qed.
Lemma portal_serve_ok cs : forall db, portal_ok db -> portal_ok (portal_serve cs db).
Proof. induction cs as [|c cs IH]; intros db Hok; [done|]. apply IH. by apply portal_answer_ok. Qed.
Lemma empty_portal_ok : portal_ok empty_portal.
Proof.
  constructor; try apply empty_table_ok; try (intros x y Hx; by apply not_elem_of_nil in Hx); try (intros x Hx; by apply not_elem_of_nil in Hx); by cbn.
Qed.

(** Whatever writing requests are served one after the other, whoever sends them, whatever the accounts are by
    then and whichever statements fail, the portal's tables stay well formed: numbers are
    unique and given out in order, no two hosts, groups, templates or nodata settings have
    names that compare equal, and every binding of a host to a group is of a group and a host
    that exist. Between requests that run at the same time the last part can fail
    ([binding_left_dangling]). *)
Theorem portal_wellformed cs : portal_ok (portal_serve cs empty_portal).
Proof. apply portal_serve_ok, empty_portal_ok. Qed.

(** * Who may change the hosts of a group *)

Definition same_groups db tx : Prop := grps tx = grps db /\ grp_hosts tx = grp_hosts db.
(** Only the hosts of one group change. *)
Definition only_group (gid : Z) db tx : Prop :=
  grps tx = grps db /\ forall k, k <> gid -> group_host_ids k tx = group_host_ids k db.
#[local] Instance only_group_pre gid : PreOrder (only_group gid).
Proof.
  split; [by intros db; split|]. intros d1 d2 d3 [H1 H2] [H3 H4]. split; [congruence|]. intros k Hk. by rewrite H4, H2.
Qed.
Lemma bind_host_only gid id tx : only_group gid tx (bind_host gid id tx).
Proof.
  split; [done|]. intros k Hk. unfold group_host_ids, bind_host. cbn. rewrite filter_app. cbn. unfold of_grp at 2. cbn.
  rewrite (proj2 (Z.eqb_neq gid k)) by congruence. by rewrite app_nil_r.
Qed.
Lemma unbind_only gid P tx : (forall x, P x = true -> GrpHost_GrpID x = gid) -> only_group gid tx (set_grp_hosts (delete_rows P (grp_hosts tx)) tx).
Proof.
  intros HP. split; [done|]. intros k Hk. unfold group_host_ids, delete_rows. cbn. f_equal. induction (grp_hosts tx) as [|x l IH]; [done|]. cbn.
  destruct (P x) eqn:E; cbn; rewrite IH; [|done]. unfold of_grp. rewrite (HP x E). by rewrite (proj2 (Z.eqb_neq gid k)) by congruence.
Qed.
Lemma host_id_only gid host flt db tx id tx' : host_id host flt db tx = inl (id, tx') -> only_group gid tx tx'.
Proof.
  unfold host_id, save_host. destruct (Host_Existing _ _ _); [by intros [= <- <-]|]. destruct (flt 1%nat); [done|].
  destruct (existsb _ _); [done|]. by intros [= <- <-].
Qed.
Lemma bind_loop_only gid names : forall flt db tx tx', bind_loop gid names flt db tx = inl tx' -> only_group gid tx tx'.
Proof.
  induction names as [|host names IH]; intros flt db tx tx'; cbn; [by intros [= <-]|].
  destruct (host_id host flt db tx) as [[id t]|] eqn:E; [|done]. destruct (flt 2%nat); [done|]. intros Hl%IH.
  etrans; [by eapply host_id_only|]. etrans; [apply bind_host_only|exact Hl].
Qed.
Lemma add_loop_only gid names : forall flt db tx tx', add_loop gid names flt db tx = inl tx' -> only_group gid tx tx'.
Proof.
  induction names as [|host names IH]; intros flt db tx tx'; cbn; [by intros [= <-]|].
  destruct (host_id host flt db tx) as [[id t]|] eqn:E; [|done]. apply (host_id_only gid) in E. destruct (GrpHost_Existing _ _ _ _).
  - intros Hl%IH. by etrans.
  - destruct (flt 3%nat); [done|]. intros Hl%IH. etrans; [exact E|]. etrans; [apply bind_host_only|exact Hl].
Qed.
Lemma of_grp_and gid hid x : of_grp gid x && (GrpHost_HostID x =? hid) = true -> GrpHost_GrpID x = gid.
Proof. unfold of_grp. lia. Qed.
Lemma remove_loop_only gid names : forall flt db, only_group gid db (fst (remove_loop gid names flt db)).
Proof.
  induction names as [|host names IH]; intros flt db; cbn; [done|]. destruct (Host_Existing _ _ _); [|apply IH].
  destruct (flt 1%nat); [done|]. etrans; [|apply IH]. apply unbind_only. intros x. apply of_grp_and.
Qed.

Lemma other_handlers_groups db :
  (forall i user flt, same_groups db (snd (CreatePlugin cfg i user flt db))) /\ (forall id user flt, same_groups db (snd (DeletePlugin cfg id user flt db)))
  /\ (forall i user flt, same_groups db (snd (CreateAggregator cfg i user flt db))) /\ (forall i user flt, same_groups db (snd (UpdateAggregator cfg i user flt db)))
  /\ (forall id user flt, same_groups db (snd (DeleteAggregator cfg id user flt db)))
  /\ (forall i user flt, same_groups db (snd (BindTemplateToGroup i user flt db))) /\ (forall i user flt, same_groups db (snd (UnBindTemplateToGroup cfg i user flt db)))
  /\ (forall i flt, same_groups db (snd (SetMaintain i flt db))) /\ (forall i flt, same_groups db (snd (UnsetMaintain i flt db)))
  /\ (forall i u flt, same_groups db (snd (CreateTemplate i u flt db))) /\ (forall i u flt, same_groups db (snd (UpdateTemplate cfg i u flt db)))
  /\ (forall i flt, same_groups db (snd (CreateActionToTmplate i flt db))) /\ (forall i flt, same_groups db (snd (UpdateActionToTmplate i flt db)))
  /\ (forall i flt, same_groups db (snd (CreateStrategy i flt db))) /\ (forall i flt, same_groups db (snd (UpdateStrategy i flt db)))
  /\ (forall id flt, same_groups db (snd (DeleteStrategy id flt db)))
  /\ (forall i user flt, same_groups db (snd (CreateExrpession i user flt db))) /\ (forall i user flt, same_groups db (snd (UpdateExrpession cfg i user flt db)))
  /\ (forall i now user flt, same_groups db (snd (CreateNoData i now user flt db))) /\ (forall i flt, same_groups db (snd (UpdateNoData i flt db)))
  /\ (forall id flt, same_groups db (snd (DeleteNoData id flt db))).
Proof.
  unfold CreatePlugin, DeletePlugin, CreateAggregator, UpdateAggregator, DeleteAggregator, BindTemplateToGroup, UnBindTemplateToGroup, SetMaintain, UnsetMaintain,
    maintain, CreateTemplate, UpdateTemplate, CreateActionToTmplate, UpdateActionToTmplate, CreateStrategy, UpdateStrategy, DeleteStrategy,
    CreateExrpession, UpdateExrpession, CreateNoData, UpdateNoData, DeleteNoData.
  repeat match goal with |- _ /\ _ => split end; intros; cases; split; reflexivity.
Qed.
Lemma DeleteTemplate_groups id flt db : same_groups db (snd (DeleteTemplate id flt db)).
Proof.
  unfold DeleteTemplate. destruct (path_id _ _); [|done]. destruct (fetch _ _) as [t|]; [|done]. cbv zeta.
  destruct (flt 1%nat), (if ActionID t =? 0 then None else flt 2%nat), (flt 3%nat), (flt 4%nat), (flt 5%nat), (ActionID t =? 0); done.
Qed.
Lemma DeleteExpression_groups id user flt db : same_groups db (snd (DeleteExpression cfg id user flt db)).
Proof.
  unfold DeleteExpression. destruct (path_id _ _); [|done]. cbv zeta. destruct (_ && _); [done|]. by destruct (flt 1%nat), (flt 2%nat), (flt 3%nat).
Qed.

(** The group is still there, with its creator and its hosts. *)
Definition group_kept (g : HostGroup) db tx : Prop :=
  group_host_ids (HostGroup_ID g) tx = group_host_ids (HostGroup_ID g) db
  /\ exists g', g' ∈ rows (grps tx) /\ HostGroup_ID g' = HostGroup_ID g /\ HostGroup_CreateUser g' = HostGroup_CreateUser g.

Section Outsider.
Context (g : HostGroup) (db : PortalDb) (user : User) (Hok : portal_ok db) (Hg : g ∈ rows (grps db))
  (Hadm : IsAdmin cfg user = false) (Hcr : HostGroup_CreateUser g <> User_Name user).
Lemma same_groups_kept tx : same_groups db tx -> group_kept g db tx.
Proof. intros [H1 H2]. unfold group_kept, group_host_ids. rewrite H1, H2. split; [done|]. by exists g. Qed.
Lemma only_group_kept gid tx : HostGroup_ID g <> gid -> only_group gid db tx -> group_kept g db tx.
Proof. intros Hne [H1 H2]. split; [by apply H2|]. rewrite H1. by exists g. Qed.
(** A group that the user may change is another one. *)
Lemma creator_other g' : g' ∈ rows (grps db) -> negb (IsAdmin cfg user) && negb (bool_decide (HostGroup_CreateUser g' = User_Name user)) = false ->
  HostGroup_ID g <> HostGroup_ID g'.
Proof.
  rewrite Hadm. cbn. intros Hg' Hc E. apply negb_false_iff, bool_decide_eq_true in Hc.
  destruct (pok_grps _ Hok) as [_ Hk]. by rewrite (keyed_inj _ _ _ _ _ Hk Hg Hg' E) in Hcr.
Qed.
Lemma may_change_other gid err st r : may_change cfg user gid None err st db = inl r -> HostGroup_ID g <> gid.
Proof.
  unfold may_change. rewrite Hadm. destruct (fetch _ _) as [g'|] eqn:Ef; [|done]. apply fetch_inl in Ef as [_ [Hg' Hid]%find_row_Some].
  unfold grp_is in Hid. apply Z.eqb_eq in Hid as <-. rewrite (bool_decide_eq_false_2 (None = Some (User_Name user))) by done. rewrite orb_false_r.
  case_bool_decide as Hc; [|done]. intros _. apply creator_other; [done|]. rewrite Hadm. cbn. by rewrite bool_decide_eq_true_2.
Qed.
Lemma BindHost_kept input flt : group_kept g db (snd (BindHostToHostGroup cfg input user flt db)).
Proof.
  assert (Hsame : group_kept g db db) by by apply same_groups_kept. unfold BindHostToHostGroup, bind_lookup, bind_transaction. destruct input as [[names gid]|]; [|done].
  destruct (fetch _ _) as [g'|] eqn:Ef; [|done]. apply fetch_inl in Ef as [_ [Hg' _]%find_row_Some].
  destruct (negb (IsAdmin cfg user) && _) eqn:Hc; [done|]. pose proof (creator_other g' Hg' Hc) as Hne. destruct (shift 1 flt 0%nat); [done|].
  destruct (bind_loop _ _ _ _ _) as [tx|] eqn:E; [|done]. destruct (shift 1 flt 1%nat); [done|]. cbn [snd].
  apply (only_group_kept _ _ Hne). apply bind_loop_only in E. etrans; [|exact E]. apply unbind_only. intros x Hx. unfold of_grp in Hx. lia.
Qed.
Lemma UnBind_kept input flt : group_kept g db (snd (UnBindAHostToHostGroup cfg input user flt db)).
Proof.
  unfold UnBindAHostToHostGroup. destruct input as [[hid gid]|]; [|by apply same_groups_kept].
  destruct (may_change _ _ _ _ _ _ _) as [r|] eqn:Em; [|by apply same_groups_kept]. destruct (flt 1%nat); [by apply same_groups_kept|].
  cbn [snd]. eapply only_group_kept; [by eapply may_change_other|]. apply unbind_only. intros x. apply of_grp_and.
Qed.
Lemma DeleteHostGroup_kept grp flt : group_kept g db (snd (DeleteHostGroup cfg grp user flt db)).
Proof.
  unfold DeleteHostGroup. destruct (path_id _ _) as [gid|]; [|by apply same_groups_kept].
  destruct (may_change _ _ _ _ _ _ _) as [r|] eqn:Em; [|by apply same_groups_kept]. apply may_change_other in Em.
  destruct (flt 1%nat), (flt 2%nat), (flt 3%nat), (flt 4%nat), (flt 5%nat); try (by apply same_groups_kept). cbn [snd]. split.
  - apply (unbind_only gid); [|done]. intros x Hx. unfold of_grp in Hx. lia.
  - exists g. split; [|done]. apply elem_of_delete_rows. split; [done|]. unfold grp_is. lia.
Qed.
Lemma Patch_kept input grp flt : group_kept g db (snd (PatchHostGroupHost cfg input grp user flt db)).
Proof.
  assert (Hsame : group_kept g db db) by by apply same_groups_kept. unfold PatchHostGroupHost. destruct input as [[action names]|]; [|done].
  destruct (path_id _ _); [|done]. destruct (_ && _); [done|]. destruct (fetch _ _) as [g'|] eqn:Ef; [|done]. apply fetch_inl in Ef as [_ [Hg' _]%find_row_Some].
  destruct (negb (IsAdmin cfg user) && _) eqn:Hc; [done|]. pose proof (creator_other g' Hg' Hc) as Hne. destruct (bool_decide (action = "add")).
  - unfold bindHostToHostGroup. destruct (add_loop _ _ _ _ _) as [tx|] eqn:E; [|done]. destruct (shift 1 flt 0%nat); [done|]. cbn [snd].
    apply (only_group_kept _ _ Hne). by apply add_loop_only in E.
  - unfold unbindHostToHostGroup. pose proof (remove_loop_only (HostGroup_ID g') names (shift 1 flt) db) as Hr.
    destruct (remove_loop _ _ _ _) as [d [e|]]; by apply (only_group_kept _ _ Hne).
Qed.
Lemma PutHostGroup_kept input flt : group_kept g db (snd (PutHostGroup input flt db)).
Proof.
  assert (Hsame : group_kept g db db) by by apply same_groups_kept. unfold PutHostGroup. destruct input as [[gid name]|]; [|done].
  destruct (HasDangerousCharacters _); [done|]. destruct (fetch _ _) as [g'|] eqn:Ef; [|done]. destruct (flt 1%nat); [done|].
  destruct (existsb _ _); [done|]. cbn [snd]. split; [done|]. apply fetch_inl in Ef as [_ [Hg' Hid]%find_row_Some].
  eexists. split; [cbn; unfold update_rows; apply list_elem_of_fmap; exists g; split; [reflexivity|done]|].
  destruct (grp_is gid g) eqn:E; [|done]. split; [done|]. cbn. unfold grp_is in E, Hid. destruct (pok_grps _ Hok) as [_ Hk].
  rewrite (keyed_inj _ _ _ _ _ Hk Hg Hg'); [done|lia].
Qed.
Lemma CreateHostGroup_kept input flt : group_kept g db (snd (CreateHostGroup input user flt db)).
Proof.
  unfold CreateHostGroup. destruct input as [name|]; [|by apply same_groups_kept]. destruct (flt 0%nat); [by apply same_groups_kept|].
  destruct (grp_taken _ _); [by apply same_groups_kept|]. cbn [snd]. split; [done|]. exists g. split; [|done]. cbn. apply elem_of_app. by left.
Qed.
End Outsider.

Lemma routes_kept req now checked user flt db g :
portal_ok db -> g ∈ rows (grps db) -> IsAdmin cfg user = false -> HostGroup_CreateUser g <> User_Name user ->
group_kept g db (snd (portal_routes cfg req now checked user flt db)).
Proof.
intros Hok Hg Hadm Hcr. pose proof (same_groups_kept g db Hg) as Hsame.
destruct (other_handlers_groups db) as (? & ? & ? & ? & ? & ? & ? & ? & ? & ? & ? & ? & ? & ? & ? & ? & ? & ? & ? & ? & ?).
destruct req; cbn [portal_routes]; auto.
- by apply CreateHostGroup_kept.
- by apply BindHost_kept.
- by apply UnBind_kept.
- by apply PutHostGroup_kept.
- by apply DeleteHostGroup_kept.
- by apply Patch_kept.
- apply Hsame, DeleteTemplate_groups.
- apply Hsame, DeleteExpression_groups.
Qed.

(** The user the handlers see: the one the caller acts as, or, when that cannot be read, one
  that has only the name in the token. *)
Definition seen_as (uic : UicDb) (tok : token) (u : User) : Prop :=
acts_as cfg uic tok u \/ (exists name, server_token cfg tok name /\ u = named_only name).
Lemma user_or_name_seen tok flt err uic x : skip_auth cfg = false -> AuthSessionMidd cfg tok flt uic = inl x ->
seen_as uic tok (user_or_name tok err uic) \/
exists name a, user_or_name tok err uic = named_only name /\ signed_in uic tok a /\ same_text (User_Name a) name = true.
Proof.
intros Hs Hm. destruct (midd_someone _ _ _ _ _ Hs Hm) as [Had Hacts]. unfold user_or_name. destruct (GetUser _ err uic) as [u|e] eqn:Eu; [left; left; by eapply Hacts|].
unfold AuthSessionMidd, SessionChecking in Hm. destruct (GetSession tok) as [[n g]|] eqn:Eg; [|by rewrite Hs in Hm]. apply GetSession_token in Eg. clear Hm.
destruct Had as [(a & name & sig & s & -> & Ha & Hn & Hr)|(name & Hd & ->)]; injection Eg as <- <-.
- right. exists name, a. split; [done|]. split; [by exists name, sig, s|exact Hn].
- left. right. by exists name.
Qed.
(** C33. A request of a caller who acts neither as an administrator nor as the creator of a
  host group cannot remove the group, change who created it, or change the hosts it holds,
  whichever statements fail. A caller acts as the account whose session the token is of, or,
  with the default token if the configuration sets one, as the account they name or, when
  there is none, as an unknown user of that name; so with the default token, as every
  shipped configuration has it, the protection is only against names the caller does not
  give. *)
Theorem groups_protected c uic db g :
skip_auth cfg = false -> portal_ok db -> g ∈ rows (grps db) ->
(forall a, seen_as uic (pc_tok c) a -> IsAdmin cfg a = false /\ same_text (User_Name a) (HostGroup_CreateUser g) = false) ->
group_kept g db (snd (portal_answer cfg c uic db)).
Proof.
intros Hs Hok Hg Ha. unfold portal_answer. destruct (AuthSessionMidd _ _ _ _) as [x|r] eqn:Em; [|destruct r; by apply (same_groups_kept g db Hg)].
destruct (user_or_name_seen _ _ (pc_faults c 2%nat) _ _ Hs Em) as [Hme|(name & a & -> & Hme & Hn)].
- destruct (Ha _ Hme) as [Hadm Hcr]. apply routes_kept; [done..|]. intros E. by rewrite E, same_text_refl in Hcr.
- destruct (Ha a) as [Hadm Hcr]; [left; by apply acts_session|]. apply routes_kept; [done|done|..].
  + unfold IsAdmin in *. by destruct (access_control cfg).
  + cbn. intros E. rewrite E in Hcr. congruence.
Qed.

(** * Binding a list of hosts *)

Definition named_host (tx : PortalDb) (name : string) (id : Z) : Prop :=
exists h, h ∈ rows (hosts tx) /\ Host_ID h = id /\ same_text (Hostname h) name = true.
Lemma filter_deleted {A : Type} (P : A -> bool) l : List.filter P (delete_rows P l) = [].
Proof. unfold delete_rows. induction l as [|x l IH]; [done|]. cbn. destruct (P x) eqn:E; cbn; rewrite ?E; done. Qed.
Lemma named_host_mono tx tx' name id : (forall h, h ∈ rows (hosts tx) -> h ∈ rows (hosts tx')) -> named_host tx name id -> named_host tx' name id.
Proof. intros Hsub (h & Hh & Hr). exists h. auto. Qed.
Lemma host_id_runs host db tx : (forall h, h ∈ rows (hosts db) -> h ∈ rows (hosts tx)) ->
(forall h, h ∈ rows (hosts tx) -> h ∈ rows (hosts db) \/ same_text (Hostname h) host = false) ->
exists id tx', host_id host (fun _ => None) db tx = inl (id, tx') /\ grp_hosts tx' = grp_hosts tx /\ named_host tx' host id
  /\ (forall h, h ∈ rows (hosts tx) -> h ∈ rows (hosts tx'))
  /\ (forall h, h ∈ rows (hosts tx') -> h ∈ rows (hosts tx) \/ Hostname h = host).
Proof.
intros Hsub Hnew. unfold host_id, Host_Existing. cbn. destruct (find _ (hosts db)) as [h|] eqn:E; cbn.
- apply find_row_Some in E as [Hh Hs]. exists (Host_ID h), tx. repeat split; auto. exists h. auto.
- unfold save_host. destruct (existsb _ _) eqn:Ex.
  + apply existsb_exists in Ex as (h & Hh%list_elem_of_In & Hs). destruct (Hnew h Hh) as [Hdb|Hno]; [|congruence].
    by rewrite (find_row_None _ _ E h Hdb) in Hs.
  + eexists _, _. split; [reflexivity|]. split; [done|]. cbn. repeat split.
    * eexists. split; [apply elem_of_app; right; by apply list_elem_of_singleton|]. split; [done|]. apply same_text_refl.
    * intros h Hh. apply elem_of_app. by left.
    * intros h. rewrite elem_of_app, list_elem_of_singleton. intros [Hh| ->]; auto.
Qed.
Lemma bind_loop_runs gid db names : ForallOrdPairs (fun a b => same_text a b = false) names -> forall tx,
(forall h, h ∈ rows (hosts db) -> h ∈ rows (hosts tx)) ->
(forall h, h ∈ rows (hosts tx) -> h ∈ rows (hosts db) \/ forall n, n ∈ names -> same_text (Hostname h) n = false) ->
exists tx' ids, bind_loop gid names (fun _ => None) db tx = inl tx' /\ grp_hosts tx' = grp_hosts tx ++ map (mkGrpHost gid) ids
  /\ Forall2 (named_host tx') names ids /\ (forall h, h ∈ rows (hosts tx) -> h ∈ rows (hosts tx')).
Proof.
induction 1 as [|host names Hhost Hnames IH]; intros tx Hsub Hnew.
{ exists tx, []. cbn. rewrite app_nil_r. repeat split; auto. }
destruct (host_id_runs host db tx Hsub) as (id & t & Hid & Hg & Hn & Hs & Hw).
{ intros h Hh. destruct (Hnew h Hh) as [|Hno]; [by left|right]. apply Hno. left. }
destruct (IH (bind_host gid id t)) as (tx' & ids & Hl & Hgh & Hf & Hs').
- intros h Hh. apply Hs, Hsub, Hh.
- intros h [Hh|Hh]%Hw; [destruct (Hnew h Hh) as [|Hno]; [by left|right; intros n Hn'; apply Hno; by right]|].
  right. intros n Hn'. rewrite Hh. rewrite List.Forall_forall in Hhost. apply Hhost. by apply list_elem_of_In.
- exists tx', (id :: ids). cbn [bind_loop]. rewrite Hid. split; [exact Hl|]. split; [|split].
  + rewrite Hgh. cbn. rewrite Hg, <-app_assoc. done.
  + constructor; [|done]. apply (named_host_mono t); [|done]. intros h Hh. apply Hs'. exact Hh.
  + intros h Hh. apply Hs', Hs, Hh.
Qed.
(** When no statement fails, an administrator or the creator of a group who binds hosts whose
  names differ makes the group hold exactly these hosts, one binding each in the order of
  the list, those that are new being registered; the other groups keep theirs. *)
Theorem BindHostToHostGroup_exact names gid user db g :
portal_ok db -> find (grp_is gid) (grps db) = Some g -> IsAdmin cfg user = true \/ HostGroup_CreateUser g = User_Name user ->
ForallOrdPairs (fun a b => same_text a b = false) names ->
exists db' ids, BindHostToHostGroup cfg (inl (names, gid)) user (fun _ => None) db = (inl tt, db')
  /\ group_host_ids gid db' = ids /\ Forall2 (named_host db') names ids /\ (forall k, k <> gid -> group_host_ids k db' = group_host_ids k db).
Proof.
intros Hok Hf Hr Hn. pose proof Hf as [Hg Hid]%find_row_Some. unfold grp_is in Hid. apply Z.eqb_eq in Hid.
set (tx0 := set_grp_hosts (delete_rows (of_grp gid) (grp_hosts db)) db).
destruct (bind_loop_runs gid db names Hn tx0) as (tx & ids & Hl & Hgh & Hnm & _); [by auto..|].
exists tx, ids. split; [|split; [|split; [done|]]].
- unfold BindHostToHostGroup, bind_lookup. rewrite Hf. cbn [fetch].
  assert (negb (IsAdmin cfg user) && negb (bool_decide (HostGroup_CreateUser g = User_Name user)) = false) as ->.
  { destruct Hr as [-> | ->]; [done|]. rewrite (bool_decide_eq_true_2 (User_Name user = User_Name user)) by done. apply andb_false_r. }
  unfold bind_transaction. rewrite Hid. cbn [shift].
  assert (Hl' : bind_loop gid names (shift 2 (shift 1 (fun _ => None))) db (set_grp_hosts (delete_rows (of_grp gid) (grp_hosts db)) db) = inl tx) by exact Hl.
  by rewrite Hl'.
- unfold group_host_ids. rewrite Hgh, filter_app, map_app.
  assert (List.filter (of_grp gid) (grp_hosts tx0) = []) as ->.
  { apply filter_deleted. }
  cbn. clear. induction ids as [|id ids IH]; [done|]. cbn. unfold of_grp at 1. cbn. rewrite Z.eqb_refl. cbn. by rewrite IH.
- intros k Hk. destruct (bind_loop_only _ _ _ _ _ _ Hl) as [_ Ho]. rewrite Ho by done.
  apply (unbind_only gid); [|done]. intros x Hx. unfold of_grp in Hx. lia.
Qed.
End PortalInvariant.

(** * Examples *)

#[local] Existing Instance binary_collation.
#[local] Instance match_all : GoRegexps := fun _ _ => Some true.
Definition asked (req : portal_request) (name sig : string) : portal_call := mkPortalCall req (Token name sig) 1000 (fun _ => None).
Definition root_asks (req : portal_request) : portal_call * UicDb := (asked req "root" "r1", office).
Definition cpu_high : strategy_input := mkStrategyInput "cpu.busy" "" 3 1 "all(#3)" ">" "80" "busy" "" "".
Definition cpu_rule : expression_input := mkExpressionInput "each(metric=cpu.busy)" "all(#3)" ">" "80" 3 1 "" 0 ["ops"; "dev"] (mkActionInput "" "" 0 0 0 0 0).
(** Two groups of root's with a host each and a template bound to the first. *)
Definition site : PortalDb :=
  portal_serve cfg_open (map root_asks
    [POST_hostgroup (inl "web"); POST_hostgroup (inl "db"); POST_hostgroup_host (inl (["w1"; "w2"], 1)); POST_hostgroup_host (inl (["d1"], 2));
     POST_template (inl ("linux", 0, 0)); POST_strategy (inl (cpu_high, 1)); POST_action (inl (mkActionInput "ops" "" 0 0 0 0 0, 1));
     POST_hostgroup_template (inl (1, 1)); POST_expression (inl cpu_rule)]) empty_portal.
Lemma site_ok : portal_ok site.
Proof. apply portal_serve_ok, empty_portal_ok. Qed.
Definition web : HostGroup := mkHostGroup 1 "web" "root" 1.
Definition after (req : portal_request) (name sig : string) : handled unit := portal_answer cfg_open (asked req name sig) office site.

Example site_rows : map HostGroup_Name (rows (grps site)) = ["web"; "db"] /\ map Hostname (rows (hosts site)) = ["w1"; "w2"; "d1"]
  /\ map (fun x => (GrpHost_GrpID x, GrpHost_HostID x)) (grp_hosts site) = [(1, 1); (1, 2); (2, 3)]
  /\ map ActionID (rows (tpls site)) = [1] /\ map (fun x => (GrpTpl_GrpID x, GrpTpl_TplID x)) (grp_tpls site) = [(1, 1)]
  /\ map UIC (rows (actions site)) = ["ops"; "ops,dev"].
Proof. vm_compute. done. Qed.
Lemma groups_protected_witness : group_kept web site (snd (portal_answer cfg_shipped (asked (DELETE_hostgroup "1") "bob" "b1") office site)).
Proof.
  apply (groups_protected cfg_shipped (asked (DELETE_hostgroup "1") "bob" "b1") office site web eq_refl site_ok).
  - apply (list_elem_of_lookup_2 _ 0). vm_compute. reflexivity.
  - intros a [[(name & sig & s & [= <- <-] & Ha & Hn & _)|name [_ [= _ E]] _ _]|(name & [_ [= _ E]] & _)]; [|discriminate E..]. apply list_elem_of_In in Ha.
    vm_compute in Ha. destruct Ha as [<-|[<-|[<-|[]]]]; vm_compute in Hn; try discriminate Hn. split; vm_compute; reflexivity.
Defined.
Example outsider_refused : fst (after (DELETE_hostgroup "1") "bob" "b1") = inr (400, no_permission).
Proof. vm_compute. reflexivity. Qed.

(** With the default token the caller is root by saying so. *)
Example default_token_deletes :
  map HostGroup_Name (rows (grps (snd (portal_answer cfg_shipped (asked (DELETE_hostgroup "1") "root" "default-token-used-in-server-side") office site)))) = ["db"].
Proof. vm_compute. reflexivity. Qed.
(** A group is renamed by anyone. *)
Example group_renamed : map HostGroup_Name (rows (grps (snd (after (PUT_hostgroup (inl (1, "bob-was-here"))) "bob" "b1")))) = ["bob-was-here"; "db"].
Proof. vm_compute. reflexivity. Qed.
(** A template of another user is deleted by anyone, with its strategies and action. *)
Example template_deleted : let db := snd (after (DELETE_template "1") "bob" "b1") in
  rows (tpls db) = [] /\ rows (strategies db) = [] /\ map Action_ID (rows (actions db)) = [2].
Proof. vm_compute. done. Qed.
(** The group is deleted between its look-up and the transaction that binds hosts to it: the
    new binding is of a group that is gone. *)
Example binding_left_dangling :
  match bind_lookup cfg_open 1 (default no_user (users office !! 0%nat)) None site with
  | inl g =>
      let db := snd (bind_transaction g ["w1"] (fun _ => None) (snd (after (DELETE_hostgroup "1") "root" "r1"))) in
      map HostGroup_ID (rows (grps db)) = [2] /\ map (fun x => (GrpHost_GrpID x, GrpHost_HostID x)) (grp_hosts db) = [(2, 3); (1, 1)]
  | inr _ => False
  end.
Proof. vm_compute. done. Qed.
(** Deleting a group leaves the bindings of its templates. *)
Example template_bindings_left : let db := snd (after (DELETE_hostgroup "1") "root" "r1") in
  map HostGroup_ID (rows (grps db)) = [2] /\ map GrpTpl_GrpID (grp_tpls db) = [1].
Proof. vm_compute. done. Qed.
(** A new host listed twice is a duplicate, and a known one added twice is bound twice. *)
Example listed_twice : fst (after (POST_hostgroup_host (inl (["w9"; "w9"], 1))) "root" "r1") = inr (417, duplicate)
  /\ group_host_ids 2 (snd (after (PATCH_hostgroup_host "2" (inl ("add", ["w1"; "w1"]))) "root" "r1")) = [3; 1; 1].
Proof. vm_compute. done. Qed.
(** A removal that fails half-way is not undone. *)
Example removed_in_part :
  let flt n := match n with 7%nat => Some "gone" | _ => None end in
  let '(r, db) := portal_answer cfg_open (mkPortalCall (PATCH_hostgroup_host "1" (inl ("remove", ["w1"; "w2"]))) (Token "root" "r1") 1000 flt) office site in
  r = inr (417, "gone") /\ group_host_ids 1 db = [2].
Proof. vm_compute. done. Qed.
(** An administrator who deletes an expression leaves its action. *)
Example action_left : let db := snd (after (DELETE_expression "1") "root" "r1") in rows (expressions db) = [] /\ map Action_ID (rows (actions db)) = [1; 2].
Proof. vm_compute. done. Qed.
(** Bindings of templates and groups that are not there are accepted. *)
Example dangling_binding : map (fun x => (GrpTpl_GrpID x, GrpTpl_TplID x)) (grp_tpls (snd (after (POST_hostgroup_template (inl (77, 99))) "bob" "b1"))) = [(1, 1); (99, 77)].
Proof. vm_compute. reflexivity. Qed.
(** The formats let through an operator the judge does not know, and hours that are none. *)
Example formats_loose : strategy_CheckFormat (mkStrategyInput "cpu.busy" "" 3 1 "nonsense" "!" "80" "" "99:99" "24:61") = None
  /\ strategy_CheckFormat (mkStrategyInput "cpu.busy" "" 3 1 "all(#3)" "=>" "80" "" "" "") = Some "op's formating is not vaild"
  /\ strategy_CheckFormat (mkStrategyInput "cpu.busy" "" 3 1 "all(#3)" ">=" "8.x" "" "" "") = Some "right_value's formating is not vaild".
Proof. vm_compute. done. Qed.
