(* ===== verification/ApiAlarm.v ===== *)
(** modules/api, controller/alarm and model/alarm: the lists of cases, events and notes, and
    the notes users write on a case, on the tables that modules/alarm fills. Every statement
    can fail; the handlers that list do not look at it. *)
From Stdlib Require Import Ascii ZArith.
From stdpp Require Import base list gmap strings numbers sorting.
From S2P Require Import Prelude GoString GoFloat Model Alarm ApiUic ApiTable.

Local Open Scope Z_scope.

(** [ORDER BY ... DESC]: the rows with the same value are in some order, the same one every
    time. *)
Class SqlOrder := {
  order_desc : forall {A : Type}, (A -> Z) -> list A -> list A;
  order_desc_perm : forall {A : Type} (key : A -> Z) l, order_desc key l ≡ₚ l;
  order_desc_sorted : forall {A : Type} (key : A -> Z) l, StronglySorted (fun x y => key y <= key x) (order_desc key l) }.

(** * model/alarm *)

Record EventNote := mkEventNote {
  Note_ID : Z; Note_EventCaseId : string; Note_Note : string; Note_CaseId : string; Note_Status : string; Note_Timestamp : Z; Note_UserId : Z }.

(** The database of alarms: what modules/alarm writes, and the notes. *)
Record CaseDb := mkCaseDb { alarms : AlarmState; notes : table EventNote }.

Section ApiAlarm.
Context `{Collation, SqlOrder}.
Implicit Types (db : CaseDb) (uic : UicDb) (flt : faults) (err : option string).

Definition cases db : list (string * EventCase) := map_to_list (EventCases (alarms db)).

Definition GetUserName (n : EventNote) err uic : string :=
  match read err (find_row (fun u => (Note_UserId n =? 0) || has_id (Note_UserId n) u) (users uic)) with
  | Some u => ApiUic.User_Name u
  | None => ""
  end.
(** Without a number there is no condition. *)
Definition GetEvents (case_id : string) err db : list EventRow :=
  match err with
  | Some _ => []
  | None => List.filter (fun r => bool_decide (case_id = "") || same_text (Row_CaseId r) case_id) (EventRows (alarms db))
  end.

(** * The conditions *)

(** [timestamp >= FROM_UNIXTIME(t)] and [<=]: NULL for a time that is no timestamp, and then
    no row; 0 is no condition. *)
Definition is_timestamp (t : Z) : bool := (0 <=? t) && (t <=? 2147483647).
Definition since (start t : Z) : bool := (start =? 0) || is_timestamp start && (start <=? t).
Definition until (end_ t : Z) : bool := (end_ =? 0) || is_timestamp end_ && (t <=? end_).
(** [column in (?)] with the texts of a list; an empty text is no condition. *)
Definition one_of (texts column : string) : bool := bool_decide (texts = "") || existsb (same_text column) (strings_Split texts ",").
Definition text_is (text column : string) : bool := bool_decide (text = "") || same_text column text.

(** [Offset] and [Limit]: a negative offset is none. *)
Definition window {A : Type} (offset limit : Z) (l : list A) : list A := take (Z.to_nat limit) (drop (Z.to_nat offset) l).

(** * controller/alarm/alarm_events_controller.go *)

Record APIGetAlarmListsInputs := mkAlarmListsInputs {
  al_StartTime : Z; al_EndTime : Z; al_Priority : Z; al_Status : string; al_ProcessStatus : string; al_Metrics : string; al_EventId : string;
  al_Limit : Z; al_Page : Z; al_Endpoints : option (list string); al_StrategyId : Z; al_TemplateId : Z }.
Definition alarm_checkInputsContain (i : APIGetAlarmListsInputs) : option string :=
  if (al_StartTime i =? 0) && (al_EndTime i =? 0) && bool_decide (al_EventId i = "") && bool_decide (al_Endpoints i = None)
     && (al_StrategyId i =? 0) && (al_TemplateId i =? 0)
  then Some "startTime, endTime, event_id, endpoints, strategy_id or template_id, You have to at least pick one on the request."
  else None.
Definition alarm_filters (i : APIGetAlarmListsInputs) (row : string * EventCase) : bool :=
  let '(id, c) := row in
  since (al_StartTime i) (Case_Timestamp c) && until (al_EndTime i) (Case_Timestamp c)
  && ((al_Priority i =? -1) || (Case_Priority c =? al_Priority i))
  && one_of (al_Status i) (Case_Status c) && one_of (al_ProcessStatus i) (Case_ProcessStatus c)
  && (bool_decide (al_Metrics i = "") || db_regexp (Case_Metric c) (al_Metrics i))
  && text_is (al_EventId i) id
  && match al_Endpoints i with None | Some [] => true | Some es => existsb (same_text (Case_Endpoint c)) es end
  && ((al_StrategyId i =? 0) || (Case_StrategyId c =? al_StrategyId i))
  && ((al_TemplateId i =? 0) || (Case_TemplateId c =? al_TemplateId i)).
(** The offset and the limit of a page. *)
Definition alarm_page (page limit : Z) : (Z * Z) + string :=
  if (page =? -1) && (limit =? -1) then inl (0, 2000)
  else if limit =? -1 then inr "You set page but skip limit params, please check your input"
  else if (if page =? -1 then limit <=? 0 else (page <=? 0) || (limit <=? 0)) then inr "limit or page can not set to 0 or less than 0"
  else
    let page := if page =? -1 then 1 else page in
    let limit := if 50 <=? limit then 50 else limit in
    inl (i64 ((page - 1) * limit), limit).
Definition AlarmLists (input : APIGetAlarmListsInputs + string) err db : list (string * EventCase) + (Z * string) :=
  match input with
  | inr e => inr (badstatus, e)
  | inl i =>
      match alarm_checkInputsContain i, alarm_page (al_Page i) (al_Limit i) with
      | Some e, _ | None, inr e => inr (badstatus, e)
      | None, inl (offset, limit) =>
          inl (match err with
               | Some _ => []
               | None => window offset limit (order_desc (fun row => Case_Timestamp row.2) (List.filter (alarm_filters i) (cases db)))
               end)
      end
  end.

Record APIEventsGetInputs := mkEventsGetInputs {
  ev_StartTime : Z; ev_EndTime : Z; ev_Status : Z; ev_EventId : string; ev_Limit : Z; ev_Page : Z }.
Definition event_filters (i : APIEventsGetInputs) (r : EventRow) : bool :=
  since (ev_StartTime i) (Row_Timestamp r) && until (ev_EndTime i) (Row_Timestamp r) && text_is (ev_EventId i) (Row_CaseId r)
  && (negb ((ev_Status i =? 0) || (ev_Status i =? 1)) || (Row_Status r =? ev_Status i)).
(** The page of events and of notes; the first one is 1, and 0 is the same. *)
Definition page_of (page limit : Z) : Z * Z :=
  let limit := if (limit <=? 0) || (50 <=? limit) then 50 else limit in (i64 (i64 (page - 1) * limit), limit).
Definition EventsGet (input : APIEventsGetInputs + string) err db : list EventRow + (Z * string) :=
  match input with
  | inr e => inr (badstatus, e)
  | inl i =>
      let '(offset, limit) := page_of (ev_Page i) (ev_Limit i) in
      inl (match err with
           | Some _ => []
           | None => window offset limit (order_desc Row_Timestamp (List.filter (event_filters i) (EventRows (alarms db))))
           end)
  end.

(** * controller/alarm/alarm_notes_controller.go *)

Record APIGetNotesOfAlarmInputs := mkGetNotesInputs {
  gn_StartTime : Z; gn_EndTime : Z; gn_EventId : string; gn_Status : string; gn_Limit : Z; gn_Page : Z }.
Definition notes_checkInputsContain (i : APIGetNotesOfAlarmInputs) : option string :=
  if (gn_StartTime i =? 0) && (gn_EndTime i =? 0) && bool_decide (gn_EventId i = "")
  then Some "startTime, endTime OR event_id, You have to at least pick one on the request."
  else None.
Definition note_filters (i : APIGetNotesOfAlarmInputs) (n : EventNote) : bool :=
  since (gn_StartTime i) (Note_Timestamp n) && until (gn_EndTime i) (Note_Timestamp n) && text_is (gn_Status i) (Note_Status n) && text_is (gn_EventId i) (Note_EventCaseId n).
Record APIGetNotesOfAlarmOuput := mkNotesOutput {
  out_EventCaseId : string; out_Note : string; out_CaseId : string; out_Status : string; out_Timestamp : Z; out_UserName : string }.
(** The name of its author is asked for each note. *)
Fixpoint notes_output (l : list EventNote) flt uic : list APIGetNotesOfAlarmOuput :=
  match l with
  | [] => []
  | n :: l => mkNotesOutput (Note_EventCaseId n) (Note_Note n) (Note_CaseId n) (Note_Status n) (Note_Timestamp n) (GetUserName n (flt 0%nat) uic)
              :: notes_output l (shift 1 flt) uic
  end.
Definition GetNotesOfAlarm (input : APIGetNotesOfAlarmInputs + string) flt uic db : list APIGetNotesOfAlarmOuput + (Z * string) :=
  match input with
  | inr e => inr (badstatus, "binding input got error: " +:+ e)
  | inl i =>
      match notes_checkInputsContain i with
      | Some e => inr (badstatus, e)
      | None =>
          let '(offset, limit) := page_of (gn_Page i) (gn_Limit i) in
          let found := match flt 0%nat with
                       | Some _ => []
                       | None => window offset limit (order_desc Note_Timestamp (List.filter (note_filters i) (rows (notes db))))
                       end in
          inl (notes_output found (shift 1 flt) uic)
      end
  end.

Record APIAddNotesToAlarmInputs := mkAddNotesInputs { an_EventId : string; an_Note : string; an_Status : string; an_CaseId : string }.
Definition CheckingFormating (i : APIAddNotesToAlarmInputs) : option string :=
  if bool_decide (an_Status i ∈ ["in progress"; "unresolved"; "resolved"; "ignored"; "comment"]) then None
  else Some "params status: only accepect [in progress, unresolved, resolved, ignored, comment]".
Definition foreign_key : string := "Error 1452: Cannot add or update a child row".
Definition set_process (status : string) (note : Z) (c : EventCase) : EventCase :=
  mkEventCase (Case_Endpoint c) (Case_Metric c) (Case_Func c) (Case_Cond c) (Case_Note c) (Case_MaxStep c) (Case_CurrentStep c) (Case_Priority c) (Case_Status c)
    (Case_Timestamp c) (Case_UpdateAt c) status note (Case_TplCreator c) (Case_ExpressionId c) (Case_StrategyId c) (Case_TemplateId c).
(** [update event_cases ... where id = ?], which moves the start of the case as every
    update that does not set it. *)
Definition process_cases (case_id status : string) (note now : Z) (st : AlarmState) : AlarmState :=
  set_Cases (map_imap (fun id c => Some (if same_text id case_id then on_update now c (set_process status note c) else c)) (EventCases st)) st.
(** A note needs its case and its author (foreign keys). *)
Definition AddNotesToAlarm (input : APIAddNotesToAlarmInputs + string) (now : Z) (user : ApiUic.User) flt uic db : (string + (Z * string)) * CaseDb :=
  match input with
  | inr e => (inr (badstatus, e), db)
  | inl i =>
      match CheckingFormating i, flt 0%nat with
      | Some e, _ | None, Some e => (inr (badstatus, e), db)
      | None, None =>
          if negb (existsb (fun row => same_text row.1 (an_EventId i)) (cases db) && existsb (has_id (ApiUic.User_ID user)) (users uic))
          then (inr (badstatus, foreign_key), db)
          else
            let note := seq (notes db) + 1 in
            let tx := insert_row (fun id => mkEventNote id (an_EventId i) (an_Note i) (an_CaseId i) (an_Status i) now (ApiUic.User_ID user)) (notes db) in
            match (if bool_decide (an_Status i = "comment") then None else flt 1%nat), flt 2%nat with
            | Some e, _ => (inr (badstatus, "update got error during update event_cases:" +:+ e), db)
            | None, Some _ => (inl (an_EventId i), db)
            | None, None =>
                (inl (an_EventId i),
                 mkCaseDb (if bool_decide (an_Status i = "comment") then alarms db else process_cases (an_EventId i) (an_Status i) note now (alarms db)) tx)
            end
      end
  end.
End ApiAlarm.

(** * Pages *)

Section Pages.
Context {A : Type}.
Implicit Types (l : list A).
Lemma window_length offset limit l : 0 <= limit -> Z.of_nat (length (window offset limit l)) <= limit.
Proof. intros Hl. unfold window. rewrite length_take. lia. Qed.
Lemma windows_concat k l n : concat (map (fun p => window (Z.of_nat p * Z.of_nat k) (Z.of_nat k) l) (List.seq 0 n)) = take (n * k) l.
Proof.
  induction n as [|n IH]; [done|]. rewrite List.seq_S, map_app, concat_app, IH. cbn. rewrite app_nil_r. unfold window.
  rewrite <-Nat2Z.inj_mul, !Nat2Z.id, take_take_drop. f_equal. lia.
Qed.
End Pages.

Definition with_page (page : Z) (i : APIGetAlarmListsInputs) : APIGetAlarmListsInputs :=
  mkAlarmListsInputs (al_StartTime i) (al_EndTime i) (al_Priority i) (al_Status i) (al_ProcessStatus i) (al_Metrics i) (al_EventId i)
    (al_Limit i) page (al_Endpoints i) (al_StrategyId i) (al_TemplateId i).

Section Theorems.
Context `{Collation, SqlOrder}.
Implicit Types (db : CaseDb) (uic : UicDb) (flt : faults) (id : string) (c : EventCase).

Lemma alarm_page_at page limit : 1 <= page -> 0 < limit -> page * Z.min limit 50 <= int64_max ->
  alarm_page page limit = inl ((page - 1) * Z.min limit 50, Z.min limit 50).
Proof.
  intros Hp Hl Hm. unfold alarm_page. unfold int64_max in Hm.
  assert ((page =? -1) = false) as -> by lia. assert ((limit =? -1) = false) as -> by lia. cbn [andb].
  assert ((page <=? 0) = false) as -> by lia. assert ((limit <=? 0) = false) as -> by lia. cbn [orb].
  assert ((if 50 <=? limit then 50 else limit) = Z.min limit 50) as -> by (destruct (50 <=? limit) eqn:E; lia).
  rewrite i64_id; [done|]. unfold is_int64, int64_min, int64_max. nia.
Qed.

(** The pages of the list of cases, put together, are the cases that match, the latest
    first: with a limit of at most 50 a page, the first n pages are exactly the first
    n times that many, so that no case is listed twice or left out. *)
Theorem AlarmLists_pages i db n : alarm_checkInputsContain i = None -> 0 < al_Limit i -> Z.of_nat n * Z.min (al_Limit i) 50 <= int64_max ->
  exists found pages, found ≡ₚ List.filter (alarm_filters i) (cases db)
    /\ StronglySorted (fun x y => Case_Timestamp y.2 <= Case_Timestamp x.2) found
    /\ map (fun p => AlarmLists (inl (with_page (Z.of_nat p) i)) None db) (List.seq 1 n) = map inl pages
    /\ concat pages = take (n * Z.to_nat (Z.min (al_Limit i) 50)) found.
Proof.
  intros Hc Hl Hm. set (k := Z.to_nat (Z.min (al_Limit i) 50)). assert (Hk : Z.min (al_Limit i) 50 = Z.of_nat k) by lia.
  set (found := order_desc (fun row : string * EventCase => Case_Timestamp row.2) (List.filter (alarm_filters i) (cases db))).
  exists found, (map (fun p => window (Z.of_nat p * Z.of_nat k) (Z.of_nat k) found) (List.seq 0 n)).
  split; [apply order_desc_perm|]. split; [apply (order_desc_sorted (fun row : string * EventCase => Case_Timestamp row.2))|].
  split; [|apply windows_concat]. rewrite <-List.seq_shift, !map_map. apply map_ext_in. intros p [_ Hp]%in_seq.
  unfold AlarmLists. change (alarm_checkInputsContain (with_page _ i)) with (alarm_checkInputsContain i). rewrite Hc.
  cbn [al_Page al_Limit with_page]. rewrite alarm_page_at by nia. rewrite Hk. repeat f_equal. nia.
Qed.

(** * Notes and events *)

(** What happens to the database: modules/alarm selects the case of an event, or writes
    what it decided from a select it did before, or drops old events; a user writes a note,
    which is one transaction; or a user is deleted, and the notes of that user with it. *)
Inductive case_op :=
  | Op_select (f : db_faults) (e : Event)
  | Op_write (k : nat)
  | Op_older (before : Z) (limit : nat)
  | Op_note (i : APIAddNotesToAlarmInputs) (now : Z) (user : ApiUic.User) (flt : faults) (uic : UicDb)
  | Op_user_deleted (uid : Z).
(** An event modules/alarm is handling: what its select saw, and whether it was written. *)
Record handling := mkHandling { h_faults : db_faults; h_event : Event; h_seen : option EventCase; h_written : bool }.
(** The database, and the events whose handling began, in that order. *)
Record Desk := mkDesk { desk_db : CaseDb; handlings : list handling }.
Implicit Types (d : Desk) (h : handling).
Definition set_db db d : Desk := mkDesk db (handlings d).
Definition case_step (op : case_op) d : result Desk :=
  let db := desk_db d in
  match op with
  | Op_select f e => Ok (mkDesk db (handlings d ++ [mkHandling f e (select_case f e (alarms db)) false]))
  | Op_write k =>
      match handlings d !! k with
      | Some (mkHandling f e seen false) =>
          let! st := write_case f seen e (alarms db) in
          let! st := insertEvent f e st in
          Ok (mkDesk (mkCaseDb st (notes db)) (<[k := mkHandling f e seen true]> (handlings d)))
      | _ => Ok d
      end
  | Op_older before limit => Ok (set_db (mkCaseDb (DeleteEventOlder before limit (alarms db)) (notes db)) d)
  | Op_note i now user flt uic => Ok (set_db (snd (AddNotesToAlarm (inl i) now user flt uic db)) d)
  | Op_user_deleted uid => Ok (set_db (mkCaseDb (alarms db) (delete_where (fun n => Note_UserId n =? uid) (notes db))) d)
  end.
Fixpoint case_run (ops : list case_op) d : result Desk :=
  match ops with
  | [] => Ok d
  | op :: ops => let! d := case_step op d in case_run ops d
  end.
Definition no_cases : CaseDb := mkCaseDb (mkAlarmState ∅ ∅ [] [] [] [] [] [] ∅ []) no_rows.
Definition no_desk : Desk := mkDesk no_cases [].
(** The case of an id. *)
Definition case_of id d : option EventCase := EventCases (alarms (desk_db d)) !! id.

(** With nothing between the select and the statements after it, this is [InsertEvent]. *)
Lemma InsertEvent_steps f e d :
  (let! d := case_step (Op_select f e) d in case_step (Op_write (length (handlings d) - 1)) d) =
  let! st := InsertEvent f e (alarms (desk_db d)) in
  Ok (mkDesk (mkCaseDb st (notes (desk_db d))) (handlings d ++ [mkHandling f e (select_case f e (alarms (desk_db d))) true])).
Proof using Type.
  clear. cbn [case_step rbind handlings desk_db]. rewrite length_app. cbn [length]. replace (length (handlings d) + 1 - 1)%nat with (length (handlings d)) by lia.
  rewrite list_lookup_middle by done. unfold InsertEvent. destruct (write_case _ _ _ _) as [st|]; [|done]. cbn [rbind].
  destruct (insertEvent f e st); [|done]. cbn [rbind]. by rewrite insert_app_r_alt, Nat.sub_diag by lia.
Qed.

Lemma case_run_snoc ops op d d' : case_run (ops ++ [op]) d = Ok d' -> exists d1, case_run ops d = Ok d1 /\ case_step op d1 = Ok d'.
Proof.
  revert d. induction ops as [|o ops IH]; intros d; cbn [app case_run].
  - destruct (case_step op d) as [d0|] eqn:E; cbn; [|done]. intros [= <-]. by exists d.
  - destruct (case_step o d) as [d0|]; cbn; [|done]. apply IH.
Qed.

Definition process c : string * Z := (Case_ProcessStatus c, Case_ProcessNote c).
Definition closed c : Prop := Case_ProcessStatus c = "resolved" \/ Case_ProcessStatus c = "ignored".
(** An event of the case whose statements are executed. *)
Definition raises (id : string) h : Prop := Event_Id (h_event h) = id /\ select_ok (h_faults h) = true /\ case_ok (h_faults h) = true.
(** A note that sets the state of the case, as the number [k]. *)
Definition decides (id : string) (p : string * Z) (op : case_op) db : Prop :=
  match op with
  | Op_note i now user flt uic =>
      same_text id (an_EventId i) = true /\ p.1 = an_Status i /\ p.1 <> "comment" /\ p.2 = seq (notes db) + 1
      /\ fst (AddNotesToAlarm (inl i) now user flt uic db) = inl (an_EventId i)
  | _ => False
  end.

Lemma insertEvent_cases f e st st' : insertEvent f e st = Ok st' -> EventCases st' = EventCases st.
Proof. unfold insertEvent. destruct (event_cond e); cbn; [|done]. intros [= <-]. by destruct (_ && _). Qed.
(** What a write leaves of the state of a case, which depends on what the select saw. *)
Lemma write_process f seen e st st' id c' : write_case f seen e st = Ok st' -> EventCases st' !! id = Some c' ->
  process c' = ("unresolved", 0) \/ exists c, EventCases st !! id = Some c /\ process c' = process c
    /\ (Event_Id e = id -> case_ok f = true -> forall s, seen = Some s -> ~ closed s).
Proof.
  unfold write_case. destruct (Event_Metric e), (Event_Func e), (event_cond e), (Event_Note e), (Event_MaxStep e), (Event_Priority e), (Event_TplId e); cbn [rbind]; try done.
  intros [= <-]. destruct (case_ok f) eqn:Ef; cbn [negb]; [|intros Hc; right; exists c'; intuition congruence].
  destruct seen as [s|], (EventCases st !! Event_Id e) as [c|] eqn:Ec.
  - cbn. destruct (decide (Event_Id e = id)) as [E0|Hne]; [subst id; rewrite lookup_insert_eq|rewrite lookup_insert_ne by done].
    + intros [= <-]. unfold on_update, closed.
      match goal with |- context [if _ =? 1 then ?a else ?b] => assert (process (if Event_CurrentStep e =? 1 then a else b) = process a) as -> by
        (destruct (_ =? 1); [done|]; by case_bool_decide) end.
      unfold process. cbn. repeat case_bool_decide; cbn; [by left..|]. right. exists c. split; [done|]. split; [done|]. by intros _ _ s' [= <-] [?|?].
    + intros Hc. right. exists c'. intuition congruence.
  - intros Hc. right. exists c'. split; [done|]. split; [done|]. intros <-. congruence.
  - intros Hc. right. exists c'. split; [done|]. split; [done|]. done.
  - cbn. destruct (decide (Event_Id e = id)) as [E0|Hne]; [subst id; rewrite lookup_insert_eq|rewrite lookup_insert_ne by done].
    + intros [= <-]. by left.
    + intros Hc. right. exists c'. intuition congruence.
Qed.
Lemma process_cases_lookup case_id status note now st id c' : EventCases (process_cases case_id status note now st) !! id = Some c' ->
  exists c, EventCases st !! id = Some c /\ process c' = if same_text id case_id then (status, note) else process c.
Proof.
  cbn. rewrite map_lookup_imap. destruct (EventCases st !! id) as [c|]; cbn; [|done]. intros [= <-]. exists c. split; [done|].
  destruct (same_text id case_id); [|done]. unfold on_update. by case_bool_decide.
Qed.
Lemma note_process i now user flt uic db id c' :
  EventCases (alarms (snd (AddNotesToAlarm (inl i) now user flt uic db))) !! id = Some c' ->
  decides id (process c') (Op_note i now user flt uic) db \/ exists c, EventCases (alarms db) !! id = Some c /\ process c' = process c.
Proof.
  unfold decides. unfold AddNotesToAlarm. destruct (CheckingFormating i); [eauto|]. destruct (flt 0%nat); [eauto|]. destruct (negb _); [eauto|]. cbv zeta.
  destruct (bool_decide (an_Status i = "comment")) eqn:Eb.
  - destruct (flt 2%nat); cbn [snd alarms]; eauto.
  - destruct (flt 1%nat); [eauto|]. destruct (flt 2%nat); [eauto|]. cbn [snd alarms fst].
    intros (c & Hc & Hp)%process_cases_lookup. destruct (same_text id (an_EventId i)) eqn:Es; [left|eauto].
    apply bool_decide_eq_false in Eb. by rewrite Hp.
Qed.
(** The part of a handling that a step can have changed: its select has just been done, or
    it has just been written, from a select that did not see the case closed. *)
Definition handled (id : string) (c : EventCase) d h (k : nat) : Prop :=
  handlings d !! k = Some h
  \/ handlings d !! k = None /\ h_written h = false /\ h_seen h = Some c
  \/ exists h0, handlings d !! k = Some h0 /\ raises id h0 /\ forall s, h_seen h0 = Some s -> ~ closed s.
Lemma step_process op d d' id c' : case_step op d = Ok d' -> case_of id d' = Some c' ->
  process c' = ("unresolved", 0) \/ (decides id (process c') op (desk_db d) /\ handlings d' = handlings d)
  \/ exists c, case_of id d = Some c /\ process c' = process c /\
       forall k h, handlings d' !! k = Some h -> raises id h -> handled id c d h k.
Proof.
  unfold case_of, handled. destruct op as [f e|k|before limit|i now user flt uic|uid]; cbn [case_step].
  - intros [= <-] Hc. cbn [desk_db] in Hc. right. right. exists c'. split; [done|]. split; [done|]. cbn [handlings]. intros k h [Hk|[Hk Hl]]%lookup_app_Some (Hid & Hs & _); [by left|].
    right. left. split; [by apply lookup_ge_None_2|]. apply list_lookup_singleton_Some in Hl as [_ <-]. split; [done|]. cbn in *. unfold select_case. rewrite Hs. by subst id.
  - destruct (handlings d !! k) as [[f e seen [|]]|] eqn:Ek; [intros [= <-] Hc; right; right; exists c'; by eauto| |intros [= <-] Hc; right; right; exists c'; by eauto].
    destruct (write_case _ _ _ _) as [st|] eqn:E; cbn [rbind]; [|done]. destruct (insertEvent f e st) as [st2|] eqn:E2; cbn [rbind]; [|done].
    intros [= <-]. cbn [desk_db alarms handlings]. rewrite (insertEvent_cases _ _ _ _ E2). intros Hc.
    destruct (write_process _ _ _ _ _ _ _ E Hc) as [?|(c & Hc0 & Hp & Hs)]; [by left|]. right. right. exists c. split; [done|]. split; [done|].
    intros j h. destruct (decide (j = k)) as [->|Hne]; [|rewrite list_lookup_insert_ne by done; by left].
    rewrite list_lookup_insert_eq by (by eapply lookup_lt_Some). intros [= <-] (Hid & Hse & Hco). right. right. eexists. split; [done|]. split; [done|].
    cbn in *. auto.
  - intros [= <-] Hc. right. right. exists c'. by eauto.
  - intros [= <-] Hc. destruct (note_process _ _ _ _ _ _ _ _ Hc) as [?|(c & ? & ?)]; [by auto|]. right. right. exists c. by eauto.
  - intros [= <-] Hc. right. right. exists c'. by eauto.
Qed.

(** While a case is closed, what was selected since has seen it closed and is not written. *)
Definition since_closed (id : string) (n : nat) d : Prop :=
  forall k h, handlings d !! k = Some h -> (n <= k)%nat -> raises id h -> h_written h = false /\ exists s, h_seen h = Some s /\ closed s.
Lemma since_closed_step id n c d d' : closed c -> since_closed id n d ->
  (forall k h, handlings d' !! k = Some h -> raises id h -> handled id c d h k) -> since_closed id n d'.
Proof.
  intros Hcl Hs Hstep k h Hk Hn Hr. destruct (Hstep k h Hk Hr) as [Hold|[(_ & Hw & Hseen)|(h0 & Hh0 & Hr0 & Hno)]].
  - by apply (Hs k).
  - split; [done|]. by exists c.
  - destruct (Hs k h0 Hh0 Hn Hr0) as (_ & s & Es & Hcs). by destruct (Hno s Es).
Qed.
Lemma process_closed c c' : process c' = process c -> closed c' -> closed c.
Proof. unfold process, closed. by intros [= <- _]. Qed.

(** C34. Events and notes arrive in any order, and modules/alarm does not hold the row
    between selecting a case and writing it, so that notes and other events come in
    between; statements may fail. Then a case is always unresolved without a note, or its
    state is what an accepted note on it says, with that note's number; and while a case
    shows as resolved or ignored, every event that was selected and written to it had its
    case selected before that note: an alarm whose handling begins after the note opens the
    case again, while one that was on its way is written and leaves it closed. *)
Theorem case_reopened ops d id c : case_run ops no_desk = Ok d -> case_of id d = Some c ->
  process c = ("unresolved", 0)
  \/ exists pre op post d1, ops = pre ++ op :: post /\ case_run pre no_desk = Ok d1 /\ decides id (process c) op (desk_db d1)
       /\ (closed c -> forall k h, handlings d !! k = Some h -> raises id h -> h_written h = true -> (k < length (handlings d1))%nat).
Proof.
  intros Hr Hc. enough (process c = ("unresolved", 0) \/ exists pre op post d1, ops = pre ++ op :: post /\ case_run pre no_desk = Ok d1
    /\ decides id (process c) op (desk_db d1) /\ (closed c -> since_closed id (length (handlings d1)) d)) as [?|(pre & op & post & d1 & ? & ? & ? & Hs)].
  { by left. }
  { right. exists pre, op, post, d1. repeat (split; [done|]). intros Hcl k h Hk Hra Hw. destruct (Nat.lt_ge_cases k (length (handlings d1))) as [|Hge]; [done|].
    destruct (Hs Hcl k h Hk Hge Hra) as [? _]. congruence. }
  revert d c Hr Hc. induction ops as [|op ops IH] using rev_ind; intros d c.
  { intros [= <-]. unfold case_of. cbn. by rewrite lookup_empty. }
  intros (d0 & Hr & Hs)%case_run_snoc Hc. destruct (step_process _ _ _ _ _ Hs Hc) as [?|[[Hd Hh]|(c1 & Hc1 & Hp & Hn)]]; [by left|right|].
  - exists ops, op, [], d0. repeat (split; [done|]). intros _ k h Hk Hge. rewrite Hh in Hk. apply lookup_lt_Some in Hk. lia.
  - destruct (IH d0 c1 Hr Hc1) as [?|(pre & o & post & d1 & -> & Hd & Ho & Hpost)]; [left; congruence|right].
    exists pre, o, (post ++ [op]), d1. rewrite <-app_assoc. rewrite Hp. repeat (split; [done|]). intros Hcl%(process_closed c1 c Hp).
    by apply (since_closed_step id _ c1 d0 d Hcl (Hpost Hcl)).
Qed.
End Theorems.

(** * Examples *)

#[local] Instance key_le_dec {A : Type} (key : A -> Z) : RelDecision (fun x y : A => key y <= key x) := fun x y => decide (key y <= key x).
Definition newest_first : SqlOrder.
Proof.
  refine {| order_desc := fun A key => merge_sort (fun x y : A => key y <= key x) |}.
  - intros A key l. apply merge_sort_Permutation.
  - intros A key l. apply StronglySorted_merge_sort; [intros x y z; lia|intros x y; lia].
Defined.
#[local] Existing Instances binary_collation newest_first.
Definition bob : ApiUic.User := default no_user (users office !! 2%nat).
Definition writes (status text : string) : case_op := Op_note (mkAddNotesInputs "s_9_x" text status "") 150 bob (fun _ => None) office.
(** An event that is stored at once, as the [n]th one. *)
Definition sees (step time : Z) : case_op := Op_select (db_works (time + 5)) (alarm_event "PROBLEM" step time).
Definition raised (n : nat) (step time : Z) : list case_op := [sees step time; Op_write n].
(** Raised, talked about, and resolved. *)
Definition worked_on : list case_op := raised 0 1 100 ++ [writes "in progress" "looking"; writes "comment" "it was the disk"; writes "resolved" "replaced"].
Definition desk (ops : list case_op) : Desk := match case_run ops no_desk with Ok d => d | _ => no_desk end.
Definition state_of (ops : list case_op) : option (string * Z) := process <$> case_of "s_9_x" (desk ops).

Example resolved : state_of worked_on = Some ("resolved", 3) /\ map Note_Status (rows (notes (desk_db (desk worked_on)))) = ["in progress"; "comment"; "resolved"].
Proof. vm_compute. done. Qed.
Example opened_again : state_of (worked_on ++ raised 1 2 400) = Some ("unresolved", 0).
Proof. vm_compute. reflexivity. Qed.
(** The repeated alarm selects the case before it is resolved and writes it afterwards: it
    is stored, and the case stays resolved. *)
Definition overtaken : list case_op := raised 0 1 100 ++ [sees 2 160; writes "resolved" "replaced"; Op_write 1].
Example alarm_under_resolved : state_of overtaken = Some ("resolved", 1)
  /\ (Case_CurrentStep <$> case_of "s_9_x" (desk overtaken)) = Some 2 /\ length (EventRows (alarms (desk_db (desk overtaken)))) = 2%nat.
Proof. vm_compute. done. Qed.
Lemma case_reopened_witness : exists d c, case_run overtaken no_desk = Ok d /\ case_of "s_9_x" d = Some c /\ closed c
  /\ exists pre op post d1, overtaken = pre ++ op :: post /\ case_run pre no_desk = Ok d1 /\ decides "s_9_x" (process c) op (desk_db d1)
     /\ forall k h, handlings d !! k = Some h -> raises "s_9_x" h -> h_written h = true -> (k < length (handlings d1))%nat.
Proof.
  eexists _, _. split; [vm_compute; reflexivity|]. split; [vm_compute; reflexivity|]. split; [vm_compute; by left|].
  edestruct (case_reopened overtaken) with (id := "s_9_x") as [E|(pre & op & post & d1 & ? & ? & ? & Hp)]; [vm_compute; reflexivity|vm_compute; reflexivity|vm_compute in E; discriminate E|].
  exists pre, op, post, d1. do 3 (split; [assumption|]). apply Hp. vm_compute. by left.
Defined.

(** Three alarms, two to a page. *)
Definition queue : CaseDb :=
  mkCaseDb (set_Cases (list_to_map (imap (fun k t => (String (ascii_of_nat (97 + k)) "", mkEventCase "h" "cpu" "" (f64_zero, "", f64_zero) "" 3 1 0 "PROBLEM" t t "unresolved" 0 "" 0 7 0)) [100; 300; 200]))
                      (alarms no_cases)) no_rows.
Definition by_strategy : APIGetAlarmListsInputs := mkAlarmListsInputs 0 0 (-1) "" "" "" "" 2 (-1) None 7 0.
Lemma AlarmLists_pages_witness : exists pages, map (fun p => AlarmLists (inl (with_page (Z.of_nat p) by_strategy)) None queue) [1%nat; 2%nat] = map inl pages
  /\ concat pages ≡ₚ List.filter (alarm_filters by_strategy) (cases queue).
Proof.
  destruct (AlarmLists_pages by_strategy queue 2) as (found & pages & Hf & _ & Hp & Hc); [reflexivity|cbn; lia|cbn; unfold int64_max; lia|].
  exists pages. split; [exact Hp|]. rewrite Hc, <-Hf. rewrite take_ge; [done|]. rewrite Hf. vm_compute. lia.
Defined.
Example pages_of_two : map (fun p => match AlarmLists (inl (with_page p by_strategy)) None queue with inl l => map (fun r => Case_Timestamp r.2) l | inr _ => [] end) [1; 2; 3]
  = [[300; 200]; [100]; []].
Proof. vm_compute. reflexivity. Qed.
Example pages_refused : AlarmLists (inl (with_page 0 by_strategy)) None queue = inr (400, "limit or page can not set to 0 or less than 0")
  /\ AlarmLists (inl (mkAlarmListsInputs 0 0 (-1) "" "" "" "" 2 1 None 0 0)) None queue
     = inr (400, "startTime, endTime, event_id, endpoints, strategy_id or template_id, You have to at least pick one on the request.").
Proof. vm_compute. done. Qed.
(** A note on a case that is not there, or with a state that is none, is refused. *)
Example notes_refused :
  fst (AddNotesToAlarm (inl (mkAddNotesInputs "nope" "x" "resolved" "")) 150 bob (fun _ => None) office queue) = inr (400, foreign_key)
  /\ snd (AddNotesToAlarm (inl (mkAddNotesInputs "a" "x" "closed" "")) 150 bob (fun _ => None) office queue) = queue
  /\ fst (AddNotesToAlarm (inl (mkAddNotesInputs "a" "x" "resolved" "")) 150 no_user (fun _ => None) office queue) = inr (400, foreign_key).
Proof. vm_compute. done. Qed.
