(* ===== verification/ApiDashboard.v ===== *)
(** modules/api, controller/dashboard_graph, controller/dashboard_screen and model/dashboard:
    the graphs users keep, the screens they are on, and the temporary graphs that are known by
    a digest of what they show. Every statement can fail, also because a value does not fit
    its column. *)
From Stdlib Require Import Ascii ZArith.
From stdpp Require Import base list strings numbers.
From S2P Require Import Prelude GoString GoText GoHash Utils Model JsonWire ApiUic ApiTable.

Local Open Scope Z_scope.

(** Text a column of the character set utf8 keeps, which has characters of at most three
    bytes: from the first other one on, [insert ignore] cuts the text off. *)
Definition basic_text (s : string) : bool := utf8_valid s && forallb (fun p => snd p <? 65536) (GoText.chunks s).

(** What the database and the client of it do with texts: the number a text is compared as,
    the limit a text gives, and what a column of so many characters (CHAR, VARCHAR) gives back
    of one. *)
Class DashTexts := {
  sql_number : string -> option Z;
  sql_number_Itoa z : 0 <= z -> sql_number (strconv_Itoa z) = Some z;
  gorm_limit : string -> option nat;
  gorm_limit_Itoa n : gorm_limit (strconv_Itoa (Z.of_nat n)) = Some n;
  char_column : Z -> string -> string;
  char_column_fits n s : basic_text s = true -> Z.of_nat (String.length s) <= n -> str_free " " s = true -> char_column n s = s;
  varchar_column : Z -> string -> string;
  varchar_column_fits n s : basic_text s = true -> Z.of_nat (String.length s) <= n -> varchar_column n s = s }.

(** * model/dashboard *)

Record DashboardGraph := mkDashboardGraph {
  Graph_ID : Z; Title : string; Hosts : string; Counters : string; ScreenId : Z; TimeSpan : Z; GraphType : string; Method : string; Position : Z; FalconTags : string }.
Record DashboardScreen := mkDashboardScreen { Screen_ID : Z; Screen_PID : Z; Screen_Name : string }.
Record DashboardTmpGraph := mkDashboardTmpGraph { Tmp_ID : Z; Tmp_Endpoints : string; Tmp_Counters : string; Tmp_CK : string }.

Record DashDb := mkDashDb { graphs : table DashboardGraph; screens : table DashboardScreen; tmp_graphs : table DashboardTmpGraph }.

Section Dashboard.
Context `{Collation, DashTexts}.
Implicit Types (db : DashDb) (flt : faults).

Definition answered (A : Type) : Type := (A + (Z * string)) * DashDb.
(** The first row by its number that a statement finds, or its error. *)
Definition first_row {A : Type} (P : A -> bool) (err : option string) (t : table A) : A + string := fetch err (List.find P (rows t)).
(** [Limit]; a text that gives none is no limit. *)
Definition limited {A : Type} (limit : string) (l : list A) : list A := match gorm_limit limit with Some n => take n l | None => l end.
(** The texts of a list, sorted and joined. *)
Definition joined (l : list string) : string := strings_Join (sort_Strings l) "|".

(** * controller/dashboard_graph *)

Definition tmp_ck (es cs : string) : string := Md5 (es +:+ ":" +:+ cs).
Definition has_ck (ck : string) (r : DashboardTmpGraph) : bool := same_text (Tmp_CK r) ck.
Definition DashboardTmpGraphCreate (input : (list string * list string) + string) flt db : answered Z :=
  match input with
  | inr err => (inr (badstatus, err), db)
  | inl (endpoints, counters) =>
      let es_string := joined endpoints in
      let cs_string := joined counters in
      let ck := tmp_ck es_string cs_string in
      match flt 0%nat with
      | Some err => (inr (badstatus, err), db)
      | None =>
          let db := if existsb (has_ck ck) (rows (tmp_graphs db)) then db
                    else mkDashDb (graphs db) (screens db) (insert_row (fun id => mkDashboardTmpGraph id (varchar_column 10240 es_string) (varchar_column 10240 cs_string) ck) (tmp_graphs db)) in
          (match first_row (has_ck ck) (flt 1%nat) (tmp_graphs db) with
           | inr err => inr (badstatus, err)
           | inl r => inl (Tmp_ID r)
           end, db)
      end
  end.
Definition DashboardTmpGraphQuery (id : string) flt db : (list string * list string) + (Z * string) :=
  match first_row (fun r => bool_decide (sql_number id = Some (Tmp_ID r))) (flt 0%nat) (tmp_graphs db) with
  | inr err => inr (badstatus, err)
  | inl r => inl (strings_Split (Tmp_Endpoints r) "|", strings_Split (Tmp_Counters r) "|")
  end.

Record APIGraphReqData := mkGraphReq {
  rq_ScreenId : Z; rq_Title : string; rq_Endpoints : list string; rq_Counters : list string; rq_TimeSpan : Z; rq_GraphType : string; rq_Method : string;
  rq_Position : Z; rq_FalconTags : string }.
(** The row of a new graph; its tags are not taken over. *)
Definition new_graph (i : APIGraphReqData) (id : Z) : DashboardGraph :=
  mkDashboardGraph id (char_column 128 (rq_Title i)) (joined (rq_Endpoints i)) (joined (rq_Counters i)) (rq_ScreenId i)
    (if rq_TimeSpan i =? 0 then 3600 else rq_TimeSpan i) (char_column 2 (if bool_decide (rq_GraphType i = "") then "h" else rq_GraphType i))
    (char_column 8 (rq_Method i)) (rq_Position i) "".
Definition DashboardGraphCreate (input : APIGraphReqData + string) flt db : answered Z :=
  match input with
  | inr err => (inr (badstatus, err), db)
  | inl i =>
      match flt 0%nat, flt 1%nat with
      | Some err, _ | None, Some err => (inr (badstatus, err), db)
      | None, None =>
          (inl (seq (graphs db) + 1),
           match flt 2%nat with Some _ => db | None => mkDashDb (insert_row (new_graph i) (graphs db)) (screens db) (tmp_graphs db) end)
      end
  end.

Definition or_text (new old : string) : string := if bool_decide (new = "") then old else new.
Definition or_int (new old : Z) : Z := if new =? 0 then old else new.
Definition or_list (new : list string) (old : string) : string := match new with [] => old | _ => or_text (joined new) old end.
(** [Updates] with a record writes the columns that are not zero; the method is never empty. *)
Definition changed_graph (i : APIGraphReqData) (g : DashboardGraph) : DashboardGraph :=
  mkDashboardGraph (Graph_ID g) (if bool_decide (rq_Title i = "") then Title g else char_column 128 (rq_Title i))
    (or_list (rq_Endpoints i) (Hosts g)) (or_list (rq_Counters i) (Counters g)) (or_int (rq_ScreenId i) (ScreenId g)) (or_int (rq_TimeSpan i) (TimeSpan g))
    (if bool_decide (rq_GraphType i = "") then GraphType g else char_column 2 (rq_GraphType i))
    (char_column 8 (if bool_decide (rq_Method i = "") then " " else rq_Method i)) (or_int (rq_Position i) (Position g)) (or_text (rq_FalconTags i) (FalconTags g)).
Definition graph_is (id : Z) (g : DashboardGraph) : bool := Graph_ID g =? id.
Definition DashboardGraphUpdate (id : string) (input : APIGraphReqData + string) flt db : answered Z :=
  match strconv_Atoi id, input, flt 0%nat with
  | None, _, _ => (inr (badstatus, "invalid graph id"), db)
  | Some _, inr err, _ | Some _, inl _, Some err => (inr (badstatus, err), db)
  | Some gid, inl i, None => (inl gid, mkDashDb (update_where (graph_is gid) (changed_graph i) (graphs db)) (screens db) (tmp_graphs db))
  end.

(** What is answered of a graph. *)
Definition graph_answer (g : DashboardGraph) : DashboardGraph * list string * list string :=
  (g, strings_Split (Hosts g) "|", strings_Split (Counters g) "|").
Definition DashboardGraphGet (id : string) flt db : (DashboardGraph * list string * list string) + (Z * string) :=
  match strconv_Atoi id with
  | None => inr (badstatus, "invalid graph id")
  | Some gid => match first_row (graph_is gid) (flt 0%nat) (graphs db) with
                | inr err => inr (badstatus, err)
                | inl g => inl (graph_answer g)
                end
  end.
Definition DashboardGraphDelete (id : string) flt db : answered Z :=
  match strconv_Atoi id, flt 0%nat with
  | None, _ => (inr (badstatus, "invalid graph id"), db)
  | Some _, Some err => (inr (badstatus, err), db)
  | Some gid, None => (inl gid, mkDashDb (delete_where (graph_is gid) (graphs db)) (screens db) (tmp_graphs db))
  end.
Definition DashboardGraphGetsByScreenID (id limit : string) flt db : list (DashboardGraph * list string * list string) + (Z * string) :=
  match strconv_Atoi id, flt 0%nat with
  | None, _ => inr (badstatus, "invalid screen id")
  | Some _, Some err => inr (badstatus, err)
  | Some sid, None => inl (map graph_answer (limited limit (select (fun g => ScreenId g =? sid) (graphs db))))
  end.

(** * controller/dashboard_screen *)

Definition screen_is (id : Z) (s : DashboardScreen) : bool := Screen_ID s =? id.
Definition screen_named (pid : Z) (name : string) (s : DashboardScreen) : bool := (Screen_PID s =? pid) && same_text (Screen_Name s) name.
(** [insert ignore] keeps of a number what fits an unsigned column. *)
Definition clip_unsigned (z : Z) : Z := Z.max 0 (Z.min z 4294967295).
(** The last check is never reached: without a row the error is empty. *)
Definition ScreenCreate (pid name : string) flt db : answered (Z * Z * string) :=
  if bool_decide (name = "") then (inr (badstatus, "empty name"), db)
  else match strconv_Atoi pid, flt 0%nat with
       | None, _ => (inr (badstatus, "invalid screen pid"), db)
       | Some _, Some err => (inr (badstatus, err), db)
       | Some ipid, None =>
           let p := clip_unsigned ipid in
           let n := char_column 128 name in
           let db := if existsb (screen_named p n) (rows (screens db)) then db
                     else mkDashDb (graphs db) (insert_row (fun id => mkDashboardScreen id p n) (screens db)) (tmp_graphs db) in
           (match flt 1%nat, List.find (screen_named ipid name) (rows (screens db)) with
            | Some err, _ => inr (badstatus, err)
            | None, None => inr (badstatus, "")
            | None, Some s => inl (ipid, Screen_ID s, name)
            end, db)
       end.
Definition ScreenGet (id : string) flt db : DashboardScreen + (Z * string) :=
  match strconv_Atoi id with
  | None => inr (badstatus, "invalid screen id")
  | Some sid => match first_row (screen_is sid) (flt 0%nat) (screens db) with inr err => inr (badstatus, err) | inl s => inl s end
  end.
Definition ScreenGetsByPid (id : string) flt db : list DashboardScreen + (Z * string) :=
  match strconv_Atoi id, flt 0%nat with
  | None, _ => inr (badstatus, "invalid screen pid")
  | Some _, Some err => inr (badstatus, err)
  | Some pid, None => inl (select (fun s => Screen_PID s =? pid) (screens db))
  end.
Definition ScreenGetsAll (limit : string) flt db : list DashboardScreen + (Z * string) :=
  match flt 0%nat with
  | Some err => inr (badstatus, err)
  | None => inl (limited limit (rows (screens db)))
  end.
Definition ScreenDelete (id : string) flt db : answered unit :=
  match strconv_Atoi id, flt 0%nat with
  | None, _ => (inr (badstatus, "invalid screen id"), db)
  | Some _, Some err => (inr (badstatus, err), db)
  | Some sid, None => (inl tt, mkDashDb (graphs db) (delete_where (screen_is sid) (screens db)) (tmp_graphs db))
  end.
(** An empty name or parent is no change; a name that is taken is refused. *)
Definition ScreenUpdate (id pid name : string) flt db : answered unit :=
  match strconv_Atoi id with
  | None => (inr (badstatus, "invalid screen id"), db)
  | Some sid =>
      match (if bool_decide (pid = "") then Some None else Some <$> strconv_Atoi pid), flt 0%nat with
      | None, _ => (inr (badstatus, "invalid screen pid"), db)
      | Some _, Some err => (inr (badstatus, err), db)
      | Some new_pid, None =>
          let change s := mkDashboardScreen (Screen_ID s) (default (Screen_PID s) new_pid) (if bool_decide (name = "") then Screen_Name s else char_column 128 name) in
          let taken := existsb (fun s => screen_is sid s && existsb (fun x => negb (screen_is sid x) && screen_named (Screen_PID (change s)) (Screen_Name (change s)) x)
                                                              (rows (screens db))) (rows (screens db)) in
          if taken then (inr (badstatus, "Error 1062: Duplicate entry"), db)
          else (inl tt, mkDashDb (graphs db) (update_where (screen_is sid) change (screens db)) (tmp_graphs db))
      end
  end.

(** * The routes that write *)

Inductive dash_request :=
  | POST_tmpgraph (input : (list string * list string) + string)
  | POST_graph (input : APIGraphReqData + string)
  | PUT_graph (id : string) (input : APIGraphReqData + string)
  | DELETE_graph (id : string)
  | POST_screen (pid name : string)
  | PUT_screen (id pid name : string)
  | DELETE_screen (id : string).
Definition dash_routes (req : dash_request) flt db : DashDb :=
  match req with
  | POST_tmpgraph i => snd (DashboardTmpGraphCreate i flt db)
  | POST_graph i => snd (DashboardGraphCreate i flt db)
  | PUT_graph id i => snd (DashboardGraphUpdate id i flt db)
  | DELETE_graph id => snd (DashboardGraphDelete id flt db)
  | POST_screen pid name => snd (ScreenCreate pid name flt db)
  | PUT_screen id pid name => snd (ScreenUpdate id pid name flt db)
  | DELETE_screen id => snd (ScreenDelete id flt db)
  end.
Definition dash_serve (cs : list (dash_request * faults)) db : DashDb := foldl (fun db c => dash_routes c.1 c.2 db) db cs.
Definition no_dashboards : DashDb := mkDashDb no_rows no_rows no_rows.
End Dashboard.

(** * Well-formed tables *)

Section Theorems.
Context `{Collation, DashTexts}.
Implicit Types (db : DashDb) (flt : faults).

(** A temporary graph is one that was asked for. *)
Definition tmp_row (es cs : list string) (id : Z) : DashboardTmpGraph :=
  mkDashboardTmpGraph id (varchar_column 10240 (joined es)) (varchar_column 10240 (joined cs)) (tmp_ck (joined es) (joined cs)).
Definition asked_for (reqs : list dash_request) (r : DashboardTmpGraph) : Prop :=
  exists es cs, POST_tmpgraph (inl (es, cs)) ∈ reqs /\ r = tmp_row es cs (Tmp_ID r).
Record dash_ok (reqs : list dash_request) db : Prop := {
  dok_graphs : table_ok Graph_ID (graphs db);
  dok_screens : table_ok Screen_ID (screens db);
  dok_screen_names x y : x ∈ rows (screens db) -> y ∈ rows (screens db) -> Screen_PID x = Screen_PID y -> same_text (Screen_Name x) (Screen_Name y) = true -> x = y;
  dok_tmp : table_ok Tmp_ID (tmp_graphs db);
  dok_cks : names_ok Tmp_CK (rows (tmp_graphs db));
  dok_asked r : r ∈ rows (tmp_graphs db) -> asked_for reqs r }.

Lemma asked_weaken reqs more r : asked_for reqs r -> asked_for (reqs ++ more) r.
Proof. intros (es & cs & Hin & E). exists es, cs. split; [|done]. apply elem_of_app. by left. Qed.
Lemma dash_weaken reqs more db : dash_ok reqs db -> dash_ok (reqs ++ more) db.
Proof. intros Hok. destruct Hok. constructor; try done. intros r Hr. apply asked_weaken. auto. Qed.
Lemma graphs_ok reqs t db : dash_ok reqs db -> table_ok Graph_ID t -> dash_ok reqs (mkDashDb t (screens db) (tmp_graphs db)).
Proof. intros Hok Ht. destruct Hok. by constructor. Qed.
Lemma tmp_create_ok reqs input flt db : dash_ok reqs db -> dash_ok (reqs ++ [POST_tmpgraph input]) (snd (DashboardTmpGraphCreate input flt db)).
Proof.
  intros Hok. unfold DashboardTmpGraphCreate. destruct input as [[es cs]|]; [|by apply dash_weaken]. cbv zeta. destruct (flt 0%nat); [by apply dash_weaken|].
  cbn [snd]. destruct (existsb _ _) eqn:E; [by apply dash_weaken|]. destruct Hok. constructor; cbn -[insert_row]; try done.
  - by apply insert_ok.
  - eapply names_insert; [|exact E|done]. done.
  - intros r. cbn. rewrite elem_of_app, list_elem_of_singleton. intros [Hr| ->]; [by apply asked_weaken, dok_asked0|].
    exists es, cs. split; [|done]. apply elem_of_app. right. by apply list_elem_of_singleton.
Qed.
Lemma screen_create_ok reqs pid name flt db : dash_ok reqs db -> dash_ok reqs (snd (ScreenCreate pid name flt db)).
Proof.
  intros Hok. unfold ScreenCreate. destruct (bool_decide _); [done|]. destruct (strconv_Atoi pid) as [p|]; [|done]. destruct (flt 0%nat); [done|].
  cbn [snd]. destruct (existsb _ _) eqn:E; [done|]. pose proof (existsb_none _ _ E) as Hno. unfold screen_named in Hno. destruct Hok. constructor; cbn -[insert_row]; try done.
  - by apply insert_ok.
  - intros x y. cbn. rewrite !elem_of_app, !list_elem_of_singleton. intros [Hx| ->] [Hy| ->] Hp Hs; [by apply dok_screen_names0| | |done]; cbn in Hp, Hs.
    + specialize (Hno x Hx). cbn in Hno. rewrite Hp, Z.eqb_refl, Hs in Hno. done.
    + specialize (Hno y Hy). cbn in Hno. rewrite <-Hp, Z.eqb_refl, same_text_sym, Hs in Hno. done.
Qed.
(** Screens of which some change, each to a place and a name no other has. *)
Lemma screens_changed sid (f : DashboardScreen -> DashboardScreen) (t : table DashboardScreen) : (forall s, Screen_ID (f s) = Screen_ID s) -> table_ok Screen_ID t ->
  existsb (fun s => screen_is sid s && existsb (fun x => negb (screen_is sid x) && screen_named (Screen_PID (f s)) (Screen_Name (f s)) x) (rows t)) (rows t) = false ->
  (forall x y, x ∈ rows t -> y ∈ rows t -> Screen_PID x = Screen_PID y -> same_text (Screen_Name x) (Screen_Name y) = true -> x = y) ->
  forall x y, x ∈ rows (update_where (screen_is sid) f t) -> y ∈ rows (update_where (screen_is sid) f t) ->
    Screen_PID x = Screen_PID y -> same_text (Screen_Name x) (Screen_Name y) = true -> x = y.
Proof.
  intros Hf Hok Hno Hn x y Hx Hy Hp Hs. destruct (update_ok Screen_ID (screen_is sid) f t Hf Hok) as [_ Hk]. apply (keyed_inj _ _ _ _ _ Hk Hx Hy).
  apply list_elem_of_fmap in Hx as (a & -> & Ha), Hy as (b & -> & Hb).
  assert (Hother : forall s z, s ∈ rows t -> z ∈ rows t -> screen_is sid s = true -> screen_is sid z = false -> Screen_PID z = Screen_PID (f s) ->
    same_text (Screen_Name z) (Screen_Name (f s)) = false).
  { intros s z Hs' Hz Es Ez Hpid. pose proof (existsb_none _ _ Hno s Hs') as Hx. cbn in Hx. rewrite Es in Hx. cbn in Hx.
    pose proof (existsb_none _ _ Hx z Hz) as Hy. cbn in Hy. rewrite Ez in Hy. unfold screen_named in Hy. by rewrite Hpid, Z.eqb_refl in Hy. }
  destruct (screen_is sid a) eqn:Ea, (screen_is sid b) eqn:Eb.
  - rewrite !Hf. unfold screen_is in *. lia.
  - rewrite same_text_sym, (Hother a b) in Hs; done.
  - rewrite (Hother b a) in Hs; done.
  - by rewrite (Hn a b).
Qed.
Lemma screen_update_ok reqs id pid name flt db : dash_ok reqs db -> dash_ok reqs (snd (ScreenUpdate id pid name flt db)).
Proof.
  intros Hok. unfold ScreenUpdate. destruct (strconv_Atoi id) as [sid|]; [|done]. destruct (if bool_decide _ then _ else _) as [new|]; [|done].
  destruct (flt 0%nat); [done|]. cbv zeta. destruct (existsb _ _) eqn:E; [done|]. destruct Hok. constructor; cbn -[update_where]; try done.
  - by apply update_ok.
  - by apply screens_changed.
Qed.
Lemma dash_routes_ok reqs req flt db : dash_ok reqs db -> dash_ok (reqs ++ [req]) (dash_routes req flt db).
Proof.
  intros Hok. destruct req as [i|i|id i|id|pid name|id pid name|id]; cbn [dash_routes]; [by apply tmp_create_ok|apply dash_weaken..].
  - unfold DashboardGraphCreate. destruct i as [i|]; [|done]. destruct (flt 0%nat), (flt 1%nat); try done. cbn [snd]. destruct (flt 2%nat); [done|].
    apply graphs_ok; [done|]. apply insert_ok; [done|apply Hok].
  - unfold DashboardGraphUpdate. destruct (strconv_Atoi id), i, (flt 0%nat); try done. apply graphs_ok; [done|]. apply update_ok; [done|apply Hok].
  - unfold DashboardGraphDelete. destruct (strconv_Atoi id), (flt 0%nat); try done. apply graphs_ok; [done|]. apply delete_ok, Hok.
  - by apply screen_create_ok.
  - by apply screen_update_ok.
  - unfold ScreenDelete. destruct (strconv_Atoi id), (flt 0%nat); try done. destruct Hok. constructor; cbn -[delete_where]; try done; [by apply delete_ok|].
    intros x y [Hx _]%elem_of_delete_rows [Hy _]%elem_of_delete_rows. auto.
Qed.
Lemma dash_serve_ok cs : forall reqs db, dash_ok reqs db -> dash_ok (reqs ++ map fst cs) (dash_serve cs db).
Proof.
  induction cs as [|[req flt] cs IH]; intros reqs db Hok; cbn; [by rewrite app_nil_r|].
  change (req :: map fst cs) with ([req] ++ map fst cs). rewrite app_assoc. apply IH. by apply dash_routes_ok.
Qed.
Lemma no_dashboards_ok : dash_ok [] no_dashboards.
Proof. constructor; try apply empty_table_ok; intros x; intros; by match goal with Hx : _ ∈ _ |- _ => apply not_elem_of_nil in Hx end. Qed.

(** * Temporary graphs *)

Lemma tmp_kept req flt db : exists more, rows (tmp_graphs (dash_routes req flt db)) = rows (tmp_graphs db) ++ more.
Proof.
  assert (Hsame : forall db', tmp_graphs db' = tmp_graphs db -> exists more, rows (tmp_graphs db') = rows (tmp_graphs db) ++ more).
  { intros db' ->. exists []. by rewrite app_nil_r. }
  destruct req; cbn [dash_routes].
  - unfold DashboardTmpGraphCreate. destruct input as [[es cs]|]; [|by apply Hsame]. cbv zeta. destruct (flt 0%nat); [by apply Hsame|]. cbn [snd].
    destruct (existsb _ _); [by apply Hsame|]. by eexists.
  - apply Hsame. unfold DashboardGraphCreate. destruct input; [|done]. by destruct (flt 0%nat), (flt 1%nat), (flt 2%nat).
  - apply Hsame. unfold DashboardGraphUpdate. by destruct (strconv_Atoi id), input, (flt 0%nat).
  - apply Hsame. unfold DashboardGraphDelete. by destruct (strconv_Atoi id), (flt 0%nat).
  - apply Hsame. unfold ScreenCreate. destruct (bool_decide _); [done|]. destruct (strconv_Atoi pid), (flt 0%nat); try done. cbn [snd]. by destruct (existsb _ _).
  - apply Hsame. unfold ScreenUpdate. destruct (strconv_Atoi id); [|done]. destruct (if bool_decide _ then _ else _), (flt 0%nat); try done. cbv zeta. by destruct (existsb _ _).
  - apply Hsame. unfold ScreenDelete. by destruct (strconv_Atoi id), (flt 0%nat).
Qed.
Lemma tmp_served cs : forall db, exists more, rows (tmp_graphs (dash_serve cs db)) = rows (tmp_graphs db) ++ more.
Proof.
  induction cs as [|[req flt] cs IH]; intros db; [exists []; by rewrite app_nil_r|].
  destruct (IH (dash_routes req flt db)) as [more E], (tmp_kept req flt db) as [more' E']. exists (more' ++ more). change (dash_serve ((req, flt) :: cs) db) with (dash_serve cs (dash_routes req flt db)).
  by rewrite E, E', app_assoc.
Qed.
Lemma find_elem {A : Type} (P : A -> bool) l x : List.find P l = Some x -> x ∈ l /\ P x = true.
Proof. intros E%find_some. by rewrite list_elem_of_In. Qed.
Lemma find_there {A : Type} (P : A -> bool) l x : x ∈ l -> P x = true -> exists y, List.find P l = Some y.
Proof. intros Hx HP. destruct (List.find P l) eqn:E; [eauto|]. apply list_elem_of_In in Hx. by rewrite (find_none _ _ E x Hx) in HP. Qed.

(** With a working database the digest of a graph is that of the row it answers. *)
Lemma tmp_create_row reqs es cs db : dash_ok reqs db ->
  exists r, fst (DashboardTmpGraphCreate (inl (es, cs)) (fun _ => None) db) = inl (Tmp_ID r)
    /\ r ∈ rows (tmp_graphs (snd (DashboardTmpGraphCreate (inl (es, cs)) (fun _ => None) db)))
    /\ same_text (Tmp_CK r) (tmp_ck (joined es) (joined cs)) = true /\ (r ∈ rows (tmp_graphs db) \/ r = tmp_row es cs (Tmp_ID r)).
Proof.
  intros Hok. unfold DashboardTmpGraphCreate. cbn [fst snd]. destruct (existsb _ _) eqn:E.
  - apply existsb_exists in E as (x & Hx%list_elem_of_In & Hck). destruct (find_there _ _ x Hx Hck) as [r Hr]. unfold first_row. rewrite Hr. cbn.
    exists r. apply find_elem in Hr as [Hr Hs]. auto.
  - unfold first_row. cbn [tmp_graphs insert_row rows]. set (new := mkDashboardTmpGraph _ _ _ _).
    destruct (find_there (has_ck (tmp_ck (joined es) (joined cs))) (rows (tmp_graphs db) ++ [new]) new) as [r Hr];
      [apply elem_of_app; right; by apply list_elem_of_singleton|apply same_text_refl|].
    rewrite Hr. cbn. exists r. apply find_elem in Hr as [Hr Hs]. split; [done|]. split; [done|]. split; [done|].
    apply elem_of_app in Hr as [?|Hr%list_elem_of_singleton]; [by left|right]. by rewrite Hr.
Qed.
Lemma tmp_query_row reqs r db : dash_ok reqs db -> r ∈ rows (tmp_graphs db) ->
  DashboardTmpGraphQuery (strconv_Itoa (Tmp_ID r)) (fun _ => None) db = inl (strings_Split (Tmp_Endpoints r) "|", strings_Split (Tmp_Counters r) "|").
Proof.
  intros Hok Hr. destruct (dok_tmp _ _ Hok) as [_ Hk]. pose proof (proj2 Hk r Hr). unfold DashboardTmpGraphQuery, first_row.
  rewrite sql_number_Itoa by lia. destruct (find_there (fun x => bool_decide (Some (Tmp_ID r) = Some (Tmp_ID x))) (rows (tmp_graphs db)) r) as [x Hx];
    [done|by apply bool_decide_eq_true|]. rewrite Hx. cbn. apply find_elem in Hx as [Hx [= E]%bool_decide_eq_true].
  by rewrite (keyed_inj _ _ _ _ _ Hk Hr Hx E).
Qed.
Lemma joined_split l : l <> [] -> Forall (fun s => str_free "|" s = true) l -> strings_Split (joined l) "|" = sort_Strings l.
Proof.
  intros Hne Hf. apply (strings_Split_Join _ "|"); [|by rewrite sort_Strings_perm]. intros E. apply Hne, Permutation_nil. by rewrite <-E, sort_Strings_perm.
Qed.

(** C35. The address of a temporary graph leads back to what it shows. After whatever
    requests, endpoints and counters without the separator, whose texts fit (in length, and
    without a character that the column's character set lacks) and whose digest no other
    earlier graph shares, are given a number; from then on, whatever requests follow,
    that number answers these endpoints and counters in order, and asking for the same ones in
    any order gives the same number again. *)
Theorem tmp_graph_roundtrip before later es cs :
  es <> [] -> cs <> [] -> Forall (fun s => str_free "|" s = true) (es ++ cs) ->
  basic_text (joined es) = true -> basic_text (joined cs) = true ->
  Z.of_nat (String.length (joined es)) <= 10240 -> Z.of_nat (String.length (joined cs)) <= 10240 ->
  (forall es' cs', POST_tmpgraph (inl (es', cs')) ∈ map fst before ->
     same_text (tmp_ck (joined es') (joined cs')) (tmp_ck (joined es) (joined cs)) = true -> joined es' = joined es /\ joined cs' = joined cs) ->
  exists id db, DashboardTmpGraphCreate (inl (es, cs)) (fun _ => None) (dash_serve before no_dashboards) = (inl id, db)
    /\ DashboardTmpGraphQuery (strconv_Itoa id) (fun _ => None) (dash_serve later db) = inl (sort_Strings es, sort_Strings cs)
    /\ forall es' cs', es' ≡ₚ es -> cs' ≡ₚ cs -> fst (DashboardTmpGraphCreate (inl (es', cs')) (fun _ => None) (dash_serve later db)) = inl id.
Proof.
  intros He Hc Hf Hbe Hbc Hle Hlc Hno. apply list.Forall_app in Hf as [Hfe Hfc].
  pose proof (dash_serve_ok before [] _ no_dashboards_ok) as Hok. cbn [app] in Hok. set (db0 := dash_serve before no_dashboards) in *.
  destruct (tmp_create_row _ es cs db0 Hok) as (r & Hr & Hin & Hck & Hwhose). destruct (DashboardTmpGraphCreate _ _ db0) as [a db] eqn:E. cbn [fst snd] in Hr, Hin. subst a.
  pose proof (tmp_create_ok _ (inl (es, cs)) (fun _ => None) db0 Hok) as Hok1. rewrite E in Hok1. cbn [snd] in Hok1.
  assert (r = tmp_row es cs (Tmp_ID r)) as Hrow.
  { destruct Hwhose as [Hold|]; [|done]. destruct (dok_asked _ _ Hok r Hold) as (es' & cs' & Hp & Er). rewrite Er in Hck. cbn in Hck.
    destruct (Hno es' cs' Hp Hck) as [Ee Ec]. rewrite Er at 1. unfold tmp_row. by rewrite Ee, Ec. }
  pose proof (dash_serve_ok later _ _ Hok1) as Hok2. destruct (tmp_served later db) as [more Hmore].
  assert (Hr2 : r ∈ rows (tmp_graphs (dash_serve later db))) by (rewrite Hmore; apply elem_of_app; by left).
  exists (Tmp_ID r), db. split; [done|]. split.
  - rewrite (tmp_query_row _ r _ Hok2 Hr2). rewrite Hrow. cbn [Tmp_Endpoints Tmp_Counters tmp_row]. rewrite !varchar_column_fits by done. by rewrite !joined_split.
  - intros es' cs' Pe Pc. assert (joined es' = joined es) as Ee by (unfold joined; by rewrite (sort_Strings_unique _ _ Pe)).
    assert (joined cs' = joined cs) as Ec by (unfold joined; by rewrite (sort_Strings_unique _ _ Pc)).
    destruct (tmp_create_row _ es' cs' _ Hok2) as (r' & -> & Hin' & Hck' & _). rewrite Ee, Ec in Hck'.
    pose proof (tmp_create_ok _ (inl (es', cs')) (fun _ => None) _ Hok2) as Hok3. f_equal. f_equal.
    apply (dok_cks _ _ Hok3); [done| |].
    + destruct (tmp_kept (POST_tmpgraph (inl (es', cs'))) (fun _ => None) (dash_serve later db)) as [m Hm]. cbn [dash_routes] in Hm. rewrite Hm. apply elem_of_app. by left.
    + eapply same_text_trans; [exact Hck'|]. rewrite same_text_sym. exact Hck.
Qed.

(** A graph that is made is answered with its lists in order, its defaults filled in. *)
Theorem graph_created reqs i db : dash_ok reqs db -> seq (graphs db) < int64_max ->
  rq_Endpoints i <> [] -> rq_Counters i <> [] -> Forall (fun s => str_free "|" s = true) (rq_Endpoints i ++ rq_Counters i) ->
  exists id db', DashboardGraphCreate (inl i) (fun _ => None) db = (inl id, db')
    /\ DashboardGraphGet (strconv_Itoa id) (fun _ => None) db' = inl (new_graph i id, sort_Strings (rq_Endpoints i), sort_Strings (rq_Counters i)).
Proof.
  intros Hok Hs He Hc [Hfe Hfc]%list.Forall_app. destruct (dok_graphs _ _ Hok) as [Hs0 Hk].
  eexists _, _. split; [reflexivity|]. unfold DashboardGraphGet. rewrite Atoi_Itoa by (unfold is_int64, int64_min in *; lia).
  unfold first_row. cbn [graphs insert_row rows]. set (id := seq (graphs db) + 1).
  assert (List.find (graph_is id) (rows (graphs db) ++ [new_graph i id]) = Some (new_graph i id)) as ->.
  { destruct (find_there (graph_is id) (rows (graphs db) ++ [new_graph i id]) (new_graph i id)) as [g Hg];
      [apply elem_of_app; right; by apply list_elem_of_singleton|apply Z.eqb_refl|]. rewrite Hg. f_equal.
    apply find_elem in Hg as [[Hg|Hg]%elem_of_app Hid]; [|by apply list_elem_of_singleton in Hg].
    pose proof (proj2 Hk g Hg). unfold graph_is in Hid. lia. }
  cbn [fetch]. unfold graph_answer. cbn [Hosts Counters new_graph]. by rewrite !joined_split.
Qed.
(** A change leaves what the request leaves out, except the method. *)
Lemma change_nothing g : changed_graph (mkGraphReq 0 "" [] [] 0 "" "" 0 "") g
  = mkDashboardGraph (Graph_ID g) (Title g) (Hosts g) (Counters g) (ScreenId g) (TimeSpan g) (GraphType g) (char_column 8 " ") (Position g) (FalconTags g).
Proof. done. Qed.
End Theorems.

(** * Examples *)

Definition plain_texts : DashTexts.
Proof.
  refine {| sql_number := parse_digits 0; gorm_limit := fun s => Z.to_nat <$> parse_digits 0 s; char_column := fun _ s => s; varchar_column := fun _ s => s |}; try done.
  - intros z Hz. destruct z as [|p|p]; [done| |lia]. apply (parse_digits_pretty (N.pos p)).
  - intros n. assert (parse_digits 0 (strconv_Itoa (Z.of_nat n)) = Some (Z.of_nat n)) as ->.
    { destruct n as [|n]; [done|]. apply (parse_digits_pretty (N.pos (Pos.of_succ_nat n))). }
    cbn. f_equal. lia.
Defined.
#[local] Existing Instances binary_collation plain_texts.
Definition works : faults := fun _ => None.
Definition drawn (es cs : list string) : dash_request * faults := (POST_tmpgraph (inl (es, cs)), works).
Definition show (id : string) (db : DashDb) : (list string * list string) + (Z * string) := DashboardTmpGraphQuery id works db.
Lemma tmp_graph_roundtrip_witness : exists id db,
  DashboardTmpGraphCreate (inl (["web2"; "web1"], ["cpu.busy"])) works (dash_serve [drawn ["web1"] ["cpu.busy"]] no_dashboards) = (inl id, db)
  /\ show (strconv_Itoa id) (dash_serve [drawn ["db1"] ["disk"]] db) = inl (["web1"; "web2"], ["cpu.busy"]).
Proof.
  destruct (tmp_graph_roundtrip [drawn ["web1"] ["cpu.busy"]] [drawn ["db1"] ["disk"]] ["web2"; "web1"] ["cpu.busy"]) as (id & db & Hc & Hq & _).
  - discriminate.
  - discriminate.
  - repeat constructor.
  - vm_compute. reflexivity.
  - vm_compute. reflexivity.
  - vm_compute. discriminate.
  - vm_compute. discriminate.
  - intros es' cs' Hin. cbn [map fst drawn] in Hin. apply list_elem_of_singleton in Hin. injection Hin as -> ->. intros Hs. vm_compute in Hs. discriminate Hs.
  - exists id, db. split; [exact Hc|]. refine (eq_trans Hq _). vm_compute. reflexivity.
Defined.
(** The digest of endpoints and counters with a colon between them does not tell which part
    a colon of a name belongs to: the second graph shows the first one's. *)
Example colon_mixed : let db := dash_serve [drawn ["db1"] ["port:80"]; drawn ["db1:port"] ["80"]] no_dashboards in
  fst (DashboardTmpGraphCreate (inl (["db1:port"], ["80"])) works db) = inl 1 /\ show "1" db = inl (["db1"], ["port:80"]).
Proof. vm_compute. done. Qed.

Definition busy_graph : APIGraphReqData := mkGraphReq 4 "busy" ["web1"] ["cpu.busy"] 0 "" "sum" 7 "pop=bj".
Definition kept_graphs (cs : list dash_request) : list DashboardGraph := rows (graphs (dash_serve (map (fun r => (r, works)) cs) no_dashboards)).
(** The tags of a new graph are lost, and a position cannot be set to 0. *)
Example tags_lost : kept_graphs [POST_graph (inl busy_graph)] = [mkDashboardGraph 1 "busy" "web1" "cpu.busy" 4 3600 "h" "sum" 7 ""].
Proof. vm_compute. done. Qed.
Example position_stays : map (fun g => (Position g, Method g)) (kept_graphs [POST_graph (inl busy_graph); PUT_graph "1" (inl (mkGraphReq 0 "" [] [] 0 "" "" 0 ""))]) = [(7, " ")].
Proof. vm_compute. done. Qed.
(** A screen that is deleted leaves its graphs and the screens below it. *)
Example screen_orphans : let db := dash_serve (map (fun r => (r, works)) [POST_screen "0" "top"; POST_screen "1" "below"; POST_graph (inl (mkGraphReq 1 "g" ["a"] ["b"] 0 "" "" 0 "")); DELETE_screen "1"]) no_dashboards in
  map Screen_PID (rows (screens db)) = [1] /\ map ScreenId (rows (graphs db)) = [1].
Proof. vm_compute. done. Qed.
(** With a negative parent the row is kept at the top, and the answer is an error without text. *)
Example negative_parent : let '(r, db) := ScreenCreate "-1" "lost" works no_dashboards in r = inr (400, "") /\ map Screen_PID (rows (screens db)) = [0].
Proof. vm_compute. done. Qed.
