(* ===== verification/ApiSite.v ===== *)
(** From the portal to the judges: what modules/hbs reads of the tables that modules/api
    writes, and what it therefore answers the judges. *)
From Stdlib Require Import Ascii ZArith.
From stdpp Require Import base list gmap strings numbers.
From S2P Require Import Prelude GoString GoFloat GoText Utils Model ApiUic ApiTable ApiPortal ThirdParty.
From S2P Require Import Model Hbs HbsRules.

Local Open Scope Z_scope.
Implicit Types (db : PortalDb).

(** * The queries of modules/hbs/db on the tables *)

Definition tpl_view (t : ApiPortal.Template) : Template := mkTemplate (Template_ID t) (ApiPortal.Template_Name t) (ParentID t) (ActionID t) (Template_CreateUser t).
Definition host_view (h : ApiPortal.Host) : host_row := mkHostRow (mkHost (Host_ID h) (Hostname h)) (MaintainBegin h) (MaintainEnd h).
(** The driver reads a number from its text; the row is skipped when it is none. *)
Definition scan_float (text : string) : option f64 := match strconv_ParseFloat text with (v, None) => Some v | (_, Some _) => None end.
Definition strategy_view (s : ApiPortal.Strategy) : option strategy_row :=
  v ← scan_float (ApiPortal.Strategy_RightValue s);
  Some (mkStrategyRow (mkStrategy (Strategy_ID s) (ApiPortal.Strategy_Metric s) ∅ (ApiPortal.Strategy_Func s) (Strategy_Op s) v
          (ApiPortal.Strategy_MaxStep s) (ApiPortal.Strategy_Priority s) (ApiPortal.Strategy_Note s) None)
          (ApiPortal.Strategy_Tags s) (Strategy_TplId s) (RunBegin s) (RunEnd s)).
(** [select a.tpl_id, b.host_id from grp_tpl as a inner join grp_host as b on a.grp_id = b.grp_id] *)
Definition host_tpl_rows db : list (Z * Z) :=
  concat (map (fun a => map (fun b => (GrpTpl_TplID a, GrpHost_HostID b)) (List.filter (of_grp (GrpTpl_GrpID a)) (grp_hosts db))) (grp_tpls db)).
(** [... from expression where action_id > 0 and pause = 0] *)
Definition expression_view (e : ApiPortal.Expression) : option (Expression * string) :=
  v ← scan_float (ApiPortal.Expression_RightValue e);
  Some (mkExpression (Expression_ID e) "" ∅ (ApiPortal.Expression_Func e) (Expression_Op e) v (ApiPortal.Expression_MaxStep e) (ApiPortal.Expression_Priority e)
          (ApiPortal.Expression_Note e) (ApiPortal.Expression_ActionId e), Expression_Expression e).
Definition active (e : ApiPortal.Expression) : bool := (0 <? ApiPortal.Expression_ActionId e) && (Pause e =? 0).
Definition all_rows {A R : Type} (f : A -> option R) (l : list A) : Hbs.table R := Some (map f l).
Definition portal_view db : hbs_db :=
  mkHbsDb (all_rows (fun p => Some (Plugin_GrpId p, Dir p)) (rows (plugins db)))
          (all_rows (fun x => Some (GrpTpl_GrpID x, GrpTpl_TplID x)) (grp_tpls db))
          (all_rows (fun x => Some (GrpHost_GrpID x, GrpHost_HostID x)) (grp_hosts db))
          (all_rows (fun h => Some (host_view h)) (rows (hosts db)))
          (all_rows (fun t => Some (tpl_view t)) (rows (tpls db)))
          (all_rows strategy_view (rows (strategies db)))
          (all_rows Some (host_tpl_rows db))
          (all_rows expression_view (List.filter active (rows (expressions db))))
          (all_rows (fun s => Some (Strategy_TplId s, mkBuiltinMetric (ApiPortal.Strategy_Metric s) (ApiPortal.Strategy_Tags s))) (rows (strategies db))).

(** * What the queries read *)

Lemma scan_fold {A R S : Type} (g : A -> option R) (f : S -> R -> S) l : forall s,
  scan f s (map g l) = fold_left (fun s a => match g a with Some r => f s r | None => s end) l s.
Proof. induction l as [|a l IH]; intros s; [done|]. cbn. by rewrite <-IH. Qed.
(** Rows filed under their numbers. *)
Definition filed {A V : Type} (key : A -> Z) (val : A -> option V) (l : list A) : gmap Z V :=
  fold_left (fun m a => match val a with Some v => <[key a := v]> m | None => m end) l ∅.
Lemma filed_lookup {A V : Type} (key : A -> Z) (val : A -> option V) l : NoDup (map key l) ->
  forall k v, filed key val l !! k = Some v <-> exists a, a ∈ l /\ key a = k /\ val a = Some v.
Proof.
  unfold filed. induction l as [|a l IH] using rev_ind; intros Hnd k v.
  { cbn. rewrite lookup_empty. split; [done|]. intros (x & Hx%not_elem_of_nil & _). done. }
  rewrite map_app in Hnd. apply list.NoDup_app in Hnd as (Hnd & Hdis & _). rewrite fold_left_app. cbn [fold_left].
  assert (Ha : forall x, x ∈ l -> key x <> key a).
  { intros x Hx E. apply (Hdis (key x)); [by apply (list_elem_of_fmap_2 key)|]. rewrite E. left. }
  setoid_rewrite elem_of_app. setoid_rewrite list_elem_of_singleton. destruct (val a) as [w|] eqn:Ew.
  - destruct (decide (key a = k)) as [<-|Hne].
    + rewrite lookup_insert_eq. split; [intros [= <-]; eauto|]. intros (x & [Hx| ->] & E & Hv); [by destruct (Ha x)|congruence].
    + rewrite lookup_insert_ne, IH by done. naive_solver.
  - rewrite IH by done. naive_solver.
Qed.
(** Values appended under their numbers. *)
Lemma appended_lookup (l : list (Z * Z)) hid : let m := scan (fun m '(tid, hid) => id_append m hid tid) ∅ (map Some l) in
  default [] (m !! hid) = map fst (List.filter (fun p => p.2 =? hid) l) /\ (is_Some (m !! hid) -> map fst (List.filter (fun p => p.2 =? hid) l) <> []).
Proof.
  cbn zeta. rewrite scan_fold. induction l as [|[tid h] l [IH1 IH2]] using rev_ind.
  { cbn. rewrite lookup_empty. split; [done|]. by intros [? ?]. }
  rewrite fold_left_app, filter_app, map_app. cbn [fold_left List.filter snd]. rewrite id_append_lookup. case_decide as E.
  - subst h. rewrite Z.eqb_refl. cbn. rewrite IH1. split; [done|]. intros _ E. by apply app_eq_nil in E as [_ ?].
  - rewrite (proj2 (Z.eqb_neq h hid)) by done. cbn. rewrite app_nil_r. done.
Qed.

Definition portal_tpls db : gmap Z Template := filed Template_ID (fun t => Some (tpl_view t)) (rows (tpls db)).
(** A strategy as it is filed: its number scans, it runs at the time of day, its template exists. *)
Definition filed_strategy (tod : string) (m : gmap Z Template) (s : ApiPortal.Strategy) : option Strategy :=
  r ← strategy_view s;
  if runs_at tod r then tpl ← m !! Strategy_TplId s; Some (with_tags_tpl (srow_strategy r) (strategy_tags (ApiPortal.Strategy_Tags s)) (Some tpl)) else None.
Definition in_maintenance (now : Z) (h : ApiPortal.Host) : bool := negb ((now <? MaintainBegin h) || (MaintainEnd h <? now)).
Definition monitored (now : Z) (h : ApiPortal.Host) : option Hbs.Host := if in_maintenance now h then None else Some (mkHost (Host_ID h) (Hostname h)).
Definition host_tpl_ids (hid : Z) db : list Z := map fst (List.filter (fun p => p.2 =? hid) (host_tpl_rows db)).
(** The text of every expression in use has its parentheses; otherwise modules/hbs panics. *)
Definition expressions_parse db : Prop := forall e, e ∈ rows (expressions db) -> exists r, parseExpression (Expression_Expression e) = Ok r.

Lemma fold_left_ext_in {A S : Type} (f g : S -> A -> S) l : (forall s a, f s a = g s a) -> forall s, fold_left f l s = fold_left g l s.
Proof. intros E. induction l as [|a l IH]; intros s; [done|]. cbn. by rewrite E, IH. Qed.
Lemma QueryTemplates_view db : QueryTemplates (t_tpl (portal_view db)) = Some (portal_tpls db).
Proof. unfold QueryTemplates. cbn. f_equal. apply scan_fold. Qed.
Lemma QueryStrategies_view tod db m : m <> ∅ -> QueryStrategies tod m (t_strategy (portal_view db)) = Some (filed Strategy_ID (filed_strategy tod m) (rows (strategies db))).
Proof.
  intros Hm. unfold QueryStrategies. destruct (Nat.eqb_spec (size m) 0) as [E|_]; [by apply map_size_empty_iff in E|]. cbn. f_equal. rewrite scan_fold.
  apply fold_left_ext_in. intros ret s. unfold filed_strategy, strategy_view. destruct (scan_float _) as [v|]; cbn; [|done].
  destruct (runs_at _ _); cbn; [|done]. by destruct (m !! Strategy_TplId s).
Qed.
Lemma QueryMonitored_view now db : QueryMonitoredHosts now (t_host (portal_view db)) = Some (filed Host_ID (monitored now) (rows (hosts db))).
Proof.
  unfold QueryMonitoredHosts. cbn. f_equal. rewrite scan_fold. apply fold_left_ext_in. intros m h. unfold monitored, in_maintenance. cbn.
  by destruct (_ || _).
Qed.
Lemma QueryExpressions_view db : expressions_parse db -> exists l, QueryExpressions (t_expression (portal_view db)) = Ok (Some l).
Proof.
  intros Hp. unfold QueryExpressions. cbn.
  match goal with |- context [rfold ?f] => set (step := f) end.
  assert (forall l ret, (forall e, e ∈ l -> exists r, parseExpression (Expression_Expression e) = Ok r) -> exists ret', rfold step ret (map expression_view l) = Ok ret') as Hl.
  { induction l as [|e l IH]; intros ret He; [by eexists|]. cbn [map rfold].
    assert (exists ret1, step ret (expression_view e) = Ok ret1) as [ret1 ->].
    { unfold expression_view. destruct (scan_float _) as [v|]; cbn; [|by eexists]. destruct (He e) as [r ->]; [left|]. cbn. destruct r as [[? ?]|]; by eexists. }
    cbn. apply IH. intros x Hx. apply He. by right. }
  destruct (Hl (List.filter active (rows (expressions db))) []) as [l El].
  { intros e He. apply Hp. apply list_elem_of_In, filter_In in He as [He _]. by apply list_elem_of_In. }
  exists l. by rewrite El.
Qed.

(** One round of the caches on the portal's tables. *)
Lemma cache_view now tod db st0 : portal_tpls db <> ∅ -> expressions_parse db ->
  exists st, cache_Init now tod (portal_view db) st0 = Ok st /\ TemplateCache st = portal_tpls db
    /\ Strategies st = filed Strategy_ID (filed_strategy tod (portal_tpls db)) (rows (strategies db))
    /\ MonitoredHosts st = filed Host_ID (monitored now) (rows (hosts db))
    /\ (forall hid, default [] (HostTemplateIds st !! hid) = host_tpl_ids hid db)
    /\ (forall hid tids, HostTemplateIds st !! hid = Some tids -> tids = host_tpl_ids hid db /\ tids <> []).
Proof.
  intros Hm [l Hl]%QueryExpressions_view. unfold cache_Init, SafeExpressionCache_Init, SafeTemplateCache_Init, SafeMonitoredHosts_Init, SafeStrategies_Init. rewrite QueryTemplates_view, QueryMonitored_view. cbn [from_option id].
  rewrite (QueryStrategies_view tod db (portal_tpls db) Hm), Hl. cbn [rbind from_option id]. eexists. split; [reflexivity|]. cbn.
  assert (Hid : forall hid, let m := scan (fun m '(tid, hid) => id_append m hid tid) ∅ (map Some (host_tpl_rows db)) in
    default [] (m !! hid) = host_tpl_ids hid db /\ (is_Some (m !! hid) -> host_tpl_ids hid db <> [])) by (intros hid; apply (appended_lookup (host_tpl_rows db) hid)).
  cbn zeta in Hid. split; [done|]. split; [done|]. split; [done|]. split.
  - intros hid. exact (proj1 (Hid hid)).
  - intros hid tids E. destruct (Hid hid) as [H1 H2]. rewrite E in H1, H2. cbn in H1. rewrite H1. split; [done|]. apply H2. by eexists.
Qed.

(** * What the judges are answered *)

Lemma host_tpl_ids_elem hid db tid : tid ∈ host_tpl_ids hid db <->
  exists a b, a ∈ grp_tpls db /\ b ∈ grp_hosts db /\ GrpHost_GrpID b = GrpTpl_GrpID a /\ GrpTpl_TplID a = tid /\ GrpHost_HostID b = hid.
Proof.
  unfold host_tpl_ids, host_tpl_rows. rewrite list_elem_of_In, in_map_iff. setoid_rewrite filter_In. setoid_rewrite in_concat. setoid_rewrite in_map_iff.
  setoid_rewrite list_elem_of_In. split.
  - intros ([t h] & <- & (l & (a & <- & Ha) & Hb) & Hh). apply in_map_iff in Hb as (b & [= <- <-] & [Hb Hg]%filter_In).
    exists a, b. unfold of_grp in Hg. cbn in Hh. repeat split; try done; lia.
  - intros (a & b & Ha & Hb & Hg & <- & <-). exists (GrpTpl_TplID a, GrpHost_HostID b). split; [done|]. split; [|cbn; lia].
    eexists. split; [by exists a|]. apply in_map_iff. exists b. split; [done|]. apply filter_In. split; [done|]. unfold of_grp. lia.
Qed.

Section Site.
Context `{Collation, MapRange, IdRange}.

(** The templates the portal shows for a host are those of the host that exist. *)
Lemma RelatedTpl_view db hid t : portal_ok db ->
  t ∈ RelatedTpl hid (fun _ => None) db <-> t ∈ rows (tpls db) /\ Template_ID t ∈ host_tpl_ids hid db.
Proof.
  intros Hok. unfold RelatedTpl, RelatedGrp, select. rewrite list_elem_of_In, filter_In, <-list_elem_of_In, bool_decide_eq_true, host_tpl_ids_elem.
  apply and_iff_compat_l. rewrite list_elem_of_In, in_map_iff. setoid_rewrite filter_In. setoid_rewrite bool_decide_eq_true. split.
  - intros (a & Et & Ha & Hg). apply list_elem_of_In, in_map_iff in Hg as (g & Eg & [_ Hg]%filter_In). apply bool_decide_eq_true in Hg.
    apply list_elem_of_In, in_map_iff in Hg as (b & Eb & [Hb Hh]%filter_In). exists a, b. rewrite !list_elem_of_In. repeat split; try done; [congruence|lia].
  - intros (a & b & Ha & Hb & Eg & Et & Eh). exists a. split; [done|]. split; [by apply list_elem_of_In|].
    destruct (pok_grp_hosts _ Hok b Hb) as [(g & Hg & Ei) _]. apply list_elem_of_In, in_map_iff. exists g. split; [congruence|].
    apply filter_In. split; [by apply list_elem_of_In|]. apply bool_decide_eq_true. apply list_elem_of_In, in_map_iff. exists b. split; [congruence|].
    apply filter_In. split; [by apply list_elem_of_In|]. lia.
Qed.

Lemma portal_tpls_lookup db id t' : portal_ok db -> portal_tpls db !! id = Some t' <-> exists t, t ∈ rows (tpls db) /\ Template_ID t = id /\ t' = tpl_view t.
Proof.
  intros Hok. unfold portal_tpls. rewrite filed_lookup by apply (pok_tpls _ Hok). split; intros (t & ? & ? & E); exists t; repeat split; congruence.
Qed.
Lemma portal_tpls_nonempty db : portal_ok db -> rows (tpls db) <> [] -> portal_tpls db <> ∅.
Proof.
  intros Hok Hne E. destruct (rows (tpls db)) as [|t l] eqn:El; [done|]. assert (portal_tpls db !! Template_ID t = Some (tpl_view t)) as Hl.
  { apply portal_tpls_lookup; [done|]. exists t. rewrite El. split; [left|done]. }
  by rewrite E, lookup_empty in Hl.
Qed.
Lemma filed_strategy_Some tod m s s' : filed_strategy tod m s = Some s' ->
  Strategy_Id s' = Strategy_ID s /\ exists tpl, Strategy_Tpl s' = Some tpl /\ m !! Strategy_TplId s = Some tpl.
Proof.
  unfold filed_strategy, strategy_view. destruct (scan_float _) as [v|]; cbn; [|done]. destruct (runs_at _ _); [|done].
  destruct (m !! Strategy_TplId s) as [tpl|] eqn:E; cbn; [|done]. intros [= <-]. cbn. eauto.
Qed.
(** The strategies that [modules/hbs] has for a template. *)
Lemma has_strategy_view tod db tid s' : portal_ok db ->
  has_strategy (filed Strategy_ID (filed_strategy tod (portal_tpls db)) (rows (strategies db))) tid s' <->
  exists s, s ∈ rows (strategies db) /\ Strategy_TplId s = tid /\ filed_strategy tod (portal_tpls db) s = Some s'.
Proof.
  intros Hok. unfold has_strategy. setoid_rewrite filed_lookup; [|apply (pok_strategies _ Hok)]. split.
  - intros (k & tpl & (s & Hs & Ek & Ef) & Et & Ei). exists s. split; [done|]. split; [|done].
    destruct (filed_strategy_Some _ _ _ _ Ef) as (_ & tpl' & Et' & Em). apply portal_tpls_lookup in Em as (t & _ & Eid & ->); [|done].
    rewrite Et in Et'. injection Et' as ->. cbn in Ei. congruence.
  - intros (s & Hs & <- & Ef). destruct (filed_strategy_Some _ _ _ _ Ef) as (_ & tpl & Et & Em). exists (Strategy_ID s), tpl.
    split; [by exists s|]. split; [done|]. by apply portal_tpls_lookup in Em as (t & _ & Eid & ->).
Qed.
Lemma retarget_view tod db s s' tid tpl : portal_ok db -> filed_strategy tod (portal_tpls db) s = Some s' -> portal_tpls db !! tid = Some tpl ->
  retarget (portal_tpls db) tid s' = set_Tpl (Some tpl) s'.
Proof.
  intros Hok Hs Hm. destruct (filed_strategy_Some _ _ _ _ Hs) as (_ & own & Et & Eo). unfold retarget. rewrite Et.
  destruct (Z.eqb_spec (Template_Id own) tid) as [E|_]; [|by rewrite Hm].
  apply portal_tpls_lookup in Eo as Eo'; [|done]. destruct Eo' as (t & _ & Eid & ->). cbn in E. subst tid. rewrite Eid, Eo in Hm. injection Hm as <-.
  unfold set_Tpl, with_tags_tpl. destruct s'. cbn in *. by rewrite Et.
Qed.

(** C36. From the portal's tables to the judges. When the tables are well formed and do not
    change during the round, there is a template, no host has a template twice and no
    expression lacks its parentheses, a round of the caches of modules/hbs on these tables
    succeeds and its answer to the judges has exactly the strategies the portal says: what a
    host is answered is a strategy of the portal that runs at this time of day, from the chain
    of a template the portal shows for that host, with that template's name and owner, and the
    host is not in maintenance; and every strategy of the chain of a template of a host out
    of maintenance is answered for it, unless another template of the host descends from that
    one or a younger template of the chain has a strategy for the same metric and tags. *)
Theorem strategies_reach_judges now tod db st0 :
  portal_ok db -> rows (tpls db) <> [] -> expressions_parse db -> (forall hid, NoDup (host_tpl_ids hid db)) ->
  exists st hs, cache_Init now tod (portal_view db) st0 = Ok st /\ GetStrategies st = Ok hs /\
    (forall name s', in_reply hs name s' ->
       exists h t s a, h ∈ rows (hosts db) /\ Hostname h = name /\ in_maintenance now h = false /\ t ∈ RelatedTpl (Host_ID h) (fun _ => None) db /\
         s ∈ rows (strategies db) /\ Strategy_TplId s ∈ ParentIds (portal_tpls db) (Template_ID t) /\
         filed_strategy tod (portal_tpls db) s = Some a /\ s' = set_Tpl (Some (tpl_view t)) a) /\
    (forall h t s a pre post, h ∈ rows (hosts db) -> in_maintenance now h = false -> t ∈ RelatedTpl (Host_ID h) (fun _ => None) db ->
       (forall t2, t2 ∈ RelatedTpl (Host_ID h) (fun _ => None) db -> Template_ID t2 <> Template_ID t -> Template_ID t ∉ ParentIds (portal_tpls db) (Template_ID t2)) ->
       s ∈ rows (strategies db) -> filed_strategy tod (portal_tpls db) s = Some a ->
       ParentIds (portal_tpls db) (Template_ID t) = pre ++ Strategy_TplId s :: post ->
       (forall s2 a2, s2 ∈ rows (strategies db) -> Strategy_TplId s2 ∈ post -> filed_strategy tod (portal_tpls db) s2 = Some a2 -> strategy_uuid a2 <> strategy_uuid a) ->
       exists t', t' ∈ RelatedTpl (Host_ID h) (fun _ => None) db /\ in_reply hs (Hostname h) (set_Tpl (Some (tpl_view t')) a)).
Proof.
  intros Hok Hne Hp Hnd. destruct (cache_view now tod db st0 (portal_tpls_nonempty db Hok Hne) Hp) as (st & Hst & Ht & Hs & Hm & Hd & Hi).
  destruct (GetStrategies_correct st) as (hs & Hhs & _ & Hsound & Hcomplete).
  { split.
    - intros k s. rewrite Hs, filed_lookup by apply (pok_strategies _ Hok). intros (x & _ & <- & E). by apply filed_strategy_Some in E as [? _].
    - intros hid tids [-> _]%Hi. apply Hnd. }
  assert (Happ : forall hid tid a, applies st hid tid a -> exists t s, t ∈ RelatedTpl hid (fun _ => None) db /\ Template_ID t = tid /\ s ∈ rows (strategies db) /\
    Strategy_TplId s ∈ ParentIds (portal_tpls db) tid /\ filed_strategy tod (portal_tpls db) s = Some a).
  { intros hid tid a (tids & [-> _]%Hi & (Hin & Hpar & _) & (pre & x & post & Ep & Hx & _)). rewrite Ht in *. rewrite Hs in Hx.
    apply has_strategy_view in Hx as (s & Hs' & <- & Ef); [|done]. destruct (ParentIds_nonempty _ _ Hpar) as (l & Hl & _).
    inversion Hl as [|? t' ? _ Hl' _]; subst. apply portal_tpls_lookup in Hl' as (t & Htin & <- & _); [|done].
    exists t, s. split; [by apply RelatedTpl_view|]. split; [done|]. split; [done|]. split; [|done]. rewrite Ep. set_solver. }
  assert (Hret : forall t a s, t ∈ rows (tpls db) -> filed_strategy tod (portal_tpls db) s = Some a ->
    retarget (TemplateCache st) (Template_ID t) a = set_Tpl (Some (tpl_view t)) a).
  { intros t a s Hin Ef. rewrite Ht. eapply retarget_view; [done|exact Ef|]. apply portal_tpls_lookup; [done|]. by exists t. }
  exists st, hs. split; [done|]. split; [done|]. split.
  - intros name s' (hid & host & tid & a & Hh & <- & (t & s & Hrt & <- & Hs' & Hpar & Ef)%Happ & ->)%Hsound.
    rewrite Hm, filed_lookup in Hh by apply (pok_hosts _ Hok). destruct Hh as (h & Hh & <- & Emon). unfold monitored in Emon.
    destruct (in_maintenance now h) eqn:Em; [done|]. injection Emon as <-. exists h, t, s, a. repeat split; try done.
    apply (Hret t a s); [|done]. by apply RelatedTpl_view in Hrt as [? _].
  - intros h t s a pre post Hh Em Hrt Hyoung Hs' Ef Epar Hover. pose proof Hrt as [Htin Htid]%RelatedTpl_view; [|done].
    assert (Hmon : MonitoredHosts st !! Host_ID h = Some (mkHost (Host_ID h) (Hostname h))).
    { rewrite Hm. apply filed_lookup; [apply (pok_hosts _ Hok)|]. exists h. unfold monitored. by rewrite Em. }
    assert (Ha : applies st (Host_ID h) (Template_ID t) a).
    { destruct (HostTemplateIds st !! Host_ID h) as [tids|] eqn:Etids; [|pose proof (Hd (Host_ID h)) as E; rewrite Etids in E; cbn in E; rewrite <-E in Htid; by apply not_elem_of_nil in Htid].
      destruct (Hi _ _ Etids) as [-> _]. exists (host_tpl_ids (Host_ID h) db). split; [done|]. rewrite Ht. split.
      - split; [done|]. split; [rewrite Epar; by destruct pre|]. intros tid2 Hin2 Hne2 Hbad.
        assert (ParentIds (portal_tpls db) tid2 <> []) as Hpar2 by (intros E; rewrite E in Hbad; by apply not_elem_of_nil in Hbad).
        destruct (ParentIds_nonempty _ _ Hpar2) as (l & Hl & _). inversion Hl as [|? t' ? _ Hl' _]; subst.
        apply portal_tpls_lookup in Hl' as (t2 & Ht2 & <- & _); [|done]. apply (Hyoung t2); [by apply RelatedTpl_view|done|done].
      - exists pre, (Strategy_TplId s), post. split; [done|]. rewrite Hs. split; [apply has_strategy_view; [done|]; by exists s|].
        intros tid2 a2 Hin2 (s2 & Hs2 & <- & Ef2)%has_strategy_view; [|done]. by eapply Hover. }
    destruct (Hcomplete _ _ _ _ Hmon Ha) as (tid' & Ha' & Hin). destruct (Happ _ _ _ Ha') as (t' & _ & Hrt' & <- & _).
    exists t'. split; [done|]. rewrite <-(Hret t' a s); [exact Hin| |done]. by apply RelatedTpl_view in Hrt' as [? _].
Qed.
End Site.

(** * Maintenance *)

Section Maintenance.
Context `{Collation}.

(** Hosts put into maintenance by name are in it from the beginning to the end they were
    given, whatever they were before; the other hosts stay as they were. *)
Theorem SetMaintain_in_force names ids b e flt db db' now :
  SetMaintain (inl (names, ids, b, e)) flt db = (inl tt, db') -> names <> [] -> b <= now <= e ->
  (forall h, h ∈ rows (hosts db') -> existsb (same_text (Hostname h)) names = true -> in_maintenance now h = true) /\
  (forall h, h ∈ rows (hosts db) -> existsb (same_text (Hostname h)) names = false -> h ∈ rows (hosts db')).
Proof.
  unfold SetMaintain, maintain. intros Hs Hne Hn. destruct names as [|n names]; [done|]. cbn [length] in Hs.
  destruct (flt 0%nat); [done|]. injection Hs as <-. cbn. split.
  - intros h Hh Hm. apply list_elem_of_fmap in Hh as (x & -> & Hx). revert Hm.
    match goal with |- context [if ?c then _ else _] => destruct c eqn:E end; cbn in *; [|intros Hm; rewrite E in Hm; discriminate Hm].
    intros _. unfold in_maintenance. cbn. lia.
  - intros h Hh Hm. apply list_elem_of_fmap. exists h. split; [|done]. cbn in Hm. by rewrite Hm.
Qed.
End Maintenance.

(** * Examples *)

#[local] Existing Instances binary_collation map_range_default id_range_default.
Definition cold : HbsState := mkHbsState ∅ ∅ ∅ ∅ ∅ ∅ ∅ [] ∅ ∅ [].
Definition linux : ApiPortal.Template := ApiPortal.mkTemplate 1 "linux" 0 1 "root".
Definition w1 : ApiPortal.Host := ApiPortal.mkHost 1 "w1" "" "" "" 0 0.
Definition cpu_row : ApiPortal.Strategy := make_strategy cpu_high 1 1.
Definition cpu_answer : Strategy := mkStrategy 1 "cpu.busy" ∅ "all(#3)" ">" (f64_of_Z 80) 3 1 "busy" (Some (tpl_view linux)).
Lemma site_view : rows (tpls ApiPortal.site) = [linux] /\ rows (expressions ApiPortal.site) = [make_expression cpu_rule 2 "root" 1]
  /\ host_tpl_rows ApiPortal.site = [(1, 1); (1, 2)] /\ head (rows (hosts ApiPortal.site)) = Some w1 /\ rows (strategies ApiPortal.site) = [cpu_row]
  /\ RelatedTpl 1 (fun _ => None) ApiPortal.site = [linux] /\ filed_strategy "12:00" (portal_tpls ApiPortal.site) cpu_row = Some cpu_answer
  /\ ParentIds (portal_tpls ApiPortal.site) 1 = [1].
Proof. vm_compute. done. Qed.
Lemma strategies_reach_judges_witness : exists st hs, cache_Init 1000 "12:00" (portal_view ApiPortal.site) cold = Ok st /\ GetStrategies st = Ok hs /\
  exists t', t' ∈ RelatedTpl 1 (fun _ => None) ApiPortal.site /\ in_reply hs "w1" (set_Tpl (Some (tpl_view t')) cpu_answer).
Proof.
  destruct site_view as (Et & Ee & Eh & Ew & Es & Er & Ef & Ep).
  destruct (strategies_reach_judges 1000 "12:00" ApiPortal.site cold site_ok) as (st & hs & Hst & Hhs & _ & Hc).
  - rewrite Et. discriminate.
  - intros x. rewrite Ee. intros Hx. apply list_elem_of_singleton in Hx. subst x. eexists. vm_compute. reflexivity.
  - intros hid. unfold host_tpl_ids. rewrite Eh. cbn [List.filter snd].
    destruct (1 =? hid) eqn:E1, (2 =? hid) eqn:E2; cbn [map fst]; try lia; try apply NoDup_singleton; apply NoDup_nil_2.
  - exists st, hs. split; [exact Hst|]. split; [exact Hhs|]. apply (Hc w1 linux cpu_row cpu_answer [] []).
    + destruct (rows (hosts ApiPortal.site)) as [|h l]; [discriminate Ew|]. injection Ew as ->. left.
    + reflexivity.
    + change (Host_ID w1) with 1. rewrite Er. left.
    + change (Host_ID w1) with 1. rewrite Er. intros t2 Ht2 Hne. apply list_elem_of_singleton in Ht2. subst t2. destruct (Hne eq_refl).
    + rewrite Es. left.
    + exact Ef.
    + exact Ep.
    + intros s2 a2 _ Hin. destruct (not_elem_of_nil _ Hin).
Defined.
Definition replied (db : PortalDb) (now : Z) : result (list (string * list Z)) :=
  let! st := cache_Init now "12:00" (portal_view db) cold in
  let! hs := GetStrategies st in Ok (map (fun h => (HostStrategy_Hostname h, map Strategy_Id (HostStrategy_Strategies h))) hs).
Example site_answer : replied ApiPortal.site 1000 = Ok [("w2", [1]); ("w1", [1])].
Proof. vm_compute. reflexivity. Qed.
(** A host in maintenance is not judged until it is over. *)
Example w1_maintained : let db := snd (SetMaintain (inl (["w1"], [], 500, 2000)) (fun _ => None) ApiPortal.site) in
  replied db 1000 = Ok [("w2", [1])] /\ replied db 2001 = Ok [("w2", [1]); ("w1", [1])].
Proof. vm_compute. done. Qed.
(** An expression that the portal accepts stops modules/hbs when it lacks a parenthesis. *)
Example expression_stops_hbs :
  let db := snd (CreateExrpession (inl (mkExpressionInput "each(metric=cpu.busy host=w1" "all(#3)" ">" "80" 3 1 "" 0 ["ops"] (mkActionInput "" "" 0 0 0 0 0))) root (fun _ => None) ApiPortal.site) in
  exists p, replied db 1000 = Panic p.
Proof. eexists. vm_compute. reflexivity. Qed.
(** A template bound through two groups is answered its strategies all the same, each once. *)
Example bound_twice : let db := snd (BindHostToHostGroup cfg_open (inl (["d1"; "w1"], 2)) root (fun _ => None) (snd (BindTemplateToGroup (inl (1, 2)) root (fun _ => None) ApiPortal.site))) in
  host_tpl_ids 1 db = [1; 1] /\ replied db 1000 = Ok [("d1", [1]); ("w2", [1]); ("w1", [1])].
Proof. vm_compute. done. Qed.
