(* ===== verification/Falcon2p8s.v ===== *)
(** modules/falcon2p8s: the relay that turns points into Prometheus metrics. A point's names
    are made valid, it is queued, and a worker adds it to the counter or sets the gauge of its
    series; series that were not updated for a while are removed. A point is handled in one
    step, as with one worker; what workers that handle points of one series at the same time do
    to each other is shown with the parts of that step ([workers_race]). *)
From Stdlib Require Import Ascii ZArith.
From stdpp Require Import base list gmap strings numbers.
From S2P Require Import Prelude GoString GoFloat GoText Utils Model.

Local Open Scope Z_scope.

(** The Prometheus client: a vector holds one metric for each list of values of its labels. *)
Class PromClient := {
  counter : Type;
  counter_zero : counter;
  counter_add : counter -> f64 -> counter;
  vec : Type;
  vec_new : string -> list string -> vec;
  (** [GetMetricWithLabelValues] gives no error *)
  vec_ok : vec -> list string -> bool;
  vec_counter : vec -> list string -> option counter;
  vec_gauge : vec -> list string -> option f64;
  vec_add : list string -> f64 -> vec -> vec;
  vec_set : list string -> f64 -> vec -> vec;
  vec_delete : list string -> vec -> vec;
  vec_counter_new name ls vs : vec_counter (vec_new name ls) vs = None;
  vec_counter_add v vs x ws : vec_counter (vec_add vs x v) ws = if decide (ws = vs) then Some (counter_add (default counter_zero (vec_counter v vs)) x) else vec_counter v ws;
  vec_counter_delete v vs ws : vec_counter (vec_delete vs v) ws = if decide (ws = vs) then None else vec_counter v ws;
  vec_gauge_set v vs x ws : vec_gauge (vec_set vs x v) ws = if decide (ws = vs) then Some x else vec_gauge v ws;
  vec_ok_new name ls vs : vec_ok (vec_new name ls) vs = true -> length vs = length ls;
  vec_ok_add v vs x ws : vec_ok (vec_add vs x v) ws = vec_ok v ws;
  vec_ok_set v vs x ws : vec_ok (vec_set vs x v) ws = vec_ok v ws;
  vec_ok_delete v vs ws : vec_ok (vec_delete vs v) ws = vec_ok v ws }.

(** * utils/func.go *)

(** [SortedTags] and [SortedTagKVs], which list the tags by name; [SortedTags] is that of
    common/utils. *)
Definition SortedTagKVs (tags : tagmap) : list string * list string :=
  let keys := KeysOfMap tags in (keys, omap (fun k => tags !! k) keys).
Definition p8s_PK (metric : string) (tagkeys : list string) : string :=
  match tagkeys with [] => metric | _ => metric +:+ "/" +:+ strings_Join tagkeys "," end.
Definition PKWithTagValue (metric : string) (tags : tagmap) : string :=
  if (size tags =? 0)%nat then metric else metric +:+ "/" +:+ SortedTags tags.

(** * rpc/receiver.go *)

(** A point with what the receiver fills in. *)
Record P8sPoint := mkP8sPoint {
  p_Metric : string; p_Tags : tagmap; p_TagKeys : list string; p_TagValues : list string; p_Value : f64; p_MetricType : string; p_PK : string; p_PKWithTagValue : string }.

Definition name_char (colon : bool) (r : Z) : bool :=
  (97 <=? r) && (r <=? 122) || (65 <=? r) && (r <=? 90) || (48 <=? r) && (r <=? 57) || (r =? 95) || colon && (r =? 58).
(** [ReplaceAllString(s, "_")] of the runes that are not allowed. *)
Definition replace_chars (colon : bool) (s : string) : string :=
  String.string_of_list_ascii (map (fun r => if name_char colon r then ascii_of_nat (Z.to_nat r) else "_"%char) (runes s)).
(** The prefix of a name that starts with a digit; an empty name panics. *)
Definition no_digit_first (s : string) : result string :=
  match s with
  | EmptyString => Panic IndexOutOfRange
  | String c _ => Ok (if is_digit c then "F_" +:+ s else s)
  end.
Definition valid_name (colon : bool) (s : string) : result string := no_digit_first (replace_chars colon s).

(** One round of the loop that renames the tags while it ranges over them. *)
Definition rename_tag (tags : tagmap) (key : string) : result tagmap :=
  match tags !! key with
  | None => Ok tags
  | Some value => let! key' := valid_name false key in Ok (<[key' := value]> (delete key tags))
  end.
(** [visits] are the names the loop comes to: each one there at the start, and perhaps some
    it made. *)
Definition rename_tags (visits : list string) (tags : tagmap) : result tagmap := rfold rename_tag tags visits.

(** [made]: the tags are a map, and not nil, to which nothing can be assigned. [None]: a
    counter below zero, which is dropped. *)
Definition prepare (made : bool) (visits : list string) (item : P8sItem) : result (option P8sPoint) :=
  if bool_decide (P8sItem_MetricType item = "COUNTER") && f64_lt (P8sItem_Value item) f64_zero then Ok None
  else
    let! metric := valid_name true (P8sItem_Metric item) in
    let! tags := if made then Ok (<["hostname" := P8sItem_Endpoint item]> (P8sItem_Tags item)) else Panic NilDereference in
    let! tags := rename_tags visits tags in
    let '(keys, values) := SortedTagKVs tags in
    Ok (Some (mkP8sPoint metric tags keys values (P8sItem_Value item) (P8sItem_MetricType item) (p8s_PK metric keys) (PKWithTagValue metric tags))).

Section Relay.
Context `{PromClient}.

(** * g/var.go *)

Record LastUpdateTimeItem := mkLastUpdate { LastUpdateTime : Z; Last_PK : string; Last_TagValues : list string }.
(** [is_counter]: the vector is a CounterVec, and not a GaugeVec. *)
Record UncheckedCollector := mkCollector { C : vec; is_counter : bool; MetricType : string }.
Record P8sState := mkP8sState {
  P8sItemQueue : list P8sPoint;
  CollectorMap : gmap string UncheckedCollector;
  MetricTypeMap : gmap string string;
  CounterCollectorValueMap : gmap string f64;
  LastUpdateTimeOfCounter : gmap string LastUpdateTimeItem;
  LastUpdateTimeOfGauge : gmap string LastUpdateTimeItem }.
Definition set_Queue q st := mkP8sState q (CollectorMap st) (MetricTypeMap st) (CounterCollectorValueMap st) (LastUpdateTimeOfCounter st) (LastUpdateTimeOfGauge st).
Definition set_Collectors m st := mkP8sState (P8sItemQueue st) m (MetricTypeMap st) (CounterCollectorValueMap st) (LastUpdateTimeOfCounter st) (LastUpdateTimeOfGauge st).
Definition set_Types m st := mkP8sState (P8sItemQueue st) (CollectorMap st) m (CounterCollectorValueMap st) (LastUpdateTimeOfCounter st) (LastUpdateTimeOfGauge st).
Definition set_Values m st := mkP8sState (P8sItemQueue st) (CollectorMap st) (MetricTypeMap st) m (LastUpdateTimeOfCounter st) (LastUpdateTimeOfGauge st).
Definition set_CounterTimes m st := mkP8sState (P8sItemQueue st) (CollectorMap st) (MetricTypeMap st) (CounterCollectorValueMap st) m (LastUpdateTimeOfGauge st).
Definition set_GaugeTimes m st := mkP8sState (P8sItemQueue st) (CollectorMap st) (MetricTypeMap st) (CounterCollectorValueMap st) (LastUpdateTimeOfCounter st) m.

(** The points that one call appends, in the order in which their goroutines run; a panic of
    one stops the process. *)
Definition P8sRelay_Send (items : list (P8sItem * bool * list string)) (st : P8sState) : result P8sState :=
  rfold (fun st '(item, made, visits) =>
    let! p := prepare made visits item in
    Ok (match p with None => st | Some p => set_Queue (P8sItemQueue st ++ [p]) st end)) st items.

(** * http/http.go *)

(** [registered]: the registry accepts the new collector. *)
Definition dealGaugeMetric (now : Z) (registered : bool) (p : P8sPoint) (st : P8sState) : result P8sState :=
  let! st :=
    match CollectorMap st !! p_PK p with
    | None =>
        let gaugeVec := vec_new (p_Metric p) (p_TagKeys p) in
        Ok (if registered && vec_ok gaugeVec (p_TagValues p)
            then set_Collectors (<[p_PK p := mkCollector (vec_set (p_TagValues p) (p_Value p) gaugeVec) false (p_MetricType p)]> (CollectorMap st)) st
            else st)
    | Some c =>
        if is_counter c || negb (vec_ok (C c) (p_TagValues p)) then Panic NilDereference
        else Ok (set_Collectors (<[p_PK p := mkCollector (vec_set (p_TagValues p) (p_Value p) (C c)) false (MetricType c)]> (CollectorMap st)) st)
    end in
  Ok (set_GaugeTimes (<[p_PKWithTagValue p := mkLastUpdate now (p_PK p) (p_TagValues p)]> (LastUpdateTimeOfGauge st)) st).

Definition at_least_zero (x : f64) : bool := f64_ge x f64_zero.
(** [Add] on the metric of the point's values; a negative number would panic. *)
Definition add_to (p : P8sPoint) (x : f64) (c : UncheckedCollector) : result UncheckedCollector :=
  if negb (is_counter c) || negb (vec_ok (C c) (p_TagValues p)) then Panic NilDereference
  else Ok (mkCollector (vec_add (p_TagValues p) x (C c)) true (MetricType c)).
(** The parts of the handling of a counter that has its collector; nothing keeps other workers
    out between them. The increase is that over the last value loaded. *)
Definition load_increase (p : P8sPoint) (st : P8sState) : f64 :=
  match CounterCollectorValueMap st !! p_PKWithTagValue p with Some lv => f64_sub (p_Value p) lv | None => p_Value p end.
Definition add_increase (p : P8sPoint) (incr : f64) (c : UncheckedCollector) (st : P8sState) : result P8sState :=
  if at_least_zero incr then let! c := add_to p incr c in Ok (set_Collectors (<[p_PK p := c]> (CollectorMap st)) st)
  else Ok st.
Definition store_counter (now : Z) (p : P8sPoint) (st : P8sState) : P8sState :=
  let st := set_Values (<[p_PKWithTagValue p := p_Value p]> (CounterCollectorValueMap st)) st in
  set_CounterTimes (<[p_PKWithTagValue p := mkLastUpdate now (p_PK p) (p_TagValues p)]> (LastUpdateTimeOfCounter st)) st.
Definition dealCounterMetric (now : Z) (registered : bool) (p : P8sPoint) (st : P8sState) : result P8sState :=
  let! st :=
    match CollectorMap st !! p_PK p with
    | None =>
        let counterVec := vec_new (p_Metric p) (p_TagKeys p) in
        Ok (if registered && vec_ok counterVec (p_TagValues p) && at_least_zero (p_Value p)
            then set_Collectors (<[p_PK p := mkCollector (vec_add (p_TagValues p) (p_Value p) counterVec) true (p_MetricType p)]> (CollectorMap st)) st
            else st)
    | Some c => add_increase p (load_increase p st) c st
    end in
  Ok (store_counter now p st).

(** What a worker does with a point; a panic is recovered. *)
Definition work (now : Z) (registered : bool) (p : P8sPoint) (st : P8sState) : P8sState :=
  match MetricTypeMap st !! p_Metric p with
  | Some t => if bool_decide (p_MetricType p = t) then
                match (if bool_decide (p_MetricType p = "COUNTER") then dealCounterMetric now registered p st else dealGaugeMetric now registered p st) with Ok st => st | _ => st end
              else st
  | None =>
      let st := set_Types (<[p_Metric p := p_MetricType p]> (MetricTypeMap st)) st in
      match (if bool_decide (p_MetricType p = "COUNTER") then dealCounterMetric now registered p st else dealGaugeMetric now registered p st) with Ok st => st | _ => st end
  end.
(** One round of the loop of [Start]. *)
Definition shift_and_work (scraping : bool) (now : Z) (registered : bool) (st : P8sState) : P8sState :=
  if scraping then st
  else match P8sItemQueue st with
       | [] => st
       | p :: q => work now registered p (set_Queue q st)
       end.

(** * http/cron.go *)

Definition outdated (now : Z) (last : LastUpdateTimeItem) : bool := 70000000000 <? now - LastUpdateTime last.
(** A collector of the other kind would stop the process. *)
Definition clean_gauge (now : Z) (st : P8sState) (key : string) : result P8sState :=
  match LastUpdateTimeOfGauge st !! key with
  | None => Ok st
  | Some last =>
      if negb (outdated now last) then Ok st
      else match CollectorMap st !! Last_PK last with
           | None => Ok st
           | Some c =>
               if is_counter c then Panic NilDereference
               else Ok (set_GaugeTimes (delete key (LastUpdateTimeOfGauge st))
                          (set_Collectors (<[Last_PK last := mkCollector (vec_delete (Last_TagValues last) (C c)) false (MetricType c)]> (CollectorMap st)) st))
           end
  end.
Definition clean_counter (now : Z) (st : P8sState) (key : string) : result P8sState :=
  match LastUpdateTimeOfCounter st !! key with
  | None => Ok st
  | Some last =>
      if negb (outdated now last) then Ok st
      else match CollectorMap st !! Last_PK last with
           | None => Ok st
           | Some c =>
               if negb (is_counter c) then Panic NilDereference
               else Ok (set_Values (delete key (CounterCollectorValueMap st))
                          (set_CounterTimes (delete key (LastUpdateTimeOfCounter st))
                             (set_Collectors (<[Last_PK last := mkCollector (vec_delete (Last_TagValues last) (C c)) true (MetricType c)]> (CollectorMap st)) st)))
           end
  end.
Definition cleanOutdatedGaugeMetrics `{MapRange} (now : Z) (st : P8sState) : result P8sState := rfold (clean_gauge now) st (range_keys (LastUpdateTimeOfGauge st)).
Definition cleanOutdatedCounterMetrics `{MapRange} (now : Z) (st : P8sState) : result P8sState := rfold (clean_counter now) st (range_keys (LastUpdateTimeOfCounter st)).
End Relay.

(** * Names *)

(** A valid name: not empty, of the allowed characters, no digit first. *)
Definition is_name (colon : bool) (s : string) : Prop :=
  str_forall (fun c => name_char colon (byte_val c)) s = true /\ match s with EmptyString => False | String c _ => is_digit c = false end.

Lemma name_char_ascii colon r : name_char colon r = true -> 0 <= r < 128.
Proof. unfold name_char. destruct colon; lia. Qed.
Lemma byte_val_of r : 0 <= r < 256 -> byte_val (ascii_of_nat (Z.to_nat r)) = r.
Proof. intros Hr. unfold byte_val. unfold ascii_of_nat. rewrite N_ascii_embedding by lia. lia. Qed.
Lemma replaced_chars colon s : str_forall (fun c => name_char colon (byte_val c)) (replace_chars colon s) = true.
Proof.
  unfold replace_chars. induction (runes s) as [|r l IH]; [done|]. cbn. rewrite IH, andb_true_r. destruct (name_char colon r) eqn:E; [|by destruct colon].
  rewrite byte_val_of; [done|]. pose proof (name_char_ascii _ _ E). lia.
Qed.
Lemma runes_ascii s : str_forall (fun c => byte_val c <? 128) s = true -> runes s = map byte_val (String.list_ascii_of_string s).
Proof.
  unfold runes. induction s as [|c s IH]; [done|]. cbn [str_forall]. intros [Hc Hs]%andb_true_iff.
  cbn [runes_from decode_rune]. rewrite Hc. cbn [Nat.sub String.list_ascii_of_string map]. by rewrite IH.
Qed.
Lemma ascii_byte_val c : ascii_of_nat (Z.to_nat (byte_val c)) = c.
Proof. unfold byte_val, ascii_of_nat. rewrite Z_nat_N, N2Nat.id || idtac. rewrite <-(ascii_N_embedding c) at 2. f_equal. lia. Qed.
Lemma replace_name colon s : str_forall (fun c => name_char colon (byte_val c)) s = true -> replace_chars colon s = s.
Proof.
  intros Hs. unfold replace_chars. rewrite runes_ascii.
  - rewrite map_map. rewrite <-(string_list_ascii s) at 2. f_equal. induction s as [|c s IH]; [done|]. cbn in *. apply andb_true_iff in Hs as [Hc Hs].
    rewrite Hc, ascii_byte_val. f_equal. by apply IH.
  - eapply str_forall_mono; [|exact Hs]. intros c Hc%name_char_ascii. lia.
Qed.
Lemma valid_name_is colon s s' : valid_name colon s = Ok s' -> is_name colon s'.
Proof.
  unfold valid_name, no_digit_first. pose proof (replaced_chars colon s) as Hc. destruct (replace_chars colon s) as [|c t] eqn:E; [done|].
  intros [= <-]. destruct (is_digit c) eqn:Ed; [|done]. split; [|done]. rewrite str_forall_app, Hc. by destruct colon.
Qed.
Lemma valid_name_id colon s : is_name colon s -> valid_name colon s = Ok s.
Proof. intros [Hs Hf]. unfold valid_name. rewrite replace_name by done. destruct s as [|c t]; [done|]. cbn. by rewrite Hf. Qed.
Lemma name_free colon c s : is_name colon s -> name_char colon (byte_val c) = false -> str_free c s = true.
Proof. intros [Hs _] Hc. eapply str_forall_mono; [|exact Hs]. intros d Hd. cbn in Hd. destruct (Ascii.eqb_spec c d); [congruence|done]. Qed.
Lemma decode_size s : (fst (decode_rune s) <= 4)%nat.
Proof. unfold decode_rune. repeat case_match; cbn; lia. Qed.
(** A name that is not empty can be made valid. *)
Lemma valid_name_total colon s : s <> "" -> exists s', valid_name colon s = Ok s'.
Proof.
  intros Hs. unfold valid_name, replace_chars, runes. destruct s as [|c s]; [done|]. cbn [runes_from]. destruct (decode_rune _) as [n r]. cbn. by eexists.
Qed.

(** * Renaming the tags *)

(** The tags under their valid names. *)
Definition renamed (tags tags' : tagmap) : Prop :=
  forall k' v, tags' !! k' = Some v <-> exists k, tags !! k = Some v /\ valid_name false k = Ok k'.
Definition clash_free (tags : tagmap) : Prop :=
  forall k1 k2 k', is_Some (tags !! k1) -> is_Some (tags !! k2) -> valid_name false k1 = Ok k' -> valid_name false k2 = Ok k' -> k1 = k2.
(** The tags during the loop: those in [done] have their valid names. *)
Definition renaming (tags : tagmap) (done : list string) (m : tagmap) : Prop :=
  forall x v, m !! x = Some v <-> exists k, tags !! k = Some v /\ (k ∈ done /\ valid_name false k = Ok x \/ k ∉ done /\ x = k).

Lemma rename_tag_step tags done m y : clash_free tags -> tags !! "" = None -> renaming tags done m ->
  exists m', rename_tag m y = Ok m' /\ renaming tags (done ++ [y]) m'.
Proof.
  intros Hcf Hne Hm. unfold rename_tag. unfold renaming in *. destruct (m !! y) as [v|] eqn:Ey.
  - apply Hm in Ey as Ho. destruct Ho as (k & Hk & [[Hd Hv]|[Hd ->]]).
    + (* a name the loop made: nothing changes *)
      pose proof (valid_name_is _ _ _ Hv) as Hn. rewrite (valid_name_id _ _ Hn). cbn. eexists. split; [done|].
      rewrite insert_delete_eq, insert_id by done.
      assert (Hy : forall w, tags !! y = Some w -> y ∈ done).
      { intros w Hw. assert (y = k) as -> by (apply (Hcf y k y); [by eexists|by eexists|by apply valid_name_id|done]). done. }
      intros x w. rewrite Hm. split; intros (k2 & Hk2 & Hc); exists k2; split; try done; rewrite elem_of_app, list_elem_of_singleton in *.
      * destruct Hc as [[? ?]|[Hnd ->]]; [by left; auto|right]. split; [|done]. intros [?| ->]; [done|]. by apply Hnd, (Hy w).
      * destruct Hc as [[[?| ->] ?]|[Hnd ->]]; [by left|left|right; by auto]. split; [by eapply Hy|done].
    + destruct (valid_name_total false k) as [k' Hk']; [intros ->; congruence|]. rewrite Hk'. cbn. eexists. split; [done|].
      assert (Hfresh : forall k2 w, tags !! k2 = Some w -> k2 <> k -> valid_name false k2 <> Ok k').
      { intros k2 w Hw Hne2 E. apply Hne2. by apply (Hcf k2 k k'); [eexists|eexists|..]. }
      intros x w. destruct (decide (x = k')) as [->|Hx].
      * rewrite lookup_insert_eq. split.
        -- intros [= <-]. exists k. split; [done|]. left. split; [|done]. apply elem_of_app. right. by apply list_elem_of_singleton.
        -- intros (k2 & Hk2 & Hc). destruct (decide (k2 = k)) as [->|Hne2]; [congruence|]. exfalso. destruct Hc as [[_ E]|[Hnd E]]; [by eapply Hfresh|].
           subst k2. apply (Hfresh k' w Hk2 Hne2). apply valid_name_id. by eapply valid_name_is.
      * rewrite lookup_insert_ne by done. destruct (decide (x = k)) as [->|Hxk].
        -- rewrite lookup_delete_eq. split; [done|]. intros (k2 & Hk2 & Hc). exfalso. rewrite elem_of_app, list_elem_of_singleton in Hc. destruct Hc as [[[Hin| ->] E]|[Hnd ->]].
           ++ destruct (decide (k2 = k)) as [->|Hne2]; [done|]. apply Hne2. apply (Hcf k2 k k); [by eexists|by eexists|done|]. apply valid_name_id. by eapply valid_name_is.
           ++ congruence.
           ++ apply Hnd. by right.
        -- rewrite lookup_delete_ne by done. rewrite Hm. split; intros (k2 & Hk2 & Hc); exists k2; split; try done; rewrite elem_of_app, list_elem_of_singleton in *.
           ++ destruct Hc as [[? ?]|[Hnd ->]]; [by left; auto|right]. split; [|done]. intros [?| ->]; done.
           ++ destruct Hc as [[[?| ->] E]|[Hnd ->]]; [by left|congruence|right; by auto].
  - eexists. split; [done|]. intros x w. rewrite Hm. split; intros (k & Hk & Hc); exists k; split; try done; rewrite elem_of_app, list_elem_of_singleton in *.
    + destruct Hc as [[? ?]|[Hnd ->]]; [by left; auto|right]. split; [|done]. intros [?| ->]; [done|].
      assert (m !! y = Some w) as E by (apply Hm; exists y; auto). congruence.
    + destruct Hc as [[[?| ->] E]|[Hnd ->]]; [by left| |right; by auto]. destruct (decide (y ∈ done)) as [|Hnd]; [by left|].
      assert (m !! y = Some w) as E2 by (apply Hm; exists y; auto). congruence.
Qed.
(** Whatever names the loop comes to, once it has come to all that were there the tags are
    under their valid names, when these do not clash. *)
Lemma rename_tags_spec visits tags : clash_free tags -> tags !! "" = None -> (forall k, is_Some (tags !! k) -> k ∈ visits) ->
  exists tags', rename_tags visits tags = Ok tags' /\ renamed tags tags'.
Proof.
  intros Hcf Hne Hall. unfold rename_tags.
  assert (forall l done m, renaming tags done m -> exists m', rfold rename_tag m l = Ok m' /\ renaming tags (done ++ l) m') as Hl.
  { induction l as [|y l IH]; intros done m Hm; [exists m; by rewrite app_nil_r|]. cbn [rfold].
    destruct (rename_tag_step tags done m y Hcf Hne Hm) as (m' & -> & Hm'). cbn. destruct (IH _ _ Hm') as (m2 & -> & Hm2).
    exists m2. split; [done|]. by rewrite <-app_assoc in Hm2. }
  destruct (Hl visits [] tags) as (m & -> & Hm).
  { intros x v. split; [intros Hx; exists x; split; [done|]; right; split; [apply not_elem_of_nil|done]|].
    intros (k & Hk & [[Hd _]|[_ ->]]); [by apply not_elem_of_nil in Hd|done]. }
  exists m. split; [done|]. unfold renaming in Hm. intros k' v. rewrite (Hm k' v). split.
  - intros (k & Hk & [[_ Hv]|[Hd ->]]); [by exists k|]. exfalso. apply Hd. apply Hall. by eexists.
  - intros (k & Hk & Hv). exists k. split; [done|]. left. split; [|done]. apply Hall. by eexists.
Qed.

(** * Series *)

(** What the receiver makes of a point. *)
Record wf_point (p : P8sPoint) : Prop := {
  wf_metric : is_name true (p_Metric p);
  wf_tags : p_Tags p <> ∅;
  wf_names k : is_Some (p_Tags p !! k) -> is_name false k;
  wf_kvs : SortedTagKVs (p_Tags p) = (p_TagKeys p, p_TagValues p);
  wf_PK : p_PK p = p8s_PK (p_Metric p) (p_TagKeys p);
  wf_key : p_PKWithTagValue p = PKWithTagValue (p_Metric p) (p_Tags p) }.

Lemma prepare_wf made visits item p : let tags := <["hostname" := P8sItem_Endpoint item]> (P8sItem_Tags item) in
  prepare made visits item = Ok (Some p) -> clash_free tags -> tags !! "" = None -> (forall k, is_Some (tags !! k) -> k ∈ visits) -> wf_point p /\ renamed tags (p_Tags p).
Proof.
  cbn zeta. intros Hp Hcf Hne Hall. unfold prepare in Hp. destruct (_ && _); [done|]. destruct (valid_name true _) as [metric|] eqn:Em; [|done]. cbn [rbind] in Hp.
  destruct made; [|done]. cbn [rbind] in Hp. destruct (rename_tags_spec visits _ Hcf Hne Hall) as (tags' & Er & Hr). rewrite Er in Hp. cbn [rbind] in Hp. destruct (SortedTagKVs tags') as [keys values] eqn:Ek.
  injection Hp as <-. split; [|done]. constructor; cbn; try done.
  - by eapply valid_name_is.
  - intros E. assert (tags' !! "hostname" = Some (P8sItem_Endpoint item)) as Hh; [|by rewrite E, lookup_empty in Hh].
    apply Hr. exists "hostname". rewrite lookup_insert_eq. split; [done|]. by apply valid_name_id.
  - intros k [v Hk]. apply Hr in Hk as (k0 & _ & Hv). by eapply valid_name_is.
Qed.

Lemma wf_keys p : wf_point p -> p_TagKeys p <> [] /\ forall k, k ∈ p_TagKeys p -> is_name false k.
Proof.
  intros Hwf. pose proof (wf_kvs _ Hwf) as E. unfold SortedTagKVs in E. injection E as <- _. split.
  - intros E. apply (wf_tags _ Hwf). apply map_eq. intros k. rewrite lookup_empty. destruct (p_Tags p !! k) eqn:Ek; [|done].
    assert (k ∈ KeysOfMap (p_Tags p)) as Hin by (apply KeysOfMap_elem; by eexists). rewrite E in Hin. by apply not_elem_of_nil in Hin.
  - intros k Hk. apply (wf_names _ Hwf). by apply KeysOfMap_elem.
Qed.
Lemma split_first (a b c d : string) x : str_free x a = true -> str_free x c = true -> a +:+ String x b = c +:+ String x d -> a = c /\ b = d.
Proof.
  revert c. induction a as [|y a IH]; intros [|z c] Ha Hc E; cbn in Ha, Hc, E.
  - by injection E.
  - injection E as -> _. rewrite Ascii.eqb_refl in Hc. done.
  - injection E as <- _. rewrite Ascii.eqb_refl in Ha. done.
  - injection E as -> E. apply andb_true_iff in Ha as [_ Ha], Hc as [_ Hc]. destruct (IH c Ha Hc E) as [-> ->]. done.
Qed.
(** The collector of a series has its metric and its tag names. *)
Lemma PK_inj p q : wf_point p -> wf_point q -> p_PK p = p_PK q -> p_Metric p = p_Metric q /\ p_TagKeys p = p_TagKeys q.
Proof.
  intros Hp Hq. rewrite (wf_PK _ Hp), (wf_PK _ Hq). destruct (wf_keys _ Hp) as [Hnp Hkp], (wf_keys _ Hq) as [Hnq Hkq]. unfold p8s_PK.
  destruct (p_TagKeys p) as [|k1 l1] eqn:Ep; [done|]. destruct (p_TagKeys q) as [|k2 l2] eqn:Eq; [done|]. rewrite <-Ep, <-Eq in *.
  intros [Em Ej]%split_first; [|by apply (name_free true); [apply wf_metric|]..]. split; [done|].
  assert (Hsplit : forall l, l <> [] -> (forall k, k ∈ l -> is_name false k) -> strings_Split (strings_Join l ",") "," = l).
  { intros l Hne Hl. apply (strings_Split_Join _ ","); [done|]. apply list.Forall_forall. intros k Hk. apply (name_free false); [by apply Hl|done]. }
  rewrite <-(Hsplit (p_TagKeys p)), <-(Hsplit (p_TagKeys q)); [by rewrite Ej|done..].
Qed.
Lemma kvs_inj (t1 t2 : tagmap) : SortedTagKVs t1 = SortedTagKVs t2 -> t1 = t2.
Proof.
  unfold SortedTagKVs. intros [= Ek Ev]. apply map_eq. intros k.
  assert (Hrec : forall (ks : list string), (forall x, x ∈ ks -> is_Some (t1 !! x)) -> (forall x, x ∈ ks -> is_Some (t2 !! x)) ->
    omap (fun x => t1 !! x) ks = omap (fun x => t2 !! x) ks -> forall x, x ∈ ks -> t1 !! x = t2 !! x).
  { induction ks as [|y ks IH]; intros H1 H2 E x Hx; [by apply not_elem_of_nil in Hx|].
    destruct (H1 y) as [v1 E1]; [left|]. destruct (H2 y) as [v2 E2]; [left|]. cbn in E. rewrite E1, E2 in E. injection E as -> E.
    apply elem_of_cons in Hx as [->|Hx]; [congruence|]. apply IH; try done; intros z Hz; [apply H1|apply H2]; by right. }
  destruct (decide (k ∈ KeysOfMap t1)) as [Hk|Hk].
  - apply (Hrec (KeysOfMap t1)); try done; [intros x; apply KeysOfMap_elem|rewrite Ek; intros x; apply KeysOfMap_elem|by rewrite Ev, Ek].
  - pose proof Hk as Hk2. rewrite Ek in Hk2. rewrite KeysOfMap_elem in Hk, Hk2. rewrite <-eq_None_not_Some in Hk, Hk2. congruence.
Qed.
Lemma series_determined p q : wf_point p -> wf_point q -> p_PK p = p_PK q -> p_TagValues p = p_TagValues q -> p_PKWithTagValue p = p_PKWithTagValue q.
Proof.
  intros Hp Hq [Em Ek]%PK_inj Ev; [|done..]. rewrite (wf_key _ Hp), (wf_key _ Hq), Em. f_equal. apply kvs_inj. rewrite (wf_kvs _ Hp), (wf_kvs _ Hq). congruence.
Qed.
(** Tags whose text can be read back belong to one series only. *)
Lemma clean_unambiguous p q : wf_point p -> wf_point q -> DictedTagstring (SortedTags (p_Tags p)) = p_Tags p -> DictedTagstring (SortedTags (p_Tags q)) = p_Tags q ->
  p_PKWithTagValue p = p_PKWithTagValue q -> p_PK p = p_PK q /\ p_TagValues p = p_TagValues q.
Proof.
  intros Hp Hq Rp Rq. rewrite (wf_key _ Hp), (wf_key _ Hq). unfold PKWithTagValue.
  destruct (Nat.eqb_spec (size (p_Tags p)) 0) as [E%map_size_empty_iff|_]; [by destruct (wf_tags _ Hp)|].
  destruct (Nat.eqb_spec (size (p_Tags q)) 0) as [E%map_size_empty_iff|_]; [by destruct (wf_tags _ Hq)|].
  intros [Em Es]%split_first; [|by apply (name_free true); [apply wf_metric|]..]. assert (p_Tags p = p_Tags q) as Et by congruence.
  pose proof (wf_kvs _ Hp) as Kp. pose proof (wf_kvs _ Hq) as Kq. rewrite Et, Kq in Kp. injection Kp as Ek Ev.
  rewrite (wf_PK _ Hp), (wf_PK _ Hq), Em, Ek. done.
Qed.

(** * What is exported *)

Section Exported.
Context `{PromClient}.
Implicit Types (p q : P8sPoint) (st : P8sState) (k pk : string) (c : UncheckedCollector).

(** What the workers and the two cleaners do, one callback at a time. *)
Inductive p8s_op :=
  | Op_work (now : Z) (p : P8sPoint)
  | Op_clean_counter (now : Z) (key : string)
  | Op_clean_gauge (now : Z) (key : string).
Definition p8s_step (op : p8s_op) st : result P8sState :=
  match op with
  | Op_work now p => Ok (work now true p st)
  | Op_clean_counter now key => clean_counter now st key
  | Op_clean_gauge now key => clean_gauge now st key
  end.
Definition p8s_run (ops : list p8s_op) st : result P8sState := rfold (fun st op => p8s_step op st) st ops.
Definition no_series : P8sState := mkP8sState [] ∅ ∅ ∅ ∅ ∅.
Lemma clean_is_run `{MapRange} now st :
  cleanOutdatedCounterMetrics now st = p8s_run (map (Op_clean_counter now) (range_keys (LastUpdateTimeOfCounter st))) st
  /\ cleanOutdatedGaugeMetrics now st = p8s_run (map (Op_clean_gauge now) (range_keys (LastUpdateTimeOfGauge st))) st.
Proof. unfold p8s_run. by rewrite !rfold_map. Qed.

Definition points (ops : list p8s_op) : list P8sPoint := omap (fun op => match op with Op_work _ p => Some p | _ => None end) ops.
Definition counts p : Prop := p_MetricType p = "COUNTER".
#[local] Instance counts_dec p : Decision (counts p) := decide (p_MetricType p = "COUNTER").

(** The times and values of a counter since it was last removed. *)
Definition follow (k : string) (h : list (Z * f64)) (op : p8s_op) : list (Z * f64) :=
  match op with
  | Op_work now p => if decide (counts p /\ p_PKWithTagValue p = k) then h ++ [(now, p_Value p)] else h
  | Op_clean_counter now key =>
      if decide (key = k) then match list.last h with Some (t, _) => if 70000000000 <? now - t then [] else h | None => h end else h
  | Op_clean_gauge _ _ => h
  end.
Definition history k (ops : list p8s_op) : list (Z * f64) := fold_left (follow k) ops [].
(** What is exported of them: the first value, and then each increase; a decrease is a restart
    of what is counted, and adds nothing. *)
Definition increase (acc : counter * f64) (x : f64) : counter * f64 :=
  (if at_least_zero (f64_sub x acc.2) then counter_add acc.1 (f64_sub x acc.2) else acc.1, x).
Definition exported (h : list (Z * f64)) : option counter :=
  match map snd h with [] => None | v :: vs => Some (fold_left increase vs (counter_add counter_zero v, v)).1 end.

Lemma increase_last vs : forall acc, (fold_left increase vs acc).2 = default acc.2 (list.last vs).
Proof. induction vs as [|v vs IH]; intros acc; [done|]. cbn [fold_left]. rewrite IH, last_cons. by destruct (list.last vs). Qed.
Lemma exported_nil h : exported h = None <-> h = [].
Proof. unfold exported. by destruct h as [|[? ?] h]. Qed.
Lemma exported_snoc h t x : exported (h ++ [(t, x)]) =
  match list.last h with
  | None => Some (counter_add counter_zero x)
  | Some (_, lv) => if at_least_zero (f64_sub x lv) then (fun n => counter_add n (f64_sub x lv)) <$> exported h else exported h
  end.
Proof.
  unfold exported. rewrite map_app. destruct h as [|[t0 v] h]; [done|]. cbn [map app snd]. rewrite fold_left_app. cbn [fold_left].
  unfold increase at 1. cbn [fst]. rewrite increase_last. cbn [snd].
  destruct h as [|y h] using rev_ind; [cbn; by destruct (at_least_zero _)|clear IHh]. destruct y as [t1 lv]. rewrite map_app. cbn [map snd]. rewrite last_snoc.
  change ((t0, v) :: h ++ [(t1, lv)]) with (((t0, v) :: h) ++ [(t1, lv)]). rewrite last_snoc. cbn. by destruct (at_least_zero _).
Qed.
Lemma history_snoc k ops op : history k (ops ++ [op]) = follow k (history k ops) op.
Proof. unfold history. by rewrite fold_left_app. Qed.
Lemma points_snoc ops op : points (ops ++ [op]) = points ops ++ points [op].
Proof. unfold points. by rewrite omap_app. Qed.

(** The points of a run: as the receiver makes them, of one type for each metric, counters not
    below zero, values of labels the client accepts, and one series for each key. *)
Record good_points (l : list P8sPoint) : Prop := {
  gp_wf p : p ∈ l -> wf_point p;
  gp_types p q : p ∈ l -> q ∈ l -> p_Metric p = p_Metric q -> p_MetricType p = p_MetricType q;
  gp_counters p : p ∈ l -> counts p -> at_least_zero (p_Value p) = true;
  gp_labels p : p ∈ l -> vec_ok (vec_new (p_Metric p) (p_TagKeys p)) (p_TagValues p) = true;
  gp_keys p q : p ∈ l -> q ∈ l -> p_PKWithTagValue p = p_PKWithTagValue q -> p_PK p = p_PK q /\ p_TagValues p = p_TagValues q }.
Lemma good_sub l l' : (forall p, p ∈ l -> p ∈ l') -> good_points l' -> good_points l.
Proof. intros Hs Hg. destruct Hg. constructor; auto. Qed.

Record relay_inv (ops : list p8s_op) st : Prop := {
  ri_types p : p ∈ points ops -> MetricTypeMap st !! p_Metric p = Some (p_MetricType p);
  ri_only m t : MetricTypeMap st !! m = Some t -> exists p, p ∈ points ops /\ p_Metric p = m;
  ri_collector pk c : CollectorMap st !! pk = Some c -> exists p, p ∈ points ops /\ p_PK p = pk /\ is_counter c = bool_decide (counts p)
    /\ forall vs, vec_ok (C c) vs = vec_ok (vec_new (p_Metric p) (p_TagKeys p)) vs;
  ri_there p : p ∈ points ops -> is_Some (CollectorMap st !! p_PK p);
  ri_counter p c : p ∈ points ops -> counts p -> CollectorMap st !! p_PK p = Some c -> vec_counter (C c) (p_TagValues p) = exported (history (p_PKWithTagValue p) ops);
  ri_values k : CounterCollectorValueMap st !! k = snd <$> list.last (history k ops);
  ri_times k : LastUpdateTime <$> LastUpdateTimeOfCounter st !! k = fst <$> list.last (history k ops);
  ri_last k lu : LastUpdateTimeOfCounter st !! k = Some lu -> exists p, p ∈ points ops /\ counts p /\ p_PKWithTagValue p = k /\ Last_PK lu = p_PK p /\ Last_TagValues lu = p_TagValues p;
  ri_gauge k lu : LastUpdateTimeOfGauge st !! k = Some lu -> exists p, p ∈ points ops /\ ~ counts p /\ Last_PK lu = p_PK p;
  ri_others p c vs : p ∈ points ops -> counts p -> CollectorMap st !! p_PK p = Some c -> (forall q, q ∈ points ops -> p_PK q = p_PK p -> p_TagValues q <> vs) -> vec_counter (C c) vs = None }.

Lemma history_key k ops : (forall p, p ∈ points ops -> counts p -> p_PKWithTagValue p <> k) -> history k ops = [].
Proof.
  induction ops as [|op ops IH] using rev_ind; intros Hno; [done|]. rewrite history_snoc. rewrite points_snoc in Hno.
  assert (Hno' : forall p, p ∈ points ops -> counts p -> p_PKWithTagValue p <> k) by (intros p Hp; apply Hno; apply elem_of_app; by left).
  rewrite (IH Hno'). destruct op as [now p|now key|now key]; cbn [follow list.last]; [|by case_decide|done].
  case_decide as Hd; [|done]. destruct Hd as [Hc Hk]. destruct (Hno p); [|done|done]. apply elem_of_app. right. left.
Qed.

(** A point of a good run finds the type of its metric, or files it. *)
Lemma work_deals ops st now p : good_points (points ops ++ [p]) -> relay_inv ops st ->
  exists M, (forall m, M !! m = if decide (m = p_Metric p) then Some (p_MetricType p) else MetricTypeMap st !! m)
    /\ work now true p st = match (if decide (counts p) then dealCounterMetric now true p (set_Types M st) else dealGaugeMetric now true p (set_Types M st)) with
                            | Ok st' => st' | _ => set_Types M st end.
Proof.
  intros Hg Hi. unfold work.
  assert (Hdec : forall (X : Type) (a b : X), (if bool_decide (p_MetricType p = "COUNTER") then a else b) = if decide (counts p) then a else b).
  { intros X a b. unfold counts. case_bool_decide; by case_decide. }
  destruct (MetricTypeMap st !! p_Metric p) as [t|] eqn:Et.
  - destruct (ri_only _ _ Hi _ _ Et) as (q & Hq & Em). pose proof (ri_types _ _ Hi q Hq) as Eq. rewrite Em, Et in Eq. injection Eq as ->.
    assert (p_MetricType p = p_MetricType q) as Ep.
    { apply (gp_types _ Hg); [apply elem_of_app; right; by apply list_elem_of_singleton|apply elem_of_app; by left|done]. }
    exists (MetricTypeMap st). split; [intros m; destruct (decide (m = p_Metric p)) as [->|]; [rewrite Et; by f_equal|done]|]. rewrite bool_decide_eq_true_2 by done. rewrite Hdec.
    assert (set_Types (MetricTypeMap st) st = st) as -> by (by destruct st). done.
  - exists (<[p_Metric p := p_MetricType p]> (MetricTypeMap st)). split; [|by rewrite Hdec].
    intros m. destruct (decide (m = p_Metric p)) as [->|]; [apply lookup_insert_eq|by rewrite lookup_insert_ne].
Qed.

(** The collector that a point finds fits it. *)
Lemma found_fits ops st p c : good_points (points ops ++ [p]) -> relay_inv ops st -> CollectorMap st !! p_PK p = Some c ->
  is_counter c = bool_decide (counts p) /\ (forall vs, vec_ok (C c) vs = vec_ok (vec_new (p_Metric p) (p_TagKeys p)) vs)
  /\ exists q, q ∈ points ops /\ p_PK q = p_PK p /\ (counts p -> counts q).
Proof.
  intros Hg Hi Hc. destruct (ri_collector _ _ Hi _ _ Hc) as (q & Hq & Epk & Ecnt & Eok).
  assert (Hp : p ∈ points ops ++ [p]) by (apply elem_of_app; right; by apply list_elem_of_singleton).
  assert (Hq' : q ∈ points ops ++ [p]) by (apply elem_of_app; by left).
  destruct (PK_inj q p) as [Em Ek]; [by apply (gp_wf _ Hg)..|done|]. pose proof (gp_types _ Hg q p Hq' Hp Em) as Ety.
  split; [|split; [by rewrite <-Em, <-Ek|]].
  - rewrite Ecnt. apply bool_decide_ext. unfold counts. by rewrite Ety.
  - exists q. split; [done|]. split; [done|]. unfold counts. congruence.
Qed.

Lemma deal_counter ops st st1 now p : good_points (points ops ++ [p]) -> relay_inv ops st -> counts p ->
  CollectorMap st1 = CollectorMap st -> CounterCollectorValueMap st1 = CounterCollectorValueMap st ->
  exists c', dealCounterMetric now true p st1
      = Ok (set_CounterTimes (<[p_PKWithTagValue p := mkLastUpdate now (p_PK p) (p_TagValues p)]> (LastUpdateTimeOfCounter st1))
              (set_Values (<[p_PKWithTagValue p := p_Value p]> (CounterCollectorValueMap st1)) (set_Collectors (<[p_PK p := c']> (CollectorMap st1)) st1)))
    /\ is_counter c' = true /\ (forall vs, vec_ok (C c') vs = vec_ok (vec_new (p_Metric p) (p_TagKeys p)) vs)
    /\ vec_counter (C c') (p_TagValues p) = exported (history (p_PKWithTagValue p) ops ++ [(now, p_Value p)])
    /\ forall ws, ws <> p_TagValues p -> vec_counter (C c') ws = match CollectorMap st !! p_PK p with Some c => vec_counter (C c) ws | None => None end.
Proof.
  intros Hg Hi Hcnt Ec Ev. assert (Hp : p ∈ points ops ++ [p]) by (apply elem_of_app; right; by apply list_elem_of_singleton).
  pose proof (gp_labels _ Hg p Hp) as Hlab. pose proof (gp_counters _ Hg p Hp Hcnt) as Hpos.
  unfold dealCounterMetric, add_increase, load_increase, store_counter. rewrite Ec, Ev. destruct (CollectorMap st !! p_PK p) as [c|] eqn:Efind.
  - destruct (found_fits ops st p c Hg Hi Efind) as (Eis & Eok & q & Hq & Eq & Hcq). rewrite bool_decide_eq_true_2 in Eis by done.
    set (h := history (p_PKWithTagValue p) ops). pose proof (ri_values _ _ Hi (p_PKWithTagValue p)) as Eval. fold h in Eval. rewrite Eval.
    assert (Hexp : vec_counter (C c) (p_TagValues p) = exported h).
    { destruct (decide (Exists (fun r => p_PK r = p_PK p /\ p_TagValues r = p_TagValues p) (points ops))) as [(r & Hr & Er & Evr)%list.Exists_exists|Hno]; [|rewrite list.Exists_exists in Hno].
      - assert (Hr' : r ∈ points ops ++ [p]) by (apply elem_of_app; by left).
        pose proof (series_determined r p (gp_wf _ Hg r Hr') (gp_wf _ Hg p Hp) Er Evr) as Ekey.
        destruct (PK_inj r p) as [Em _]; [by apply (gp_wf _ Hg)..|done|]. pose proof (gp_types _ Hg r p Hr' Hp Em) as Ety.
        rewrite <-Evr. unfold h. rewrite <-Ekey. apply (ri_counter _ _ Hi r c Hr); [unfold counts in *; congruence|by rewrite Er].
      - assert (h = []) as ->.
        { apply history_key. intros r Hr _ Ekey. apply Hno. exists r. split; [done|]. apply (gp_keys _ Hg); [apply elem_of_app; by left|done|done]. }
        apply (ri_others _ _ Hi q); [done|by apply Hcq|by rewrite Eq|]. intros r Hr Er Evr. apply Hno. exists r. split; [done|]. split; [congruence|done]. }
    rewrite exported_snoc. assert (Hadd : forall x, add_to p x c = Ok (mkCollector (vec_add (p_TagValues p) x (C c)) true (MetricType c))).
    { intros x. unfold add_to. by rewrite Eis, Eok, Hlab. }
    assert (Hnew : forall x, let c' := mkCollector (vec_add (p_TagValues p) x (C c)) true (MetricType c) in
      is_counter c' = true /\ (forall vs, vec_ok (C c') vs = vec_ok (vec_new (p_Metric p) (p_TagKeys p)) vs)
      /\ vec_counter (C c') (p_TagValues p) = Some (counter_add (default counter_zero (exported h)) x)
      /\ forall ws, ws <> p_TagValues p -> vec_counter (C c') ws = vec_counter (C c) ws).
    { intros x. cbn. split; [done|]. split; [intros vs; by rewrite vec_ok_add, Eok|]. split; [by rewrite vec_counter_add, decide_True, Hexp by done|].
      intros ws Hws. by rewrite vec_counter_add, decide_False by done. }
    destruct (list.last h) as [[t lv]|] eqn:El; cbn [fmap option_fmap option_map].
    + assert (is_Some (exported h)) as [n En].
      { destruct (exported h) eqn:E; [by eexists|]. apply exported_nil in E. by rewrite E in El. }
      cbn [snd]. destruct (at_least_zero (f64_sub (p_Value p) lv)) eqn:Ea.
      * rewrite Hadd. cbn [rbind]. eexists. split; [unfold set_CounterTimes, set_Values, set_Collectors; cbn [CounterCollectorValueMap LastUpdateTimeOfCounter]; rewrite ?Ev; reflexivity|]. rewrite En. cbn. specialize (Hnew (f64_sub (p_Value p) lv)). rewrite En in Hnew. exact Hnew.
      * cbn [rbind]. exists c. split; [rewrite (insert_id (CollectorMap st)) by done; rewrite <-Ec, <-?Ev; by destruct st1|]. rewrite Hexp. done.
    + assert (h = []) as Eh by (by apply last_None). rewrite Hpos, Hadd. cbn [rbind]. eexists. split; [unfold set_CounterTimes, set_Values, set_Collectors; cbn [CounterCollectorValueMap LastUpdateTimeOfCounter]; rewrite ?Ev; reflexivity|].
      specialize (Hnew (p_Value p)). rewrite Eh in Hnew. exact Hnew.
  - rewrite Hlab, Hpos. cbn [andb rbind]. eexists. split; [unfold set_CounterTimes, set_Values, set_Collectors; cbn [CounterCollectorValueMap LastUpdateTimeOfCounter]; rewrite ?Ev; reflexivity|]. cbn. split; [done|]. split; [intros vs; apply vec_ok_add|].
    assert (history (p_PKWithTagValue p) ops = []) as ->.
    { apply history_key. intros r Hr _ Ekey. destruct (gp_keys _ Hg r p) as [Er _]; [apply elem_of_app; by left|done|done|].
      destruct (ri_there _ _ Hi r Hr) as [c Hc]. rewrite Er in Hc. congruence. }
    split; [by rewrite vec_counter_add, decide_True, vec_counter_new by done|]. intros ws Hws. by rewrite vec_counter_add, decide_False, vec_counter_new by done.
Qed.

Lemma same_series l p q : good_points l -> p ∈ l -> q ∈ l -> p_PKWithTagValue p = p_PKWithTagValue q <-> p_PK p = p_PK q /\ p_TagValues p = p_TagValues q.
Proof. intros Hg Hp Hq. split; [by apply (gp_keys _ Hg)|]. intros [E1 E2]. by apply series_determined; [apply (gp_wf _ Hg)..| |]. Qed.
Lemma same_kind l p q : good_points l -> p ∈ l -> q ∈ l -> p_PK p = p_PK q -> counts p <-> counts q.
Proof.
  intros Hg Hp Hq E. destruct (PK_inj p q) as [Em _]; [by apply (gp_wf _ Hg)..|done|]. unfold counts. by rewrite (gp_types _ Hg p q Hp Hq Em).
Qed.
Lemma snoc_elem {A : Type} (x y : A) l : x ∈ l ++ [y] <-> x ∈ l \/ x = y.
Proof. by rewrite elem_of_app, list_elem_of_singleton. Qed.

Lemma counter_inv ops st now p : good_points (points ops ++ [p]) -> relay_inv ops st -> counts p -> relay_inv (ops ++ [Op_work now p]) (work now true p st).
Proof.
  intros Hg Hi Hcnt. destruct (work_deals ops st now p Hg Hi) as (M & HM & ->). rewrite decide_True by done.
  destruct (deal_counter ops st (set_Types M st) now p Hg Hi Hcnt eq_refl eq_refl) as (c' & -> & Eis & Eok & Eexp & Eother).
  assert (Hp : p ∈ points ops ++ [p]) by (apply snoc_elem; by right).
  assert (Hin : forall q, q ∈ points ops -> q ∈ points ops ++ [p]) by (intros q Hq; apply snoc_elem; by left).
  assert (Hh : forall q, q ∈ points ops ++ [p] -> history (p_PKWithTagValue q) (ops ++ [Op_work now p])
    = if decide (p_PK q = p_PK p /\ p_TagValues q = p_TagValues p) then history (p_PKWithTagValue p) ops ++ [(now, p_Value p)] else history (p_PKWithTagValue q) ops).
  { intros q Hq. rewrite history_snoc. cbn [follow]. pose proof (same_series _ q p Hg Hq Hp) as Hs. destruct (decide (p_PK q = p_PK p /\ _)) as [Hd|Hd].
    - rewrite decide_True; [|split; [done|]; symmetry; by apply Hs]. apply Hs in Hd. by rewrite Hd.
    - rewrite decide_False; [done|]. intros [_ E]. by apply Hd, Hs. }
  constructor; rewrite ?points_snoc; change (points [Op_work now p]) with [p]; cbn.
  - intros q Hq. rewrite HM. destruct (decide (p_Metric q = p_Metric p)) as [E|E]; [by rewrite (gp_types _ Hg q p Hq Hp E)|].
    apply snoc_elem in Hq as [Hq| ->]; [by apply (ri_types _ _ Hi)|done].
  - intros m t. rewrite HM. destruct (decide (m = p_Metric p)) as [->|E]; [intros _; by exists p|]. intros Ht.
    destruct (ri_only _ _ Hi m t Ht) as (q & Hq & Em). exists q. auto.
  - intros pk c. destruct (decide (p_PK p = pk)) as [<-|Hne]; [rewrite lookup_insert_eq|rewrite lookup_insert_ne by done].
    + intros [= <-]. exists p. rewrite bool_decide_eq_true_2 by done. auto.
    + intros Hc. destruct (ri_collector _ _ Hi pk c Hc) as (q & Hq & ?). exists q. auto.
  - intros q Hq. destruct (decide (p_PK p = p_PK q)) as [->|Hne]; [rewrite lookup_insert_eq; by eexists|rewrite lookup_insert_ne by done].
    apply snoc_elem in Hq as [Hq| ->]; [by apply (ri_there _ _ Hi)|done].
  - intros q c Hq Hcq. rewrite (Hh q Hq). destruct (decide (p_PK p = p_PK q)) as [E|Hne]; [rewrite E, lookup_insert_eq|rewrite lookup_insert_ne by done].
    + intros [= <-]. destruct (decide (p_TagValues q = p_TagValues p)) as [Ev|Ev]; [by rewrite decide_True, Ev by done|].
      rewrite decide_False by (intros [_ ?]; done). rewrite Eother by done. apply snoc_elem in Hq as [Hq| ->]; [|done].
      destruct (ri_there _ _ Hi q Hq) as [c0 Hc0]. rewrite E, Hc0. by apply (ri_counter _ _ Hi).
    + intros Hc. rewrite decide_False by (intros [? _]; done). apply snoc_elem in Hq as [Hq| ->]; [by apply (ri_counter _ _ Hi)|done].
  - intros k. rewrite history_snoc. cbn [follow]. destruct (decide (p_PKWithTagValue p = k)) as [<-|Hne].
    + rewrite lookup_insert_eq, decide_True, last_snoc by done. done.
    + rewrite lookup_insert_ne, decide_False by (done || intros [_ ?]; done). apply (ri_values _ _ Hi).
  - intros k. rewrite history_snoc. cbn [follow]. destruct (decide (p_PKWithTagValue p = k)) as [<-|Hne].
    + rewrite lookup_insert_eq, decide_True, last_snoc by done. done.
    + rewrite lookup_insert_ne, decide_False by (done || intros [_ ?]; done). apply (ri_times _ _ Hi).
  - intros k lu. destruct (decide (p_PKWithTagValue p = k)) as [<-|Hne]; [rewrite lookup_insert_eq|rewrite lookup_insert_ne by done].
    + intros [= <-]. exists p. auto.
    + intros Hl. destruct (ri_last _ _ Hi k lu Hl) as (q & Hq & ?). exists q. auto.
  - intros k lu Hl. destruct (ri_gauge _ _ Hi k lu Hl) as (q & Hq & ?). exists q. auto.
  - intros q c vs Hq Hcq Hc Hno. destruct (decide (p_PK p = p_PK q)) as [E|Hne]; [rewrite E, lookup_insert_eq in Hc|rewrite lookup_insert_ne in Hc by done].
    + injection Hc as <-. rewrite Eother by (intros ->; by apply (Hno p Hp)). destruct (CollectorMap st !! p_PK p) as [c0|] eqn:Ec0; [|done].
      destruct (found_fits ops st p c0 Hg Hi Ec0) as (_ & _ & q0 & Hq0 & Eq0 & Hcq0). apply (ri_others _ _ Hi q0); [done|by apply Hcq0|by rewrite Eq0|].
      intros r Hr Er. apply Hno; [auto|congruence].
    + apply snoc_elem in Hq as [Hq| ->]; [|done]. apply (ri_others _ _ Hi q); try done. intros r Hr Er. apply Hno; auto.
Qed.

Lemma gauge_inv ops st now p : good_points (points ops ++ [p]) -> relay_inv ops st -> ~ counts p -> relay_inv (ops ++ [Op_work now p]) (work now true p st).
Proof.
  intros Hg Hi Hcnt. destruct (work_deals ops st now p Hg Hi) as (M & HM & ->). rewrite decide_False by done.
  assert (Hp : p ∈ points ops ++ [p]) by (apply snoc_elem; by right).
  assert (Hin : forall q, q ∈ points ops -> q ∈ points ops ++ [p]) by (intros q Hq; apply snoc_elem; by left).
  assert (exists c', dealGaugeMetric now true p (set_Types M st)
      = Ok (set_GaugeTimes (<[p_PKWithTagValue p := mkLastUpdate now (p_PK p) (p_TagValues p)]> (LastUpdateTimeOfGauge st)) (set_Collectors (<[p_PK p := c']> (CollectorMap st)) (set_Types M st)))
    /\ is_counter c' = false /\ forall vs, vec_ok (C c') vs = vec_ok (vec_new (p_Metric p) (p_TagKeys p)) vs) as (c' & -> & Eis & Eok).
  { pose proof (gp_labels _ Hg p Hp) as Hlab. unfold dealGaugeMetric. cbn [CollectorMap set_Types]. destruct (CollectorMap st !! p_PK p) as [c|] eqn:Ec.
    - destruct (found_fits ops st p c Hg Hi Ec) as (Eis & Eok & _). rewrite bool_decide_eq_false_2 in Eis by done. rewrite Eis, Eok, Hlab. cbn [orb negb rbind].
      eexists. split; [reflexivity|]. cbn. split; [done|]. intros vs. by rewrite vec_ok_set.
    - rewrite Hlab. cbn [andb rbind]. eexists. split; [reflexivity|]. cbn. split; [done|]. intros vs. apply vec_ok_set. }
  assert (Hh : forall k, history k (ops ++ [Op_work now p]) = history k ops) by (intros k; rewrite history_snoc; cbn [follow]; by rewrite decide_False by (intros [? _]; done)).
  assert (Hcol : forall q, q ∈ points ops ++ [p] -> counts q -> <[p_PK p := c']> (CollectorMap st) !! p_PK q = CollectorMap st !! p_PK q).
  { intros q Hq Hcq. apply lookup_insert_ne. intros E. apply Hcnt. by apply (same_kind _ p q Hg). }
  constructor; rewrite ?points_snoc; change (points [Op_work now p]) with [p]; cbn.
  - intros q Hq. rewrite HM. destruct (decide (p_Metric q = p_Metric p)) as [E|E]; [by rewrite (gp_types _ Hg q p Hq Hp E)|].
    apply snoc_elem in Hq as [Hq| ->]; [by apply (ri_types _ _ Hi)|done].
  - intros m t. rewrite HM. destruct (decide (m = p_Metric p)) as [->|E]; [intros _; by exists p|]. intros Ht.
    destruct (ri_only _ _ Hi m t Ht) as (q & Hq & Em). exists q. auto.
  - intros pk c. destruct (decide (p_PK p = pk)) as [<-|Hne]; [rewrite lookup_insert_eq|rewrite lookup_insert_ne by done].
    + intros [= <-]. exists p. rewrite bool_decide_eq_false_2 by done. auto.
    + intros Hc. destruct (ri_collector _ _ Hi pk c Hc) as (q & Hq & ?). exists q. auto.
  - intros q Hq. destruct (decide (p_PK p = p_PK q)) as [->|Hne]; [rewrite lookup_insert_eq; by eexists|rewrite lookup_insert_ne by done].
    apply snoc_elem in Hq as [Hq| ->]; [by apply (ri_there _ _ Hi)|done].
  - intros q c Hq Hcq. rewrite Hcol, Hh by done. apply snoc_elem in Hq as [Hq| ->]; [by apply (ri_counter _ _ Hi)|done].
  - intros k. rewrite Hh. apply (ri_values _ _ Hi).
  - intros k. rewrite Hh. apply (ri_times _ _ Hi).
  - intros k lu Hl. destruct (ri_last _ _ Hi k lu Hl) as (q & Hq & ?). exists q. auto.
  - intros k lu. destruct (decide (p_PKWithTagValue p = k)) as [<-|Hne]; [rewrite lookup_insert_eq|rewrite lookup_insert_ne by done].
    + intros [= <-]. exists p. auto.
    + intros Hl. destruct (ri_gauge _ _ Hi k lu Hl) as (q & Hq & ?). exists q. auto.
  - intros q c vs Hq Hcq. rewrite Hcol by done. intros Hc Hno. apply snoc_elem in Hq as [Hq| ->]; [|done].
    apply (ri_others _ _ Hi q); try done. intros r Hr Er. apply Hno; auto.
Qed.

Lemma clean_gauge_inv ops st now key : good_points (points ops) -> relay_inv ops st ->
  exists st', clean_gauge now st key = Ok st' /\ relay_inv (ops ++ [Op_clean_gauge now key]) st'.
Proof.
  intros Hg Hi. assert (Hp : points (ops ++ [Op_clean_gauge now key]) = points ops) by (rewrite points_snoc; apply app_nil_r).
  assert (Hh : forall k, history k (ops ++ [Op_clean_gauge now key]) = history k ops) by (intros k; by rewrite history_snoc).
  assert (Hsame : relay_inv (ops ++ [Op_clean_gauge now key]) st).
  { destruct Hi. constructor; rewrite ?Hp; try done; intros; rewrite Hh; auto. }
  unfold clean_gauge. destruct (LastUpdateTimeOfGauge st !! key) as [lu|] eqn:El; [|by exists st]. destruct (outdated now lu); cbn [negb]; [|by exists st].
  destruct (CollectorMap st !! Last_PK lu) as [c|] eqn:Ec; [|by exists st]. destruct (ri_gauge _ _ Hi key lu El) as (p & Hpin & Hcnt & Epk).
  destruct (ri_collector _ _ Hi _ _ Ec) as (q & Hq & Eq & Eis & Eok).
  assert (~ counts q) as Hcq by (intros Hcq; apply Hcnt; apply (same_kind _ p q Hg Hpin Hq); [congruence|done]).
  rewrite bool_decide_eq_false_2 in Eis by done. rewrite Eis. eexists. split; [reflexivity|].
  assert (Hcol : forall r c', r ∈ points ops -> counts r -> <[Last_PK lu := c']> (CollectorMap st) !! p_PK r = CollectorMap st !! p_PK r).
  { intros r c' Hr Hcr. apply lookup_insert_ne. intros E. apply Hcnt. apply (same_kind _ p r Hg Hpin Hr); [congruence|done]. }
  destruct Hsame. constructor; rewrite ?Hp in *; cbn; try done.
  - intros pk c1. destruct (decide (Last_PK lu = pk)) as [<-|Hne]; [rewrite lookup_insert_eq|rewrite lookup_insert_ne by done; auto].
    intros [= <-]. exists q. rewrite bool_decide_eq_false_2 by done. repeat split; try done. intros vs. cbn. by rewrite vec_ok_delete, Eok.
  - intros r Hr. destruct (decide (Last_PK lu = p_PK r)) as [->|Hne]; [rewrite lookup_insert_eq; by eexists|rewrite lookup_insert_ne by done; auto].
  - intros r c1 Hr Hcr. rewrite Hcol by done. auto.
  - intros k lu' [_ Hl]%lookup_delete_Some. eauto.
  - intros r c1 vs Hr Hcr. rewrite Hcol by done. eauto.
Qed.

Lemma clean_counter_inv ops st now key : good_points (points ops) -> relay_inv ops st ->
  exists st', clean_counter now st key = Ok st' /\ relay_inv (ops ++ [Op_clean_counter now key]) st'.
Proof.
  intros Hg Hi. assert (Hp : points (ops ++ [Op_clean_counter now key]) = points ops) by (rewrite points_snoc; apply app_nil_r).
  assert (Hkeep : follow key (history key ops) (Op_clean_counter now key) = history key ops -> relay_inv (ops ++ [Op_clean_counter now key]) st).
  { intros Hf. assert (Hh : forall k, history k (ops ++ [Op_clean_counter now key]) = history k ops).
    { intros k. rewrite history_snoc. destruct (decide (key = k)) as [<-|Hne]; [done|]. cbn [follow]. by rewrite decide_False. }
    destruct Hi. constructor; rewrite ?Hp; try done; intros; rewrite Hh; auto. }
  pose proof (ri_times _ _ Hi key) as Ht. unfold clean_counter. cbn [follow] in Hkeep. rewrite decide_True in Hkeep by done.
  destruct (LastUpdateTimeOfCounter st !! key) as [lu|] eqn:El; cbn in Ht.
  2: { exists st. split; [done|]. apply Hkeep. by destruct (list.last _). }
  destruct (list.last (history key ops)) as [[t v]|] eqn:Eh; [|done]. injection Ht as Ht. unfold outdated. rewrite Ht.
  destruct (70000000000 <? now - t) eqn:Eo; cbn [negb]; [|exists st; split; [done|]; by apply Hkeep].
  destruct (ri_last _ _ Hi key lu El) as (p & Hpin & Hcnt & Ekey & Epk & Evals). rewrite Epk, Evals. destruct (ri_there _ _ Hi p Hpin) as [c Ec]. rewrite Ec.
  destruct (ri_collector _ _ Hi _ _ Ec) as (q & Hq & Eq & Eis & Eok). rewrite bool_decide_eq_true_2 in Eis by (by apply (same_kind _ q p Hg)). rewrite Eis. cbn [negb].
  eexists. split; [reflexivity|].
  assert (Hh : forall k, history k (ops ++ [Op_clean_counter now key]) = if decide (key = k) then [] else history k ops).
  { intros k. rewrite history_snoc. cbn [follow]. destruct (decide (key = k)) as [<-|]; [by rewrite Eh, Eo|done]. }
  assert (Hkey : forall r, r ∈ points ops -> p_PK r = p_PK p -> p_TagValues r <> p_TagValues p -> key <> p_PKWithTagValue r).
  { intros r Hr Er Ev E. rewrite <-Ekey in E. symmetry in E. by apply (same_series _ r p Hg Hr Hpin) in E as [_ ?]. }
  constructor; rewrite ?Hp; cbn.
  - apply (ri_types _ _ Hi).
  - apply (ri_only _ _ Hi).
  - intros pk c1. destruct (decide (p_PK p = pk)) as [<-|Hne]; [rewrite lookup_insert_eq|rewrite lookup_insert_ne by done; apply (ri_collector _ _ Hi)].
    intros [= <-]. exists q. rewrite bool_decide_eq_true_2 by (by apply (same_kind _ q p Hg)). repeat split; try done. intros vs. cbn. by rewrite vec_ok_delete, Eok.
  - intros r Hr. destruct (decide (p_PK p = p_PK r)) as [->|Hne]; [rewrite lookup_insert_eq; by eexists|rewrite lookup_insert_ne by done; by apply (ri_there _ _ Hi)].
  - intros r c1 Hr Hcr. rewrite Hh. destruct (decide (p_PK p = p_PK r)) as [E|Hne]; [rewrite E, lookup_insert_eq|rewrite lookup_insert_ne by done].
    + intros [= <-]. cbn. rewrite vec_counter_delete. destruct (decide (p_TagValues r = p_TagValues p)) as [Ev|Ev].
      * rewrite decide_True; [done|]. rewrite <-Ekey. symmetry. by apply (same_series _ r p Hg).
      * rewrite decide_False by (by apply Hkey). apply (ri_counter _ _ Hi); [done..|congruence].
    + intros Hc1. rewrite decide_False; [by apply (ri_counter _ _ Hi)|]. intros E. rewrite <-Ekey in E. by apply (same_series _ p r Hg Hpin Hr) in E as [? _].
  - intros k. rewrite Hh. destruct (decide (key = k)) as [<-|Hne]; [by rewrite lookup_delete_eq|rewrite lookup_delete_ne by done; apply (ri_values _ _ Hi)].
  - intros k. rewrite Hh. destruct (decide (key = k)) as [<-|Hne]; [by rewrite lookup_delete_eq|rewrite lookup_delete_ne by done; apply (ri_times _ _ Hi)].
  - intros k lu' [_ Hl]%lookup_delete_Some. by apply (ri_last _ _ Hi).
  - apply (ri_gauge _ _ Hi).
  - intros r c1 vs Hr Hcr Hc1 Hno. destruct (decide (p_PK p = p_PK r)) as [E|Hne]; [rewrite E, lookup_insert_eq in Hc1|rewrite lookup_insert_ne in Hc1 by done; by apply (ri_others _ _ Hi r)].
    injection Hc1 as <-. cbn. rewrite vec_counter_delete. destruct (decide _); [done|]. apply (ri_others _ _ Hi r); try done. congruence.
Qed.

Lemma run_inv ops : good_points (points ops) -> exists st, p8s_run ops no_series = Ok st /\ relay_inv ops st.
Proof.
  induction ops as [|op ops IH] using rev_ind; intros Hg.
  { exists no_series. split; [done|]. constructor; intros; try done; try (by apply not_elem_of_nil in H0). }
  rewrite points_snoc in Hg. destruct IH as (st & Hrun & Hi); [by eapply good_sub; [|done]; intros p Hp; apply elem_of_app; left|].
  unfold p8s_run in *. rewrite rfold_app, Hrun. cbn [rbind rfold].
  destruct op as [now p|now key|now key]; cbn [p8s_step]; change (points [_]) with [p] in Hg || change (points [_]) with (@nil P8sPoint) in Hg; rewrite ?app_nil_r in Hg.
  - cbn [rbind]. eexists. split; [done|]. destruct (decide (counts p)); [by apply counter_inv|by apply gauge_inv].
  - destruct (clean_counter_inv ops st now key Hg Hi) as (st' & -> & Hi'). by exists st'.
  - destruct (clean_gauge_inv ops st now key Hg Hi) as (st' & -> & Hi'). by exists st'.
Qed.

(** C37. What the relay exports of counters when it handles its points one at a time: with one
    worker, and no clean-up in the middle of a point. Points come in any order, with clean-ups
    between them; they are as the receiver makes them, of one type for each metric, counters not
    below zero, with labels that the client and its registry accept, and a key belongs to one
    series. Then the relay never panics, and the exported value of every counter is the first
    value it was sent since it was last removed plus its increases since then; what a series
    sends never shows in another. Nothing keeps several workers, of which there are 100 by
    default, from handling two points of a series at the same time: then an increase can be
    counted twice ([workers_race]). *)
Theorem counters_exported ops : good_points (points ops) ->
  exists st, p8s_run ops no_series = Ok st /\
    forall p, p ∈ points ops -> counts p -> exists c, CollectorMap st !! p_PK p = Some c /\ is_counter c = true /\
      vec_counter (C c) (p_TagValues p) = exported (history (p_PKWithTagValue p) ops).
Proof.
  intros Hg. destruct (run_inv ops Hg) as (st & Hrun & Hi). exists st. split; [done|]. intros p Hp Hc.
  destruct (ri_there _ _ Hi p Hp) as [c Ec]. exists c. split; [done|]. split; [|by apply (ri_counter _ _ Hi)].
  destruct (ri_collector _ _ Hi _ _ Ec) as (q & Hq & Eq & -> & _). apply bool_decide_eq_true_2. by apply (same_kind _ q p Hg Hq Hp).
Qed.
End Exported.

(** * Examples *)

(** A client that counts in f64 and accepts any values in the right number. *)
Record toy_vec := mkToyVec { tv_labels : list string; tv_counters : gmap (list string) f64; tv_gauges : gmap (list string) f64 }.
#[export, refine] Instance toy_client : PromClient := {|
  counter := f64;
  counter_zero := f64_zero;
  counter_add := f64_add;
  vec := toy_vec;
  vec_new _ ls := mkToyVec ls ∅ ∅;
  vec_ok v vs := (length vs =? length (tv_labels v))%nat;
  vec_counter v vs := tv_counters v !! vs;
  vec_gauge v vs := tv_gauges v !! vs;
  vec_add vs x v := mkToyVec (tv_labels v) (<[vs := f64_add (default f64_zero (tv_counters v !! vs)) x]> (tv_counters v)) (tv_gauges v);
  vec_set vs x v := mkToyVec (tv_labels v) (tv_counters v) (<[vs := x]> (tv_gauges v));
  vec_delete vs v := mkToyVec (tv_labels v) (delete vs (tv_counters v)) (delete vs (tv_gauges v)) |}.
Proof.
  - done.
  - intros v vs x ws. cbn. destruct (decide (ws = vs)) as [->|Hne]; [by rewrite lookup_insert_eq|by rewrite lookup_insert_ne].
  - intros v vs ws. cbn. destruct (decide (ws = vs)) as [->|Hne]; [by rewrite lookup_delete_eq|by rewrite lookup_delete_ne].
  - intros v vs x ws. cbn. destruct (decide (ws = vs)) as [->|Hne]; [by rewrite lookup_insert_eq|by rewrite lookup_insert_ne].
  - intros name ls vs. cbn. apply Nat.eqb_eq.
  - done.
  - done.
  - done.
Defined.

(** Requests of two hosts. *)
Definition requests (host : string) (n : Z) : P8sPoint :=
  mkP8sPoint "http_requests" {["hostname" := host]} ["hostname"] [host] (f64_of_Z n) "COUNTER" "http_requests/hostname" ("http_requests/hostname=" +:+ host).
Lemma requests_prepared : prepare true ["hostname"] (mkP8sItem "h1" "http.requests" ∅ (f64_of_Z 10) 1600000000 "COUNTER" 60) = Ok (Some (requests "h1" 10)).
Proof. by vm_compute. Qed.
Definition two_hosts : list p8s_op :=
  [Op_work 0 (requests "h1" 10); Op_work 1 (requests "h2" 100); Op_work 60000000000 (requests "h1" 25); Op_work 61000000000 (requests "h1" 3);
   Op_clean_counter 90000000000 "http_requests/hostname=h2"; Op_work 120000000000 (requests "h1" 7)].
Lemma two_hosts_good : good_points (points two_hosts).
Proof.
  assert (Hall : forall p, p ∈ points two_hosts -> exists h n, p = requests h n /\ h ∈ ["h1"; "h2"] /\ n ∈ [10; 100; 25; 3; 7]).
  { apply list.Forall_forall. unfold two_hosts, points. cbn [omap list_omap]. repeat (apply List.Forall_cons; [eexists _, _; split_and!; [reflexivity|set_solver|set_solver]|]). apply List.Forall_nil. }
  assert (Hkey : forall (h : string) n, PKWithTagValue "http_requests" {["hostname" := h]} = "http_requests/hostname=" +:+ h -> wf_point (requests h n)).
  { intros h n E. constructor; cbn [requests p_Metric p_Tags p_TagKeys p_TagValues p_PK p_PKWithTagValue].
    - split; vm_compute; reflexivity.
    - apply map_non_empty_singleton.
    - intros k [v Hk]. apply lookup_singleton_Some in Hk as [<- _]. split; vm_compute; reflexivity.
    - unfold SortedTagKVs, KeysOfMap, keys_of. rewrite map_to_list_singleton. cbn. by rewrite lookup_singleton_eq.
    - reflexivity.
    - by rewrite E. }
  constructor.
  - intros p (h & n & -> & Hh & _)%Hall. apply Hkey. set_unfold in Hh. destruct Hh as [->|[->|[]]]; by vm_compute.
  - by intros p q (h & n & -> & _)%Hall (h' & n' & -> & _)%Hall.
  - intros p (h & n & -> & _ & Hn)%Hall _. set_unfold in Hn. repeat destruct Hn as [->|Hn]; try done; by vm_compute.
  - by intros p (h & n & -> & _)%Hall.
  - intros p q (h & n & -> & _)%Hall (h' & n' & -> & _)%Hall. cbn [requests p_PKWithTagValue]. intros ->%(inj (String.append _)). done.
Qed.
Lemma counters_exported_witness : good_points (points two_hosts) /\
  exists st, p8s_run two_hosts no_series = Ok st /\
    forall p, p ∈ points two_hosts -> counts p -> exists c, CollectorMap st !! p_PK p = Some c /\ is_counter c = true /\
      vec_counter (C c) (p_TagValues p) = exported (history (p_PKWithTagValue p) two_hosts).
Proof. split; [exact two_hosts_good|]. apply (counters_exported two_hosts). exact two_hosts_good. Defined.
(** 10, 15 more, a restart at 3, and 4 more; the other host's counter is gone. *)
Example two_hosts_values :
  exported (history "http_requests/hostname=h1" two_hosts) = Some (f64_of_Z 29) /\ exported (history "http_requests/hostname=h2" two_hosts) = None.
Proof. by vm_compute. Qed.

(** Two workers load the last value, 10, before either stores its own: the increase to 15 is
    counted twice, and the export, 25, is above every value of the counter. *)
Definition after_ten : P8sState := work 0 true (requests "h1" 10) no_series.
Definition shown_for (host : string) (st : P8sState) : option f64 :=
  match CollectorMap st !! "http_requests/hostname" with Some c => vec_counter (C c) [host] | None => None end.
Example workers_race :
  let p := requests "h1" 15 in let q := requests "h1" 20 in
  let incr_p := load_increase p after_ten in
  let incr_q := load_increase q after_ten in
  (let add incr x st := match CollectorMap st !! p_PK x with Some c => add_increase x incr c st | None => Ok st end in
   let! st := add incr_p p after_ten in
   let! st := add incr_q q st in
   Ok (shown_for "h1" (store_counter 2 q (store_counter 1 p st)))) = Ok (Some (f64_of_Z 25))
  /\ shown_for "h1" (work 2 true q (work 1 true p after_ten)) = Some (f64_of_Z 20).
Proof. by vm_compute. Qed.

(** Two series whose values have commas share a key: the last value of one is taken from the
    next value of the other. *)
Definition comma_point (tags : tagmap) (n : Z) : result (option P8sPoint) := prepare true ["hostname"; "a"; "b"] (mkP8sItem "h" "m" tags (f64_of_Z n) 0 "COUNTER" 60).
Definition c1 : tagmap := {["a" := "x,b=y"; "b" := "z"]}.
Definition c2 : tagmap := {["a" := "x"; "b" := "y,b=z"]}.
Definition key_of (r : result (option P8sPoint)) : option (string * list string) := match r with Ok (Some p) => Some (p_PKWithTagValue p, p_TagValues p) | _ => None end.
Example commas_share :
  key_of (comma_point c1 5) = Some ("m/a=x,b=y,b=z,hostname=h", ["x,b=y"; "z"; "h"]) /\
  key_of (comma_point c2 9) = Some ("m/a=x,b=y,b=z,hostname=h", ["x"; "y,b=z"; "h"]).
Proof. by vm_compute. Qed.
(** An empty tag name and tags that are not a map stop the process; names that become equal
    lose a tag. *)
Example bad_tags :
  prepare true [""; "hostname"] (mkP8sItem "h" "m" {["" := "v"]} f64_zero 0 "GAUGE" 60) = Panic IndexOutOfRange /\
  prepare false [] (mkP8sItem "h" "m" ∅ f64_zero 0 "GAUGE" 60) = Panic NilDereference /\
  key_of (prepare true ["hostname"; "a.b"; "a-b"] (mkP8sItem "h" "m" {["a.b" := "1"; "a-b" := "2"]} f64_zero 0 "GAUGE" 60)) = Some ("m/a_b=2,hostname=h", ["2"; "h"]).
Proof. by vm_compute. Qed.
