(* ===== verification/Control.v ===== *)
(** The command line, g and cmd: which modules there are, where their files lie, and the
    commands that start, stop and show them. The operating system is a parameter: processes
    are found with [pgrep -f], started, and sent a signal with [kill]. *)
From Stdlib Require Import Ascii ZArith.
From stdpp Require Import base list gmap strings numbers.
From S2P Require Import Prelude GoString GoText Utils AgentPlugins.

Local Open Scope Z_scope.

(** * g/g.go *)

Definition AllModulesInOrder : list string :=
  ["graph"; "hbs"; "judge"; "transfer"; "nodata"; "aggregator"; "agent"; "gateway"; "api"; "alarm"; "falcon2p8s"].
Definition names : list string :=
  ["agent"; "aggregator"; "graph"; "hbs"; "judge"; "nodata"; "transfer"; "gateway"; "api"; "alarm"; "falcon2p8s"].
Definition table {A : Type} (f : string -> A) : gmap string A := list_to_map (map (fun n => (n, f n)) names).
Definition Modules : gmap string bool := table (fun _ => true).
Definition BinOf : gmap string string := table (fun n => "./" +:+ n +:+ "/bin/falcon-" +:+ n).
Definition cfgOf : gmap string string := table (fun n => "./" +:+ n +:+ "/config/cfg.json").
Definition ModuleApps : gmap string string := table (fun n => "falcon-" +:+ n).
Definition logpathOf : gmap string string := table (fun n => "./" +:+ n +:+ "/logs/" +:+ n +:+ ".log").
Definition not_set : string := "<NOT SET>".
Definition PidOf_init : gmap string string := table (fun _ => not_set).
(** A key that is missing has the zero value. *)
Definition text_of (m : gmap string string) (name : string) : string := default "" (m !! name).
Definition HasModule (name : string) : bool := default false (Modules !! name).
Definition app (name : string) : string := text_of ModuleApps name.

(** * g/tool.go: lists of arguments *)

(** The arguments found in the order: for each module of the order, the arguments equal to it. *)
Definition found_in_order (moduleArgs : list string) : list string :=
  AllModulesInOrder ≫= fun nameOrder => filter (fun nameArg => nameOrder = nameArg) moduleArgs.
(** The second loop appends an argument that is not yet there. *)
Definition append_missing (modulesInOrder : list string) (nameArg : string) : list string :=
  if bool_decide (nameArg ∈ modulesInOrder) then modulesInOrder else modulesInOrder ++ [nameArg].
Definition PreqOrder (moduleArgs : list string) : list string :=
  match moduleArgs with [] => [] | _ => fold_left append_missing moduleArgs (found_in_order moduleArgs) end.
Definition rm_dup_step (acc : list string * gset string) (arg : string) : list string * gset string :=
  let '(ret, isDup) := acc in if bool_decide (arg ∈ isDup) then acc else (ret ++ [arg], {[arg]} ∪ isDup).
Definition RmDup (args : list string) : list string :=
  match args with [] => [] | [_] => args | _ => fst (fold_left rm_dup_step args ([], ∅)) end.

(** * The operating system *)

(** Each call gives the new state and its error, if it has one. *)
Class Machine := {
  machine : Type;
  (** the working directory, when it can be found *)
  os_Getwd : machine -> option string;
  (** a file can be looked at *)
  os_Stat : string -> machine -> bool;
  os_MkdirAll : string -> machine -> machine * option string;
  os_OpenFile : string -> machine -> machine * option string;
  (** what [pgrep -f] prints *)
  pgrep : string -> machine -> string;
  (** [Run], which waits for the end, or [Start] *)
  cmd_exec : bool -> string -> list string -> machine -> machine * option string;
  kill_TERM : string -> machine -> machine * option string;
  tail : list string -> machine -> machine * option string;
  time_Sleep : Z -> machine -> machine }.

Definition nl : string := String "010" "".

Section Control.
Context `{Machine}.

(** The state of a command: the cache of pids, the machine, what was printed. *)
Record control := mkControl { PidOf : gmap string string; sys : machine; printed : list string }.
Definition set_sys (m : machine) (st : control) : control := mkControl (PidOf st) m (printed st).
Definition fmt_Print (s : string) (st : control) : control := mkControl (PidOf st) (sys st) (printed st ++ [s]).
Definition call (f : machine -> machine * option string) (st : control) : control * option string :=
  let '(m, err) := f (sys st) in (set_sys m st, err).

(** [filepath.Abs], without its error. *)
Definition filepath_Abs (p : string) (m : machine) : string :=
  if strings_HasPrefix p "/" then filepath_Clean p else match os_Getwd m with Some wd => filepath_Join wd p | None => "" end.
Definition Bin (name : string) (m : machine) : string := filepath_Abs (text_of BinOf name) m.
Definition Cfg (name : string) (m : machine) : string := filepath_Abs (text_of cfgOf name) m.
Definition LogPath (name : string) (m : machine) : string := filepath_Abs (text_of logpathOf name) m.
(** [filepath.Dir]: the path without its last element. *)
Definition filepath_Dir (p : string) : string :=
  match reverse (strings_Split p "/") with [] | [_] => "." | _ :: rest => filepath_Clean (strings_Join (reverse rest) "/" +:+ "/") end.
Definition LogDir (name : string) (m : machine) : string := filepath_Abs (filepath_Dir (text_of logpathOf name)) m.

(** * g/tool.go: files and processes *)

Definition HasLogfile (name : string) (st : control) : bool := os_Stat (LogPath name (sys st)) (sys st).
Definition HasCfg (name : string) (st : control) : bool := os_Stat (Cfg name (sys st)) (sys st).
(** [filepath.Rel] of two absolute paths that are clean. *)
Fixpoint rel_parts (base target : list string) : list string :=
  match base, target with
  | b :: bs, t :: ts => if bool_decide (b = t) then rel_parts bs ts else map (fun _ => "..") base ++ target
  | _, _ => map (fun _ => "..") base ++ target
  end.
Definition parts (p : string) : list string := filter (fun s => s <> "") (strings_Split p "/").
Definition Rel (p : string) (m : machine) : string :=
  match os_Getwd m with
  | None => ""
  | Some wd => match rel_parts (parts (filepath_Clean wd)) (parts (filepath_Abs p m)) with [] => "." | l => strings_Join l "/" end
  end.
Definition setPid (name : string) (st : control) : control :=
  mkControl (<[name := strings_TrimSpace (pgrep (app name) (sys st))]> (PidOf st)) (sys st) (printed st).
Definition Pid (name : string) (st : control) : control * string :=
  let st := if bool_decide (text_of (PidOf st) name = not_set) then setPid name st else st in (st, text_of (PidOf st) name).
Definition IsRunning (name : string) (st : control) : control * bool :=
  let '(st, pid) := Pid name (setPid name st) in (st, negb (bool_decide (pid = ""))).

(** * cmd/start.go *)

Definition cmdArgs (name : string) (m : machine) : list string := ["-c"; Cfg name m].
Definition openLogFile (name : string) (st : control) : control * option string :=
  match call (os_MkdirAll (LogDir name (sys st))) st with
  | (st, Some err) => (st, Some err)
  | (st, None) => call (os_OpenFile (LogPath name (sys st))) st
  end.
Definition execModule (co : bool) (name : string) (st : control) : control * option string :=
  let bin := Bin name (sys st) in let args := cmdArgs name (sys st) in
  if co then call (cmd_exec true bin args) st
  else match openLogFile name st with
       | (st, Some err) => (st, Some err)
       | (st, None) => call (cmd_exec false bin args) st
       end.
Definition checkStartReq (name : string) (st : control) : option string :=
  if negb (HasModule name) then Some (name +:+ " doesn't exist")
  else if negb (HasCfg name st) then Some ("expect config file: " +:+ Rel (Cfg name (sys st)) (sys st))
  else None.
(** [ticks] rounds of 100 ms before the second is over. *)
Fixpoint isStarted (ticks : nat) (name : string) (st : control) : control * bool :=
  match ticks with
  | O => (st, false)
  | S n =>
      match IsRunning name (set_sys (time_Sleep 100 (sys st)) st) with
      | (st, true) => (st, true)
      | (st, false) => isStarted n name st
      end
  end.
Definition print_pid (name : string) (st : control) : control :=
  let '(st, pid) := Pid name st in fmt_Print ("[" +:+ app name +:+ "] " +:+ pid +:+ nl) st.
(** One round of the loop of [start]; the ticks before the timeout may differ each time. *)
Definition start_one (co : bool) (ticks : string -> nat) (name : string) (st : control) : control * option string :=
  match checkStartReq name st with
  | Some err => (st, Some err)
  | None =>
      match IsRunning name st with
      | (st, true) => (print_pid name st, None)
      | (st, false) =>
          match execModule co name st with
          | (st, Some err) => (st, Some err)
          | (st, None) =>
              match isStarted (ticks name) name st with
              | (st, true) => (print_pid name st, None)
              | (st, false) => (st, Some ("[" +:+ app name +:+ "] failed to start"))
              end
          end
      end
  end.
(** A loop over the modules that an error ends. *)
Fixpoint each (f : string -> control -> control * option string) (args : list string) (st : control) : control * option string :=
  match args with
  | [] => (st, None)
  | a :: l => match f a st with (st, None) => each f l st | (st, Some err) => (st, Some err) end
  end.
Definition or_all (args : list string) : list string := match args with [] => AllModulesInOrder | _ => args end.
Definition start_args (preq : bool) (args : list string) : list string :=
  let args := RmDup args in or_all (if preq then PreqOrder args else args).
Definition start (preq co : bool) (ticks : string -> nat) (args : list string) (st : control) : control * option string :=
  each (start_one co ticks) (start_args preq args) st.

(** * cmd/stop.go, cmd/restart.go, cmd/check.go, cmd/monitor.go *)

Definition print_down (name : string) (st : control) : control := fmt_Print ("[" +:+ app name +:+ "] down" +:+ nl) st.
Definition stop_one (name : string) (st : control) : control * option string :=
  if negb (HasModule name) then (st, Some (name +:+ " doesn't exist"))
  else
    match IsRunning name st with
    | (st, false) => (print_down name st, None)
    | (st, true) =>
        let '(st, pid) := Pid name st in
        match call (kill_TERM pid) st with
        | (st, None) => (print_down name st, None)
        | (st, Some err) => (st, Some err)
        end
    end.
Definition stop (args : list string) (st : control) : control * option string := each stop_one (or_all (RmDup args)) st.
(** The flags of [start] are not those of [restart]: they are off. *)
Definition restart_one (ticks : string -> nat) (name : string) (st : control) : control * option string :=
  match stop [name] st with
  | (st, Some err) => (st, Some err)
  | (st, None) =>
      let ms := if strings_Contains name "graph" then 2000 else 1000 in
      start false false ticks [name] (set_sys (time_Sleep ms (sys st)) st)
  end.
Definition restart (ticks : string -> nat) (args : list string) (st : control) : control * option string :=
  each (restart_one ticks) (or_all (RmDup args)) st.
(** The verb [%ns]. *)
Definition pad (n : nat) (s : string) : string := String.string_of_list_ascii (repeat " "%char (n - String.length s)) +:+ s.
Definition check_one (name : string) (st : control) : control * option string :=
  if negb (HasModule name) then (st, Some (name +:+ " doesn't exist"))
  else
    let line up pid := pad 20 (app name) +:+ " " +:+ pad 10 up +:+ " " +:+ pad 15 pid +:+ " " +:+ nl in
    match IsRunning name st with
    | (st, true) => let '(st, pid) := Pid name st in (fmt_Print (line "UP" pid) st, None)
    | (st, false) => (fmt_Print (line "DOWN" "-") st, None)
    end.
Definition check (args : list string) (st : control) : control * option string := each check_one (or_all (RmDup args)) st.
Definition checkMonReq (name : string) (st : control) : option string :=
  if negb (HasModule name) then Some (name +:+ " doesn't exist")
  else if negb (HasLogfile name st) then Some ("expect logfile: " +:+ Rel (LogPath name (sys st)) (sys st))
  else None.
(** [usage]: what [c.Usage] prints and returns. *)
Definition monitor (usage : control -> control * option string) (args : list string) (st : control) : control * option string :=
  match args with
  | [] => usage st
  | _ => match head (omap (fun name => checkMonReq name st) args) with
         | Some err => (st, Some err)
         | None => call (tail ("-f" :: map (fun name => LogPath name (sys st)) args)) st
         end
  end.
Definition reload (usage : control -> control * option string) (args : list string) (st : control) : control * option string :=
  match args with [_] => (st, None) | _ => usage st end.
End Control.

(** * Lists of arguments *)

Lemma sublist_all {A : Type} (l1 l2 : list A) : l1 `sublist_of` l2 -> (length l2 <= length l1)%nat -> l1 = l2.
Proof. induction 1 as [|x l1 l2 _ IH|x l1 l2 Hs IH]; cbn; intros Hl; [done|f_equal; apply IH; lia|]. apply sublist_length in Hs. lia. Qed.
Lemma rm_dup_fold args ret (seen : gset string) : (forall x, x ∈ ret <-> x ∈ seen) -> NoDup ret ->
  exists l, fst (fold_left rm_dup_step args (ret, seen)) = ret ++ l /\ NoDup (ret ++ l) /\ l `sublist_of` args /\ forall x, x ∈ ret ++ l <-> x ∈ ret \/ x ∈ args.
Proof.
  revert ret seen. induction args as [|a args IH]; intros ret seen Hs Hn.
  { exists []. rewrite app_nil_r. split_and!; [done|done|done|]. intros x. rewrite elem_of_nil. naive_solver. }
  cbn [fold_left rm_dup_step]. destruct (bool_decide_reflect (a ∈ seen)) as [Ha|Ha].
  - destruct (IH ret seen Hs Hn) as (l & E & Hnl & Hsub & Hel). exists l. split_and!; [done|done|by apply sublist_cons|].
    intros x. rewrite Hel, elem_of_cons. split; [naive_solver|]. intros [?|[->|?]]; [by left|left; by apply Hs|by right].
  - destruct (IH (ret ++ [a]) ({[a]} ∪ seen)) as (l & E & Hnl & Hsub & Hel).
    + intros x. rewrite elem_of_app, list_elem_of_singleton. set_solver.
    + apply list.NoDup_app. split_and!; [done| |apply NoDup_singleton]. intros x Hx ->%list_elem_of_singleton. by apply Ha, Hs.
    + exists (a :: l). rewrite E. rewrite <-app_assoc in *. split_and!; [done|done|by apply sublist_skip|].
      intros x. specialize (Hel x). rewrite !elem_of_app in *. rewrite !list_elem_of_singleton in *. rewrite !elem_of_cons in *. naive_solver.
Qed.
Lemma RmDup_spec args : NoDup (RmDup args) /\ RmDup args `sublist_of` args /\ forall x, x ∈ RmDup args <-> x ∈ args.
Proof.
  destruct args as [|a [|b args]]; [split_and!; [constructor|done|done]|split_and!; [apply NoDup_singleton|done|done]|].
  destruct (rm_dup_fold (a :: b :: args) [] ∅) as (l & E & Hn & Hsub & Hel); [set_solver|constructor|]. cbn [app] in *.
  change (RmDup (a :: b :: args)) with (fst (fold_left rm_dup_step (a :: b :: args) ([], ∅))). rewrite E. split_and!; [done|done|].
  intros x. rewrite Hel. rewrite elem_of_nil. naive_solver.
Qed.
Lemma RmDup_id args : NoDup args -> RmDup args = args.
Proof.
  intros Hn. destruct (RmDup_spec args) as (Hn' & Hsub & Hel). apply sublist_all; [done|]. apply Nat.eq_le_incl. symmetry.
  apply Permutation_length, list.NoDup_Permutation; [done|done|]. done.
Qed.
Lemma found_filter args : NoDup args -> found_in_order args = filter (fun n => n ∈ args) AllModulesInOrder.
Proof.
  intros Hn. unfold found_in_order. induction AllModulesInOrder as [|o l IH]; [done|]. cbn [mbind list_bind]. rewrite list.filter_cons.
  assert (filter (fun a => o = a) args = if decide (o ∈ args) then [o] else []) as ->.
  { clear IH. induction Hn as [|a args Ha Hn IHn]; [done|]. rewrite list.filter_cons. destruct (decide (o = a)) as [->|Hne].
    - rewrite decide_True by (left; done). f_equal. rewrite IHn. by rewrite decide_False.
    - rewrite IHn. apply decide_ext. rewrite elem_of_cons. naive_solver. }
  rewrite IH. by destruct (decide (o ∈ args)).
Qed.
Lemma append_missing_fold args acc : NoDup args -> fold_left append_missing args acc = acc ++ filter (fun n => n ∉ acc) args.
Proof.
  intros Hn. revert acc. induction Hn as [|a args Ha Hn IH]; intros acc; cbn [fold_left]; [by rewrite app_nil_r|].
  unfold append_missing at 2. rewrite list.filter_cons. destruct (bool_decide_reflect (a ∈ acc)) as [Hin|Hin].
  - rewrite decide_False by naive_solver. apply IH.
  - rewrite decide_True by done. rewrite IH, <-app_assoc. f_equal. cbn. f_equal. apply filter_ext_elem.
    intros x Hx. rewrite elem_of_app, list_elem_of_singleton. split; [naive_solver|]. intros Hx' [?| ->]; done.
Qed.
(** The modules of the order that were asked for, in the order, and then the other arguments
    as they came. *)
Lemma PreqOrder_spec args : NoDup args -> PreqOrder args = filter (fun n => n ∈ args) AllModulesInOrder ++ filter (fun n => n ∉ AllModulesInOrder) args.
Proof.
  intros Hn. assert (PreqOrder args = fold_left append_missing args (found_in_order args)) as -> by (by destruct args).
  rewrite append_missing_fold, found_filter by done. f_equal. apply filter_ext_elem. intros x Hx.
  rewrite list_elem_of_filter. naive_solver.
Qed.

(** * What start does *)

Section Started.
Context `{Machine}.
Definition up_on (name : string) (m : machine) : Prop := strings_TrimSpace (pgrep (app name) m) <> "".
Definition up (name : string) (st : control) : Prop := up_on name (sys st).
(** Processes do not end by themselves while the command runs. *)
Record steady : Prop := {
  steady_mkdir d m n : up_on n m -> up_on n (fst (os_MkdirAll d m));
  steady_open f m n : up_on n m -> up_on n (fst (os_OpenFile f m));
  steady_exec w bin args m n : up_on n m -> up_on n (fst (cmd_exec w bin args m));
  steady_sleep t m n : up_on n m -> up_on n (time_Sleep t m) }.

Lemma setPid_sys name st : sys (setPid name st) = sys st.
Proof using Type. done. Qed.
Lemma Pid_sys name st : sys (fst (Pid name st)) = sys st.
Proof using Type. unfold Pid. by case_bool_decide. Qed.
Lemma IsRunning_spec name st : exists st', IsRunning name st = (st', negb (bool_decide (strings_TrimSpace (pgrep (app name) (sys st)) = ""))) /\ sys st' = sys st.
Proof using Type.
  unfold IsRunning, Pid. set (st1 := setPid name st). assert (E : text_of (PidOf st1) name = strings_TrimSpace (pgrep (app name) (sys st))).
  { unfold st1, setPid, text_of. cbn. by rewrite lookup_insert_eq. }
  assert (E2 : text_of (PidOf (setPid name st1)) name = strings_TrimSpace (pgrep (app name) (sys st))).
  { unfold st1, setPid, text_of. cbn. by rewrite lookup_insert_eq. }
  destruct (bool_decide _); cbn [fst snd]; eexists; (split; [by rewrite ?E, ?E2|done]).
Qed.
Lemma print_pid_sys name st : sys (print_pid name st) = sys st.
Proof using Type. unfold print_pid. pose proof (Pid_sys name st). by destruct (Pid name st). Qed.

Context (Hsteady : steady).
Lemma call_keeps (f : machine -> machine * option string) st n : (forall m, up_on n m -> up_on n (fst (f m))) -> up n st -> up n (fst (call f st)).
Proof using Type. intros Hf Hu. unfold call. specialize (Hf _ Hu). by destruct (f (sys st)). Qed.
Lemma execModule_keeps co name st n : up n st -> up n (fst (execModule co name st)).
Proof using Hsteady.
  intros Hu. unfold execModule, openLogFile. destruct co; [apply call_keeps; [intros m; apply (steady_exec Hsteady)|done]|].
  pose proof (call_keeps (os_MkdirAll (LogDir name (sys st))) st n (fun m => steady_mkdir Hsteady _ m n) Hu) as H1. destruct (call _ st) as [st1 [e|]]; [done|]. cbn [fst] in H1.
  pose proof (call_keeps (os_OpenFile (LogPath name (sys st1))) st1 n (fun m => steady_open Hsteady _ m n) H1) as H2. destruct (call _ st1) as [st2 [e|]]; [done|]. cbn [fst] in H2.
  apply call_keeps; [intros m; apply (steady_exec Hsteady)|done].
Qed.
Lemma isStarted_spec ticks name st st' b : isStarted ticks name st = (st', b) ->
  (b = true -> up name st') /\ (b = false -> (0 < ticks)%nat -> ~ up name st') /\ forall n, up n st -> up n st'.
Proof using Hsteady.
  revert st. induction ticks as [|t IH]; intros st; cbn [isStarted]; [intros [= <- <-]; split_and!; [done|lia|done]|].
  destruct (IsRunning_spec name (set_sys (time_Sleep 100 (sys st)) st)) as (st1 & -> & Es). cbn [sys set_sys] in *.
  assert (Hk : forall n, up n st -> up n st1) by (intros n Hu; unfold up; rewrite Es; by apply (steady_sleep Hsteady)).
  destruct (bool_decide_reflect (strings_TrimSpace (pgrep (app name) (time_Sleep 100 (sys st))) = "")) as [E|E]; cbn [negb].
  - intros E1. destruct (IH _ E1) as (H1 & H2 & H3). split_and!; [done| |auto]. intros -> _. destruct t as [|t]; [|by apply H2; [|lia]].
    injection E1 as <-. unfold up, up_on. rewrite Es. by intros Hu.
  - intros [= <- <-]. split_and!; [intros _; unfold up, up_on; by rewrite Es|done|done].
Qed.
(** Why a round of [start] ends with an error: the module does not exist or has no
    configuration file, and nothing was done; or it did not run, and then it could not be
    executed, or was executed and did not run when it was last looked for. *)
Inductive failed (co : bool) (ticks : string -> nat) (name : string) (st st' : control) (e : string) : Prop :=
  | failed_req : checkStartReq name st = Some e -> st' = st -> failed co ticks name st st' e
  | failed_exec st1 : checkStartReq name st = None -> ~ up name st -> sys st1 = sys st -> execModule co name st1 = (st', Some e) -> failed co ticks name st st' e
  | failed_wait : checkStartReq name st = None -> ~ up name st -> e = "[" +:+ app name +:+ "] failed to start" ->
      ((0 < ticks name)%nat -> ~ up name st') -> failed co ticks name st st' e.

(** A round of [start] leaves what runs running; without an error its module runs. *)
Lemma start_one_spec co ticks name st st' err : start_one co ticks name st = (st', err) ->
  (forall n, up n st -> up n st') /\
  match err with
  | None => HasModule name = true /\ up name st'
  | Some e => failed co ticks name st st' e
  end.
Proof using Hsteady.
  unfold start_one. destruct (checkStartReq name st) as [e|] eqn:Ec; [intros [= <- <-]; split; [done|by apply failed_req]|].
  assert (HasModule name = true) as Hm by (unfold checkStartReq in Ec; destruct (HasModule name); done).
  destruct (IsRunning_spec name st) as (st1 & -> & Es). assert (H1 : forall n, up n st -> up n st1) by (intros n; unfold up; by rewrite Es).
  destruct (bool_decide_reflect (strings_TrimSpace (pgrep (app name) (sys st)) = "")) as [E|E]; cbn [negb].
  - assert (~ up name st) as Hno by (intros Hu; by apply Hu). pose proof (fun n => execModule_keeps co name st1 n) as H2.
    destruct (execModule co name st1) as [st2 [e|]] eqn:Ex; cbn [fst] in H2.
    { intros [= <- <-]. split; [auto|]. by eapply failed_exec. }
    destruct (isStarted _ name st2) as [st3 [|]] eqn:E3; destruct (isStarted_spec _ _ _ _ _ E3) as (H3 & H4 & H5).
    + intros [= <- <-]. unfold up in *. rewrite print_pid_sys. auto.
    + intros [= <- <-]. split; [auto|]. by apply failed_wait; auto.
  - intros [= <- <-]. unfold up in *. rewrite print_pid_sys. split; [auto|]. split; [done|]. by rewrite Es.
Qed.
Lemma each_start co ticks l st st' err : each (start_one co ticks) l st = (st', err) ->
  (forall n, up n st -> up n st') /\
  match err with
  | None => Forall (fun n => HasModule n = true /\ up n st') l
  | Some e => exists pre m post st1, l = pre ++ m :: post /\ each (start_one co ticks) pre st = (st1, None) /\ start_one co ticks m st1 = (st', Some e)
      /\ Forall (fun n => HasModule n = true /\ up n st') pre /\ failed co ticks m st1 st' e
  end.
Proof using Hsteady.
  revert st. induction l as [|a l IH]; intros st; cbn [each]; [intros [= <- <-]; by split|].
  destruct (start_one co ticks a st) as [st1 [e|]] eqn:E1; pose proof (start_one_spec _ _ _ _ _ _ E1) as [Hk Hr].
  - intros [= <- <-]. split; [done|]. by exists [], a, l, st.
  - intros E. destruct (IH _ E) as [Hk2 Hr2]. split; [auto|]. destruct err as [e|].
    + destruct Hr2 as (pre & m & post & st2 & -> & Ep & Em & Hf & Hc). exists (a :: pre), m, post, st2. cbn [each]. rewrite E1. destruct Hr. by split_and!; auto.
    + destruct Hr. by constructor; auto.
Qed.

(** The list that [start] works through. *)
Lemma start_args_spec preq args :
  start_args preq args = if bool_decide (args = []) then AllModulesInOrder
    else if preq then filter (fun n => n ∈ args) AllModulesInOrder ++ filter (fun n => n ∉ AllModulesInOrder) (RmDup args) else RmDup args.
Proof using Type.
  unfold start_args. destruct (RmDup_spec args) as (Hn & Hsub & Hel). case_bool_decide as Ha; [subst; by destruct preq|].
  assert (Hne : RmDup args <> []) by (destruct args as [|a l]; [done|]; intros E; specialize (Hel a); rewrite E in Hel; apply (not_elem_of_nil a), Hel; left).
  destruct preq; [|by destruct (RmDup args)].
  assert (PreqOrder (RmDup args) <> []) as Hp.
  { intros E. destruct (RmDup args) as [|a l] eqn:Er; [done|]. rewrite PreqOrder_spec in E by done. apply app_eq_nil in E as [E1 E2].
    destruct (decide (a ∈ AllModulesInOrder)) as [Hin|Hin].
    - apply (not_elem_of_nil a). rewrite <-E1. apply list_elem_of_filter. split; [left|done].
    - apply (not_elem_of_nil a). rewrite <-E2. apply list_elem_of_filter. split; [done|left]. }
  assert (or_all (PreqOrder (RmDup args)) = PreqOrder (RmDup args)) as -> by (by destruct (PreqOrder (RmDup args))).
  rewrite PreqOrder_spec by done. f_equal. apply filter_ext_elem. intros x _. apply Hel.
Qed.

(** C39. On a machine whose processes do not end by themselves, [start] works through each of
    the modules once - all when none was named, in the order of deployment, and with the flag
    the named ones in that order first. Without an error every one of them is running at the
    end; with an error those before the one that failed are, and none after it was touched:
    it does not exist or has no configuration file, and nothing was done with it; or it was not
    running before, and it could not be executed, or it was and is not running when it was last
    looked for, if it was looked for before the second was over. A module that was running is
    never stopped. (The help of the command lists [all] among the modules, but the code has no
    such module: it is refused as one that does not exist, [all_refused].) *)
Theorem start_brings_up preq co ticks args st st' err :
  start preq co ticks args st = (st', err) ->
  let l := start_args preq args in
  l = (if bool_decide (args = []) then AllModulesInOrder
       else if preq then filter (fun n => n ∈ args) AllModulesInOrder ++ filter (fun n => n ∉ AllModulesInOrder) (RmDup args) else RmDup args) /\
  (forall n, up n st -> up n st') /\
  match err with
  | None => Forall (fun n => HasModule n = true /\ up n st') l
  | Some e => exists pre m post st1, l = pre ++ m :: post /\ each (start_one co ticks) pre st = (st1, None) /\ start_one co ticks m st1 = (st', Some e)
      /\ Forall (fun n => HasModule n = true /\ up n st') pre /\ failed co ticks m st1 st' e
  end.
Proof using Hsteady.
  intros E l. split; [apply start_args_spec|]. unfold start in E. destruct (each_start _ _ _ _ _ _ E) as [H1 H2]. by split.
Qed.
End Started.

(** * Examples *)

(** A machine with the command lines of its processes; the pid is the number of the entry. A
    process that got a signal goes on for [linger] sleeps. *)
Record toy_process := mkToyProcess { line : string; ending : option nat }.
Definition toy_pids (text : string) (ps : list (option toy_process)) : list string :=
  omap (fun '(i, p) => match p with Some p => if strings_Contains (line p) text then Some (strconv_Itoa (Z.of_nat i)) else None | None => None end) (imap pair ps).
Definition toy_age (p : option toy_process) : option toy_process :=
  match p with
  | Some (mkToyProcess l (Some (S (S n)))) => Some (mkToyProcess l (Some (S n)))
  | Some (mkToyProcess l (Some _)) => None
  | _ => p
  end.
Definition toy_signal (linger : nat) (pid : string) (ps : list (option toy_process)) : list (option toy_process) * option string :=
  if bool_decide (pid ∈ toy_pids "" ps) then
    (imap (fun i p => if bool_decide (strconv_Itoa (Z.of_nat i) = pid) then match p with Some p => if (linger =? 0)%nat then None else Some (mkToyProcess (line p) (Some linger)) | None => None end else p) ps, None)
  else (ps, Some "kill: arguments must be process or job IDs").
Definition toy (linger : nat) : Machine := {|
  machine := list (option toy_process);
  os_Getwd _ := Some "/opt/falcon";
  os_Stat _ _ := true;
  os_MkdirAll _ m := (m, None);
  os_OpenFile _ m := (m, None);
  pgrep text m := strings_Join (toy_pids text m) nl;
  cmd_exec _ bin args m := (m ++ [Some (mkToyProcess (strings_Join (bin :: args) " ") None)], None);
  kill_TERM pid m := toy_signal linger pid m;
  tail _ m := (m, None);
  time_Sleep _ m := map toy_age m |}.
Definition idle (linger : nat) : @control (toy linger) := @mkControl (toy linger) PidOf_init [] [].
Definition show {l : nat} (r : @control (toy l) * option string) : list string * option string := (@printed (toy l) (fst r), snd r).

Example toy_paths : @Bin (toy 0) "agent" [] = "/opt/falcon/agent/bin/falcon-agent" /\ @LogDir (toy 0) "agent" [] = "/opt/falcon/agent/logs"
  /\ @Rel (toy 0) (@Cfg (toy 0) "api" []) [] = "api/config/cfg.json".
Proof. by vm_compute. Qed.
Example toy_start : show (@start (toy 0) true false (fun _ => 9%nat) ["agent"; "graph"; "agent"] (idle 0)) = (["[falcon-graph] 0" +:+ nl; "[falcon-agent] 1" +:+ nl], None).
Proof. by vm_compute. Qed.
Example toy_unknown : snd (show (@start (toy 0) false false (fun _ => 9%nat) ["graph"; "grafana"; "agent"] (idle 0))) = Some "grafana doesn't exist".
Proof. by vm_compute. Qed.
(** The name all, which the help lists. *)
Example all_refused : show (@start (toy 0) false false (fun _ => 9%nat) ["all"] (idle 0)) = ([], Some "all doesn't exist").
Proof. by vm_compute. Qed.
(** Two processes of a module: their pids are one argument of kill, which refuses it. *)
Example two_pids : let st := @mkControl (toy 0) PidOf_init [Some (mkToyProcess "/a/falcon-graph" None); Some (mkToyProcess "/b/falcon-graph" None)] [] in
  snd (@stop (toy 0) ["graph"] st) = Some "kill: arguments must be process or job IDs".
Proof. by vm_compute. Qed.
(** A module that takes longer to end than restart waits is found running, not started again,
    and is gone soon after: restart reported no error. *)
Example restart_leaves_down :
  let st := fst (@start (toy 2) false false (fun _ => 9%nat) ["judge"] (idle 2)) in
  let '(st, err) := @restart (toy 2) (fun _ => 9%nat) ["judge"] st in
  err = None /\ snd (@IsRunning (toy 2) "judge" st) = true /\ snd (@IsRunning (toy 2) "judge" (@set_sys (toy 2) (@time_Sleep (toy 2) 1000 (@sys (toy 2) st)) st)) = false.
Proof. by vm_compute. Qed.

(** A machine that only starts processes. *)
Definition calm : Machine := {|
  machine := list string;
  os_Getwd _ := Some "/opt/falcon";
  os_Stat _ _ := true;
  os_MkdirAll _ m := (m, None);
  os_OpenFile _ m := (m, None);
  pgrep text m := if existsb (fun l => strings_Contains l text) m then "7" else "";
  cmd_exec _ bin args m := (m ++ [strings_Join (bin :: args) " "], None);
  kill_TERM _ m := (m, Some "kill: Operation not permitted");
  tail _ m := (m, None);
  time_Sleep _ m := m |}.
Lemma calm_steady : @steady calm.
Proof.
  constructor; try done. intros w bin args m n. unfold up_on. cbn [pgrep calm cmd_exec fst]. rewrite existsb_app. by destruct (existsb _ m).
Qed.
Definition calm_start : @control calm * option string := @start calm true false (fun _ => 9%nat) ["agent"; "graph"] (@mkControl calm PidOf_init [] []).
Lemma calm_started : snd calm_start = None.
Proof. by vm_compute. Qed.
Lemma start_brings_up_witness : @steady calm /\ Forall (fun n => HasModule n = true /\ @up calm n (fst calm_start)) ["graph"; "agent"].
Proof.
  split; [exact calm_steady|].
  destruct (@start_brings_up calm calm_steady true false (fun _ => 9%nat) ["agent"; "graph"] (@mkControl calm PidOf_init [] []) (fst calm_start) None) as (_ & _ & Hf).
  - unfold calm_start. rewrite <-calm_started. apply surjective_pairing.
  - exact Hf.
Defined.
